(* ===== verification/_CoqProject ===== *)
-Q . S2P
Prelude.v
Fc.v
Config.v
Authority.v
Asset.v
VestingBalance.v
Objects.v
Database.v
Sample.v
Balances.v
Fees.v
ObFee.v
Reputation.v
Exceptions.v
Transfer.v
Listing.v
ListingInv.v
Escrow.v
EscrowProps.v
Bonus.v
WitnessSchedule.v
Exchange.v
VestingEval.v
Market.v
MarketProps.v
MarketSteps.v
MarketBook.v
PriceFeeds.v
PriceFeedProps.v
MarketEval.v
MarketEvalProps.v
MarketTheorems.v
AssetOps.v
AssetText.v
AssetEval.v
AssetProps.v
AssetTheorems.v
Upkeep.v
UpkeepProps.v
VoteCount.v
PopScores.v
Elections.v
Budget.v
Fba.v
Maintenance.v
Revival.v
BuybackProps.v
MaintenanceProps.v
WithdrawPermission.v
Governance.v
GovernanceProps.v
AccountName.v
UndoDb.v
UndoRefine.v
ForkDb.v
BlockStore.v
BlockChain.v
BlockChainTheorems.v
BlockProduction.v
AuthorityTheorems.v
Proposal.v
ProposalProps.v
ProposalTheorems.v
SecondaryIndex.v
AccountIndexes.v
Accounts.v
AccountProps.v
AccountTheorems.v
Confidential.v
SmallOps.v
Operations.v
FeeSchedule.v
ChainState.v
ChainProps.v
TransactionTheorems.v
BlockApply.v
BlockProps.v
BlockTheorems.v
Genesis.v
GenesisTheorems.v
