(* ===== verification/Prelude.v ===== *)
(** * Verification of the OmniCoin2 chain library

    OmniCoin2 is a Graphene blockchain with a marketplace on top.  Every node
    applies the same blocks to the same object database; the code that does
    so, [libraries/chain] on top of [libraries/db], is the subject of this
    development.  A block brings transactions, a transaction operations; an
    operation is checked by its [validate] method and run by an evaluator
    ([do_evaluate], then [do_apply]) inside an undo session of the object
    database, so that an exception leaves no trace.  Fees, balances and
    vesting deposits are shared by all evaluators.  At fixed intervals a block
    also runs the maintenance of the chain: votes are counted, witnesses and
    committee elected, fees and pay distributed.  The fork database holds the
    competing blocks between which the chain may have to switch.

    ** How the code is modelled

    An operation is a function from the database record to [result]: the new
    database, or the exception it ends with.  Handlers of the source
    ([try]/[catch]) are [try_catch], which catches exceptions but neither
    undefined behaviour nor an endless loop; both are values of [exn] of their
    own, and the theorems show where they cannot occur.  A handler that keeps
    what was changed before the exception is modelled by functions that
    return the database on both ways.  Integers are [Z]; where the source
    wraps or checks, so does the model ([wrap_u32], [wrap_i64], the checked
    operations of [Fc]).  Tables with ids are [gmap]s with the next id; a
    modification that breaks a unique key throws.

    Code outside the repository is a parameter with stated laws: the number
    types of fc and Boost ([Fc.FcArith], [Fc.BoostArith]), strings and
    addresses of fc ([Exchange.FcString], [AssetText.FcToString],
    [Accounts.FcIp]), [std::nth_element] ([PriceFeeds.NthElement]), addresses
    of keys ([AccountIndexes.KeyAddress]), packing and hashing of blocks
    ([ForkDb.BlockDigest], [BlockStore.BlockPack]), what a block holds
    besides the id of the one before ([BlockApply.BlockContents]), the hashes
    of the Merkle tree ([BlockApply.MerkleHash]), the digest of a transaction
    ([ChainState.TransactionDigest]), packed sizes ([FeeSchedule.PackSizes]),
    commitments and their sums ([Confidential.Pedersen], whose laws are stated
    in the logarithms of the commitments, so that one commitment can be opened
    to any value), the iteration order
    of hashed containers ([UndoDb.IterationOrder]), the unique keys of an
    index ([UndoDb.UniqueKeys]).  The addresses of a key and the fee schedule
    within the chain parameters are arguments ([key_addresses],
    [current_fees]).  [Fc.fc_reference] and [Fc.boost_reference] meet the
    laws; the examples run on them.

    Components meet at interfaces.  [Fees.Evaluator] is what the framework
    calls of an operation; [Proposal.ProposalHost] what proposals ask of the
    operations in them, met by [ChainState.proposal_host];
    [BlockChain.ChainState] what fork switching asks of the application of a
    block, met by [BlockTheorems.node_chain]: besides the new state the events
    that trim the undo history and the fork database of the node behind the
    last irreversible block (the number of sessions that an operation opens
    inside its own is a parameter).  The fee an operation must pay
    is an argument of [Fees.start_evaluate]; [FeeSchedule.required_fee]
    computes it, and [ChainState.apply_level] puts the two together.

    ** The files

    Foundations
    - [Prelude]: results, exceptions, notation, tactics, sums over maps,
      machine integers.
    - [Fc], [Config]: library numbers; constants of [config.hpp].
    - [Asset], [AssetText]: [protocol/asset.hpp], [asset.cpp]: amounts, prices,
      conversions, call prices, price feeds; printing and reading of amounts.
    - [Objects], [Database]: the object records; tables, getters, white- and
      blacklists, and the measure [imbalance] of the accounting theorems.
    - [Balances], [VestingBalance]: [db_balance.cpp]; the two policies of
      [vesting_balance_object.cpp].
    - [Fees]: [account_object.cpp] (splitting of fees), [evaluator.cpp] and
      [evaluator.hpp] as the class [Evaluator], [fee_schedule.cpp].  The
      class [EvaluatorConserves] is what an evaluator owes the framework; the
      framework's theorem is proved from it and the evaluators discharge it.
    - [Exceptions]: which runs can only end with a value or an exception.
    - [Sample]: the concrete ledger of the examples.

    Operations
    - [ObFee], [Transfer], [Exchange], [VestingEval]: OmniBazaar fees,
      transfers and sales, exchanges with other currencies, vesting balances.
    - [Listing], [ListingInv]; [Escrow], [EscrowProps]; [Bonus]: the
      marketplace ([chain/omnibazaar]) and the bonus programmes
      ([db_bonus.cpp]), with the clean-up loops of [db_update.cpp].
    - [Market], [MarketProps], [MarketSteps], [MarketBook], [MarketEval],
      [MarketEvalProps], [MarketTheorems]: [db_market.cpp],
      [market_evaluator.cpp]: matching, margin calls, settlement.
    - [PriceFeeds], [PriceFeedProps], [AssetOps], [AssetEval], [AssetProps],
      [AssetTheorems]: [asset_evaluator.cpp], [protocol/asset_ops.cpp],
      [asset_object.cpp].
    - [AccountName], [Accounts], [AccountProps], [AccountTheorems]:
      [protocol/account.cpp], [account_evaluator.cpp],
      [special_authority.cpp], [buyback.cpp].
    - [Governance], [GovernanceProps]: committee members, witnesses, workers,
      vote ids and the change of chain parameters.
    - [WithdrawPermission]: [withdraw_permission_evaluator.cpp].
    - [Authority], [AuthorityTheorems]:
      [protocol/authority.hpp], [protocol/transaction.cpp].
    - [Proposal], [ProposalProps], [ProposalTheorems]:
      [proposal_evaluator.cpp], [proposal_object.cpp], [push_proposal].
    - [Confidential]: [confidential_evaluator.cpp],
      [protocol/confidential.cpp].
    - [SmallOps]: genesis balances, assertions, custom operations, the
      verification of accounts, reserved names.

    Maintenance ([db_maint.cpp])
    - [VoteCount], [Elections]: [vote_count.hpp], the tally and the elections.
    - [Reputation], [PopScores]: votes of reputation, [pop_weights.cpp], the
      scores of Proof of Participation.
    - [Budget], [Fba]: pay of witnesses and workers, fee accumulators.
    - [Maintenance], [Revival], [BuybackProps], [MaintenanceProps]: the whole
      of [perform_chain_maintenance], the revival of settled assets, the
      orders of buyback accounts.
    - [WitnessSchedule]: [db_witness_schedule.cpp] and the per-block updates
      of [db_update.cpp].
    - [Upkeep], [UpkeepProps]: expired orders, due settlements and expired
      feeds ([db_update.cpp]).

    Operations, transactions and blocks on the whole state
    - [Operations]: the union of all operations ([protocol/operations.hpp]),
      with validation, required authorities and impacted accounts.
    - [FeeSchedule]: [fee_schedule.cpp] and every [calculate_fee].
    - [ChainState]: the state of the chain, the registered evaluators,
      [apply_operation] and [_apply_transaction].
    - [ChainProps], [TransactionTheorems]: no operation moves the clock; what
      operations of the whole state keep; accepted transactions.
    - [BlockApply], [BlockProps], [BlockTheorems]: [apply_block] with all its
      steps, and the theorems on applied blocks.
    - [Genesis], [GenesisTheorems]: [init_genesis] ([db_init.cpp]).

    Storage and the chain of blocks
    - [UndoDb], [UndoRefine]: [undo_database.cpp], [generic_index.hpp],
      [object_database.cpp]; the specification by snapshots.
    - [SecondaryIndex], [AccountIndexes]: the callbacks of [index.hpp] and the
      secondary indexes of escrows, proposals and accounts.
    - [ForkDb], [BlockStore]: [fork_database.cpp], [block_database.cpp].
    - [BlockChain], [BlockChainTheorems], [BlockProduction]: [db_block.cpp]:
      fork switching, pending transactions, production of blocks.

    ** What the theorems show

    - Rollback.  For every sequence of changes and session operations the undo
      history behaves as a stack of complete snapshots, as long as no
      modification changes a unique key; a dropped session restores the
      database exactly; pushing a block is atomic on the chain, also half way
      through a fork switch, as far as the blocks can be taken back, and the
      state stays the result of a chain.
    - Accounting.  A chain starts in balance (holdings equal supplies), and
      every asset is conserved (holdings minus supply) by the fee framework
      for every evaluator that conserves it, by the modelled operations apart
      from the defects below, and by the whole maintenance; the balances that
      change, and by how much, are stated for the main operations.
    - Transactions and blocks.  An accepted transaction is authorised, in
      time and new; an applied block extends the head and is by the witness
      whose turn it is; whatever blocks a node is given, no transaction is
      applied twice on its chain; the Merkle root binds the transactions of a
      block; operations nest at most two levels deep; what each operation
      must pay.
    - Authority.  What is accepted is authorised, what the signatures justify
      is accepted, proposals execute only what their approvals allow, a permit
      whose end has not wrapped around is never overdrawn, and the authority made of votes is a majority.
    - Markets.  Price and time priority, fair matches, margin calls, the
      median of the feeds, settlement and revival; the upkeep of the market at
      the end of a block ends and conserves every asset.
    - Governance.  The tally counts every account once; the best candidates
      are elected; vote ids are never given out twice; the parameters in force
      were validated; pay stays within the released part of the reserve.
    - Accounts.  Names follow their grammar, the account table stays well
      formed, the secondary indexes say what a search of the table would say,
      the registration fee returns to its value at maintenance.
    - Escrows and listings.  Life cycle, stock of a listing, uniqueness of
      listing hashes, counters of published listings, clean-up loops that end.
    - Schedule.  A shuffled schedule gives each active witness one slot per
      round; the last irreversible block never goes back and is confirmed by
      enough witnesses.
    - Numbers.  Conversions never gain value and never overflow silently, the
      rounding loops end, texts of amounts read back, scores stay in range.
    - Defects.  Some theorems and examples state what the code allows although
      it should not: fees that create currency, an escrow that cannot be
      returned, a clean-up loop without end, a proxy that does not exist and
      stops the chain, an undone removal that an index does not see, an
      operation without an evaluator, a Merkle root that two lists share, an
      undo that stops at a unique key, a permit overdrawn by a wrapped time.

    ** Bounds

    Loops that are not structural take fuel, and the theorems show that it
    suffices.  Clean-up loops: as many rounds as there are objects, since every
    round removes one.  [Asset.loop_fuel] is 64: the loop halves a 128-bit
    fraction until it fits 64 bits.  [Fees.raise_fuel] is 2: the rounded fee
    is at most one unit short.  [VoteCount.isqrt] takes 33 rounds, one per bit
    of the root.  [AccountName.valid_labels] takes one round more than the
    name has characters.  The walks of [ForkDb.fetch_branch_from] take the
    height of the higher block, since every step goes one block down.
    [ChainState.levels] is 2: a proposal cannot contain the approval of a
    proposal.  The Merkle loop takes as many rounds as there are digests,
    since every round shortens the list.  The loops over reserved ids in
    [Genesis] give out an id in every round.  Due settlements take three rounds
    each and one match per margin position.

    ** What is not modelled

    Networking, the wallet, the API server and plugins are input and output
    around the chain library; block files are modelled without the file
    system.  Cryptography (signatures, hashes) is in fc.  A buyback order of
    maintenance that fails in the middle of its writes keeps what was done
    before; such a run has no result in the model.  The reading
    of a genesis file, reindexing, debug updates, the signals to observers, the
    results of operations and the building of bonus transactions are not
    modelled.
*)

From stdpp Require Import gmap list strings.
From Stdlib Require Import ZArith Lia Sorting.Sorted.

Local Open Scope Z_scope.

(** ** Exceptions and the result monad

    Every [FC_ASSERT], [GRAPHENE_ASSERT] and throwing library call of the
    source ends the current operation with an exception; the caller rolls the
    database back.  An operation is therefore a function into [result]: the
    new state is only visible on the [Ok] branch. *)

Inductive exn : Set :=
  | assert_exception            (* FC_ASSERT *)
  | overflow_exception          (* fc::safe *)
  | unknown_object              (* db.get of a missing object *)
  | arithmetic_exception        (* division by zero in a library number type *)
  | insufficient_fee
  | unlinkable_block_exception
  | undo_database_exception
  | black_swan_exception
  | insufficient_feeds
  | call_order_update_unfilled_margin_call
  | invalid_committee_approval
  | tx_missing_active_auth
  | tx_missing_owner_auth
  | tx_missing_other_auth
  | tx_irrelevant_sig
  | tx_duplicate_sig
  | proposal_create_review_period_required
  | proposal_create_review_period_insufficient
  | transfer_from_account_not_whitelisted
  | transfer_to_account_not_whitelisted
  | transfer_restricted_transfer_asset
  | override_transfer_not_permitted
  | asset_reserve_invalid_on_mia
  | account_create_max_auth_exceeded
  | account_create_auth_account_not_found
  | account_update_max_auth_exceeded
  | account_update_auth_account_not_found
  | account_create_buyback_incorrect_issuer
  | account_create_buyback_already_exists
  | account_create_buyback_too_many_markets
  | blind_transfer_unknown_commitment
  | balance_claim_owner_mismatch
  | balance_claim_invalid_claim_amount
  | balance_claim_claimed_too_often
  | internal_verify_auth_max_auth_exceeded
  | internal_verify_auth_account_not_found
  | thrown                      (* FC_THROW *)
  | out_of_fuel                 (* a modelled loop did not finish *)
  | undefined_behaviour.        (* a C++ precondition of the source is broken *)

#[export] Instance exn_eq_dec : EqDecision exn.
Proof. solve_decision. Defined.

Inductive result (A : Type) : Type :=
  | Ok (a : A)
  | Throw (e : exn).
Arguments Ok {A} a.
Arguments Throw {A} e.

Definition rbind {A B} (c : result A) (k : A → result B) : result B :=
  match c with Ok a => k a | Throw e => Throw e end.

Definition require (b : bool) (e : exn) : result unit :=
  if b then Ok tt else Throw e.

(** [out_of_fuel] and [undefined_behaviour] stand for runs without a result,
    not for exceptions of the source: no handler sees them. *)
Definition catchable (e : exn) : bool :=
  match e with out_of_fuel | undefined_behaviour => false | _ => true end.

(** [try { c } catch( fc::exception ) { h }]. *)
Definition try_catch {A} (c : result A) (h : result A) : result A :=
  match c with
  | Ok a => Ok a
  | Throw e => if catchable e then h else Throw e
  end.

Definition of_option {A} (e : exn) (o : option A) : result A :=
  match o with Some a => Ok a | None => Throw e end.

Definition is_ok {A} (c : result A) : bool :=
  match c with Ok _ => true | Throw _ => false end.

(** The result of a run that is known to succeed. *)
Definition get_ok {A} (c : result A) (default : A) : A :=
  match c with Ok a => a | Throw _ => default end.

Lemma get_ok_eq {A} (c : result A) x : is_ok c = true → c = Ok (get_ok c x).
Proof. by destruct c. Qed.

Fixpoint rfold {A S} (f : S → A → result S) (s : S) (l : list A) : result S :=
  match l with
  | [] => Ok s
  | x :: l' => rbind (f s x) (λ s', rfold f s' l')
  end.

Declare Scope chain_scope.
Delimit Scope chain_scope with chain.
Open Scope chain_scope.

Notation "'let*' x ':=' c 'in' k" := (rbind c (fun x => k))
  (at level 10, x pattern, c at level 100, k at level 200) : chain_scope.
Notation "'FC_ASSERT' b ';;' k" := (rbind (require b assert_exception) (fun _ => k))
  (at level 10, b at level 99, k at level 200) : chain_scope.
Notation "'GRAPHENE_ASSERT' b 'else' e ';;' k" := (rbind (require b e) (fun _ => k))
  (at level 10, b at level 99, e at level 99, k at level 200) : chain_scope.

Lemma rbind_ok {A B} (c : result A) (k : A → result B) b :
  rbind c k = Ok b ↔ ∃ a, c = Ok a ∧ k a = Ok b.
Proof. destruct c; naive_solver. Qed.

Lemma require_ok b e u : require b e = Ok u ↔ b = true.
Proof. destruct u, b; naive_solver. Qed.

Lemma of_option_ok {A} e (o : option A) a : of_option e o = Ok a ↔ o = Some a.
Proof. destruct o; naive_solver. Qed.

Lemma rbind_assoc {A B C} (c : result A) (f : A → result B) (g : B → result C) :
  rbind (rbind c f) g = rbind c (λ a, rbind (f a) g).
Proof. by destruct c. Qed.

Lemma rbind_throw {A B} (c : result A) (k : A → result B) e :
  c = Throw e → rbind c k = Throw e.
Proof. by intros ->. Qed.

Lemma rfold_app {A S} (f : S → A → result S) s l1 l2 :
  rfold f s (l1 ++ l2) = rbind (rfold f s l1) (λ s', rfold f s' l2).
Proof.
  revert s; induction l1 as [|x l1 IH]; intros s; simpl; [done|].
  rewrite rbind_assoc. destruct (f s x); simpl; auto.
Qed.

Lemma rfold_each {A} (f : A → result unit) l : rfold (λ _ x, f x) tt l = Ok tt → Forall (λ x, f x = Ok tt) l.
Proof.
  induction l as [|x l IH]; simpl; [constructor|]. intros H. apply rbind_ok in H as ([] & Hx & H). constructor; auto.
Qed.

(** An invariant of one step of a throwing loop is one of the loop. *)
Lemma rfold_invariant {A S} (f : S → A → result S) (P : S → S → Prop) l s s' :
  (∀ s, P s s) → (∀ a b c, P a b → P b c → P a c) →
  (∀ a x b, x ∈ l → f a x = Ok b → P a b) →
  rfold f s l = Ok s' → P s s'.
Proof.
  intros Hrefl Htrans. revert s.
  induction l as [|x l IH]; intros s Hstep Hf; simpl in Hf.
  - naive_solver.
  - apply rbind_ok in Hf as (s1 & H1 & H2).
    apply Htrans with s1; [apply (Hstep _ x); [left|done]|].
    apply IH; [|done]. intros a y b Hy. apply Hstep. by right.
Qed.

(** A loop whose steps all have a result under an invariant has one. *)
Lemma rfold_total {A S} (f : S → A → result S) (I : S → Prop) l s :
  (∀ s x, x ∈ l → I s → ∃ s', f s x = Ok s' ∧ I s') → I s → ∃ s', rfold f s l = Ok s' ∧ I s'.
Proof.
  revert s. induction l as [|x l IH]; intros s Hf Hs; simpl; [eauto|].
  destruct (Hf s x) as (s1 & -> & H1); [left|done|]. simpl.
  apply IH; [|done]. intros s2 y Hy. apply Hf. by right.
Qed.

(** The same, where the step for [x] also establishes [P] for [x] for good. *)
Lemma rfold_total_each {A S} (f : S → A → result S) (I : S → Prop) (P : S → A → Prop) l s :
  (∀ s x, x ∈ l → I s → ∃ s', f s x = Ok s' ∧ I s' ∧ P s' x ∧ ∀ y, P s y → P s' y) → I s →
  ∃ s', rfold f s l = Ok s' ∧ I s' ∧ (∀ y, y ∈ l → P s' y) ∧ ∀ y, P s y → P s' y.
Proof.
  revert s. induction l as [|x l IH]; intros s Hf Hs; simpl.
  { exists s. split_and!; [done..| |done]. intros y Hy. by apply not_elem_of_nil in Hy. }
  destruct (Hf s x) as (s1 & -> & H1 & Hx & Hk); [left|done|]. simpl.
  destruct (IH s1) as (s2 & -> & H2 & Hl & Hk2); [|done|].
  { intros s2 y Hy. apply Hf. by right. }
  exists s2. split_and!; [done..| |auto]. intros y [->|Hy]%elem_of_cons; auto.
Qed.

Fixpoint rmap {A B} (f : A → result B) (l : list A) : result (list B) :=
  match l with
  | [] => Ok []
  | x :: l' => rbind (f x) (λ y, rbind (rmap f l') (λ ys, Ok (y :: ys)))
  end.

Lemma rmap_ok {A B} (f : A → result B) l ys : rmap f l = Ok ys → Forall2 (λ x y, f x = Ok y) l ys.
Proof.
  revert ys. induction l as [|x l IH]; simpl; intros ys H; [injection H as <-; constructor|].
  apply rbind_ok in H as (y & Hy & H). apply rbind_ok in H as (zs & Hzs & [= <-]).
  constructor; auto.
Qed.

(** ** Tactics

    [ok_inv] takes a successful run apart: every bind, assertion and lookup
    of the run becomes a hypothesis.  [ok_step] runs one bind of a goal. *)

Ltac ok_inv1 :=
  match goal with
  | H : rbind _ _ = Ok _ |- _ =>
      let x := fresh "x" in let Hx := fresh "Hx" in
      apply rbind_ok in H; destruct H as (x & Hx & H)
  | H : require _ _ = Ok _ |- _ => apply require_ok in H
  | H : of_option _ _ = Ok _ |- _ => apply of_option_ok in H
  | H : Ok ?x = Ok ?x |- _ => clear H
  | H : Ok _ = Ok _ |- _ => injection H; clear H; intros; subst
  | H : Some ?x = Some ?x |- _ => clear H
  | H : Some _ = Some _ |- _ => injection H; clear H; intros; subst
  | H : Throw _ = Ok _ |- _ => discriminate H
  | H : Ok _ = Throw _ |- _ => discriminate H
  | H1 : ?c = Ok _, H2 : ?c = Ok _ |- _ => rewrite H1 in H2
  | H1 : ?c = Some _, H2 : ?c = Some _ |- _ => rewrite H1 in H2; injection H2; clear H2; intros; subst
  | x : unit |- _ => destruct x
  | H : andb _ _ = true |- _ => apply andb_prop in H; destruct H
  | H : negb _ = true |- _ => apply negb_true_iff in H
  | H : bool_decide _ = true |- _ => apply bool_decide_eq_true in H
  | H : bool_decide _ = false |- _ => apply bool_decide_eq_false in H
  end.

Ltac ok_inv := repeat (ok_inv1; cbn [rbind fst snd] in * ).

(** Case analysis on the scrutinee of a [match] or [if] in a hypothesis. *)
Ltac case_in H :=
  match type of H with
  | context [match ?e with _ => _ end] => destruct e eqn:?
  end.

(** Boolean comparisons as propositions. *)
Ltac b2p :=
  repeat match goal with
  | H : (_ =? _) = true |- _ => apply Z.eqb_eq in H
  | H : (_ =? _) = false |- _ => apply Z.eqb_neq in H
  | H : (_ <=? _) = true |- _ => apply Z.leb_le in H
  | H : (_ <=? _) = false |- _ => apply Z.leb_gt in H
  | H : (_ <? _) = true |- _ => apply Z.ltb_lt in H
  | H : (_ <? _) = false |- _ => apply Z.ltb_ge in H
  end.

Create HintDb chain.
Create Rewrite HintDb chain.

(** ** Sums over finite maps *)

Definition msum `{Countable K} {V} (f : K → V → Z) (m : gmap K V) : Z :=
  map_fold (λ k v acc, f k v + acc) 0 m.

Section msum.
Context `{Countable K} {V : Type}.
Implicit Types (m : gmap K V) (f g : K → V → Z).

Lemma msum_empty f : msum f (∅ : gmap K V) = 0.
Proof. unfold msum. by rewrite map_fold_empty. Qed.

Lemma msum_insert_new f m k v :
  m !! k = None → msum f (<[k:=v]> m) = f k v + msum f m.
Proof.
  intros Hk. unfold msum. rewrite map_fold_insert_L; [done| |done].
  intros; lia.
Qed.

Lemma msum_delete f m k v :
  m !! k = Some v → msum f m = f k v + msum f (delete k m).
Proof.
  intros Hk. rewrite <- (insert_delete_id m k v Hk) at 1.
  apply msum_insert_new, lookup_delete_eq.
Qed.

(** The sum after writing one key, whether the key was there or not. *)
Lemma msum_insert f m k v :
  msum f (<[k:=v]> m) = msum f m - from_option (f k) 0 (m !! k) + f k v.
Proof.
  destruct (m !! k) as [w|] eqn:Hk; simpl.
  - rewrite <- insert_delete_eq, msum_insert_new by apply lookup_delete_eq.
    rewrite (msum_delete f m k w Hk). lia.
  - rewrite msum_insert_new by done. lia.
Qed.

Lemma msum_delete_opt f m k :
  msum f (delete k m) = msum f m - from_option (f k) 0 (m !! k).
Proof.
  destruct (m !! k) as [w|] eqn:Hk; simpl.
  - rewrite (msum_delete f m k w Hk). lia.
  - rewrite delete_id by done. lia.
Qed.

Lemma msum_nonneg f m : (∀ k v, m !! k = Some v → 0 <= f k v) → 0 <= msum f m.
Proof.
  induction m as [|k v m Hk IH] using map_ind; intros Hf.
  - rewrite msum_empty. lia.
  - rewrite msum_insert_new by done.
    pose proof (Hf k v ltac:(by rewrite lookup_insert_eq)).
    enough (0 <= msum f m) by lia. apply IH. intros k' v' Hk'.
    apply (Hf k'). rewrite lookup_insert_ne; [done|congruence].
Qed.

(** With non-negative summands no single entry exceeds the sum. *)
Lemma msum_lookup_le f m k v :
  (∀ k v, m !! k = Some v → 0 <= f k v) → m !! k = Some v → f k v <= msum f m.
Proof.
  intros Hf Hk. rewrite (msum_delete f m k v Hk).
  enough (0 <= msum f (delete k m)) by lia.
  apply msum_nonneg. intros k' v' Hk'.
  apply lookup_delete_Some in Hk' as [_ ?]. eauto.
Qed.

Lemma msum_le f g m : (∀ k v, m !! k = Some v → f k v <= g k v) → msum f m <= msum g m.
Proof.
  induction m as [|k v m Hk IH] using map_ind; intros Hfg; [by rewrite !msum_empty|].
  rewrite !msum_insert_new by done.
  pose proof (Hfg k v ltac:(by rewrite lookup_insert_eq)).
  enough (msum f m <= msum g m) by lia. apply IH. intros k' v' Hk'.
  apply (Hfg k'). rewrite lookup_insert_ne; [done|congruence].
Qed.

Lemma msum_scale c f m : msum (λ k v, c * f k v) m = c * msum f m.
Proof.
  induction m as [|k v m Hk IH] using map_ind; [rewrite !msum_empty; lia|].
  rewrite !msum_insert_new by done. lia.
Qed.
End msum.

(** ** Ordered containers

    Insertion into a sorted sequence; the elements of a map or set in the
    order a sorted container of the source visits them. *)

Fixpoint insert_before {A} (before : A → A → bool) (x : A) (l : list A) : list A :=
  match l with
  | [] => [x]
  | y :: l' => if before x y then x :: l else y :: insert_before before x l'
  end.

Definition in_order {V} (before : Z * V → Z * V → bool) (m : gmap Z V) : list (Z * V) :=
  foldr (insert_before before) [] (map_to_list m).

(** [flat_set]. *)
Definition flat_elements (s : gset Z) : list Z := foldr (insert_before Z.ltb) [] (elements s).

Lemma elem_of_insert_before {A} before (x y : A) l :
  y ∈ insert_before before x l ↔ y = x ∨ y ∈ l.
Proof.
  induction l as [|z l IH]; simpl; [set_solver|].
  destruct (before x z); set_solver.
Qed.

Lemma insert_before_perm {A} before (x : A) l : insert_before before x l ≡ₚ x :: l.
Proof.
  induction l as [|z l IH]; simpl; [done|]. destruct (before x z); [done|].
  rewrite IH. apply Permutation_swap.
Qed.

Lemma sort_perm {A} (before : A → A → bool) l : foldr (insert_before before) [] l ≡ₚ l.
Proof. induction l as [|x l IH]; simpl; [done|]. by rewrite insert_before_perm, IH. Qed.

Section sorting.
Context {A : Type} (before : A → A → bool) (P : A → Prop).
Hypothesis before_asym : ∀ x y, P x → P y → before x y = true → before y x = false.
Hypothesis before_trans :
  ∀ x y z, P x → P y → P z → before x y = true → before y z = true → before x z = true.

(** [x] may stand in front of [y]. *)
Definition not_after (x y : A) : Prop := before y x = false.

Lemma insert_before_sorted x l :
  P x → Forall P l → StronglySorted not_after l → StronglySorted not_after (insert_before before x l).
Proof.
  intros Hx. induction l as [|y l IH]; simpl; intros Hl Hs; [by repeat constructor|].
  apply Forall_cons in Hl as [Hy Hl]. apply StronglySorted_inv in Hs as [Hs Hfa].
  destruct (before x y) eqn:E.
  - constructor; [by constructor|]. constructor; [by apply before_asym|].
    rewrite Forall_forall in Hl, Hfa |- *. intros z Hz. specialize (Hl _ Hz). specialize (Hfa _ Hz).
    unfold not_after in *. destruct (before z x) eqn:Ez; [|done].
    rewrite (before_trans z x y) in Hfa by done. done.
  - constructor; [by apply IH|]. rewrite Forall_forall in Hfa |- *. intros z Hz.
    apply elem_of_insert_before in Hz as [->|Hz]; [done|by apply Hfa].
Qed.

Lemma sort_sorted l : Forall P l → StronglySorted not_after (foldr (insert_before before) [] l).
Proof.
  induction l as [|x l IH]; intros Hl; simpl; [constructor|]. apply Forall_cons in Hl as [Hx Hl].
  apply insert_before_sorted; [done| |by apply IH]. rewrite Forall_forall in Hl |- *.
  intros y Hy. apply Hl. by rewrite <- (sort_perm before l).
Qed.
End sorting.


Lemma strongly_sorted_lookup {A} (R : A → A → Prop) l i j x y :
  StronglySorted R l → (i < j)%nat → l !! i = Some x → l !! j = Some y → R x y.
Proof.
  intros H. revert i j. induction H as [|z l Hs IH Hz]; intros i j Hij Hi Hj; [by rewrite lookup_nil in Hi|].
  destruct j as [|j]; [lia|]. destruct i as [|i]; simpl in *.
  - injection Hi as <-. rewrite Forall_forall in Hz. apply Hz. by eapply list_elem_of_lookup_2.
  - eapply IH; [|done..]. lia.
Qed.

Lemma NoDup_flat_elements (s : gset Z) : NoDup (flat_elements s).
Proof.
  assert (flat_elements s ≡ₚ elements s) as ->; [|apply NoDup_elements].
  unfold flat_elements. induction (elements s) as [|y l IH]; simpl; [done|].
  by rewrite insert_before_perm, IH.
Qed.

Lemma elem_of_flat_elements (s : gset Z) x : x ∈ flat_elements s ↔ x ∈ s.
Proof.
  unfold flat_elements. rewrite <- elem_of_elements.
  induction (elements s) as [|y l IH]; simpl; [done|].
  rewrite elem_of_insert_before, IH. set_solver.
Qed.

(** The ids of a table in their order. *)
Definition ids_of {V} (m : gmap Z V) : list Z := flat_elements (dom m).

Lemma elem_of_ids_of {V} (m : gmap Z V) k : k ∈ ids_of m ↔ is_Some (m !! k).
Proof. unfold ids_of. by rewrite elem_of_flat_elements, elem_of_dom. Qed.

Lemma NoDup_ids_of {V} (m : gmap Z V) : NoDup (ids_of m).
Proof. apply NoDup_flat_elements. Qed.

Lemma length_ids_of {V} (m : gmap Z V) : length (ids_of m) = size m.
Proof.
  unfold ids_of. rewrite <- (size_dom m). unfold flat_elements.
  rewrite (Permutation_length (sort_perm _ _)). done.
Qed.

(** ** Machine integers *)

Definition in_int64 (z : Z) : bool := (- 2 ^ 63 <=? z) && (z <? 2 ^ 63).
Definition in_uint64 (z : Z) : bool := (0 <=? z) && (z <? 2 ^ 64).
Definition in_uint32 (z : Z) : bool := (0 <=? z) && (z <? 2 ^ 32).
Definition in_uint16 (z : Z) : bool := (0 <=? z) && (z <? 2 ^ 16).

Definition wrap_u16 (z : Z) : Z := z mod 2 ^ 16.
Definition wrap_u32 (z : Z) : Z := z mod 2 ^ 32.
Definition wrap_u64 (z : Z) : Z := z mod 2 ^ 64.

(** Conversion to [int64_t] (two's complement). *)
Definition wrap_i64 (z : Z) : Z := (z + 2 ^ 63) mod 2 ^ 64 - 2 ^ 63.

Lemma wrap_u32_small z : 0 <= z < 2 ^ 32 → wrap_u32 z = z.
Proof. apply Z.mod_small. Qed.

Lemma wrap_u64_small z : 0 <= z < 2 ^ 64 → wrap_u64 z = z.
Proof. apply Z.mod_small. Qed.

Lemma wrap_u16_small z : 0 <= z < 2 ^ 16 → wrap_u16 z = z.
Proof. apply Z.mod_small. Qed.

Lemma wrap_i64_small z : - 2 ^ 63 <= z < 2 ^ 63 → wrap_i64 z = z.
Proof. intros. unfold wrap_i64. rewrite Z.mod_small by lia. lia. Qed.

Lemma wrap_u32_range z : 0 <= wrap_u32 z < 2 ^ 32.
Proof. apply Z.mod_pos_bound. lia. Qed.

Lemma wrap_u64_range z : 0 <= wrap_u64 z < 2 ^ 64.
Proof. apply Z.mod_pos_bound. lia. Qed.

Lemma wrap_i64_range z : - 2 ^ 63 <= wrap_i64 z < 2 ^ 63.
Proof. unfold wrap_i64. pose proof (Z.mod_pos_bound (z + 2 ^ 63) (2 ^ 64)). lia. Qed.

#[export] Hint Rewrite wrap_u32_small wrap_u64_small wrap_u16_small wrap_i64_small
  using lia : chain.

(** Floor division of a product by a larger divisor never exceeds the factor. *)
Lemma mul_div_le a p q : 0 <= a → 0 <= p → p <= q → 0 < q → 0 <= a * p / q <= a.
Proof.
  intros. split; [apply Z.div_pos; nia|].
  apply Z.div_le_upper_bound; nia.
Qed.
