(* ===== verification/Fc.v ===== *)
(** * The number and time types of the libraries the chain is built on

    [fc] and Boost are not part of the repository: [libraries/fc] is a git
    submodule and Boost is a system package.  The chain code uses of them
    [fc::safe<int64_t>] (the type [share_type]), [fc::uint128],
    [fc::time_point_sec], [boost::multiprecision::(u)int128_t],
    [boost::multiprecision::detail::find_msb] and [boost::rational<int128_t>].  They are parameters of the model: the
    classes [FcArith] and [BoostArith] hold their operations on [Z], and
    [FcArithLaws] and [BoostArithLaws] say what the chain code relies on.
    The operations are total functions on [Z] extending the ones on the
    machine types.  [fc_reference] and [boost_reference] show that the laws
    can be met; the concrete examples of the development run on them. *)

From stdpp Require Import base numbers.
From Stdlib Require Import ZArith Lia Znumtheory.
From S2P Require Import Prelude.

Local Open Scope Z_scope.

Definition u128_mod : Z := 2 ^ 128.

Definition check_int64 (z : Z) : result Z :=
  if in_int64 z then Ok z else Throw overflow_exception.

(** The number of bits set among the lowest 128. *)
Definition popcount128 (a : Z) : Z :=
  Z.of_nat (length (List.filter (λ i, Z.testbit a (Z.of_nat i)) (seq 0 128))).

Class FcArith := {
  (* fc::safe<int64_t> *)
  safe_add : Z → Z → result Z;
  safe_sub : Z → Z → result Z;
  safe_mul : Z → Z → result Z;
  safe_neg : Z → result Z;
  (* fc::uint128 *)
  u128_of_i64 : Z → Z;
  u128_add : Z → Z → Z;
  u128_sub : Z → Z → Z;
  u128_mul : Z → Z → Z;
  u128_div : Z → Z → result Z;
  u128_to_uint64 : Z → result Z;
  u128_to_integer : Z → result Z;
  u128_shl : Z → Z → Z;
  u128_shr : Z → Z → Z;
  u128_popcount : Z → Z;
  (* fc::time_point_sec *)
  time_add : Z → Z → Z;
  time_sub_seconds : Z → Z → Z
}.

(** [fc::safe] checks every operation and throws on overflow; [fc::uint128]
    is a 128-bit unsigned integer with wrap-around, whose narrowing
    conversions assert that nothing is lost; [time_point_sec] counts seconds
    in a [uint32_t]. *)
Class FcArithLaws (FC : FcArith) : Prop := {
  safe_add_spec a b : safe_add a b = check_int64 (a + b);
  safe_sub_spec a b : safe_sub a b = check_int64 (a - b);
  safe_mul_spec a b : safe_mul a b = check_int64 (a * b);
  safe_neg_spec a : safe_neg a = check_int64 (- a);
  u128_of_i64_spec a : u128_of_i64 a = a mod u128_mod;
  u128_add_spec a b : u128_add a b = (a + b) mod u128_mod;
  u128_sub_spec a b : u128_sub a b = (a - b) mod u128_mod;
  u128_mul_spec a b : u128_mul a b = (a * b) mod u128_mod;
  u128_div_spec a b :
    u128_div a b = if b =? 0 then Throw arithmetic_exception else Ok (a / b);
  u128_to_uint64_spec a :
    u128_to_uint64 a = if a <? 2 ^ 64 then Ok a else Throw assert_exception;
  u128_to_integer_spec a :
    u128_to_integer a = if a <? 2 ^ 32 then Ok a else Throw assert_exception;
  u128_shl_spec a n : 0 <= n → u128_shl a n = Z.shiftl a n mod u128_mod;
  u128_shr_spec a n : 0 <= n → u128_shr a n = Z.shiftr a n;
  u128_popcount_spec a : u128_popcount a = popcount128 a;
  time_add_spec t s : time_add t s = (t + s) mod 2 ^ 32;
  time_sub_seconds_spec t s : time_sub_seconds t s = t - s
}.

(** Values of the unsigned [boost::multiprecision::uint128_t] and [int128_t] the chain
    builds from [int64_t] amounts.  A rational is a pair of a numerator and a
    denominator. *)
Class BoostArith := {
  bu128_mul : Z → Z → Z;
  bu128_div : Z → Z → Z;
  rat_make : Z → Z → result (Z * Z);
  rat_mul : Z * Z → Z * Z → result (Z * Z);
  find_msb : Z → Z
}.

(** Lowest terms, as [boost::rational] keeps its values. *)
Definition normalise (n d : Z) : Z * Z := (n / Z.gcd n d, d / Z.gcd n d).

Class BoostArithLaws (B : BoostArith) : Prop := {
  bu128_div_nonneg a b : 0 <= bu128_div a b;
  bu128_mul_spec a b : 0 <= a < 2 ^ 64 → 0 <= b < 2 ^ 64 → bu128_mul a b = a * b;
  bu128_div_spec a b : 0 <= a < 2 ^ 128 → 0 < b < 2 ^ 128 → bu128_div a b = a / b;
  rat_make_zero n : rat_make n 0 = Throw arithmetic_exception;
  rat_make_spec n d :
    0 <= n < 2 ^ 126 → 0 < d < 2 ^ 126 → rat_make n d = Ok (normalise n d);
  rat_mul_spec n1 d1 n2 d2 :
    0 <= n1 < 2 ^ 63 → 0 < d1 < 2 ^ 63 → 0 <= n2 < 2 ^ 63 → 0 < d2 < 2 ^ 63 →
    rat_mul (n1, d1) (n2, d2) = Ok (normalise (n1 * n2) (d1 * d2));
  find_msb_spec a : 0 < a < 2 ^ 64 → find_msb a = Z.log2 a
}.

(** ** Reference instances *)

Definition fc_reference : FcArith := {|
  safe_add a b := check_int64 (a + b);
  safe_sub a b := check_int64 (a - b);
  safe_mul a b := check_int64 (a * b);
  safe_neg a := check_int64 (- a);
  u128_of_i64 a := a mod u128_mod;
  u128_add a b := (a + b) mod u128_mod;
  u128_sub a b := (a - b) mod u128_mod;
  u128_mul a b := (a * b) mod u128_mod;
  u128_div a b := if b =? 0 then Throw arithmetic_exception else Ok (a / b);
  u128_to_uint64 a := if a <? 2 ^ 64 then Ok a else Throw assert_exception;
  u128_to_integer a := if a <? 2 ^ 32 then Ok a else Throw assert_exception;
  u128_shl a n := Z.shiftl a n mod u128_mod;
  u128_shr a n := Z.shiftr a n;
  u128_popcount a := popcount128 a;
  time_add t s := (t + s) mod 2 ^ 32;
  time_sub_seconds t s := t - s
|}.

Lemma fc_reference_laws : FcArithLaws fc_reference.
Proof. by split. Qed.

Definition boost_reference : BoostArith := {|
  bu128_mul a b := (a * b) mod u128_mod;
  bu128_div a b := (a mod u128_mod) / (b mod u128_mod);
  rat_make n d := if d =? 0 then Throw arithmetic_exception else Ok (normalise n d);
  rat_mul p q := Ok (normalise (p.1 * q.1) (p.2 * q.2));
  find_msb a := Z.log2 a
|}.

Lemma boost_reference_laws : BoostArithLaws boost_reference.
Proof.
  split; try done; unfold bu128_mul, bu128_div, rat_make, boost_reference, u128_mod; intros.
  - destruct (decide (b mod 2 ^ 128 = 0)) as [->|]; [by rewrite Zdiv_0_r|].
    pose proof (Z.mod_pos_bound a (2 ^ 128)). pose proof (Z.mod_pos_bound b (2 ^ 128)).
    apply Z.div_pos; lia.
  - apply Z.mod_small. nia.
  - by rewrite !Z.mod_small by lia.
  - destruct (Z.eqb_spec d 0); [lia|done].
Qed.

(** ** Consequences used throughout *)

Lemma check_int64_ok z r : check_int64 z = Ok r ↔ r = z ∧ - 2 ^ 63 <= z < 2 ^ 63.
Proof.
  unfold check_int64, in_int64.
  destruct (Z.leb_spec (- 2 ^ 63) z), (Z.ltb_spec z (2 ^ 63)); simpl; naive_solver lia.
Qed.

Lemma check_int64_in z : - 2 ^ 63 <= z < 2 ^ 63 → check_int64 z = Ok z.
Proof. intros. by apply check_int64_ok. Qed.

Section laws.
Context {FC : FcArith} {FCL : FcArithLaws FC}.

Lemma safe_add_ok a b c : safe_add a b = Ok c ↔ c = a + b ∧ - 2 ^ 63 <= a + b < 2 ^ 63.
Proof. rewrite safe_add_spec. apply check_int64_ok. Qed.

Lemma safe_sub_ok a b c : safe_sub a b = Ok c ↔ c = a - b ∧ - 2 ^ 63 <= a - b < 2 ^ 63.
Proof. rewrite safe_sub_spec. apply check_int64_ok. Qed.

Lemma safe_mul_ok a b c : safe_mul a b = Ok c ↔ c = a * b ∧ - 2 ^ 63 <= a * b < 2 ^ 63.
Proof. rewrite safe_mul_spec. apply check_int64_ok. Qed.

Lemma safe_neg_ok a c : safe_neg a = Ok c ↔ c = - a ∧ - 2 ^ 63 <= - a < 2 ^ 63.
Proof. rewrite safe_neg_spec. apply check_int64_ok. Qed.

Lemma u128_of_i64_nonneg a : 0 <= a < u128_mod → u128_of_i64 a = a.
Proof. intros. rewrite u128_of_i64_spec. by apply Z.mod_small. Qed.

Lemma u128_mul_small a b : 0 <= a * b < u128_mod → u128_mul a b = a * b.
Proof. intros. rewrite u128_mul_spec. by apply Z.mod_small. Qed.

Lemma u128_add_small a b : 0 <= a + b < u128_mod → u128_add a b = a + b.
Proof. intros. rewrite u128_add_spec. by apply Z.mod_small. Qed.

Lemma u128_sub_small a b : 0 <= a - b < u128_mod → u128_sub a b = a - b.
Proof. intros. rewrite u128_sub_spec. by apply Z.mod_small. Qed.

Lemma u128_div_ok a b : b ≠ 0 → u128_div a b = Ok (a / b).
Proof. intros. rewrite u128_div_spec. by destruct (Z.eqb_spec b 0). Qed.

Lemma u128_to_uint64_ok a c : u128_to_uint64 a = Ok c ↔ c = a ∧ a < 2 ^ 64.
Proof.
  rewrite u128_to_uint64_spec. destruct (Z.ltb_spec a (2 ^ 64)); naive_solver lia.
Qed.

Lemma time_add_small t s : 0 <= t + s < 2 ^ 32 → time_add t s = t + s.
Proof. intros. rewrite time_add_spec. by apply Z.mod_small. Qed.
End laws.

Lemma normalise_bounds n d :
  0 <= n → 0 < d → 0 <= (normalise n d).1 <= n ∧ 0 < (normalise n d).2 <= d.
Proof.
  intros Hn Hd. unfold normalise; simpl.
  assert (0 < Z.gcd n d) as Hg.
  { pose proof (Z.gcd_nonneg n d). enough (Z.gcd n d ≠ 0) by lia.
    intros [_ ?]%Z.gcd_eq_0. lia. }
  destruct (Z.gcd_divide_r n d) as [k Hk].
  assert (d / Z.gcd n d = k) as ->.
  { rewrite Hk at 1. apply Z.div_mul. lia. }
  repeat split; [by apply Z.div_pos| | |].
  - apply Z.div_le_upper_bound; nia.
  - nia.
  - nia.
Qed.

(** The value of the fraction is unchanged. *)
Lemma normalise_value n d :
  0 < d → (normalise n d).1 * d = n * (normalise n d).2.
Proof.
  intros Hd. unfold normalise; simpl.
  assert (Z.gcd n d ≠ 0) as Hg by (intros [_ ?]%Z.gcd_eq_0; lia).
  destruct (Z.gcd_divide_l n d) as [a Ha], (Z.gcd_divide_r n d) as [b Hb].
  set (g := Z.gcd n d) in *. clearbody g.
  subst n d. rewrite !Z.div_mul by done. lia.
Qed.

Lemma normalise_pos n d : 0 < n → 0 < d → 0 < (normalise n d).1.
Proof.
  intros Hn Hd. pose proof (normalise_value n d Hd).
  pose proof (normalise_bounds n d ltac:(lia) Hd). nia.
Qed.

(** Turns the checked operations of a successful run into equations and ranges. *)
Ltac safe_inv :=
  repeat match goal with
  | H : safe_add _ _ = Ok _ |- _ => rewrite safe_add_spec in H
  | H : safe_sub _ _ = Ok _ |- _ => rewrite safe_sub_spec in H
  | H : safe_mul _ _ = Ok _ |- _ => rewrite safe_mul_spec in H
  | H : safe_neg _ = Ok _ |- _ => rewrite safe_neg_spec in H
  | H : check_int64 _ = Ok _ |- _ => apply check_int64_ok in H; destruct H as [-> H]
  end.
