(* ===== verification/Config.v ===== *)
(** * Chain constants ([libraries/chain/include/graphene/chain/config.hpp]) *)

From Stdlib Require Import ZArith String.
Local Open Scope string_scope.
Local Open Scope Z_scope.

Definition GRAPHENE_MAX_SHARE_SUPPLY : Z := 1000000000000000.
Definition GRAPHENE_BLOCKCHAIN_PRECISION : Z := 100000.
Definition GRAPHENE_100_PERCENT : Z := 10000.
Definition GRAPHENE_1_PERCENT : Z := GRAPHENE_100_PERCENT / 100.

Definition GRAPHENE_COLLATERAL_RATIO_DENOM : Z := 1000.
Definition GRAPHENE_DEFAULT_MAINTENANCE_COLLATERAL_RATIO : Z := 1750.
Definition GRAPHENE_DEFAULT_MAX_SHORT_SQUEEZE_RATIO : Z := 1500.
Definition GRAPHENE_MIN_COLLATERAL_RATIO : Z := 1001.
Definition GRAPHENE_MAX_COLLATERAL_RATIO : Z := 32000.

Definition GRAPHENE_RECENTLY_MISSED_COUNT_INCREMENT : Z := 4.
Definition GRAPHENE_RECENTLY_MISSED_COUNT_DECREMENT : Z := 3.
Definition GRAPHENE_IRREVERSIBLE_THRESHOLD : Z := 70 * GRAPHENE_1_PERCENT.
Definition GRAPHENE_MAX_UNDO_HISTORY : Z := 10000.

(** Reserved accounts. *)
Definition GRAPHENE_COMMITTEE_ACCOUNT : Z := 0.
Definition GRAPHENE_WITNESS_ACCOUNT : Z := 1.
Definition GRAPHENE_RELAXED_COMMITTEE_ACCOUNT : Z := 2.
Definition GRAPHENE_NULL_ACCOUNT : Z := 3.
Definition GRAPHENE_DEFAULT_MAX_BUYBACK_MARKETS : Z := 4.
Definition GRAPHENE_TEMP_ACCOUNT : Z := 4.
Definition GRAPHENE_PROXY_TO_SELF_ACCOUNT : Z := 5.
Definition GRAPHENE_MIN_ACCOUNT_NAME_LENGTH : Z := 1.
Definition GRAPHENE_MAX_ACCOUNT_NAME_LENGTH : Z := 63.
Definition GRAPHENE_MIN_ASSET_SYMBOL_LENGTH : Z := 3.
Definition GRAPHENE_MAX_ASSET_SYMBOL_LENGTH : Z := 16.
Definition OMNIBAZAAR_FOUNDER_ACCOUNT : Z := 6.
Definition OMNIBAZAAR_FOUNDER_ACCOUNT2 : Z := 10582.
Definition OMNIBAZAAR_KYC_ACCOUNT : Z := 7.
Definition OMNIBAZAAR_EXCHANGE_ACCOUNT : Z := 8.
Definition OMNIBAZAAR_WELCOME_ACCOUNT : Z := 9.

(** Bonus programmes. *)
Definition OMNIBAZAAR_WELCOME_BONUS_LIMIT : Z := 1405000000 * GRAPHENE_BLOCKCHAIN_PRECISION.
Definition OMNIBAZAAR_REFERRAL_BONUS_LIMIT : Z := 3000000000 * GRAPHENE_BLOCKCHAIN_PRECISION.
Definition OMNIBAZAAR_SALE_BONUS_LIMIT : Z := 2000000000 * GRAPHENE_BLOCKCHAIN_PRECISION.
Definition OMNIBAZAAR_FOUNDER_BONUS_TIME_LIMIT : Z := 60 * 60 * 24 * 365 * 4.
Definition OMNIBAZAAR_FOUNDER_BONUS_COINS_LIMIT : Z := 2522880000 * GRAPHENE_BLOCKCHAIN_PRECISION.
Definition OMNIBAZAAR_FOUNDER_BONUS_COINS_PER_SECOND : Z :=
  OMNIBAZAAR_FOUNDER_BONUS_COINS_LIMIT / OMNIBAZAAR_FOUNDER_BONUS_TIME_LIMIT.
Definition OMNIBAZAAR_WITNESS_BONUS_TOTAL_COINS : Z := 7415040000 * GRAPHENE_BLOCKCHAIN_PRECISION.
Definition OMNIBAZAAR_WITNESS_BONUS_TIME_LIMIT_1 : Z := 60 * 60 * 24 * 365 * 12.
Definition OMNIBAZAAR_WITNESS_BONUS_COINS_LIMIT_1 : Z := 3784320000 * GRAPHENE_BLOCKCHAIN_PRECISION.
Definition OMNIBAZAAR_WITNESS_BONUS_COINS_PER_SECOND_1 : Z :=
  OMNIBAZAAR_WITNESS_BONUS_COINS_LIMIT_1 / OMNIBAZAAR_WITNESS_BONUS_TIME_LIMIT_1.
Definition OMNIBAZAAR_WITNESS_BONUS_TIME_LIMIT_2 : Z := 60 * 60 * 24 * 365 * 4.
Definition OMNIBAZAAR_WITNESS_BONUS_COINS_LIMIT_2 : Z := 630720000 * GRAPHENE_BLOCKCHAIN_PRECISION.
Definition OMNIBAZAAR_WITNESS_BONUS_COINS_PER_SECOND_2 : Z :=
  OMNIBAZAAR_WITNESS_BONUS_COINS_LIMIT_2 / OMNIBAZAAR_WITNESS_BONUS_TIME_LIMIT_2.
Definition OMNIBAZAAR_WITNESS_BONUS_COINS_PER_SECOND_3 : Z :=
  2 * GRAPHENE_BLOCKCHAIN_PRECISION + 5 * GRAPHENE_BLOCKCHAIN_PRECISION / 10.

(** Governance, workers and the maintenance budget. *)
Definition GRAPHENE_MIN_TRANSACTION_SIZE_LIMIT : Z := 1024.
Definition GRAPHENE_MIN_BLOCK_INTERVAL : Z := 1.
Definition GRAPHENE_MAX_BLOCK_INTERVAL : Z := 30.
Definition GRAPHENE_MIN_BLOCK_SIZE_LIMIT : Z := GRAPHENE_MIN_TRANSACTION_SIZE_LIMIT * 5.
Definition GRAPHENE_MAX_WORKER_NAME_LENGTH : Z := 63.
Definition GRAPHENE_MAX_URL_LENGTH : Z := 127.
Definition GRAPHENE_CORE_ASSET_CYCLE_RATE : Z := 17.
Definition GRAPHENE_CORE_ASSET_CYCLE_RATE_BITS : Z := 32.
Definition OMNIBAZAAR_DEFAULT_PUBLISHER_FEE_MIN : Z := 5 * GRAPHENE_BLOCKCHAIN_PRECISION.
Definition OMNIBAZAAR_DEFAULT_PUBLISHER_FEE_MAX : Z := 500 * GRAPHENE_BLOCKCHAIN_PRECISION.

(** The first state of a chain. *)
Definition GRAPHENE_SYMBOL : string := "XOM".
Definition GRAPHENE_DEFAULT_BLOCK_INTERVAL : Z := 5.
Definition GRAPHENE_BLOCKCHAIN_PRECISION_DIGITS : Z := 5.
Definition GRAPHENE_DEFAULT_FORCE_SETTLEMENT_DELAY : Z := 60 * 60 * 24.
Definition GRAPHENE_DEFAULT_FORCE_SETTLEMENT_OFFSET : Z := 0.
Definition GRAPHENE_DEFAULT_FORCE_SETTLEMENT_MAX_VOLUME : Z := 20 * GRAPHENE_1_PERCENT.
Definition GRAPHENE_DEFAULT_PRICE_FEED_LIFETIME : Z := 60 * 60 * 24.
Definition GRAPHENE_DEFAULT_NETWORK_PERCENT_OF_FEE : Z := 20 * GRAPHENE_1_PERCENT.
Definition GRAPHENE_DEFAULT_MINIMUM_FEEDS : Z := 7.
Definition GRAPHENE_NULL_WITNESS : Z := 0.
Definition GRAPHENE_FBA_STEALTH_DESIGNATED_ASSET : Z := 743.

(** Reputation votes. *)
Definition OMNIBAZAAR_REPUTATION_MIN : Z := 0.
Definition OMNIBAZAAR_REPUTATION_MAX : Z := 10.
Definition OMNIBAZAAR_REPUTATION_DEFAULT : Z := 5.
