(* ===== verification/Authority.v ===== *)
(** * Transaction authorities ([protocol/authority.hpp], [protocol/transaction.cpp])

    Who may authorise a transaction: weighted sets of keys, addresses and
    accounts, the check of a set of signatures against them ([sign_state]),
    and [verify_authority].  Keys and addresses are numbers; which addresses a
    key has, the accounts' authorities and which authorities an operation
    needs are parameters. *)

From stdpp Require Import gmap list.
From Stdlib Require Import ZArith Lia.
From S2P Require Import Prelude Config.

Local Open Scope Z_scope.

(** ** Authorities *)

Record authority := mkAuthority {
  weight_threshold : Z;                       (* uint32_t *)
  account_auths : list (Z * Z);               (* flat_map, weights uint16_t *)
  key_auths : list (Z * Z);
  address_auths : list (Z * Z)
}.

(** [flat_map::operator[] = w]. *)
Fixpoint flat_put (k w : Z) (l : list (Z * Z)) : list (Z * Z) :=
  match l with
  | [] => [(k, w)]
  | (j, v) :: l' =>
      if k <? j then (k, w) :: l else if k =? j then (k, w) :: l' else (j, v) :: flat_put k w l'
  end.

Definition add_key_authority (k w : Z) (a : authority) : authority :=
  mkAuthority (weight_threshold a) (account_auths a) (flat_put k w (key_auths a)) (address_auths a).

Definition total_auths (l : list (Z * Z)) (acc : Z) : Z :=
  foldl (λ acc kw, wrap_u64 (acc + kw.2)) acc l.
Definition is_impossible (a : authority) : bool :=
  total_auths (address_auths a) (total_auths (key_auths a) (total_auths (account_auths a) 0))
  <? weight_threshold a.

Definition num_auths (a : authority) : Z :=
  wrap_u32 (Z.of_nat (length (account_auths a) + length (key_auths a) + length (address_auths a))).

Definition null_authority : authority := mkAuthority 1 [(GRAPHENE_NULL_ACCOUNT, 1)] [] [].

(** ** The state of a check *)

Record sign_state := mkSign {
  provided_signatures : gmap Z bool;          (* true once the signature was needed *)
  address_sigs : option (gmap Z Z * gmap Z Z);  (* of the available and of the provided keys *)
  approved_by : gset Z
}.

Section check.
Context (key_addresses : Z → list Z).
Context (get_active : Z → result (option authority)).
Context (available_keys : gset Z).

Definition new_sign_state (sigs : gset Z) : sign_state :=
  mkSign (gset_to_gmap false sigs) None {[ GRAPHENE_TEMP_ACCOUNT ]}.

Definition use_key (k : Z) (s : sign_state) : sign_state :=
  mkSign (<[k := true]> (provided_signatures s)) (address_sigs s) (approved_by s).
Definition approve (a : Z) (s : sign_state) : sign_state :=
  mkSign (provided_signatures s) (address_sigs s) (approved_by s ∪ {[ a ]}).

(** [signed_by( public_key_type )]. *)
Definition signed_by (s : sign_state) (k : Z) : bool * sign_state :=
  match provided_signatures s !! k with
  | None => if bool_decide (k ∈ available_keys) then (true, use_key k s) else (false, s)
  | Some _ => (true, use_key k s)
  end.

(** The addresses of a set of keys; a later key takes over the address of an
    earlier one. *)
Definition addresses_of (keys : gset Z) : gmap Z Z :=
  foldl (λ m k, foldl (λ m a, <[a := k]> m) m (key_addresses k)) ∅ (flat_elements keys).

(** [signed_by( address )]: the tables are built at the first call.  When
    neither of them has the address, the end iterator of the second table is
    dereferenced. *)
Definition signed_by_address (s : sign_state) (a : Z) : result (bool * sign_state) :=
  let tables := match address_sigs s with
                | Some t => t
                | None => (addresses_of available_keys, addresses_of (dom (provided_signatures s)))
                end in
  let s := mkSign (provided_signatures s) (Some tables) (approved_by s) in
  match tables.2 !! a with
  | Some k => Ok (true, use_key k s)
  | None =>
      match tables.1 !! a with
      | Some k => if bool_decide (k ∈ available_keys) then Ok (true, use_key k s) else Ok (false, s)
      | None => Throw undefined_behaviour
      end
  end.

(** A loop of [check_authority]: whether the threshold was reached, and the
    weight so far. *)
Fixpoint weigh (test : sign_state → Z → result (bool * sign_state)) (threshold : Z)
    (items : list (Z * Z)) (total_weight : Z) (s : sign_state) : result (bool * Z * sign_state) :=
  match items with
  | [] => Ok (false, total_weight, s)
  | (x, w) :: items' =>
      let* (ok, s) := test s x in
      if ok then
        let total_weight := wrap_u32 (total_weight + w) in
        if threshold <=? total_weight then Ok (true, total_weight, s)
        else weigh test threshold items' total_weight s
      else weigh test threshold items' total_weight s
  end.

(** [check_authority( const authority*, depth )]; [levels] is
    [max_recursion - depth]. *)
Fixpoint check_authority (levels : nat) (au : option authority) (s : sign_state)
    : result (bool * sign_state) :=
  match au with
  | None => Ok (false, s)
  | Some auth =>
      let threshold := weight_threshold auth in
      let* (reached, total_weight, s) :=
        weigh (λ s k, Ok (signed_by s k)) threshold (key_auths auth) 0 s in
      if reached then Ok (true, s)
      else
        let* (reached, total_weight, s) :=
          weigh signed_by_address threshold (address_auths auth) total_weight s in
        if reached then Ok (true, s)
        else
          let* (reached, total_weight, s) :=
            weigh (λ s a,
                if bool_decide (a ∈ approved_by s) then Ok (true, s)
                else match levels with
                | O => Ok (false, s)
                | S levels' =>
                    let* b := get_active a in
                    let* (ok, s) := check_authority levels' b s in
                    Ok (ok, if ok then approve a s else s)
                end) threshold (account_auths auth) total_weight s in
          if reached then Ok (true, s) else Ok (threshold <=? total_weight, s)
  end.

(** [check_authority( account_id_type )]. *)
Definition check_account (levels : nat) (id : Z) (s : sign_state) : result (bool * sign_state) :=
  if bool_decide (id ∈ approved_by s) then Ok (true, s)
  else
    let* a := get_active id in
    check_authority levels a s.

(** [remove_unused_signatures]. *)
Definition remove_unused_signatures (s : sign_state) : bool * sign_state :=
  let used := filter (λ kb, kb.2 = true) (provided_signatures s) in
  (negb (bool_decide (used = provided_signatures s)),
   mkSign used (address_sigs s) (approved_by s)).
End check.

(** ** [verify_authority] *)

(** What the operations of a transaction need, as
    [operation_get_required_authorities] collects it. *)
Record required_auths := mkRequired {
  req_active : gset Z;
  req_owner : gset Z;
  req_other : list authority
}.

Definition no_required : required_auths := mkRequired ∅ ∅ [].
Definition join_required (a b : required_auths) : required_auths :=
  mkRequired (req_active a ∪ req_active b) (req_owner a ∪ req_owner b) (req_other a ++ req_other b).

Section verify.
Context (key_addresses : Z → list Z).
Context (get_active get_owner : Z → result (option authority)).

(** Evaluating [*p] in the arguments of a failed assertion. *)
Definition deref (p : result (option authority)) : result authority :=
  let* a := p in of_option undefined_behaviour a.

Definition verify_other (levels : nat) (s : sign_state) (auth : authority) : result sign_state :=
  let* (ok, s) := check_authority key_addresses get_active ∅ levels (Some auth) s in
  GRAPHENE_ASSERT ok else tx_missing_other_auth ;; Ok s.

Definition verify_active (levels : nat) (s : sign_state) (id : Z) : result sign_state :=
  let* (ok, s) := check_account key_addresses get_active ∅ levels id s in
  if ok then Ok s
  else
    let* o := get_owner id in
    let* (ok, s) := check_authority key_addresses get_active ∅ levels o s in
    if ok then Ok s
    else
      let* _ := deref (get_active id) in
      let* _ := deref (get_owner id) in
      Throw tx_missing_active_auth.

Definition verify_owner (levels : nat) (owner_approvals : gset Z) (s : sign_state) (id : Z)
    : result sign_state :=
  if bool_decide (id ∈ owner_approvals) then Ok s
  else
    let* o := get_owner id in
    let* (ok, s) := check_authority key_addresses get_active ∅ levels o s in
    if ok then Ok s
    else
      let* _ := deref (get_owner id) in
      Throw tx_missing_owner_auth.

Definition verify_authority (ops : list required_auths) (sigs : gset Z) (max_recursion_depth : Z)
    (allow_committee : bool) (active_approvals owner_approvals : gset Z) : result unit :=
  let r := foldl join_required no_required ops in
  let* _ :=
    if allow_committee then Ok tt
    else require (bool_decide (GRAPHENE_COMMITTEE_ACCOUNT ∉ req_active r)) invalid_committee_approval in
  let s := new_sign_state sigs in
  let s := mkSign (provided_signatures s) (address_sigs s)
             (approved_by s ∪ active_approvals ∪ owner_approvals) in
  let levels := Z.to_nat max_recursion_depth in
  let* s := rfold (verify_other levels) s (req_other r) in
  let* s := rfold (verify_active levels) s (flat_elements (req_active r)) in
  let* s := rfold (verify_owner levels owner_approvals) s (flat_elements (req_owner r)) in
  require (negb (remove_unused_signatures s).1) tx_irrelevant_sig.

(** [get_signature_keys]; the keys recovered from the signatures. *)
Definition get_signature_keys (keys : list Z) : result (gset Z) :=
  rfold (λ s k, GRAPHENE_ASSERT (bool_decide (k ∉ s)) else tx_duplicate_sig ;; Ok (s ∪ {[ k ]})) ∅ keys.

Definition get_required_signatures (ops : list required_auths) (signatures : list Z)
    (available_keys : gset Z) (max_recursion_depth : Z) : result (gset Z) :=
  let r := foldl join_required no_required ops in
  let* sigs := get_signature_keys signatures in
  let levels := Z.to_nat max_recursion_depth in
  let check_one s a :=
    let* (_, s) := check_authority key_addresses get_active available_keys levels a s in Ok s in
  let* s := rfold (λ s a, check_one s (Some a)) (new_sign_state sigs) (req_other r) in
  let* s := rfold (λ s id, let* o := get_owner id in check_one s o) s (flat_elements (req_owner r)) in
  let* s := rfold (λ s id, let* (_, s) :=
                      check_account key_addresses get_active available_keys levels id s in Ok s)
              s (flat_elements (req_active r)) in
  Ok (dom (provided_signatures (remove_unused_signatures s).2) ∩ available_keys).

(** The [catch] clauses of [minimize_required_signatures]. *)
Definition missing_auth (e : exn) : bool :=
  match e with
  | tx_missing_owner_auth | tx_missing_active_auth | tx_missing_other_auth => true
  | _ => false
  end.

Definition minimize_step (ops : list required_auths) (max_recursion : Z) (result_ : gset Z) (k : Z)
    : result (gset Z) :=
  match verify_authority ops (result_ ∖ {[ k ]}) max_recursion false ∅ ∅ with
  | Ok _ => Ok (result_ ∖ {[ k ]})
  | Throw e => if missing_auth e then Ok (result_ ∖ {[ k ]} ∪ {[ k ]}) else Throw e
  end.

Definition minimize_required_signatures (ops : list required_auths) (signatures : list Z)
    (available_keys : gset Z) (max_recursion : Z) : result (gset Z) :=
  let* s := get_required_signatures ops signatures available_keys max_recursion in
  rfold (minimize_step ops max_recursion) s (flat_elements s).
End verify.
