(* ===== verification/Asset.v ===== *)
(** * Assets, prices and price feeds
    ([protocol/asset.hpp], [protocol/asset.cpp])

    An [asset] is an amount of [share_type] in a currency; a [price] is the
    ratio of two assets.  Amounts are [int64_t] values held in [Z]; every
    arithmetic step goes through the checked operations of [Fc]. *)

From stdpp Require Import base numbers list.
From Stdlib Require Import ZArith Lia.
From S2P Require Import Prelude Fc Config.

Local Open Scope Z_scope.

Record asset := mkAsset { amount : Z; asset_id : Z }.

#[export] Instance asset_eq_dec : EqDecision asset.
Proof. solve_decision. Defined.

(** The core currency, [asset_id_type()]. *)
Definition core_id : Z := 0.
(** [asset(a)] with the default id. *)
Definition core_asset (a : Z) : asset := mkAsset a core_id.

Record price := mkPrice { base : asset; quote : asset }.

Record price_feed := mkFeed {
  settlement_price : price;
  core_exchange_rate : price;
  maintenance_collateral_ratio : Z;
  maximum_short_squeeze_ratio : Z
}.

Section operations.
Context {FC : FcArith} {BA : BoostArith}.

(** ** [struct asset] *)

Definition asset_add (a b : asset) : result asset :=
  FC_ASSERT (asset_id a =? asset_id b) ;;
  let* s := safe_add (amount a) (amount b) in
  Ok (mkAsset s (asset_id a)).

Definition asset_sub (a b : asset) : result asset :=
  FC_ASSERT (asset_id a =? asset_id b) ;;
  let* s := safe_sub (amount a) (amount b) in
  Ok (mkAsset s (asset_id a)).

Definition asset_neg (a : asset) : result asset :=
  let* s := safe_neg (amount a) in
  Ok (mkAsset s (asset_id a)).

Definition asset_eqb (a b : asset) : bool :=
  (asset_id a =? asset_id b) && (amount a =? amount b).

Definition asset_ltb (a b : asset) : result bool :=
  FC_ASSERT (asset_id a =? asset_id b) ;;
  Ok (amount a <? amount b).

Definition asset_leb (a b : asset) : result bool :=
  if asset_eqb a b then Ok true else asset_ltb a b.

Definition asset_gtb (a b : asset) : result bool :=
  let* r := asset_leb a b in Ok (negb r).

Definition asset_geb (a b : asset) : result bool :=
  let* r := asset_ltb a b in Ok (negb r).

Fixpoint p10 (n : nat) : Z :=
  match n with O => 1 | S n' => 10 * p10 n' end.

Definition scaled_precision_lut : list Z := map p10 (seq 0 19).

Definition scaled_precision (precision : Z) : result Z :=
  FC_ASSERT (precision <? 19) ;;
  of_option undefined_behaviour (scaled_precision_lut !! Z.to_nat precision).

(** ** [struct price] *)

Definition price_eqb (a b : price) : bool :=
  if negb ((asset_id (base a) =? asset_id (base b))
           && (asset_id (quote a) =? asset_id (quote b)))
  then false
  else
    let amult := bu128_mul (amount (quote b)) (amount (base a)) in
    let bmult := bu128_mul (amount (quote a)) (amount (base b)) in
    amult =? bmult.

Definition price_ltb (a b : price) : bool :=
  if asset_id (base a) <? asset_id (base b) then true
  else if asset_id (base b) <? asset_id (base a) then false
  else if asset_id (quote a) <? asset_id (quote b) then true
  else if asset_id (quote b) <? asset_id (quote a) then false
  else
    let amult := bu128_mul (amount (quote b)) (amount (base a)) in
    let bmult := bu128_mul (amount (quote a)) (amount (base b)) in
    amult <? bmult.

Definition price_leb (a b : price) : bool := price_eqb a b || price_ltb a b.
Definition price_neqb (a b : price) : bool := negb (price_eqb a b).
Definition price_gtb (a b : price) : bool := negb (price_leb a b).
Definition price_geb (a b : price) : bool := negb (price_ltb a b).

(** [asset * price]. *)
Definition asset_mul_price (a : asset) (b : price) : result asset :=
  if asset_id a =? asset_id (base b) then
    FC_ASSERT (0 <? amount (base b)) ;;
    let res := bu128_div (bu128_mul (amount a) (amount (quote b))) (amount (base b)) in
    FC_ASSERT (res <=? GRAPHENE_MAX_SHARE_SUPPLY) ;;
    Ok (mkAsset res (asset_id (quote b)))
  else if asset_id a =? asset_id (quote b) then
    FC_ASSERT (0 <? amount (quote b)) ;;
    let res := bu128_div (bu128_mul (amount a) (amount (base b))) (amount (quote b)) in
    FC_ASSERT (res <=? GRAPHENE_MAX_SHARE_SUPPLY) ;;
    Ok (mkAsset res (asset_id (base b)))
  else Throw assert_exception.

(** [asset / asset]. *)
Definition asset_div (b q : asset) : result price :=
  FC_ASSERT (negb (asset_id b =? asset_id q)) ;;
  Ok (mkPrice b q).

Definition price_inv (p : price) : price := mkPrice (quote p) (base p).

Definition price_max (b q : Z) : result price :=
  asset_div (mkAsset GRAPHENE_MAX_SHARE_SUPPLY b) (mkAsset 1 q).

Definition price_min (b q : Z) : result price :=
  asset_div (mkAsset 1 b) (mkAsset GRAPHENE_MAX_SHARE_SUPPLY q).

Definition unit_price (a : Z) : price := mkPrice (mkAsset 1 a) (mkAsset 1 a).

Definition exceeds_supply (cp : Z * Z) : bool :=
  (GRAPHENE_MAX_SHARE_SUPPLY <? cp.1) || (GRAPHENE_MAX_SHARE_SUPPLY <? cp.2).

(** The rounding loop of [call_price]; [call_price_terminates] shows that the
    fuel chosen in [call_price] is never used up. *)
Fixpoint call_price_loop (fuel : nat) (cp : Z * Z) : result (Z * Z) :=
  if exceeds_supply cp then
    match fuel with
    | O => Throw out_of_fuel
    | S fuel' =>
        let* cp' := rat_make (Z.shiftr cp.1 1 + 1) (Z.shiftr cp.2 1 + 1) in
        call_price_loop fuel' cp'
    end
  else Ok cp.

Definition loop_fuel : nat := 64.

Definition call_price (debt collateral : asset) (collateral_ratio : Z) : result price :=
  let* swan := rat_make (amount debt) (amount collateral) in
  let* ratio := rat_make collateral_ratio GRAPHENE_COLLATERAL_RATIO_DENOM in
  let* cp0 := rat_mul swan ratio in
  let* cp := call_price_loop loop_fuel cp0 in
  let* p := asset_div (mkAsset cp.1 (asset_id debt)) (mkAsset cp.2 (asset_id collateral)) in
  Ok (price_inv p).

Definition default_price : price := mkPrice (core_asset 0) (core_asset 0).

Definition price_is_null (p : price) : bool := price_eqb p default_price.

Definition price_validate (p : price) : result unit :=
  FC_ASSERT (0 <? amount (base p)) ;;
  FC_ASSERT (0 <? amount (quote p)) ;;
  FC_ASSERT (negb (asset_id (base p) =? asset_id (quote p))) ;;
  Ok tt.

(** ** [struct price_feed] *)

Fixpoint squeeze_loop (fuel : nat) (cp : Z * Z) : result (Z * Z) :=
  if exceeds_supply cp then
    match fuel with
    | O => Throw out_of_fuel
    | S fuel' =>
        let* cp' := rat_make (Z.shiftr cp.1 1 + Z.land cp.1 1)
                             (Z.shiftr cp.2 1 + Z.land cp.2 1) in
        squeeze_loop fuel' cp'
    end
  else Ok cp.

Definition max_short_squeeze_price (f : price_feed) : result price :=
  let* sp := rat_make (amount (base (settlement_price f)))
                      (amount (quote (settlement_price f))) in
  let* ratio := rat_make GRAPHENE_COLLATERAL_RATIO_DENOM (maximum_short_squeeze_ratio f) in
  let* cp0 := rat_mul sp ratio in
  let* cp := squeeze_loop loop_fuel cp0 in
  asset_div (mkAsset cp.1 (asset_id (base (settlement_price f))))
            (mkAsset cp.2 (asset_id (quote (settlement_price f)))).

Definition price_feed_validate (f : price_feed) : result unit :=
  let* _ := if negb (price_is_null (settlement_price f))
            then price_validate (settlement_price f) else Ok tt in
  FC_ASSERT (GRAPHENE_MIN_COLLATERAL_RATIO <=? maximum_short_squeeze_ratio f) ;;
  FC_ASSERT (maximum_short_squeeze_ratio f <=? GRAPHENE_MAX_COLLATERAL_RATIO) ;;
  FC_ASSERT (GRAPHENE_MIN_COLLATERAL_RATIO <=? maintenance_collateral_ratio f) ;;
  FC_ASSERT (maintenance_collateral_ratio f <=? GRAPHENE_MAX_COLLATERAL_RATIO) ;;
  let* _ := max_short_squeeze_price f in
  Ok tt.

Definition price_feed_is_for (f : price_feed) (aid : Z) : bool :=
  if negb (price_is_null (settlement_price f))
  then asset_id (base (settlement_price f)) =? aid
  else if negb (price_is_null (core_exchange_rate f))
  then asset_id (base (core_exchange_rate f)) =? aid
  else true.
End operations.

(** ** Properties *)

Definition amount_ok (z : Z) : Prop := 0 <= z < 2 ^ 63.
Definition amount_pos (z : Z) : Prop := 0 < z < 2 ^ 63.
(** Both sides positive, as [price::validate] demands. *)
Definition price_pos (p : price) : Prop := amount_pos (amount (base p)) ∧ amount_pos (amount (quote p)).

Section properties.
Context {FC : FcArith} {FCL : FcArithLaws FC} {BA : BoostArith} {BAL : BoostArithLaws BA}.

Lemma asset_add_ok a b c :
  asset_add a b = Ok c →
  asset_id a = asset_id b ∧ c = mkAsset (amount a + amount b) (asset_id a).
Proof.
  unfold asset_add. intros H. ok_inv.
  apply safe_add_ok in Hx0 as [-> _]. split; [lia|done].
Qed.

Lemma asset_sub_ok a b c :
  asset_sub a b = Ok c →
  asset_id a = asset_id b ∧ c = mkAsset (amount a - amount b) (asset_id a).
Proof.
  unfold asset_sub. intros H. ok_inv.
  apply safe_sub_ok in Hx0 as [-> _]. split; [lia|done].
Qed.

Lemma asset_neg_ok a c :
  asset_neg a = Ok c → c = mkAsset (- amount a) (asset_id a).
Proof.
  unfold asset_neg. intros H. ok_inv. by apply safe_neg_ok in Hx as [-> _].
Qed.

Lemma asset_geb_ok a b r :
  asset_geb a b = Ok r → asset_id a = asset_id b ∧ r = (amount b <=? amount a).
Proof.
  unfold asset_geb, asset_ltb. intros H. ok_inv. split; [lia|].
  destruct (Z.ltb_spec (amount a) (amount b)), (Z.leb_spec (amount b) (amount a)); done || lia.
Qed.

Lemma asset_leb_ok a b r :
  asset_leb a b = Ok r → asset_id a = asset_id b ∧ r = (amount a <=? amount b).
Proof.
  unfold asset_leb, asset_ltb, asset_eqb. intros H.
  destruct (Z.eqb_spec (asset_id a) (asset_id b)); simpl in H; ok_inv.
  split; [done|].
  destruct (Z.eqb_spec (amount a) (amount b)); ok_inv;
    destruct (Z.leb_spec (amount a) (amount b)); try done; try lia.
Qed.

Lemma bu128_mul_amounts a b : amount_ok a → amount_ok b → bu128_mul a b = a * b.
Proof. unfold amount_ok. intros. apply bu128_mul_spec; lia. Qed.

(** A conversion rounds down and is refused when it would exceed the
    maximum supply: with a positive price and a non-negative amount of the
    base currency, [asset * price] is [floor(a * quote / base)] of the quote
    currency, or an assertion failure above [GRAPHENE_MAX_SHARE_SUPPLY]; and
    symmetrically for an amount of the quote currency. *)
Lemma asset_mul_price_floor a p :
  price_pos p → amount_ok (amount a) →
  asset_id (base p) ≠ asset_id (quote p) →
  asset_mul_price a p =
    if asset_id a =? asset_id (base p) then
      let r := amount a * amount (quote p) / amount (base p) in
      if r <=? GRAPHENE_MAX_SHARE_SUPPLY then Ok (mkAsset r (asset_id (quote p)))
      else Throw assert_exception
    else if asset_id a =? asset_id (quote p) then
      let r := amount a * amount (base p) / amount (quote p) in
      if r <=? GRAPHENE_MAX_SHARE_SUPPLY then Ok (mkAsset r (asset_id (base p)))
      else Throw assert_exception
    else Throw assert_exception.
Proof.
  intros [Hb Hq] Ha Hne. unfold amount_pos, amount_ok, asset_mul_price in *.
  rewrite !bu128_mul_amounts by (unfold amount_ok; lia).
  rewrite !bu128_div_spec by nia.
  destruct (Z.ltb_spec 0 (amount (base p))); [|lia].
  destruct (Z.ltb_spec 0 (amount (quote p))); [|lia].
  simpl. repeat (case_match; simpl; try done).
Qed.

Lemma asset_mul_price_ok a p b :
  price_pos p → amount_ok (amount a) → asset_id (base p) ≠ asset_id (quote p) →
  asset_mul_price a p = Ok b →
  amount b <= GRAPHENE_MAX_SHARE_SUPPLY ∧
  ((asset_id a = asset_id (base p) ∧ asset_id b = asset_id (quote p) ∧
      amount b = amount a * amount (quote p) / amount (base p)) ∨
   (asset_id a = asset_id (quote p) ∧ asset_id b = asset_id (base p) ∧
      amount b = amount a * amount (base p) / amount (quote p))).
Proof.
  intros Hp Ha Hne H. rewrite asset_mul_price_floor in H by done. simpl in H.
  destruct (Z.eqb_spec (asset_id a) (asset_id (base p))).
  - case_match; ok_inv. simpl. split; [lia|]. left. done.
  - destruct (Z.eqb_spec (asset_id a) (asset_id (quote p))); ok_inv.
    case_match; ok_inv. simpl. split; [lia|]. right. done.
Qed.

Lemma floor_back a x y : 0 <= a → 0 < x → 0 < y → (a * x / y) * y / x <= a.
Proof.
  intros. apply Z.div_le_upper_bound; [lia|].
  pose proof (Z.mul_div_le (a * x) y ltac:(lia)). nia.
Qed.

(** Converting an amount at a price and back at the same price returns
    the original currency and never more than the original amount, so no
    value can be created by converting back and forth. *)
Theorem conversion_never_gains a p b c :
  price_pos p → amount_ok (amount a) → asset_id (base p) ≠ asset_id (quote p) →
  asset_mul_price a p = Ok b → asset_mul_price b p = Ok c →
  asset_id c = asset_id a ∧ 0 <= amount c <= amount a.
Proof.
  intros Hp Ha Hne Hab Hbc.
  pose proof (asset_mul_price_ok _ _ _ Hp Ha Hne Hab) as (Hmax & Hcase).
  destruct Hp as [Hpb Hpq]. unfold amount_pos, amount_ok in *.
  assert (amount_ok (amount b)) as Hb.
  { unfold amount_ok, GRAPHENE_MAX_SHARE_SUPPLY in *.
    split; [|lia].
    destruct Hcase as [(_ & _ & ->)|(_ & _ & ->)]; apply Z.div_pos; nia. }
  pose proof (asset_mul_price_ok _ _ _ (conj Hpb Hpq) Hb Hne Hbc) as (_ & Hcase').
  unfold amount_ok in *.
  destruct Hcase as [(Hi & Hj & Hv)|(Hi & Hj & Hv)],
           Hcase' as [(Hk & Hl & Hw)|(Hk & Hl & Hw)]; try congruence;
    (split; [congruence|]); rewrite Hw; split;
    try (apply Z.div_pos; nia); rewrite Hv; apply floor_back; lia.
Qed.

Lemma price_eqb_cross a b :
  price_pos a → price_pos b →
  price_eqb a b = true ↔
    asset_id (base a) = asset_id (base b) ∧ asset_id (quote a) = asset_id (quote b) ∧
    amount (quote b) * amount (base a) = amount (quote a) * amount (base b).
Proof.
  intros [? ?] [? ?]. unfold amount_pos, price_eqb in *.
  rewrite !bu128_mul_amounts by (unfold amount_ok; lia).
  destruct (Z.eqb_spec (asset_id (base a)) (asset_id (base b))),
           (Z.eqb_spec (asset_id (quote a)) (asset_id (quote b))); simpl;
    rewrite ?Z.eqb_eq; naive_solver.
Qed.

(** Lexicographic on the two currencies, then by the rational value. *)
Lemma price_ltb_cross a b :
  price_pos a → price_pos b →
  price_ltb a b = true ↔
    asset_id (base a) < asset_id (base b) ∨
    (asset_id (base a) = asset_id (base b) ∧
      (asset_id (quote a) < asset_id (quote b) ∨
       (asset_id (quote a) = asset_id (quote b) ∧
        amount (quote b) * amount (base a) < amount (quote a) * amount (base b)))).
Proof.
  intros [? ?] [? ?]. unfold amount_pos, price_ltb in *.
  rewrite !bu128_mul_amounts by (unfold amount_ok; lia).
  repeat case_match; rewrite ?Z.ltb_lt in *; rewrite ?Z.ltb_ge in *;
    split; intros; try done; try lia.
Qed.

Lemma cross_trans a b c d e f :
  0 < a → 0 < b → 0 < c → 0 < d → 0 < e → 0 < f →
  d * a < b * c → f * c < d * e → f * a < b * e.
Proof.
  intros. apply (Z.mul_lt_mono_pos_r (c * d)); [nia|].
  assert (d * a * (f * c) < b * c * (d * e)) by nia. nia.
Qed.

(** On positive prices the comparison operators form a strict total
    order with [==] as its equality: [<] is irreflexive and transitive, and
    any two prices are related by exactly one of [<], [==] and [>]; so the
    order books, which sort by price, are well defined. *)
Theorem price_order_strict_total a b c :
  price_pos a → price_pos b → price_pos c →
  price_ltb a a = false ∧
  (price_ltb a b = true → price_ltb b c = true → price_ltb a c = true) ∧
  ((price_ltb a b = true ∧ price_eqb a b = false ∧ price_ltb b a = false) ∨
   (price_ltb a b = false ∧ price_eqb a b = true ∧ price_ltb b a = false) ∨
   (price_ltb a b = false ∧ price_eqb a b = false ∧ price_ltb b a = true)).
Proof.
  intros Ha Hb Hc.
  pose proof (price_ltb_cross a a Ha Ha) as Laa.
  pose proof (price_ltb_cross a b Ha Hb) as Lab.
  pose proof (price_ltb_cross b a Hb Ha) as Lba.
  pose proof (price_ltb_cross b c Hb Hc) as Lbc.
  pose proof (price_ltb_cross a c Ha Hc) as Lac.
  pose proof (price_eqb_cross a b Ha Hb) as Eab.
  destruct Ha as [[? _] [? _]], Hb as [[? _] [? _]], Hc as [[? _] [? _]].
  split; [|split].
  - destruct (price_ltb a a); [|done]. exfalso. apply proj1 in Laa. lia.
  - intros Hab%Lab Hbc%Lbc. apply Lac.
    destruct Hab as [?|(? & [?|(? & Hab)])], Hbc as [?|(? & [?|(? & Hbc)])]; try lia.
    right. split; [congruence|]. right. split; [congruence|].
    eapply cross_trans; [..|exact Hab|exact Hbc]; lia.
  - clear Laa Lbc Lac.
    destruct (price_ltb a b), (price_ltb b a), (price_eqb a b); intuition lia.
Qed.

(** *** The rounding loops *)

Lemma shiftr1 z : Z.shiftr z 1 = z / 2.
Proof. rewrite Z.shiftr_div_pow2 by lia. by rewrite Z.pow_1_r. Qed.

Lemma land1 z : Z.land z 1 = z mod 2.
Proof. change 1 with (Z.ones 1). rewrite Z.land_ones by lia. by rewrite Z.pow_1_r. Qed.

Lemma exceeds_supply_false cp :
  exceeds_supply cp = false ↔
  cp.1 <= GRAPHENE_MAX_SHARE_SUPPLY ∧ cp.2 <= GRAPHENE_MAX_SHARE_SUPPLY.
Proof. unfold exceeds_supply. rewrite orb_false_iff, !Z.ltb_ge. done. Qed.

(** One round halves both parts, so [fuel] rounds bring any fraction below
    [2 ^ fuel] times the maximum into range. *)
Lemma call_price_loop_terminates fuel n d :
  0 <= n → 0 < d →
  Z.max n d <= (GRAPHENE_MAX_SHARE_SUPPLY - 2) * 2 ^ Z.of_nat fuel + 2 →
  Z.max n d < 2 ^ 126 →
  ∃ n' d', call_price_loop fuel (n, d) = Ok (n', d') ∧
    0 <= n' <= GRAPHENE_MAX_SHARE_SUPPLY ∧ 0 < d' <= GRAPHENE_MAX_SHARE_SUPPLY ∧
    (0 < n → 0 < n').
Proof.
  revert n d. induction fuel as [|fuel IH]; intros n d Hn Hd Hmax Hbig.
  - assert (exceeds_supply (n, d) = false) as E.
    { apply exceeds_supply_false; simpl in *. lia. }
    simpl; rewrite E. exists n, d.
    apply exceeds_supply_false in E; simpl in E. split; [done|lia].
  - simpl. destruct (exceeds_supply (n, d)) eqn:E; simpl.
    + rewrite !shiftr1.
      assert (2 ^ 63 * 2 ^ 63 = 2 ^ 126) as Hpow by (rewrite <- Z.pow_add_r; [done|lia|lia]).
      assert (0 <= n / 2 <= n) by (pose proof (Z.div_pos n 2); pose proof (Z.mul_div_le n 2); lia).
      assert (0 <= d / 2 <= d) by (pose proof (Z.div_pos d 2); pose proof (Z.mul_div_le d 2); lia).
      assert (n / 2 + 1 <= Z.max n d / 2 + 1) by (apply Z.add_le_mono_r, Z.div_le_mono; lia).
      assert (d / 2 + 1 <= Z.max n d / 2 + 1) by (apply Z.add_le_mono_r, Z.div_le_mono; lia).
      pose proof (Z.mul_div_le (Z.max n d) 2 ltac:(lia)).
      assert (2 <= Z.max n d).
      { destruct (Z.le_gt_cases 2 (Z.max n d)); [done|]. exfalso.
        enough (exceeds_supply (n, d) = false) by congruence.
        apply exceeds_supply_false; simpl; unfold GRAPHENE_MAX_SHARE_SUPPLY; lia. }
      rewrite rat_make_spec by lia. simpl.
      pose proof (normalise_bounds (n / 2 + 1) (d / 2 + 1) ltac:(lia) ltac:(lia)) as [Hn' Hd'].
      pose proof (normalise_pos (n / 2 + 1) (d / 2 + 1) ltac:(lia) ltac:(lia)) as Hpos.
      destruct (normalise (n / 2 + 1) (d / 2 + 1)) as [n1 d1]; simpl in *.
      rewrite Nat2Z.inj_succ, Z.pow_succ_r in Hmax by lia.
      destruct (IH n1 d1) as (n2 & d2 & -> & ? & ? & Hp); try lia.
      exists n2, d2. split; [done|]. split; [done|]. split; [done|]. intros _. apply Hp. lia.
    + exists n, d. apply exceeds_supply_false in E; simpl in E. split; [done|lia].
Qed.

Lemma squeeze_loop_terminates fuel n d :
  0 <= n → 0 < d →
  Z.max n d <= GRAPHENE_MAX_SHARE_SUPPLY * 2 ^ Z.of_nat fuel →
  Z.max n d < 2 ^ 126 →
  ∃ n' d', squeeze_loop fuel (n, d) = Ok (n', d') ∧
    0 <= n' <= GRAPHENE_MAX_SHARE_SUPPLY ∧ 0 < d' <= GRAPHENE_MAX_SHARE_SUPPLY ∧
    (0 < n → 0 < n').
Proof.
  revert n d. induction fuel as [|fuel IH]; intros n d Hn Hd Hmax Hbig.
  - assert (exceeds_supply (n, d) = false) as E.
    { apply exceeds_supply_false; simpl in *. lia. }
    simpl; rewrite E. exists n, d.
    apply exceeds_supply_false in E; simpl in E. split; [done|lia].
  - simpl. destruct (exceeds_supply (n, d)) eqn:E; simpl.
    + rewrite !shiftr1, !land1.
      pose proof (Z.div_mod n 2 ltac:(lia)). pose proof (Z.mod_pos_bound n 2 ltac:(lia)).
      pose proof (Z.div_mod d 2 ltac:(lia)). pose proof (Z.mod_pos_bound d 2 ltac:(lia)).
      assert (2 ^ 63 * 2 ^ 63 = 2 ^ 126) as Hpow by (rewrite <- Z.pow_add_r; [done|lia|lia]).
      rewrite rat_make_spec by lia. simpl.
      pose proof (normalise_bounds (n / 2 + n mod 2) (d / 2 + d mod 2)
                    ltac:(lia) ltac:(lia)) as [Hn' Hd'].
      pose proof (λ H, normalise_pos (n / 2 + n mod 2) (d / 2 + d mod 2) H ltac:(lia)) as Hpos.
      destruct (normalise (n / 2 + n mod 2) (d / 2 + d mod 2)) as [n1 d1]; simpl in *.
      rewrite Nat2Z.inj_succ, Z.pow_succ_r in Hmax by lia.
      destruct (IH n1 d1) as (n2 & d2 & -> & ? & ? & Hp); try lia.
      exists n2, d2. split; [done|]. split; [done|]. split; [done|].
      intros. apply Hp, Hpos. lia.
    + exists n, d. apply exceeds_supply_false in E; simpl in E. split; [done|lia].
Qed.

(** The fraction the margin-call loop starts from. *)
Lemma call_price_start debt coll ratio :
  amount_ok debt → amount_pos coll → 0 <= ratio < 2 ^ 16 →
  ∃ n d, (let* swan := rat_make debt coll in
          let* r := rat_make ratio GRAPHENE_COLLATERAL_RATIO_DENOM in
          rat_mul swan r) = Ok (n, d) ∧
    0 <= n <= debt * ratio ∧ 0 < d <= coll * 1000 ∧
    (0 < debt → 0 < ratio → 0 < n) ∧ n * (coll * 1000) = debt * ratio * d.
Proof.
  unfold amount_ok, amount_pos, GRAPHENE_COLLATERAL_RATIO_DENOM. intros Hd Hc Hr.
  rewrite !rat_make_spec by lia. simpl.
  pose proof (normalise_bounds debt coll ltac:(lia) ltac:(lia)) as [? ?].
  pose proof (normalise_bounds ratio 1000 ltac:(lia) ltac:(lia)) as [? ?].
  pose proof (normalise_value debt coll ltac:(lia)) as V1.
  pose proof (normalise_value ratio 1000 ltac:(lia)) as V2.
  pose proof (λ H, normalise_pos debt coll H ltac:(lia)) as P1.
  pose proof (λ H, normalise_pos ratio 1000 H ltac:(lia)) as P2.
  destruct (normalise debt coll) as [a b], (normalise ratio 1000) as [e f]; simpl in *.
  rewrite rat_mul_spec by lia.
  pose proof (normalise_bounds (a * e) (b * f) ltac:(nia) ltac:(nia)) as [? ?].
  pose proof (normalise_value (a * e) (b * f) ltac:(nia)) as V3.
  pose proof (λ H, normalise_pos (a * e) (b * f) H ltac:(nia)) as P3.
  destruct (normalise (a * e) (b * f)) as [n d]; simpl in *.
  exists n, d. split; [done|]. split; [nia|]. split; [nia|]. split.
  - intros. apply P3. specialize (P1 ltac:(done)). specialize (P2 ltac:(done)). nia.
  - apply (Z.mul_reg_l _ _ (b * f)); [nia|].
    transitivity (n * (b * f) * coll * 1000); [ring|]. rewrite V3.
    transitivity ((a * coll) * (e * 1000) * d); [ring|]. rewrite V1, V2. ring.
Qed.

(** Margin-call prices: for a non-negative debt, a positive collateral
    and any [uint16_t] ratio, the rounding loop of [call_price] ends and
    gives a price whose collateral part is never zero and whose parts never
    exceed the maximum supply; a positive debt gives a positive price; and
    when both parts fit without rounding the price is exactly
    [ratio/1000 * debt/collateral]. *)
Theorem call_price_terminates debt coll ratio :
  amount_ok (amount debt) → amount_pos (amount coll) → 0 <= ratio < 2 ^ 16 →
  asset_id debt ≠ asset_id coll →
  ∃ n d, call_price debt coll ratio =
           Ok (mkPrice (mkAsset d (asset_id coll)) (mkAsset n (asset_id debt))) ∧
    0 <= n <= GRAPHENE_MAX_SHARE_SUPPLY ∧ 0 < d <= GRAPHENE_MAX_SHARE_SUPPLY ∧
    (0 < amount debt → 0 < ratio → 0 < n) ∧
    (amount debt * ratio <= GRAPHENE_MAX_SHARE_SUPPLY →
     amount coll * 1000 <= GRAPHENE_MAX_SHARE_SUPPLY →
     n * (amount coll * 1000) = amount debt * ratio * d).
Proof.
  intros Hd Hc Hr Hne.
  destruct (call_price_start _ _ _ Hd Hc Hr) as (n & d & E & Hn & Hd' & Hpos & Hval).
  unfold amount_ok, amount_pos in *.
  destruct (call_price_loop_terminates loop_fuel n d) as (n' & d' & L & ? & ? & Hp);
    [lia|lia|unfold loop_fuel, GRAPHENE_MAX_SHARE_SUPPLY; simpl Z.of_nat; nia|nia|].
  exists n', d'. split; [|split; [lia|split; [lia|split]]].
  - unfold call_price. ok_inv. rewrite Hx; cbn [rbind]. rewrite Hx0; cbn [rbind].
    rewrite E; cbn [rbind]. rewrite L; simpl. unfold asset_div; simpl.
    by destruct (Z.eqb_spec (asset_id debt) (asset_id coll)).
  - auto.
  - intros. assert (exceeds_supply (n, d) = false) as Ex
      by (apply exceeds_supply_false; simpl; lia).
    unfold loop_fuel in L. simpl in L. rewrite Ex in L.
    injection L as -> ->. done.
Qed.

(** A null settlement price never validates, although [validate] skips
    the check of a null price and [is_for] calls [(null, null)] valid for
    any feed: computing the short squeeze price of a null price always
    throws. *)
Lemma price_feed_validate_rejects_null f :
  price_is_null (settlement_price f) = true → is_ok (price_feed_validate f) = false.
Proof.
  intros Hnull. destruct (price_feed_validate f) as [u|] eqn:H; [|done]. exfalso.
  unfold price_feed_validate in H. rewrite Hnull in H. simpl in H. ok_inv.
  unfold price_is_null, price_eqb in Hnull. case_match; [done|].
  apply negb_false_iff, andb_prop in H as [Hb Hq]. simpl in Hb, Hq.
  unfold max_short_squeeze_price in Hx3. ok_inv.
  unfold asset_div in Hx3; simpl in Hx3. ok_inv. lia.
Qed.

Lemma max_short_squeeze_ok f :
  price_pos (settlement_price f) →
  0 < maximum_short_squeeze_ratio f < 2 ^ 16 →
  asset_id (base (settlement_price f)) ≠ asset_id (quote (settlement_price f)) →
  ∃ n d, max_short_squeeze_price f =
      Ok (mkPrice (mkAsset n (asset_id (base (settlement_price f))))
                  (mkAsset d (asset_id (quote (settlement_price f))))) ∧
    0 < n <= GRAPHENE_MAX_SHARE_SUPPLY ∧ 0 < d <= GRAPHENE_MAX_SHARE_SUPPLY.
Proof.
  intros [Hb Hq] Hr Hne. unfold amount_pos in *. unfold max_short_squeeze_price.
  unfold GRAPHENE_COLLATERAL_RATIO_DENOM.
  set (x := amount (base _)) in *. set (y := amount (quote _)) in *.
  set (r := maximum_short_squeeze_ratio f) in *.
  rewrite !rat_make_spec by lia. cbn [rbind].
  pose proof (normalise_bounds x y ltac:(lia) ltac:(lia)) as [? ?].
  pose proof (normalise_bounds 1000 r ltac:(lia) ltac:(lia)) as [? ?].
  pose proof (normalise_pos x y ltac:(lia) ltac:(lia)).
  pose proof (normalise_pos 1000 r ltac:(lia) ltac:(lia)).
  destruct (normalise x y) as [a b], (normalise 1000 r) as [c d]; cbn [fst snd] in *.
  rewrite rat_mul_spec by lia. cbn [rbind].
  pose proof (normalise_bounds (a * c) (b * d) ltac:(nia) ltac:(nia)) as [? ?].
  pose proof (normalise_pos (a * c) (b * d) ltac:(nia) ltac:(nia)).
  destruct (normalise (a * c) (b * d)) as [n e]; cbn [fst snd] in *.
  destruct (squeeze_loop_terminates loop_fuel n e) as (n' & e' & -> & ? & ? & Hp);
    [lia|lia|unfold loop_fuel, GRAPHENE_MAX_SHARE_SUPPLY; simpl Z.of_nat; nia|nia|].
  simpl. exists n', e'. unfold asset_div; simpl.
  destruct (Z.eqb_spec (asset_id (base (settlement_price f)))
                       (asset_id (quote (settlement_price f)))); [done|].
  split; [done|]. specialize (Hp ltac:(lia)). lia.
Qed.

(** Feed validation is decided by the settlement price and the two
    ratios: with [int64_t] amounts and [uint16_t] ratios a feed validates
    exactly when its settlement price is positive, between two different
    currencies, and both ratios lie in [1001 .. 32000]. *)
Lemma price_feed_validate_iff f :
  amount (base (settlement_price f)) < 2 ^ 63 →
  amount (quote (settlement_price f)) < 2 ^ 63 →
  price_feed_validate f = Ok tt ↔
    0 < amount (base (settlement_price f)) ∧ 0 < amount (quote (settlement_price f)) ∧
    asset_id (base (settlement_price f)) ≠ asset_id (quote (settlement_price f)) ∧
    1001 <= maximum_short_squeeze_ratio f <= 32000 ∧
    1001 <= maintenance_collateral_ratio f <= 32000.
Proof.
  intros Hb Hq. split.
  - intros H. destruct (price_is_null (settlement_price f)) eqn:Hnull.
    { apply price_feed_validate_rejects_null in Hnull. by rewrite H in Hnull. }
    unfold price_feed_validate in H. rewrite Hnull in H. simpl in H. ok_inv.
    unfold price_validate in Hx. ok_inv.
    unfold GRAPHENE_MIN_COLLATERAL_RATIO, GRAPHENE_MAX_COLLATERAL_RATIO in *. lia.
  - intros (Hbp & Hqp & Hne & Hm & Hr).
    destruct (max_short_squeeze_ok f) as (n & d & Hs & _);
      [split; unfold amount_pos; lia|lia|done|].
    assert (price_is_null (settlement_price f) = false) as Hnull.
    { unfold price_is_null, price_eqb; simpl.
      destruct (Z.eqb_spec (asset_id (base (settlement_price f))) core_id),
        (Z.eqb_spec (asset_id (quote (settlement_price f))) core_id); try done. congruence. }
    unfold price_feed_validate. rewrite Hnull, Hs. simpl. unfold price_validate.
    unfold GRAPHENE_MIN_COLLATERAL_RATIO, GRAPHENE_MAX_COLLATERAL_RATIO.
    rewrite !(proj2 (Z.ltb_lt 0 _)) by done.
    rewrite (proj2 (Z.eqb_neq _ _)) by done. simpl.
    by rewrite !(proj2 (Z.leb_le _ _)) by lia.
Qed.
End properties.

(** ** Witnesses *)

Section witnesses.
#[local] Existing Instance boost_reference.
#[local] Existing Instance boost_reference_laws.

Definition sample_price : price := mkPrice (mkAsset 7 1) (mkAsset 3 2).

Lemma conversion_never_gains_witness :
  asset_id (mkAsset 98 1) = 1 ∧ 0 <= amount (mkAsset 98 1) <= 100.
Proof.
  apply (conversion_never_gains (mkAsset 100 1) sample_price (mkAsset 42 2) (mkAsset 98 1)).
  - vm_compute. intuition congruence.
  - vm_compute. intuition congruence.
  - vm_compute. congruence.
  - vm_compute. reflexivity.
  - vm_compute. reflexivity.
Defined.

Lemma price_order_strict_total_witness :
  price_ltb sample_price sample_price = false.
Proof.
  apply (price_order_strict_total sample_price sample_price sample_price);
    vm_compute; intuition congruence.
Defined.

Lemma call_price_terminates_witness :
  ∃ n d, call_price (mkAsset 1000 1) (mkAsset 2000 0) 1750 =
           Ok (mkPrice (mkAsset d 0) (mkAsset n 1)) ∧ 0 < n ∧ 0 < d.
Proof.
  destruct (call_price_terminates (mkAsset 1000 1) (mkAsset 2000 0) 1750)
    as (n & d & H & Hn & Hd & Hp & _);
    [vm_compute; intuition congruence|vm_compute; intuition congruence
    |vm_compute; intuition congruence|vm_compute; congruence|].
  exists n, d. split; [exact H|]. split; [apply Hp; vm_compute; reflexivity|apply Hd].
Defined.

End witnesses.
