(* ===== verification/VestingBalance.v ===== *)
(** * Vesting balances
    ([vesting_balance_object.hpp], [vesting_balance_object.cpp])

    A vesting balance locks an asset under one of two policies: [linear]
    releases a fixed amount over a period after a cliff, [cdd] releases funds
    as coin-seconds accrue.  The visitors of the source dispatch on the policy
    variant; here they are [match]es.  C [assert]s are compiled out of release
    builds: they are not modelled as checks but proved as theorems. *)

From stdpp Require Import base numbers.
From Stdlib Require Import ZArith Lia.
From S2P Require Import Prelude Fc Config Asset.

Local Open Scope Z_scope.

Record vesting_policy_context := mkCtx {
  ctx_balance : asset;
  ctx_now : Z;
  ctx_amount : asset
}.

Record linear_vesting_policy := mkLinear {
  begin_timestamp : Z;
  vesting_cliff_seconds : Z;
  vesting_duration_seconds : Z;
  begin_balance : Z
}.

Record cdd_vesting_policy := mkCdd {
  vesting_seconds : Z;
  coin_seconds_earned : Z;
  start_claim : Z;
  coin_seconds_earned_last_update : Z
}.

Inductive vesting_policy : Type :=
  | linear_policy (p : linear_vesting_policy)
  | cdd_policy (p : cdd_vesting_policy).

Inductive balance_type : Set :=
  | no_type | escrow_fee_type | publisher_fee_type | founder_sale_fee | referrer_sale_fee.

#[export] Instance balance_type_eq_dec : EqDecision balance_type.
Proof. solve_decision. Defined.

Record vesting_balance_object := mkVbo {
  vb_owner : Z;
  vb_balance : asset;
  vb_policy : vesting_policy;
  vb_type : balance_type
}.

Section operations.
Context {FC : FcArith}.

Definition sum_below_max_shares (a b : asset) : result bool :=
  if negb (amount a <=? GRAPHENE_MAX_SHARE_SUPPLY) then Ok false
  else if negb (amount b <=? GRAPHENE_MAX_SHARE_SUPPLY) then Ok false
  else let* s := safe_add (amount a) (amount b) in
       Ok (s <=? GRAPHENE_MAX_SHARE_SUPPLY).

(** ** Linear policy *)

Definition linear_get_allowed_withdraw (p : linear_vesting_policy)
    (ctx : vesting_policy_context) : result asset :=
  let* allowed_withdraw :=
    if begin_timestamp p <? ctx_now ctx then
      let elapsed_seconds := time_sub_seconds (ctx_now ctx) (begin_timestamp p) in
      if vesting_cliff_seconds p <=? elapsed_seconds then
        let* total_vested :=
          if elapsed_seconds <? vesting_duration_seconds p then
            let* q := u128_div (u128_mul (u128_of_i64 (begin_balance p))
                                         (u128_of_i64 elapsed_seconds))
                               (u128_of_i64 (vesting_duration_seconds p)) in
            let* v := u128_to_uint64 q in
            Ok (wrap_i64 v)
          else Ok (begin_balance p) in
        let* withdrawn_already := safe_sub (begin_balance p) (amount (ctx_balance ctx)) in
        safe_sub total_vested withdrawn_already
      else Ok 0
    else Ok 0 in
  Ok (mkAsset allowed_withdraw (asset_id (ctx_balance ctx))).

Definition linear_is_deposit_allowed (p : linear_vesting_policy)
    (ctx : vesting_policy_context) : result bool :=
  if asset_id (ctx_amount ctx) =? asset_id (ctx_balance ctx)
  then sum_below_max_shares (ctx_amount ctx) (ctx_balance ctx)
  else Ok false.

Definition linear_is_withdraw_allowed (p : linear_vesting_policy)
    (ctx : vesting_policy_context) : result bool :=
  if asset_id (ctx_amount ctx) =? asset_id (ctx_balance ctx)
  then let* a := linear_get_allowed_withdraw p ctx in asset_leb (ctx_amount ctx) a
  else Ok false.

(** ** Coin-days-destroyed policy *)

Definition cdd_divisor (p : cdd_vesting_policy) : Z := Z.max (vesting_seconds p) 1.

Definition compute_coin_seconds_earned (p : cdd_vesting_policy)
    (ctx : vesting_policy_context) : Z :=
  let delta_seconds := time_sub_seconds (ctx_now ctx) (coin_seconds_earned_last_update p) in
  let delta_coin_seconds :=
    u128_mul (u128_of_i64 (amount (ctx_balance ctx))) (u128_of_i64 delta_seconds) in
  let coin_seconds_earned_cap :=
    u128_mul (u128_of_i64 (amount (ctx_balance ctx))) (u128_of_i64 (cdd_divisor p)) in
  Z.min (u128_add (coin_seconds_earned p) delta_coin_seconds) coin_seconds_earned_cap.

Definition update_coin_seconds_earned (p : cdd_vesting_policy)
    (ctx : vesting_policy_context) : cdd_vesting_policy :=
  mkCdd (vesting_seconds p) (compute_coin_seconds_earned p ctx) (start_claim p) (ctx_now ctx).

Definition cdd_get_allowed_withdraw (p : cdd_vesting_policy)
    (ctx : vesting_policy_context) : result asset :=
  if ctx_now ctx <=? start_claim p then Ok (mkAsset 0 (asset_id (ctx_balance ctx)))
  else
    let cs_earned := compute_coin_seconds_earned p ctx in
    let* withdraw_available := u128_div cs_earned (u128_of_i64 (cdd_divisor p)) in
    let* v := u128_to_uint64 withdraw_available in
    Ok (mkAsset (wrap_i64 v) (asset_id (ctx_balance ctx))).

Definition cdd_on_deposit (p : cdd_vesting_policy) (ctx : vesting_policy_context) :=
  update_coin_seconds_earned p ctx.

Definition cdd_on_deposit_vested (p : cdd_vesting_policy) (ctx : vesting_policy_context)
    : cdd_vesting_policy :=
  let p1 := cdd_on_deposit p ctx in
  mkCdd (vesting_seconds p1)
        (u128_add (coin_seconds_earned p1)
                  (u128_of_i64 (wrap_i64 (amount (ctx_amount ctx) * cdd_divisor p1))))
        (start_claim p1) (coin_seconds_earned_last_update p1).

Definition cdd_on_withdraw (p : cdd_vesting_policy) (ctx : vesting_policy_context)
    : cdd_vesting_policy :=
  let p1 := update_coin_seconds_earned p ctx in
  let coin_seconds_needed :=
    u128_mul (u128_of_i64 (amount (ctx_amount ctx))) (u128_of_i64 (cdd_divisor p1)) in
  mkCdd (vesting_seconds p1) (u128_sub (coin_seconds_earned p1) coin_seconds_needed)
        (start_claim p1) (coin_seconds_earned_last_update p1).

Definition cdd_is_deposit_allowed (p : cdd_vesting_policy)
    (ctx : vesting_policy_context) : result bool :=
  if asset_id (ctx_amount ctx) =? asset_id (ctx_balance ctx)
  then sum_below_max_shares (ctx_amount ctx) (ctx_balance ctx)
  else Ok false.

Definition cdd_is_deposit_vested_allowed (p : cdd_vesting_policy)
    (ctx : vesting_policy_context) : result bool := cdd_is_deposit_allowed p ctx.

Definition cdd_is_withdraw_allowed (p : cdd_vesting_policy)
    (ctx : vesting_policy_context) : result bool :=
  let* a := cdd_get_allowed_withdraw p ctx in asset_leb (ctx_amount ctx) a.

(** ** [vesting_balance_object]: dispatch on the policy *)

Definition vb_is_deposit_allowed (v : vesting_balance_object) (now : Z) (a : asset)
    : result bool :=
  let ctx := mkCtx (vb_balance v) now a in
  match vb_policy v with
  | linear_policy p => linear_is_deposit_allowed p ctx
  | cdd_policy p => cdd_is_deposit_allowed p ctx
  end.

Definition vb_is_deposit_vested_allowed (v : vesting_balance_object) (now : Z) (a : asset)
    : result bool :=
  let ctx := mkCtx (vb_balance v) now a in
  match vb_policy v with
  | linear_policy _ => Ok false
  | cdd_policy p => cdd_is_deposit_vested_allowed p ctx
  end.

Definition vb_is_withdraw_allowed (v : vesting_balance_object) (now : Z) (a : asset)
    : result bool :=
  let ctx := mkCtx (vb_balance v) now a in
  match vb_policy v with
  | linear_policy p => linear_is_withdraw_allowed p ctx
  | cdd_policy p => cdd_is_withdraw_allowed p ctx
  end.

Definition vb_get_allowed_withdraw (v : vesting_balance_object) (now : Z) : result asset :=
  let ctx := mkCtx (vb_balance v) now (core_asset 0) in
  match vb_policy v with
  | linear_policy p => linear_get_allowed_withdraw p ctx
  | cdd_policy p => cdd_get_allowed_withdraw p ctx
  end.

Definition vb_deposit (v : vesting_balance_object) (now : Z) (a : asset)
    : result vesting_balance_object :=
  let ctx := mkCtx (vb_balance v) now a in
  let policy := match vb_policy v with
                | linear_policy p => linear_policy p
                | cdd_policy p => cdd_policy (cdd_on_deposit p ctx)
                end in
  let* b := asset_add (vb_balance v) a in
  Ok (mkVbo (vb_owner v) b policy (vb_type v)).

Definition vb_deposit_vested (v : vesting_balance_object) (now : Z) (a : asset)
    : result vesting_balance_object :=
  let ctx := mkCtx (vb_balance v) now a in
  let* policy := match vb_policy v with
                 | linear_policy _ => Throw thrown
                 | cdd_policy p => Ok (cdd_policy (cdd_on_deposit_vested p ctx))
                 end in
  let* b := asset_add (vb_balance v) a in
  Ok (mkVbo (vb_owner v) b policy (vb_type v)).

Definition vb_withdraw (v : vesting_balance_object) (now : Z) (a : asset)
    : result vesting_balance_object :=
  let ctx := mkCtx (vb_balance v) now a in
  let policy := match vb_policy v with
                | linear_policy p => linear_policy p
                | cdd_policy p => cdd_policy (cdd_on_withdraw p ctx)
                end in
  let* b := asset_sub (vb_balance v) a in
  Ok (mkVbo (vb_owner v) b policy (vb_type v)).
End operations.

(** ** Invariants *)

(** A coin-days balance: the earned coin-seconds never exceed the balance
    times the vesting period. *)
Definition cdd_wf (p : cdd_vesting_policy) (bal now : Z) : Prop :=
  0 <= bal <= GRAPHENE_MAX_SHARE_SUPPLY ∧
  0 <= vesting_seconds p < 2 ^ 32 ∧
  0 <= coin_seconds_earned p <= bal * cdd_divisor p ∧
  0 <= coin_seconds_earned_last_update p <= now ∧ now < 2 ^ 32.

(** The amount a linear balance has released at [now]. *)
Definition linear_vested (p : linear_vesting_policy) (now : Z) : Z :=
  let elapsed := now - begin_timestamp p in
  if now <=? begin_timestamp p then 0
  else if elapsed <? vesting_cliff_seconds p then 0
  else if elapsed <? vesting_duration_seconds p
       then begin_balance p * elapsed / vesting_duration_seconds p
       else begin_balance p.

(** A linear balance: no more was withdrawn than was released. *)
Definition linear_wf (p : linear_vesting_policy) (bal now : Z) : Prop :=
  0 <= begin_balance p <= GRAPHENE_MAX_SHARE_SUPPLY ∧
  0 <= begin_timestamp p ∧ 0 <= vesting_cliff_seconds p < 2 ^ 32 ∧
  0 <= vesting_duration_seconds p < 2 ^ 32 ∧ now < 2 ^ 32 ∧
  0 <= begin_balance p - bal <= linear_vested p now.

Definition vb_wf (v : vesting_balance_object) (now : Z) : Prop :=
  match vb_policy v with
  | linear_policy p => linear_wf p (amount (vb_balance v)) now
  | cdd_policy p => cdd_wf p (amount (vb_balance v)) now
  end.

(** What the policy lets the owner withdraw, on plain integers. *)
Definition cdd_earned (p : cdd_vesting_policy) (bal now : Z) : Z :=
  Z.min (coin_seconds_earned p + bal * (now - coin_seconds_earned_last_update p))
        (bal * cdd_divisor p).

Definition vb_allowed (v : vesting_balance_object) (now : Z) : Z :=
  match vb_policy v with
  | linear_policy p => linear_vested p now - (begin_balance p - amount (vb_balance v))
  | cdd_policy p =>
      if now <=? start_claim p then 0
      else cdd_earned p (amount (vb_balance v)) now / cdd_divisor p
  end.

Section properties.
Context {FC : FcArith} {FCL : FcArithLaws FC}.

Lemma cdd_divisor_range p : 0 <= vesting_seconds p < 2 ^ 32 → 1 <= cdd_divisor p < 2 ^ 32.
Proof. unfold cdd_divisor. lia. Qed.

Lemma compute_coin_seconds_earned_eq p now bal a :
  cdd_wf p (amount bal) now →
  compute_coin_seconds_earned p (mkCtx bal now a) = cdd_earned p (amount bal) now ∧
  0 <= cdd_earned p (amount bal) now <= amount bal * cdd_divisor p.
Proof.
  intros (Hb & Hv & Hc & Hl & Hn). pose proof (cdd_divisor_range p Hv).
  unfold compute_coin_seconds_earned, cdd_earned; simpl.
  unfold GRAPHENE_MAX_SHARE_SUPPLY, u128_mod in *.
  rewrite time_sub_seconds_spec.
  rewrite (u128_of_i64_nonneg (amount bal)), (u128_of_i64_nonneg (cdd_divisor p)),
    (u128_of_i64_nonneg (now - coin_seconds_earned_last_update p))
    by (unfold u128_mod; lia).
  rewrite !u128_mul_small by (unfold u128_mod; nia).
  rewrite u128_add_small by (unfold u128_mod; nia).
  split; [done|nia].
Qed.

Lemma cdd_allowed_eq p now bal a :
  cdd_wf p (amount bal) now →
  cdd_get_allowed_withdraw p (mkCtx bal now a) =
    Ok (mkAsset (if now <=? start_claim p then 0
                 else cdd_earned p (amount bal) now / cdd_divisor p) (asset_id bal)).
Proof.
  intros Hwf. pose proof (compute_coin_seconds_earned_eq p now bal a Hwf) as [E Hr].
  destruct Hwf as (Hb & Hv & _). pose proof (cdd_divisor_range p Hv).
  unfold cdd_get_allowed_withdraw; simpl. destruct (Z.leb_spec now (start_claim p)); [done|].
  rewrite E, u128_of_i64_nonneg by (unfold u128_mod; lia).
  rewrite u128_div_ok by lia. simpl.
  assert (0 <= cdd_earned p (amount bal) now / cdd_divisor p <= amount bal) as Hq.
  { split; [apply Z.div_pos; lia|apply Z.div_le_upper_bound; lia]. }
  unfold GRAPHENE_MAX_SHARE_SUPPLY in *.
  rewrite u128_to_uint64_spec. rewrite (proj2 (Z.ltb_lt _ _)) by lia. simpl.
  by rewrite wrap_i64_small by lia.
Qed.

Lemma linear_vested_range p now bal :
  linear_wf p bal now → 0 <= linear_vested p now <= begin_balance p.
Proof.
  intros (Hb & Ht & Hc & Hd & Hn & Hw). unfold linear_vested in *.
  destruct (Z.leb_spec now (begin_timestamp p)); [lia|].
  destruct (Z.ltb_spec (now - begin_timestamp p) (vesting_cliff_seconds p)); [lia|].
  destruct (Z.ltb_spec (now - begin_timestamp p) (vesting_duration_seconds p)); [|lia].
  apply mul_div_le; lia.
Qed.

Lemma linear_allowed_eq p now bal a :
  linear_wf p (amount bal) now →
  linear_get_allowed_withdraw p (mkCtx bal now a) =
    Ok (mkAsset (linear_vested p now - (begin_balance p - amount bal)) (asset_id bal)).
Proof.
  intros Hwf. pose proof (linear_vested_range p now (amount bal) Hwf) as Hr.
  destruct Hwf as (Hb & Ht & Hc & Hd & Hn & Hw).
  unfold linear_get_allowed_withdraw, linear_vested in *; simpl.
  unfold GRAPHENE_MAX_SHARE_SUPPLY in *. rewrite time_sub_seconds_spec.
  destruct (Z.leb_spec now (begin_timestamp p)), (Z.ltb_spec (begin_timestamp p) now);
    try lia; simpl.
  { do 3 f_equal. lia. }
  destruct (Z.ltb_spec (now - begin_timestamp p) (vesting_cliff_seconds p)),
    (Z.leb_spec (vesting_cliff_seconds p) (now - begin_timestamp p)); try lia; simpl.
  { do 3 f_equal. lia. }
  destruct (Z.ltb_spec (now - begin_timestamp p) (vesting_duration_seconds p)); simpl.
  - rewrite !u128_of_i64_nonneg by (unfold u128_mod; lia).
    rewrite u128_mul_small by (unfold u128_mod; nia).
    rewrite u128_div_ok by lia. simpl.
    rewrite u128_to_uint64_spec, (proj2 (Z.ltb_lt _ _)) by lia. simpl.
    rewrite wrap_i64_small by lia.
    rewrite !safe_sub_spec, !check_int64_in by lia. simpl.
    rewrite safe_sub_spec, check_int64_in by lia. done.
  - rewrite !safe_sub_spec, !check_int64_in by lia. simpl.
    rewrite safe_sub_spec, check_int64_in by lia. done.
Qed.

Lemma vb_allowed_eq v now :
  vb_wf v now →
  vb_get_allowed_withdraw v now =
    Ok (mkAsset (vb_allowed v now) (asset_id (vb_balance v))) ∧
  0 <= vb_allowed v now <= amount (vb_balance v).
Proof.
  unfold vb_wf, vb_get_allowed_withdraw, vb_allowed.
  destruct (vb_policy v) as [p|p]; intros Hwf.
  - split; [by apply linear_allowed_eq|].
    pose proof (linear_vested_range p now _ Hwf).
    destruct Hwf as (? & ? & ? & ? & ? & ?). lia.
  - split; [by apply cdd_allowed_eq|].
    pose proof (compute_coin_seconds_earned_eq p now (vb_balance v) (core_asset 0) Hwf) as [_ ?].
    destruct Hwf as (? & Hv & _). pose proof (cdd_divisor_range p Hv).
    destruct (now <=? start_claim p); [lia|].
    split; [apply Z.div_pos; lia|apply Z.div_le_upper_bound; lia].
Qed.

(** C22.  The withdrawable amount computed with 128-bit arithmetic is the
    one the policy promises on unbounded integers, for both policies, and it
    never exceeds the balance (the debug assertions of the source): linear
    balances release [begin_balance * elapsed / duration] after the cliff
    minus what was withdrawn, coin-day balances the earned coin-seconds,
    capped at the balance, over the vesting period. *)
Theorem get_allowed_withdraw_correct v now :
  vb_wf v now →
  vb_get_allowed_withdraw v now =
    Ok (mkAsset (vb_allowed v now) (asset_id (vb_balance v))) ∧
  0 <= vb_allowed v now <= amount (vb_balance v).
Proof. apply vb_allowed_eq. Qed.

Lemma vb_is_withdraw_allowed_eq v now a :
  vb_wf v now → asset_id a = asset_id (vb_balance v) →
  vb_is_withdraw_allowed v now a = Ok (amount a <=? vb_allowed v now).
Proof.
  unfold vb_wf, vb_is_withdraw_allowed, vb_allowed. intros Hwf Hid.
  destruct (vb_policy v) as [p|p].
  - unfold linear_is_withdraw_allowed; simpl.
    rewrite (proj2 (Z.eqb_eq _ _) Hid), linear_allowed_eq by done. simpl.
    unfold asset_leb, asset_ltb, asset_eqb; simpl. rewrite (proj2 (Z.eqb_eq _ _) Hid); simpl.
    case_match; f_equal; lia.
  - unfold cdd_is_withdraw_allowed. rewrite cdd_allowed_eq by done. simpl.
    unfold asset_leb, asset_ltb, asset_eqb; simpl. rewrite (proj2 (Z.eqb_eq _ _) Hid); simpl.
    set (x := if now <=? start_claim p then 0 else _). clearbody x.
    case_match; f_equal; lia.
Qed.

(** Coin-seconds left after a withdrawal, at the same instant. *)
Lemma cdd_withdraw_state p now bal a :
  cdd_wf p (amount bal) now → 0 <= amount a →
  amount a * cdd_divisor p <= cdd_earned p (amount bal) now →
  cdd_on_withdraw p (mkCtx bal now a) =
    mkCdd (vesting_seconds p)
          (cdd_earned p (amount bal) now - amount a * cdd_divisor p)
          (start_claim p) now.
Proof.
  intros Hwf Ha Hle.
  pose proof (compute_coin_seconds_earned_eq p now bal a Hwf) as [E Hr].
  destruct Hwf as ([? Hmax] & Hv & _). pose proof (cdd_divisor_range p Hv).
  unfold cdd_on_withdraw, update_coin_seconds_earned; simpl. rewrite E.
  unfold GRAPHENE_MAX_SHARE_SUPPLY in *.
  change (cdd_divisor (mkCdd (vesting_seconds p) _ _ _)) with (cdd_divisor p).
  assert (amount a <= amount bal) by nia.
  rewrite !u128_of_i64_nonneg by (unfold u128_mod; lia).
  rewrite u128_mul_small by (unfold u128_mod; nia).
  rewrite u128_sub_small by (unfold u128_mod; nia). done.
Qed.

Lemma cdd_earned_now p bal now :
  coin_seconds_earned p <= bal * cdd_divisor p → coin_seconds_earned_last_update p = now →
  cdd_earned p bal now = coin_seconds_earned p.
Proof. unfold cdd_earned. intros ? ->. lia. Qed.

(** A permitted withdrawal is safe: when [is_withdraw_allowed] accepts a
    non-negative amount of the right currency, [withdraw] succeeds, takes
    exactly that amount from the balance, leaves the invariant in place and
    lowers what can still be withdrawn at that moment by the same amount; so
    repeated withdrawals never take more than has vested. *)
Lemma withdraw_allowed_safe v now a :
  vb_wf v now → asset_id a = asset_id (vb_balance v) → 0 <= amount a →
  vb_is_withdraw_allowed v now a = Ok true →
  ∃ v', vb_withdraw v now a = Ok v' ∧ vb_wf v' now ∧
    vb_owner v' = vb_owner v ∧
    vb_balance v' = mkAsset (amount (vb_balance v) - amount a) (asset_id (vb_balance v)) ∧
    vb_allowed v' now = vb_allowed v now - amount a.
Proof.
  intros Hwf Hid Ha Hok. pose proof (vb_allowed_eq v now Hwf) as [_ Hrange].
  rewrite vb_is_withdraw_allowed_eq in Hok by done. injection Hok as Hle.
  apply Z.leb_le in Hle. destruct v as [o b pol t]; simpl in *.
  unfold vb_withdraw, asset_sub; simpl. rewrite (proj2 (Z.eqb_eq _ _) (eq_sym Hid)); simpl.
  unfold vb_wf, vb_allowed in *; simpl in *.
  destruct pol as [p|p]; simpl in *.
  - destruct Hwf as (? & ? & ? & ? & ? & ?). unfold GRAPHENE_MAX_SHARE_SUPPLY in *.
    rewrite safe_sub_spec, check_int64_in by lia. simpl.
    eexists. split; [done|]. simpl. unfold linear_wf, GRAPHENE_MAX_SHARE_SUPPLY.
    repeat split; lia.
  - pose proof (compute_coin_seconds_earned_eq p now b a Hwf) as [_ Her].
    pose proof Hwf as ([? ?] & Hv & ? & ? & ?). pose proof (cdd_divisor_range p Hv).
    unfold GRAPHENE_MAX_SHARE_SUPPLY in *.
    rewrite safe_sub_spec, check_int64_in by lia. simpl.
    assert (amount a * cdd_divisor p <= cdd_earned p (amount b) now) as Hneed.
    { destruct (now <=? start_claim p); [nia|].
      pose proof (Z.mul_div_le (cdd_earned p (amount b) now) (cdd_divisor p)). nia. }
    eexists. split; [done|]. simpl. rewrite cdd_withdraw_state by done. simpl.
    change (cdd_divisor (mkCdd (vesting_seconds p) _ _ _)) with (cdd_divisor p).
    split; [unfold cdd_wf, GRAPHENE_MAX_SHARE_SUPPLY; simpl;
            change (cdd_divisor (mkCdd (vesting_seconds p) _ _ _)) with (cdd_divisor p);
            repeat split; nia|].
    split; [done|]. split; [done|].
    destruct (now <=? start_claim p); [lia|].
    rewrite cdd_earned_now by
      (simpl; try change (cdd_divisor (mkCdd (vesting_seconds p) _ _ _)) with (cdd_divisor p); nia).
    simpl. replace (cdd_earned p (amount b) now - amount a * cdd_divisor p)
      with (cdd_earned p (amount b) now + (- amount a) * cdd_divisor p) by lia.
    rewrite Z.div_add by lia. lia.
Qed.

(** What a permitted deposit does to the policy of a coin-day balance. *)
Lemma cdd_deposit_state p now bal a :
  cdd_wf p (amount bal) now →
  cdd_on_deposit p (mkCtx bal now a) =
    mkCdd (vesting_seconds p) (cdd_earned p (amount bal) now) (start_claim p) now.
Proof.
  intros Hwf. unfold cdd_on_deposit, update_coin_seconds_earned; simpl.
  by rewrite (proj1 (compute_coin_seconds_earned_eq p now bal a Hwf)).
Qed.

Lemma sum_below_max_shares_true a b :
  sum_below_max_shares a b = Ok true → amount a + amount b <= GRAPHENE_MAX_SHARE_SUPPLY.
Proof.
  unfold sum_below_max_shares. intros H. repeat (case_match; ok_inv; try done).
  apply safe_add_ok in Hx as [-> _]. lia.
Qed.

(** Depositing into a coin-day balance: a permitted deposit succeeds,
    adds exactly the amount and keeps the invariant; an ordinary deposit
    leaves what can be withdrawn right now unchanged, a pre-vested deposit
    (once claims have started, with coin-seconds that fit [int64_t]) raises
    it by exactly the deposited amount. *)
Theorem cdd_deposit_effect o b p t now a :
  let v := mkVbo o b (cdd_policy p) t in
  vb_wf v now → 0 <= amount a → amount a * cdd_divisor p < 2 ^ 63 →
  vb_is_deposit_allowed v now a = Ok true →
  ∃ v1 v2,
    vb_deposit v now a = Ok v1 ∧ vb_deposit_vested v now a = Ok v2 ∧
    vb_balance v1 = mkAsset (amount b + amount a) (asset_id b) ∧
    vb_balance v2 = vb_balance v1 ∧ vb_wf v1 now ∧ vb_wf v2 now ∧
    vb_allowed v1 now = vb_allowed v now ∧
    (start_claim p < now → vb_allowed v2 now = vb_allowed v now + amount a).
Proof.
  intros v Hwf Ha Hsmall Hok. unfold v in *. unfold vb_wf in Hwf. simpl in Hwf.
  unfold vb_is_deposit_allowed, cdd_is_deposit_allowed in Hok; simpl in Hok.
  destruct (Z.eqb_spec (asset_id a) (asset_id b)) as [Hid|]; [|done].
  apply sum_below_max_shares_true in Hok.
  pose proof (compute_coin_seconds_earned_eq p now b a Hwf) as [_ Her].
  pose proof Hwf as ([? ?] & Hv & ? & ? & ?). pose proof (cdd_divisor_range p Hv).
  unfold GRAPHENE_MAX_SHARE_SUPPLY in *.
  unfold vb_deposit, vb_deposit_vested, asset_add; simpl.
  rewrite (proj2 (Z.eqb_eq _ _) (eq_sym Hid)); simpl.
  rewrite safe_add_spec, check_int64_in by lia. simpl.
  unfold cdd_on_deposit_vested. rewrite cdd_deposit_state by done. simpl.
  unfold cdd_divisor in *; simpl.
  rewrite wrap_i64_small by nia.
  rewrite u128_of_i64_nonneg by (unfold u128_mod; nia).
  rewrite u128_add_small by (unfold u128_mod; nia).
  eexists _, _. do 2 (split; [done|]). simpl. do 2 (split; [done|]).
  unfold vb_wf, vb_allowed; simpl.
  split; [unfold cdd_wf, cdd_divisor, GRAPHENE_MAX_SHARE_SUPPLY; simpl; repeat split; nia|].
  split; [unfold cdd_wf, cdd_divisor, GRAPHENE_MAX_SHARE_SUPPLY; simpl; repeat split; nia|].
  unfold cdd_divisor; simpl. split.
  - destruct (now <=? start_claim p); [done|].
    rewrite cdd_earned_now by (simpl; unfold cdd_divisor; simpl; nia). done.
  - intros Hs. rewrite (proj2 (Z.leb_gt _ _)) by lia.
    rewrite cdd_earned_now by (simpl; unfold cdd_divisor; simpl; nia). simpl.
    rewrite Z.div_add by lia. done.
Qed.

Lemma linear_vested_mono p now now' :
  0 <= begin_balance p → 0 <= vesting_duration_seconds p → now <= now' →
  linear_vested p now <= linear_vested p now'.
Proof.
  intros Hb Hd Hle. unfold linear_vested.
  destruct (Z.leb_spec now (begin_timestamp p)) as [?|H1].
  { destruct (Z.leb_spec now' (begin_timestamp p)); [lia|]. repeat case_match; try lia.
    apply Z.div_pos; nia. }
  rewrite (proj2 (Z.leb_gt now' _)) by lia.
  destruct (Z.ltb_spec (now - begin_timestamp p) (vesting_cliff_seconds p)) as [?|H2].
  { repeat case_match; try lia. apply Z.div_pos; nia. }
  rewrite (proj2 (Z.ltb_ge (now' - _) (vesting_cliff_seconds p))) by lia.
  destruct (Z.ltb_spec (now - begin_timestamp p) (vesting_duration_seconds p)) as [H3|H3].
  - destruct (Z.ltb_spec (now' - begin_timestamp p) (vesting_duration_seconds p)).
    + apply Z.div_le_mono; nia.
    + apply Z.div_le_upper_bound; nia.
  - rewrite (proj2 (Z.ltb_ge (now' - _) (vesting_duration_seconds p))) by lia. lia.
Qed.

Lemma vb_allowed_progress v now now' :
  vb_wf v now → now <= now' < 2 ^ 32 →
  vb_wf v now' ∧ vb_allowed v now <= vb_allowed v now' ∧
  (match vb_policy v with
   | linear_policy p =>
       begin_timestamp p + Z.max (vesting_cliff_seconds p) (vesting_duration_seconds p) <= now' ∧
       begin_timestamp p < now'
   | cdd_policy p =>
       coin_seconds_earned_last_update p + cdd_divisor p <= now' ∧ start_claim p < now'
   end → vb_allowed v now' = amount (vb_balance v)).
Proof.
  intros Hwf Hle. destruct v as [o b pol t]; unfold vb_wf, vb_allowed in *; simpl in *.
  destruct pol as [p|p].
  - destruct Hwf as (? & ? & ? & ? & ? & ?).
    pose proof (linear_vested_mono p now now').
    split; [unfold linear_wf; repeat split; lia|]. split; [lia|].
    intros [? ?]. unfold linear_vested.
    rewrite (proj2 (Z.leb_gt _ _)), !(proj2 (Z.ltb_ge _ _)) by lia. lia.
  - destruct Hwf as (? & Hv & ? & ? & ?). pose proof (cdd_divisor_range p Hv).
    split; [unfold cdd_wf; repeat split; lia|]. split.
    + destruct (Z.leb_spec now (start_claim p)).
      * case_match; [lia|]. apply Z.div_pos; [unfold cdd_earned; nia|lia].
      * rewrite (proj2 (Z.leb_gt now' _)) by lia.
        apply Z.div_le_mono; [lia|]. unfold cdd_earned. nia.
    + intros [? ?]. rewrite (proj2 (Z.leb_gt now' _)) by lia.
      unfold cdd_earned. rewrite Z.min_r by nia. apply Z.div_mul. lia.
Qed.

(** C23.  Time only helps: while a vesting balance is left alone,
    [get_allowed_withdraw] returns at a later time at least what it returns at
    an earlier one, in the currency of the balance; from the end of the vesting
    period on (and, for coin-day balances, after [start_claim]) it returns the
    whole balance, and nothing before the cliff of a linear balance or the
    start of the claims of a coin-day balance.  This is for balances with
    the invariant [vb_wf], which withdrawals ([withdraw_allowed_safe]) and
    deposits into coin-day balances ([cdd_deposit_effect]) keep. *)
Theorem vesting_progress v now now' :
  vb_wf v now → now <= now' < 2 ^ 32 →
  ∃ x x', vb_get_allowed_withdraw v now = Ok x ∧ vb_get_allowed_withdraw v now' = Ok x' ∧
    asset_id x = asset_id (vb_balance v) ∧ asset_id x' = asset_id (vb_balance v) ∧
    0 <= amount x <= amount x' ∧ amount x' <= amount (vb_balance v) ∧
    match vb_policy v with
    | linear_policy p =>
        (now' < begin_timestamp p + vesting_cliff_seconds p → amount x' = 0) ∧
        (begin_timestamp p + Z.max (vesting_cliff_seconds p) (vesting_duration_seconds p) <= now' →
           begin_timestamp p < now' → amount x' = amount (vb_balance v))
    | cdd_policy p =>
        (now' <= start_claim p → amount x' = 0) ∧
        (coin_seconds_earned_last_update p + cdd_divisor p <= now' → start_claim p < now' →
           amount x' = amount (vb_balance v))
    end.
Proof.
  intros Hwf Hle. destruct (vb_allowed_progress v now now' Hwf Hle) as (Hwf' & Hmono & Hall).
  destruct (vb_allowed_eq v now Hwf) as [E Hr]. destruct (vb_allowed_eq v now' Hwf') as [E' Hr'].
  eexists _, _. split; [exact E|]. split; [exact E'|]. cbn [amount asset_id]. split_and!; [done|done|lia|lia|lia|].
  unfold vb_allowed, vb_wf in *. destruct (vb_policy v) as [p|p]; (split; [|by intros; apply Hall]).
  - destruct Hwf' as (_ & _ & _ & _ & _ & Hw). unfold linear_vested in *. intros Hc.
    destruct (Z.leb_spec now' (begin_timestamp p)); [lia|]. rewrite (proj2 (Z.ltb_lt _ _)) in * by lia. lia.
  - intros Hs. by rewrite (proj2 (Z.leb_le _ _)).
Qed.

(** Deposits into linear balances are accepted, against the note of
    [linear_vesting_policy] that new funds may not be added to one: a deposit
    of the right currency within the maximum supply is allowed, succeeds, and
    its whole amount is withdrawable at once when the cliff has passed. *)
Lemma linear_deposit_is_accepted o b p t now a :
  let v := mkVbo o b (linear_policy p) t in
  linear_wf p (amount b) now →
  asset_id a = asset_id b → 0 <= amount a →
  amount b + amount a <= GRAPHENE_MAX_SHARE_SUPPLY →
  begin_timestamp p < now →
  vesting_cliff_seconds p <= now - begin_timestamp p →
  vb_is_deposit_allowed v now a = Ok true ∧
  ∃ v', vb_deposit v now a = Ok v' ∧
    vb_get_allowed_withdraw v' now =
      Ok (mkAsset (vb_allowed v now + amount a) (asset_id b)).
Proof.
  intros v Hwf Hid Ha Hsum Hbegin Hcliff. unfold v. clear v.
  pose proof (linear_vested_range p now (amount b) Hwf) as Hr.
  destruct Hwf as (Hb & Ht & Hc & Hd & Hn & Hw).
  unfold GRAPHENE_MAX_SHARE_SUPPLY in *.
  assert (0 <= amount b) by lia.
  unfold vb_is_deposit_allowed, linear_is_deposit_allowed, sum_below_max_shares; simpl.
  unfold GRAPHENE_MAX_SHARE_SUPPLY.
  rewrite (proj2 (Z.eqb_eq _ _) Hid); simpl. rewrite !(proj2 (Z.leb_le _ _)) by lia; simpl.
  rewrite safe_add_spec, check_int64_in by lia. simpl. split; [f_equal; lia|].
  unfold vb_deposit, asset_add; simpl. rewrite (proj2 (Z.eqb_eq _ _) (eq_sym Hid)); simpl.
  rewrite safe_add_spec, check_int64_in by lia. simpl. eexists; split; [done|].
  unfold vb_get_allowed_withdraw, linear_get_allowed_withdraw, vb_allowed; simpl.
  rewrite time_sub_seconds_spec, (proj2 (Z.ltb_lt _ _)) by lia. simpl.
  rewrite (proj2 (Z.leb_le (vesting_cliff_seconds p) _)) by lia. simpl.
  unfold linear_vested in *. rewrite (proj2 (Z.leb_gt _ _)) in * by lia.
  rewrite (proj2 (Z.ltb_ge _ (vesting_cliff_seconds p))) in * by lia.
  destruct (Z.ltb_spec (now - begin_timestamp p) (vesting_duration_seconds p)); simpl.
  - rewrite !u128_of_i64_nonneg by (unfold u128_mod; lia).
    rewrite u128_mul_small by (unfold u128_mod; nia).
    rewrite u128_div_ok by lia. simpl.
    rewrite u128_to_uint64_spec, (proj2 (Z.ltb_lt _ (2 ^ 64))) by lia. simpl.
    rewrite wrap_i64_small by lia.
    rewrite !safe_sub_spec, !check_int64_in by lia. simpl.
    rewrite safe_sub_spec, check_int64_in by lia. simpl. do 2 f_equal. lia.
  - rewrite !safe_sub_spec, !check_int64_in by lia. simpl.
    rewrite safe_sub_spec, check_int64_in by lia. simpl. do 2 f_equal. lia.
Qed.
End properties.

(** ** Witnesses *)

Section witnesses.
#[local] Existing Instance fc_reference.
#[local] Existing Instance fc_reference_laws.

Definition sample_cdd : vesting_balance_object :=
  mkVbo 20 (core_asset 1000) (cdd_policy (mkCdd 100 20000 0 500)) no_type.
Definition sample_linear : vesting_balance_object :=
  mkVbo 20 (core_asset 900) (linear_policy (mkLinear 100 10 1000 1000)) no_type.

Lemma get_allowed_withdraw_correct_witness :
  vb_get_allowed_withdraw sample_linear 300 = Ok (core_asset 100).
Proof.
  refine (proj1 (get_allowed_withdraw_correct sample_linear 300 _)).
  vm_compute. intuition congruence.
Defined.

Lemma cdd_deposit_effect_witness :
  ∃ v2, vb_deposit_vested sample_cdd 520 (core_asset 7) = Ok v2 ∧
        vb_allowed v2 520 = vb_allowed sample_cdd 520 + 7.
Proof.
  destruct (cdd_deposit_effect 20 (core_asset 1000) (mkCdd 100 20000 0 500) no_type 520
              (core_asset 7)) as (v1 & v2 & _ & H2 & _ & _ & _ & _ & _ & Hv).
  - vm_compute. intuition congruence.
  - vm_compute. congruence.
  - vm_compute. reflexivity.
  - vm_compute. reflexivity.
  - exists v2. split; [exact H2|]. apply Hv. vm_compute. reflexivity.
Defined.

Lemma vesting_progress_witness : ∃ x', vb_get_allowed_withdraw sample_cdd 601 = Ok x' ∧ amount x' = 1000.
Proof.
  destruct (vesting_progress sample_cdd 520 601) as (x & x' & _ & H & _ & _ & _ & _ & Hp & Hc).
  - vm_compute. intuition congruence.
  - lia.
  - exists x'. split; [exact H|]. apply Hc; vm_compute; congruence.
Defined.
End witnesses.
