(* ===== verification/Objects.v ===== *)
(** * The objects of the chain database

    Records for the object classes the modelled operations read and write.
    A field of the source that no operation of the chain reads is left out.  Object ids are the instance
    numbers of the source's typed ids. *)

From stdpp Require Import gmap strings.
From Stdlib Require Import ZArith.
From S2P Require Import Prelude Config Authority Asset VestingBalance.

Local Open Scope Z_scope.

(** [field_setter eta proj] builds the function that updates one field, from
    the eta-expansion of the record. *)
Ltac field_setter eta proj :=
  let b := eval cbv beta delta [eta] in eta in
  let s := eval pattern proj in b in
  match s with
  | ?g _ => let r := eval cbv beta in (fun f => g (fun x => f (proj x))) in exact r
  end.

(** ** OmniBazaar fees ([omnibazaar_fee_type.hpp]) *)
Record omnibazaar_fee_type := mkObFee {
  omnibazaar_fee : option asset;
  escrow_fee : option asset;
  referrer_buyer_fee : option asset;
  referrer_seller_fee : option asset;
  publisher_fee : option asset
}.
Definition no_ob_fee : omnibazaar_fee_type := mkObFee None None None None None.

(** ** Accounts ([account_object.hpp]) *)
Record escrow_options := mkEscrowOptions {
  positive_rating : bool;
  voted_witness : bool;
  active_witness : bool
}.

(** [special_authority.hpp]. *)
Inductive special_authority :=
| no_special_authority
| top_holders_special_authority (asset_ num_top_holders : Z).

(** [authority()]. *)
Definition empty_authority : authority := mkAuthority 0 [] [] [].

Record account_object := mkAccount {
  ao_name : string;
  ao_registrar : Z;
  ao_referrer : Z;
  ao_network_fee_percentage : Z;
  ao_referrer_rewards_percentage : Z;
  ao_votes : gset Z;
  ao_statistics : Z;
  ao_whitelisting_accounts : gset Z;
  ao_blacklisting_accounts : gset Z;
  ao_cashback_vb : option Z;
  ao_escrow_vb : option Z;
  ao_publisher_vb : option Z;
  ao_founder_sale_vb : option Z;
  ao_referrer_sale_vb : option Z;
  ao_allowed_assets : option (gset Z);
  ao_drive_id : string;
  ao_mac_address : string;
  ao_received_welcome_bonus : bool;
  ao_is_a_publisher : bool;
  ao_is_an_escrow : bool;
  ao_escrow_fee : Z;
  ao_buyers : gset Z;
  ao_escrows : gset Z;
  ao_implicit_escrow_options : escrow_options;
  ao_listings_count : Z;
  ao_sent_referral_bonus : bool;
  ao_is_referrer : bool;
  ao_publisher_fee : Z;
  ao_reputation_unweighted_score : Z;
  ao_reputation_votes_count : Z;
  ao_pop_score : Z;
  ao_verified : bool;
  ao_owner : authority;
  ao_active : authority;
  ao_memo_key : Z;
  ao_voting_account : Z;
  ao_num_witness : Z;
  ao_num_committee : Z;
  ao_whitelisted_accounts : gset Z;
  ao_blacklisted_accounts : gset Z;
  ao_owner_special_authority : special_authority;
  ao_active_special_authority : special_authority;
  ao_top_n_control_flags : Z;
  ao_publisher_ip : string;
  ao_btc_address : string;
  ao_eth_address : string;
  ao_referral_score : Z;
  ao_listings_score : Z;
  ao_reputation_score : Z;
  ao_trust_score : Z;
  ao_reliability_score : Z
}.

Definition account_eta (a : account_object) : account_object :=
  mkAccount (ao_name a) (ao_registrar a) (ao_referrer a) (ao_network_fee_percentage a)
    (ao_referrer_rewards_percentage a) (ao_votes a) (ao_statistics a)
    (ao_whitelisting_accounts a) (ao_blacklisting_accounts a) (ao_cashback_vb a)
    (ao_escrow_vb a) (ao_publisher_vb a) (ao_founder_sale_vb a) (ao_referrer_sale_vb a)
    (ao_allowed_assets a) (ao_drive_id a) (ao_mac_address a) (ao_received_welcome_bonus a)
    (ao_is_a_publisher a) (ao_is_an_escrow a) (ao_escrow_fee a) (ao_buyers a) (ao_escrows a)
    (ao_implicit_escrow_options a) (ao_listings_count a) (ao_sent_referral_bonus a)
    (ao_is_referrer a) (ao_publisher_fee a) (ao_reputation_unweighted_score a)
    (ao_reputation_votes_count a) (ao_pop_score a) (ao_verified a)
    (ao_owner a) (ao_active a) (ao_memo_key a) (ao_voting_account a) (ao_num_witness a)
    (ao_num_committee a) (ao_whitelisted_accounts a) (ao_blacklisted_accounts a)
    (ao_owner_special_authority a) (ao_active_special_authority a) (ao_top_n_control_flags a)
    (ao_publisher_ip a) (ao_btc_address a) (ao_eth_address a) (ao_referral_score a)
    (ao_listings_score a) (ao_reputation_score a) (ao_trust_score a) (ao_reliability_score a).

Definition set_cashback_vb : (option Z → option Z) → account_object → account_object :=
  ltac:(field_setter account_eta ao_cashback_vb).
Definition set_escrow_vb : (option Z → option Z) → account_object → account_object :=
  ltac:(field_setter account_eta ao_escrow_vb).
Definition set_publisher_vb : (option Z → option Z) → account_object → account_object :=
  ltac:(field_setter account_eta ao_publisher_vb).
Definition set_founder_sale_vb : (option Z → option Z) → account_object → account_object :=
  ltac:(field_setter account_eta ao_founder_sale_vb).
Definition set_referrer_sale_vb : (option Z → option Z) → account_object → account_object :=
  ltac:(field_setter account_eta ao_referrer_sale_vb).
Definition set_received_welcome_bonus : (bool → bool) → account_object → account_object :=
  ltac:(field_setter account_eta ao_received_welcome_bonus).
Definition set_sent_referral_bonus : (bool → bool) → account_object → account_object :=
  ltac:(field_setter account_eta ao_sent_referral_bonus).
Definition set_buyers : (gset Z → gset Z) → account_object → account_object :=
  ltac:(field_setter account_eta ao_buyers).
Definition set_listings_count : (Z → Z) → account_object → account_object :=
  ltac:(field_setter account_eta ao_listings_count).
Definition set_reputation_unweighted_score : (Z → Z) → account_object → account_object :=
  ltac:(field_setter account_eta ao_reputation_unweighted_score).
Definition set_reputation_votes_count : (Z → Z) → account_object → account_object :=
  ltac:(field_setter account_eta ao_reputation_votes_count).

Definition set_verified : (bool → bool) → account_object → account_object :=
  ltac:(field_setter account_eta ao_verified).
Definition set_is_a_publisher : (bool → bool) → account_object → account_object :=
  ltac:(field_setter account_eta ao_is_a_publisher).
Definition set_is_an_escrow : (bool → bool) → account_object → account_object :=
  ltac:(field_setter account_eta ao_is_an_escrow).
Definition set_account_escrows : (gset Z → gset Z) → account_object → account_object :=
  ltac:(field_setter account_eta ao_escrows).
Definition set_owner : (authority → authority) → account_object → account_object :=
  ltac:(field_setter account_eta ao_owner).
Definition set_active : (authority → authority) → account_object → account_object :=
  ltac:(field_setter account_eta ao_active).
Definition set_top_n_control_flags : (Z → Z) → account_object → account_object :=
  ltac:(field_setter account_eta ao_top_n_control_flags).
Definition set_owner_special_authority : (special_authority → special_authority) → account_object → account_object :=
  ltac:(field_setter account_eta ao_owner_special_authority).
Definition set_active_special_authority : (special_authority → special_authority) → account_object → account_object :=
  ltac:(field_setter account_eta ao_active_special_authority).
Definition set_votes : (gset Z → gset Z) → account_object → account_object :=
  ltac:(field_setter account_eta ao_votes).
Definition set_voting_account : (Z → Z) → account_object → account_object :=
  ltac:(field_setter account_eta ao_voting_account).
Definition set_memo_key : (Z → Z) → account_object → account_object :=
  ltac:(field_setter account_eta ao_memo_key).
Definition set_num_witness : (Z → Z) → account_object → account_object :=
  ltac:(field_setter account_eta ao_num_witness).
Definition set_num_committee : (Z → Z) → account_object → account_object :=
  ltac:(field_setter account_eta ao_num_committee).
Definition set_whitelisting_accounts : (gset Z → gset Z) → account_object → account_object :=
  ltac:(field_setter account_eta ao_whitelisting_accounts).
Definition set_blacklisting_accounts : (gset Z → gset Z) → account_object → account_object :=
  ltac:(field_setter account_eta ao_blacklisting_accounts).
Definition set_whitelisted_accounts : (gset Z → gset Z) → account_object → account_object :=
  ltac:(field_setter account_eta ao_whitelisted_accounts).
Definition set_blacklisted_accounts : (gset Z → gset Z) → account_object → account_object :=
  ltac:(field_setter account_eta ao_blacklisted_accounts).
Definition set_publisher_ip : (string → string) → account_object → account_object :=
  ltac:(field_setter account_eta ao_publisher_ip).
Definition set_escrow_fee : (Z → Z) → account_object → account_object :=
  ltac:(field_setter account_eta ao_escrow_fee).
Definition set_implicit_escrow_options : (escrow_options → escrow_options) → account_object → account_object :=
  ltac:(field_setter account_eta ao_implicit_escrow_options).
Definition set_is_referrer : (bool → bool) → account_object → account_object :=
  ltac:(field_setter account_eta ao_is_referrer).
Definition set_account_publisher_fee : (Z → Z) → account_object → account_object :=
  ltac:(field_setter account_eta ao_publisher_fee).
Definition set_btc_address : (string → string) → account_object → account_object :=
  ltac:(field_setter account_eta ao_btc_address).
Definition set_eth_address : (string → string) → account_object → account_object :=
  ltac:(field_setter account_eta ao_eth_address).

(** An account with the default member values of the class. *)
Definition default_account (name : string) (stats : Z) : account_object :=
  mkAccount name 0 0 (20 * GRAPHENE_1_PERCENT) 0 ∅ stats ∅ ∅ None None None None None None
    "" "" false false false (GRAPHENE_1_PERCENT / 2) ∅ ∅ (mkEscrowOptions false false false)
    0 false true (GRAPHENE_1_PERCENT / 4) 0 0 0 false empty_authority empty_authority 0
    GRAPHENE_PROXY_TO_SELF_ACCOUNT 0 0 ∅ ∅ no_special_authority no_special_authority 0 "" "" ""
    0 0 0 0 GRAPHENE_100_PERCENT.

(** [account_statistics_object]. *)
Record account_statistics_object := mkStats {
  st_owner : Z;
  st_lifetime_fees_paid : Z;
  st_pending_fees : Z;
  st_pending_vested_fees : Z;
  st_reputation_votes : gmap Z (Z * asset);
  st_my_reputation_votes : gset Z;
  st_total_core_in_orders : Z
}.

Definition stats_eta (s : account_statistics_object) : account_statistics_object :=
  mkStats (st_owner s) (st_lifetime_fees_paid s) (st_pending_fees s) (st_pending_vested_fees s)
    (st_reputation_votes s) (st_my_reputation_votes s) (st_total_core_in_orders s).
Definition set_pending_fees : (Z → Z) → account_statistics_object → account_statistics_object :=
  ltac:(field_setter stats_eta st_pending_fees).
Definition set_pending_vested_fees : (Z → Z) → account_statistics_object → account_statistics_object :=
  ltac:(field_setter stats_eta st_pending_vested_fees).
Definition set_lifetime_fees_paid : (Z → Z) → account_statistics_object → account_statistics_object :=
  ltac:(field_setter stats_eta st_lifetime_fees_paid).
Definition set_reputation_votes :
    (gmap Z (Z * asset) → gmap Z (Z * asset)) → account_statistics_object → account_statistics_object :=
  ltac:(field_setter stats_eta st_reputation_votes).
Definition set_my_reputation_votes :
    (gset Z → gset Z) → account_statistics_object → account_statistics_object :=
  ltac:(field_setter stats_eta st_my_reputation_votes).

Definition set_total_core_in_orders :
    (Z → Z) → account_statistics_object → account_statistics_object :=
  ltac:(field_setter stats_eta st_total_core_in_orders).

Definition default_stats (owner : Z) : account_statistics_object := mkStats owner 0 0 0 ∅ ∅ 0.

(** ** Assets ([asset_object.hpp]) *)
Record asset_object := mkAssetObject {
  as_issuer : Z;
  as_flags : Z;
  as_issuer_permissions : Z;
  as_whitelist_authorities : gset Z;
  as_blacklist_authorities : gset Z;
  as_core_exchange_rate : price;
  as_dynamic_asset_data_id : Z;
  as_bitasset_data_id : option Z;
  as_buyback_account : option Z;
  as_symbol : string;
  as_precision : Z;
  as_max_supply : Z;
  as_market_fee_percent : Z;
  as_max_market_fee : Z;
  as_whitelist_markets : gset Z;
  as_blacklist_markets : gset Z
}.

Definition asset_object_eta (a : asset_object) : asset_object :=
  mkAssetObject (as_issuer a) (as_flags a) (as_issuer_permissions a) (as_whitelist_authorities a)
    (as_blacklist_authorities a) (as_core_exchange_rate a) (as_dynamic_asset_data_id a)
    (as_bitasset_data_id a) (as_buyback_account a) (as_symbol a) (as_precision a) (as_max_supply a)
    (as_market_fee_percent a) (as_max_market_fee a) (as_whitelist_markets a) (as_blacklist_markets a).
Definition set_buyback_account : (option Z → option Z) → asset_object → asset_object :=
  ltac:(field_setter asset_object_eta as_buyback_account).
Definition set_core_exchange_rate : (price → price) → asset_object → asset_object :=
  ltac:(field_setter asset_object_eta as_core_exchange_rate).

Definition charge_market_fee : Z := 1.
Definition white_list : Z := 2.
Definition override_authority : Z := 4.
Definition transfer_restricted : Z := 8.
Definition disable_force_settle : Z := 16.
Definition global_settle : Z := 32.
Definition disable_confidential : Z := 64.
Definition witness_fed_asset : Z := 128.
Definition committee_fed_asset : Z := 256.

Definition is_market_issued (a : asset_object) : bool :=
  match as_bitasset_data_id a with Some _ => true | None => false end.
Definition is_transfer_restricted (a : asset_object) : bool :=
  negb (Z.land (as_flags a) transfer_restricted =? 0).
Definition can_override (a : asset_object) : bool :=
  negb (Z.land (as_flags a) override_authority =? 0).
Definition charges_market_fees (a : asset_object) : bool :=
  negb (Z.land (as_flags a) charge_market_fee =? 0).
Definition can_force_settle (a : asset_object) : bool :=
  Z.land (as_flags a) disable_force_settle =? 0.
Definition can_global_settle (a : asset_object) : bool :=
  negb (Z.land (as_issuer_permissions a) global_settle =? 0).

Record asset_dynamic_data_object := mkDynData {
  dd_current_supply : Z;
  dd_confidential_supply : Z;
  dd_accumulated_fees : Z;
  dd_fee_pool : Z
}.

Definition dyn_eta (d : asset_dynamic_data_object) : asset_dynamic_data_object :=
  mkDynData (dd_current_supply d) (dd_confidential_supply d) (dd_accumulated_fees d) (dd_fee_pool d).
Definition set_current_supply : (Z → Z) → asset_dynamic_data_object → asset_dynamic_data_object :=
  ltac:(field_setter dyn_eta dd_current_supply).
Definition set_accumulated_fees : (Z → Z) → asset_dynamic_data_object → asset_dynamic_data_object :=
  ltac:(field_setter dyn_eta dd_accumulated_fees).
Definition set_fee_pool : (Z → Z) → asset_dynamic_data_object → asset_dynamic_data_object :=
  ltac:(field_setter dyn_eta dd_fee_pool).

(** [bitasset_options] and [asset_bitasset_data_object]; a feed is kept with
    its publication time. *)
Record bitasset_options := mkBitassetOptions {
  bo_feed_lifetime_sec : Z;
  bo_minimum_feeds : Z;
  bo_force_settlement_delay_sec : Z;
  bo_force_settlement_offset_percent : Z;
  bo_maximum_force_settlement_volume : Z;
  bo_short_backing_asset : Z
}.

Record asset_bitasset_data_object := mkBitasset {
  bd_options : bitasset_options;
  bd_feeds : gmap Z (Z * price_feed);
  bd_current_feed : price_feed;
  bd_current_feed_publication_time : Z;
  bd_is_prediction_market : bool;
  bd_force_settled_volume : Z;
  bd_settlement_price : price;
  bd_settlement_fund : Z
}.

Definition bitasset_eta (b : asset_bitasset_data_object) : asset_bitasset_data_object :=
  mkBitasset (bd_options b) (bd_feeds b) (bd_current_feed b) (bd_current_feed_publication_time b)
    (bd_is_prediction_market b) (bd_force_settled_volume b) (bd_settlement_price b)
    (bd_settlement_fund b).
Definition set_bitasset_options : (bitasset_options → _) → _ → _ :=
  ltac:(field_setter bitasset_eta bd_options).
Definition set_feeds : (gmap Z (Z * price_feed) → _) → _ → _ :=
  ltac:(field_setter bitasset_eta bd_feeds).
Definition set_current_feed : (price_feed → _) → _ → _ :=
  ltac:(field_setter bitasset_eta bd_current_feed).
Definition set_feed_publication_time : (Z → Z) → _ → _ :=
  ltac:(field_setter bitasset_eta bd_current_feed_publication_time).
Definition set_force_settled_volume : (Z → Z) → _ → _ :=
  ltac:(field_setter bitasset_eta bd_force_settled_volume).
Definition set_settlement_price : (price → _) → _ → _ :=
  ltac:(field_setter bitasset_eta bd_settlement_price).
Definition set_settlement_fund : (Z → Z) → _ → _ :=
  ltac:(field_setter bitasset_eta bd_settlement_fund).

Definition backing (b : asset_bitasset_data_object) : Z := bo_short_backing_asset (bd_options b).

(** ** Market objects ([market_object.hpp]) *)

Record limit_order_object := mkLimit {
  lim_expiration : Z;
  lim_seller : Z;
  lim_for_sale : Z;
  lim_sell_price : price;
  lim_deferred_fee : Z
}.
Definition amount_for_sale (o : limit_order_object) : asset :=
  mkAsset (lim_for_sale o) (asset_id (base (lim_sell_price o))).

Record call_order_object := mkCall {
  call_borrower : Z;
  call_collateral : Z;
  call_debt : Z;
  call_call_price : price
}.
Definition get_collateral (o : call_order_object) : asset :=
  mkAsset (call_collateral o) (asset_id (base (call_call_price o))).
Definition debt_type (o : call_order_object) : Z := asset_id (quote (call_call_price o)).
Definition get_debt (o : call_order_object) : asset := mkAsset (call_debt o) (debt_type o).

Record force_settlement_object := mkSettlement {
  fs_owner : Z;
  fs_balance : asset;
  fs_settlement_date : Z
}.

Record collateral_bid_object := mkBid {
  bid_bidder : Z;
  bid_inv_swan_price : price
}.

(** ** OmniBazaar objects *)

(** [escrow_object.hpp]. *)
Record escrow_object := mkEscrow {
  eo_expiration_time : Z;
  eo_buyer : Z;
  eo_seller : Z;
  eo_escrow : Z;
  eo_amount : asset;
  eo_transfer_to_escrow : bool;
  eo_listing : option Z;
  eo_listing_count : option Z;
  eo_ob_fee : omnibazaar_fee_type
}.

Definition escrow_eta (e : escrow_object) : escrow_object :=
  mkEscrow (eo_expiration_time e) (eo_buyer e) (eo_seller e) (eo_escrow e) (eo_amount e)
    (eo_transfer_to_escrow e) (eo_listing e) (eo_listing_count e) (eo_ob_fee e).
Definition set_escrow_expiration : (Z → Z) → escrow_object → escrow_object :=
  ltac:(field_setter escrow_eta eo_expiration_time).

(** [listing_object.hpp]; the hash is a 256-bit number. *)
Record listing_object := mkListing {
  lo_seller : Z;
  lo_publisher : Z;
  lo_price : asset;
  lo_listing_hash : Z;
  lo_quantity : Z;
  lo_expiration_time : Z;
  lo_seller_score : Z;
  lo_reported_score : Z;
  lo_reported_accounts : gset Z;
  lo_priority_fee : Z;
  lo_created_at : Z;
  lo_updated_at : Z
}.

Definition listing_eta (l : listing_object) : listing_object :=
  mkListing (lo_seller l) (lo_publisher l) (lo_price l) (lo_listing_hash l) (lo_quantity l)
    (lo_expiration_time l) (lo_seller_score l) (lo_reported_score l) (lo_reported_accounts l)
    (lo_priority_fee l) (lo_created_at l) (lo_updated_at l).
Definition set_quantity : (Z → Z) → listing_object → listing_object :=
  ltac:(field_setter listing_eta lo_quantity).
Definition set_reported_score : (Z → Z) → listing_object → listing_object :=
  ltac:(field_setter listing_eta lo_reported_score).
Definition set_reported_accounts : (gset Z → gset Z) → listing_object → listing_object :=
  ltac:(field_setter listing_eta lo_reported_accounts).

(** [exchange_object.hpp]. *)
Record exchange_object := mkExchange {
  xo_coin_name : string;
  xo_tx_id : string;
  xo_sender : Z;
  xo_amount : asset
}.

(** ** Witnesses and fee-backed asset accumulators *)

Record witness_object := mkWitness {
  wo_witness_account : Z;
  wo_last_aslot : Z;
  wo_pay_vb : option Z;
  wo_vote_id : Z;
  wo_total_missed : Z;
  wo_last_confirmed_block_num : Z;
  wo_total_produced : Z;
  wo_signing_key : Z;
  wo_total_votes : Z;
  wo_url : string
}.

Definition witness_eta (w : witness_object) : witness_object :=
  mkWitness (wo_witness_account w) (wo_last_aslot w) (wo_pay_vb w) (wo_vote_id w)
    (wo_total_missed w) (wo_last_confirmed_block_num w) (wo_total_produced w) (wo_signing_key w)
    (wo_total_votes w) (wo_url w).
Definition set_pay_vb : (option Z → option Z) → witness_object → witness_object :=
  ltac:(field_setter witness_eta wo_pay_vb).
Definition set_total_missed : (Z → Z) → witness_object → witness_object :=
  ltac:(field_setter witness_eta wo_total_missed).
Definition set_last_aslot : (Z → Z) → witness_object → witness_object :=
  ltac:(field_setter witness_eta wo_last_aslot).
Definition set_last_confirmed_block_num : (Z → Z) → witness_object → witness_object :=
  ltac:(field_setter witness_eta wo_last_confirmed_block_num).
Definition set_total_produced : (Z → Z) → witness_object → witness_object :=
  ltac:(field_setter witness_eta wo_total_produced).
Definition set_signing_key : (Z → Z) → witness_object → witness_object :=
  ltac:(field_setter witness_eta wo_signing_key).
Definition set_witness_votes : (Z → Z) → witness_object → witness_object :=
  ltac:(field_setter witness_eta wo_total_votes).
Definition set_witness_url : (string → string) → witness_object → witness_object :=
  ltac:(field_setter witness_eta wo_url).

Record fba_accumulator_object := mkFba {
  fba_accumulated_fba_fees : Z;
  fba_designated_asset : option Z
}.

(** ** Global properties ([global_property_object.hpp], [chain_parameters.hpp]) *)

(** [pop_weights.hpp]: the weights of the Proof of Participation components. *)
Record pop_weights := mkPopWeights {
  pw_referral : Z;
  pw_listings : Z;
  pw_reputation : Z;
  pw_trust : Z;
  pw_reliability : Z;
  pw_verification : Z
}.

Record chain_parameters := mkParams {
  cp_block_interval : Z;
  cp_maintenance_interval : Z;
  cp_maintenance_skip_slots : Z;
  cp_reserve_percent_of_fee : Z;
  cp_network_percent_of_fee : Z;
  cp_cashback_vesting_period_seconds : Z;
  cp_cashback_vesting_threshold : Z;
  cp_witness_pay_per_block : Z;
  cp_witness_pay_vesting_seconds : Z;
  cp_maximum_escrow_lifetime : Z;
  cp_maximum_listing_lifetime : Z;
  cp_listing_ban_threshold : Z;
  cp_maximum_listing_priority_fee : Z;
  cp_publisher_fee_min : option Z;
  cp_publisher_fee_max : option Z;
  cp_committee_proposal_review_period : Z;
  cp_maximum_transaction_size : Z;
  cp_maximum_block_size : Z;
  cp_maximum_time_until_expiration : Z;
  cp_maximum_proposal_lifetime : Z;
  cp_maximum_asset_whitelist_authorities : Z;
  cp_maximum_asset_feed_publishers : Z;
  cp_maximum_authority_membership : Z;
  cp_allow_non_member_whitelists : bool;
  cp_worker_budget_per_day : Z;
  cp_max_predicate_opcode : Z;
  cp_fee_liquidation_threshold : Z;
  cp_accounts_per_fee_scale : Z;
  cp_account_fee_scale_bitshifts : Z;
  cp_max_authority_depth : Z;
  cp_witness_count_term : Z;
  cp_committee_count : Z;
  cp_account_basic_fee : Z;      (* current_fees: account_create_operation::basic_fee *)
  cp_pop_weights : pop_weights;
  cp_null_ext : bool
}.

Definition params_eta (p : chain_parameters) : chain_parameters :=
  mkParams (cp_block_interval p) (cp_maintenance_interval p) (cp_maintenance_skip_slots p)
    (cp_reserve_percent_of_fee p) (cp_network_percent_of_fee p) (cp_cashback_vesting_period_seconds p)
    (cp_cashback_vesting_threshold p) (cp_witness_pay_per_block p) (cp_witness_pay_vesting_seconds p)
    (cp_maximum_escrow_lifetime p) (cp_maximum_listing_lifetime p) (cp_listing_ban_threshold p)
    (cp_maximum_listing_priority_fee p) (cp_publisher_fee_min p) (cp_publisher_fee_max p)
    (cp_committee_proposal_review_period p) (cp_maximum_transaction_size p) (cp_maximum_block_size p)
    (cp_maximum_time_until_expiration p) (cp_maximum_proposal_lifetime p)
    (cp_maximum_asset_whitelist_authorities p) (cp_maximum_asset_feed_publishers p)
    (cp_maximum_authority_membership p) (cp_allow_non_member_whitelists p)
    (cp_worker_budget_per_day p) (cp_max_predicate_opcode p) (cp_fee_liquidation_threshold p)
    (cp_accounts_per_fee_scale p) (cp_account_fee_scale_bitshifts p) (cp_max_authority_depth p)
    (cp_witness_count_term p) (cp_committee_count p) (cp_account_basic_fee p) (cp_pop_weights p)
    (cp_null_ext p).
Definition set_account_basic_fee : (Z → Z) → chain_parameters → chain_parameters :=
  ltac:(field_setter params_eta cp_account_basic_fee).
Definition set_publisher_fee_min : (option Z → option Z) → chain_parameters → chain_parameters :=
  ltac:(field_setter params_eta cp_publisher_fee_min).
Definition set_publisher_fee_max : (option Z → option Z) → chain_parameters → chain_parameters :=
  ltac:(field_setter params_eta cp_publisher_fee_max).
Definition set_maximum_listing_lifetime : (Z → Z) → chain_parameters → chain_parameters :=
  ltac:(field_setter params_eta cp_maximum_listing_lifetime).

Record global_property_object := mkGpo {
  gp_parameters : chain_parameters;
  gp_active_witnesses : gset Z;
  gp_next_available_vote_id : Z;
  gp_active_committee_members : list Z;
  gp_pending_parameters : option chain_parameters
}.

Definition gpo_eta (g : global_property_object) : global_property_object :=
  mkGpo (gp_parameters g) (gp_active_witnesses g) (gp_next_available_vote_id g)
    (gp_active_committee_members g) (gp_pending_parameters g).
Definition set_parameters : (chain_parameters → _) → _ → _ := ltac:(field_setter gpo_eta gp_parameters).
Definition set_active_witnesses : (gset Z → gset Z) → _ → _ :=
  ltac:(field_setter gpo_eta gp_active_witnesses).
Definition set_next_vote_id : (Z → Z) → _ → _ := ltac:(field_setter gpo_eta gp_next_available_vote_id).
Definition set_active_committee : (list Z → list Z) → _ → _ :=
  ltac:(field_setter gpo_eta gp_active_committee_members).
Definition set_pending_parameters : (option chain_parameters → _) → _ → _ :=
  ltac:(field_setter gpo_eta gp_pending_parameters).

Record dynamic_global_property_object := mkDgpo {
  dg_head_block_number : Z;
  dg_time : Z;
  dg_current_witness : Z;
  dg_witness_budget : Z;
  dg_recently_missed_count : Z;
  dg_current_aslot : Z;
  dg_recent_slots_filled : Z;
  dg_dynamic_flags : Z;
  dg_last_irreversible_block_num : Z;
  dg_welcome_bonus : Z;
  dg_referral_bonus : Z;
  dg_sale_bonus : Z;
  dg_founder_bonus : Z;
  dg_witness_bonus : Z;
  dg_next_maintenance_time : Z;
  dg_last_budget_time : Z;
  dg_accounts_registered_this_interval : Z
}.

Definition dgpo_eta (d : dynamic_global_property_object) : dynamic_global_property_object :=
  mkDgpo (dg_head_block_number d) (dg_time d) (dg_current_witness d) (dg_witness_budget d)
    (dg_recently_missed_count d) (dg_current_aslot d) (dg_recent_slots_filled d)
    (dg_dynamic_flags d) (dg_last_irreversible_block_num d) (dg_welcome_bonus d)
    (dg_referral_bonus d) (dg_sale_bonus d) (dg_founder_bonus d) (dg_witness_bonus d)
    (dg_next_maintenance_time d) (dg_last_budget_time d) (dg_accounts_registered_this_interval d).
Definition set_witness_budget : (Z → Z) → _ → _ := ltac:(field_setter dgpo_eta dg_witness_budget).
Definition set_last_irreversible : (Z → Z) → _ → _ :=
  ltac:(field_setter dgpo_eta dg_last_irreversible_block_num).
Definition set_welcome_bonus : (Z → Z) → _ → _ := ltac:(field_setter dgpo_eta dg_welcome_bonus).
Definition set_referral_bonus : (Z → Z) → _ → _ := ltac:(field_setter dgpo_eta dg_referral_bonus).
Definition set_sale_bonus : (Z → Z) → _ → _ := ltac:(field_setter dgpo_eta dg_sale_bonus).
Definition set_founder_bonus : (Z → Z) → _ → _ := ltac:(field_setter dgpo_eta dg_founder_bonus).
Definition set_witness_bonus : (Z → Z) → _ → _ := ltac:(field_setter dgpo_eta dg_witness_bonus).
Definition set_next_maintenance_time : (Z → Z) → _ → _ :=
  ltac:(field_setter dgpo_eta dg_next_maintenance_time).
Definition set_last_budget_time : (Z → Z) → _ → _ := ltac:(field_setter dgpo_eta dg_last_budget_time).
Definition set_accounts_registered : (Z → Z) → _ → _ :=
  ltac:(field_setter dgpo_eta dg_accounts_registered_this_interval).

(** ** Votes and elected objects ([vote.hpp], [committee_member_object.hpp], [worker_object.hpp]) *)

(** A vote id has its type in the lower 8 bits and its instance above. *)
Inductive vote_type := committee | witness | worker.
Definition vote_type_number (t : vote_type) : Z :=
  match t with committee => 0 | witness => 1 | worker => 2 end.
Definition vote_id (t : vote_type) (instance : Z) : Z :=
  Z.lor (Z.shiftl instance 8 mod 2 ^ 32) (vote_type_number t).
Definition vote_instance (v : Z) : Z := Z.shiftr v 8.
Definition vote_kind (v : Z) : Z := Z.land v 255.

Record committee_member_object := mkCommitteeMember {
  cm_account : Z;
  cm_vote_id : Z;
  cm_total_votes : Z;
  cm_url : string
}.

Inductive worker_type :=
| refund_worker_type (total_burned : Z)
| vesting_balance_worker_type (balance : Z)
| burn_worker_type (total_burned : Z).

Record worker_object := mkWorker {
  wk_account : Z;
  wk_work_begin_date : Z;
  wk_work_end_date : Z;
  wk_daily_pay : Z;
  wk_worker : worker_type;
  wk_name : string;
  wk_url : string;
  wk_vote_for : Z;
  wk_vote_against : Z;
  wk_total_votes_for : Z;
  wk_total_votes_against : Z
}.

Definition worker_eta (w : worker_object) : worker_object :=
  mkWorker (wk_account w) (wk_work_begin_date w) (wk_work_end_date w) (wk_daily_pay w) (wk_worker w)
    (wk_name w) (wk_url w) (wk_vote_for w) (wk_vote_against w) (wk_total_votes_for w)
    (wk_total_votes_against w).
Definition set_worker : (worker_type → worker_type) → worker_object → worker_object :=
  ltac:(field_setter worker_eta wk_worker).
Definition set_votes_for : (Z → Z) → worker_object → worker_object :=
  ltac:(field_setter worker_eta wk_total_votes_for).
Definition set_votes_against : (Z → Z) → worker_object → worker_object :=
  ltac:(field_setter worker_eta wk_total_votes_against).

Definition is_active (w : worker_object) (now : Z) : bool :=
  (wk_work_begin_date w <=? now) && (now <=? wk_work_end_date w).

(** ** Recurring payments, genesis balances, blinded balances

    [withdraw_permission_object.hpp], [balance_object.hpp],
    [confidential_object.hpp]; addresses and commitments are numbers. *)
Record withdraw_permission_object := mkPermit {
  wp_withdraw_from_account : Z;
  wp_authorized_account : Z;
  wp_withdrawal_limit : asset;
  wp_withdrawal_period_sec : Z;
  wp_period_start_time : Z;
  wp_expiration : Z;
  wp_claimed_this_period : Z
}.

Record balance_object := mkBalanceObject {
  bo_owner : Z;
  bo_balance : asset;
  bo_vesting_policy : option linear_vesting_policy;
  bo_last_claim_date : Z
}.

Record blinded_balance_object := mkBlinded {
  bb_commitment : Z;
  bb_asset_id : Z;
  bb_owner : authority
}.

(** ** Reserved names and budget records *)

(** [reserved_names_object.hpp]. *)
Record reserved_names_object := mkReservedNames {
  rn_names : gset string;
  rn_pending_names_to_add : gset string;
  rn_pending_names_to_delete : gset string
}.

(** [budget_record_object.hpp]. *)
Record budget_record := mkBudget {
  br_time_since_last_budget : Z;
  br_from_initial_reserve : Z;
  br_from_accumulated_fees : Z;
  br_from_unused_witness_budget : Z;
  br_requested_witness_budget : Z;
  br_total_budget : Z;
  br_witness_budget : Z;
  br_worker_budget : Z;
  br_leftover_worker_funds : Z;
  br_supply_delta : Z
}.
