(* ===== verification/Database.v ===== *)
(** * The chain database

    Object tables ([db/generic_index.hpp]), the database record, the getters
    of [db_getter.cpp], the white- and blacklist test of
    [is_authorized_asset.cpp], and the accounting measure the conservation
    theorems are stated with (the sums of the test suite's
    [verify_asset_supplies]). *)

From stdpp Require Import gmap strings.
From Stdlib Require Import ZArith Lia.
From S2P Require Import Prelude Fc Config Asset VestingBalance Objects.

Local Open Scope Z_scope.

(** ** Object tables

    A [generic_index] is a multi-index container with the object id as its
    first, unique key.  [clash] says when two objects collide in a further
    unique index; tables without one use [no_clash]. *)

Record table (V : Type) := mkTable { objs : gmap Z V; next_id : Z }.
Arguments mkTable {V} _ _.
Arguments objs {V} _.
Arguments next_id {V} _.

Section index.
Context {V : Type} (clash : V → V → bool).

Definition clashes (m : gmap Z V) (v : V) : bool :=
  existsb (λ kv, clash v kv.2) (map_to_list m).

Definition index_get (t : table V) (id : Z) : result V :=
  of_option unknown_object (objs t !! id).

(** [create]: the object gets the next id; a uniqueness violation throws. *)
Definition index_create (t : table V) (v : V) : result (Z * table V) :=
  FC_ASSERT (bool_decide (objs t !! next_id t = None) && negb (clashes (objs t) v)) ;;
  Ok (next_id t, mkTable (<[next_id t := v]> (objs t)) (next_id t + 1)).

(** [modify]: the changed object must not collide with another one. *)
Definition index_modify (t : table V) (id : Z) (f : V → result V) : result (table V) :=
  let* v := index_get t id in
  let* v' := f v in
  FC_ASSERT (negb (clashes (delete id (objs t)) v')) ;;
  Ok (mkTable (<[id := v']> (objs t)) (next_id t)).

Definition index_remove (t : table V) (id : Z) : result (table V) :=
  let* _ := index_get t id in
  Ok (mkTable (delete id (objs t)) (next_id t)).

Lemma index_create_ok t v id t' :
  index_create t v = Ok (id, t') →
  id = next_id t ∧ objs t !! id = None ∧ clashes (objs t) v = false ∧
  t' = mkTable (<[id := v]> (objs t)) (next_id t + 1).
Proof. unfold index_create. intros H. ok_inv. done. Qed.

Lemma index_modify_ok t id f t' :
  index_modify t id f = Ok t' →
  ∃ v v', objs t !! id = Some v ∧ f v = Ok v' ∧
    clashes (delete id (objs t)) v' = false ∧
    t' = mkTable (<[id := v']> (objs t)) (next_id t).
Proof. unfold index_modify, index_get. intros H. ok_inv. eauto 10. Qed.

Lemma index_remove_ok t id t' :
  index_remove t id = Ok t' →
  is_Some (objs t !! id) ∧ t' = mkTable (delete id (objs t)) (next_id t).
Proof. unfold index_remove, index_get. intros H. ok_inv. eauto. Qed.

Lemma clashes_false m v :
  clashes m v = false → ∀ k w, m !! k = Some w → clash v w = false.
Proof.
  unfold clashes. intros H k w Hk.
  destruct (clash v w) eqn:E; [|done]. rewrite <- H. symmetry. apply existsb_exists.
  exists (k, w). split; [|done]. by apply list_elem_of_In, elem_of_map_to_list.
Qed.

(** The ids in use lie below the next one, so [create] never reuses an id. *)
Definition table_wf (t : table V) : Prop := ∀ id v, objs t !! id = Some v → id < next_id t.

Lemma index_create_wf t v id t' : table_wf t → index_create t v = Ok (id, t') → table_wf t'.
Proof.
  intros Hwf (-> & _ & _ & ->)%index_create_ok i w; simpl.
  rewrite lookup_insert_Some. intros [[<- <-]|[_ Hi]]; [lia|]. apply Hwf in Hi. lia.
Qed.
End index.

Definition no_clash {V} (_ _ : V) : bool := false.

Lemma clashes_none {V} (m : gmap Z V) v : clashes no_clash m v = false.
Proof. unfold clashes. induction (map_to_list m); simpl; auto. Qed.

(** ** The database *)

(** Tables of the elected objects, of recurring payments and of the objects
    left from genesis; the least numbers of witnesses and committee members
    ([immutable_chain_parameters.hpp]); the next ids of two indexes. *)
Record governance := mkGov {
  gv_committee_members : table committee_member_object;
  gv_workers : table worker_object;
  gv_withdraw_permissions : table withdraw_permission_object;
  gv_special_authorities : table Z;             (* the account *)
  gv_buybacks : table Z;                        (* the asset to buy *)
  gv_budget_records : table (Z * budget_record);
  gv_reserved_names : reserved_names_object;
  gv_blinded_balances : table blinded_balance_object;
  gv_min_committee_member_count : Z;
  gv_min_witness_count : Z;
  gv_next_statistics : Z;
  gv_next_witness : Z
}.

Definition governance_eta (g : governance) : governance :=
  mkGov (gv_committee_members g) (gv_workers g) (gv_withdraw_permissions g)
    (gv_special_authorities g) (gv_buybacks g) (gv_budget_records g) (gv_reserved_names g)
    (gv_blinded_balances g) (gv_min_committee_member_count g) (gv_min_witness_count g)
    (gv_next_statistics g) (gv_next_witness g).

Record database := mkDb {
  db_accounts : table account_object;
  db_statistics : gmap Z account_statistics_object;
  db_balances : gmap (Z * Z) Z;                 (* by_account_asset index *)
  db_vesting : table vesting_balance_object;
  db_assets : gmap Z asset_object;
  db_asset_dyn : gmap Z asset_dynamic_data_object;
  db_escrows : table escrow_object;
  db_listings : table listing_object;
  db_exchanges : table exchange_object;
  db_witnesses : gmap Z witness_object;
  db_fbas : gmap Z fba_accumulator_object;
  db_gpo : global_property_object;
  db_dgpo : dynamic_global_property_object;
  db_initial_timestamp : Z;
  db_shuffled_witnesses : list Z;
  db_limit_orders : table limit_order_object;
  db_call_orders : table call_order_object;
  db_settlements : table force_settlement_object;
  db_bids : table collateral_bid_object;
  db_bitassets : gmap Z asset_bitasset_data_object;
  db_next_asset : Z;                            (* next ids of three indexes *)
  db_next_asset_dyn : Z;
  db_next_bitasset : Z;
  db_genesis_balances : table balance_object;
  db_governance : governance
}.

Definition db_eta (d : database) : database :=
  mkDb (db_accounts d) (db_statistics d) (db_balances d) (db_vesting d) (db_assets d)
    (db_asset_dyn d) (db_escrows d) (db_listings d) (db_exchanges d) (db_witnesses d)
    (db_fbas d) (db_gpo d) (db_dgpo d) (db_initial_timestamp d) (db_shuffled_witnesses d)
    (db_limit_orders d) (db_call_orders d) (db_settlements d) (db_bids d) (db_bitassets d)
    (db_next_asset d) (db_next_asset_dyn d) (db_next_bitasset d) (db_genesis_balances d)
    (db_governance d).

Definition set_accounts : (table account_object → _) → database → database :=
  ltac:(field_setter db_eta db_accounts).
Definition set_statistics : (gmap Z account_statistics_object → _) → database → database :=
  ltac:(field_setter db_eta db_statistics).
Definition set_balances : (gmap (Z * Z) Z → _) → database → database :=
  ltac:(field_setter db_eta db_balances).
Definition set_vesting : (table vesting_balance_object → _) → database → database :=
  ltac:(field_setter db_eta db_vesting).
Definition set_asset_dyn : (gmap Z asset_dynamic_data_object → _) → database → database :=
  ltac:(field_setter db_eta db_asset_dyn).
Definition set_escrows : (table escrow_object → _) → database → database :=
  ltac:(field_setter db_eta db_escrows).
Definition set_listings : (table listing_object → _) → database → database :=
  ltac:(field_setter db_eta db_listings).
Definition set_exchanges : (table exchange_object → _) → database → database :=
  ltac:(field_setter db_eta db_exchanges).
Definition set_witnesses : (gmap Z witness_object → _) → database → database :=
  ltac:(field_setter db_eta db_witnesses).
Definition set_fbas : (gmap Z fba_accumulator_object → _) → database → database :=
  ltac:(field_setter db_eta db_fbas).
Definition set_dgpo : (dynamic_global_property_object → _) → database → database :=
  ltac:(field_setter db_eta db_dgpo).
Definition set_shuffled_witnesses : (list Z → _) → database → database :=
  ltac:(field_setter db_eta db_shuffled_witnesses).
Definition set_assets : (gmap Z asset_object → _) → database → database :=
  ltac:(field_setter db_eta db_assets).
Definition set_limit_orders : (table limit_order_object → _) → database → database :=
  ltac:(field_setter db_eta db_limit_orders).
Definition set_call_orders : (table call_order_object → _) → database → database :=
  ltac:(field_setter db_eta db_call_orders).
Definition set_settlements : (table force_settlement_object → _) → database → database :=
  ltac:(field_setter db_eta db_settlements).
Definition set_bids : (table collateral_bid_object → _) → database → database :=
  ltac:(field_setter db_eta db_bids).
Definition set_bitassets : (gmap Z asset_bitasset_data_object → _) → database → database :=
  ltac:(field_setter db_eta db_bitassets).

Definition set_next_asset : (Z → Z) → database → database := ltac:(field_setter db_eta db_next_asset).
Definition set_next_asset_dyn : (Z → Z) → database → database :=
  ltac:(field_setter db_eta db_next_asset_dyn).
Definition set_next_bitasset : (Z → Z) → database → database :=
  ltac:(field_setter db_eta db_next_bitasset).
Definition set_gpo : (global_property_object → _) → database → database :=
  ltac:(field_setter db_eta db_gpo).
Definition set_genesis_balances : (table balance_object → _) → database → database :=
  ltac:(field_setter db_eta db_genesis_balances).
Definition set_governance : (governance → governance) → database → database :=
  ltac:(field_setter db_eta db_governance).

(** The tables of [governance]. *)
Definition db_committee_members (d : database) := gv_committee_members (db_governance d).
Definition db_workers (d : database) := gv_workers (db_governance d).
Definition db_withdraw_permissions (d : database) := gv_withdraw_permissions (db_governance d).
Definition db_special_authorities (d : database) := gv_special_authorities (db_governance d).
Definition db_buybacks (d : database) := gv_buybacks (db_governance d).
Definition reserved_names (d : database) := gv_reserved_names (db_governance d).
Definition set_committee_members (f : table committee_member_object → _) : database → database :=
  set_governance (ltac:(field_setter governance_eta gv_committee_members) f).
Definition set_workers (f : table worker_object → _) : database → database :=
  set_governance (ltac:(field_setter governance_eta gv_workers) f).
Definition set_withdraw_permissions (f : table withdraw_permission_object → _) : database → database :=
  set_governance (ltac:(field_setter governance_eta gv_withdraw_permissions) f).
Definition set_special_authorities (f : table Z → _) : database → database :=
  set_governance (ltac:(field_setter governance_eta gv_special_authorities) f).
Definition set_buybacks (f : table Z → _) : database → database :=
  set_governance (ltac:(field_setter governance_eta gv_buybacks) f).
Definition set_budget_records (f : table (Z * budget_record) → _) : database → database :=
  set_governance (ltac:(field_setter governance_eta gv_budget_records) f).
Definition set_reserved_names (f : reserved_names_object → _) : database → database :=
  set_governance (ltac:(field_setter governance_eta gv_reserved_names) f).
Definition set_blinded_balances (f : table blinded_balance_object → _) : database → database :=
  set_governance (ltac:(field_setter governance_eta gv_blinded_balances) f).
Definition set_next_statistics (f : Z → Z) : database → database :=
  set_governance (ltac:(field_setter governance_eta gv_next_statistics) f).
Definition set_next_witness (f : Z → Z) : database → database :=
  set_governance (ltac:(field_setter governance_eta gv_next_witness) f).

(** ** Getters *)

Definition get_account (d : database) (id : Z) : result account_object :=
  index_get (db_accounts d) id.
Definition get_statistics (d : database) (id : Z) : result account_statistics_object :=
  of_option unknown_object (db_statistics d !! id).
Definition get_asset_object (d : database) (id : Z) : result asset_object :=
  of_option unknown_object (db_assets d !! id).
Definition get_asset_dyn (d : database) (id : Z) : result asset_dynamic_data_object :=
  of_option unknown_object (db_asset_dyn d !! id).
Definition get_witness (d : database) (id : Z) : result witness_object :=
  of_option unknown_object (db_witnesses d !! id).

Definition parameters (d : database) : chain_parameters := gp_parameters (db_gpo d).
Definition head_block_time (d : database) : Z := dg_time (db_dgpo d).
Definition head_block_num (d : database) : Z := dg_head_block_number (db_dgpo d).
Definition block_interval (d : database) : Z := cp_block_interval (parameters d).
Definition get_core_asset (d : database) : result asset_object := get_asset_object d core_id.

(** Hardfork times ([hardfork.d]). *)
Definition HARDFORK_385_TIME : Z := 1445558400.
Definition HARDFORK_409_TIME : Z := 1446652800.
Definition HARDFORK_413_TIME : Z := 1446652800.
Definition HARDFORK_480_TIME : Z := 1450378800.
Definition HARDFORK_572_TIME : Z := 1456250400.
Definition HARDFORK_CORE_429_TIME : Z := 1512747600.
Definition HARDFORK_415_TIME : Z := 1446652800.
Definition HARDFORK_419_TIME : Z := 1446652800.
Definition HARDFORK_436_TIME : Z := 1450288800.
Definition HARDFORK_445_TIME : Z := 1450288800.
Definition HARDFORK_555_TIME : Z := 1456250400.
Definition HARDFORK_CORE_216_TIME : Z := 1512747600.
Definition HARDFORK_23_TIME : Z := 1512747600.
Definition HARDFORK_453_TIME : Z := 1450288800.
Definition HARDFORK_516_TIME : Z := 1456250400.
Definition HARDFORK_533_TIME : Z := 1456250400.
Definition HARDFORK_538_TIME : Z := 1456250400.
Definition HARDFORK_563_TIME : Z := 1456250400.
Definition HARDFORK_599_TIME : Z := 1459789200.
Definition HARDFORK_607_TIME : Z := 1458752400.
Definition HARDFORK_615_TIME : Z := 1458752400.
Definition HARDFORK_CORE_143_TIME : Z := 1512747600.
Definition HARDFORK_OM_702_TIME : Z := 1548201600.
Definition HARDFORK_OM_713_TIME : Z := 1548201600.
Definition HARDFORK_OM_774_2_TIME : Z := 1574035200.
Definition HARDFORK_OM_749_TIME : Z := 1558310400.
Definition HARDFORK_OM_774_TIME : Z := 1558310400.
Definition HARDFORK_OM_786_TIME : Z := 1564617600.

Definition get_founder_account (d : database) : Z :=
  if head_block_time d <? HARDFORK_OM_786_TIME
  then OMNIBAZAAR_FOUNDER_ACCOUNT else OMNIBAZAAR_FOUNDER_ACCOUNT2.

(** ** Modification of single objects *)

Definition modify_account (d : database) (id : Z) (f : account_object → account_object)
    : result database :=
  let* a := get_account d id in
  Ok (set_accounts (λ t, mkTable (<[id := f a]> (objs t)) (next_id t)) d).

Definition modify_statistics (d : database) (id : Z)
    (f : account_statistics_object → result account_statistics_object) : result database :=
  let* s := get_statistics d id in
  let* s' := f s in
  Ok (set_statistics (<[id := s']>) d).

Definition modify_asset_dyn (d : database) (id : Z)
    (f : asset_dynamic_data_object → result asset_dynamic_data_object) : result database :=
  let* s := get_asset_dyn d id in
  let* s' := f s in
  Ok (set_asset_dyn (<[id := s']>) d).

Definition modify_witness (d : database) (id : Z) (f : witness_object → witness_object)
    : result database :=
  let* w := get_witness d id in
  Ok (set_witnesses (<[id := f w]>) d).

Definition modify_dgpo (d : database)
    (f : dynamic_global_property_object → result dynamic_global_property_object)
    : result database :=
  let* g := f (db_dgpo d) in
  Ok (set_dgpo (λ _, g) d).

(** Listings have a unique hash ([listing_object.hpp], index [by_hash]). *)
Definition listing_clash (a b : listing_object) : bool := lo_listing_hash a =? lo_listing_hash b.

Definition modify_listing (d : database) (id : Z) (f : listing_object → result listing_object)
    : result database :=
  let* t := index_modify listing_clash (db_listings d) id f in
  Ok (set_listings (λ _, t) d).

Lemma modify_listing_ok d id f d' :
  modify_listing d id f = Ok d' →
  ∃ l l', objs (db_listings d) !! id = Some l ∧ f l = Ok l' ∧
    (∀ j m, j ≠ id → objs (db_listings d) !! j = Some m → lo_listing_hash m ≠ lo_listing_hash l') ∧
    d' = set_listings (λ t, mkTable (<[id := l']> (objs t)) (next_id t)) d.
Proof.
  unfold modify_listing. intros H. apply rbind_ok in H as (t & Ht & [= <-]).
  apply index_modify_ok in Ht as (l & l' & Hl & Hf & Hc & ->). exists l, l'.
  split_and!; [done..| |done]. intros j m Hj Hm Heq.
  assert (listing_clash l' m = false) as E.
  { eapply clashes_false; [exact Hc|]. by rewrite lookup_delete_ne by done. }
  unfold listing_clash in E. rewrite Heq, Z.eqb_refl in E. done.
Qed.

(** ** White- and blacklists ([is_authorized_asset]) *)

Definition is_authorized_asset_slow (d : database) (acct : account_object)
    (aid : Z) (a : asset_object) : bool :=
  if match ao_allowed_assets acct with
     | Some s => bool_decide (aid ∉ s)
     | None => false
     end then false
  else if bool_decide (ao_blacklisting_accounts acct ∩ as_blacklist_authorities a ≠ ∅) then false
  else if (HARDFORK_415_TIME <? head_block_time d)
          && bool_decide (as_whitelist_authorities a = ∅) then true
  else bool_decide (ao_whitelisting_accounts acct ∩ as_whitelist_authorities a ≠ ∅).

Definition is_authorized_asset (d : database) (acct : account_object)
    (aid : Z) (a : asset_object) : bool :=
  let fast_check := (Z.land (as_flags a) white_list =? 0)
                    && bool_decide (ao_allowed_assets acct = None) in
  if fast_check then true else is_authorized_asset_slow d acct aid a.

(** ** Accounting

    [held aid d] is the amount of asset [aid] that exists somewhere in the
    database: in account balances, vesting balances, open escrows that lock
    the funds in the chain, orders of the market, unclaimed genesis balances, and, for the core asset, in undistributed fees,
    fee pools, fee-backed asset accumulators and the witness budget; plus the
    asset's own accumulated fees and confidential supply. *)

Definition held_balances (aid : Z) (m : gmap (Z * Z) Z) : Z :=
  msum (λ k v, if k.2 =? aid then v else 0) m.
Definition amount_of (aid : Z) (a : asset) : Z :=
  if asset_id a =? aid then amount a else 0.
Definition held_vesting (aid : Z) (m : gmap Z vesting_balance_object) : Z :=
  msum (λ _ v, amount_of aid (vb_balance v)) m.
Definition escrow_locked (aid : Z) (e : escrow_object) : Z :=
  if eo_transfer_to_escrow e then 0 else amount_of aid (eo_amount e).
Definition held_escrows (aid : Z) (m : gmap Z escrow_object) : Z :=
  msum (λ _, escrow_locked aid) m.
Definition held_genesis (aid : Z) (m : gmap Z balance_object) : Z :=
  msum (λ _ b, amount_of aid (bo_balance b)) m.
Definition held_fees (m : gmap Z account_statistics_object) : Z :=
  msum (λ _ s, st_pending_fees s + st_pending_vested_fees s) m.
Definition held_pools (m : gmap Z asset_dynamic_data_object) : Z :=
  msum (λ _ s, dd_fee_pool s) m.
Definition held_fbas (m : gmap Z fba_accumulator_object) : Z :=
  msum (λ _ s, fba_accumulated_fba_fees s) m.

(** Open orders, with the fee a limit order still has to pay, collateral,
    pending settlements, bids and settlement funds. *)
Definition limit_locked (aid : Z) (o : limit_order_object) : Z :=
  amount_of aid (amount_for_sale o) + amount_of aid (core_asset (lim_deferred_fee o)).
Definition call_locked (aid : Z) (o : call_order_object) : Z := amount_of aid (get_collateral o).
Definition settlement_locked (aid : Z) (o : force_settlement_object) : Z :=
  amount_of aid (fs_balance o).
Definition bid_locked (aid : Z) (o : collateral_bid_object) : Z :=
  amount_of aid (base (bid_inv_swan_price o)).
Definition fund_locked (aid : Z) (b : asset_bitasset_data_object) : Z :=
  amount_of aid (mkAsset (bd_settlement_fund b) (backing b)).
Definition held_market (aid : Z) (d : database) : Z :=
  msum (λ _, limit_locked aid) (objs (db_limit_orders d))
  + msum (λ _, call_locked aid) (objs (db_call_orders d))
  + msum (λ _, settlement_locked aid) (objs (db_settlements d))
  + msum (λ _, bid_locked aid) (objs (db_bids d))
  + msum (λ _, fund_locked aid) (db_bitassets d).

Definition dyn_of (aid : Z) (assets : gmap Z asset_object)
    (dyn : gmap Z asset_dynamic_data_object) : option asset_dynamic_data_object :=
  a ← assets !! aid; dyn !! as_dynamic_asset_data_id a.
Definition issuer_held (aid : Z) assets dyn : Z :=
  from_option (λ s, dd_accumulated_fees s + dd_confidential_supply s) 0 (dyn_of aid assets dyn).
Definition current_supply (aid : Z) (d : database) : Z :=
  from_option dd_current_supply 0 (dyn_of aid (db_assets d) (db_asset_dyn d)).

Definition held (aid : Z) (d : database) : Z :=
  held_balances aid (db_balances d) + held_vesting aid (objs (db_vesting d))
  + held_escrows aid (objs (db_escrows d)) + held_market aid d
  + held_genesis aid (objs (db_genesis_balances d))
  + issuer_held aid (db_assets d) (db_asset_dyn d)
  + (if aid =? core_id
     then held_fees (db_statistics d) + held_pools (db_asset_dyn d) + held_fbas (db_fbas d)
          + dg_witness_budget (db_dgpo d)
     else 0).

(** Zero on a consistent database: everything held was issued. *)
Definition imbalance (aid : Z) (d : database) : Z := held aid d - current_supply aid d.

(** Assets have their own dynamic data, the core asset that with id 0; an
    asset without a settlement price (in no currency but the core one) has no
    settlement fund. *)
Definition assets_wf (d : database) : Prop :=
  (∀ i j a b, db_assets d !! i = Some a → db_assets d !! j = Some b →
     as_dynamic_asset_data_id a = as_dynamic_asset_data_id b → i = j) ∧
  (∃ a, db_assets d !! core_id = Some a ∧ as_dynamic_asset_data_id a = 0) ∧
  is_Some (db_asset_dyn d !! 0) ∧
  (∀ i b, db_bitassets d !! i = Some b →
     asset_id (base (bd_settlement_price b)) = core_id →
     asset_id (quote (bd_settlement_price b)) = core_id → bd_settlement_fund b = 0).

(** ** How each table write moves the measure *)

Lemma amount_of_add aid i x y : amount_of aid (mkAsset (x + y) i) =
  amount_of aid (mkAsset x i) + amount_of aid (mkAsset y i).
Proof. unfold amount_of; simpl. case_match; lia. Qed.

Lemma amount_of_sub aid i x y : amount_of aid (mkAsset (x - y) i) =
  amount_of aid (mkAsset x i) - amount_of aid (mkAsset y i).
Proof. unfold amount_of; simpl. case_match; lia. Qed.

Lemma amount_of_neg aid i x : amount_of aid (mkAsset (- x) i) = - amount_of aid (mkAsset x i).
Proof. unfold amount_of; simpl. case_match; lia. Qed.

Lemma amount_of_core aid x : amount_of aid (core_asset x) = if aid =? core_id then x else 0.
Proof. unfold amount_of; cbn [asset_id core_asset amount]. by rewrite Z.eqb_sym. Qed.

Lemma imbalance_set_accounts aid f d : imbalance aid (set_accounts f d) = imbalance aid d.
Proof. done. Qed.

Lemma imbalance_set_listings aid f d : imbalance aid (set_listings f d) = imbalance aid d.
Proof. done. Qed.

Lemma imbalance_set_exchanges aid f d : imbalance aid (set_exchanges f d) = imbalance aid d.
Proof. done. Qed.

Lemma imbalance_set_witnesses aid f d : imbalance aid (set_witnesses f d) = imbalance aid d.
Proof. done. Qed.

Lemma imbalance_set_governance aid f d : imbalance aid (set_governance f d) = imbalance aid d.
Proof. done. Qed.

Lemma imbalance_set_gpo aid f d : imbalance aid (set_gpo f d) = imbalance aid d.
Proof. done. Qed.

Lemma imbalance_set_genesis_balances aid d f :
  imbalance aid (set_genesis_balances f d) = imbalance aid d
  + held_genesis aid (objs (f (db_genesis_balances d)))
  - held_genesis aid (objs (db_genesis_balances d)).
Proof. unfold imbalance, held, held_market, current_supply; simpl. lia. Qed.

(** Market tables. *)
Lemma imbalance_set_limit_orders aid d f :
  imbalance aid (set_limit_orders f d) = imbalance aid d
  + msum (λ _, limit_locked aid) (objs (f (db_limit_orders d)))
  - msum (λ _, limit_locked aid) (objs (db_limit_orders d)).
Proof. unfold imbalance, held, held_market, current_supply; simpl. lia. Qed.

Lemma imbalance_set_call_orders aid d f :
  imbalance aid (set_call_orders f d) = imbalance aid d
  + msum (λ _, call_locked aid) (objs (f (db_call_orders d)))
  - msum (λ _, call_locked aid) (objs (db_call_orders d)).
Proof. unfold imbalance, held, held_market, current_supply; simpl. lia. Qed.

Lemma imbalance_set_settlements aid d f :
  imbalance aid (set_settlements f d) = imbalance aid d
  + msum (λ _, settlement_locked aid) (objs (f (db_settlements d)))
  - msum (λ _, settlement_locked aid) (objs (db_settlements d)).
Proof. unfold imbalance, held, held_market, current_supply; simpl. lia. Qed.

Lemma imbalance_set_bids aid d f :
  imbalance aid (set_bids f d) = imbalance aid d
  + msum (λ _, bid_locked aid) (objs (f (db_bids d)))
  - msum (λ _, bid_locked aid) (objs (db_bids d)).
Proof. unfold imbalance, held, held_market, current_supply; simpl. lia. Qed.

Lemma imbalance_set_bitassets aid d f :
  imbalance aid (set_bitassets f d) = imbalance aid d
  + msum (λ _, fund_locked aid) (f (db_bitassets d))
  - msum (λ _, fund_locked aid) (db_bitassets d).
Proof. unfold imbalance, held, held_market, current_supply; simpl. lia. Qed.

Lemma imbalance_set_balance aid d k v :
  imbalance aid (set_balances (<[k := v]>) d) =
  imbalance aid d + (if k.2 =? aid then v - default 0 (db_balances d !! k) else 0).
Proof.
  unfold imbalance, held, held_market, held_balances, current_supply; simpl. rewrite msum_insert.
  destruct (db_balances d !! k); simpl; case_match; lia.
Qed.

Lemma imbalance_set_vesting aid d id v n :
  imbalance aid (set_vesting (λ t, mkTable (<[id := v]> (objs t)) n) d) =
  imbalance aid d + amount_of aid (vb_balance v)
  - from_option (λ w, amount_of aid (vb_balance w)) 0 (objs (db_vesting d) !! id).
Proof.
  unfold imbalance, held, held_market, held_vesting, current_supply; simpl. rewrite msum_insert. lia.
Qed.

Lemma imbalance_insert_escrow aid d id e n :
  imbalance aid (set_escrows (λ t, mkTable (<[id := e]> (objs t)) n) d) =
  imbalance aid d + escrow_locked aid e
  - from_option (escrow_locked aid) 0 (objs (db_escrows d) !! id).
Proof.
  unfold imbalance, held, held_market, held_escrows, current_supply; simpl. rewrite msum_insert. lia.
Qed.

Lemma imbalance_delete_escrow aid d id n :
  imbalance aid (set_escrows (λ t, mkTable (delete id (objs t)) n) d) =
  imbalance aid d - from_option (escrow_locked aid) 0 (objs (db_escrows d) !! id).
Proof.
  unfold imbalance, held, held_market, held_escrows, current_supply; simpl. rewrite msum_delete_opt. lia.
Qed.

Lemma imbalance_set_statistics aid d id s s' :
  db_statistics d !! id = Some s →
  imbalance aid (set_statistics (<[id := s']>) d) =
  imbalance aid d + amount_of aid (core_asset
    (st_pending_fees s' + st_pending_vested_fees s'
     - st_pending_fees s - st_pending_vested_fees s)).
Proof.
  intros Hs. rewrite amount_of_core. unfold imbalance, held, held_market, held_fees, current_supply; simpl.
  rewrite msum_insert, Hs; simpl. destruct (aid =? core_id); lia.
Qed.

Lemma imbalance_set_dgpo aid d g :
  imbalance aid (set_dgpo (λ _, g) d) =
  imbalance aid d + amount_of aid (core_asset
    (dg_witness_budget g - dg_witness_budget (db_dgpo d))).
Proof.
  rewrite amount_of_core. unfold imbalance, held, held_market, current_supply; simpl.
  destruct (aid =? core_id); lia.
Qed.

(** Writing the dynamic data of asset [i]. *)
Lemma imbalance_set_asset_dyn aid d i a s s' :
  assets_wf d → db_assets d !! i = Some a →
  db_asset_dyn d !! as_dynamic_asset_data_id a = Some s →
  imbalance aid (set_asset_dyn (<[as_dynamic_asset_data_id a := s']>) d) =
  imbalance aid d
  + amount_of aid (mkAsset (dd_accumulated_fees s' + dd_confidential_supply s' - dd_current_supply s'
      - (dd_accumulated_fees s + dd_confidential_supply s - dd_current_supply s)) i)
  + amount_of aid (core_asset (dd_fee_pool s' - dd_fee_pool s)).
Proof.
  intros (Hinj & _) Ha Hs.
  assert (∀ dyn f, (∀ x, dyn !! x = <[as_dynamic_asset_data_id a := s']> (db_asset_dyn d) !! x) →
    from_option f 0 (dyn_of aid (db_assets d) dyn) =
    from_option f 0 (dyn_of aid (db_assets d) (db_asset_dyn d))
    + (if i =? aid then f s' - f s else 0)) as Hdyn.
  { intros dyn f Hx. unfold dyn_of. destruct (Z.eqb_spec i aid) as [->|Hne].
    - rewrite Ha; simpl. rewrite Hx, lookup_insert_eq, Hs. simpl. lia.
    - destruct (db_assets d !! aid) as [b|] eqn:Hb; simpl; [|lia].
      rewrite Hx, lookup_insert_ne by (intros ?; apply Hne; eauto). lia. }
  rewrite amount_of_core.
  unfold imbalance, held, held_market, current_supply, issuer_held, held_pools, amount_of; simpl.
  rewrite !(Hdyn _ _ (λ _, eq_refl)). rewrite msum_insert, Hs; simpl.
  destruct (i =? aid), (aid =? core_id); simpl; lia.
Qed.
