(* ===== verification/Sample.v ===== *)
(** * A small concrete database

    The concrete states on which the examples of the development run: a core
    asset and one user asset, a few accounts with balances, an open escrow,
    a listing and a witness. *)

From stdpp Require Import gmap strings.
From Stdlib Require Import ZArith Lia.
From S2P Require Import Prelude Fc Config Asset VestingBalance Objects Database.

Local Open Scope Z_scope.

Definition sample_account (name : string) (id : Z) : account_object :=
  default_account name id.

Definition alice : Z := 20.
Definition bob : Z := 21.
Definition carol : Z := 22.

Definition agent_of (a : account_object) : account_object :=
  set_account_escrows (λ _, {[ 22 ]}) (set_is_an_escrow (λ _, true) (set_is_a_publisher (λ _, true) a)).

Definition sample_accounts : table account_object :=
  mkTable (list_to_map
    [(0, sample_account "committee-account" 0);
     (6, sample_account "omnibazaar-founder" 6);
     (8, sample_account "omnibazaar-exchange" 8);
     (alice, agent_of (sample_account "alice" alice));
     (bob, agent_of (sample_account "bob" bob));
     (carol, agent_of (sample_account "carol" carol))]) 10600.

Definition sample_stats : gmap Z account_statistics_object :=
  list_to_map
    [(0, default_stats 0); (6, default_stats 6); (8, default_stats 8);
     (alice, mkStats alice 0 500 20 ∅ ∅ 0); (bob, default_stats bob); (carol, default_stats carol)].

Definition sample_params : chain_parameters :=
  mkParams 10 86400 3 2000 2000 31536000 10000000 100000 86400 2592000 2592000 10 1000 None None
    1209600 2048 2000000 86400 2419200 10 10 10 false 50000000000 1 10000000 1000 4 2 10000 11
    500000 (mkPopWeights 2000 2000 2000 2000 1000 1000) false.

Definition sample_governance : governance :=
  mkGov (mkTable ∅ 0) (mkTable ∅ 0) (mkTable ∅ 0) (mkTable ∅ 0) (mkTable ∅ 0) (mkTable ∅ 0)
    (mkReservedNames ∅ ∅ ∅) (mkTable ∅ 0) 11 11 10600 1.

Definition sample_dgpo : dynamic_global_property_object :=
  mkDgpo 100 1570000000 0 1000 0 100 (2 ^ 128 - 1) 0 90 0 0 0 0 0
    1570003600 1569999900 0.

Definition sample_escrow : escrow_object :=
  mkEscrow 1570002000 alice bob carol (core_asset 5000) false None None no_ob_fee.

Definition sample_db : database :=
  mkDb sample_accounts sample_stats
    (list_to_map [((alice, 0), 1000000); ((bob, 0), 2000); ((alice, 1), 600)])
    (mkTable ∅ 0)
    (list_to_map
      [(0, mkAssetObject 3 0 0 ∅ ∅ (unit_price 0) 0 None None
             "OMNIBAZAAR" 5 GRAPHENE_MAX_SHARE_SUPPLY 0 0 ∅ ∅);
       (1, mkAssetObject bob 12 12 ∅ ∅ (mkPrice (mkAsset 3 1) (mkAsset 7 0)) 1 None None
             "BOBCOIN" 2 1000000 0 0 ∅ ∅)])
    (list_to_map [(0, mkDynData 1018520 0 0 0); (1, mkDynData 600 0 0 10000)])
    (mkTable {[ 0 := sample_escrow ]} 1)
    (mkTable {[ 0 := mkListing bob carol (core_asset 100) 77 40 1572000000 0 0 ∅ 100 0 0 ]} 1)
    (mkTable ∅ 0)
    {[ 0 := mkWitness alice 0 None 1 0 90 5 77 0 "" ]}
    ∅ (mkGpo sample_params {[ 0 ]} 8 [] None) sample_dgpo 1500000000 [0]
    (mkTable ∅ 0) (mkTable ∅ 0) (mkTable ∅ 0) (mkTable ∅ 0) ∅ 2 2 0 (mkTable ∅ 0) sample_governance.

(** Its books are balanced. *)
Lemma sample_db_wf : assets_wf sample_db.
Proof.
  split_and!.
  - intros i j a b Ha Hb. unfold sample_db in *; simpl in *.
    rewrite !lookup_insert_Some, lookup_empty in Ha, Hb.
    destruct Ha as [[<- <-]|[_ [[<- <-]|[_ Ha]]]], Hb as [[<- <-]|[_ [[<- <-]|[_ Hb]]]];
      simpl; try done.
  - eexists. split; [reflexivity|done].
  - eexists. reflexivity.
  - intros i b H. simpl in H. by rewrite lookup_empty in H.
Qed.

Lemma sample_db_balanced : imbalance 0 sample_db = 0 ∧ imbalance 1 sample_db = 0.
Proof. split; vm_compute; reflexivity. Qed.
