(* ===== verification/Balances.v ===== *)
(** * Account balances and lazy vesting deposits ([db_balance.cpp])

    [get_balance], [adjust_balance], [deposit_lazy_vesting],
    [deposit_cashback] and [deposit_witness_pay] on the database record, and
    the relation [moves] in which the effect of every operation on the
    accounting measure is stated. *)

From stdpp Require Import gmap.
From Stdlib Require Import ZArith Lia.
From S2P Require Import Prelude Fc Config Asset VestingBalance Objects Database Sample.

Local Open Scope Z_scope.

Section operations.
Context {FC : FcArith}.

Definition get_balance (d : database) (owner aid : Z) : asset :=
  match db_balances d !! (owner, aid) with
  | None => mkAsset 0 aid
  | Some b => mkAsset b aid
  end.

Definition adjust_balance (d : database) (account : Z) (delta : asset) : result database :=
  if amount delta =? 0 then Ok d
  else
    match db_balances d !! (account, asset_id delta) with
    | None =>
        FC_ASSERT (0 <? amount delta) ;;
        Ok (set_balances (<[(account, asset_id delta) := amount delta]>) d)
    | Some b =>
        let* covered :=
          if amount delta <? 0
          then let* n := asset_neg delta in asset_geb (mkAsset b (asset_id delta)) n
          else Ok true in
        FC_ASSERT covered ;;
        let* b' := safe_add b (amount delta) in
        Ok (set_balances (<[(account, asset_id delta) := b']>) d)
    end.

(** The balance an existing vesting balance must match to take the deposit:
    right owner, coin-days policy with the required period, right type. *)
Definition lazy_target (vbo : vesting_balance_object) (req_vesting_seconds req_owner : Z)
    (btype : balance_type) : bool :=
  (vb_owner vbo =? req_owner)
  && match vb_policy vbo with
     | cdd_policy p => vesting_seconds p =? req_vesting_seconds
     | linear_policy _ => false
     end
  && bool_decide (vb_type vbo = btype).

Definition deposit_lazy_vesting (d : database) (ovbid : option Z) (amt : Z)
    (req_vesting_seconds req_owner : Z) (require_vesting : bool) (btype : balance_type)
    : result (option Z * database) :=
  if amt =? 0 then Ok (None, d)
  else
    let now := head_block_time d in
    let* reuse :=
      match ovbid with
      | None => Ok None
      | Some vbid =>
          let* vbo := index_get (db_vesting d) vbid in
          Ok (if lazy_target vbo req_vesting_seconds req_owner btype then Some vbid else None)
      end in
    match reuse with
    | Some vbid =>
        let* t := index_modify no_clash (db_vesting d) vbid
                    (λ v, if require_vesting then vb_deposit v now (core_asset amt)
                          else vb_deposit_vested v now (core_asset amt)) in
        Ok (None, set_vesting (λ _, t) d)
    | None =>
        let policy := mkCdd req_vesting_seconds
          (if require_vesting then 0 else u128_of_i64 (wrap_i64 (amt * req_vesting_seconds)))
          0 now in
        let* (id, t) := index_create no_clash (db_vesting d)
          (mkVbo req_owner (core_asset amt) (cdd_policy policy) btype) in
        Ok (Some id, set_vesting (λ _, t) d)
    end.

Definition is_reserved_account (id : Z) : bool :=
  (id =? GRAPHENE_COMMITTEE_ACCOUNT) || (id =? GRAPHENE_WITNESS_ACCOUNT)
  || (id =? GRAPHENE_RELAXED_COMMITTEE_ACCOUNT) || (id =? GRAPHENE_NULL_ACCOUNT)
  || (id =? GRAPHENE_TEMP_ACCOUNT).

Definition vb_slot (btype : balance_type) (a : account_object) : option Z :=
  match btype with
  | no_type => ao_cashback_vb a
  | escrow_fee_type => ao_escrow_vb a
  | publisher_fee_type => ao_publisher_vb a
  | founder_sale_fee => ao_founder_sale_vb a
  | referrer_sale_fee => ao_referrer_sale_vb a
  end.

Definition set_vb_slot (btype : balance_type) (v : option Z) : account_object → account_object :=
  match btype with
  | no_type => set_cashback_vb (λ _, v)
  | escrow_fee_type => set_escrow_vb (λ _, v)
  | publisher_fee_type => set_publisher_vb (λ _, v)
  | founder_sale_fee => set_founder_sale_vb (λ _, v)
  | referrer_sale_fee => set_referrer_sale_vb (λ _, v)
  end.

Definition deposit_cashback (d : database) (acct : Z) (amt : Z) (require_vesting : bool)
    (btype : balance_type) : result database :=
  let* a := get_account d acct in
  if amt =? 0 then Ok d
  else if is_reserved_account acct then
    let* core := get_core_asset d in
    modify_asset_dyn d (as_dynamic_asset_data_id core)
      (λ s, let* c := safe_sub (dd_current_supply s) amt in Ok (set_current_supply (λ _, c) s))
  else
    let* (new_vbid, d') :=
      deposit_lazy_vesting d (vb_slot btype a) amt
        (cp_cashback_vesting_period_seconds (parameters d)) acct require_vesting btype in
    match new_vbid with
    | Some id => modify_account d' acct (set_vb_slot btype (Some id))
    | None => Ok d'
    end.

Definition deposit_witness_pay (d : database) (wit : Z) (amt : Z) : result database :=
  let* w := get_witness d wit in
  if amt =? 0 then Ok d
  else
    let* (new_vbid, d') :=
      deposit_lazy_vesting d (wo_pay_vb w) amt
        (cp_witness_pay_vesting_seconds (parameters d)) (wo_witness_account w) true no_type in
    match new_vbid with
    | Some id => modify_witness d' wit (set_pay_vb (λ _, Some id))
    | None => Ok d'
    end.
End operations.

(** ** Effects on the accounting measure

    [moves d d' delta]: from a database whose assets are well formed the step
    leads to another such one, and for every asset the imbalance between what
    is held and what was issued grows by [delta]. *)

Definition moves (d d' : database) (delta : Z → Z) : Prop :=
  assets_wf d → assets_wf d' ∧ ∀ aid, imbalance aid d' = imbalance aid d + delta aid.

Definition conserves (d d' : database) : Prop := moves d d' (λ _, 0).

Lemma moves_refl d : conserves d d.
Proof. intros ?. split; [done|]. intros; lia. Qed.

Lemma moves_trans d1 d2 d3 f g :
  moves d1 d2 f → moves d2 d3 g → moves d1 d3 (λ aid, f aid + g aid).
Proof.
  intros H12 H23 Hwf. destruct (H12 Hwf) as [Hwf2 E2], (H23 Hwf2) as [Hwf3 E3].
  split; [done|]. intros aid. rewrite E3, E2. lia.
Qed.

Lemma moves_ext d d' f g : moves d d' f → (∀ aid, f aid = g aid) → moves d d' g.
Proof. intros H Hfg Hwf. destruct (H Hwf) as [? E]. split; [done|]. intros. by rewrite E, Hfg. Qed.

Lemma moves_conserves_l d1 d2 d3 f : conserves d1 d2 → moves d2 d3 f → moves d1 d3 f.
Proof. intros H1 H2. eapply moves_ext; [by eapply moves_trans|]. done. Qed.

Lemma moves_conserves_r d1 d2 d3 f : moves d1 d2 f → conserves d2 d3 → moves d1 d3 f.
Proof. intros H1 H2. eapply moves_ext; [by eapply moves_trans|]. intros; simpl; lia. Qed.

(** A step that leaves the asset tables alone only has to account for the measure. *)
Lemma moves_intro d d' f :
  db_assets d' = db_assets d → db_asset_dyn d' = db_asset_dyn d →
  db_bitassets d' = db_bitassets d →
  (∀ aid, imbalance aid d' = imbalance aid d + f aid) → moves d d' f.
Proof. intros Ha Hd Hb E Hwf. split; [|done]. unfold assets_wf in *. by rewrite Ha, Hd, Hb. Qed.

Definition core_delta (x aid : Z) : Z := amount_of aid (core_asset x).

Lemma moves_set_accounts d f : conserves d (set_accounts f d).
Proof. apply moves_intro; [done..|]. intros. rewrite imbalance_set_accounts. lia. Qed.

Lemma moves_set_listings d f : conserves d (set_listings f d).
Proof. apply moves_intro; [done..|]. intros. rewrite imbalance_set_listings. lia. Qed.

Lemma moves_set_exchanges d f : conserves d (set_exchanges f d).
Proof. apply moves_intro; [done..|]. intros. rewrite imbalance_set_exchanges. lia. Qed.

Lemma moves_set_witnesses d f : conserves d (set_witnesses f d).
Proof. apply moves_intro; [done..|]. intros. rewrite imbalance_set_witnesses. lia. Qed.

Lemma moves_modify_account d id f d' : modify_account d id f = Ok d' → conserves d d'.
Proof. unfold modify_account. intros H. ok_inv. apply moves_set_accounts. Qed.

Lemma moves_modify_witness d id f d' : modify_witness d id f = Ok d' → conserves d d'.
Proof. unfold modify_witness. intros H. ok_inv. apply moves_set_witnesses. Qed.

Lemma moves_modify_listing d id f d' : modify_listing d id f = Ok d' → conserves d d'.
Proof. unfold modify_listing. intros H. ok_inv. apply moves_set_listings. Qed.

Lemma moves_modify_dgpo d f d' :
  modify_dgpo d f = Ok d' →
  moves d d' (core_delta (dg_witness_budget (db_dgpo d') - dg_witness_budget (db_dgpo d))).
Proof.
  unfold modify_dgpo. intros H. ok_inv. apply moves_intro; [done..|].
  intros aid. rewrite imbalance_set_dgpo. done.
Qed.

Lemma moves_modify_statistics d id f d' :
  modify_statistics d id f = Ok d' →
  ∃ s s', db_statistics d !! id = Some s ∧ f s = Ok s' ∧
    d' = set_statistics (<[id := s']>) d ∧
    moves d d' (core_delta (st_pending_fees s' + st_pending_vested_fees s'
                            - st_pending_fees s - st_pending_vested_fees s)).
Proof.
  unfold modify_statistics, get_statistics. intros H. ok_inv. eexists _, _. split_and!; [done..|].
  apply moves_intro; [done..|]. intros aid. erewrite imbalance_set_statistics by eassumption. done.
Qed.

Lemma moves_modify_asset_dyn d i a f d' :
  db_assets d !! i = Some a → modify_asset_dyn d (as_dynamic_asset_data_id a) f = Ok d' →
  ∃ s s', db_asset_dyn d !! as_dynamic_asset_data_id a = Some s ∧ f s = Ok s' ∧
    d' = set_asset_dyn (<[as_dynamic_asset_data_id a := s']>) d ∧
    moves d d' (λ aid,
      amount_of aid (mkAsset (dd_accumulated_fees s' + dd_confidential_supply s' - dd_current_supply s'
        - (dd_accumulated_fees s + dd_confidential_supply s - dd_current_supply s)) i)
      + core_delta (dd_fee_pool s' - dd_fee_pool s) aid).
Proof.
  unfold modify_asset_dyn, get_asset_dyn. intros Ha H. ok_inv.
  eexists _, _. split_and!; [done..|]. intros Hwf. split.
  - destruct Hwf as (? & ? & [z Hz] & ?). split_and!; [done..| |done]. simpl.
    destruct (decide (as_dynamic_asset_data_id a = 0)) as [->|];
      [rewrite lookup_insert_eq|rewrite lookup_insert_ne by done]; eauto.
  - intros aid. erewrite imbalance_set_asset_dyn by eassumption. unfold core_delta. lia.
Qed.

(** Steps that leave balances, listings, escrows, exchanges, the listing counts
    of the accounts and the global properties alone. *)
Definition listings_count (d : database) (p : Z) : option Z :=
  ao_listings_count <$> objs (db_accounts d) !! p.
Definition same_ledger (d d' : database) : Prop :=
  db_balances d' = db_balances d ∧ db_listings d' = db_listings d ∧ db_escrows d' = db_escrows d ∧
  (∀ p, listings_count d' p = listings_count d p) ∧ db_dgpo d' = db_dgpo d ∧ db_gpo d' = db_gpo d ∧
  db_exchanges d' = db_exchanges d.

#[export] Instance same_ledger_preorder : PreOrder same_ledger.
Proof. split; [done|]. intros ? ? ? (?&?&?&?&?&?&?) (?&?&?&?&?&?&?). split_and!; congruence. Qed.

Lemma same_ledger_balance d d' o i : same_ledger d d' → get_balance d' o i = get_balance d o i.
Proof. intros (E & _). unfold get_balance. by rewrite E. Qed.

Lemma modify_account_count d id f d' :
  modify_account d id f = Ok d' →
  ∃ a, objs (db_accounts d) !! id = Some a ∧ db_listings d' = db_listings d ∧
    ∀ p, listings_count d' p =
      if decide (p = id) then Some (ao_listings_count (f a)) else listings_count d p.
Proof.
  unfold modify_account, get_account, index_get. intros H. ok_inv. eexists. split_and!; [done..|].
  intros p. unfold listings_count; simpl. case_decide as E.
  - subst. by rewrite lookup_insert_eq.
  - by rewrite lookup_insert_ne.
Qed.

Lemma modify_account_ledger d id f d' :
  modify_account d id f = Ok d' → (∀ a, ao_listings_count (f a) = ao_listings_count a) →
  same_ledger d d'.
Proof.
  intros H Hf. pose proof (modify_account_count _ _ _ _ H) as (a & Ha & _ & Hc).
  unfold modify_account in H. ok_inv. split_and!; try done. intros p. rewrite Hc.
  case_decide as E; [subst|done]. unfold listings_count. rewrite Ha, Hf. done.
Qed.

Lemma set_vb_slot_count ty v a : ao_listings_count (set_vb_slot ty v a) = ao_listings_count a.
Proof. by destruct ty. Qed.

(** A closed account of [core_delta]s and [amount_of]s. *)
Ltac delta_solve :=
  intros; simpl; unfold core_delta, amount_of; simpl;
  repeat case_match; simpl in *; lia.

(** The change of the balance of [o] in asset [i] when [acct] gets [a]. *)
Definition credit (o i acct : Z) (a : asset) : Z :=
  if decide (o = acct ∧ i = asset_id a) then amount a else 0.

(** ** Properties *)

(** Every stored balance is a non-negative [int64_t]. *)
Definition balances_wf (d : database) : Prop :=
  ∀ k b, db_balances d !! k = Some b → 0 <= b < 2 ^ 63.

Section properties.
Context {FC : FcArith} {FCL : FcArithLaws FC}.

Lemma get_balance_id d owner aid : asset_id (get_balance d owner aid) = aid.
Proof. unfold get_balance. by case_match. Qed.

Lemma get_balance_default d owner aid :
  amount (get_balance d owner aid) = default 0 (db_balances d !! (owner, aid)).
Proof. unfold get_balance. by case_match. Qed.

(** What a successful [adjust_balance] did. *)
Lemma adjust_balance_ok d acct delta d' :
  adjust_balance d acct delta = Ok d' →
  let b := amount (get_balance d acct (asset_id delta)) in
  (amount delta = 0 ∧ d' = d) ∨
  (amount delta ≠ 0 ∧ (amount delta < 0 → - amount delta <= b) ∧
   (b + amount delta < 2 ^ 63 ∨ db_balances d !! (acct, asset_id delta) = None) ∧
   d' = set_balances (<[(acct, asset_id delta) := b + amount delta]>) d).
Proof.
  intros H b. subst b. rewrite get_balance_default. unfold adjust_balance in H.
  destruct (Z.eqb_spec (amount delta) 0); [left; ok_inv; done|right].
  destruct (db_balances d !! _) as [b|] eqn:Hb; simpl.
  - apply rbind_ok in H as (c & Hc & H). ok_inv.
    safe_inv.
    split_and!; [done| |lia|done]. intros Hneg.
    rewrite (proj2 (Z.ltb_lt _ _) Hneg) in *. ok_inv.
    unfold asset_neg, asset_geb, asset_ltb in *. ok_inv. safe_inv.
    simpl in *. rewrite Z.ltb_ge in *. lia.
  - ok_inv. rewrite Z.ltb_lt in *. split_and!; [done|lia|by right|done].
Qed.

Lemma adjust_balance_moves d acct delta d' :
  adjust_balance d acct delta = Ok d' → moves d d' (λ aid, amount_of aid delta).
Proof.
  intros [[E ->]|(E & _ & _ & ->)]%adjust_balance_ok.
  - eapply moves_ext; [apply moves_refl|]. intros. unfold amount_of. case_match; lia.
  - apply moves_intro; [done..|]. intros aid.
    rewrite imbalance_set_balance, get_balance_default; simpl.
    unfold amount_of. case_match; lia.
Qed.

Lemma adjust_balance_frame d acct delta d' :
  adjust_balance d acct delta = Ok d' → ∃ m, d' = set_balances m d.
Proof.
  intros [[E ->]|(_ & _ & _ & ->)]%adjust_balance_ok; [|eauto].
  exists (λ m, m). by destruct d.
Qed.

Lemma adjust_balance_get d acct delta d' :
  adjust_balance d acct delta = Ok d' →
  (amount delta < 0 → - amount delta <= amount (get_balance d acct (asset_id delta))) ∧
  ∀ o i, amount (get_balance d' o i) = amount (get_balance d o i) +
    (if decide (o = acct ∧ i = asset_id delta) then amount delta else 0).
Proof.
  intros [[E ->]|(E & Hlt & _ & ->)]%adjust_balance_ok.
  - split; [lia|]. intros. case_decide; lia.
  - split; [done|]. intros o i. rewrite !get_balance_default; simpl.
    case_decide as Hd.
    + destruct Hd as [-> ->]. by rewrite lookup_insert_eq.
    + rewrite lookup_insert_ne by naive_solver. lia.
Qed.

Lemma adjust_balance_wf d acct delta d' :
  balances_wf d → amount delta < 2 ^ 63 →
  adjust_balance d acct delta = Ok d' → balances_wf d'.
Proof.
  intros Hwf Hr [[E ->]|(E & Hlt & Hgt & ->)]%adjust_balance_ok; [done|].
  intros k b; simpl. rewrite lookup_insert_Some. intros [[<- <-]|[_ Hk]]; [|by eapply Hwf].
  rewrite get_balance_default in *.
  destruct (db_balances d !! (acct, asset_id delta)) as [b'|] eqn:Hb; simpl in *; [|lia].
  apply Hwf in Hb. destruct Hgt; [lia|done].
Qed.

(** An adjustment the balance covers goes through. *)
Lemma adjust_balance_enough d acct delta :
  balances_wf d → - 2 ^ 63 < amount delta < 2 ^ 63 →
  0 <= amount (get_balance d acct (asset_id delta)) + amount delta < 2 ^ 63 →
  ∃ d', adjust_balance d acct delta = Ok d'.
Proof.
  intros Hwf Hr Hb. rewrite get_balance_default in Hb. unfold adjust_balance.
  destruct (Z.eqb_spec (amount delta) 0); [eauto|].
  destruct (db_balances d !! (acct, asset_id delta)) as [b|] eqn:Hl; simpl in *.
  - specialize (Hwf _ _ Hl).
    assert ((if amount delta <? 0
      then let* n := asset_neg delta in asset_geb (mkAsset b (asset_id delta)) n
      else Ok true) = Ok true) as ->.
    { destruct (Z.ltb_spec (amount delta) 0); [|done].
      unfold asset_neg, asset_geb, asset_ltb. rewrite safe_neg_spec, check_int64_in by lia.
      simpl. rewrite Z.eqb_refl; simpl. by rewrite (proj2 (Z.ltb_ge _ _)) by lia. }
    simpl. rewrite safe_add_spec, check_int64_in by lia. simpl. eauto.
  - rewrite (proj2 (Z.ltb_lt _ _)) by lia. simpl. eauto.
Qed.

Lemma adjust_balance_listings d acct delta d' :
  adjust_balance d acct delta = Ok d' →
  db_listings d' = db_listings d ∧ db_escrows d' = db_escrows d ∧ db_accounts d' = db_accounts d.
Proof. intros [m ->]%adjust_balance_frame. done. Qed.

(** [adjust_balance] on a database whose balances are non-negative
    64-bit numbers: it succeeds exactly when the adjusted balance would be
    such a number; then that one balance is adjusted, every other balance
    is as before, and all balances are still non-negative 64-bit numbers.
    No overdraft is possible. *)
Theorem adjust_balance_correct d acct delta :
  balances_wf d → - 2 ^ 63 < amount delta < 2 ^ 63 →
  ((∃ d', adjust_balance d acct delta = Ok d') ↔
     0 <= amount (get_balance d acct (asset_id delta)) + amount delta < 2 ^ 63) ∧
  ∀ d', adjust_balance d acct delta = Ok d' →
    balances_wf d' ∧
    ∀ o i, amount (get_balance d' o i) = amount (get_balance d o i) +
      (if decide (o = acct ∧ i = asset_id delta) then amount delta else 0).
Proof.
  intros Hwf Hr. split; [split|].
  - intros [d' H]. pose proof (adjust_balance_wf d acct delta d' Hwf ltac:(lia) H) as Hwf'.
    destruct (adjust_balance_get _ _ _ _ H) as [_ Hget].
    specialize (Hget acct (asset_id delta)). rewrite decide_True in Hget by done.
    rewrite <- Hget, get_balance_default.
    destruct (db_balances d' !! _) eqn:E; simpl; [by apply Hwf' in E|lia].
  - by apply adjust_balance_enough.
  - intros d' H. split; [eapply adjust_balance_wf; eauto; lia|].
    exact (proj2 (adjust_balance_get _ _ _ _ H)).
Qed.

Lemma index_modify_vesting_moves d id f t :
  index_modify no_clash (db_vesting d) id f = Ok t →
  ∃ v v', objs (db_vesting d) !! id = Some v ∧ f v = Ok v' ∧
    moves d (set_vesting (λ _, t) d)
      (λ aid, amount_of aid (vb_balance v') - amount_of aid (vb_balance v)).
Proof.
  intros (v & v' & Hv & Hf & _ & ->)%index_modify_ok. exists v, v'. split_and!; [done..|].
  apply moves_intro; [done..|]. intros aid.
  pose proof (imbalance_set_vesting aid d id v' (next_id (db_vesting d))) as E.
  rewrite Hv in E. simpl in E. rewrite Z.add_sub_assoc. exact E.
Qed.

Lemma index_create_vesting_moves d v id t :
  index_create no_clash (db_vesting d) v = Ok (id, t) →
  moves d (set_vesting (λ _, t) d) (λ aid, amount_of aid (vb_balance v)).
Proof.
  intros (-> & Hv & _ & ->)%index_create_ok. apply moves_intro; [done..|]. intros aid.
  pose proof (imbalance_set_vesting aid d (next_id (db_vesting d)) v (next_id (db_vesting d) + 1)) as E.
  rewrite Hv in E. simpl in E. rewrite Z.sub_0_r in E. exact E.
Qed.

Lemma vb_deposit_balance v now a v' :
  vb_deposit v now a = Ok v' → asset_add (vb_balance v) a = Ok (vb_balance v').
Proof. unfold vb_deposit. intros H. ok_inv. done. Qed.

Lemma vb_deposit_vested_balance v now a v' :
  vb_deposit_vested v now a = Ok v' → asset_add (vb_balance v) a = Ok (vb_balance v').
Proof. unfold vb_deposit_vested. intros H. ok_inv. done. Qed.

Lemma asset_add_amount_of a b c aid :
  asset_add a b = Ok c → amount_of aid c = amount_of aid a + amount_of aid b.
Proof.
  unfold asset_add. intros H. ok_inv. safe_inv.
  rewrite Z.eqb_eq in *. unfold amount_of; simpl. rewrite <- Hx. case_match; lia.
Qed.

Lemma deposit_lazy_vesting_moves d o amt secs owner rv ty r d' :
  deposit_lazy_vesting d o amt secs owner rv ty = Ok (r, d') → moves d d' (core_delta amt).
Proof.
  unfold deposit_lazy_vesting. intros H. destruct (Z.eqb_spec amt 0) as [->|_].
  { ok_inv. eapply moves_ext; [apply moves_refl|]. delta_solve. }
  apply rbind_ok in H as (reuse & _ & H). destruct reuse as [vbid|]; ok_inv.
  - match goal with H : index_modify _ _ _ _ = _ |- _ =>
      apply index_modify_vesting_moves in H as (v & v' & Hv & Hf & Hm) end.
    eapply moves_ext; [exact Hm|]. intros aid. simpl.
    assert (asset_add (vb_balance v) (core_asset amt) = Ok (vb_balance v')) as E
      by (destruct rv; [by eapply vb_deposit_balance|by eapply vb_deposit_vested_balance]).
    rewrite (asset_add_amount_of _ _ _ aid E). unfold core_delta. lia.
  - destruct x as [id t]; simpl in *. ok_inv.
    match goal with H : index_create _ _ _ = _ |- _ =>
      by apply index_create_vesting_moves in H end.
Qed.

(** The reserve pool takes what the chain's own accounts would get. *)
Lemma deposit_cashback_moves d acct amt rv ty d' :
  deposit_cashback d acct amt rv ty = Ok d' → moves d d' (core_delta amt).
Proof.
  unfold deposit_cashback. intros H. apply rbind_ok in H as (a & _ & H).
  destruct (Z.eqb_spec amt 0) as [->|_].
  { ok_inv. eapply moves_ext; [apply moves_refl|]. delta_solve. }
  destruct (is_reserved_account acct).
  - unfold get_core_asset, get_asset_object in H. ok_inv.
    eapply moves_modify_asset_dyn in H as (s & s' & _ & Hs & _ & Hm); [|done].
    ok_inv. safe_inv.
    eapply moves_ext; [exact Hm|].
    intros aid; simpl. unfold core_delta. rewrite !amount_of_core.
    change (mkAsset ?x core_id) with (core_asset x). rewrite amount_of_core. case_match; lia.
  - apply rbind_ok in H as ([r d1] & Hd & H). apply deposit_lazy_vesting_moves in Hd.
    destruct r; ok_inv; [|done].
    eapply moves_conserves_r; [done|]. by eapply moves_modify_account.
Qed.

Lemma deposit_lazy_vesting_ledger d o amt secs owner rv ty r d' :
  deposit_lazy_vesting d o amt secs owner rv ty = Ok (r, d') → same_ledger d d'.
Proof.
  unfold deposit_lazy_vesting. intros H. case_in H; ok_inv; [done|].
  case_in H; ok_inv; [done|]. destruct x0; ok_inv. done.
Qed.

Lemma deposit_cashback_ledger d acct amt rv ty d' :
  deposit_cashback d acct amt rv ty = Ok d' → same_ledger d d'.
Proof.
  unfold deposit_cashback. intros H. apply rbind_ok in H as (a & _ & H).
  case_in H; ok_inv; [done|]. case_in H.
  - unfold modify_asset_dyn in H. ok_inv. done.
  - apply rbind_ok in H as ([r d1] & H1 & H). apply deposit_lazy_vesting_ledger in H1.
    case_in H; ok_inv; [|done]. etrans; [exact H1|].
    eapply modify_account_ledger; [exact H|]. apply set_vb_slot_count.
Qed.

Lemma deposit_witness_pay_moves d wit amt d' :
  deposit_witness_pay d wit amt = Ok d' → moves d d' (core_delta amt).
Proof.
  unfold deposit_witness_pay. intros H. apply rbind_ok in H as (w & _ & H).
  destruct (Z.eqb_spec amt 0) as [->|_].
  { ok_inv. eapply moves_ext; [apply moves_refl|]. delta_solve. }
  apply rbind_ok in H as ([r d1] & Hd & H). apply deposit_lazy_vesting_moves in Hd.
  destruct r; ok_inv; [|done].
  eapply moves_conserves_r; [done|]. by eapply moves_modify_witness.
Qed.
End properties.

(** Executable check of [balances_wf]. *)
Lemma balances_wf_check d :
  forallb (λ kv, (0 <=? kv.2) && (kv.2 <? 2 ^ 63)) (map_to_list (db_balances d)) = true →
  balances_wf d.
Proof.
  rewrite forallb_forall. intros H k b Hk.
  apply elem_of_map_to_list, list_elem_of_In, H in Hk. simpl in Hk. lia.
Qed.

(** Alice can spend all her core but not one unit more. *)
Lemma adjust_balance_correct_witness :
  (∃ d', adjust_balance (FC := fc_reference) sample_db alice (core_asset (-1000000)) = Ok d') ∧
  ¬ (∃ d', adjust_balance (FC := fc_reference) sample_db alice (core_asset (-1000001)) = Ok d').
Proof.
  split.
  - apply (adjust_balance_correct (FCL := fc_reference_laws) sample_db alice (core_asset (-1000000)));
      [apply balances_wf_check; reflexivity|simpl; lia|vm_compute; split; congruence].
  - intros H.
    apply (adjust_balance_correct (FCL := fc_reference_laws) sample_db alice (core_asset (-1000001))) in H;
      [|apply balances_wf_check; reflexivity|simpl; lia].
    destruct H as [H _]. vm_compute in H. by apply H.
Defined.
