(* ===== verification/Fees.v ===== *)
(** * Fees: splitting, paying and the evaluator framework

    [cut_fee], [account_statistics_object::process_fees] and [pay_fee]
    ([account_object.cpp]); [generic_evaluator] and the template
    [evaluator<DerivedEvaluator>] ([evaluator.cpp], [evaluator.hpp]) as the
    type class [Evaluator]; [fee_schedule::calculate_fee] and [set_fee]
    ([fee_schedule.cpp]). *)

From stdpp Require Import gmap.
From Stdlib Require Import ZArith Lia.
From S2P Require Import Prelude Fc Config Asset VestingBalance Objects Database Sample Balances.

Local Open Scope Z_scope.

Section operations.
Context {FC : FcArith} {BA : BoostArith}.

Definition cut_fee (a p : Z) : result Z :=
  if (a =? 0) || (p =? 0) then Ok 0
  else if p =? GRAPHENE_100_PERCENT then Ok a
  else
    let* r := u128_div (u128_mul (u128_of_i64 a) p) GRAPHENE_100_PERCENT in
    let* v := u128_to_uint64 r in
    Ok (wrap_i64 v).

(** The lambda of [process_fees]. *)
Definition pay_out_fees (d : database) (account : account_object)
    (core_fee_total : Z) (require_vesting : bool) : result database :=
  let* network_cut := cut_fee core_fee_total (ao_network_fee_percentage account) in
  let* referral := safe_sub core_fee_total network_cut in
  let* d := modify_asset_dyn d 0
    (λ s, let* f := safe_add (dd_accumulated_fees s) network_cut in
          Ok (set_accumulated_fees (λ _, f) s)) in
  let* referrer_cut := cut_fee referral (ao_referrer_rewards_percentage account) in
  let* registrar_cut := safe_sub referral referrer_cut in
  let* d := deposit_cashback d (ao_referrer account) referrer_cut require_vesting no_type in
  deposit_cashback d (ao_registrar account) registrar_cut require_vesting no_type.

Definition process_fees (d : database) (stats : Z) (a : Z) : result database :=
  let* s := get_statistics d stats in
  let* acct := get_account d a in
  if (0 <? st_pending_fees s) || (0 <? st_pending_vested_fees s) then
    let* d := pay_out_fees d acct (st_pending_fees s) true in
    let* d := pay_out_fees d acct (st_pending_vested_fees s) false in
    modify_statistics d stats (λ s,
      let* paid := safe_add (st_pending_fees s) (st_pending_vested_fees s) in
      let* total := safe_add (st_lifetime_fees_paid s) paid in
      Ok (set_pending_vested_fees (λ _, 0) (set_pending_fees (λ _, 0)
            (set_lifetime_fees_paid (λ _, total) s))))
  else Ok d.

Definition statistics_pay_fee (s : account_statistics_object)
    (core_fee cashback_vesting_threshold : Z) : result account_statistics_object :=
  if cashback_vesting_threshold <? core_fee then
    let* f := safe_add (st_pending_fees s) core_fee in Ok (set_pending_fees (λ _, f) s)
  else
    let* f := safe_add (st_pending_vested_fees s) core_fee in
    Ok (set_pending_vested_fees (λ _, f) s).

(** ** [generic_evaluator]

    The members that [prepare_fee] fills in; pointers to objects are ids. *)
Record generic_evaluator := mkGeneric {
  fee_from_account : asset;
  core_fee_paid : Z;
  fee_paying_account : Z;
  fee_paying_account_statistics : Z;
  fee_asset : Z;
  fee_asset_dyn_data : Z
}.

Definition prepare_fee (d : database) (account_id : Z) (fee : asset)
    : result generic_evaluator :=
  FC_ASSERT (0 <=? amount fee) ;;
  let* payer := get_account d account_id in
  let* _ := get_statistics d (ao_statistics payer) in
  let* fa := get_asset_object d (asset_id fee) in
  let* dyn := get_asset_dyn d (as_dynamic_asset_data_id fa) in
  FC_ASSERT (if HARDFORK_419_TIME <? head_block_time d
             then is_authorized_asset d payer (asset_id fee) fa else true) ;;
  let* core :=
    if asset_id fee =? core_id then Ok (amount fee)
    else
      let* fee_from_pool := asset_mul_price fee (as_core_exchange_rate fa) in
      FC_ASSERT (asset_id fee_from_pool =? core_id) ;;
      FC_ASSERT (amount fee_from_pool <=? dd_fee_pool dyn) ;;
      Ok (amount fee_from_pool) in
  Ok (mkGeneric fee core account_id (ao_statistics payer) (asset_id fee)
        (as_dynamic_asset_data_id fa)).

Definition convert_fee (skip_fee : bool) (g : generic_evaluator) (d : database)
    : result database :=
  if skip_fee then Ok d
  else if negb (fee_asset g =? core_id) then
    modify_asset_dyn d (fee_asset_dyn_data g) (λ s,
      let* f := safe_add (dd_accumulated_fees s) (amount (fee_from_account g)) in
      let* p := safe_sub (dd_fee_pool s) (core_fee_paid g) in
      Ok (set_fee_pool (λ _, p) (set_accumulated_fees (λ _, f) s)))
  else Ok d.

Definition pay_fee (skip_fee : bool) (g : generic_evaluator) (d : database) : result database :=
  if skip_fee then Ok d
  else modify_statistics d (fee_paying_account_statistics g)
         (λ s, statistics_pay_fee s (core_fee_paid g)
                 (cp_cashback_vesting_threshold (parameters d))).

Definition deposit_fee (d : database) (account : Z) (a : option asset) (btype : balance_type)
    : result (Z * database) :=
  match a with
  | None => Ok (0, d)
  | Some x =>
      let* d' := deposit_cashback d account (amount x)
                   (cp_cashback_vesting_threshold (parameters d) <? amount x) btype in
      Ok (amount x, d')
  end.
End operations.

(** ** The evaluator interface

    A derived evaluator supplies [do_evaluate] and [do_apply]; [ev_state]
    holds the members it fills in the former and uses in the latter. *)
Class Evaluator (Op : Type) := {
  ev_state : Type;
  op_fee_payer : Op → Z;
  op_fee : Op → asset;
  do_evaluate : database → Op → result ev_state;
  do_apply : database → Op → ev_state → result database
}.

(** What the framework needs of a derived evaluator: applying the operation
    neither creates nor destroys any asset. *)
Class EvaluatorConserves (Op : Type) `{E : Evaluator Op} : Prop :=
  do_apply_conserves d0 d op st d' :
    do_evaluate d0 op = Ok st → do_apply d op st = Ok d' → conserves d d'.

Section evaluator.
Context {FC : FcArith} {BA : BoostArith} {Op : Type} {E : Evaluator Op}.

(** [evaluator::evaluate]; [required_fee] is what the fee schedule asks for
    the operation, checked unless [skip_fee_schedule_check]. *)
Definition evaluate (skip_check : bool) (required_fee : result Z) (d : database) (op : Op)
    : result (generic_evaluator * ev_state) :=
  let* g := prepare_fee d (op_fee_payer op) (op_fee op) in
  let* _ :=
    if skip_check then Ok tt
    else let* r := required_fee in require (r <=? core_fee_paid g) insufficient_fee in
  let* st := do_evaluate d op in
  Ok (g, st).

Definition apply (skip_fee : bool) (g : generic_evaluator) (st : ev_state) (d : database) (op : Op)
    : result database :=
  let* d := convert_fee skip_fee g d in
  let* d := pay_fee skip_fee g d in
  let* d := do_apply d op st in
  let* n := asset_neg (fee_from_account g) in
  adjust_balance d (op_fee_payer op) n.

Definition start_evaluate (skip_fee skip_check : bool) (required_fee : result Z)
    (d : database) (op : Op) : result database :=
  let* (g, st) := evaluate skip_check required_fee d op in
  apply skip_fee g st d op.
End evaluator.

(** ** The fee schedule *)

Section fee_schedule.
Context {FC : FcArith} {BA : BoostArith}.

(** [while( result * rate < asset( scaled ) ) result.amount++]. *)
Fixpoint raise_fee (fuel : nat) (rate : price) (scaled : Z) (r : asset) : result asset :=
  let* back := asset_mul_price r rate in
  let* low := asset_ltb back (core_asset scaled) in
  if low then
    match fuel with
    | O => Throw out_of_fuel
    | S fuel' =>
        let* n := safe_add (amount r) 1 in
        raise_fee fuel' rate scaled (mkAsset n (asset_id r))
    end
  else Ok r.

Definition raise_fuel : nat := 2.

(** [calculate_fee]; [base_value] is the fee of the operation from its own
    fee parameters, [scale] the member of the schedule. *)
Definition calculate_fee (base_value scale : Z) (core_exchange_rate : price) : result asset :=
  let* scaled := u128_div (u128_mul base_value scale) GRAPHENE_100_PERCENT in
  FC_ASSERT (scaled <=? GRAPHENE_MAX_SHARE_SUPPLY) ;;
  let* scaled64 := u128_to_uint64 scaled in
  let* r0 := asset_mul_price (mkAsset (wrap_i64 scaled64) core_id) core_exchange_rate in
  let* r := raise_fee raise_fuel core_exchange_rate (wrap_i64 scaled64) r0 in
  FC_ASSERT (amount r <=? GRAPHENE_MAX_SHARE_SUPPLY) ;;
  Ok r.

Definition MAX_FEE_STABILIZATION_ITERATION : nat := 4.

(** The loop of [set_fee]; [fee_of f] is [calculate_fee] of the operation
    with its fee member set to [f]. *)
Fixpoint set_fee_loop (n : nat) (fee_of : asset → result asset) (f f_max : asset) : result asset :=
  match n with
  | O => Ok f_max
  | S n' =>
      let* f2 := fee_of f_max in
      if asset_eqb f f2 then Ok f_max
      else
        let* lt := asset_ltb f_max f2 in
        set_fee_loop n' fee_of f2 (if lt then f2 else f_max)
  end.

Definition set_fee (fee_of : asset → result asset) (op_fee0 : asset) : result asset :=
  let* f := fee_of op_fee0 in
  set_fee_loop MAX_FEE_STABILIZATION_ITERATION fee_of f f.
End fee_schedule.

(** ** Properties of the fee schedule *)

(** [p] is an exchange rate of the core currency: [P] core for [Q] of [other]. *)
Definition core_rate (p : price) (other P Q : Z) : Prop :=
  other ≠ core_id ∧ amount_pos P ∧ amount_pos Q ∧
  (p = mkPrice (mkAsset P core_id) (mkAsset Q other) ∨
   p = mkPrice (mkAsset Q other) (mkAsset P core_id)).

Definition ceil_div (a b : Z) : Z := (a + b - 1) / b.

Lemma ceil_div_spec a b : 0 < b → a <= ceil_div a b * b < a + b.
Proof.
  intros. unfold ceil_div. pose proof (Z.mul_div_le (a + b - 1) b).
  pose proof (Z.mul_succ_div_gt (a + b - 1) b). nia.
Qed.

Lemma ceil_div_floor a b : 0 < b →
  ceil_div a b = if a / b * b =? a then a / b else a / b + 1.
Proof.
  intros Hb. pose proof (ceil_div_spec a b Hb). pose proof (Z.mul_div_le a b).
  pose proof (Z.mul_succ_div_gt a b). case_match eqn:E; nia.
Qed.

(** [r] of the other currency converts back to at least [s] exactly from the
    rounded-up amount on. *)
Lemma ceil_covers s r P Q : 0 < P → 0 < Q → s <= r * P / Q ↔ ceil_div (s * Q) P <= r.
Proof.
  intros HP HQ. pose proof (ceil_div_spec (s * Q) P HP).
  pose proof (Z.mul_div_le (r * P) Q). pose proof (Z.mul_succ_div_gt (r * P) Q).
  split; intros; nia.
Qed.

Lemma asset_ltb_core x y : asset_ltb (mkAsset x core_id) (core_asset y) = Ok (x <? y).
Proof. done. Qed.

Section fee_schedule_properties.
Context {FC : FcArith} {FCL : FcArithLaws FC} {BA : BoostArith} {BAL : BoostArithLaws BA}.

Definition converted (x id : Z) : result asset :=
  if x <=? GRAPHENE_MAX_SHARE_SUPPLY then Ok (mkAsset x id) else Throw assert_exception.

Lemma core_rate_mul p other P Q x :
  core_rate p other P Q → amount_ok x →
  asset_mul_price (mkAsset x core_id) p = converted (x * Q / P) other ∧
  asset_mul_price (mkAsset x other) p = converted (x * P / Q) core_id.
Proof.
  intros (Hne & HP & HQ & Hp) Hx.
  assert (core_id =? other = false) as E1 by (apply Z.eqb_neq; congruence).
  assert (other =? core_id = false) as E2 by (by apply Z.eqb_neq).
  destruct Hp as [-> | ->]; (split; rewrite asset_mul_price_floor by done);
    cbn [amount asset_id base quote]; rewrite ?E1, ?E2, !Z.eqb_refl; done.
Qed.

Lemma raise_fee_ceil p other P Q s :
  core_rate p other P Q → 0 <= s <= GRAPHENE_MAX_SHARE_SUPPLY →
  s * Q / P <= GRAPHENE_MAX_SHARE_SUPPLY →
  raise_fee raise_fuel p s (mkAsset (s * Q / P) other) =
    let r := ceil_div (s * Q) P in
    if r * P / Q <=? GRAPHENE_MAX_SHARE_SUPPLY then Ok (mkAsset r other)
    else Throw assert_exception.
Proof.
  intros Hr Hs Hmax. pose proof Hr as (_ & [HP HP'] & [HQ HQ'] & _).
  unfold GRAPHENE_MAX_SHARE_SUPPLY in *.
  assert (0 <= s * Q / P) by (apply Z.div_pos; nia).
  pose proof (floor_back s Q P ltac:(lia) HQ HP) as Hback.
  pose proof (ceil_div_floor (s * Q) P HP) as Hc.
  unfold raise_fuel, raise_fee.
  rewrite (proj2 (core_rate_mul p other P Q (s * Q / P) Hr ltac:(unfold amount_ok; lia))).
  unfold converted, GRAPHENE_MAX_SHARE_SUPPLY.
  rewrite (proj2 (Z.leb_le _ _)) by lia.
  cbn [rbind amount asset_id]. rewrite asset_ltb_core. cbn [rbind]. destruct (Z.ltb_spec (s * Q / P * P / Q) s) as [Hlt|Hge].
  - assert (ceil_div (s * Q) P = s * Q / P + 1) as ->.
    { destruct (Z.eqb_spec (s * Q / P * P) (s * Q)) as [E|]; [|done]. exfalso.
      rewrite E, Z.div_mul in Hlt by lia. lia. }
    rewrite safe_add_spec, check_int64_in by lia. cbn [rbind].
    rewrite (proj2 (core_rate_mul p other P Q (s * Q / P + 1) Hr ltac:(unfold amount_ok; lia))).
    unfold converted, GRAPHENE_MAX_SHARE_SUPPLY. cbv zeta.
    destruct (Z.leb_spec ((s * Q / P + 1) * P / Q) 1000000000000000); [|done].
    cbn [rbind amount asset_id]. rewrite asset_ltb_core. cbn [rbind]. rewrite (proj2 (Z.ltb_ge _ _)); [done|].
    apply ceil_covers; [lia..|]. rewrite Hc. case_match; lia.
  - assert (ceil_div (s * Q) P = s * Q / P) as ->.
    { apply Z.le_antisymm; [by apply (proj1 (ceil_covers s (s * Q / P) P Q HP HQ))|]. rewrite Hc. case_match; lia. }
    cbv zeta. by rewrite (proj2 (Z.leb_le _ _)) by lia.
Qed.

(** The fee an operation costs in another currency.  For a scaled fee
    of [s] core and a rate of [P] core for [Q] of the other currency the
    loop of [calculate_fee] ends after at most one increment; the result is
    the fee rounded up, the least amount that converts back to at least [s];
    the only failures are amounts above the maximum supply. *)
Theorem calculate_fee_least p other P Q base_value scale :
  core_rate p other P Q → 0 <= base_value < 2 ^ 64 → 0 <= scale < 2 ^ 32 →
  let s := base_value * scale / GRAPHENE_100_PERCENT in
  let r := ceil_div (s * Q) P in
  calculate_fee base_value scale p =
    (if (s <=? GRAPHENE_MAX_SHARE_SUPPLY) && (r <=? GRAPHENE_MAX_SHARE_SUPPLY)
        && (r * P / Q <=? GRAPHENE_MAX_SHARE_SUPPLY)
     then Ok (mkAsset r other) else Throw assert_exception) ∧
  ∀ r', s <= r' * P / Q ↔ r <= r'.
Proof.
  intros Hr Hb Hs s r. pose proof Hr as (_ & [HP HP'] & [HQ HQ'] & _).
  split; [|intros r'; by apply ceil_covers].
  unfold calculate_fee. rewrite u128_mul_small by (unfold u128_mod; nia).
  rewrite u128_div_ok by done. cbn [rbind]. fold s.
  destruct (Z.leb_spec s GRAPHENE_MAX_SHARE_SUPPLY) as [Hmax|]; [|done].
  assert (0 <= s) by (apply Z.div_pos; [nia|done]).
  cbn [rbind require]. unfold GRAPHENE_MAX_SHARE_SUPPLY in Hmax.
  rewrite u128_to_uint64_spec, (proj2 (Z.ltb_lt _ _)) by lia. cbn [rbind].
  rewrite wrap_i64_small by lia.
  rewrite (proj1 (core_rate_mul p other P Q s Hr ltac:(unfold amount_ok; lia))).
  assert (s * Q / P <= r) as Hle.
  { subst r. rewrite ceil_div_floor by done. case_match; lia. }
  unfold converted. destruct (Z.leb_spec (s * Q / P) GRAPHENE_MAX_SHARE_SUPPLY).
  - cbn [rbind]. rewrite (raise_fee_ceil p other P Q s) by (unfold GRAPHENE_MAX_SHARE_SUPPLY in *; done).
    fold r. cbv zeta. rewrite andb_comm.
    destruct (r * P / Q <=? GRAPHENE_MAX_SHARE_SUPPLY); [|done].
    cbn [rbind amount andb]. by destruct (r <=? GRAPHENE_MAX_SHARE_SUPPLY).
  - rewrite (proj2 (Z.leb_gt r _)) by lia. done.
Qed.
End fee_schedule_properties.

Definition witness_rate : price := mkPrice (mkAsset 3 1) (mkAsset 7 core_id).

(** A fee of 100 core at 7 core for 3 units is 43 units. *)
Lemma calculate_fee_least_witness :
  calculate_fee (FC := fc_reference) (BA := boost_reference) 100 10000 witness_rate
  = Ok (mkAsset 43 1).
Proof.
  pose proof (calculate_fee_least (FCL := fc_reference_laws) (BAL := boost_reference_laws)
    witness_rate 1 7 3 100 10000) as H.
  destruct H as [H _]; [|lia|lia|exact H].
  unfold core_rate, amount_pos, core_id. split_and!; try lia. by right.
Defined.

(** ** Properties of fee payments *)

Section payment_properties.
Context {FC : FcArith} {FCL : FcArithLaws FC} {BA : BoostArith} {BAL : BoostArithLaws BA}.

Lemma cut_fee_eq a p :
  0 <= a < 2 ^ 63 → 0 <= p <= GRAPHENE_100_PERCENT →
  cut_fee a p = Ok (a * p / GRAPHENE_100_PERCENT).
Proof.
  unfold cut_fee, GRAPHENE_100_PERCENT. intros Ha Hp.
  destruct (Z.eqb_spec a 0) as [->|]; [done|].
  destruct (Z.eqb_spec p 0) as [->|]; [by rewrite Z.mul_0_r|].
  destruct (Z.eqb_spec p 10000) as [->|]; simpl; [by rewrite Z.div_mul|].
  rewrite u128_of_i64_nonneg, u128_mul_small by (unfold u128_mod; nia).
  rewrite u128_div_ok by done. simpl.
  pose proof (mul_div_le a p 10000 ltac:(lia) ltac:(lia) ltac:(lia) ltac:(lia)).
  rewrite u128_to_uint64_spec, (proj2 (Z.ltb_lt _ _)) by lia. simpl.
  by rewrite wrap_i64_small by lia.
Qed.

Lemma statistics_pay_fee_ok s fee thr s' :
  statistics_pay_fee s fee thr = Ok s' →
  st_pending_fees s' + st_pending_vested_fees s' =
  st_pending_fees s + st_pending_vested_fees s + fee.
Proof. unfold statistics_pay_fee. intros H. case_in H; ok_inv; safe_inv; simpl; lia. Qed.

Lemma assets_wf_core d : assets_wf d →
  ∃ a, db_assets d !! core_id = Some a ∧ as_dynamic_asset_data_id a = 0.
Proof. by intros (_ & ? & _). Qed.

Lemma pay_out_fees_moves d acct total rv d' :
  pay_out_fees d acct total rv = Ok d' → moves d d' (core_delta total).
Proof.
  unfold pay_out_fees. intros H Hwf. destruct (assets_wf_core d Hwf) as (core & Hc & Hz).
  rewrite <- Hz in H. ok_inv.
  match goal with H : modify_asset_dyn _ _ _ = _ |- _ =>
    eapply moves_modify_asset_dyn in H as (s & s' & _ & Hs & _ & Hm); [|done] end.
  ok_inv. safe_inv. simpl in Hm.
  repeat match goal with H : deposit_cashback _ _ _ _ _ = _ |- _ =>
    apply deposit_cashback_moves in H end.
  revert Hwf. change (moves d d' (core_delta total)).
  eapply moves_ext; [eapply moves_trans; [exact Hm|eapply moves_trans; eassumption]|].
  intros aid. simpl. unfold core_delta. change (mkAsset ?x core_id) with (core_asset x).
  rewrite !amount_of_core. case_match; lia.
Qed.

Lemma deposit_lazy_vesting_stats d o amt secs owner rv ty r d' :
  deposit_lazy_vesting d o amt secs owner rv ty = Ok (r, d') →
  db_statistics d' = db_statistics d.
Proof.
  unfold deposit_lazy_vesting. intros H. case_in H; ok_inv; [done|].
  case_in H; ok_inv; [done|]. destruct x0; ok_inv. done.
Qed.

Lemma deposit_cashback_stats d acct amt rv ty d' :
  deposit_cashback d acct amt rv ty = Ok d' → db_statistics d' = db_statistics d.
Proof.
  unfold deposit_cashback. intros H. apply rbind_ok in H as (a & _ & H).
  case_in H; ok_inv; [done|]. case_in H.
  - unfold modify_asset_dyn in H. ok_inv. done.
  - apply rbind_ok in H as ([r d1] & H1 & H). apply deposit_lazy_vesting_stats in H1.
    unfold modify_account in H. case_in H; ok_inv; done.
Qed.

Lemma pay_out_fees_stats d acct total rv d' :
  pay_out_fees d acct total rv = Ok d' → db_statistics d' = db_statistics d.
Proof.
  unfold pay_out_fees. intros H. ok_inv. unfold modify_asset_dyn in *. ok_inv.
  repeat match goal with H : deposit_cashback _ _ _ _ _ = _ |- _ =>
    apply deposit_cashback_stats in H end. simpl in *. congruence.
Qed.

(** Distributing an account's pending fees at maintenance creates and
    destroys nothing: the network's share, the referrer's and the
    registrar's share are exactly the pending fees, which are then zero and
    have been added to the lifetime fees. *)
Theorem process_fees_conserves d stats a d' s :
  db_statistics d !! stats = Some s →
  0 < st_pending_fees s ∨ 0 < st_pending_vested_fees s →
  process_fees d stats a = Ok d' →
  conserves d d' ∧
  ∃ s', db_statistics d' !! stats = Some s' ∧
    st_pending_fees s' = 0 ∧ st_pending_vested_fees s' = 0 ∧
    st_lifetime_fees_paid s' =
      st_lifetime_fees_paid s + st_pending_fees s + st_pending_vested_fees s.
Proof.
  intros Hs Hpos H. unfold process_fees, get_statistics in H. rewrite Hs in H.
  apply rbind_ok in H as (s0 & [= <-] & H). apply rbind_ok in H as (acct & _ & H).
  replace ((0 <? st_pending_fees s) || (0 <? st_pending_vested_fees s)) with true in H
    by (destruct Hpos; symmetry; apply orb_true_iff; rewrite !Z.ltb_lt; auto).
  apply rbind_ok in H as (d1 & H1 & H). apply rbind_ok in H as (d2 & H2 & H).
  pose proof (pay_out_fees_stats _ _ _ _ _ H1). pose proof (pay_out_fees_stats _ _ _ _ _ H2).
  apply pay_out_fees_moves in H1, H2.
  apply moves_modify_statistics in H as (s1 & s' & Hs1 & Hs' & -> & Hm).
  assert (s1 = s) as -> by congruence. ok_inv. safe_inv. simpl in *. split.
  - eapply moves_ext; [eapply moves_trans; [exact H1|eapply moves_trans; eassumption]|].
    intros aid. simpl. unfold core_delta. rewrite !amount_of_core. case_match; lia.
  - eexists. rewrite lookup_insert_eq. split; [done|]. simpl. lia.
Qed.

Lemma prepare_fee_ok d payer fee g :
  prepare_fee d payer fee = Ok g →
  fee_from_account g = fee ∧ fee_asset g = asset_id fee ∧ 0 <= amount fee ∧
  (∃ fa, db_assets d !! asset_id fee = Some fa ∧
         fee_asset_dyn_data g = as_dynamic_asset_data_id fa) ∧
  (asset_id fee = core_id → core_fee_paid g = amount fee).
Proof.
  unfold prepare_fee, get_asset_object. intros H. ok_inv. simpl.
  split_and!; [done|done|lia|eauto|]. intros E. rewrite E in *. simpl in *. by ok_inv.
Qed.

Lemma fee_payment_ledger d d1 d2 sf g :
  convert_fee sf g d = Ok d1 → pay_fee sf g d1 = Ok d2 → same_ledger d d2.
Proof.
  unfold convert_fee, pay_fee, modify_asset_dyn, modify_statistics. intros H1 H2.
  destruct sf; [by ok_inv|]. case_in H1; ok_inv; done.
Qed.

(** Paying a fee touches neither accounts nor vesting balances. *)
Lemma fee_payment_vesting d d1 d2 sf g :
  convert_fee sf g d = Ok d1 → pay_fee sf g d1 = Ok d2 →
  db_vesting d2 = db_vesting d ∧ db_accounts d2 = db_accounts d.
Proof.
  unfold convert_fee, pay_fee, modify_asset_dyn, modify_statistics. intros H1 H2.
  destruct sf; [by ok_inv|]. case_in H1; ok_inv; done.
Qed.

Lemma deposit_fee_ok d acct f ty x d' :
  deposit_fee d acct f ty = Ok (x, d') →
  x = from_option amount 0 f ∧ moves d d' (core_delta x) ∧ same_ledger d d'.
Proof.
  unfold deposit_fee. intros H. destruct f as [a|]; ok_inv; simpl.
  - split_and!; [done|by eapply deposit_cashback_moves|by eapply deposit_cashback_ledger].
  - split_and!; [done| |done]. eapply moves_ext; [apply moves_refl|]. delta_solve.
Qed.

Lemma fee_payment_moves d0 d d1 d2 payer fee g :
  prepare_fee d0 payer fee = Ok g → db_assets d = db_assets d0 →
  convert_fee false g d = Ok d1 → pay_fee false g d1 = Ok d2 →
  moves d d2 (λ aid, amount_of aid fee).
Proof.
  intros (<- & Hi & _ & (fa & Hfa & Hdyn) & Hcore)%prepare_fee_ok Ea Hc Hp.
  unfold pay_fee in Hp. apply moves_modify_statistics in Hp as (s & s' & _ & Hs & _ & Hm).
  apply statistics_pay_fee_ok in Hs.
  unfold convert_fee in Hc. rewrite Hi in Hc. rewrite <- Ea in Hfa.
  destruct (Z.eqb_spec (asset_id (fee_from_account g)) core_id) as [E|E]; simpl in Hc; ok_inv.
  - eapply moves_ext; [exact Hm|]. intros aid. unfold core_delta.
    replace (_ - _ - _) with (amount (fee_from_account g)) by (rewrite <- Hcore by done; lia).
    unfold amount_of; simpl. by rewrite E.
  - rewrite Hdyn in Hc.
    eapply moves_modify_asset_dyn in Hc as (t & t' & _ & Ht & _ & Hm2); [|done].
    ok_inv. safe_inv. simpl in *.
    eapply moves_ext; [eapply moves_trans; [exact Hm2|exact Hm]|].
    intros aid; simpl. unfold core_delta. rewrite !amount_of_core.
    unfold amount_of; simpl. repeat case_match; lia.
Qed.

(** The stages of a successful run: evaluation, fee payment, application,
    deduction of the fee from the payer's balance. *)
Lemma start_evaluate_stages {Op} {E : Evaluator Op} skip_fee skip_check required d (op : Op) d' :
  start_evaluate skip_fee skip_check required d op = Ok d' →
  ∃ g st d0 d1 d2, prepare_fee d (op_fee_payer op) (op_fee op) = Ok g ∧
    do_evaluate d op = Ok st ∧ convert_fee skip_fee g d = Ok d0 ∧ pay_fee skip_fee g d0 = Ok d1 ∧
    do_apply d1 op st = Ok d2 ∧
    adjust_balance d2 (op_fee_payer op) (mkAsset (- amount (op_fee op)) (asset_id (op_fee op)))
      = Ok d'.
Proof.
  unfold start_evaluate, evaluate, apply. intros H.
  apply rbind_ok in H as ([g st] & Hev & H).
  apply rbind_ok in Hev as (g' & Hprep & Hev). apply rbind_ok in Hev as (u & _ & Hev).
  apply rbind_ok in Hev as (st' & Hst & Hev). injection Hev as -> ->.
  apply rbind_ok in H as (d0 & Hc & H). apply rbind_ok in H as (d1 & Hp & H).
  apply rbind_ok in H as (d2 & Ha & H). apply rbind_ok in H as (n & Hn & H).
  apply asset_neg_ok in Hn as ->. pose proof (prepare_fee_ok _ _ _ _ Hprep) as (Hf & _).
  rewrite Hf in H. by exists g, st, d0, d1, d2.
Qed.

Lemma start_evaluate_ok {Op} {E : Evaluator Op} skip_fee skip_check required d (op : Op) d' :
  start_evaluate skip_fee skip_check required d op = Ok d' →
  ∃ st d1 d2, do_evaluate d op = Ok st ∧ same_ledger d d1 ∧
    (skip_fee = false → moves d d1 (λ aid, amount_of aid (op_fee op))) ∧
    do_apply d1 op st = Ok d2 ∧
    adjust_balance d2 (op_fee_payer op) (mkAsset (- amount (op_fee op)) (asset_id (op_fee op)))
      = Ok d'.
Proof.
  intros (g & st & d0 & d1 & d2 & Hprep & Hst & Hc & Hp & Ha & H)%start_evaluate_stages.
  exists st, d1, d2. split_and!; [done|by eapply fee_payment_ledger| |done|done].
  intros ->. by eapply fee_payment_moves.
Qed.

(** C13.  The fee framework conserves every asset: for any operation whose
    own [do_apply] conserves them, a successful [start_evaluate] does, with
    the fee moved from the payer to the pending fees of the payer's
    statistics object, through the fee pool when the fee is not paid in the
    core currency. *)
Theorem start_evaluate_conserves {Op} {E : Evaluator Op} {EC : EvaluatorConserves Op}
    skip_check required d (op : Op) d' :
  start_evaluate false skip_check required d op = Ok d' → conserves d d'.
Proof.
  intros (st & d1 & d2 & Hev & _ & Hfee & Happ & Hadj)%start_evaluate_ok.
  eapply do_apply_conserves in Happ; [|done]. apply adjust_balance_moves in Hadj.
  eapply moves_ext; [eapply moves_trans; [by apply Hfee|eapply moves_trans; eassumption]|].
  intros aid; simpl. rewrite amount_of_neg. destruct (op_fee op); simpl. lia.
Qed.
End payment_properties.

(** Alice's 520 pending fees are distributed. *)
Lemma process_fees_conserves_witness :
  imbalance 0 (get_ok (process_fees (FC := fc_reference) sample_db alice alice) sample_db) = 0.
Proof.
  edestruct (process_fees_conserves (FCL := fc_reference_laws) sample_db alice alice) as [H _].
  - reflexivity.
  - left. reflexivity.
  - apply (get_ok_eq _ sample_db). vm_compute. reflexivity.
  - destruct (H sample_db_wf) as [_ E]. rewrite E. vm_compute. reflexivity.
Defined.
