(* ===== verification/ObFee.v ===== *)
(** * OmniBazaar fees ([omnibazaar_fee_type.cpp])

    The fees of a sale: which ones the chain demands ([set_sale_fees]), when
    the fees of an operation satisfy a demand ([is_enough]), their [sum]. *)

From stdpp Require Import gmap strings.
From Stdlib Require Import ZArith Lia.
From S2P Require Import Prelude Fc Config Asset VestingBalance Objects Database Sample Balances Fees.

Local Open Scope Z_scope.

Section operations.
Context {FC : FcArith}.

(** One of the five blocks of [is_enough]. *)
Definition fee_is_enough (fee reference : option asset) : result unit :=
  match reference with
  | None => Ok tt
  | Some r =>
      let* f := of_option assert_exception fee in
      FC_ASSERT (asset_id f =? asset_id r) ;;
      let* ge := asset_geb f r in
      require ge assert_exception
  end.

Definition is_enough (f reference_fee : omnibazaar_fee_type) : result bool :=
  let* _ := fee_is_enough (omnibazaar_fee f) (omnibazaar_fee reference_fee) in
  let* _ := fee_is_enough (escrow_fee f) (escrow_fee reference_fee) in
  let* _ := fee_is_enough (referrer_buyer_fee f) (referrer_buyer_fee reference_fee) in
  let* _ := fee_is_enough (referrer_seller_fee f) (referrer_seller_fee reference_fee) in
  let* _ := fee_is_enough (publisher_fee f) (publisher_fee reference_fee) in
  Ok true.

Definition fee_amount (f : option asset) : Z := from_option amount 0 f.

Definition ob_sum (f : omnibazaar_fee_type) : result Z :=
  let* a := safe_add (fee_amount (omnibazaar_fee f)) (fee_amount (escrow_fee f)) in
  let* b := safe_add a (fee_amount (referrer_buyer_fee f)) in
  let* c := safe_add b (fee_amount (referrer_seller_fee f)) in
  safe_add c (fee_amount (publisher_fee f)).

Definition positive_fee (x : Z) (aid : Z) : option asset :=
  if 0 <? x then Some (mkAsset x aid) else None.

Definition set_sale_fees (d : database) (listing : listing_object) (amt : asset)
    (buyer seller : Z) (f : omnibazaar_fee_type) : result omnibazaar_fee_type :=
  let* ob_fee := cut_fee (amount amt) (lo_priority_fee listing) in
  let* s := get_account d seller in
  let* (rb, rs) :=
    if ao_is_referrer s then
      let* b := get_account d buyer in
      let* br := get_account d (ao_referrer b) in
      let* rb :=
        if ao_is_referrer br
        then let* x := cut_fee (amount amt) (GRAPHENE_1_PERCENT / 4) in
             Ok (positive_fee x (asset_id amt))
        else Ok None in
      let* sr := get_account d (ao_referrer s) in
      let* rs :=
        if ao_is_referrer sr
        then let* x := cut_fee (amount amt) (GRAPHENE_1_PERCENT / 4) in
             Ok (positive_fee x (asset_id amt))
        else Ok None in
      Ok (rb, rs)
    else Ok (None, None) in
  Ok (mkObFee (positive_fee ob_fee (asset_id amt)) (escrow_fee f) rb rs (publisher_fee f)).
End operations.

(** The plain sum of the fees. *)
Definition fees_total (f : omnibazaar_fee_type) : Z :=
  fee_amount (omnibazaar_fee f) + fee_amount (escrow_fee f) + fee_amount (referrer_buyer_fee f)
  + fee_amount (referrer_seller_fee f) + fee_amount (publisher_fee f).

Section properties.
Context {FC : FcArith} {FCL : FcArithLaws FC}.

Lemma ob_sum_ok f s : ob_sum f = Ok s → s = fees_total f.
Proof. unfold ob_sum, fees_total. intros H. ok_inv. safe_inv. lia. Qed.

Lemma fee_is_enough_ok f r u :
  fee_is_enough f r = Ok u →
  ∀ x, r = Some x → ∃ y, f = Some y ∧ asset_id y = asset_id x ∧ amount x <= amount y.
Proof.
  intros H x ->. simpl in H. ok_inv. apply asset_geb_ok in Hx1 as [? E].
  rewrite E, Z.leb_le in H. eauto.
Qed.

Lemma positive_fee_nonneg x aid : fee_amount (positive_fee x aid) = Z.max 0 x.
Proof. unfold positive_fee. case_match; simpl; lia. Qed.

Lemma sale_fee_total_bound a p :
  0 <= a < 2 ^ 63 → 0 <= p <= GRAPHENE_100_PERCENT - 50 →
  a * p / GRAPHENE_100_PERCENT + 2 * (a * (GRAPHENE_1_PERCENT / 4) / GRAPHENE_100_PERCENT) <= a.
Proof.
  unfold GRAPHENE_1_PERCENT, GRAPHENE_100_PERCENT. change (10000 / 100 / 4) with 25.
  intros Ha Hp.
  pose proof (Z.mul_div_le (a * p) 10000). pose proof (Z.mul_div_le (a * 25) 10000). nia.
Qed.

Lemma set_sale_fees_eq d l amt buyer seller f f' :
  0 <= amount amt < 2 ^ 63 → 0 <= lo_priority_fee l <= GRAPHENE_100_PERCENT →
  set_sale_fees d l amt buyer seller f = Ok f' →
  let q := amount amt * (GRAPHENE_1_PERCENT / 4) / GRAPHENE_100_PERCENT in
  omnibazaar_fee f' =
    positive_fee (amount amt * lo_priority_fee l / GRAPHENE_100_PERCENT) (asset_id amt) ∧
  escrow_fee f' = escrow_fee f ∧ publisher_fee f' = publisher_fee f ∧
  (referrer_buyer_fee f' = None ∨ referrer_buyer_fee f' = positive_fee q (asset_id amt)) ∧
  (referrer_seller_fee f' = None ∨ referrer_seller_fee f' = positive_fee q (asset_id amt)).
Proof.
  intros Ha Hp H. unfold set_sale_fees in H. rewrite cut_fee_eq in H by done.
  rewrite (cut_fee_eq (amount amt) (GRAPHENE_1_PERCENT / 4)) in H by done.
  cbn [rbind] in H. apply rbind_ok in H as (s & _ & H).
  apply rbind_ok in H as ([rb rs] & Hr & H). ok_inv. simpl. split_and!; [done..| |].
  all: destruct (ao_is_referrer s); ok_inv; [|by left];
    repeat match goal with H : (if ?b then _ else _) = _ |- _ => destruct b; ok_inv end; auto.
Qed.
End properties.
