(* ===== verification/Reputation.v ===== *)
(** * Reputation and Proof of Participation scores

    [account_object::update_reputation] ([account_object.cpp]) and
    [pop_weights] ([pop_weights.cpp]). *)

From stdpp Require Import gmap strings.
From Stdlib Require Import ZArith Lia.
From S2P Require Import Prelude Fc Config Asset VestingBalance Objects Database Sample Balances.

Local Open Scope Z_scope.

Section operations.
Context {FC : FcArith}.

Definition record_vote (reputation from : Z) (amt : asset)
    (votes : gmap Z (Z * asset)) : gmap Z (Z * asset) :=
  if reputation =? OMNIBAZAAR_REPUTATION_DEFAULT then delete from votes
  else <[from := (reputation, amt)]> votes.

(** The loop over the votes: the weighted sum and the sum of the weights. *)
Definition weighted_votes_sum (votes : gmap Z (Z * asset)) : Z :=
  map_fold (λ _ v acc, u128_add acc (u128_mul v.1 (u128_of_i64 (amount v.2)))) 0 votes.
Definition weight_sum (votes : gmap Z (Z * asset)) : Z :=
  map_fold (λ _ v acc, u128_add acc (u128_of_i64 (amount v.2))) 0 votes.

Definition reputation_score (votes : gmap Z (Z * asset)) : result Z :=
  if 0 <? weight_sum votes then
    let* q := u128_div (u128_mul (weighted_votes_sum votes) GRAPHENE_100_PERCENT)
                       (weight_sum votes) in
    let* r := u128_div q OMNIBAZAAR_REPUTATION_MAX in
    let* i := u128_to_integer r in
    Ok (wrap_u16 i)
  else Ok 0.

Definition update_reputation (d : database) (target from reputation : Z) (amt : asset)
    : result database :=
  let* target_account := get_account d target in
  let* stats := get_statistics d (ao_statistics target_account) in
  let votes := record_vote reputation from amt (st_reputation_votes stats) in
  let* score := reputation_score votes in
  let* d := modify_statistics d (ao_statistics target_account)
              (λ s, Ok (set_reputation_votes (record_vote reputation from amt) s)) in
  let* d := modify_account d target
              (λ a, set_reputation_votes_count (λ _, Z.of_nat (size votes))
                      (set_reputation_unweighted_score (λ _, score) a)) in
  let* from_account := get_account d from in
  modify_statistics d (ao_statistics from_account)
    (λ s, Ok (set_my_reputation_votes
                (λ m, if OMNIBAZAAR_REPUTATION_DEFAULT <? reputation
                      then {[ target ]} ∪ m else m ∖ {[ target ]}) s)).
End operations.

(** ** [pop_weights] *)

Definition pop_total (w : pop_weights) : Z :=
  wrap_u32 (pw_referral w + pw_listings w + pw_reputation w + pw_trust w + pw_reliability w
            + pw_verification w).

Definition calc_pop_score (w : pop_weights)
    (referral_score listings_score reputation_score trust_score reliability_score : Z)
    (verified : bool) : Z :=
  wrap_u16
    (wrap_u32 (referral_score * pw_referral w + listings_score * pw_listings w
               + reputation_score * pw_reputation w + trust_score * pw_trust w
               + reliability_score * pw_reliability w
               + (if verified then 1 else 0) * pw_verification w)
     / GRAPHENE_100_PERCENT).

(** ** Properties *)

(** Votes as [transfer_operation::validate] lets them in. *)
Definition votes_wf (votes : gmap Z (Z * asset)) : Prop :=
  (∀ k v, votes !! k = Some v →
     OMNIBAZAAR_REPUTATION_MIN <= v.1 <= OMNIBAZAAR_REPUTATION_MAX ∧ 0 < amount v.2 < 2 ^ 63) ∧
  Z.of_nat (size votes) < 2 ^ 32.

Definition votes_total (votes : gmap Z (Z * asset)) : Z := msum (λ _ v, v.1 * amount v.2) votes.
Definition weights_total (votes : gmap Z (Z * asset)) : Z := msum (λ _ v, amount v.2) votes.

Section properties.
Context {FC : FcArith} {FCL : FcArithLaws FC}.

(** A sum accumulated with wrap-around is the sum modulo [2 ^ 128]. *)
Lemma u128_sum_mod {V} (f : V → Z) (g : Z → V → Z) (m : gmap Z V) :
  (∀ k v, m !! k = Some v → f v mod u128_mod = g k v mod u128_mod) →
  map_fold (λ _ v acc, u128_add acc (f v)) 0 m = msum g m mod u128_mod.
Proof.
  assert (u128_mod ≠ 0) by done.
  induction m as [|k v m Hk IH] using map_ind; intros Hfg.
  { by rewrite map_fold_empty, msum_empty. }
  rewrite map_fold_insert_L; [|intros; rewrite !u128_add_spec|done].
  - rewrite IH, msum_insert_new, u128_add_spec by
      (done || (intros k' v' Hk'; apply (Hfg k'); rewrite lookup_insert_ne; [done|congruence])).
    rewrite Zplus_mod_idemp_l, <- Zplus_mod_idemp_r, (Hfg k v) by (by rewrite lookup_insert_eq).
    rewrite Zplus_mod_idemp_r. f_equal. lia.
  - rewrite !Zplus_mod_idemp_l. f_equal. lia.
Qed.

Lemma msum_size_bound (f : Z → Z * asset → Z) c m :
  (∀ k v, m !! k = Some v → f k v <= c) → msum f m <= c * Z.of_nat (size m).
Proof.
  induction m as [|k v m Hk IH] using map_ind; intros Hf.
  { rewrite msum_empty, map_size_empty. lia. }
  rewrite msum_insert_new, map_size_insert_None by done.
  pose proof (Hf k v ltac:(by rewrite lookup_insert_eq)).
  enough (msum f m <= c * Z.of_nat (size m)) by lia.
  apply IH. intros k' v' Hk'. apply (Hf k'). rewrite lookup_insert_ne; [done|congruence].
Qed.

Lemma votes_bounds votes :
  votes_wf votes →
  0 <= weights_total votes < 2 ^ 95 ∧ 0 <= votes_total votes <= 10 * weights_total votes.
Proof.
  intros [Hv Hs]. unfold OMNIBAZAAR_REPUTATION_MIN, OMNIBAZAAR_REPUTATION_MAX in Hv.
  unfold weights_total, votes_total.
  pose proof (msum_size_bound (λ _ v, amount v.2) (2 ^ 63 - 1) votes
    ltac:(intros k v Hk; apply Hv in Hk; lia)).
  split; [split; [apply msum_nonneg; intros k v Hk; apply Hv in Hk; lia|lia]|split].
  - apply msum_nonneg. intros k v Hk. apply Hv in Hk. nia.
  - rewrite <- msum_scale. apply msum_le. intros k v Hk. apply Hv in Hk. nia.
Qed.

Lemma sums_eq votes :
  votes_wf votes →
  weighted_votes_sum votes = votes_total votes ∧ weight_sum votes = weights_total votes.
Proof.
  intros Hwf. pose proof (votes_bounds votes Hwf) as [Hw Hv]. destruct Hwf as [Hvotes _].
  unfold OMNIBAZAAR_REPUTATION_MIN, OMNIBAZAAR_REPUTATION_MAX in Hvotes.
  unfold weighted_votes_sum, weight_sum. split.
  - rewrite (u128_sum_mod _ (λ _ v, v.1 * amount v.2)).
    + apply Z.mod_small. unfold u128_mod. fold (votes_total votes). lia.
    + intros k v Hk. apply Hvotes in Hk.
      rewrite u128_of_i64_nonneg by (unfold u128_mod; lia).
      by rewrite u128_mul_small by (unfold u128_mod; nia).
  - rewrite (u128_sum_mod _ (λ _ v, amount v.2)).
    + apply Z.mod_small. unfold u128_mod. fold (weights_total votes). lia.
    + intros k v Hk. apply Hvotes in Hk. by rewrite u128_of_i64_nonneg by (unfold u128_mod; lia).
Qed.

(** The stored score is the weighted mean of the votes as a percentage of
    the best vote, between 0 and 100%, and computing it cannot fail. *)
Lemma reputation_score_mean votes :
  votes_wf votes →
  let score := if weights_total votes =? 0 then 0
               else votes_total votes * GRAPHENE_100_PERCENT / weights_total votes
                    / OMNIBAZAAR_REPUTATION_MAX in
  reputation_score votes = Ok score ∧ 0 <= score <= GRAPHENE_100_PERCENT.
Proof.
  intros Hwf score. subst score. pose proof (votes_bounds votes Hwf) as [Hw Hv].
  destruct (sums_eq votes Hwf) as [E1 E2]. unfold reputation_score. rewrite E1, E2.
  unfold GRAPHENE_100_PERCENT, OMNIBAZAAR_REPUTATION_MAX.
  destruct (Z.ltb_spec 0 (weights_total votes)); destruct (Z.eqb_spec (weights_total votes) 0);
    try lia; [|done].
  rewrite u128_mul_small by (unfold u128_mod; nia). rewrite u128_div_ok by lia. cbn [rbind].
  rewrite u128_div_ok by lia. cbn [rbind].
  assert (0 <= votes_total votes * 10000 / weights_total votes <= 100000).
  { split; [apply Z.div_pos; lia|]. apply Z.div_le_upper_bound; nia. }
  assert (0 <= votes_total votes * 10000 / weights_total votes / 10 <= 10000).
  { split; [apply Z.div_pos; lia|]. apply Z.div_le_upper_bound; lia. }
  rewrite u128_to_integer_spec, (proj2 (Z.ltb_lt _ _)) by lia. simpl.
  rewrite wrap_u16_small by lia. done.
Qed.

Lemma update_reputation_conserves d target from r amt d' :
  update_reputation d target from r amt = Ok d' → conserves d d'.
Proof.
  unfold update_reputation. intros H. ok_inv.
  match goal with H : modify_account _ _ _ = _ |- _ => apply moves_modify_account in H end.
  apply moves_modify_statistics in H as (s2 & s2' & _ & Hs2 & _ & H).
  match goal with H : modify_statistics _ _ _ = _ |- _ =>
    apply moves_modify_statistics in H as (s1 & s1' & _ & Hs1 & _ & H) end.
  ok_inv. simpl in *.
  eapply moves_ext; [eapply moves_trans; [eassumption|eapply moves_trans; eassumption]|].
  delta_solve.
Qed.

Lemma update_reputation_ledger d target from r amt d' :
  update_reputation d target from r amt = Ok d' → same_ledger d d'.
Proof.
  unfold update_reputation, modify_statistics. intros H. ok_inv.
  match goal with H : modify_account _ _ _ = _ |- _ => apply modify_account_ledger in H; [|done] end.
  done.
Qed.

(** A vote of [from] for [target]: the target's stored score is the
    weighted mean of the votes it now has, at most 100%; the number of
    votes stored with it is right; a default vote leaves no trace of
    [from]; and no funds move. *)
Theorem update_reputation_correct d target from r amt d' a s :
  objs (db_accounts d) !! target = Some a → db_statistics d !! ao_statistics a = Some s →
  votes_wf (record_vote r from amt (st_reputation_votes s)) →
  update_reputation d target from r amt = Ok d' →
  conserves d d' ∧
  ∃ a' s', objs (db_accounts d') !! target = Some a' ∧
    db_statistics d' !! ao_statistics a = Some s' ∧
    st_reputation_votes s' = record_vote r from amt (st_reputation_votes s) ∧
    ao_reputation_votes_count a' = Z.of_nat (size (st_reputation_votes s')) ∧
    (let W := weights_total (st_reputation_votes s') in
     ao_reputation_unweighted_score a' =
       if W =? 0 then 0
       else votes_total (st_reputation_votes s') * GRAPHENE_100_PERCENT / W
            / OMNIBAZAAR_REPUTATION_MAX) ∧
    0 <= ao_reputation_unweighted_score a' <= GRAPHENE_100_PERCENT ∧
    (r = OMNIBAZAAR_REPUTATION_DEFAULT → st_reputation_votes s' !! from = None).
Proof.
  intros Ha Hs Hwf H. split; [by eapply update_reputation_conserves|].
  destruct (reputation_score_mean _ Hwf) as [Hscore Hrange].
  unfold update_reputation, get_account, index_get, get_statistics in H.
  rewrite Ha in H. cbn [of_option rbind] in H. rewrite Hs in H. cbn [of_option rbind] in H.
  rewrite Hscore in H. cbn [rbind] in H.
  unfold modify_statistics, modify_account, get_statistics, get_account, index_get in H.
  rewrite Hs in H. cbn [of_option rbind db_accounts set_statistics] in H.
  rewrite Ha in H. cbn [of_option rbind] in H.
  apply rbind_ok in H as (fa & _ & H). apply rbind_ok in H as (fs & Hfs & H). ok_inv.
  simpl in Hfs |- *. eexists _. rewrite lookup_insert_eq.
  destruct (decide (ao_statistics fa = ao_statistics a)) as [E|E].
  - rewrite E, lookup_insert_eq in Hfs. injection Hfs as <-. rewrite E, lookup_insert_eq.
    eexists; split_and!; [reflexivity|reflexivity|..]; simpl; try done; try lia.
    intros ->. unfold record_vote. simpl. by rewrite lookup_delete_eq.
  - rewrite lookup_insert_ne, lookup_insert_eq by done.
    eexists; split_and!; [reflexivity|reflexivity|..]; simpl; try done; try lia.
    intros ->. unfold record_vote. simpl. by rewrite lookup_delete_eq.
Qed.
End properties.

(** Weights that a valid set of chain parameters has. *)
Definition weights_wf (w : pop_weights) : Prop :=
  0 <= pw_referral w ∧ 0 <= pw_listings w ∧ 0 <= pw_reputation w ∧ 0 <= pw_trust w ∧
  0 <= pw_reliability w ∧ 0 <= pw_verification w ∧
  pw_referral w + pw_listings w + pw_reputation w + pw_trust w + pw_reliability w
    + pw_verification w = GRAPHENE_100_PERCENT.

Definition score_wf (s : Z) : Prop := 0 <= s <= GRAPHENE_100_PERCENT.

Lemma calc_pop_score_eq w a b c t r (v : bool) :
  weights_wf w → score_wf a → score_wf b → score_wf c → score_wf t → score_wf r →
  let sum := a * pw_referral w + b * pw_listings w + c * pw_reputation w + t * pw_trust w
             + r * pw_reliability w + (if v then 1 else 0) * pw_verification w in
  calc_pop_score w a b c t r v = sum / GRAPHENE_100_PERCENT ∧
  0 <= sum <= GRAPHENE_100_PERCENT * GRAPHENE_100_PERCENT.
Proof.
  unfold weights_wf, score_wf, calc_pop_score, GRAPHENE_100_PERCENT.
  intros Hw Ha Hb Hc Ht Hr. cbv zeta.
  assert (0 <= a * pw_referral w <= 10000 * pw_referral w) by nia.
  assert (0 <= b * pw_listings w <= 10000 * pw_listings w) by nia.
  assert (0 <= c * pw_reputation w <= 10000 * pw_reputation w) by nia.
  assert (0 <= t * pw_trust w <= 10000 * pw_trust w) by nia.
  assert (0 <= r * pw_reliability w <= 10000 * pw_reliability w) by nia.
  assert (0 <= (if v then 1 else 0) * pw_verification w <= pw_verification w) by (destruct v; lia).
  rewrite wrap_u32_small by lia. split; [|lia]. apply wrap_u16_small.
  split; [apply Z.div_pos; lia|]. apply Z.div_lt_upper_bound; lia.
Qed.

(** The Proof of Participation score: with weights that sum to 100% and
    component scores up to 100% nothing overflows and the score lies between
    0 and 100%.  Being verified counts for at most one hundredth of a percent,
    whatever the weight of verification is: the component enters the sum as 1
    where the others enter as parts of 10000. *)
Theorem calc_pop_score_range w a b c t r :
  weights_wf w → score_wf a → score_wf b → score_wf c → score_wf t → score_wf r →
  0 <= calc_pop_score w a b c t r false <= GRAPHENE_100_PERCENT ∧
  calc_pop_score w a b c t r false <= calc_pop_score w a b c t r true
    <= calc_pop_score w a b c t r false + 1.
Proof.
  intros Hw Ha Hb Hc Ht Hr.
  destruct (calc_pop_score_eq w a b c t r false Hw Ha Hb Hc Ht Hr) as [E1 B1].
  destruct (calc_pop_score_eq w a b c t r true Hw Ha Hb Hc Ht Hr) as [E2 B2].
  rewrite E1, E2. unfold weights_wf, GRAPHENE_100_PERCENT in *. cbn beta iota zeta in *.
  set (x := a * pw_referral w + _) in *. split; [split; [apply Z.div_pos; lia|]|split].
  - apply Z.div_le_upper_bound; lia.
  - apply Z.div_le_mono; lia.
  - rewrite <- (Z.div_add _ 1) by lia. apply Z.div_le_mono; lia.
Qed.

Definition witness_weights : pop_weights := mkPopWeights 2000 2000 2000 2000 1000 1000.

Lemma calc_pop_score_range_witness :
  calc_pop_score witness_weights 10000 10000 10000 10000 10000 true <= 9001.
Proof.
  destruct (calc_pop_score_range witness_weights 10000 10000 10000 10000 10000) as [_ [_ H]];
    [..|exact H]; unfold weights_wf, score_wf, GRAPHENE_100_PERCENT; simpl; lia.
Defined.

(** Alice gives Bob the best mark for a payment of 10. *)
Lemma update_reputation_correct_witness :
  let d' := get_ok (update_reputation (FC := fc_reference) sample_db bob alice 10 (core_asset 10)) sample_db in
  ∃ a', objs (db_accounts d') !! bob = Some a' ∧ ao_reputation_votes_count a' = 1.
Proof.
  intros d'.
  edestruct (update_reputation_correct (FCL := fc_reference_laws) sample_db bob alice 10
    (core_asset 10) d' (agent_of (sample_account "bob" bob)) (default_stats bob))
    as [_ (a' & s' & Ha & _ & Hv & Hc & _)].
  - reflexivity.
  - reflexivity.
  - unfold record_vote; simpl. split; [|done]. intros k v. rewrite lookup_insert_Some, lookup_empty.
    intros [[_ <-]|[_ [=]]]. simpl. unfold OMNIBAZAAR_REPUTATION_MIN, OMNIBAZAAR_REPUTATION_MAX. lia.
  - apply get_ok_eq. vm_compute. reflexivity.
  - exists a'. split; [exact Ha|]. rewrite Hc, Hv. reflexivity.
Defined.
