(* ===== verification/Exceptions.v ===== *)
(** * Runs that only throw exceptions

    A handler of the source catches an exception but not undefined behaviour
    (nor an endless loop).  [defined c]: the run [c] ends, with a value or
    with an exception.  The lemmas cover what the clean-up of expired escrows
    and listings runs inside its handlers: fees, balances, lazy vesting
    deposits and reputation votes. *)

From stdpp Require Import gmap list.
From Stdlib Require Import ZArith.
From S2P Require Import Prelude Fc Config Asset VestingBalance Objects Database Balances Fees Reputation.

Local Open Scope Z_scope.

Definition defined {A} (c : result A) : Prop :=
  match c with Ok _ => True | Throw e => catchable e = true end.

Lemma defined_rbind {A B} (c : result A) (k : A → result B) :
  defined c → (∀ a, defined (k a)) → defined (rbind c k).
Proof. destruct c; simpl; auto. Qed.

Lemma defined_rbind_ok {A B} (c : result A) (k : A → result B) :
  defined c → (∀ a, c = Ok a → defined (k a)) → defined (rbind c k).
Proof. destruct c; simpl; auto. Qed.

Lemma defined_require b e : catchable e = true → defined (require b e).
Proof. by destruct b. Qed.

Lemma defined_of_option {A} e (o : option A) : catchable e = true → defined (of_option e o).
Proof. by destruct o. Qed.

Lemma defined_rfold {A S} (f : S → A → result S) l s :
  (∀ s x, defined (f s x)) → defined (rfold f s l).
Proof.
  intros Hf. revert s. induction l as [|x l IH]; intros s; simpl; [done|].
  by apply defined_rbind.
Qed.

Lemma try_catch_defined {A} (c h : result A) : defined c → ∀ e, c = Throw e → try_catch c h = h.
Proof. intros Hc e ->. simpl in *. by rewrite Hc. Qed.

(** [defined_tac] follows the structure of a run; what it calls is found in
    the hint database [defined]. *)
Create HintDb defined discriminated.
Ltac defined_step :=
  match goal with
  | |- True => exact I
  | |- defined (rbind _ _) => apply defined_rbind; [|intros ?]
  | |- defined (require _ _) => apply defined_require; reflexivity
  | |- defined (of_option _ _) => apply defined_of_option; reflexivity
  | |- defined (Ok _) => exact I
  | |- defined (Throw _) => reflexivity
  | |- defined (rfold _ _ _) => apply defined_rfold; intros ? ?
  | |- defined ?c =>
      match c with context [match ?x with _ => _ end] => destruct x end
  | |- _ => solve [auto with nocore defined]
  end.
Ltac defined_tac := repeat (intros; cbv zeta beta; defined_step).

Section numbers.
Context {FC : FcArith} {FCL : FcArithLaws FC} {BA : BoostArith}.

Lemma defined_safe_add a b : defined (safe_add a b).
Proof. rewrite safe_add_spec. unfold check_int64. defined_tac. Qed.
Lemma defined_safe_sub a b : defined (safe_sub a b).
Proof. rewrite safe_sub_spec. unfold check_int64. defined_tac. Qed.
Lemma defined_safe_neg a : defined (safe_neg a).
Proof. rewrite safe_neg_spec. unfold check_int64. defined_tac. Qed.
Lemma defined_u128_div a b : defined (u128_div a b).
Proof. rewrite u128_div_spec. defined_tac. Qed.
Lemma defined_u128_to_integer a : defined (u128_to_integer a).
Proof. rewrite u128_to_integer_spec. defined_tac. Qed.
Local Hint Resolve defined_safe_add defined_safe_sub defined_safe_neg defined_u128_div
  defined_u128_to_integer : defined.

Lemma defined_asset_add a b : defined (asset_add a b).
Proof. unfold asset_add. defined_tac. Qed.
Lemma defined_asset_neg a : defined (asset_neg a).
Proof. unfold asset_neg. defined_tac. Qed.
Lemma defined_asset_geb a b : defined (asset_geb a b).
Proof. unfold asset_geb, asset_ltb. defined_tac. Qed.
Lemma defined_asset_mul_price a p : defined (asset_mul_price a p).
Proof. unfold asset_mul_price. defined_tac. Qed.
Local Hint Resolve defined_asset_add defined_asset_neg defined_asset_geb
  defined_asset_mul_price : defined.

(** ** Tables *)

Lemma defined_index_get {V} (t : table V) id : defined (index_get t id).
Proof. unfold index_get. defined_tac. Qed.
Local Hint Resolve defined_index_get : defined.
Lemma defined_index_create {V} clash (t : table V) v : defined (index_create clash t v).
Proof. unfold index_create. defined_tac. Qed.
Lemma defined_index_modify {V} clash (t : table V) id f :
  (∀ v, defined (f v)) → defined (index_modify clash t id f).
Proof. unfold index_modify. defined_tac. Qed.
Lemma defined_index_remove {V} (t : table V) id : defined (index_remove t id).
Proof. unfold index_remove. defined_tac. Qed.
Lemma defined_get_account d id : defined (get_account d id).
Proof. unfold get_account. defined_tac. Qed.
Lemma defined_get_statistics d id : defined (get_statistics d id).
Proof. unfold get_statistics. defined_tac. Qed.
Lemma defined_get_asset_object d id : defined (get_asset_object d id).
Proof. unfold get_asset_object. defined_tac. Qed.
Lemma defined_get_asset_dyn d id : defined (get_asset_dyn d id).
Proof. unfold get_asset_dyn. defined_tac. Qed.
Local Hint Resolve defined_index_create defined_index_modify defined_index_remove
  defined_get_account defined_get_statistics defined_get_asset_object defined_get_asset_dyn : defined.

Lemma defined_modify_account d id f : defined (modify_account d id f).
Proof. unfold modify_account. defined_tac. Qed.
Lemma defined_modify_statistics d id f :
  (∀ s, defined (f s)) → defined (modify_statistics d id f).
Proof. unfold modify_statistics. defined_tac. Qed.
Lemma defined_modify_asset_dyn d id f :
  (∀ s, defined (f s)) → defined (modify_asset_dyn d id f).
Proof. unfold modify_asset_dyn. defined_tac. Qed.
Lemma defined_modify_listing d id f : (∀ l, defined (f l)) → defined (modify_listing d id f).
Proof. unfold modify_listing. defined_tac. Qed.
Local Hint Resolve defined_modify_account : defined.

(** ** Balances, deposits, votes, fees *)

Lemma defined_adjust_balance d a x : defined (adjust_balance d a x).
Proof. unfold adjust_balance. defined_tac. Qed.

Lemma defined_deposit_lazy_vesting d o amt s w r t :
  defined (deposit_lazy_vesting d o amt s w r t).
Proof.
  unfold deposit_lazy_vesting. defined_tac;
    (apply defined_index_modify; intros v; unfold vb_deposit, vb_deposit_vested; defined_tac).
Qed.
Local Hint Resolve defined_adjust_balance defined_deposit_lazy_vesting : defined.

Lemma defined_deposit_cashback d a amt r t : defined (deposit_cashback d a amt r t).
Proof.
  unfold deposit_cashback, get_core_asset. defined_tac.
  apply defined_modify_asset_dyn. defined_tac.
Qed.
Local Hint Resolve defined_deposit_cashback : defined.

Lemma defined_deposit_fee d a f t : defined (deposit_fee d a f t).
Proof. unfold deposit_fee. defined_tac. Qed.

Lemma defined_update_reputation d t f r a : defined (update_reputation d t f r a).
Proof.
  unfold update_reputation, reputation_score. defined_tac;
    (apply defined_modify_statistics; defined_tac).
Qed.

Lemma defined_prepare_fee d a f : defined (prepare_fee d a f).
Proof. unfold prepare_fee. defined_tac. Qed.
Local Hint Resolve defined_prepare_fee : defined.

Lemma defined_convert_fee sf g d : defined (convert_fee sf g d).
Proof. unfold convert_fee. defined_tac. apply defined_modify_asset_dyn. defined_tac. Qed.

Lemma defined_pay_fee sf g d : defined (pay_fee sf g d).
Proof.
  unfold pay_fee. defined_tac. apply defined_modify_statistics. unfold statistics_pay_fee. defined_tac.
Qed.

Lemma defined_apply {Op} {E : Evaluator Op} sf g st d (op : Op) :
  (∀ d1, same_ledger d d1 → defined (do_apply d1 op st)) → defined (apply sf g st d op).
Proof.
  intros Ha. unfold apply. apply defined_rbind_ok; [apply defined_convert_fee|]. intros d0 H0.
  apply defined_rbind_ok; [apply defined_pay_fee|]. intros d1 H1.
  defined_tac. apply Ha. by eapply fee_payment_ledger.
Qed.

Lemma defined_start_evaluate {Op} {E : Evaluator Op} sf sc req d (op : Op) :
  defined req → defined (do_evaluate d op) →
  (∀ d1 st, same_ledger d d1 → defined (do_apply d1 op st)) →
  defined (start_evaluate sf sc req d op).
Proof.
  intros Hr He Ha. unfold start_evaluate, evaluate. defined_tac; auto using defined_apply.
Qed.
End numbers.

#[export] Hint Resolve defined_index_get defined_index_remove defined_get_account defined_asset_neg
  defined_adjust_balance defined_deposit_fee defined_update_reputation defined_safe_sub
  defined_prepare_fee defined_modify_account : defined.
