(* ===== verification/Transfer.v ===== *)
(** * Transfers and sales ([transfer_evaluator.cpp], [protocol/transfer.cpp]) *)

From stdpp Require Import gmap strings.
From Stdlib Require Import ZArith Lia.
From S2P Require Import Prelude Fc Config Asset VestingBalance Objects Database Sample Balances Fees ObFee Reputation.

Local Open Scope Z_scope.

Record transfer_operation := mkTransfer {
  tr_fee : asset;
  tr_ob_fee : omnibazaar_fee_type;
  tr_from : Z;
  tr_to : Z;
  tr_amount : asset;
  tr_reputation_vote : Z;
  tr_listing : option Z;
  tr_listing_count : option Z
}.

Record override_transfer_operation := mkOverride {
  ov_fee : asset;
  ov_issuer : Z;
  ov_from : Z;
  ov_to : Z;
  ov_amount : asset
}.

Section operations.
Context {FC : FcArith}.

Definition transfer_validate (op : transfer_operation) : result unit :=
  FC_ASSERT (0 <=? amount (tr_fee op)) ;;
  FC_ASSERT (negb (tr_from op =? tr_to op)) ;;
  FC_ASSERT (0 <? amount (tr_amount op)) ;;
  FC_ASSERT ((OMNIBAZAAR_REPUTATION_MIN <=? tr_reputation_vote op)
             && (tr_reputation_vote op <=? OMNIBAZAAR_REPUTATION_MAX)) ;;
  let* _ := match tr_listing op with
            | Some _ => require (bool_decide (is_Some (tr_listing_count op))) assert_exception
            | None => Ok tt
            end in
  match tr_listing_count op with
  | Some n =>
      FC_ASSERT (0 <? n) ;;
      require (bool_decide (is_Some (tr_listing op))) assert_exception
  | None => Ok tt
  end.

Definition transfer_calculate_omnibazaar_fee (d : database) (op : transfer_operation)
    : result omnibazaar_fee_type :=
  match tr_listing op with
  | Some id =>
      let* l := index_get (db_listings d) id in
      set_sale_fees d l (tr_amount op) (tr_from op) (tr_to op) no_ob_fee
  | None => Ok no_ob_fee
  end.

Definition transfer_do_evaluate (d : database) (op : transfer_operation) : result unit :=
  let* from_account := get_account d (tr_from op) in
  let* to_account := get_account d (tr_to op) in
  let aid := asset_id (tr_amount op) in
  let* asset_type := get_asset_object d aid in
  GRAPHENE_ASSERT (is_authorized_asset d from_account aid asset_type)
    else transfer_from_account_not_whitelisted ;;
  GRAPHENE_ASSERT (is_authorized_asset d to_account aid asset_type)
    else transfer_to_account_not_whitelisted ;;
  GRAPHENE_ASSERT (if is_transfer_restricted asset_type
                   then (tr_from op =? as_issuer asset_type) || (tr_to op =? as_issuer asset_type)
                   else true) else transfer_restricted_transfer_asset ;;
  FC_ASSERT (amount (tr_amount op) <=? amount (get_balance d (tr_from op) aid)) ;;
  let* _ :=
    match tr_listing op with
    | Some id =>
        let* listing := index_get (db_listings d) id in
        let* count := of_option undefined_behaviour (tr_listing_count op) in
        FC_ASSERT (count <=? lo_quantity listing) ;;
        FC_ASSERT (aid =? asset_id (lo_price listing)) ;;
        let* cost := safe_mul (amount (lo_price listing)) count in
        FC_ASSERT (cost <=? amount (tr_amount op)) ;;
        require (tr_to op =? lo_seller listing) assert_exception
    | None => Ok tt
    end in
  let* required_ob_fees := transfer_calculate_omnibazaar_fee d op in
  let* enough := is_enough (tr_ob_fee op) required_ob_fees in
  FC_ASSERT enough ;;
  FC_ASSERT (bool_decide (publisher_fee (tr_ob_fee op) = None)) ;;
  FC_ASSERT (bool_decide (escrow_fee (tr_ob_fee op) = None)) ;;
  let* s := ob_sum (tr_ob_fee op) in
  require (s <=? amount (tr_amount op)) assert_exception.

(** [transfer_amount -= deposit_fee(...)]: the [share_type] becomes an asset
    of the core currency. *)
Definition pay_sale_fee (d : database) (account : Z) (f : option asset) (ty : balance_type)
    (transfer_amount : asset) : result (asset * database) :=
  let* (paid, d) := deposit_fee d account f ty in
  let* a := asset_sub transfer_amount (core_asset paid) in
  Ok (a, d).

Definition transfer_do_apply (d : database) (o : transfer_operation) : result database :=
  let* n := asset_neg (tr_amount o) in
  let* d := adjust_balance d (tr_from o) n in
  let* d := update_reputation d (tr_to o) (tr_from o) (tr_reputation_vote o) (tr_amount o) in
  let* (transfer_amount, d) :=
    match tr_listing o, tr_listing_count o with
    | Some id, Some count =>
        let* d := modify_listing d id
                    (λ l, Ok (set_quantity (λ q, wrap_u32 (q - count)) l)) in
        let* (a, d) := pay_sale_fee d OMNIBAZAAR_FOUNDER_ACCOUNT
                         (omnibazaar_fee (tr_ob_fee o)) founder_sale_fee (tr_amount o) in
        let* from_account := get_account d (tr_from o) in
        let* (a, d) := pay_sale_fee d (ao_referrer from_account)
                         (referrer_buyer_fee (tr_ob_fee o)) referrer_sale_fee a in
        let* to_account := get_account d (tr_to o) in
        pay_sale_fee d (ao_referrer to_account)
          (referrer_seller_fee (tr_ob_fee o)) referrer_sale_fee a
    | _, _ => Ok (tr_amount o, d)
    end in
  adjust_balance d (tr_to o) transfer_amount.

#[export] Instance transfer_evaluator : Evaluator transfer_operation := {
  ev_state := unit;
  op_fee_payer := tr_from;
  op_fee := tr_fee;
  do_evaluate := transfer_do_evaluate;
  do_apply := λ d op _, transfer_do_apply d op
}.

Definition override_transfer_validate (op : override_transfer_operation) : result unit :=
  FC_ASSERT (0 <=? amount (ov_fee op)) ;;
  FC_ASSERT (negb (ov_from op =? ov_to op)) ;;
  FC_ASSERT (0 <? amount (ov_amount op)) ;;
  require (negb (ov_issuer op =? ov_from op)) assert_exception.

Definition override_transfer_do_evaluate (d : database) (op : override_transfer_operation)
    : result unit :=
  let aid := asset_id (ov_amount op) in
  let* asset_type := get_asset_object d aid in
  GRAPHENE_ASSERT (can_override asset_type) else override_transfer_not_permitted ;;
  FC_ASSERT (as_issuer asset_type =? ov_issuer op) ;;
  let* from_account := get_account d (ov_from op) in
  let* to_account := get_account d (ov_to op) in
  FC_ASSERT (is_authorized_asset d to_account aid asset_type) ;;
  FC_ASSERT (is_authorized_asset d from_account aid asset_type) ;;
  FC_ASSERT (if head_block_time d <=? HARDFORK_419_TIME
             then is_authorized_asset d from_account aid asset_type else true) ;;
  require (amount (ov_amount op) <=? amount (get_balance d (ov_from op) aid)) assert_exception.

Definition override_transfer_do_apply (d : database) (o : override_transfer_operation)
    : result database :=
  let* n := asset_neg (ov_amount o) in
  let* d := adjust_balance d (ov_from o) n in
  adjust_balance d (ov_to o) (ov_amount o).

#[export] Instance override_transfer_evaluator : Evaluator override_transfer_operation := {
  ev_state := unit;
  op_fee_payer := ov_issuer;
  op_fee := ov_fee;
  do_evaluate := override_transfer_do_evaluate;
  do_apply := λ d op _, override_transfer_do_apply d op
}.
End operations.

(** What a sale deducts from the amount for the receiver. *)
Definition sale_deduction (o : transfer_operation) : Z :=
  match tr_listing o, tr_listing_count o with
  | Some _, Some _ =>
      fee_amount (omnibazaar_fee (tr_ob_fee o)) + fee_amount (referrer_buyer_fee (tr_ob_fee o))
      + fee_amount (referrer_seller_fee (tr_ob_fee o))
  | _, _ => 0
  end.

Section properties.
Context {FC : FcArith} {FCL : FcArithLaws FC} {BA : BoostArith}.

Lemma pay_sale_fee_ok d acct f ty a a' d' :
  pay_sale_fee d acct f ty a = Ok (a', d') →
  asset_id a = core_id ∧ a' = core_asset (amount a - fee_amount f) ∧
  moves d d' (core_delta (fee_amount f)) ∧ same_ledger d d'.
Proof.
  unfold pay_sale_fee. intros H. apply rbind_ok in H as ([x d1] & Hd & H). ok_inv.
  apply deposit_fee_ok in Hd as (-> & Hm & Hl).
  match goal with H : asset_sub _ _ = _ |- _ => apply asset_sub_ok in H as [E ->] end.
  simpl in *. rewrite E. done.
Qed.

(** The part of [do_apply] between the two balance adjustments. *)
Lemma sale_part_ok d o a d' :
  match tr_listing o, tr_listing_count o with
  | Some id, Some count =>
      let* d := modify_listing d id
                  (λ l, Ok (set_quantity (λ q, wrap_u32 (q - count)) l)) in
      let* (a, d) := pay_sale_fee d OMNIBAZAAR_FOUNDER_ACCOUNT
                       (omnibazaar_fee (tr_ob_fee o)) founder_sale_fee (tr_amount o) in
      let* from_account := get_account d (tr_from o) in
      let* (a, d) := pay_sale_fee d (ao_referrer from_account)
                       (referrer_buyer_fee (tr_ob_fee o)) referrer_sale_fee a in
      let* to_account := get_account d (tr_to o) in
      pay_sale_fee d (ao_referrer to_account)
        (referrer_seller_fee (tr_ob_fee o)) referrer_sale_fee a
  | _, _ => Ok (tr_amount o, d)
  end = Ok (a, d') →
  a = mkAsset (amount (tr_amount o) - sale_deduction o) (asset_id (tr_amount o)) ∧
  moves d d' (λ aid, amount_of aid (tr_amount o) - amount_of aid a) ∧
  db_balances d' = db_balances d ∧
  (∀ id count l, tr_listing o = Some id → tr_listing_count o = Some count →
     objs (db_listings d) !! id = Some l →
     asset_id (tr_amount o) = core_id ∧
     objs (db_listings d') !! id = Some (set_quantity (λ q, wrap_u32 (q - count)) l)).
Proof.
  unfold sale_deduction. intros H.
  destruct (tr_listing o) as [id|], (tr_listing_count o) as [count|];
    [|ok_inv; rewrite Z.sub_0_r; destruct (tr_amount o); split_and!; [done| |done|naive_solver];
      eapply moves_ext; [apply moves_refl|]; intros; simpl; lia..].
  apply rbind_ok in H as (d1 & H1 & H). apply rbind_ok in H as ([a2 d2] & H2 & H).
  apply rbind_ok in H as (fa & _ & H). apply rbind_ok in H as ([a3 d3] & H3 & H).
  apply rbind_ok in H as (ta & _ & H).
  pose proof (moves_modify_listing _ _ _ _ H1) as M1.
  apply pay_sale_fee_ok in H2 as (Hcore & -> & M2 & L2), H3 as (_ & -> & M3 & L3),
    H as (_ & -> & M4 & L4).
  assert (same_ledger d1 d') as (Lb & Ll & _) by (etrans; [exact L2|etrans; eassumption]).
  unfold modify_listing in H1. apply rbind_ok in H1 as (t & Ht & H1). ok_inv.
  rewrite Hcore. split_and!.
  - unfold core_asset; simpl. f_equal. lia.
  - eapply moves_ext; [eapply moves_trans; [exact M1|eapply moves_trans; [exact M2|
      eapply moves_trans; [exact M3|exact M4]]]|].
    intros aid; simpl. destruct (tr_amount o) as [x i]; simpl in *; subst i.
    change (mkAsset x core_id) with (core_asset x). unfold core_delta.
    rewrite !amount_of_core. case_match; lia.
  - exact Lb.
  - intros ? ? l [= <-] [= <-] Hl. split; [done|]. rewrite Ll. simpl.
    apply index_modify_ok in Ht as (v & v' & Hv & Hf & _ & ->). ok_inv. simpl.
    rewrite lookup_insert_eq. congruence.
Qed.

#[export] Instance transfer_conserves : EvaluatorConserves transfer_operation.
Proof.
  intros d0 d op st d' _ H. simpl in H. unfold transfer_do_apply in H.
  apply rbind_ok in H as (n & Hn & H). apply asset_neg_ok in Hn as ->.
  apply rbind_ok in H as (d1 & H1 & H). apply rbind_ok in H as (d2 & H2 & H).
  apply rbind_ok in H as ([a d3] & H3 & H).
  apply adjust_balance_moves in H1, H. apply update_reputation_conserves in H2.
  apply sale_part_ok in H3 as (_ & H3 & _).
  eapply moves_ext; [eapply moves_trans; [exact H1|eapply moves_trans; [exact H2|
    eapply moves_trans; [exact H3|exact H]]]|].
  intros aid; simpl. rewrite amount_of_neg. destruct (tr_amount op); simpl. lia.
Qed.

#[export] Instance override_transfer_conserves : EvaluatorConserves override_transfer_operation.
Proof.
  intros d0 d op st d' _ H. simpl in H. unfold override_transfer_do_apply in H. ok_inv.
  match goal with H : asset_neg _ = _ |- _ => apply asset_neg_ok in H as -> end.
  repeat match goal with H : adjust_balance _ _ _ = _ |- _ => apply adjust_balance_moves in H end.
  eapply moves_ext; [eapply moves_trans; eassumption|].
  intros aid; simpl. rewrite amount_of_neg. destruct (ov_amount op); simpl. lia.
Qed.

Lemma transfer_apply_balances d op d' :
  transfer_do_apply d op = Ok d' →
  let received := mkAsset (amount (tr_amount op) - sale_deduction op) (asset_id (tr_amount op)) in
  (∀ o i, amount (get_balance d' o i) =
     amount (get_balance d o i) - credit o i (tr_from op) (tr_amount op)
     + credit o i (tr_to op) received) ∧
  (∀ id count l, tr_listing op = Some id → tr_listing_count op = Some count →
     objs (db_listings d) !! id = Some l →
     asset_id (tr_amount op) = core_id ∧
     objs (db_listings d') !! id = Some (set_quantity (λ q, wrap_u32 (q - count)) l)).
Proof.
  intros H received. unfold transfer_do_apply in H.
  apply rbind_ok in H as (n & Hn & H). apply asset_neg_ok in Hn as ->.
  apply rbind_ok in H as (d1 & H1 & H). apply rbind_ok in H as (d2 & H2 & H).
  apply rbind_ok in H as ([a d3] & H3 & H).
  pose proof (adjust_balance_listings _ _ _ _ H1) as [L1 _].
  pose proof (adjust_balance_listings _ _ _ _ H) as [L4 _].
  apply update_reputation_ledger in H2 as L2. apply adjust_balance_get in H1 as [_ G1], H as [_ G4].
  apply sale_part_ok in H3 as (-> & _ & B3 & L3). fold received in G4. split.
  - intros o i. rewrite G4. unfold get_balance at 1. rewrite B3.
    change (match _ with None => _ | Some _ => _ end) with (get_balance d2 o i).
    rewrite (same_ledger_balance d1 d2) by done. rewrite G1. simpl.
    unfold credit; simpl. repeat case_decide; lia.
  - intros id count l Hid Hc Hl. destruct L2 as (_ & L2 & _).
    rewrite L4. apply (L3 id count l Hid Hc). by rewrite L2, L1.
Qed.

Lemma transfer_evaluate_sale d op u id l :
  transfer_do_evaluate d op = Ok u → tr_listing op = Some id →
  objs (db_listings d) !! id = Some l →
  ∃ count, tr_listing_count op = Some count ∧ count <= lo_quantity l ∧
    amount (lo_price l) * count <= amount (tr_amount op) ∧ tr_to op = lo_seller l ∧
    asset_id (tr_amount op) = asset_id (lo_price l).
Proof.
  unfold transfer_do_evaluate, index_get. intros H Hid Hl. rewrite Hid, Hl in H.
  ok_inv. safe_inv. eexists. split; [done|]. lia.
Qed.

(** C14.  A transfer, run with its fee: the sender pays exactly the amount and
    the fee, no balance of a third account changes, and a transfer from which
    no sale fees are deducted -- one without a listing, or a sale that names
    none -- gives the receiver exactly the amount.  (Where sale fees are
    deducted, the documentation of the operation and the code differ.)  In a
    sale the currency is the core currency, the amount covers the price of all
    items, and the stock of the listing falls by exactly the number of items
    bought, without wrapping around. *)
Theorem transfer_effect skip_check required d op d' :
  transfer_validate op = Ok tt →
  start_evaluate false skip_check required d op = Ok d' →
  let paid o i := credit o i (tr_from op) (tr_amount op) + credit o i (tr_from op) (tr_fee op) in
  (∀ o i, o ≠ tr_to op → amount (get_balance d' o i) = amount (get_balance d o i) - paid o i) ∧
  (sale_deduction op = 0 → ∀ i, amount (get_balance d' (tr_to op) i) =
     amount (get_balance d (tr_to op) i) + credit (tr_to op) i (tr_to op) (tr_amount op) - paid (tr_to op) i) ∧
  (∀ id l, tr_listing op = Some id → objs (db_listings d) !! id = Some l →
     lo_quantity l < 2 ^ 32 →
     asset_id (tr_amount op) = core_id ∧
     ∃ count l', tr_listing_count op = Some count ∧ 0 < count ∧
       amount (lo_price l) * count <= amount (tr_amount op) ∧
       objs (db_listings d') !! id = Some l' ∧
       lo_quantity l' = lo_quantity l - count ∧ 0 <= lo_quantity l').
Proof.
  intros Hv (st & d1 & d2 & Hev & Hl & _ & Happ & H)%start_evaluate_ok paid. simpl in *.
  apply transfer_apply_balances in Happ as [Hb Hq].
  pose proof (adjust_balance_listings _ _ _ _ H) as [L _].
  apply adjust_balance_get in H as [_ G]. split_and!.
  - intros o i Ho. rewrite G, Hb, (same_ledger_balance _ _ o i Hl). simpl.
    unfold paid, credit; simpl. repeat case_decide; lia || naive_solver.
  - intros E i. rewrite G, Hb, (same_ledger_balance _ _ (tr_to op) i Hl), E, Z.sub_0_r. simpl.
    unfold paid, credit; simpl. repeat case_decide; lia.
  - intros id l Hid Hlk Hr.
    destruct (transfer_evaluate_sale _ _ _ _ _ Hev Hid Hlk) as (count & Hc & Hle & Hp & _).
    destruct Hl as (_ & Hl & _). rewrite <- Hl in Hlk.
    destruct (Hq id count l Hid Hc Hlk) as [Hcore Hl'].
    assert (0 < count) as Hpos.
    { unfold transfer_validate in Hv. rewrite Hid, Hc in Hv. ok_inv. lia. }
    split; [done|]. exists count. eexists. rewrite L.
    split_and!; [done..|exact Hl'|simpl; rewrite wrap_u32_small; lia|simpl; apply wrap_u32_range].
Qed.
End properties.

(** Alice buys two items of Bob's listing. *)
Definition sample_sale : transfer_operation :=
  mkTransfer (core_asset 5) (mkObFee (Some (core_asset 2)) None None None None)
    alice bob (core_asset 200) 10 (Some 0) (Some 2).

Definition run_transfer (op : transfer_operation) : result database :=
  start_evaluate (FC := fc_reference) (BA := boost_reference)
    (E := transfer_evaluator (FC := fc_reference)) false false (Ok 5) sample_db op.

Lemma transfer_effect_witness :
  let d' := get_ok (run_transfer sample_sale) sample_db in
  amount (get_balance d' alice 0) = amount (get_balance sample_db alice 0) - 205 ∧
  ∃ l', objs (db_listings d') !! 0 = Some l' ∧ 0 <= lo_quantity l'.
Proof.
  intros d'.
  destruct (transfer_effect (FCL := fc_reference_laws) (BA := boost_reference)
    false (Ok 5) sample_db sample_sale d') as (H & _ & Hs).
  - reflexivity.
  - apply get_ok_eq. vm_compute. reflexivity.
  - split.
    + rewrite H; [vm_compute; reflexivity|discriminate].
    + destruct (objs (db_listings sample_db) !! 0) as [l|] eqn:El; [|vm_compute in El; discriminate El].
      destruct (Hs 0 l) as (_ & count & l' & _ & _ & _ & Hl' & _ & Hq); [reflexivity|exact El| |].
      * vm_compute in El. injection El as <-. reflexivity.
      * exists l'. split; [exact Hl'|exact Hq].
Defined.

(** The same sale, as an instance of the framework's conservation theorem. *)
Lemma start_evaluate_conserves_witness :
  let d' := get_ok (run_transfer sample_sale) sample_db in
  imbalance 0 d' = 0 ∧ imbalance 1 d' = 0.
Proof.
  intros d'.
  assert (conserves sample_db d') as H.
  { apply (start_evaluate_conserves (FCL := fc_reference_laws) (BA := boost_reference)
      (EC := transfer_conserves (FCL := fc_reference_laws)) false (Ok 5) sample_db sample_sale).
    apply get_ok_eq. vm_compute. reflexivity. }
  destruct (H sample_db_wf) as [_ E]. rewrite !E.
  destruct sample_db_balanced as [-> ->]. done.
Defined.

(** The fees an operation names are only checked against the fees the
    chain demands, and their sum against the amount, never for their sign.
    A fee that is not demanded can be negative: Alice pays Bob 100 with a
    buyer's referrer fee of minus a million; the operation is valid, Bob
    receives the million on top, and the supply of the core currency grows by
    it. *)
Theorem transfer_negative_fee_mints :
  let op := mkTransfer (core_asset 5)
              (mkObFee (Some (core_asset 1)) None (Some (core_asset (-1000000))) None None)
              alice bob (core_asset 100) 5 (Some 0) (Some 1) in
  transfer_validate op = Ok tt ∧
  ∃ d', run_transfer op = Ok d' ∧
    amount (get_balance d' bob 0) = amount (get_balance sample_db bob 0) + 100 - 1 + 1000000 ∧
    amount (get_balance d' alice 0) = amount (get_balance sample_db alice 0) - 100 - 5 ∧
    current_supply 0 d' = current_supply 0 sample_db + 1000000.
Proof.
  intros op. split; [reflexivity|]. exists (get_ok (run_transfer op) sample_db).
  split_and!; [apply get_ok_eq| | |]; vm_compute; reflexivity.
Qed.
