(* ===== verification/Listing.v ===== *)
(** * Marketplace listings

    The operations of [omnibazaar/listing.cpp], their evaluators
    ([omnibazaar/listing_evaluator.cpp]) and the removal of expired listings
    ([db_update.cpp], [clear_expired_listings]). *)

From stdpp Require Import gmap strings.
From Stdlib Require Import ZArith Lia.
From S2P Require Import Prelude Fc Config Asset VestingBalance Objects Database Sample Balances Fees ObFee Reputation.

Local Open Scope Z_scope.

Record listing_create_operation := mkListingCreate {
  lc_fee : asset;
  lc_ob_fee : omnibazaar_fee_type;
  lc_seller : Z;
  lc_publisher : Z;
  lc_price : asset;
  lc_listing_hash : Z;
  lc_quantity : Z;
  lc_priority_fee : Z
}.

Record listing_update_operation := mkListingUpdate {
  lu_fee : asset;
  lu_ob_fee : omnibazaar_fee_type;
  lu_seller : Z;
  lu_listing_id : Z;
  lu_publisher : option Z;
  lu_price : option asset;
  lu_listing_hash : option Z;
  lu_quantity : option Z;
  lu_update_expiration_time : bool;
  lu_priority_fee : option Z
}.

Record listing_delete_operation := mkListingDelete {
  ld_fee : asset;
  ld_seller : Z;
  ld_listing_id : Z
}.

Record listing_report_operation := mkListingReport {
  lr_fee : asset;
  lr_reporting_account : Z;
  lr_listing_id : Z
}.

Section operations.
Context {FC : FcArith}.

Definition listing_create_validate (op : listing_create_operation) : result unit :=
  FC_ASSERT (0 <? amount (lc_fee op)) ;;
  FC_ASSERT (0 <? amount (lc_price op)) ;;
  require (asset_id (lc_price op) =? core_id) assert_exception.

(** The publisher's cut of a price within the limits of the chain parameters. *)
Definition limited_publisher_fee (d : database) (price percent : Z) : result Z :=
  let* f := cut_fee price percent in
  let f := match cp_publisher_fee_min (parameters d) with Some m => Z.max f m | None => f end in
  let f := match cp_publisher_fee_max (parameters d) with Some m => Z.min f m | None => f end in
  Ok f.

Definition only_publisher_fee (f : option asset) : omnibazaar_fee_type :=
  mkObFee None None None None f.

Definition listing_create_calculate_omnibazaar_fee (d : database) (op : listing_create_operation)
    : result omnibazaar_fee_type :=
  if negb (lc_seller op =? lc_publisher op) then
    let* p := get_account d (lc_publisher op) in
    let* f := limited_publisher_fee d (amount (lc_price op)) (ao_publisher_fee p) in
    Ok (only_publisher_fee (positive_fee f (asset_id (lc_price op))))
  else Ok no_ob_fee.

(** No fee but the publisher's. *)
Definition no_other_fees (f : omnibazaar_fee_type) : bool :=
  bool_decide (escrow_fee f = None) && bool_decide (omnibazaar_fee f = None)
  && bool_decide (referrer_buyer_fee f = None) && bool_decide (referrer_seller_fee f = None).

Definition hash_exists (d : database) (h : Z) : bool :=
  existsb (λ kv, lo_listing_hash kv.2 =? h) (map_to_list (objs (db_listings d))).

Definition listing_create_do_evaluate (d : database) (op : listing_create_operation)
    : result unit :=
  let* publisher := get_account d (lc_publisher op) in
  FC_ASSERT (ao_is_a_publisher publisher) ;;
  FC_ASSERT (negb (hash_exists d (lc_listing_hash op))) ;;
  let* required_ob_fees := listing_create_calculate_omnibazaar_fee d op in
  let* enough := is_enough (lc_ob_fee op) required_ob_fees in
  FC_ASSERT enough ;;
  FC_ASSERT (no_other_fees (lc_ob_fee op)) ;;
  let* _ :=
    if head_block_time d <? HARDFORK_OM_749_TIME
    then let* s := ob_sum (lc_ob_fee op) in require (s <=? amount (lc_price op)) assert_exception
    else Ok tt in
  let* _ :=
    match publisher_fee (lc_ob_fee op) with
    | Some f =>
        let seller_balance := amount (get_balance d (lc_seller op) (asset_id (lc_price op))) in
        let* total := safe_add (amount f) (amount (lc_fee op)) in
        require (total <=? seller_balance) assert_exception
    | None => Ok tt
    end in
  require (lc_priority_fee op <=? cp_maximum_listing_priority_fee (parameters d)) assert_exception.

(** Paying the publisher, shared by creation and update. *)
Definition pay_publisher (d : database) (seller publisher : Z) (f : option asset)
    : result database :=
  match f with
  | Some x =>
      let* n := asset_neg x in
      let* d := adjust_balance d seller n in
      let* (_, d) := deposit_fee d publisher f publisher_fee_type in
      Ok d
  | None => Ok d
  end.

Definition inc_listings : account_object → account_object :=
  set_listings_count (λ n, wrap_u64 (n + 1)).
Definition dec_listings : account_object → account_object :=
  set_listings_count (λ n, if 0 <? n then n - 1 else n).

Definition listing_create_do_apply (d : database) (op : listing_create_operation)
    : result (Z * database) :=
  let* seller := get_account d (lc_seller op) in
  let now := head_block_time d in
  let* (id, t) := index_create listing_clash (db_listings d)
    (mkListing (lc_seller op) (lc_publisher op) (lc_price op) (lc_listing_hash op)
       (lc_quantity op) (time_add now (cp_maximum_listing_lifetime (parameters d)))
       (ao_pop_score seller) 0 ∅ (lc_priority_fee op) now now) in
  let d := set_listings (λ _, t) d in
  let* d := pay_publisher d (lc_seller op) (lc_publisher op) (publisher_fee (lc_ob_fee op)) in
  let* d := modify_account d (lc_publisher op) inc_listings in
  Ok (id, d).

#[export] Instance listing_create_evaluator : Evaluator listing_create_operation := {
  ev_state := unit;
  op_fee_payer := lc_seller;
  op_fee := lc_fee;
  do_evaluate := listing_create_do_evaluate;
  do_apply := λ d op _, let* r := listing_create_do_apply d op in Ok r.2
}.

Definition listing_update_validate (op : listing_update_operation) : result unit :=
  FC_ASSERT (0 <? amount (lu_fee op)) ;;
  FC_ASSERT (match lu_price op with Some p => asset_id p =? core_id | None => true end) ;;
  require (bool_decide (is_Some (lu_publisher op)) || bool_decide (is_Some (lu_price op))
           || bool_decide (is_Some (lu_listing_hash op)) || bool_decide (is_Some (lu_quantity op))
           || lu_update_expiration_time op || bool_decide (is_Some (lu_priority_fee op)))
    assert_exception.

Definition listing_update_calculate_omnibazaar_fee (d : database) (op : listing_update_operation)
    : result omnibazaar_fee_type :=
  let* final_publisher :=
    match lu_publisher op with
    | Some p => Ok p
    | None => let* l := index_get (db_listings d) (lu_listing_id op) in Ok (lo_publisher l)
    end in
  if final_publisher =? lu_seller op then Ok no_ob_fee
  else if bool_decide (is_Some (lu_publisher op))
          || ((head_block_time d <? HARDFORK_OM_774_TIME) && lu_update_expiration_time op) then
    let* final_price :=
      match lu_price op with
      | Some p => Ok p
      | None => let* l := index_get (db_listings d) (lu_listing_id op) in Ok (lo_price l)
      end in
    let* p := get_account d final_publisher in
    let* f := limited_publisher_fee d (amount final_price) (ao_publisher_fee p) in
    Ok (only_publisher_fee (positive_fee f (asset_id final_price)))
  else Ok no_ob_fee.

Definition listing_update_do_evaluate (d : database) (op : listing_update_operation)
    : result unit :=
  let* listing := index_get (db_listings d) (lu_listing_id op) in
  FC_ASSERT (lu_seller op =? lo_seller listing) ;;
  let* _ :=
    match lu_publisher op with
    | Some p => let* publisher := get_account d p in
                require (ao_is_a_publisher publisher) assert_exception
    | None => Ok tt
    end in
  FC_ASSERT (match lu_listing_hash op with Some h => negb (hash_exists d h) | None => true end) ;;
  let* required_ob_fees := listing_update_calculate_omnibazaar_fee d op in
  let* enough := is_enough (lu_ob_fee op) required_ob_fees in
  FC_ASSERT enough ;;
  FC_ASSERT (no_other_fees (lu_ob_fee op)) ;;
  let* _ :=
    if head_block_time d <? HARDFORK_OM_749_TIME
    then let* s := ob_sum (lu_ob_fee op) in
         require (s <=? amount (default (lo_price listing) (lu_price op))) assert_exception
    else Ok tt in
  let* _ :=
    match publisher_fee (lu_ob_fee op) with
    | Some f =>
        let seller_balance := amount (get_balance d (lu_seller op) (asset_id f)) in
        let* total := safe_add (amount f) (amount (lu_fee op)) in
        require (total <=? seller_balance) assert_exception
    | None => Ok tt
    end in
  match lu_priority_fee op with
  | Some p => require (p <=? cp_maximum_listing_priority_fee (parameters d)) assert_exception
  | None => Ok tt
  end.

Definition updated_listing (d : database) (op : listing_update_operation) (l : listing_object)
    : listing_object :=
  mkListing (lo_seller l)
    (default (lo_publisher l) (lu_publisher op))
    (default (lo_price l) (lu_price op))
    (default (lo_listing_hash l) (lu_listing_hash op))
    (default (lo_quantity l) (lu_quantity op))
    (if lu_update_expiration_time op
     then time_add (head_block_time d) (cp_maximum_listing_lifetime (parameters d))
     else lo_expiration_time l)
    (lo_seller_score l) (lo_reported_score l) (lo_reported_accounts l)
    (default (lo_priority_fee l) (lu_priority_fee op))
    (lo_created_at l) (head_block_time d).

Definition listing_update_do_apply (d : database) (op : listing_update_operation)
    : result database :=
  let* d :=
    match lu_publisher op with
    | Some p =>
        let* listing := index_get (db_listings d) (lu_listing_id op) in
        let* d := modify_account d (lo_publisher listing) dec_listings in
        modify_account d p inc_listings
    | None => Ok d
    end in
  let* d := modify_listing d (lu_listing_id op) (λ l, Ok (updated_listing d op l)) in
  match publisher_fee (lu_ob_fee op) with
  | Some f =>
      let* listing := index_get (db_listings d) (lu_listing_id op) in
      pay_publisher d (lo_seller listing) (lo_publisher listing) (Some f)
  | None => Ok d
  end.

#[export] Instance listing_update_evaluator : Evaluator listing_update_operation := {
  ev_state := unit;
  op_fee_payer := lu_seller;
  op_fee := lu_fee;
  do_evaluate := listing_update_do_evaluate;
  do_apply := λ d op _, listing_update_do_apply d op
}.

Definition listing_delete_validate (op : listing_delete_operation) : result unit :=
  require (0 <=? amount (ld_fee op)) assert_exception.

Definition listing_delete_do_evaluate (d : database) (op : listing_delete_operation)
    : result unit :=
  let* listing := index_get (db_listings d) (ld_listing_id op) in
  require (ld_seller op =? lo_seller listing) assert_exception.

(** Removing a listing and taking it off its publisher's count. *)
Definition remove_listing (d : database) (id : Z) : result database :=
  let* listing := index_get (db_listings d) id in
  let* d := modify_account d (lo_publisher listing) dec_listings in
  let* t := index_remove (db_listings d) id in
  Ok (set_listings (λ _, t) d).

Definition listing_delete_do_apply (d : database) (op : listing_delete_operation)
    : result database := remove_listing d (ld_listing_id op).

#[export] Instance listing_delete_evaluator : Evaluator listing_delete_operation := {
  ev_state := unit;
  op_fee_payer := ld_seller;
  op_fee := ld_fee;
  do_evaluate := listing_delete_do_evaluate;
  do_apply := λ d op _, listing_delete_do_apply d op
}.

Definition listing_report_validate (op : listing_report_operation) : result unit :=
  require (0 <=? amount (lr_fee op)) assert_exception.

Definition listing_report_do_evaluate (d : database) (op : listing_report_operation)
    : result unit :=
  let* a := get_account d (lr_reporting_account op) in
  FC_ASSERT (0 <? ao_pop_score a) ;;
  let* listing := index_get (db_listings d) (lr_listing_id op) in
  require (bool_decide (lr_reporting_account op ∉ lo_reported_accounts listing)) assert_exception.

Definition listing_report_do_apply (d : database) (op : listing_report_operation)
    : result database :=
  let* reporting_account := get_account d (lr_reporting_account op) in
  let* listing := index_get (db_listings d) (lr_listing_id op) in
  let future_score := wrap_u32 (lo_reported_score listing + ao_pop_score reporting_account) in
  let ban_listing :=
    if lo_seller_score listing <=? 0 then true
    else cp_listing_ban_threshold (parameters d) <=? future_score / lo_seller_score listing in
  if ban_listing then remove_listing d (lr_listing_id op)
  else modify_listing d (lr_listing_id op) (λ l,
         Ok (set_reported_accounts (λ s, {[ lr_reporting_account op ]} ∪ s)
               (set_reported_score (λ s, wrap_u32 (s + ao_pop_score reporting_account)) l))).

#[export] Instance listing_report_evaluator : Evaluator listing_report_operation := {
  ev_state := unit;
  op_fee_payer := lr_reporting_account;
  op_fee := lr_fee;
  do_evaluate := listing_report_do_evaluate;
  do_apply := λ d op _, listing_report_do_apply d op
}.
End operations.

(** ** Expired listings *)

(** The first object of an index ordered by [key]; among equal keys the one
    with the least id.  (The index of the source keeps equal keys in the order
    of their insertion; no theorem below depends on the choice.) *)
Definition first_by {V} (key : V → Z) (m : gmap Z V) : option (Z * V) :=
  map_fold (λ k v acc,
    match acc with
    | None => Some (k, v)
    | Some (k', v') =>
        if (key v <? key v') || ((key v =? key v') && (k <? k')) then Some (k, v) else acc
    end) None m.

Section clear.
Context {FC : FcArith} {BA : BoostArith}.

(** The lambda [clear_listing]: a delete operation without a fee inside an
    undo session; when it fails the session is undone and the exception is
    swallowed.  [required] is the fee the schedule demands for it. *)
Definition clear_listing (required : result Z) (d : database) (id : Z) (l : listing_object)
    : result database :=
  let op := mkListingDelete (core_asset 0) (lo_seller l) id in
  let* _ := listing_delete_validate op in
  try_catch (start_evaluate false false required d op) (Ok d).

(** When the loop regards a listing as expired. *)
Definition listing_key (d : database) (l : listing_object) : Z :=
  if head_block_time d <? HARDFORK_OM_774_TIME then lo_expiration_time l else lo_updated_at l.
Definition listing_expired (d : database) (l : listing_object) : bool :=
  if head_block_time d <? HARDFORK_OM_774_TIME
  then lo_expiration_time l <=? head_block_time d
  else time_add (lo_updated_at l) (cp_maximum_listing_lifetime (parameters d))
       <=? head_block_time d.

Fixpoint clear_expired_listings (fuel : nat) (required : result Z) (d : database)
    : result database :=
  match first_by (listing_key d) (objs (db_listings d)) with
  | None => Ok d
  | Some (id, l) =>
      if listing_expired d l then
        match fuel with
        | O => Throw out_of_fuel
        | S fuel' =>
            let* d' := clear_listing required d id l in
            clear_expired_listings fuel' required d'
        end
      else Ok d
  end.
End clear.

(** ** Properties *)

Section conservation.
Context {FC : FcArith} {FCL : FcArithLaws FC} {BA : BoostArith}.

(** What paying a publisher does to the books: the seller pays in the
    currency of the fee, the publisher receives core currency. *)
Definition publisher_fee_gain (f : option asset) (aid : Z) : Z :=
  match f with Some x => core_delta (amount x) aid - amount_of aid x | None => 0 end.

Lemma publisher_fee_gain_core f :
  from_option asset_id core_id f = core_id → ∀ aid, publisher_fee_gain f aid = 0.
Proof.
  intros Hf aid. destruct f as [[x i]|]; simpl in *; [subst|done].
  unfold core_delta. change (mkAsset x core_id) with (core_asset x). lia.
Qed.

Lemma pay_publisher_moves d seller publisher f d' :
  pay_publisher d seller publisher f = Ok d' → moves d d' (publisher_fee_gain f).
Proof.
  unfold pay_publisher. intros H. destruct f as [x|]; ok_inv; [|apply moves_refl].
  apply asset_neg_ok in Hx as ->. destruct x2 as [y d2]. ok_inv.
  apply deposit_fee_ok in Hx1 as (-> & Hm & _). apply adjust_balance_moves in Hx0.
  eapply moves_ext; [eapply moves_trans; eassumption|].
  intros aid; simpl. rewrite amount_of_neg. destruct x; simpl. lia.
Qed.

Lemma listing_create_moves d op id d' :
  listing_create_do_apply d op = Ok (id, d') →
  moves d d' (publisher_fee_gain (publisher_fee (lc_ob_fee op))).
Proof.
  unfold listing_create_do_apply. intros H. apply rbind_ok in H as (s & _ & H).
  apply rbind_ok in H as ([i t] & _ & H). apply rbind_ok in H as (d1 & H1 & H). ok_inv.
  apply pay_publisher_moves in H1.
  eapply moves_conserves_l; [apply moves_set_listings|].
  eapply moves_conserves_r; [exact H1|]. by eapply moves_modify_account.
Qed.

Lemma listing_update_moves d op d' :
  listing_update_do_apply d op = Ok d' →
  moves d d' (publisher_fee_gain (publisher_fee (lu_ob_fee op))).
Proof.
  unfold listing_update_do_apply. intros H. apply rbind_ok in H as (d1 & H1 & H).
  apply rbind_ok in H as (d2 & H2 & H).
  assert (conserves d d1) as M1.
  { destruct (lu_publisher op); ok_inv; [|apply moves_refl].
    eapply moves_conserves_l; eapply moves_modify_account; eassumption. }
  apply moves_modify_listing in H2.
  eapply moves_conserves_l; [exact M1|]. eapply moves_conserves_l; [exact H2|].
  destruct (publisher_fee (lu_ob_fee op)); ok_inv; [by eapply pay_publisher_moves|apply moves_refl].
Qed.

Lemma remove_listing_ok d id d' :
  remove_listing d id = Ok d' →
  ∃ l a, objs (db_listings d) !! id = Some l ∧
    objs (db_accounts d) !! lo_publisher l = Some a ∧
    d' = set_listings (λ t, mkTable (delete id (objs t)) (next_id t))
           (set_accounts (λ t, mkTable (<[lo_publisher l := dec_listings a]> (objs t)) (next_id t)) d).
Proof.
  unfold remove_listing, modify_account, get_account, index_get. intros H. ok_inv.
  match goal with H : index_remove _ _ = _ |- _ => apply index_remove_ok in H as [_ ->] end.
  eauto 10.
Qed.

Lemma remove_listing_moves d id d' : remove_listing d id = Ok d' → conserves d d'.
Proof.
  intros (l & a & _ & _ & ->)%remove_listing_ok.
  eapply moves_conserves_l; [apply moves_set_accounts|apply moves_set_listings].
Qed.

#[export] Instance listing_delete_conserves : EvaluatorConserves listing_delete_operation.
Proof. intros d0 d op st d' _ H. eapply remove_listing_moves. exact H. Qed.

#[export] Instance listing_report_conserves : EvaluatorConserves listing_report_operation.
Proof.
  intros d0 d op st d' _ H. simpl in H. unfold listing_report_do_apply in H.
  apply rbind_ok in H as (a & _ & H). apply rbind_ok in H as (l & _ & H).
  case_in H; [by eapply remove_listing_moves|by eapply moves_modify_listing].
Qed.

(** Publishing a listing, run with its operation fee, changes the books
    of the chain by exactly the publisher fee taken in its own currency and
    given in core currency: nothing is created or destroyed when that fee is
    in core currency or absent, and the fee the chain demands from a seller
    who uses another publisher is in core currency. *)
Theorem listing_create_conserves skip_check required d op d' :
  listing_create_validate op = Ok tt →
  start_evaluate false skip_check required d op = Ok d' →
  moves d d' (publisher_fee_gain (publisher_fee (lc_ob_fee op))) ∧
  (from_option asset_id core_id (publisher_fee (lc_ob_fee op)) = core_id → conserves d d') ∧
  (∀ r f, listing_create_calculate_omnibazaar_fee d op = Ok r → publisher_fee r = Some f →
     conserves d d').
Proof.
  intros Hv (st & d1 & d2 & Hev & _ & Hfee & Happ & Hadj)%start_evaluate_ok.
  simpl in *. apply rbind_ok in Happ as ([id d3] & Happ & Hd3). simpl in Hd3. ok_inv.
  apply listing_create_moves in Happ. apply adjust_balance_moves in Hadj.
  assert (moves d d' (publisher_fee_gain (publisher_fee (lc_ob_fee op)))) as Hm.
  { eapply moves_ext; [eapply moves_trans; [by apply Hfee|eapply moves_trans; eassumption]|].
    intros aid; simpl. rewrite amount_of_neg. destruct (lc_fee op); simpl. lia. }
  split; [done|]. split.
  - intros Hc. eapply moves_ext; [exact Hm|]. by apply publisher_fee_gain_core.
  - intros r f Hr Hf. eapply moves_ext; [exact Hm|]. apply publisher_fee_gain_core.
    unfold listing_create_do_evaluate in Hev. rewrite Hr in Hev.
    apply rbind_ok in Hev as (p & _ & Hev). apply rbind_ok in Hev as (u1 & _ & Hev).
    apply rbind_ok in Hev as (u2 & _ & Hev). cbn [rbind] in Hev.
    apply rbind_ok in Hev as (b & Hen & _). unfold is_enough in Hen.
    do 4 apply rbind_ok in Hen as (? & _ & Hen). apply rbind_ok in Hen as (? & Hen & _).
    destruct (fee_is_enough_ok _ _ _ Hen f Hf) as (y & -> & Hy & _). simpl. rewrite Hy.
    unfold listing_create_calculate_omnibazaar_fee in Hr. unfold listing_create_validate in Hv.
    case_in Hr; ok_inv; [|done]. unfold positive_fee in Hf. simpl in Hf.
    case_match; simplify_eq. simpl. lia.
Qed.
End conservation.

(** A publisher fee the chain does not demand may be in any currency, but
    is deposited as core currency.  Bob, who hosts his own listing, updates it
    naming a publisher fee of 500 units of his own token; the operation is
    valid and succeeds, 500 units of core currency are created in a vesting
    balance and 500 units of the token disappear. *)
Theorem listing_update_mints_core :
  let d := set_balances (<[(bob, 1) := 600]>) (set_listings (λ _,
             mkTable {[ 0 := mkListing bob bob (core_asset 100) 77 40 1572000000 0 0 ∅ 100 0 0 ]} 1)
             sample_db) in
  let op := mkListingUpdate (core_asset 20) (only_publisher_fee (Some (mkAsset 500 1)))
              bob 0 None None None (Some 41) false None in
  listing_update_validate op = Ok tt ∧
  ∃ d', start_evaluate (FC := fc_reference) (BA := boost_reference)
          (E := listing_update_evaluator (FC := fc_reference)) false false (Ok 20) d op = Ok d' ∧
    imbalance 0 d' = imbalance 0 d + 500 ∧ imbalance 1 d' = imbalance 1 d - 500 ∧
    current_supply 0 d' = current_supply 0 d ∧
    held_vesting 0 (objs (db_vesting d')) = held_vesting 0 (objs (db_vesting d)) + 500.
Proof.
  intros d op. split; [reflexivity|].
  exists (get_ok (start_evaluate (FC := fc_reference) (BA := boost_reference)
          (E := listing_update_evaluator (FC := fc_reference)) false false (Ok 20) d op) d).
  split_and!; [apply get_ok_eq| | | |]; vm_compute; reflexivity.
Qed.

(** Bob publishes with Carol and pays her the 1/4 % she demands. *)
Lemma listing_create_conserves_witness :
  let op := mkListingCreate (core_asset 20) (only_publisher_fee (Some (core_asset 10)))
              bob carol (core_asset 4000) 78 5 100 in
  let d' := get_ok (start_evaluate (FC := fc_reference) (BA := boost_reference)
     (E := listing_create_evaluator (FC := fc_reference)) false false (Ok 20) sample_db op) sample_db in
  conserves sample_db d'.
Proof.
  intros op d'.
  destruct (listing_create_conserves (FCL := fc_reference_laws) (BA := boost_reference)
    false (Ok 20) sample_db op d') as (_ & H & _).
  - reflexivity.
  - apply get_ok_eq. vm_compute. reflexivity.
  - apply H. reflexivity.
Defined.
