(* ===== verification/ListingInv.v ===== *)
(** * Invariants of the listing table

    The hash of a listing is unique and every account knows how many listings
    it publishes; every operation on listings preserves both.  The loop that
    removes expired listings ends, and what can keep it from ending. *)

From stdpp Require Import gmap strings.
From Stdlib Require Import ZArith Lia.
From S2P Require Import Prelude Fc Config Asset VestingBalance Objects Database Sample Balances Fees ObFee Reputation Exceptions Transfer Listing.

Local Open Scope Z_scope.

(** The number of listings that [p] publishes. *)
Definition published (p : Z) (m : gmap Z listing_object) : Z :=
  msum (λ _ l, if lo_publisher l =? p then 1 else 0) m.

Definition counts_wf (d : database) : Prop :=
  ∀ p n, listings_count d p = Some n → n = published p (objs (db_listings d)).
Definition hashes_unique (d : database) : Prop :=
  ∀ i j l m, objs (db_listings d) !! i = Some l → objs (db_listings d) !! j = Some m →
    lo_listing_hash l = lo_listing_hash m → i = j.
Definition listings_wf (d : database) : Prop := counts_wf d ∧ hashes_unique d.

(** Fewer listings than a [uint64_t] can count. *)
Definition listings_few (d : database) : Prop :=
  msum (λ _ _, 1) (objs (db_listings d)) < 2 ^ 64 - 1.

Lemma published_range p m : 0 <= published p m <= msum (λ _ _, 1) m.
Proof.
  split; [apply msum_nonneg|apply msum_le]; intros; case_match; lia.
Qed.

Lemma published_pos p m id l : m !! id = Some l → lo_publisher l = p → 1 <= published p m.
Proof.
  intros Hl Hp. unfold published.
  apply (msum_lookup_le (λ _ l, if lo_publisher l =? p then 1 else 0) m id l) in Hl.
  - rewrite Hp, Z.eqb_refl in Hl. done.
  - intros. case_match; lia.
Qed.

Lemma published_insert p m id l :
  published p (<[id := l]> m) = published p m + (if lo_publisher l =? p then 1 else 0)
    - from_option (λ l, if lo_publisher l =? p then 1 else 0) 0 (m !! id).
Proof. unfold published. rewrite msum_insert. lia. Qed.

Lemma listings_wf_same d d' :
  db_listings d' = db_listings d → (∀ p, listings_count d' p = listings_count d p) →
  listings_wf d → listings_wf d'.
Proof.
  intros Hl Hc [H1 H2]. split.
  - intros p n. rewrite Hc, Hl. apply H1.
  - unfold hashes_unique. rewrite Hl. apply H2.
Qed.

Lemma same_ledger_wf d d' : same_ledger d d' → listings_wf d → listings_wf d'.
Proof. intros (_ & ? & _ & ? & _). by apply listings_wf_same. Qed.

(** A listing changed in place, with its publisher's count settled elsewhere. *)
Lemma hashes_unique_modify d id f d' :
  modify_listing d id f = Ok d' → hashes_unique d → hashes_unique d'.
Proof.
  intros (l & l' & Hl & _ & Hno & ->)%modify_listing_ok Hu i j a b; simpl.
  rewrite !lookup_insert_Some. intros [[<- <-]|[? Ha]] [[<- <-]|[? Hb]] E; try done.
  - exfalso. by eapply Hno.
  - exfalso. by eapply Hno.
  - by eapply Hu.
Qed.

Lemma listings_wf_modify d id f d' :
  modify_listing d id f = Ok d' →
  (∀ l l', f l = Ok l' → lo_publisher l' = lo_publisher l) →
  listings_wf d → listings_wf d'.
Proof.
  intros H Hf [Hc Hu]. split; [|by eapply hashes_unique_modify].
  apply modify_listing_ok in H as (l & l' & Hl & Hfl & _ & ->).
  intros p n Hp. change (listings_count _ p) with (listings_count d p) in Hp.
  simpl. rewrite published_insert, Hl. simpl. rewrite (Hf _ _ Hfl), (Hc p n Hp). lia.
Qed.

Section preservation.
Context {FC : FcArith} {FCL : FcArithLaws FC} {BA : BoostArith}.

Lemma pay_publisher_wf d seller publisher f d' :
  pay_publisher d seller publisher f = Ok d' →
  db_listings d' = db_listings d ∧ ∀ p, listings_count d' p = listings_count d p.
Proof.
  unfold pay_publisher. intros H. destruct f as [x|]; ok_inv; [|done].
  destruct x2 as [y d2]. ok_inv. apply deposit_fee_ok in Hx1 as (_ & _ & (_ & L & _ & C & _)).
  apply adjust_balance_listings in Hx0 as (L0 & _ & A0).
  split; [congruence|]. intros p. rewrite C. unfold listings_count. by rewrite A0.
Qed.

Lemma listing_create_wf d op id d' :
  listing_create_do_apply d op = Ok (id, d') →
  listings_wf d → listings_few d → listings_wf d'.
Proof.
  unfold listing_create_do_apply. intros H [Hc Hu] Hfew.
  apply rbind_ok in H as (s & _ & H). apply rbind_ok in H as ([i t] & Ht & H).
  apply rbind_ok in H as (d1 & H1 & H). apply rbind_ok in H as (d2 & H2 & H). ok_inv.
  apply index_create_ok in Ht as (-> & Hnone & Hcl & ->).
  apply pay_publisher_wf in H1 as [L1 C1].
  apply modify_account_count in H2 as (a & Ha & L2 & C2).
  simpl in L1. split.
  - intros p n. rewrite C2, L2, L1; simpl. rewrite published_insert, Hnone; simpl.
    assert (∀ p n, listings_count d1 p = Some n → n = published p (objs (db_listings d))) as Hc'.
    { intros p' n'. rewrite C1. apply Hc. }
    case_decide as E; [subst p|].
    + intros [= <-]. rewrite Z.eqb_refl.
      pose proof (Hc' (lc_publisher op) (ao_listings_count a) ltac:(unfold listings_count; by rewrite Ha)) as ->.
      pose proof (published_range (lc_publisher op) (objs (db_listings d))).
      unfold listings_few in Hfew. rewrite wrap_u64_small by lia. lia.
    + intros Hp. rewrite (Hc' p n Hp). destruct (Z.eqb_spec (lc_publisher op) p); [congruence|lia].
  - intros i j l m. rewrite L2, L1; simpl. rewrite !lookup_insert_Some.
    intros [[<- <-]|[? Hi]] [[<- <-]|[? Hj]]; try done.
    + intros E. pose proof (clashes_false _ _ _ Hcl _ _ Hj) as X. unfold listing_clash in X. simpl in *. lia.
    + intros E. pose proof (clashes_false _ _ _ Hcl _ _ Hi) as X. unfold listing_clash in X. simpl in *. lia.
    + by apply Hu.
Qed.

Lemma remove_listing_wf d id d' :
  remove_listing d id = Ok d' → listings_wf d → listings_wf d'.
Proof.
  intros (l & a & Hl & Ha & ->)%remove_listing_ok [Hc Hu]. split.
  - intros p n. unfold listings_count; simpl. unfold published. rewrite msum_delete_opt, Hl; simpl.
    fold (published p (objs (db_listings d))).
    destruct (Z.eqb_spec (lo_publisher l) p) as [<-|E].
    + rewrite lookup_insert_eq. intros [= <-].
      rewrite (Hc (lo_publisher l) (ao_listings_count a)) by (unfold listings_count; by rewrite Ha).
      pose proof (published_pos (lo_publisher l) _ _ _ Hl eq_refl).
      destruct (Z.ltb_spec 0 (published (lo_publisher l) (objs (db_listings d)))); lia.
    + rewrite lookup_insert_ne by done. intros Hp. rewrite (Hc p n Hp). lia.
  - intros i j x y; simpl. rewrite !lookup_delete_Some. intros [_ Hx] [_ Hy]. by apply Hu.
Qed.

(** Moving a listing from publisher [q] to [p]: one count down, one up. *)
Lemma move_counts d d1 d2 q p n :
  modify_account d q dec_listings = Ok d1 → modify_account d1 p inc_listings = Ok d2 →
  (∀ r, listings_count d r = Some (n r) ∨ listings_count d r = None) →
  1 <= n q → (∀ r, 0 <= n r < 2 ^ 64 - 1) →
  ∀ r x, listings_count d2 r = Some x →
    x = n r - (if q =? r then 1 else 0) + (if p =? r then 1 else 0).
Proof.
  intros (a & Ha & _ & C1)%modify_account_count (b & Hb & _ & C2)%modify_account_count Hn Hq Hr r x.
  assert (ao_listings_count a = n q) as Ea.
  { destruct (Hn q) as [E|E]; unfold listings_count in E; rewrite Ha in E; simpl in E; congruence. }
  assert (ao_listings_count b = n p - (if q =? p then 1 else 0)) as Eb.
  { specialize (C1 p). unfold listings_count in C1 at 1. rewrite Hb in C1. simpl in C1.
    case_decide as E.
    - subst. rewrite Z.eqb_refl. injection C1 as ->. simpl. rewrite Ea.
      destruct (Z.ltb_spec 0 (n q)); lia.
    - destruct (Z.eqb_spec q p); [congruence|]. destruct (Hn p); [|congruence].
      rewrite H in C1. injection C1 as ->. lia. }
  rewrite C2. case_decide as E.
  - subst r. intros [= <-]. simpl. rewrite Eb, Z.eqb_refl. pose proof (Hr p).
    rewrite wrap_u64_small; [lia|]. destruct (Z.eqb_spec q p); [subst|]; lia.
  - rewrite C1. destruct (Z.eqb_spec p r); [congruence|]. case_decide as E'.
    + subst r. intros [= <-]. rewrite Z.eqb_refl. simpl. rewrite Ea.
      destruct (Z.ltb_spec 0 (n q)); lia.
    + destruct (Z.eqb_spec q r); [congruence|]. destruct (Hn r) as [->| ->]; [|done].
      intros [= <-]. lia.
Qed.

Lemma listing_update_wf d op d' :
  listing_update_do_apply d op = Ok d' →
  listings_wf d → listings_few d → listings_wf d'.
Proof.
  unfold listing_update_do_apply. intros H Hwf Hfew.
  apply rbind_ok in H as (d1 & H1 & H). apply rbind_ok in H as (d2 & H2 & H).
  assert (listings_wf d2) as Hwf2.
  { destruct (lu_publisher op) as [p|] eqn:Hpub.
    - unfold index_get in H1. apply rbind_ok in H1 as (l & Hl & H1).
      apply of_option_ok in Hl. apply rbind_ok in H1 as (d0 & H0 & H1).
      destruct Hwf as [Hc Hu].
      pose proof (modify_account_count _ _ _ _ H0) as (_ & _ & L0 & _).
      pose proof (modify_account_count _ _ _ _ H1) as (_ & _ & L1 & _). rewrite L0 in L1.
      assert (∀ r x, listings_count d1 r = Some x →
        x = published r (objs (db_listings d)) - (if lo_publisher l =? r then 1 else 0)
            + (if p =? r then 1 else 0)) as Hcnt.
      { eapply move_counts; [exact H0|exact H1|..].
        - intros r. destruct (listings_count d r) eqn:E; [left; f_equal; by apply Hc|by right].
        - by eapply published_pos.
        - intros r. pose proof (published_range r (objs (db_listings d))).
          unfold listings_few in Hfew. lia. }
      split.
      + apply modify_listing_ok in H2 as (l1 & l2 & Hl1 & Hf & _ & ->). rewrite L1 in Hl1.
        rewrite Hl in Hl1. injection Hl1 as <-. injection Hf as <-.
        intros r x Hx. change (listings_count _ r) with (listings_count d1 r) in Hx.
        simpl. rewrite L1, published_insert, Hl. simpl. rewrite Hpub; simpl.
        rewrite (Hcnt r x Hx). lia.
      + eapply hashes_unique_modify; [exact H2|]. unfold hashes_unique. by rewrite L1.
    - ok_inv. eapply listings_wf_modify; [exact H2| |done].
      intros l l' [= <-]. simpl. by rewrite Hpub. }
  destruct (publisher_fee (lu_ob_fee op)); ok_inv; [|done].
  apply pay_publisher_wf in H as [L C]. by eapply listings_wf_same.
Qed.

Lemma listing_report_wf d op d' :
  listing_report_do_apply d op = Ok d' → listings_wf d → listings_wf d'.
Proof.
  unfold listing_report_do_apply. intros H. apply rbind_ok in H as (a & _ & H).
  apply rbind_ok in H as (l & _ & H). case_in H; [by eapply remove_listing_wf|].
  eapply listings_wf_modify; [exact H|]. by intros ? ? [= <-].
Qed.

Lemma transfer_wf d op d' :
  transfer_do_apply d op = Ok d' → listings_wf d → listings_wf d'.
Proof.
  unfold transfer_do_apply. intros H Hwf. apply rbind_ok in H as (n & _ & H).
  apply rbind_ok in H as (d1 & H1 & H). apply rbind_ok in H as (d2 & H2 & H).
  apply rbind_ok in H as ([a d3] & H3 & H).
  apply adjust_balance_listings in H1 as (L1 & _ & A1), H as (L4 & _ & A4).
  apply update_reputation_ledger in H2.
  assert (listings_wf d2) as Hwf2.
  { eapply same_ledger_wf; [exact H2|]. eapply listings_wf_same; [exact L1| |done].
    intros. unfold listings_count. by rewrite A1. }
  assert (listings_wf d3) as Hwf3.
  { destruct (tr_listing op), (tr_listing_count op); ok_inv; try done.
    repeat match goal with x : asset * database |- _ => destruct x; ok_inv end.
    repeat match goal with H : pay_sale_fee _ _ _ _ _ = _ |- _ =>
      apply pay_sale_fee_ok in H as (_ & _ & _ & H) end.
    do 3 (eapply same_ledger_wf; [eassumption|]).
    eapply listings_wf_modify; [eassumption| |done]. by intros ? ? [= <-]. }
  eapply listings_wf_same; [exact L4| |done]. intros. unfold listings_count. by rewrite A4.
Qed.

(** One applied operation that touches listings. *)
Inductive listing_step (d d' : database) : Prop :=
  | step_create skip req (op : listing_create_operation) :
      start_evaluate false skip req d op = Ok d' → listing_step d d'
  | step_update skip req (op : listing_update_operation) :
      start_evaluate false skip req d op = Ok d' → listing_step d d'
  | step_delete skip req (op : listing_delete_operation) :
      start_evaluate false skip req d op = Ok d' → listing_step d d'
  | step_report skip req (op : listing_report_operation) :
      start_evaluate false skip req d op = Ok d' → listing_step d d'
  | step_transfer skip req (op : transfer_operation) :
      start_evaluate false skip req d op = Ok d' → listing_step d d'.

(** What holds of [do_apply] holds of the whole run: fees touch no listing. *)
Lemma start_evaluate_listings {Op} {E : Evaluator Op} skip req d (op : Op) d' :
  (∀ d1 st d2, do_apply d1 op st = Ok d2 → listings_wf d1 → listings_few d1 → listings_wf d2) →
  start_evaluate false skip req d op = Ok d' →
  listings_wf d → listings_few d → listings_wf d'.
Proof.
  intros Happ (st & d1 & d2 & _ & Hl & _ & H & Hadj)%start_evaluate_ok Hwf Hfew.
  apply adjust_balance_listings in Hadj as (L & _ & A).
  eapply listings_wf_same; [exact L| |].
  - intros. unfold listings_count. by rewrite A.
  - eapply Happ; [exact H|by eapply same_ledger_wf|].
    unfold listings_few. destruct Hl as (_ & -> & _). done.
Qed.

(** C20.  Creating, updating, deleting and reporting listings and buying from
    them keeps the listing table consistent: no two listings have the same
    hash, and the listing count of every account is the number of listings
    it publishes, also when an update moves a listing to another publisher. *)
Theorem listing_step_preserves d d' :
  listing_step d d' → listings_few d → listings_wf d → listings_wf d'.
Proof.
  intros Hstep Hfew Hwf. destruct Hstep as [skip req op H|skip req op H|skip req op H|skip req op H|skip req op H];
    (apply (start_evaluate_listings skip req d op d'); [|exact H|exact Hwf|exact Hfew]);
    simpl; intros d1 st d2 Ha Hw Hf.
  - apply rbind_ok in Ha as ([id d3] & Ha & [= <-]). by eapply listing_create_wf.
  - by eapply listing_update_wf.
  - by eapply remove_listing_wf.
  - by eapply listing_report_wf.
  - by eapply transfer_wf.
Qed.
End preservation.

(** Carol publishes the first listing of an empty marketplace. *)
Lemma listing_step_preserves_witness :
  let d := set_listings (λ _, mkTable ∅ 0) sample_db in
  let op := mkListingCreate (core_asset 20) (only_publisher_fee (Some (core_asset 10)))
              bob carol (core_asset 4000) 78 5 100 in
  listings_wf (get_ok (start_evaluate (FC := fc_reference) (BA := boost_reference)
     (E := listing_create_evaluator (FC := fc_reference)) false false (Ok 20) d op) d).
Proof.
  intros d op. apply (listing_step_preserves (FCL := fc_reference_laws) (BA := boost_reference) d).
  - apply (step_create _ _ false (Ok 20) op). apply get_ok_eq. vm_compute. reflexivity.
  - unfold listings_few; simpl. rewrite msum_empty. lia.
  - split; [|intros i j l m; simpl; by rewrite lookup_empty].
    intros p n. unfold published, listings_count; simpl. rewrite msum_empty.
    intros (a & Ha & ->)%fmap_Some_1.
    repeat (apply lookup_insert_Some in Ha as [[_ <-]|[_ Ha]]; [reflexivity|]). by rewrite lookup_empty in Ha.
Defined.

(** ** The first object of an index *)

Section first_by.
Context {V : Type} (key : V → Z).

Lemma first_by_spec (m : gmap Z V) :
  match first_by key m with
  | None => m = ∅
  | Some (k, v) => m !! k = Some v ∧ ∀ k' v', m !! k' = Some v' → key v <= key v'
  end.
Proof.
  unfold first_by.
  apply (map_fold_weak_ind (λ acc m, match acc with
    | None => m = ∅
    | Some (k, v) => m !! k = Some v ∧ ∀ k' v', m !! k' = Some v' → key v <= key v'
    end)); [done|].
  intros k v m' acc Hk IH. destruct acc as [[k0 v0]|].
  - destruct IH as [H0 Hmin].
    assert (k0 ≠ k) by congruence.
    destruct ((key v <? key v0) || ((key v =? key v0) && (k <? k0))) eqn:E; split.
    + apply lookup_insert_eq.
    + intros k' v'. rewrite lookup_insert_Some. intros [[_ <-]|[_ H']]; [lia|].
      apply Hmin in H'. lia.
    + by rewrite lookup_insert_ne.
    + intros k' v'. rewrite lookup_insert_Some. intros [[_ <-]|[_ H']]; [lia|by eapply Hmin].
  - subst. split; [apply lookup_insert_eq|]. intros k' v'.
    rewrite lookup_insert_Some, lookup_empty. intros [[_ <-]|[_ [=]]]. lia.
Qed.

Lemma first_by_none (m : gmap Z V) : first_by key m = None → m = ∅.
Proof. intros E. pose proof (first_by_spec m) as H. by rewrite E in H. Qed.

Lemma first_by_some (m : gmap Z V) k v :
  first_by key m = Some (k, v) →
  m !! k = Some v ∧ ∀ k' v', m !! k' = Some v' → key v <= key v'.
Proof. intros E. pose proof (first_by_spec m) as H. by rewrite E in H. Qed.
End first_by.

(** ** Removing expired listings *)

Section clear_properties.
Context {FC : FcArith} {FCL : FcArithLaws FC} {BA : BoostArith}.

Definition fee_account_ok (d : database) (id : Z) : Prop :=
  ∃ s st ca, objs (db_accounts d) !! id = Some s ∧
    db_statistics d !! ao_statistics s = Some st ∧
    in_int64 (st_pending_fees st) = true ∧ in_int64 (st_pending_vested_fees st) = true ∧
    db_assets d !! core_id = Some ca ∧
    is_Some (db_asset_dyn d !! as_dynamic_asset_data_id ca) ∧
    is_authorized_asset d s core_id ca = true.

(** The seller can pay a zero fee and the publisher exists. *)
Definition clearable (d : database) : Prop :=
  ∀ id l, objs (db_listings d) !! id = Some l →
    fee_account_ok d (lo_seller l) ∧ is_Some (objs (db_accounts d) !! lo_publisher l).

Lemma prepare_zero_fee d id :
  fee_account_ok d id →
  ∃ g, prepare_fee d id (core_asset 0) = Ok g ∧ core_fee_paid g = 0 ∧
    fee_from_account g = core_asset 0 ∧ fee_asset g = core_id ∧
    ∃ s, objs (db_accounts d) !! id = Some s ∧ fee_paying_account_statistics g = ao_statistics s.
Proof.
  intros (s & st & ca & Hs & Hst & _ & _ & Hca & [dyn Hdyn] & Hauth).
  unfold prepare_fee, get_account, index_get, get_statistics, get_asset_object, get_asset_dyn.
  cbn [amount asset_id core_asset]. rewrite Hs. cbn [of_option rbind require Z.leb Z.compare].
  rewrite Hst. cbn [of_option rbind]. rewrite Hca. cbn [of_option rbind].
  rewrite Hdyn. cbn [of_option rbind]. rewrite Hauth.
  eexists. split; [case_match; reflexivity|]. simpl. eauto 10.
Qed.

Lemma pay_zero_fee d g s st :
  core_fee_paid g = 0 → fee_paying_account_statistics g = ao_statistics s →
  db_statistics d !! ao_statistics s = Some st →
  in_int64 (st_pending_fees st) = true → in_int64 (st_pending_vested_fees st) = true →
  pay_fee false g d = Ok (set_statistics (<[ao_statistics s := st]>) d).
Proof.
  intros H0 Hi Hst Hp Hv. unfold pay_fee, modify_statistics, get_statistics. rewrite Hi, Hst, H0.
  cbn [of_option rbind]. unfold statistics_pay_fee, in_int64 in *. case_match.
  - rewrite safe_add_spec, check_int64_in by lia. cbn [rbind]. rewrite Z.add_0_r. by destruct st.
  - rewrite safe_add_spec, check_int64_in by lia. cbn [rbind]. rewrite Z.add_0_r. by destruct st.
Qed.

(** Clearing a listing removes it and lowers its publisher's count. *)
Lemma clear_listing_eq r d id l :
  r <= 0 → clearable d → objs (db_listings d) !! id = Some l →
  ∃ s st a, objs (db_accounts d) !! lo_seller l = Some s ∧
    db_statistics d !! ao_statistics s = Some st ∧
    objs (db_accounts d) !! lo_publisher l = Some a ∧
    clear_listing (Ok r) d id l = Ok
      (set_listings (λ t, mkTable (delete id (objs t)) (next_id t))
        (set_accounts (λ t, mkTable (<[lo_publisher l := dec_listings a]> (objs t)) (next_id t))
          (set_statistics (<[ao_statistics s := st]>) d))).
Proof.
  intros Hr Hcl Hl. destruct (Hcl id l Hl) as [Hfee [a Ha]].
  destruct (prepare_zero_fee _ _ Hfee) as (g & Hg & H0 & Hfrom & Hcore & s & Hs & Hi).
  destruct Hfee as (s' & st & ca & Hs' & Hst & Hp & Hv & _).
  assert (s' = s) as -> by congruence.
  exists s, st, a. split_and!; [done..|]. unfold clear_listing. simpl.
  unfold start_evaluate, evaluate, apply. cbn [op_fee_payer op_fee listing_delete_evaluator ld_seller ld_fee].
  rewrite Hg. cbn [rbind]. rewrite H0, (proj2 (Z.leb_le r 0)) by lia. cbn [rbind require do_evaluate listing_delete_evaluator].
  unfold listing_delete_do_evaluate, index_get. cbn [ld_listing_id ld_seller]. rewrite Hl.
  cbn [of_option rbind]. rewrite Z.eqb_refl. cbn [require rbind].
  unfold convert_fee. rewrite Hcore, Z.eqb_refl. cbn [negb rbind].
  rewrite (pay_zero_fee d g s st) by done. cbn [rbind do_apply listing_delete_evaluator].
  unfold listing_delete_do_apply, remove_listing, index_get, modify_account, get_account, index_get.
  cbn [ld_listing_id db_listings set_statistics db_accounts]. rewrite Hl. cbn [of_option rbind].
  rewrite Ha. cbn [of_option rbind]. unfold index_remove, index_get.
  cbn [db_listings set_accounts set_statistics]. rewrite Hl. cbn [of_option rbind].
  rewrite Hfrom. unfold asset_neg. cbn [amount core_asset]. rewrite safe_neg_spec. reflexivity.
Qed.

Lemma clearable_step d id l s st a :
  clearable d →
  objs (db_accounts d) !! lo_publisher l = Some a →
  db_statistics d !! ao_statistics s = Some st →
  clearable (set_listings (λ t, mkTable (delete id (objs t)) (next_id t))
    (set_accounts (λ t, mkTable (<[lo_publisher l := dec_listings a]> (objs t)) (next_id t))
      (set_statistics (<[ao_statistics s := st]>) d))).
Proof.
  intros Hcl Ha Hst i m Hm. simpl in Hm. apply lookup_delete_Some in Hm as [_ Hm].
  destruct (Hcl i m Hm) as [(s1 & st1 & ca & Hs1 & Hst1 & Hp & Hv & Hca & Hdyn & Hau) [b Hb]].
  split.
  - unfold fee_account_ok; simpl.
    assert (<[ao_statistics s := st]> (db_statistics d) = db_statistics d) as -> by (by apply insert_id).
    destruct (decide (lo_seller m = lo_publisher l)) as [E|E].
    + rewrite E, lookup_insert_eq. rewrite E, Ha in Hs1. injection Hs1 as <-.
      exists (dec_listings a), st1, ca. done.
    + rewrite lookup_insert_ne by done. exists s1, st1, ca. done.
  - simpl. destruct (decide (lo_publisher m = lo_publisher l)) as [->|E];
      [rewrite lookup_insert_eq|rewrite lookup_insert_ne by done]; eauto.
Qed.

(** Cleaning up: when the fee schedule asks no fee for deleting a
    listing, the loop ends after at most as many rounds as there are
    listings; afterwards no listing is expired, and exactly the expired
    ones are gone. *)
Theorem clear_expired_listings_correct fuel r d :
  r <= 0 → clearable d →
  (∀ id l, objs (db_listings d) !! id = Some l →
     0 <= lo_updated_at l ∧ lo_updated_at l + cp_maximum_listing_lifetime (parameters d) < 2 ^ 32) →
  0 <= cp_maximum_listing_lifetime (parameters d) →
  (size (objs (db_listings d)) <= fuel)%nat →
  ∃ d', clear_expired_listings fuel (Ok r) d = Ok d' ∧
    objs (db_listings d') = filter (λ kl, listing_expired d kl.2 = false) (objs (db_listings d)).
Proof.
  intros Hr. revert d. induction fuel as [|fuel IH]; intros d Hcl Ht Hlt Hf.
  { exists d. apply Nat.le_0_r, map_size_empty_inv in Hf. simpl. rewrite Hf.
    split; [done|]. by rewrite map_filter_empty. }
  simpl. destruct (first_by _ _) as [[id l]|] eqn:Efirst.
  - apply first_by_some in Efirst as [Hl Hmin]. destruct (listing_expired d l) eqn:Eexp.
    + destruct (clear_listing_eq r d id l Hr Hcl Hl) as (s & st & a & Hs & Hst & Ha & ->).
      cbn [rbind]. set (d1 := set_listings _ _). destruct (IH d1) as (d' & Hrun & Hfil).
      * by apply clearable_step.
      * intros i m; simpl. rewrite lookup_delete_Some. intros [_ Hm]. by eapply Ht.
      * done.
      * simpl. rewrite map_size_delete_Some by done. lia.
      * exists d'. split; [done|]. rewrite Hfil. simpl.
        change (listing_expired d1) with (listing_expired d).
        rewrite map_filter_delete. apply delete_id.
        apply map_lookup_filter_None. right. intros x Hx. rewrite Hl in Hx. injection Hx as <-.
        simpl. congruence.
    + exists d. split; [done|]. symmetry. apply map_filter_id. intros i m Hm. simpl.
      specialize (Hmin i m Hm). destruct (Ht _ _ Hl), (Ht _ _ Hm).
      unfold listing_expired, listing_key in *. case_match; [lia|].
      rewrite !time_add_small in * by lia. lia.
  - apply first_by_none in Efirst. exists d. split; [done|]. rewrite Efirst. by rewrite map_filter_empty.
Qed.

(** The loop has no other way to advance than a successful deletion:
    when the fee schedule asks a positive fee for the delete operation, one
    expired listing at the head of the index keeps it running forever, for
    no number of rounds is enough. *)
Theorem clear_expired_listings_diverges fuel r d id l :
  0 < r → first_by (listing_key d) (objs (db_listings d)) = Some (id, l) →
  listing_expired d l = true →
  clear_expired_listings fuel (Ok r) d = Throw out_of_fuel.
Proof.
  intros Hr Hfirst Hexp.
  assert (clear_listing (Ok r) d id l = Ok d) as Hsame.
  { unfold clear_listing. simpl. unfold start_evaluate, evaluate.
    cbn [op_fee_payer op_fee listing_delete_evaluator ld_seller ld_fee].
    pose proof (defined_prepare_fee d (lo_seller l) (core_asset 0)) as Hdef.
    destruct (prepare_fee d (lo_seller l) (core_asset 0)) as [g|e] eqn:Hg; simpl in Hdef |- *;
      [|by rewrite Hdef].
    apply prepare_fee_ok in Hg as (_ & _ & _ & _ & Hz). rewrite Hz by done.
    cbn [amount core_asset]. by rewrite (proj2 (Z.leb_gt r 0)) by lia. }
  induction fuel as [|fuel IH]; simpl; rewrite Hfirst, Hexp; [done|]. by rewrite Hsame.
Qed.
End clear_properties.

(** A day on which the only listing of the sample database expires. *)
Definition expiry_db : database :=
  set_dgpo (λ g, mkDgpo 100 1573000000 0 1000 0 100 (2 ^ 128 - 1) 0 90 0 0 0 0 0
    1570003600 1569999900 0)
    (set_listings (λ _, mkTable
       {[ 0 := mkListing bob carol (core_asset 100) 77 40 1572000000 0 0 ∅ 100 1570000000 1570000000 ]} 1)
      sample_db).

Lemma clear_expired_listings_correct_witness :
  ∃ d', clear_expired_listings (FC := fc_reference) (BA := boost_reference) 1 (Ok 0) expiry_db = Ok d' ∧
    objs (db_listings d') = ∅.
Proof.
  destruct (clear_expired_listings_correct (FCL := fc_reference_laws) (BA := boost_reference)
    1 0 expiry_db) as (d' & H & E).
  - lia.
  - intros id l. simpl. rewrite lookup_singleton_Some. intros [<- <-]. split.
    + eexists _, _, _. split_and!; try (vm_compute; reflexivity). vm_compute. eauto.
    + vm_compute. eauto.
  - intros id l. simpl. rewrite lookup_singleton_Some. intros [<- <-]. simpl. lia.
  - simpl. lia.
  - vm_compute. lia.
  - exists d'. split; [exact H|]. rewrite E. vm_compute. reflexivity.
Defined.

Lemma clear_expired_listings_diverges_witness :
  clear_expired_listings (FC := fc_reference) (BA := boost_reference) 50 (Ok 1) expiry_db
  = Throw out_of_fuel.
Proof.
  eapply (clear_expired_listings_diverges (FC := fc_reference) (BA := boost_reference) 50 1);
    [lia|vm_compute; reflexivity|vm_compute; reflexivity].
Defined.
