(* ===== verification/Escrow.v ===== *)
(** * Escrow

    The escrow operations ([omnibazaar/escrow.cpp]), their evaluators
    ([omnibazaar/escrow_evaluator.cpp]), the agents an account accepts
    implicitly ([db_escrow.cpp]), the closing of expired escrows
    ([db_block.cpp], [push_escrow]; [db_update.cpp], [clear_expired_escrows])
    and the secondary index of escrows by account
    ([omnibazaar/escrow_object.cpp]). *)

From stdpp Require Import gmap strings.
From Stdlib Require Import ZArith Lia.
From S2P Require Import Prelude Fc Config Asset VestingBalance Objects Database Sample Balances Fees ObFee Reputation Exceptions Transfer Listing ListingInv.

Local Open Scope Z_scope.

Record escrow_create_operation := mkEscrowCreate {
  ec_fee : asset;
  ec_ob_fee : omnibazaar_fee_type;
  ec_expiration_time : Z;
  ec_buyer : Z;
  ec_seller : Z;
  ec_escrow : Z;
  ec_amount : asset;
  ec_transfer_to_escrow : bool;
  ec_listing : option Z;
  ec_listing_count : option Z
}.

(** [escrow_release_operation] and [escrow_return_operation] have the same members. *)
Record escrow_close_operation := mkEscrowClose {
  er_fee : asset;
  er_fee_paying_account : Z;
  er_escrow : Z;
  er_buyer_account : Z;
  er_escrow_account : Z;
  er_seller_account : Z;
  er_reputation_vote_for_seller : Z;
  er_reputation_vote_for_buyer : Z;
  er_reputation_vote_for_escrow : Z
}.
Record escrow_release_operation := mkRelease { release_op : escrow_close_operation }.
Record escrow_return_operation := mkReturn { return_op : escrow_close_operation }.

Record escrow_extend_operation := mkEscrowExtend {
  ex_fee : asset;
  ex_fee_paying_account : Z;
  ex_escrow : Z;
  ex_seller_account : Z;
  ex_buyer_account : Z;
  ex_escrow_account : Z;
  ex_expiration_time : Z
}.

Section operations.
Context {FC : FcArith}.

Definition escrow_create_validate (op : escrow_create_operation) : result unit :=
  FC_ASSERT (0 <=? amount (ec_fee op)) ;;
  FC_ASSERT (0 <? amount (ec_amount op)) ;;
  FC_ASSERT (negb (ec_buyer op =? ec_seller op)) ;;
  FC_ASSERT (negb (ec_buyer op =? ec_escrow op)) ;;
  FC_ASSERT (negb (ec_seller op =? ec_escrow op)) ;;
  FC_ASSERT (match ec_listing op with
             | Some _ => bool_decide (is_Some (ec_listing_count op)) | None => true end) ;;
  FC_ASSERT (match ec_listing_count op with
             | Some n => (0 <? n) && bool_decide (is_Some (ec_listing op)) | None => true end) ;;
  require (asset_id (ec_amount op) =? core_id) assert_exception.

Definition escrow_create_required_active (op : escrow_create_operation) : gset Z :=
  {[ ec_buyer op ]}.

Definition escrow_calculate_omnibazaar_fee (d : database) (op : escrow_create_operation)
    : result omnibazaar_fee_type :=
  let* agent := get_account d (ec_escrow op) in
  let* f := cut_fee (amount (ec_amount op)) (ao_escrow_fee agent) in
  let fees := mkObFee None (positive_fee f (asset_id (ec_amount op))) None None None in
  match ec_listing op with
  | Some id =>
      let* l := index_get (db_listings d) id in
      set_sale_fees d l (ec_amount op) (ec_buyer op) (ec_seller op) fees
  | None => Ok fees
  end.

(** One [if] of [get_implicit_escrows]: the accounts that serve as agents. *)
Definition insert_if_escrow (d : database) (s : gset Z) (id : Z) : result (gset Z) :=
  let* a := get_account d id in
  Ok (if ao_is_an_escrow a then {[ id ]} ∪ s else s).

Definition find_witness_by_vote (d : database) (vote : Z) : option witness_object :=
  snd <$> head (filter (λ kw, wo_vote_id kw.2 = vote) (map_to_list (db_witnesses d))).

Definition get_implicit_escrows (d : database) (target : Z) : result (gset Z) :=
  let* a := get_account d target in
  let opts := ao_implicit_escrow_options a in
  let* r :=
    if active_witness opts then
      rfold (λ s wid, let* w := get_witness d wid in insert_if_escrow d s (wo_witness_account w))
        ∅ (elements (gp_active_witnesses (db_gpo d)))
    else Ok ∅ in
  let* r :=
    if voted_witness opts then
      rfold (λ s vote, match find_witness_by_vote d vote with
                       | None => Ok s
                       | Some w => insert_if_escrow d s (wo_witness_account w)
                       end) r (elements (ao_votes a))
    else Ok r in
  if positive_rating opts then
    let* stats := get_statistics d (ao_statistics a) in
    rfold (insert_if_escrow d) r (elements (st_my_reputation_votes stats))
  else Ok r.

Definition escrow_create_do_evaluate (d : database) (op : escrow_create_operation)
    : result unit :=
  let* buyer := get_account d (ec_buyer op) in
  let* bi := get_implicit_escrows d (ec_buyer op) in
  let* seller := get_account d (ec_seller op) in
  let* si := get_implicit_escrows d (ec_seller op) in
  FC_ASSERT (bool_decide (ec_escrow op ∈ ao_escrows buyer ∪ bi)) ;;
  FC_ASSERT (bool_decide (ec_escrow op ∈ ao_escrows seller ∪ si)) ;;
  FC_ASSERT (amount (ec_amount op)
             <=? amount (get_balance d (ec_buyer op) (asset_id (ec_amount op)))) ;;
  FC_ASSERT (head_block_time d <? ec_expiration_time op) ;;
  FC_ASSERT (ec_expiration_time op
             <=? time_add (head_block_time d) (cp_maximum_escrow_lifetime (parameters d))) ;;
  FC_ASSERT (bool_decide (ec_buyer op ∈ escrow_create_required_active op)) ;;
  let* _ :=
    match ec_listing op with
    | Some id =>
        let* listing := index_get (db_listings d) id in
        let* count := of_option undefined_behaviour (ec_listing_count op) in
        FC_ASSERT (count <=? lo_quantity listing) ;;
        FC_ASSERT (asset_id (ec_amount op) =? asset_id (lo_price listing)) ;;
        let* cost := safe_mul (amount (lo_price listing)) count in
        FC_ASSERT (cost <=? amount (ec_amount op)) ;;
        require (ec_seller op =? lo_seller listing) assert_exception
    | None => Ok tt
    end in
  let* required_ob_fees := escrow_calculate_omnibazaar_fee d op in
  let* enough := is_enough (ec_ob_fee op) required_ob_fees in
  FC_ASSERT enough ;;
  FC_ASSERT (bool_decide (publisher_fee (ec_ob_fee op) = None)) ;;
  let* s := ob_sum (ec_ob_fee op) in
  require (s <=? amount (ec_amount op)) assert_exception.

Definition escrow_of (op : escrow_create_operation) : escrow_object :=
  mkEscrow (ec_expiration_time op) (ec_buyer op) (ec_seller op) (ec_escrow op) (ec_amount op)
    (ec_transfer_to_escrow op) (ec_listing op) (ec_listing_count op) (ec_ob_fee op).

Definition escrow_create_do_apply (d : database) (op : escrow_create_operation)
    : result (Z * database) :=
  let* (id, t) := index_create no_clash (db_escrows d) (escrow_of op) in
  let d := set_escrows (λ _, t) d in
  let* n := asset_neg (ec_amount op) in
  let* d := adjust_balance d (ec_buyer op) n in
  let* d := if ec_transfer_to_escrow op
            then adjust_balance d (ec_escrow op) (ec_amount op) else Ok d in
  let* d :=
    match ec_listing op, ec_listing_count op with
    | Some l, Some count =>
        modify_listing d l (λ l, Ok (set_quantity (λ q, wrap_u32 (q - count)) l))
    | _, _ => Ok d
    end in
  Ok (id, d).

#[export] Instance escrow_create_evaluator : Evaluator escrow_create_operation := {
  ev_state := unit;
  op_fee_payer := ec_buyer;
  op_fee := ec_fee;
  do_evaluate := escrow_create_do_evaluate;
  do_apply := λ d op _, let* r := escrow_create_do_apply d op in Ok r.2
}.

Definition vote_in_range (v : Z) : bool :=
  (OMNIBAZAAR_REPUTATION_MIN <=? v) && (v <=? OMNIBAZAAR_REPUTATION_MAX).

(** [validate] of the release and of the return operation. *)
Definition escrow_close_validate (op : escrow_close_operation) : result unit :=
  FC_ASSERT (0 <=? amount (er_fee op)) ;;
  FC_ASSERT (negb (er_buyer_account op =? er_seller_account op)) ;;
  FC_ASSERT (negb (er_buyer_account op =? er_escrow_account op)) ;;
  FC_ASSERT (negb (er_seller_account op =? er_escrow_account op)) ;;
  FC_ASSERT ((er_fee_paying_account op =? er_buyer_account op)
             || (er_fee_paying_account op =? er_seller_account op)
             || (er_fee_paying_account op =? er_escrow_account op)) ;;
  FC_ASSERT (vote_in_range (er_reputation_vote_for_buyer op)) ;;
  FC_ASSERT (vote_in_range (er_reputation_vote_for_escrow op)) ;;
  FC_ASSERT (vote_in_range (er_reputation_vote_for_seller op)) ;;
  FC_ASSERT (if er_fee_paying_account op =? er_buyer_account op
             then er_reputation_vote_for_buyer op =? OMNIBAZAAR_REPUTATION_DEFAULT else true) ;;
  FC_ASSERT (if er_fee_paying_account op =? er_escrow_account op
             then er_reputation_vote_for_escrow op =? OMNIBAZAAR_REPUTATION_DEFAULT else true) ;;
  require (if er_fee_paying_account op =? er_seller_account op
           then er_reputation_vote_for_seller op =? OMNIBAZAAR_REPUTATION_DEFAULT else true)
    assert_exception.

(** [do_evaluate] of the release and of the return operation. *)
Definition escrow_close_do_evaluate (d : database) (op : escrow_close_operation) : result unit :=
  let* e := index_get (db_escrows d) (er_escrow op) in
  FC_ASSERT (er_buyer_account op =? eo_buyer e) ;;
  FC_ASSERT (er_escrow_account op =? eo_escrow e) ;;
  FC_ASSERT (er_seller_account op =? eo_seller e) ;;
  require (if eo_transfer_to_escrow e
           then amount (eo_amount e)
                <=? amount (get_balance d (er_escrow_account op) (asset_id (eo_amount e)))
           else true) assert_exception.

(** [transfer_amount -= deposit_fee(...)] on a [share_type]. *)
Definition pay_share_fee (d : database) (account : Z) (f : option asset) (ty : balance_type)
    (transfer_amount : Z) : result (Z * database) :=
  let* (paid, d) := deposit_fee d account f ty in
  let* a := safe_sub transfer_amount paid in
  Ok (a, d).

Definition update_reputations (d : database) (op : escrow_close_operation) (e : escrow_object)
    : result database :=
  rfold (λ d (r : Z * Z),
           if r.1 =? er_fee_paying_account op then Ok d
           else update_reputation d r.1 (er_fee_paying_account op) r.2 (eo_amount e))
    d [(eo_seller e, er_reputation_vote_for_seller op);
       (eo_buyer e, er_reputation_vote_for_buyer op);
       (eo_escrow e, er_reputation_vote_for_escrow op)].

Definition remove_escrow (d : database) (id : Z) : result database :=
  let* t := index_remove (db_escrows d) id in Ok (set_escrows (λ _, t) d).

(** The funds come back from the agent if they were kept there. *)
Definition unlock_funds (d : database) (e : escrow_object) : result database :=
  if eo_transfer_to_escrow e then
    let* n := asset_neg (eo_amount e) in adjust_balance d (eo_escrow e) n
  else Ok d.

Definition escrow_release_do_apply (d : database) (op : escrow_close_operation)
    : result database :=
  let* e := index_get (db_escrows d) (er_escrow op) in
  let fees := eo_ob_fee e in
  let* d := unlock_funds d e in
  let* (a, d) := pay_share_fee d (eo_escrow e) (escrow_fee fees) escrow_fee_type
                   (amount (eo_amount e)) in
  let* (a, d) :=
    match eo_listing e with
    | Some _ =>
        let* (a, d) := pay_share_fee d OMNIBAZAAR_FOUNDER_ACCOUNT (omnibazaar_fee fees)
                         founder_sale_fee a in
        let* b := get_account d (eo_buyer e) in
        let* (a, d) := pay_share_fee d (ao_referrer b) (referrer_buyer_fee fees)
                         referrer_sale_fee a in
        let* s := get_account d (eo_seller e) in
        pay_share_fee d (ao_referrer s) (referrer_seller_fee fees) referrer_sale_fee a
    | None => Ok (a, d)
    end in
  let* d := adjust_balance d (eo_seller e) (core_asset a) in
  let* d := update_reputations d op e in
  remove_escrow d (er_escrow op).

Definition escrow_return_do_apply (d : database) (op : escrow_close_operation)
    : result database :=
  let* e := index_get (db_escrows d) (er_escrow op) in
  let* d := unlock_funds d e in
  let* (a, d) := pay_share_fee d (eo_escrow e) (escrow_fee (eo_ob_fee e)) escrow_fee_type
                   (amount (eo_amount e)) in
  let* d := adjust_balance d (eo_buyer e) (core_asset a) in
  let* d := update_reputations d op e in
  let* d :=
    match eo_listing e with
    | Some l =>
        let* count := of_option undefined_behaviour (eo_listing_count e) in
        modify_listing d l (λ l, Ok (set_quantity (λ q, wrap_u32 (q + count)) l))
    | None => Ok d
    end in
  remove_escrow d (er_escrow op).

#[export] Instance escrow_release_evaluator : Evaluator escrow_release_operation := {
  ev_state := unit;
  op_fee_payer := λ op, er_fee_paying_account (release_op op);
  op_fee := λ op, er_fee (release_op op);
  do_evaluate := λ d op, escrow_close_do_evaluate d (release_op op);
  do_apply := λ d op _, escrow_release_do_apply d (release_op op)
}.

#[export] Instance escrow_return_evaluator : Evaluator escrow_return_operation := {
  ev_state := unit;
  op_fee_payer := λ op, er_fee_paying_account (return_op op);
  op_fee := λ op, er_fee (return_op op);
  do_evaluate := λ d op, escrow_close_do_evaluate d (return_op op);
  do_apply := λ d op _, escrow_return_do_apply d (return_op op)
}.

Definition escrow_extend_validate (op : escrow_extend_operation) : result unit :=
  FC_ASSERT (0 <=? amount (ex_fee op)) ;;
  FC_ASSERT (negb (ex_buyer_account op =? ex_seller_account op)) ;;
  FC_ASSERT (negb (ex_buyer_account op =? ex_escrow_account op)) ;;
  FC_ASSERT (negb (ex_seller_account op =? ex_escrow_account op)) ;;
  require ((ex_fee_paying_account op =? ex_buyer_account op)
           || (ex_fee_paying_account op =? ex_seller_account op)
           || (ex_fee_paying_account op =? ex_escrow_account op)) assert_exception.

Definition escrow_extend_do_evaluate (d : database) (op : escrow_extend_operation)
    : result unit :=
  let* e := index_get (db_escrows d) (ex_escrow op) in
  FC_ASSERT (ex_seller_account op =? eo_seller e) ;;
  FC_ASSERT (ex_escrow_account op =? eo_escrow e) ;;
  FC_ASSERT (ex_buyer_account op =? eo_buyer e) ;;
  FC_ASSERT (head_block_time d <? ex_expiration_time op) ;;
  FC_ASSERT (ex_expiration_time op
             <=? time_add (head_block_time d) (cp_maximum_escrow_lifetime (parameters d))) ;;
  require (negb (ex_expiration_time op =? eo_expiration_time e)) assert_exception.

Definition escrow_extend_do_apply (d : database) (op : escrow_extend_operation)
    : result database :=
  let* t := index_modify no_clash (db_escrows d) (ex_escrow op)
              (λ e, Ok (set_escrow_expiration (λ _, ex_expiration_time op) e)) in
  Ok (set_escrows (λ _, t) d).

#[export] Instance escrow_extend_evaluator : Evaluator escrow_extend_operation := {
  ev_state := unit;
  op_fee_payer := ex_fee_paying_account;
  op_fee := ex_fee;
  do_evaluate := escrow_extend_do_evaluate;
  do_apply := λ d op _, escrow_extend_do_apply d op
}.
End operations.

(** Who may authorize closing an escrow: one signature of weight 1 is enough. *)
Definition escrow_release_authorities (op : escrow_close_operation) : gset Z :=
  {[ er_buyer_account op; er_escrow_account op ]}.
Definition escrow_return_authorities (op : escrow_close_operation) : gset Z :=
  {[ er_seller_account op; er_escrow_account op ]}.
Definition escrow_extend_required_active (op : escrow_extend_operation) : gset Z :=
  {[ ex_seller_account op; ex_buyer_account op ]}.

(** ** Expired escrows *)

Section expiry.
Context {FC : FcArith} {BA : BoostArith}.

(** [push_escrow]: a release paid by the buyer or a return paid by the
    seller, without a fee, inside an undo session.  [required release op]
    is the fee the schedule demands for the one ([true]) or the other. *)
Definition closing_operation (id : Z) (e : escrow_object) (payer : Z) : escrow_close_operation :=
  mkEscrowClose (core_asset 0) payer id (eo_buyer e) (eo_escrow e) (eo_seller e)
    OMNIBAZAAR_REPUTATION_DEFAULT OMNIBAZAAR_REPUTATION_DEFAULT OMNIBAZAAR_REPUTATION_DEFAULT.

Definition push_escrow (required : bool → escrow_close_operation → result Z) (d : database) (id : Z) (e : escrow_object)
    (release : bool) : result database :=
  if release then
    let op := closing_operation id e (eo_buyer e) in
    let* _ := escrow_close_validate op in
    start_evaluate false false (required true op) d (mkRelease op)
  else
    let op := closing_operation id e (eo_seller e) in
    let* _ := escrow_close_validate op in
    start_evaluate false false (required false op) d (mkReturn op).

(** The body of the loop of [clear_expired_escrows]: release, else return,
    else delete the object. *)
Definition close_expired (required : bool → escrow_close_operation → result Z) (d : database) (id : Z) (e : escrow_object)
    : result database :=
  try_catch (push_escrow required d id e true)
    (try_catch (push_escrow required d id e false) (remove_escrow d id)).

Fixpoint clear_expired_escrows (fuel : nat) (required : bool → escrow_close_operation → result Z) (d : database)
    : result database :=
  match first_by eo_expiration_time (objs (db_escrows d)) with
  | None => Ok d
  | Some (id, e) =>
      if eo_expiration_time e <=? head_block_time d then
        match fuel with
        | O => Throw out_of_fuel
        | S fuel' =>
            let* d' := close_expired required d id e in
            clear_expired_escrows fuel' required d'
        end
      else Ok d
  end.
End expiry.

(** ** The index of escrows by account *)

Notation escrow_account_index := (gmap Z (gset Z)).

Definition index_insert (a e : Z) (m : escrow_account_index) : escrow_account_index :=
  <[a := {[ e ]} ∪ default ∅ (m !! a)]> m.

Definition escrow_object_inserted (id : Z) (e : escrow_object) (m : escrow_account_index)
    : escrow_account_index :=
  index_insert (eo_escrow e) id (index_insert (eo_seller e) id (index_insert (eo_buyer e) id m)).

Definition escrow_index_remove (a e : Z) (m : escrow_account_index) : escrow_account_index :=
  match m !! a with
  | Some s => let s' := s ∖ {[ e ]} in
              if decide (s' = ∅) then delete a m else <[a := s']> m
  | None => m
  end.

Definition escrow_object_removed (id : Z) (e : escrow_object) (m : escrow_account_index)
    : escrow_account_index :=
  escrow_index_remove (eo_escrow e) id
    (escrow_index_remove (eo_seller e) id (escrow_index_remove (eo_buyer e) id m)).

(** ** Properties *)

(** What [validate] demands on creation and every escrow keeps: the amount is
    in core currency, and a purchase says how many items it reserves. *)
Definition escrow_wf (e : escrow_object) : Prop :=
  asset_id (eo_amount e) = core_id ∧ (is_Some (eo_listing e) → is_Some (eo_listing_count e)).

Definition escrows_wf (d : database) : Prop :=
  ∀ id e, objs (db_escrows d) !! id = Some e → escrow_wf e.

(** What is taken from the escrowed amount when it is released and returned. *)
Definition release_fees (e : escrow_object) : Z :=
  fee_amount (escrow_fee (eo_ob_fee e)) +
  match eo_listing e with
  | Some _ => fee_amount (omnibazaar_fee (eo_ob_fee e)) + fee_amount (referrer_buyer_fee (eo_ob_fee e))
              + fee_amount (referrer_seller_fee (eo_ob_fee e))
  | None => 0
  end.
Definition return_fees (e : escrow_object) : Z := fee_amount (escrow_fee (eo_ob_fee e)).

(** What the agent gives back when the funds were kept with the agent. *)
Definition agent_part (o i : Z) (e : escrow_object) : Z :=
  if eo_transfer_to_escrow e then credit o i (eo_escrow e) (eo_amount e) else 0.

Lemma set_balances_id d : d = set_balances (λ m, m) d.
Proof. by destruct d. Qed.

Section properties.
Context {FC : FcArith} {FCL : FcArithLaws FC} {BA : BoostArith}.

Lemma pay_share_fee_ok d acct f ty a a' d' :
  pay_share_fee d acct f ty a = Ok (a', d') →
  a' = a - fee_amount f ∧ moves d d' (core_delta (fee_amount f)) ∧ same_ledger d d'.
Proof.
  unfold pay_share_fee. intros H. apply rbind_ok in H as ([x d1] & Hd & H). ok_inv. safe_inv.
  by apply deposit_fee_ok in Hd as (-> & ? & ?).
Qed.

Lemma update_reputations_ok d op e d' :
  update_reputations d op e = Ok d' → conserves d d' ∧ same_ledger d d'.
Proof.
  apply rfold_invariant with (P := λ d d', conserves d d' ∧ same_ledger d d').
  - split; [apply moves_refl|done].
  - intros a b c [? ?] [? ?]. split; [by eapply moves_conserves_l|by etrans].
  - intros a x b _ H. case_in H; ok_inv; [split; [apply moves_refl|done]|].
    split; [by eapply update_reputation_conserves|by eapply update_reputation_ledger].
Qed.

Lemma unlock_funds_ok d e d' :
  unlock_funds d e = Ok d' →
  moves d d' (λ aid, escrow_locked aid e - amount_of aid (eo_amount e)) ∧
  (∃ m, d' = set_balances m d) ∧
  ∀ o i, amount (get_balance d' o i) = amount (get_balance d o i) - agent_part o i e.
Proof.
  unfold unlock_funds, escrow_locked, agent_part. intros H.
  destruct (eo_transfer_to_escrow e); ok_inv.
  - match goal with H : asset_neg _ = _ |- _ => apply asset_neg_ok in H as -> end.
    split_and!; [|by eapply adjust_balance_frame|].
    + eapply moves_ext; [by eapply adjust_balance_moves|].
      intros aid; simpl. rewrite amount_of_neg. destruct (eo_amount e); simpl. lia.
    + intros o i. apply adjust_balance_get in H as [_ ->]. simpl. unfold credit.
      case_decide; lia.
  - split_and!; [|eexists; apply set_balances_id|intros; lia].
    eapply moves_ext; [apply moves_refl|]. intros; simpl; lia.
Qed.

Lemma remove_escrow_ok d id d' e :
  objs (db_escrows d) !! id = Some e → remove_escrow d id = Ok d' →
  moves d d' (λ aid, - escrow_locked aid e) ∧
  d' = set_escrows (λ t, mkTable (delete id (objs t)) (next_id t)) d.
Proof.
  unfold remove_escrow. intros He H. apply rbind_ok in H as (t & Ht & [= <-]).
  apply index_remove_ok in Ht as [_ ->]. split; [|done].
  apply moves_intro; [done..|]. intros aid.
  change (set_escrows _ d) with
    (set_escrows (λ t, mkTable (delete id (objs t)) (next_id (db_escrows d))) d).
  rewrite imbalance_delete_escrow, He. simpl. lia.
Qed.

Lemma escrow_release_ok d op d' e :
  escrow_release_do_apply d op = Ok d' → objs (db_escrows d) !! er_escrow op = Some e →
  (asset_id (eo_amount e) = core_id → conserves d d') ∧
  objs (db_escrows d') = delete (er_escrow op) (objs (db_escrows d)) ∧
  db_dgpo d' = db_dgpo d ∧ db_listings d' = db_listings d ∧
  ∀ o i, amount (get_balance d' o i) = amount (get_balance d o i) - agent_part o i e
    + credit o i (eo_seller e) (core_asset (amount (eo_amount e) - release_fees e)).
Proof.
  unfold escrow_release_do_apply. intros H He. unfold index_get in H. rewrite He in H.
  cbn [of_option rbind] in H. apply rbind_ok in H as (d1 & H1 & H).
  apply rbind_ok in H as ([a2 d2] & H2 & H). apply rbind_ok in H as ([a3 d3] & H3 & H).
  apply rbind_ok in H as (d4 & H4 & H). apply rbind_ok in H as (d5 & H5 & H).
  apply unlock_funds_ok in H1 as (M1 & [m1 E1] & G1). apply pay_share_fee_ok in H2 as (-> & M2 & L2).
  assert (a3 = amount (eo_amount e) - release_fees e ∧ same_ledger d2 d3 ∧
    moves d2 d3 (core_delta (release_fees e - fee_amount (escrow_fee (eo_ob_fee e)))))
    as (-> & L3 & M3).
  { unfold release_fees. destruct (eo_listing e); ok_inv.
    - repeat match goal with x : Z * database |- _ => destruct x; ok_inv end.
      repeat match goal with H : pay_share_fee _ _ _ _ _ = _ |- _ =>
        apply pay_share_fee_ok in H as (? & ? & ?) end. subst. split_and!; [lia| |].
      + etrans; [eassumption|]. etrans; eassumption.
      + eapply moves_ext; [eapply moves_trans; [eassumption|eapply moves_trans; eassumption]|].
        intros aid; simpl. unfold core_delta. rewrite !amount_of_core. case_match; lia.
    - split_and!; [lia|done|]. eapply moves_ext; [apply moves_refl|]. delta_solve. }
  pose proof (adjust_balance_moves _ _ _ _ H4) as M4.
  pose proof (adjust_balance_frame _ _ _ _ H4) as [m4 E4].
  apply adjust_balance_get in H4 as [_ G4]. apply update_reputations_ok in H5 as [M5 L5].
  assert (db_escrows d5 = db_escrows d) as Ee.
  { destruct L5 as (_ & _ & -> & _), L3 as (_ & _ & L3 & _), L2 as (_ & _ & L2 & _).
    rewrite E4. simpl. rewrite L3, L2, E1. done. }
  pose proof He as He'. rewrite <- Ee in He'.
  destruct (remove_escrow_ok _ _ _ _ He' H) as [M6 ->]. split_and!.
  - intros Hc. eapply moves_ext; [eapply moves_trans; [exact M1|eapply moves_trans; [exact M2|
      eapply moves_trans; [exact M3|eapply moves_trans; [exact M4|eapply moves_trans; [exact M5|exact M6]]]]]|].
    intros aid; simpl. destruct (eo_amount e) as [x i]; simpl in *; subst i.
    change (mkAsset x core_id) with (core_asset x). unfold core_delta. rewrite !amount_of_core.
    destruct (aid =? core_id); lia.
  - simpl. by rewrite Ee.
  - simpl. destruct L5 as (_ & _ & _ & _ & -> & _), L3 as (_ & _ & _ & _ & L3 & _),
      L2 as (_ & _ & _ & _ & L2 & _). rewrite E4; simpl. rewrite L3, L2, E1. done.
  - simpl. destruct L5 as (_ & -> & _), L3 as (_ & L3 & _), L2 as (_ & L2 & _).
    rewrite E4; simpl. rewrite L3, L2, E1. done.
  - intros o i. transitivity (amount (get_balance d5 o i)); [done|].
    rewrite (same_ledger_balance _ _ o i L5), G4, (same_ledger_balance _ _ o i L3),
      (same_ledger_balance _ _ o i L2), G1. done.
Qed.

Lemma escrow_return_ok d op d' e :
  escrow_return_do_apply d op = Ok d' → objs (db_escrows d) !! er_escrow op = Some e →
  (asset_id (eo_amount e) = core_id → conserves d d') ∧
  objs (db_escrows d') = delete (er_escrow op) (objs (db_escrows d)) ∧
  db_dgpo d' = db_dgpo d ∧
  (∀ o i, amount (get_balance d' o i) = amount (get_balance d o i) - agent_part o i e
    + credit o i (eo_buyer e) (core_asset (amount (eo_amount e) - return_fees e))) ∧
  (∀ lid, eo_listing e = Some lid → ∃ l count, objs (db_listings d) !! lid = Some l ∧
     eo_listing_count e = Some count ∧
     objs (db_listings d') !! lid = Some (set_quantity (λ q, wrap_u32 (q + count)) l)).
Proof.
  unfold escrow_return_do_apply. intros H He. unfold index_get in H. rewrite He in H.
  cbn [of_option rbind] in H. apply rbind_ok in H as (d1 & H1 & H).
  apply rbind_ok in H as ([a2 d2] & H2 & H). apply rbind_ok in H as (d4 & H4 & H).
  apply rbind_ok in H as (d5 & H5 & H). apply rbind_ok in H as (d6 & H6 & H).
  apply unlock_funds_ok in H1 as (M1 & [m1 E1] & G1). apply pay_share_fee_ok in H2 as (-> & M2 & L2).
  pose proof (adjust_balance_moves _ _ _ _ H4) as M4.
  pose proof (adjust_balance_frame _ _ _ _ H4) as [m4 E4].
  apply adjust_balance_get in H4 as [_ G4]. apply update_reputations_ok in H5 as [M5 L5].
  assert (db_escrows d5 = db_escrows d ∧ db_listings d5 = db_listings d ∧ db_dgpo d5 = db_dgpo d)
    as (Ee & El & Ed).
  { destruct L5 as (_ & -> & -> & _ & -> & _), L2 as (_ & L2l & L2e & _ & L2d & _).
    rewrite E4. simpl. rewrite L2l, L2e, L2d, E1. done. }
  assert (conserves d5 d6 ∧ db_escrows d6 = db_escrows d5 ∧ db_dgpo d6 = db_dgpo d5 ∧
    db_balances d6 = db_balances d5 ∧
    ∀ lid, eo_listing e = Some lid → ∃ l count, objs (db_listings d) !! lid = Some l ∧
      eo_listing_count e = Some count ∧
      objs (db_listings d6) !! lid = Some (set_quantity (λ q, wrap_u32 (q + count)) l))
    as (M6 & E6 & D6 & B6 & Q6).
  { destruct (eo_listing e) as [lid|]; [|ok_inv; split_and!; [apply moves_refl|naive_solver..]].
    apply rbind_ok in H6 as (count & Hcount & H6). ok_inv.
    pose proof (moves_modify_listing _ _ _ _ H6).
    apply modify_listing_ok in H6 as (l & l' & Hl & [= <-] & _ & ->).
    split_and!; [done..|]. intros ? [= <-]. exists l, count. rewrite <- El.
    split_and!; [done..|]. simpl. by rewrite lookup_insert_eq. }
  pose proof He as He'. rewrite <- Ee, <- E6 in He'.
  destruct (remove_escrow_ok _ _ _ _ He' H) as [M7 ->]. split_and!.
  - intros Hc. eapply moves_ext; [eapply moves_trans; [exact M1|eapply moves_trans; [exact M2|
      eapply moves_trans; [exact M4|eapply moves_trans; [exact M5|eapply moves_trans; [exact M6|exact M7]]]]]|].
    intros aid; simpl. destruct (eo_amount e) as [x i]; simpl in *; subst i.
    change (mkAsset x core_id) with (core_asset x). unfold core_delta. rewrite !amount_of_core.
    destruct (aid =? core_id); lia.
  - simpl. by rewrite E6, Ee.
  - simpl. by rewrite D6, Ed.
  - intros o i. transitivity (amount (get_balance d6 o i)); [done|].
    assert (get_balance d6 o i = get_balance d5 o i) as -> by (unfold get_balance; by rewrite B6).
    rewrite (same_ledger_balance _ _ o i L5), G4, (same_ledger_balance _ _ o i L2), G1. done.
  - exact Q6.
Qed.

(** Closing through the framework: fees touch neither escrows nor listings. *)
Lemma start_release_ok skip req d op d' e :
  start_evaluate false skip req d (mkRelease op) = Ok d' →
  objs (db_escrows d) !! er_escrow op = Some e →
  escrow_close_do_evaluate d op = Ok tt ∧
  (asset_id (eo_amount e) = core_id → conserves d d') ∧
  objs (db_escrows d') = delete (er_escrow op) (objs (db_escrows d)) ∧
  db_dgpo d' = db_dgpo d ∧ db_listings d' = db_listings d ∧
  ∀ o i, amount (get_balance d' o i) = amount (get_balance d o i) - agent_part o i e
    + credit o i (eo_seller e) (core_asset (amount (eo_amount e) - release_fees e))
    - credit o i (er_fee_paying_account op) (er_fee op).
Proof.
  intros (st & d1 & d2 & Hev & L & Hfee & Happ & Hadj)%start_evaluate_ok He. simpl in *.
  destruct st. pose proof L as (_ & Ll & Le & _ & Ld & _). rewrite <- Le in He.
  destruct (escrow_release_ok _ _ _ _ Happ He) as (Hc & Hes & Hd & Hl & Hb).
  pose proof (adjust_balance_moves _ _ _ _ Hadj) as M.
  pose proof (adjust_balance_frame _ _ _ _ Hadj) as [m ->].
  apply adjust_balance_get in Hadj as [_ G]. simpl in *. split_and!; [done|..].
  - intros Hcore. eapply moves_ext; [eapply moves_trans; [by apply Hfee|eapply moves_trans; [by apply Hc|exact M]]|].
    intros aid; simpl. rewrite amount_of_neg. destruct (er_fee op); simpl. lia.
  - by rewrite Hes, Le.
  - by rewrite Hd, Ld.
  - by rewrite Hl, Ll.
  - intros o i. rewrite G, Hb, (same_ledger_balance _ _ o i L). unfold credit; simpl.
    repeat case_decide; lia.
Qed.

Lemma start_return_ok skip req d op d' e :
  start_evaluate false skip req d (mkReturn op) = Ok d' →
  objs (db_escrows d) !! er_escrow op = Some e →
  escrow_close_do_evaluate d op = Ok tt ∧
  (asset_id (eo_amount e) = core_id → conserves d d') ∧
  objs (db_escrows d') = delete (er_escrow op) (objs (db_escrows d)) ∧
  db_dgpo d' = db_dgpo d ∧
  (∀ o i, amount (get_balance d' o i) = amount (get_balance d o i) - agent_part o i e
    + credit o i (eo_buyer e) (core_asset (amount (eo_amount e) - return_fees e))
    - credit o i (er_fee_paying_account op) (er_fee op)) ∧
  (∀ lid, eo_listing e = Some lid → ∃ l count, objs (db_listings d) !! lid = Some l ∧
     eo_listing_count e = Some count ∧
     objs (db_listings d') !! lid = Some (set_quantity (λ q, wrap_u32 (q + count)) l)).
Proof.
  intros (st & d1 & d2 & Hev & L & Hfee & Happ & Hadj)%start_evaluate_ok He. simpl in *.
  destruct st. pose proof L as (_ & Ll & Le & _ & Ld & _). rewrite <- Le in He.
  destruct (escrow_return_ok _ _ _ _ Happ He) as (Hc & Hes & Hd & Hb & Hq).
  pose proof (adjust_balance_moves _ _ _ _ Hadj) as M.
  pose proof (adjust_balance_frame _ _ _ _ Hadj) as [m ->].
  apply adjust_balance_get in Hadj as [_ G]. simpl in *. split_and!; [done|..].
  - intros Hcore. eapply moves_ext; [eapply moves_trans; [by apply Hfee|eapply moves_trans; [by apply Hc|exact M]]|].
    intros aid; simpl. rewrite amount_of_neg. destruct (er_fee op); simpl. lia.
  - by rewrite Hes, Le.
  - by rewrite Hd, Ld.
  - intros o i. rewrite G, Hb, (same_ledger_balance _ _ o i L). unfold credit; simpl.
    repeat case_decide; lia.
  - rewrite <- Ll. exact Hq.
Qed.

(** The funds go to the agent, or stay locked in the escrow. *)
Lemma agent_payment_ok d op d' :
  (if ec_transfer_to_escrow op then adjust_balance d (ec_escrow op) (ec_amount op) else Ok d) = Ok d' →
  moves d d' (λ aid, amount_of aid (ec_amount op) - escrow_locked aid (escrow_of op)) ∧
  (∃ m, d' = set_balances m d) ∧
  ∀ o i, amount (get_balance d' o i) = amount (get_balance d o i) + agent_part o i (escrow_of op).
Proof.
  intros H. unfold escrow_locked, agent_part; simpl. destruct (ec_transfer_to_escrow op); ok_inv.
  - split_and!; [|by eapply adjust_balance_frame|].
    + eapply moves_ext; [by eapply adjust_balance_moves|]. intros; simpl; lia.
    + intros o j. apply adjust_balance_get in H as [_ ->]. done.
  - split_and!; [|eexists; apply set_balances_id|intros; lia].
    eapply moves_ext; [apply moves_refl|]. intros; simpl; lia.
Qed.

(** The reserved items leave the stock. *)
Lemma reserve_items_ok d (lid count : option Z) d' :
  match lid, count with
  | Some l, Some c => modify_listing d l (λ l, Ok (set_quantity (λ q, wrap_u32 (q - c)) l))
  | _, _ => Ok d
  end = Ok d' →
  conserves d d' ∧ db_escrows d' = db_escrows d ∧ db_balances d' = db_balances d ∧
  ∀ i c l, lid = Some i → count = Some c → objs (db_listings d) !! i = Some l →
    objs (db_listings d') !! i = Some (set_quantity (λ q, wrap_u32 (q - c)) l).
Proof.
  intros H. destruct lid, count;
    [|ok_inv; split_and!; [apply moves_refl|naive_solver..]..].
  pose proof (moves_modify_listing _ _ _ _ H).
  apply modify_listing_ok in H as (l & l' & Hl & [= <-] & _ & ->).
  split_and!; [done..|]. intros i c l0 [= <-] [= <-] Hl0. simpl.
  rewrite lookup_insert_eq. congruence.
Qed.

Lemma escrow_create_ok d op id d' :
  escrow_create_do_apply d op = Ok (id, d') →
  id = next_id (db_escrows d) ∧ conserves d d' ∧
  objs (db_escrows d) !! id = None ∧
  objs (db_escrows d') = <[id := escrow_of op]> (objs (db_escrows d)) ∧
  (∀ o i, amount (get_balance d' o i) = amount (get_balance d o i)
     - credit o i (ec_buyer op) (ec_amount op) + agent_part o i (escrow_of op)) ∧
  (∀ lid count l, ec_listing op = Some lid → ec_listing_count op = Some count →
     objs (db_listings d) !! lid = Some l →
     objs (db_listings d') !! lid = Some (set_quantity (λ q, wrap_u32 (q - count)) l)).
Proof.
  unfold escrow_create_do_apply. intros H. apply rbind_ok in H as ([i t] & Ht & H).
  apply rbind_ok in H as (n & Hn & H). apply asset_neg_ok in Hn as ->.
  apply rbind_ok in H as (d1 & H1 & H). apply rbind_ok in H as (d2 & H2 & H).
  apply rbind_ok in H as (d3 & H3 & [= <- <-]).
  apply index_create_ok in Ht as (-> & Hnone & _ & ->).
  set (d0 := set_escrows _ d) in *.
  assert (moves d d0 (λ aid, escrow_locked aid (escrow_of op))) as M0.
  { apply moves_intro; [done..|]. intros aid.
    change d0 with (set_escrows (λ t, mkTable (<[next_id (db_escrows d) := escrow_of op]> (objs t))
      (next_id (db_escrows d) + 1)) d).
    rewrite imbalance_insert_escrow, Hnone. simpl. lia. }
  pose proof (adjust_balance_moves _ _ _ _ H1) as M1.
  pose proof (adjust_balance_frame _ _ _ _ H1) as [m1 E1]. apply adjust_balance_get in H1 as [_ G1].
  apply agent_payment_ok in H2 as (M2 & [m2 E2] & G2).
  apply reserve_items_ok in H3 as (M3 & E3 & B3 & Q3).
  split_and!; [done| |done|..].
  - eapply moves_ext; [eapply moves_trans; [exact M0|eapply moves_trans; [exact M1|
      eapply moves_trans; [exact M2|exact M3]]]|].
    intros aid; simpl. rewrite amount_of_neg. destruct (ec_amount op); simpl. lia.
  - by rewrite E3, E2, E1.
  - intros o i.
    assert (get_balance d3 o i = get_balance d2 o i) as -> by (unfold get_balance; by rewrite B3).
    rewrite G2, G1. change (get_balance d0 o i) with (get_balance d o i).
    unfold credit; simpl. case_decide; lia.
  - rewrite E2, E1 in Q3. exact Q3.
Qed.

(** Closing an escrow with well-formed terms only fails with an exception. *)
Lemma defined_pay_share_fee d acct f ty a : defined (pay_share_fee d acct f ty a).
Proof. unfold pay_share_fee. defined_tac. Qed.
Lemma defined_update_reputations d op e : defined (update_reputations d op e).
Proof. unfold update_reputations. defined_tac. Qed.
Lemma defined_unlock_funds d e : defined (unlock_funds d e).
Proof. unfold unlock_funds. defined_tac. Qed.
Lemma defined_remove_escrow d id : defined (remove_escrow d id).
Proof. unfold remove_escrow. defined_tac. Qed.
Local Hint Resolve defined_pay_share_fee defined_update_reputations defined_unlock_funds
  defined_remove_escrow : defined.

Lemma defined_release d op : defined (escrow_release_do_apply d op).
Proof. unfold escrow_release_do_apply. defined_tac. Qed.

Lemma defined_return d op : escrows_wf d → defined (escrow_return_do_apply d op).
Proof.
  intros Hwf. unfold escrow_return_do_apply.
  apply defined_rbind_ok; [apply defined_index_get|]. intros e He.
  apply of_option_ok, Hwf in He as [_ Hc]. defined_tac; destruct (eo_listing_count e) eqn:E;
    try (destruct Hc; eauto; congruence); simpl; try done; apply defined_modify_listing; defined_tac.
Qed.

Lemma defined_push_escrow req d id e release :
  (∀ b op, defined (req b op)) → escrows_wf d → defined (push_escrow req d id e release).
Proof.
  intros Hr Hwf. unfold push_escrow, escrow_close_validate. defined_tac;
    (apply defined_start_evaluate; [done|simpl; unfold escrow_close_do_evaluate; defined_tac|];
     intros d1 [] L; simpl); [apply defined_release|apply defined_return].
  intros i x Hx. destruct L as (_ & _ & L & _). rewrite L in Hx. by eapply Hwf.
Qed.

Lemma close_expired_ok req d id e :
  (∀ b op, defined (req b op)) → escrows_wf d → objs (db_escrows d) !! id = Some e →
  ∃ d', close_expired req d id e = Ok d' ∧
    objs (db_escrows d') = delete id (objs (db_escrows d)) ∧ db_dgpo d' = db_dgpo d.
Proof.
  intros Hr Hwf He. unfold close_expired.
  destruct (push_escrow req d id e true) as [d'|x] eqn:H1.
  { exists d'. split; [done|]. unfold push_escrow in H1. ok_inv.
    eapply start_release_ok in H1 as (_ & _ & ? & ? & _); done. }
  rewrite (try_catch_defined (Throw x) _) with (e := x);
    [|rewrite <- H1; by apply defined_push_escrow|done].
  destruct (push_escrow req d id e false) as [d'|y] eqn:H2.
  { exists d'. split; [done|]. unfold push_escrow in H2. ok_inv.
    eapply start_return_ok in H2 as (_ & _ & ? & ? & _); done. }
  rewrite (try_catch_defined (Throw y) _) with (e := y);
    [|rewrite <- H2; by apply defined_push_escrow|done].
  unfold remove_escrow, index_remove, index_get. rewrite He. simpl. eauto.
Qed.

Lemma clear_expired_escrows_ok fuel req d :
  (∀ b op, defined (req b op)) → escrows_wf d → (size (objs (db_escrows d)) <= fuel)%nat →
  ∃ d', clear_expired_escrows fuel req d = Ok d' ∧
    objs (db_escrows d') =
      filter (λ ke, head_block_time d < eo_expiration_time ke.2) (objs (db_escrows d)).
Proof.
  intros Hr. revert d. induction fuel as [|fuel IH]; intros d Hwf Hf.
  { exists d. apply Nat.le_0_r, map_size_empty_inv in Hf. simpl. rewrite Hf.
    split; [done|]. by rewrite map_filter_empty. }
  simpl. destruct (first_by _ _) as [[id e]|] eqn:Efirst.
  - apply first_by_some in Efirst as [He Hmin].
    destruct (Z.leb_spec (eo_expiration_time e) (head_block_time d)).
    + destruct (close_expired_ok req d id e Hr Hwf He) as (d1 & -> & Hes & Hd). cbn [rbind].
      destruct (IH d1) as (d' & Hrun & Hfil).
      { intros i x. rewrite Hes, lookup_delete_Some. intros [_ ?]. by eapply Hwf. }
      { rewrite Hes, map_size_delete_Some by done. lia. }
      exists d'. split; [done|]. rewrite Hfil, Hes. unfold head_block_time. rewrite Hd.
      rewrite map_filter_delete. apply delete_id, map_lookup_filter_None. right.
      intros x Hx. rewrite He in Hx. injection Hx as <-. simpl. unfold head_block_time in *. lia.
    + exists d. split; [done|]. symmetry. apply map_filter_id. intros i m Hm. simpl.
      specialize (Hmin i m Hm). lia.
  - apply first_by_none in Efirst. exists d. split; [done|]. rewrite Efirst. by rewrite map_filter_empty.
Qed.
End properties.
