(* ===== verification/EscrowProps.v ===== *)
(** * Escrow: what the operations guarantee

    The theorems on creating, releasing, returning and expiring escrows, run
    with their fees, and on the index of escrows by account. *)

From stdpp Require Import gmap strings.
From Stdlib Require Import ZArith Lia.
From S2P Require Import Prelude Fc Config Asset VestingBalance Objects Database Sample Balances Fees ObFee Reputation Exceptions Transfer Listing ListingInv Escrow.

Local Open Scope Z_scope.

(** ** The index of escrows by account *)

Definition is_party (a : Z) (e : escrow_object) : Prop :=
  a = eo_buyer e ∨ a = eo_seller e ∨ a = eo_escrow e.

Definition escrows_of (m : escrow_account_index) (a : Z) : gset Z := default ∅ (m !! a).

(** The index lists, for every account, exactly the open escrows it is a party
    of, and has no empty entries. *)
Definition index_agrees (t : gmap Z escrow_object) (m : escrow_account_index) : Prop :=
  (∀ a id, id ∈ escrows_of m a ↔ ∃ e, t !! id = Some e ∧ is_party a e) ∧
  (∀ a s, m !! a = Some s → s ≠ ∅).

Lemma escrows_of_insert a e m b :
  escrows_of (index_insert a e m) b =
    if decide (a = b) then {[ e ]} ∪ escrows_of m b else escrows_of m b.
Proof.
  unfold escrows_of, index_insert. case_decide as E.
  - subst. by rewrite lookup_insert_eq.
  - by rewrite lookup_insert_ne.
Qed.

Lemma escrows_of_remove a e m b :
  escrows_of (escrow_index_remove a e m) b =
    if decide (a = b) then escrows_of m b ∖ {[ e ]} else escrows_of m b.
Proof.
  unfold escrows_of, escrow_index_remove. destruct (m !! a) as [s|] eqn:Ha; destruct (decide (a = b)) as [E|E].
  - subst. rewrite Ha. simpl. case_decide as E'; [rewrite lookup_delete_eq; simpl; by rewrite E'|].
    by rewrite lookup_insert_eq.
  - case_decide; [by rewrite lookup_delete_ne|by rewrite lookup_insert_ne].
  - subst. rewrite Ha. simpl. set_solver.
  - done.
Qed.

Definition no_empty (m : escrow_account_index) : Prop := ∀ a s, m !! a = Some s → s ≠ ∅.

Lemma no_empty_insert a e m : no_empty m → no_empty (index_insert a e m).
Proof.
  unfold no_empty, index_insert. intros H b s. rewrite lookup_insert_Some.
  intros [[_ <-]|[_ Hb]]; [set_solver|by eapply H].
Qed.

Lemma no_empty_remove a e m : no_empty m → no_empty (escrow_index_remove a e m).
Proof.
  unfold no_empty, escrow_index_remove. intros H b s. destruct (m !! a); [|apply H].
  case_decide as E; [rewrite lookup_delete_Some; naive_solver|].
  rewrite lookup_insert_Some. intros [[_ <-]|[_ Hb]]; [done|by eapply H].
Qed.

(** The index of escrows by account stays exact: starting from an index
    that lists for every account the open escrows it takes part in, the
    callbacks for a new and for a removed escrow lead to such an index again,
    and accounts without escrows have no entry. *)
Theorem escrow_index_exact t m id e :
  index_agrees t m →
  (t !! id = None → index_agrees (<[id := e]> t) (escrow_object_inserted id e m)) ∧
  (t !! id = Some e → index_agrees (delete id t) (escrow_object_removed id e m)).
Proof.
  intros [Hm He]. unfold escrow_object_inserted, escrow_object_removed. split; intros Hid; split.
  - intros a i. rewrite !escrows_of_insert.
    assert (i ∈ (if decide (eo_escrow e = a) then {[id]} ∪
        (if decide (eo_seller e = a) then {[id]} ∪
           (if decide (eo_buyer e = a) then {[id]} ∪ escrows_of m a else escrows_of m a)
         else if decide (eo_buyer e = a) then {[id]} ∪ escrows_of m a else escrows_of m a)
      else if decide (eo_seller e = a) then {[id]} ∪
           (if decide (eo_buyer e = a) then {[id]} ∪ escrows_of m a else escrows_of m a)
         else if decide (eo_buyer e = a) then {[id]} ∪ escrows_of m a else escrows_of m a)
      ↔ (i = id ∧ is_party a e) ∨ i ∈ escrows_of m a) as ->
      by (unfold is_party; repeat case_decide; set_solver).
    rewrite Hm. setoid_rewrite lookup_insert_Some. naive_solver.
  - by do 3 apply no_empty_insert.
  - intros a i. rewrite !escrows_of_remove.
    assert (is_party a e ∨ ¬ is_party a e) as [Hp|Hp]
      by (unfold is_party; destruct (decide (a = eo_buyer e)), (decide (a = eo_seller e)),
            (decide (a = eo_escrow e)); naive_solver).
    + trans (i ∈ escrows_of m a ∧ i ≠ id).
      { unfold is_party in Hp. repeat case_decide; set_solver. }
      rewrite Hm. setoid_rewrite lookup_delete_Some. naive_solver.
    + trans (i ∈ escrows_of m a).
      { unfold is_party in Hp. repeat case_decide; naive_solver. }
      rewrite Hm. setoid_rewrite lookup_delete_Some. naive_solver.
  - by do 3 apply no_empty_remove.
Qed.

Lemma escrow_index_exact_witness :
  index_agrees {[ 0 := sample_escrow ]} (escrow_object_inserted 0 sample_escrow ∅).
Proof.
  apply (escrow_index_exact ∅ ∅ 0 sample_escrow); [|reflexivity].
  split; [|intros a s; by rewrite lookup_empty].
  intros a id. unfold escrows_of. rewrite lookup_empty. simpl. split; [set_solver|].
  intros (e & He & _). by rewrite lookup_empty in He.
Defined.

(** ** Operations *)

Section theorems.
Context {FC : FcArith} {FCL : FcArithLaws FC} {BA : BoostArith}.

(** Creating an escrow, run with its fee: nothing is created or
    destroyed; a new escrow object holds the terms of the operation; the
    buyer pays the amount and the fee; the agent holds the amount exactly
    when [transfer_to_escrow] is set, otherwise it is locked in the chain;
    the agent is accepted by both sides; in a purchase the reserved items
    leave the stock. *)
Theorem escrow_create_correct skip req d op d' :
  escrow_create_validate op = Ok tt → escrows_wf d →
  start_evaluate false skip req d op = Ok d' →
  conserves d d' ∧ escrows_wf d' ∧
  objs (db_escrows d') = <[next_id (db_escrows d) := escrow_of op]> (objs (db_escrows d)) ∧
  (∀ o i, amount (get_balance d' o i) = amount (get_balance d o i)
     - credit o i (ec_buyer op) (ec_amount op) + agent_part o i (escrow_of op)
     - credit o i (ec_buyer op) (ec_fee op)) ∧
  (∀ lid l, ec_listing op = Some lid → objs (db_listings d) !! lid = Some l →
     lo_quantity l < 2 ^ 32 →
     ∃ count l', ec_listing_count op = Some count ∧ 0 < count <= lo_quantity l ∧
       objs (db_listings d') !! lid = Some l' ∧ lo_quantity l' = lo_quantity l - count).
Proof.
  intros Hv Hwf (st & d1 & d2 & Hev & L & Hfee & Happ & Hadj)%start_evaluate_ok. simpl in *.
  apply rbind_ok in Happ as ([id d3] & Happ & [= <-]). simpl in *.
  destruct (escrow_create_ok _ _ _ _ Happ) as (-> & M & _ & Hes & Hb & Hq).
  pose proof (adjust_balance_moves _ _ _ _ Hadj) as M'.
  pose proof (adjust_balance_frame _ _ _ _ Hadj) as [m ->]. apply adjust_balance_get in Hadj as [_ G].
  pose proof L as (_ & Ll & Le & _). simpl in *. rewrite Le in Hes. split_and!.
  - eapply moves_ext; [eapply moves_trans; [by apply Hfee|eapply moves_trans; [exact M|exact M']]|].
    intros aid; simpl. rewrite amount_of_neg. destruct (ec_fee op); simpl. lia.
  - intros id e. simpl. rewrite Hes, lookup_insert_Some. intros [[_ <-]|[_ He]]; [|by eapply Hwf].
    unfold escrow_create_validate in Hv. ok_inv. split; simpl; [lia|].
    intros [l Hl]. rewrite Hl in *. by ok_inv.
  - done.
  - intros o i. rewrite G, Hb, (same_ledger_balance _ _ o i L). unfold credit; simpl.
    repeat case_decide; lia.
  - intros lid l Hlid Hl Hr.
    unfold escrow_create_do_evaluate in Hev. rewrite Hlid in Hev. unfold index_get in Hev.
    rewrite Hl in Hev. ok_inv. safe_inv.
    match goal with H : ec_listing_count op = Some ?c |- _ =>
      rename H into Hc; exists c;
      assert (0 < c) by (unfold escrow_create_validate in Hv; rewrite Hc in Hv; ok_inv; lia) end.
    rewrite Ll in Hq. eexists. split_and!; [done|lia|lia|by eapply Hq|].
    simpl. rewrite wrap_u32_small; lia.
Qed.

(** C15.  Releasing an escrow, run with its fee: nothing is created or
    destroyed; the parties named are those of the escrow; the object is
    gone, so it cannot be closed twice; the seller receives the amount less
    the agent's fee and, in a purchase, the sale fees, out of the agent's
    balance when the agent held the funds; no other balance changes. *)
Theorem escrow_release_correct skip req d op d' e :
  escrows_wf d → objs (db_escrows d) !! er_escrow op = Some e →
  start_evaluate false skip req d (mkRelease op) = Ok d' →
  conserves d d' ∧ escrows_wf d' ∧
  (er_buyer_account op = eo_buyer e ∧ er_seller_account op = eo_seller e ∧
   er_escrow_account op = eo_escrow e) ∧
  objs (db_escrows d') = delete (er_escrow op) (objs (db_escrows d)) ∧
  ∀ o i, amount (get_balance d' o i) = amount (get_balance d o i) - agent_part o i e
    + credit o i (eo_seller e) (core_asset (amount (eo_amount e) - release_fees e))
    - credit o i (er_fee_paying_account op) (er_fee op).
Proof.
  intros Hwf He H. destruct (start_release_ok _ _ _ _ _ _ H He) as (Hev & Hc & Hes & _ & _ & Hb).
  split_and!; [by eapply Hc, (Hwf _ _ He)| | | | |done|done];
    try (unfold escrow_close_do_evaluate, index_get in Hev; rewrite He in Hev; ok_inv; lia).
  intros i x. rewrite Hes, lookup_delete_Some. intros [_ ?]. by eapply Hwf.
Qed.

(** Returning an escrow, run with its fee: nothing is created or
    destroyed, the object is gone, the buyer receives the amount less the
    agent's fee, and the reserved items are back in stock. *)
Theorem escrow_return_correct skip req d op d' e :
  escrows_wf d → objs (db_escrows d) !! er_escrow op = Some e →
  start_evaluate false skip req d (mkReturn op) = Ok d' →
  conserves d d' ∧ escrows_wf d' ∧
  objs (db_escrows d') = delete (er_escrow op) (objs (db_escrows d)) ∧
  (∀ o i, amount (get_balance d' o i) = amount (get_balance d o i) - agent_part o i e
    + credit o i (eo_buyer e) (core_asset (amount (eo_amount e) - return_fees e))
    - credit o i (er_fee_paying_account op) (er_fee op)) ∧
  (∀ lid l count, eo_listing e = Some lid → eo_listing_count e = Some count →
     objs (db_listings d) !! lid = Some l → 0 <= lo_quantity l + count < 2 ^ 32 →
     ∃ l', objs (db_listings d') !! lid = Some l' ∧ lo_quantity l' = lo_quantity l + count).
Proof.
  intros Hwf He H. destruct (start_return_ok _ _ _ _ _ _ H He) as (Hev & Hc & Hes & _ & Hb & Hq).
  split_and!; [by eapply Hc, (Hwf _ _ He)| |done|done|].
  - intros i x. rewrite Hes, lookup_delete_Some. intros [_ ?]. by eapply Hwf.
  - intros lid l count Hlid Hcount Hl Hr.
    destruct (Hq lid Hlid) as (l0 & c0 & Hl0 & Hc0 & Hq').
    assert (l0 = l) as -> by congruence. assert (c0 = count) as -> by congruence.
    eexists. split; [done|]. simpl. rewrite wrap_u32_small; lia.
Qed.

(** The clean-up of expired escrows always ends, after at most as many
    rounds as there are escrows, whatever the fee schedule demands (the
    computation of the fee may itself throw) and however releases and returns
    fail; afterwards exactly the escrows that had not expired are left. *)
Theorem clear_expired_escrows_correct req d :
  (∀ release op, defined (req release op)) → escrows_wf d →
  ∃ d', clear_expired_escrows (size (objs (db_escrows d))) req d = Ok d' ∧
    objs (db_escrows d') =
      filter (λ ke, head_block_time d < eo_expiration_time ke.2) (objs (db_escrows d)).
Proof. intros. by apply clear_expired_escrows_ok. Qed.

(** An escrow for a purchase cannot be returned once its listing is
    gone (deleted by the seller, banned or expired): every attempt fails,
    because the stock of the listing is updated without a check. *)
Theorem escrow_return_needs_listing skip req d op e lid :
  objs (db_escrows d) !! er_escrow op = Some e → eo_listing e = Some lid →
  objs (db_listings d) !! lid = None →
  is_ok (start_evaluate false skip req d (mkReturn op)) = false.
Proof.
  intros He Hlid Hl. destruct (start_evaluate _ _ _ _ _) as [d'|] eqn:H; [|done].
  destruct (start_return_ok _ _ _ _ _ _ H He) as (_ & _ & _ & _ & _ & Hq).
  destruct (Hq lid Hlid) as (l & c & Hl' & _). congruence.
Qed.
End theorems.

(** ** Examples *)

Lemma sample_escrows_wf : escrows_wf sample_db.
Proof. intros id e. simpl. rewrite lookup_singleton_Some. by intros [<- <-]. Qed.

Definition sample_escrow_create : escrow_create_operation :=
  mkEscrowCreate (core_asset 20)
    (mkObFee (Some (core_asset 4)) (Some (core_asset 2)) (Some (core_asset 1)) (Some (core_asset 1)) None)
    1570001000 alice bob carol (core_asset 400) false (Some 0) (Some 4).

Definition run_escrow_create : result database :=
  start_evaluate (FC := fc_reference) (BA := boost_reference)
    (E := escrow_create_evaluator (FC := fc_reference)) false false (Ok 20) sample_db sample_escrow_create.

Lemma escrow_create_correct_witness :
  let d' := get_ok run_escrow_create sample_db in
  conserves sample_db d' ∧ amount (get_balance d' alice 0) = 999580.
Proof.
  intros d'.
  destruct (escrow_create_correct (FCL := fc_reference_laws) (BA := boost_reference)
    false (Ok 20) sample_db sample_escrow_create d') as (H & _ & _ & Hb & _).
  - reflexivity.
  - exact sample_escrows_wf.
  - apply get_ok_eq. vm_compute. reflexivity.
  - split; [exact H|]. rewrite Hb. vm_compute. reflexivity.
Defined.

Definition sample_close : escrow_close_operation :=
  mkEscrowClose (core_asset 0) alice 0 alice carol bob 10 5 5.

Lemma escrow_release_correct_witness :
  let d' := get_ok (start_evaluate (FC := fc_reference) (BA := boost_reference)
    (E := escrow_release_evaluator (FC := fc_reference)) false false (Ok 0) sample_db
    (mkRelease sample_close)) sample_db in
  conserves sample_db d' ∧ amount (get_balance d' bob 0) = 7000.
Proof.
  intros d'.
  destruct (escrow_release_correct (FCL := fc_reference_laws) (BA := boost_reference)
    false (Ok 0) sample_db sample_close d' sample_escrow) as (H & _ & _ & _ & Hb).
  - exact sample_escrows_wf.
  - reflexivity.
  - apply get_ok_eq. vm_compute. reflexivity.
  - split; [exact H|]. rewrite Hb. vm_compute. reflexivity.
Defined.

Lemma escrow_return_correct_witness :
  let d' := get_ok (start_evaluate (FC := fc_reference) (BA := boost_reference)
    (E := escrow_return_evaluator (FC := fc_reference)) false false (Ok 0) sample_db
    (mkReturn sample_close)) sample_db in
  conserves sample_db d' ∧ amount (get_balance d' alice 0) = 1005000.
Proof.
  intros d'.
  destruct (escrow_return_correct (FCL := fc_reference_laws) (BA := boost_reference)
    false (Ok 0) sample_db sample_close d' sample_escrow) as (H & _ & _ & Hb & _).
  - exact sample_escrows_wf.
  - reflexivity.
  - apply get_ok_eq. vm_compute. reflexivity.
  - split; [exact H|]. rewrite Hb. vm_compute. reflexivity.
Defined.

(** Alice buys through an escrow, Bob deletes the listing, Carol cannot
    return the funds. *)
Lemma escrow_return_needs_listing_witness :
  let d := set_listings (λ t, mkTable ∅ (next_id t)) (get_ok run_escrow_create sample_db) in
  is_ok (start_evaluate (FC := fc_reference) (BA := boost_reference)
    (E := escrow_return_evaluator (FC := fc_reference)) false false (Ok 0) d
    (mkReturn (mkEscrowClose (core_asset 0) carol 1 alice carol bob 5 5 5))) = false.
Proof.
  intros d.
  apply (escrow_return_needs_listing (FCL := fc_reference_laws) (BA := boost_reference)
    false (Ok 0) d _ (escrow_of sample_escrow_create) 0); vm_compute; reflexivity.
Defined.

(** The escrow of the sample ledger, had it expired at the last block, is
    closed. *)
Lemma clear_expired_escrows_correct_witness :
  let d := set_escrows (λ _, mkTable {[ 0 := set_escrow_expiration (λ _, head_block_time sample_db)
             sample_escrow ]} 1) sample_db in
  ∃ d', clear_expired_escrows (FC := fc_reference) (BA := boost_reference) 1 (λ _ _, Ok 0) d = Ok d' ∧
    objs (db_escrows d') = ∅.
Proof.
  intros d. destruct (clear_expired_escrows_correct (FCL := fc_reference_laws)
    (BA := boost_reference) (λ _ _, Ok 0) d) as (d' & H & Hd).
  { done. }
  { intros id e. simpl. rewrite lookup_singleton_Some. by intros [<- <-]. }
  exists d'. split; [exact H|]. rewrite Hd. vm_compute. reflexivity.
Defined.
