(* ===== verification/Bonus.v ===== *)
(** * Bonuses

    The availability checks and amounts of [db_bonus.cpp] and the evaluators
    of the welcome, referral, sale, witness and founder bonus operations
    ([omnibazaar/*_bonus_evaluator.cpp]).  Every bonus is newly issued core
    currency; the dynamic global properties count how much was issued. *)

From stdpp Require Import gmap strings.
From Stdlib Require Import ZArith Lia.
From S2P Require Import Prelude Fc Config Asset VestingBalance Objects Database Sample Balances Fees.

Local Open Scope Z_scope.

Record welcome_bonus_operation := mkWelcome { wb_fee : asset; wb_receiver : Z }.
Record referral_bonus_operation :=
  mkReferral { rb_fee : asset; rb_referred_account : Z; rb_referrer_account : Z }.
Record sale_bonus_operation :=
  mkSale { sb_fee : asset; sb_payer : Z; sb_seller : Z; sb_buyer : Z }.
Record witness_bonus_operation := mkWitnessBonus { nb_fee : asset; nb_payer : Z; nb_receiver : Z }.
Record founder_bonus_operation := mkFounder { fb_fee : asset; fb_payer : Z }.

Definition coins (n : Z) : Z := n * GRAPHENE_BLOCKCHAIN_PRECISION.

(** ** [db_bonus.cpp] *)

Definition users_count (d : database) : Z := Z.of_nat (size (objs (db_accounts d))).

Definition is_welcome_bonus_available (d : database) (harddrive_id mac_address : string) : bool :=
  if String.eqb harddrive_id "" || String.eqb mac_address "" then false
  else negb (existsb (λ ka, String.eqb (ao_drive_id ka.2) harddrive_id
                            && String.eqb (ao_mac_address ka.2) mac_address
                            && ao_received_welcome_bonus ka.2)
                     (map_to_list (objs (db_accounts d)))).

Definition get_welcome_bonus_amount (d : database) : Z :=
  let n := users_count d in
  if n <=? 1000 then coins 10000
  else if n <=? 10000 then coins 5000
  else if n <=? 100000 then coins 2500
  else if n <=? 1000000 then coins 1250
  else coins 625.

Definition is_referral_bonus_available (d : database) : bool :=
  dg_referral_bonus (db_dgpo d) <? OMNIBAZAAR_REFERRAL_BONUS_LIMIT.

Definition is_sale_bonus_available (d : database) (seller buyer : Z) : result bool :=
  if OMNIBAZAAR_SALE_BONUS_LIMIT <=? dg_sale_bonus (db_dgpo d) then Ok false
  else
    let* s := get_account d seller in
    Ok (negb (bool_decide (buyer ∈ ao_buyers s))).

Section operations.
Context {FC : FcArith}.

Definition bonus_fee_validate (fee : asset) : result unit :=
  require (0 <=? amount fee) assert_exception.

Definition referral_bonus_validate (op : referral_bonus_operation) : result unit :=
  FC_ASSERT (0 <=? amount (rb_fee op)) ;;
  require (negb (rb_referred_account op =? rb_referrer_account op)) assert_exception.

Definition sale_bonus_validate (op : sale_bonus_operation) : result unit :=
  FC_ASSERT (0 <=? amount (sb_fee op)) ;;
  require (negb (sb_seller op =? sb_buyer op)) assert_exception.

(** The supply of the core currency grows by the bonus. *)
Definition add_supply (d : database) (bonus_sum : Z) : result database :=
  let* core := get_core_asset d in
  modify_asset_dyn d (as_dynamic_asset_data_id core) (λ s,
    let* c := safe_add (dd_current_supply s) bonus_sum in Ok (set_current_supply (λ _, c) s)).

Definition welcome_bonus_do_evaluate (d : database) (op : welcome_bonus_operation) : result unit :=
  FC_ASSERT (dg_welcome_bonus (db_dgpo d) <? OMNIBAZAAR_WELCOME_BONUS_LIMIT) ;;
  let* receiver := get_account d (wb_receiver op) in
  require (negb (ao_received_welcome_bonus receiver)) assert_exception.

Definition welcome_bonus_do_apply (d : database) (op : welcome_bonus_operation) : result database :=
  let bonus_sum := get_welcome_bonus_amount d in
  let* d := adjust_balance d (wb_receiver op) (core_asset bonus_sum) in
  let* d := modify_account d (wb_receiver op) (set_received_welcome_bonus (λ _, true)) in
  let* d := add_supply d bonus_sum in
  modify_dgpo d (λ g, let* b := safe_add (dg_welcome_bonus g) bonus_sum in
                      Ok (set_welcome_bonus (λ _, b) g)).

Definition referral_bonus_sum (d : database) : Z :=
  let n := users_count d in
  if n <=? 10000 then coins 2500
  else if n <=? 100000 then coins 1250
  else if n <=? 1000000 then coins 625
  else coins 312 + 5 * GRAPHENE_BLOCKCHAIN_PRECISION / 10.

Definition referral_bonus_do_evaluate (d : database) (op : referral_bonus_operation)
    : result unit :=
  FC_ASSERT (dg_referral_bonus (db_dgpo d) <? OMNIBAZAAR_REFERRAL_BONUS_LIMIT) ;;
  let* referred := get_account d (rb_referred_account op) in
  FC_ASSERT (negb (ao_sent_referral_bonus referred)) ;;
  FC_ASSERT (ao_referrer referred =? rb_referrer_account op) ;;
  require (ao_received_welcome_bonus referred) assert_exception.

Definition referral_bonus_do_apply (d : database) (op : referral_bonus_operation)
    : result database :=
  let bonus_sum := referral_bonus_sum d in
  let* d := adjust_balance d (rb_referrer_account op) (core_asset bonus_sum) in
  let* d := modify_account d (rb_referred_account op) (set_sent_referral_bonus (λ _, true)) in
  let* d := add_supply d bonus_sum in
  modify_dgpo d (λ g, let* b := safe_add (dg_referral_bonus g) bonus_sum in
                      Ok (set_referral_bonus (λ _, b) g)).

Definition sale_bonus_sum (d : database) : Z :=
  let n := users_count d in
  if n <=? 100000 then coins 500
  else if n <=? 1000000 then coins 250
  else if n <=? 10000000 then coins 125
  else coins 62 + 5 * GRAPHENE_BLOCKCHAIN_PRECISION / 10.

Definition sale_bonus_do_evaluate (d : database) (op : sale_bonus_operation) : result unit :=
  let* _ := require (negb (OMNIBAZAAR_SALE_BONUS_LIMIT <=? dg_sale_bonus (db_dgpo d))) thrown in
  let* seller := get_account d (sb_seller op) in
  require (negb (bool_decide (sb_buyer op ∈ ao_buyers seller))) thrown.

Definition sale_bonus_do_apply (d : database) (op : sale_bonus_operation) : result database :=
  let bonus_sum := sale_bonus_sum d in
  let* d := adjust_balance d (sb_seller op) (core_asset bonus_sum) in
  let* d := modify_account d (sb_seller op) (set_buyers (λ s, {[ sb_buyer op ]} ∪ s)) in
  let* d := add_supply d bonus_sum in
  modify_dgpo d (λ g, let* b := safe_add (dg_sale_bonus g) bonus_sum in
                      Ok (set_sale_bonus (λ _, b) g)).

Definition is_witness_account (d : database) (a : Z) : bool :=
  existsb (λ kw, wo_witness_account kw.2 =? a) (map_to_list (db_witnesses d)).

Definition witness_bonus_do_evaluate (d : database) (op : witness_bonus_operation) : result unit :=
  FC_ASSERT (dg_witness_bonus (db_dgpo d) <? OMNIBAZAAR_WITNESS_BONUS_TOTAL_COINS) ;;
  require (is_witness_account d (nb_receiver op)) assert_exception.

Definition witness_bonus_sum (d : database) : Z :=
  let time_since_genesis := head_block_time d - db_initial_timestamp d in
  if time_since_genesis <=? OMNIBAZAAR_WITNESS_BONUS_TIME_LIMIT_1
  then OMNIBAZAAR_WITNESS_BONUS_COINS_PER_SECOND_1 * block_interval d
  else if time_since_genesis
          <=? OMNIBAZAAR_WITNESS_BONUS_TIME_LIMIT_1 + OMNIBAZAAR_WITNESS_BONUS_TIME_LIMIT_2
  then OMNIBAZAAR_WITNESS_BONUS_COINS_PER_SECOND_2 * block_interval d
  else Z.min (OMNIBAZAAR_WITNESS_BONUS_COINS_PER_SECOND_3 * block_interval d)
             (OMNIBAZAAR_WITNESS_BONUS_TOTAL_COINS - dg_witness_bonus (db_dgpo d)).

Definition witness_bonus_do_apply (d : database) (op : witness_bonus_operation) : result database :=
  let bonus_sum := witness_bonus_sum d in
  let* d := adjust_balance d (nb_receiver op) (core_asset bonus_sum) in
  let* d := add_supply d bonus_sum in
  modify_dgpo d (λ g, let* b := safe_add (dg_witness_bonus g) bonus_sum in
                      Ok (set_witness_bonus (λ _, b) g)).

Definition founder_bonus_do_evaluate (d : database) (op : founder_bonus_operation) : result unit :=
  require (dg_founder_bonus (db_dgpo d) <? OMNIBAZAAR_FOUNDER_BONUS_COINS_LIMIT) assert_exception.

Definition founder_bonus_sum (d : database) : Z :=
  Z.min (OMNIBAZAAR_FOUNDER_BONUS_COINS_PER_SECOND * block_interval d)
        (OMNIBAZAAR_FOUNDER_BONUS_COINS_LIMIT - dg_founder_bonus (db_dgpo d)).

Definition founder_bonus_do_apply (d : database) (op : founder_bonus_operation) : result database :=
  let bonus_sum := founder_bonus_sum d in
  let* d := adjust_balance d (get_founder_account d) (core_asset bonus_sum) in
  let* d := add_supply d bonus_sum in
  modify_dgpo d (λ g, let* b := safe_add (dg_founder_bonus g) bonus_sum in
                      Ok (set_founder_bonus (λ _, b) g)).

#[export] Instance welcome_bonus_evaluator : Evaluator welcome_bonus_operation := {
  ev_state := unit; op_fee_payer := λ _, OMNIBAZAAR_WELCOME_ACCOUNT; op_fee := wb_fee;
  do_evaluate := welcome_bonus_do_evaluate; do_apply := λ d op _, welcome_bonus_do_apply d op }.
#[export] Instance referral_bonus_evaluator : Evaluator referral_bonus_operation := {
  ev_state := unit; op_fee_payer := rb_referred_account; op_fee := rb_fee;
  do_evaluate := referral_bonus_do_evaluate; do_apply := λ d op _, referral_bonus_do_apply d op }.
#[export] Instance sale_bonus_evaluator : Evaluator sale_bonus_operation := {
  ev_state := unit; op_fee_payer := sb_payer; op_fee := sb_fee;
  do_evaluate := sale_bonus_do_evaluate; do_apply := λ d op _, sale_bonus_do_apply d op }.
#[export] Instance witness_bonus_evaluator : Evaluator witness_bonus_operation := {
  ev_state := unit; op_fee_payer := nb_payer; op_fee := nb_fee;
  do_evaluate := witness_bonus_do_evaluate; do_apply := λ d op _, witness_bonus_do_apply d op }.
#[export] Instance founder_bonus_evaluator : Evaluator founder_bonus_operation := {
  ev_state := unit; op_fee_payer := fb_payer; op_fee := fb_fee;
  do_evaluate := founder_bonus_do_evaluate; do_apply := λ d op _, founder_bonus_do_apply d op }.
End operations.

(** ** Properties *)

(** One applied bonus operation. *)
Inductive bonus_step {FC : FcArith} {BA : BoostArith} (d d' : database) : Prop :=
  | step_welcome skip req (op : welcome_bonus_operation) :
      start_evaluate false skip req d op = Ok d' → bonus_step d d'
  | step_referral skip req (op : referral_bonus_operation) :
      start_evaluate false skip req d op = Ok d' → bonus_step d d'
  | step_sale skip req (op : sale_bonus_operation) :
      start_evaluate false skip req d op = Ok d' → bonus_step d d'
  | step_witness skip req (op : witness_bonus_operation) :
      start_evaluate false skip req d op = Ok d' → bonus_step d d'
  | step_founder skip req (op : founder_bonus_operation) :
      start_evaluate false skip req d op = Ok d' → bonus_step d d'.

(** How far the programmes can be exhausted: the founder's never beyond its
    limit, the others by less than one bonus. *)
Definition bonus_wf (d : database) : Prop :=
  let g := db_dgpo d in
  0 <= dg_founder_bonus g <= OMNIBAZAAR_FOUNDER_BONUS_COINS_LIMIT ∧
  0 <= dg_welcome_bonus g < OMNIBAZAAR_WELCOME_BONUS_LIMIT + coins 10000 ∧
  0 <= dg_referral_bonus g < OMNIBAZAAR_REFERRAL_BONUS_LIMIT + coins 2500 ∧
  0 <= dg_sale_bonus g < OMNIBAZAAR_SALE_BONUS_LIMIT + coins 500 ∧
  0 <= dg_witness_bonus g <
    OMNIBAZAAR_WITNESS_BONUS_TOTAL_COINS + OMNIBAZAAR_WITNESS_BONUS_COINS_PER_SECOND_1 * 255.

(** [block_interval] is a [uint8_t]. *)
Definition interval_wf (d : database) : Prop := 0 <= block_interval d <= 255.

Section properties.
Context {FC : FcArith} {FCL : FcArithLaws FC} {BA : BoostArith}.

Lemma add_supply_ok d x d' :
  add_supply d x = Ok d' →
  moves d d' (core_delta (- x)) ∧ db_dgpo d' = db_dgpo d ∧ db_accounts d' = db_accounts d.
Proof.
  unfold add_supply, get_core_asset, get_asset_object. intros H. ok_inv.
  eapply moves_modify_asset_dyn in H as (s & s' & _ & Hs & -> & Hm); [|done].
  ok_inv. safe_inv. split; [|done]. eapply moves_ext; [exact Hm|].
  intros aid; simpl. unfold core_delta. change (mkAsset ?x core_id) with (core_asset x).
  rewrite !amount_of_core. destruct (aid =? core_id); lia.
Qed.

(** Paying a bonus, changing the receiver's flags by [f] and counting it. *)
Lemma issue_bonus_ok d acct x d1 d2 d3 d' g :
  adjust_balance d acct (core_asset x) = Ok d1 →
  conserves d1 d2 → db_dgpo d2 = db_dgpo d1 →
  add_supply d2 x = Ok d3 → modify_dgpo d3 g = Ok d' →
  (∀ p p', g p = Ok p' → dg_witness_budget p' = dg_witness_budget p) →
  conserves d d' ∧ g (db_dgpo d) = Ok (db_dgpo d') ∧ db_accounts d' = db_accounts d2.
Proof.
  intros H1 M2 D2 H3 H4 Hg. pose proof (adjust_balance_moves _ _ _ _ H1) as M1.
  apply adjust_balance_frame in H1 as [m ->]. apply add_supply_ok in H3 as (M3 & D3 & A3).
  pose proof (moves_modify_dgpo _ _ _ H4) as M4. unfold modify_dgpo in H4. ok_inv. simpl in *.
  rewrite D3, D2 in *. split_and!; [|done..].
  eapply moves_ext; [eapply moves_trans; [exact M1|eapply moves_trans; [exact M2|
    eapply moves_trans; [exact M3|exact M4]]]|].
  intros aid; simpl. erewrite Hg by eassumption. unfold core_delta.
  rewrite !amount_of_core. destruct (aid =? core_id); lia.
Qed.

Lemma modify_account_dgpo d id f d' :
  modify_account d id f = Ok d' → db_dgpo d' = db_dgpo d.
Proof. unfold modify_account. intros H. by ok_inv. Qed.

Ltac bonus_inv H :=
  repeat match type of H with rbind _ _ = Ok _ =>
    let d := fresh "d" in let Hd := fresh "Hd" in apply rbind_ok in H as (d & Hd & H) end.

Lemma welcome_bonus_ok d op d' :
  welcome_bonus_do_apply d op = Ok d' →
  conserves d d' ∧
  (let* b := safe_add (dg_welcome_bonus (db_dgpo d)) (get_welcome_bonus_amount d) in
   Ok (set_welcome_bonus (λ _, b) (db_dgpo d))) = Ok (db_dgpo d') ∧
  ∃ a, objs (db_accounts d') !! wb_receiver op = Some a ∧ ao_received_welcome_bonus a = true.
Proof.
  unfold welcome_bonus_do_apply. intros H. bonus_inv H.
  edestruct issue_bonus_ok as (Hc & Hg & Ha);
    [eassumption|by eapply moves_modify_account|by eapply modify_account_dgpo|eassumption|eassumption| |].
  - intros p p' Hp. cbv beta in Hp. by ok_inv.
  - split_and!; [done..|]. rewrite Ha. unfold modify_account in *. ok_inv. simpl.
    rewrite lookup_insert_eq. eauto.
Qed.

Lemma referral_bonus_ok d op d' :
  referral_bonus_do_apply d op = Ok d' →
  conserves d d' ∧
  (let* b := safe_add (dg_referral_bonus (db_dgpo d)) (referral_bonus_sum d) in
   Ok (set_referral_bonus (λ _, b) (db_dgpo d))) = Ok (db_dgpo d') ∧
  ∃ a, objs (db_accounts d') !! rb_referred_account op = Some a ∧ ao_sent_referral_bonus a = true.
Proof.
  unfold referral_bonus_do_apply. intros H. bonus_inv H.
  edestruct issue_bonus_ok as (Hc & Hg & Ha);
    [eassumption|by eapply moves_modify_account|by eapply modify_account_dgpo|eassumption|eassumption| |].
  - intros p p' Hp. cbv beta in Hp. by ok_inv.
  - split_and!; [done..|]. rewrite Ha. unfold modify_account in *. ok_inv. simpl.
    rewrite lookup_insert_eq. eauto.
Qed.

Lemma sale_bonus_ok d op d' :
  sale_bonus_do_apply d op = Ok d' →
  conserves d d' ∧
  (let* b := safe_add (dg_sale_bonus (db_dgpo d)) (sale_bonus_sum d) in
   Ok (set_sale_bonus (λ _, b) (db_dgpo d))) = Ok (db_dgpo d') ∧
  ∃ a, objs (db_accounts d') !! sb_seller op = Some a ∧ sb_buyer op ∈ ao_buyers a.
Proof.
  unfold sale_bonus_do_apply. intros H. bonus_inv H.
  edestruct issue_bonus_ok as (Hc & Hg & Ha);
    [eassumption|by eapply moves_modify_account|by eapply modify_account_dgpo|eassumption|eassumption| |].
  - intros p p' Hp. cbv beta in Hp. by ok_inv.
  - split_and!; [done..|]. rewrite Ha. unfold modify_account in *. ok_inv. simpl.
    rewrite lookup_insert_eq. eexists; split; [done|]. simpl. set_solver.
Qed.

Lemma witness_bonus_ok d op d' :
  witness_bonus_do_apply d op = Ok d' →
  conserves d d' ∧
  (let* b := safe_add (dg_witness_bonus (db_dgpo d)) (witness_bonus_sum d) in
   Ok (set_witness_bonus (λ _, b) (db_dgpo d))) = Ok (db_dgpo d').
Proof.
  unfold witness_bonus_do_apply. intros H. bonus_inv H.
  edestruct issue_bonus_ok as (Hc & Hg & Ha);
    [eassumption|apply moves_refl|done|eassumption|eassumption|intros p p' Hp; cbv beta in Hp; by ok_inv|done].
Qed.

Lemma founder_bonus_ok d op d' :
  founder_bonus_do_apply d op = Ok d' →
  conserves d d' ∧
  (let* b := safe_add (dg_founder_bonus (db_dgpo d)) (founder_bonus_sum d) in
   Ok (set_founder_bonus (λ _, b) (db_dgpo d))) = Ok (db_dgpo d').
Proof.
  unfold founder_bonus_do_apply. intros H. bonus_inv H.
  edestruct issue_bonus_ok as (Hc & Hg & Ha);
    [eassumption|apply moves_refl|done|eassumption|eassumption|intros p p' Hp; cbv beta in Hp; by ok_inv|done].
Qed.

#[export] Instance welcome_bonus_conserves : EvaluatorConserves welcome_bonus_operation.
Proof. intros d0 d op st d' _ H. by apply welcome_bonus_ok in H as [? _]. Qed.
#[export] Instance referral_bonus_conserves : EvaluatorConserves referral_bonus_operation.
Proof. intros d0 d op st d' _ H. by apply referral_bonus_ok in H as [? _]. Qed.
#[export] Instance sale_bonus_conserves : EvaluatorConserves sale_bonus_operation.
Proof. intros d0 d op st d' _ H. by apply sale_bonus_ok in H as [? _]. Qed.
#[export] Instance witness_bonus_conserves : EvaluatorConserves witness_bonus_operation.
Proof. intros d0 d op st d' _ H. by apply witness_bonus_ok in H as [? _]. Qed.
#[export] Instance founder_bonus_conserves : EvaluatorConserves founder_bonus_operation.
Proof. intros d0 d op st d' _ H. by apply founder_bonus_ok in H as [? _]. Qed.

(** The run of a bonus operation: the checks and the application see the
    same global properties, and the fee changes neither them nor accounts'
    bonus flags. *)
Lemma start_bonus_ok {Op} {E : Evaluator Op} skip req d (op : Op) d' :
  start_evaluate false skip req d op = Ok d' →
  ∃ st d1 d2, do_evaluate d op = Ok st ∧ db_dgpo d1 = db_dgpo d ∧ db_gpo d1 = db_gpo d ∧
    moves d d1 (λ aid, amount_of aid (op_fee op)) ∧
    do_apply d1 op st = Ok d2 ∧
    moves d2 d' (λ aid, - amount_of aid (op_fee op)) ∧
    db_dgpo d' = db_dgpo d2 ∧ db_accounts d' = db_accounts d2.
Proof.
  intros (st & d1 & d2 & Hev & L & Hfee & Happ & Hadj)%start_evaluate_ok.
  destruct L as (_ & _ & _ & _ & Ld & Lg & _). exists st, d1, d2.
  pose proof (adjust_balance_moves _ _ _ _ Hadj) as M.
  apply adjust_balance_frame in Hadj as [m ->]. split_and!; try done; [by apply Hfee|].
  eapply moves_ext; [exact M|]. intros aid; simpl. rewrite amount_of_neg. by destruct (op_fee op).
Qed.

Lemma bonus_conserves d d1 d2 d' fee :
  moves d d1 (λ aid, amount_of aid fee) → conserves d1 d2 →
  moves d2 d' (λ aid, - amount_of aid fee) → conserves d d'.
Proof.
  intros M1 M2 M3.
  eapply moves_ext; [eapply moves_trans; [exact M1|eapply moves_trans; [exact M2|exact M3]]|].
  intros; simpl; lia.
Qed.

Lemma welcome_amount_range d : 0 < get_welcome_bonus_amount d <= coins 10000.
Proof. unfold get_welcome_bonus_amount, coins, GRAPHENE_BLOCKCHAIN_PRECISION. repeat case_match; lia. Qed.
Lemma referral_sum_range d : 0 < referral_bonus_sum d <= coins 2500.
Proof.
  unfold referral_bonus_sum, coins, GRAPHENE_BLOCKCHAIN_PRECISION.
  change (5 * 100000 / 10) with 50000. repeat case_match; lia.
Qed.
Lemma sale_sum_range d : 0 < sale_bonus_sum d <= coins 500.
Proof.
  unfold sale_bonus_sum, coins, GRAPHENE_BLOCKCHAIN_PRECISION.
  change (5 * 100000 / 10) with 50000. repeat case_match; lia.
Qed.

Lemma witness_sum_range d :
  interval_wf d → dg_witness_bonus (db_dgpo d) < OMNIBAZAAR_WITNESS_BONUS_TOTAL_COINS →
  0 <= witness_bonus_sum d <= OMNIBAZAAR_WITNESS_BONUS_COINS_PER_SECOND_1 * 255.
Proof.
  unfold interval_wf, witness_bonus_sum.
  change OMNIBAZAAR_WITNESS_BONUS_COINS_PER_SECOND_1 with 1000000.
  change OMNIBAZAAR_WITNESS_BONUS_COINS_PER_SECOND_2 with 500000.
  change OMNIBAZAAR_WITNESS_BONUS_COINS_PER_SECOND_3 with 250000.
  intros. repeat case_match; lia.
Qed.

(** The bonus programmes: every bonus operation conserves the books
    (what it pays was added to the supply), and the amounts issued stay
    within the programmes: the founder bonus never exceeds its limit, the
    welcome, referral, sale and witness bonuses exceed theirs by less than
    one payment. *)
Theorem bonus_limits d d' :
  bonus_step d d' → interval_wf d → bonus_wf d → conserves d d' ∧ bonus_wf d'.
Proof.
  intros Hstep Hi Hwf.
  destruct Hstep as [skip req op H|skip req op H|skip req op H|skip req op H|skip req op H];
    destruct (start_bonus_ok _ _ _ _ _ H) as (st & d1 & d2 & Hev & Ed1 & Eg1 & M1 & Happ & M3 & Ed' & _);
    simpl in Hev, Happ.
  - apply welcome_bonus_ok in Happ as (M2 & Hg & _). split; [exact (bonus_conserves _ _ _ _ _ M1 M2 M3)|].
    unfold welcome_bonus_do_evaluate in Hev. ok_inv. safe_inv.
    pose proof (welcome_amount_range d1). unfold bonus_wf in *. rewrite Ed', <- H0, Ed1. simpl. lia.
  - apply referral_bonus_ok in Happ as (M2 & Hg & _). split; [exact (bonus_conserves _ _ _ _ _ M1 M2 M3)|].
    unfold referral_bonus_do_evaluate in Hev. ok_inv. safe_inv.
    pose proof (referral_sum_range d1). unfold bonus_wf in *. rewrite Ed', <- H0, Ed1. simpl. lia.
  - apply sale_bonus_ok in Happ as (M2 & Hg & _). split; [exact (bonus_conserves _ _ _ _ _ M1 M2 M3)|].
    unfold sale_bonus_do_evaluate in Hev. ok_inv. safe_inv.
    pose proof (sale_sum_range d1). unfold bonus_wf in *. rewrite Ed', <- H0, Ed1. simpl. lia.
  - apply witness_bonus_ok in Happ as (M2 & Hg). split; [exact (bonus_conserves _ _ _ _ _ M1 M2 M3)|].
    unfold witness_bonus_do_evaluate in Hev. ok_inv. safe_inv.
    assert (0 <= witness_bonus_sum d1 <= OMNIBAZAAR_WITNESS_BONUS_COINS_PER_SECOND_1 * 255).
    { apply witness_sum_range; [unfold interval_wf, block_interval, parameters; by rewrite Eg1|].
      rewrite Ed1. lia. }
    unfold bonus_wf in *. rewrite Ed', <- H0, Ed1. simpl. lia.
  - apply founder_bonus_ok in Happ as (M2 & Hg). split; [exact (bonus_conserves _ _ _ _ _ M1 M2 M3)|].
    unfold founder_bonus_do_evaluate in Hev. ok_inv. safe_inv.
    assert (0 <= block_interval d1) by (unfold interval_wf, block_interval, parameters in *; rewrite Eg1; lia).
    unfold bonus_wf in *. rewrite Ed', <- H0, Ed1. simpl. unfold founder_bonus_sum. rewrite Ed1.
    change OMNIBAZAAR_FOUNDER_BONUS_COINS_PER_SECOND with 2000000. lia.
Qed.

(** No bonus is paid twice: after a welcome, referral or sale bonus was
    paid, the same operation on the resulting state is refused, whoever
    pays its fee. *)
Theorem bonus_only_once d d' skip req skip' req' :
  (∀ op op' : welcome_bonus_operation, wb_receiver op' = wb_receiver op →
     start_evaluate false skip req d op = Ok d' →
     is_ok (start_evaluate false skip' req' d' op') = false) ∧
  (∀ op op' : referral_bonus_operation, rb_referred_account op' = rb_referred_account op →
     start_evaluate false skip req d op = Ok d' →
     is_ok (start_evaluate false skip' req' d' op') = false) ∧
  (∀ op op' : sale_bonus_operation, sb_seller op' = sb_seller op → sb_buyer op' = sb_buyer op →
     start_evaluate false skip req d op = Ok d' →
     is_ok (start_evaluate false skip' req' d' op') = false).
Proof.
  assert (∀ {Op} {E : Evaluator Op} (op' : Op),
    (∀ st, do_evaluate d' op' ≠ Ok st) → is_ok (start_evaluate false skip' req' d' op') = false) as Hno.
  { intros Op E op' Hev. destruct (start_evaluate _ _ _ _ _) eqn:H'; [|done].
    apply start_evaluate_ok in H' as (st & _ & _ & Hst & _). by destruct (Hev st). }
  split_and!; intros op op' Eop.
  - intros (st & d1 & d2 & _ & _ & _ & _ & Happ & _ & _ & Ea)%start_bonus_ok.
    apply welcome_bonus_ok in Happ as (_ & _ & a & Ha & Hflag). apply Hno. simpl. intros u.
    unfold welcome_bonus_do_evaluate, get_account, index_get. rewrite Eop, Ea, Ha. simpl.
    rewrite Hflag. unfold require. simpl. by case_match.
  - intros (st & d1 & d2 & _ & _ & _ & _ & Happ & _ & _ & Ea)%start_bonus_ok.
    apply referral_bonus_ok in Happ as (_ & _ & a & Ha & Hflag). apply Hno. simpl. intros u.
    unfold referral_bonus_do_evaluate, get_account, index_get. rewrite Eop, Ea, Ha. simpl.
    rewrite Hflag. unfold require. simpl. by case_match.
  - intros Eb (st & d1 & d2 & _ & _ & _ & _ & Happ & _ & _ & Ea)%start_bonus_ok.
    apply sale_bonus_ok in Happ as (_ & _ & a & Ha & Hin). apply Hno. simpl. intros u.
    unfold sale_bonus_do_evaluate, get_account, index_get. rewrite Eop, Ea, Ha. simpl.
    rewrite Eb, bool_decide_eq_true_2 by done. unfold require. simpl. by case_match.
Qed.
End properties.

(** ** Examples *)

Definition bonus_db : database :=
  set_statistics (<[9 := default_stats 9]>)
    (set_accounts (λ t, mkTable (<[9 := sample_account "welcome" 9]> (objs t)) (next_id t)) sample_db).

Definition run_welcome (d : database) : result database :=
  start_evaluate (FC := fc_reference) (BA := boost_reference)
    (E := welcome_bonus_evaluator (FC := fc_reference)) false false (Ok 0) d (mkWelcome (core_asset 0) bob).

Lemma bonus_limits_witness :
  bonus_wf (get_ok (run_welcome bonus_db) bonus_db).
Proof.
  apply (bonus_limits (FCL := fc_reference_laws) (BA := boost_reference) bonus_db).
  - apply (step_welcome _ _ false (Ok 0) (mkWelcome (core_asset 0) bob)).
    apply get_ok_eq. vm_compute. reflexivity.
  - vm_compute. split; congruence.
  - vm_compute. repeat split; congruence.
Defined.

Lemma bonus_only_once_witness :
  is_ok (run_welcome (get_ok (run_welcome bonus_db) bonus_db)) = false.
Proof.
  eapply (bonus_only_once (FCL := fc_reference_laws) (BA := boost_reference) bonus_db _
    false (Ok 0) false (Ok 0)) with (op := mkWelcome (core_asset 0) bob); [reflexivity|].
  apply get_ok_eq. vm_compute. reflexivity.
Defined.

(** The sale bonus asks for no sale: the evaluator checks neither that
    the seller sold anything nor that the buyer exists.  Bob claims the bonus
    for himself with a made-up buyer and receives 500 coins of new supply. *)
Theorem sale_bonus_without_sale :
  let op := mkSale (core_asset 0) bob bob 999999999 in
  sale_bonus_validate op = Ok tt ∧ objs (db_accounts sample_db) !! sb_buyer op = None ∧
  ∃ d', start_evaluate (FC := fc_reference) (BA := boost_reference)
          (E := sale_bonus_evaluator (FC := fc_reference)) false false (Ok 0) sample_db op = Ok d' ∧
    amount (get_balance d' bob 0) = amount (get_balance sample_db bob 0) + coins 500 ∧
    current_supply 0 d' = current_supply 0 sample_db + coins 500.
Proof.
  intros op. split_and!; [reflexivity|vm_compute; reflexivity|].
  exists (get_ok (start_evaluate (FC := fc_reference) (BA := boost_reference)
          (E := sale_bonus_evaluator (FC := fc_reference)) false false (Ok 0) sample_db op) sample_db).
  split_and!; [apply get_ok_eq| |]; vm_compute; reflexivity.
Qed.
