(* ===== verification/WitnessSchedule.v ===== *)
(** * Slots, the witness schedule and per-block updates

    [db_witness_schedule.cpp]: slot times, the scheduled witness, the shuffle
    of the active witnesses.  [db_update.cpp]: the update of the dynamic
    global properties, of the signing witness and of the last irreversible
    block. *)

From stdpp Require Import gmap strings sorting.
From Stdlib Require Import ZArith Lia.
From S2P Require Import Prelude Fc Config Asset VestingBalance Objects Database Sample Balances.

Local Open Scope Z_scope.

(** What the updates read of a block. *)
Record block_info := mkBlock { bi_num : Z; bi_timestamp : Z; bi_witness : Z }.

Definition maintenance_flag : Z := 1.

(** The ids of a [flat_set] in the order of the container. *)
Definition in_order (s : gset Z) : list Z := merge_sort Z.le (elements s).

Section operations.
Context {FC : FcArith}.

Definition get_scheduled_witness (d : database) (slot_num : Z) : result Z :=
  let l := db_shuffled_witnesses d in
  let current_aslot := wrap_u64 (dg_current_aslot (db_dgpo d) + slot_num) in
  let* _ := require (negb (Nat.eqb (length l) 0)) undefined_behaviour in
  of_option undefined_behaviour (l !! Z.to_nat (current_aslot mod Z.of_nat (length l))).

Definition get_slot_time (d : database) (slot_num : Z) : result Z :=
  if slot_num =? 0 then Ok 0
  else
    let interval := block_interval d in
    if head_block_num d =? 0 then Ok (time_add (dg_time (db_dgpo d)) (wrap_u32 (slot_num * interval)))
    else
      let* _ := require (negb (interval =? 0)) undefined_behaviour in
      let head_block_abs_slot := head_block_time d / interval in
      let head_slot_time := wrap_u32 (head_block_abs_slot * interval) in
      let slot_num :=
        if negb (Z.land (dg_dynamic_flags (db_dgpo d)) maintenance_flag =? 0)
        then wrap_u32 (slot_num + cp_maintenance_skip_slots (parameters d)) else slot_num in
      Ok (time_add head_slot_time (wrap_u32 (slot_num * interval))).

Definition get_slot_at_time (d : database) (when : Z) : result Z :=
  let* first_slot_time := get_slot_time d 1 in
  if when <? first_slot_time then Ok 0
  else
    let* _ := require (negb (block_interval d =? 0)) undefined_behaviour in
    Ok (wrap_u32 (time_sub_seconds when first_slot_time / block_interval d + 1)).

Definition witness_participation_rate (d : database) : Z :=
  wrap_u32 (GRAPHENE_100_PERCENT * u128_popcount (dg_recent_slots_filled (db_dgpo d)) / 128).

(** ** The shuffle *)

Definition swap {A} (l : list A) (i j : nat) : list A :=
  match l !! i, l !! j with
  | Some a, Some b => <[j := a]> (<[i := b]> l)
  | _, _ => l
  end.

Definition xorshift (now_hi i : Z) : Z :=
  let k := wrap_u64 (now_hi + wrap_u64 (i * 2685821657736338717)) in
  let k := Z.lxor k (Z.shiftr k 12) in
  let k := Z.lxor k (wrap_u64 (Z.shiftl k 25)) in
  let k := Z.lxor k (Z.shiftr k 27) in
  wrap_u64 (k * 2685821657736338717).

Definition shuffle_step (now_hi : Z) (l : list Z) (i : nat) : list Z :=
  let k := xorshift now_hi (Z.of_nat i) in
  let jmax := Z.of_nat (length l) - Z.of_nat i in
  let j := Z.of_nat i + k mod jmax in
  swap l i (Z.to_nat j).

Definition shuffle (now_hi : Z) (l : list Z) : list Z :=
  fold_left (shuffle_step now_hi) (seq 0 (length l)) l.

Definition update_witness_schedule (d : database) : result database :=
  let active := gp_active_witnesses (db_gpo d) in
  let* _ := require (negb (Nat.eqb (size active) 0)) undefined_behaviour in
  if head_block_num d mod Z.of_nat (size active) =? 0 then
    let now_hi := wrap_u64 (Z.shiftl (head_block_time d) 32) in
    Ok (set_shuffled_witnesses (λ _, shuffle now_hi (in_order active)) d)
  else Ok d.

(** ** Updates after a block *)

Definition miss_slot (b : block_info) (d : database) (i : nat) : result database :=
  let* w := get_scheduled_witness d (Z.of_nat i + 1) in
  let* _ := get_witness d w in
  if negb (w =? bi_witness b)
  then modify_witness d w (set_total_missed (λ n, n + 1))
  else Ok d.

(** [checkpoint] is the number of the last checkpoint, if there is one. *)
Definition recently_missed (checkpoint : option Z) (b : block_info) (missed_blocks count : Z) : Z :=
  if bi_num b =? 1 then 0
  else if match checkpoint with Some c => bi_num b <=? c | None => false end then 0
  else if negb (missed_blocks =? 0)
  then wrap_u32 (count + GRAPHENE_RECENTLY_MISSED_COUNT_INCREMENT * missed_blocks)
  else if GRAPHENE_RECENTLY_MISSED_COUNT_INCREMENT <? count
  then count - GRAPHENE_RECENTLY_MISSED_COUNT_DECREMENT
  else if 0 <? count then count - 1
  else count.

Definition updated_dgpo (checkpoint : option Z) (b : block_info) (missed_blocks : Z)
    (g : dynamic_global_property_object) : dynamic_global_property_object :=
  mkDgpo (bi_num b) (bi_timestamp b) (bi_witness b) (dg_witness_budget g)
    (recently_missed checkpoint b missed_blocks (dg_recently_missed_count g))
    (wrap_u64 (dg_current_aslot g + missed_blocks + 1))
    (u128_shl (u128_add (u128_shl (dg_recent_slots_filled g) 1) 1) missed_blocks)
    (dg_dynamic_flags g) (dg_last_irreversible_block_num g) (dg_welcome_bonus g)
    (dg_referral_bonus g) (dg_sale_bonus g) (dg_founder_bonus g) (dg_witness_bonus g)
    (dg_next_maintenance_time g) (dg_last_budget_time g) (dg_accounts_registered_this_interval g).

(** The result is the database and the history size that the undo and the
    fork database are limited to. *)
Definition update_global_dynamic_data (skip_undo_history_check : bool) (checkpoint : option Z)
    (d : database) (b : block_info) : result (database * Z) :=
  let* slot := get_slot_at_time d (bi_timestamp b) in
  let missed_blocks := wrap_u32 (slot - 1) in
  let* d := rfold (miss_slot b) d (seq 0 (Z.to_nat missed_blocks)) in
  let* d := modify_dgpo d (λ g, Ok (updated_dgpo checkpoint b missed_blocks g)) in
  let history := wrap_u32 (dg_head_block_number (db_dgpo d)
                           - dg_last_irreversible_block_num (db_dgpo d)) in
  GRAPHENE_ASSERT (skip_undo_history_check || (history <? GRAPHENE_MAX_UNDO_HISTORY))
    else undo_database_exception ;;
  Ok (d, wrap_u32 (history + 1)).

Definition update_signing_witness (d : database) (signing_witness : Z) (b : block_info)
    : result database :=
  let* slot := get_slot_at_time d (bi_timestamp b) in
  let new_block_aslot := wrap_u64 (dg_current_aslot (db_dgpo d) + slot) in
  let witness_pay := Z.min (cp_witness_pay_per_block (parameters d))
                           (dg_witness_budget (db_dgpo d)) in
  let* d := modify_dgpo d (λ g,
    let* n := safe_sub (dg_witness_budget g) witness_pay in Ok (set_witness_budget (λ _, n) g)) in
  let* d := deposit_witness_pay d signing_witness witness_pay in
  modify_witness d signing_witness (λ w,
    set_total_produced (λ n, n + 1)
      (set_last_confirmed_block_num (λ _, bi_num b) (set_last_aslot (λ _, new_block_aslot) w))).

(** [std::nth_element] leaves at position [n] what sorting would put there. *)
Definition nth_element (l : list Z) (n : nat) : option Z := merge_sort Z.le l !! n.

Definition update_last_irreversible_block (d : database) : result database :=
  let* confirmed :=
    rfold (λ l wid, let* w := get_witness d wid in Ok (l ++ [wo_last_confirmed_block_num w]))
      [] (in_order (gp_active_witnesses (db_gpo d))) in
  let offset := (GRAPHENE_100_PERCENT - GRAPHENE_IRREVERSIBLE_THRESHOLD)
                * Z.of_nat (length confirmed) / GRAPHENE_100_PERCENT in
  let* new_last := of_option undefined_behaviour (nth_element confirmed (Z.to_nat offset)) in
  if dg_last_irreversible_block_num (db_dgpo d) <? new_last
  then modify_dgpo d (λ g, Ok (set_last_irreversible (λ _, new_last) g))
  else Ok d.
End operations.

(** ** Slot times *)

(** The time of the imaginary slot 0 from which slots are counted. *)
Definition slot_base (d : database) : Z :=
  let i := block_interval d in
  if head_block_num d =? 0 then head_block_time d
  else head_block_time d / i * i
       + (if negb (Z.land (dg_dynamic_flags (db_dgpo d)) maintenance_flag =? 0)
          then cp_maintenance_skip_slots (parameters d) * i else 0).

(** The ranges of the C++ types; [chain_parameters::validate] excludes an
    interval of zero. *)
Definition slots_wf (d : database) : Prop :=
  1 <= block_interval d <= 255 ∧ 0 <= cp_maintenance_skip_slots (parameters d) <= 255 ∧
  0 <= head_block_time d < 2 ^ 32.

Section slots.
Context {FC : FcArith} {FCL : FcArithLaws FC}.

Lemma get_slot_time_eq d n :
  slots_wf d → 1 <= n → slot_base d + n * block_interval d < 2 ^ 32 →
  get_slot_time d n = Ok (slot_base d + n * block_interval d).
Proof.
  unfold slots_wf, slot_base, get_slot_time. intros (Hi & Hs & Ht) Hn.
  destruct (Z.eqb_spec n 0); [lia|]. destruct (head_block_num d =? 0) eqn:E0.
  - intros H. rewrite wrap_u32_small by (unfold head_block_time in *; nia).
    rewrite time_add_small by (unfold head_block_time in *; nia). done.
  - pose proof (Z.mul_div_le (head_block_time d) (block_interval d)).
    assert (0 <= head_block_time d / block_interval d) by (apply Z.div_pos; lia).
    destruct (Z.eqb_spec (block_interval d) 0); [lia|]. cbn [negb require rbind].
    assert (0 <= n * block_interval d) by nia.
    assert (n <= n * block_interval d) by nia.
    assert (0 <= cp_maintenance_skip_slots (parameters d) * block_interval d) by nia.
    assert (cp_maintenance_skip_slots (parameters d)
            <= cp_maintenance_skip_slots (parameters d) * block_interval d) by nia.
    assert (0 <= head_block_time d / block_interval d * block_interval d) by nia.
    destruct (negb _); intros H'.
    + rewrite (wrap_u32_small (n + _)) by lia. rewrite Z.mul_add_distr_r.
      rewrite !wrap_u32_small by lia. rewrite time_add_small by lia. f_equal. lia.
    + rewrite !wrap_u32_small by lia. rewrite time_add_small by lia. f_equal. lia.
Qed.

Lemma slot_base_nonneg d : slots_wf d → 0 <= slot_base d.
Proof.
  unfold slots_wf, slot_base. intros (Hi & Hs & Ht). case_match; [lia|].
  assert (0 <= head_block_time d / block_interval d) by (apply Z.div_pos; lia).
  case_match; nia.
Qed.

Lemma get_slot_at_time_eq d t :
  slots_wf d → slot_base d + block_interval d <= t < 2 ^ 32 →
  get_slot_at_time d t = Ok ((t - slot_base d) / block_interval d).
Proof.
  intros Hwf Ht. pose proof (slot_base_nonneg d Hwf). unfold get_slot_at_time.
  rewrite get_slot_time_eq by (done || lia). cbn [rbind].
  destruct Hwf as (Hi & _). destruct (Z.ltb_spec t (slot_base d + 1 * block_interval d)); [lia|].
  destruct (Z.eqb_spec (block_interval d) 0); [lia|]. cbn [negb require rbind].
  rewrite time_sub_seconds_spec. f_equal.
  replace (t - (slot_base d + 1 * block_interval d))
    with (t - slot_base d + (-1) * block_interval d) by lia.
  rewrite Z.div_add by lia. replace (_ + -1 + 1) with ((t - slot_base d) / block_interval d) by lia.
  apply wrap_u32_small. split; [apply Z.div_pos; lia|].
  apply Z.div_lt_upper_bound; nia.
Qed.

(** Slot numbers and slot times are inverse to each other: the slot at
    the time of slot [n] is [n], a time before slot 1 has slot 0, and any
    later time lies between the time of its slot and that of the next. *)
Theorem slot_time_inverse d n t :
  slots_wf d → 1 <= n → slot_base d + n * block_interval d < 2 ^ 32 →
  0 <= t → t + block_interval d < 2 ^ 32 →
  (∃ u, get_slot_time d n = Ok u ∧ get_slot_at_time d u = Ok n) ∧
  (t < slot_base d + block_interval d → get_slot_at_time d t = Ok 0) ∧
  (slot_base d + block_interval d <= t →
     ∃ m u v, get_slot_at_time d t = Ok m ∧ 1 <= m ∧
       get_slot_time d m = Ok u ∧ get_slot_time d (m + 1) = Ok v ∧ u <= t < v).
Proof.
  intros Hwf Hn Hr Ht Hr'. pose proof Hwf as (Hi & _). split_and!.
  - eexists. rewrite get_slot_time_eq by done. split; [done|].
    rewrite get_slot_at_time_eq by (done || nia).
    replace (slot_base d + n * block_interval d - slot_base d) with (n * block_interval d) by lia.
    by rewrite Z.div_mul by lia.
  - intros Hlt. unfold get_slot_at_time. rewrite get_slot_time_eq by (done || nia). cbn [rbind].
    by rewrite (proj2 (Z.ltb_lt _ _)) by lia.
  - intros Hge.
    pose proof (Z.mul_div_le (t - slot_base d) (block_interval d) ltac:(lia)).
    pose proof (Z.mul_succ_div_gt (t - slot_base d) (block_interval d) ltac:(lia)).
    rewrite get_slot_at_time_eq by (done || lia).
    set (m := (t - slot_base d) / block_interval d) in *.
    assert (1 <= m) by (apply Z.div_le_lower_bound; lia).
    exists m. do 2 eexists.
    rewrite !get_slot_time_eq by (done || nia). split_and!; try done; nia.
Qed.
End slots.

(** ** The shuffle *)

Lemma insert_permutation {A} (l : list A) i a b :
  l !! i = Some a → a :: <[i := b]> l ≡ₚ b :: l.
Proof.
  intros Hi.
  assert (<[i := b]> l ≡ₚ b :: delete i l) as ->.
  { rewrite (delete_Permutation (<[i := b]> l) i b)
      by (by eapply list_lookup_insert_eq, lookup_lt_Some).
    f_equiv. clear Hi. revert i. induction l as [|x l IH]; intros [|i]; simpl; try done. by rewrite IH. }
  rewrite (delete_Permutation l i a Hi) at 2. constructor.
Qed.

Lemma swap_permutation {A} (l : list A) i j : swap l i j ≡ₚ l.
Proof.
  unfold swap. destruct (l !! i) as [a|] eqn:Hi; [|done]. destruct (l !! j) as [b|] eqn:Hj; [|done].
  assert (<[i := b]> l !! j = Some b) as Hj'.
  { destruct (decide (i = j)) as [->|];
      [apply list_lookup_insert_eq; by eapply lookup_lt_Some|by rewrite list_lookup_insert_ne]. }
  apply (Permutation_cons_inv (a := b)).
  rewrite (insert_permutation _ j b a Hj'). by apply insert_permutation.
Qed.

Lemma shuffle_permutation now_hi l : shuffle now_hi l ≡ₚ l.
Proof.
  unfold shuffle. generalize (seq 0 (length l)) as ks. intros ks. revert l.
  induction ks as [|i ks IH]; intros l; simpl; [done|].
  rewrite IH. unfold shuffle_step. apply swap_permutation.
Qed.

Lemma in_order_permutation s : in_order s ≡ₚ elements s.
Proof. apply merge_sort_Permutation. Qed.

Section schedule.
Context {FC : FcArith} {FCL : FcArithLaws FC}.

Lemma update_witness_schedule_ok d d' :
  update_witness_schedule d = Ok d' →
  head_block_num d mod Z.of_nat (size (gp_active_witnesses (db_gpo d))) = 0 →
  db_shuffled_witnesses d' ≡ₚ elements (gp_active_witnesses (db_gpo d)) ∧
  db_dgpo d' = db_dgpo d ∧ gp_active_witnesses (db_gpo d) ≠ ∅.
Proof.
  unfold update_witness_schedule. intros H E. apply rbind_ok in H as ([] & Hne & H).
  rewrite E in H. simpl in H. ok_inv. simpl. split_and!; [|done|].
  - rewrite shuffle_permutation. apply in_order_permutation.
  - intros E0. rewrite E0, size_empty in Hne. done.
Qed.

(** The schedule is fair: after a shuffle, in every round of
    consecutive slots as long as there are active witnesses, each active
    witness is scheduled exactly once. *)
Theorem schedule_fair d d' w s :
  update_witness_schedule d = Ok d' →
  head_block_num d mod Z.of_nat (size (gp_active_witnesses (db_gpo d))) = 0 →
  w ∈ gp_active_witnesses (db_gpo d) → 0 <= s → 0 <= dg_current_aslot (db_dgpo d) →
  let n := Z.of_nat (size (gp_active_witnesses (db_gpo d))) in
  dg_current_aslot (db_dgpo d) + s + n <= 2 ^ 64 →
  ∃ k, 0 <= k < n ∧ get_scheduled_witness d' (s + k) = Ok w ∧
    ∀ k', 0 <= k' < n → get_scheduled_witness d' (s + k') = Ok w → k' = k.
Proof.
  intros H E Hw Hs Ha n Hr.
  destruct (update_witness_schedule_ok d d' H E) as (Hp & Hd & Hne).
  assert (Z.of_nat (length (db_shuffled_witnesses d')) = n) as Hlen.
  { subst n. by rewrite (Permutation_length Hp). }
  assert (NoDup (db_shuffled_witnesses d')) as Hnd by (rewrite Hp; apply NoDup_elements).
  assert (0 < n) as Hn.
  { subst n. destruct (decide (size (gp_active_witnesses (db_gpo d)) = 0%nat)) as [X|]; [|lia].
    apply size_empty_inv in X. by apply leibniz_equiv in X. }
  assert (∃ idx, db_shuffled_witnesses d' !! idx = Some w) as [idx Hidx].
  { apply list_elem_of_lookup_1. rewrite Hp. by apply elem_of_elements. }
  pose proof (lookup_lt_Some _ _ _ Hidx) as Hlt.
  set (a := dg_current_aslot (db_dgpo d)) in *.
  assert (∀ k, 0 <= k < n → get_scheduled_witness d' (s + k) = Ok w ↔ (a + s + k) mod n = Z.of_nat idx) as Hget.
  { intros k Hk. unfold get_scheduled_witness. rewrite Hd, Hlen. fold a.
    rewrite wrap_u64_small by lia.
    rewrite (proj2 (Nat.eqb_neq _ 0)) by lia. cbn [negb require rbind].
    replace (a + (s + k)) with (a + s + k) by lia.
    pose proof (Z.mod_pos_bound (a + s + k) n Hn). split.
    - intros Hok. apply of_option_ok in Hok.
      pose proof (NoDup_lookup _ _ _ _ Hnd Hok Hidx). lia.
    - intros ->. by rewrite Nat2Z.id, Hidx. }
  exists ((Z.of_nat idx - (a + s)) mod n). pose proof (Z.mod_pos_bound (Z.of_nat idx - (a + s)) n Hn).
  split; [done|]. split.
  - apply Hget; [done|]. rewrite Z.add_mod_idemp_r by lia.
    replace (a + s + (Z.of_nat idx - (a + s))) with (Z.of_nat idx) by lia. apply Z.mod_small. lia.
  - intros k' Hk' Hok. apply Hget in Hok; [|done].
    rewrite <- Hok, Zminus_mod_idemp_l. replace (a + s + k' - (a + s)) with k' by lia.
    symmetry. by apply Z.mod_small.
Qed.
End schedule.

(** ** Irreversibility *)

Lemma filter_all (P : Z → Prop) `{!∀ x, Decision (P x)} (l : list Z) :
  (∀ x, x ∈ l → P x) → filter P l = l.
Proof.
  induction l as [|x l IH]; intros Hl; [done|]. rewrite filter_cons_True by (apply Hl; left).
  f_equal. apply IH. intros y Hy. apply Hl. by right.
Qed.

(** At least [length l - n] elements are not below the one at position [n]. *)
Lemma nth_element_count l n v :
  nth_element l n = Some v →
  (length l - n <= length (filter (λ x : Z, (v <= x)%Z) l))%nat.
Proof.
  unfold nth_element. intros Hv. set (s := merge_sort Z.le l) in *.
  assert (s ≡ₚ l) as Hp by apply merge_sort_Permutation.
  assert (StronglySorted Z.le s) as Hs.
  { apply StronglySorted_merge_sort; [intros ? ? ?; lia|intros a b; lia]. }
  rewrite <- Hp. clearbody s.
  rewrite <- (take_drop n s) at 2. rewrite filter_app, length_app.
  enough (filter (λ x, v <= x) (drop n s) = drop n s) as -> by (rewrite length_drop; lia).
  apply filter_all. intros x Hx.
  apply list_elem_of_lookup in Hx as [[|k] Hk]; rewrite lookup_drop in Hk.
  - rewrite Nat.add_0_r in Hk. rewrite Hk in Hv. by injection Hv as ->.
  - apply (strongly_sorted_lookup _ _ n (n + S k) _ _ Hs); [lia|done|done].
Qed.

Section irreversible.
Context {FC : FcArith} {FCL : FcArithLaws FC}.

(** The block numbers the active witnesses have confirmed. *)
Definition confirmed_by (d : database) (ws : list Z) : list Z :=
  omap (λ wid, wo_last_confirmed_block_num <$> db_witnesses d !! wid) ws.

Lemma collect_confirmed d ws l0 l :
  rfold (λ l wid, let* w := get_witness d wid in Ok (l ++ [wo_last_confirmed_block_num w])) l0 ws = Ok l →
  l = l0 ++ confirmed_by d ws ∧ length l = (length l0 + length ws)%nat.
Proof.
  revert l0. induction ws as [|w ws IH]; intros l0 H; simpl in H.
  { ok_inv. rewrite app_nil_r. split; [done|simpl; lia]. }
  apply rbind_ok in H as (l1 & H1 & H). unfold get_witness in H1. ok_inv.
  apply IH in H as [-> Hlen]. simpl. rewrite Hx; simpl.
  split; [by rewrite <- app_assoc|]. rewrite Hlen, length_app. simpl. lia.
Qed.

(** C21.  The last irreversible block never goes back, and it only advances
    to a block that at least 70% of the active witnesses have confirmed. *)
Theorem last_irreversible_safe d d' :
  update_last_irreversible_block d = Ok d' →
  let L := dg_last_irreversible_block_num (db_dgpo d) in
  let L' := dg_last_irreversible_block_num (db_dgpo d') in
  let ws := in_order (gp_active_witnesses (db_gpo d)) in
  L <= L' ∧
  (L < L' →
     7 * Z.of_nat (length ws)
     <= 10 * Z.of_nat (length (filter (λ n, L' <= n) (confirmed_by d ws)))).
Proof.
  intros H L L' ws. unfold update_last_irreversible_block in H.
  apply rbind_ok in H as (l & Hl & H). apply collect_confirmed in Hl as [-> Hlen].
  simpl in H, Hlen. fold ws in H, Hlen. apply rbind_ok in H as (v & Hv & H). ok_inv.
  destruct (Z.ltb_spec (dg_last_irreversible_block_num (db_dgpo d)) v) as [Hlt|Hge].
  - unfold modify_dgpo in H. ok_inv. subst L L'. simpl. split; [lia|]. intros _.
    apply nth_element_count in Hv. rewrite Hlen in Hv.
    change ((GRAPHENE_100_PERCENT - GRAPHENE_IRREVERSIBLE_THRESHOLD)) with 3000 in Hv.
    change GRAPHENE_100_PERCENT with 10000 in Hv.
    pose proof (Z.mul_div_le (3000 * Z.of_nat (length ws)) 10000 ltac:(lia)).
    assert (0 <= 3000 * Z.of_nat (length ws) / 10000) by (apply Z.div_pos; lia). lia.
  - ok_inv. subst L L'. split; [done|]. lia.
Qed.

(** Paying the witness of a block: the pay leaves the witness budget
    and enters a vesting balance, never more than the budget holds, and the
    witness's record is brought up to date. *)
Theorem signing_witness_paid d wid b d' :
  0 <= dg_witness_budget (db_dgpo d) → 0 <= cp_witness_pay_per_block (parameters d) →
  update_signing_witness d wid b = Ok d' →
  conserves d d' ∧ 0 <= dg_witness_budget (db_dgpo d') <= dg_witness_budget (db_dgpo d) ∧
  ∃ w, db_witnesses d' !! wid = Some w ∧ wo_last_confirmed_block_num w = bi_num b.
Proof.
  unfold update_signing_witness. intros Hb Hp H. apply rbind_ok in H as (slot & _ & H).
  set (pay := Z.min _ _) in *.
  apply rbind_ok in H as (d1 & H1 & H). apply rbind_ok in H as (d2 & H2 & H).
  pose proof (moves_modify_dgpo _ _ _ H1) as M1. unfold modify_dgpo in H1. ok_inv. safe_inv.
  assert (db_dgpo d2 = set_witness_budget (λ _, dg_witness_budget (db_dgpo d) - pay) (db_dgpo d)) as D2.
  { unfold deposit_witness_pay in H2. apply rbind_ok in H2 as (w & _ & H2).
    case_in H2; [by ok_inv|]. apply rbind_ok in H2 as ([r d3] & H3 & H2).
    apply deposit_lazy_vesting_ledger in H3 as (_ & _ & _ & _ & E & _).
    destruct r; unfold modify_witness in H2; ok_inv; exact E. }
  apply deposit_witness_pay_moves in H2. pose proof (moves_modify_witness _ _ _ _ H) as M3.
  unfold modify_witness in H. ok_inv. simpl in *. split_and!.
  - eapply moves_ext; [eapply moves_trans; [exact M1|eapply moves_trans; [exact H2|exact M3]]|].
    intros aid; simpl. unfold core_delta. rewrite !amount_of_core. destruct (aid =? core_id); lia.
  - rewrite D2. simpl. lia.
  - rewrite D2. simpl. lia.
  - rewrite lookup_insert_eq. eauto.
Qed.

(** [recent_slots_filled] is the history of the last 128 slots: after a
    block with [missed] missed slots before it, the newest bits are zero for
    the missed slots, then one for the block, then the old history. *)
Lemma recent_slots_history checkpoint b missed g i :
  0 <= missed < 2 ^ 32 → 0 <= dg_recent_slots_filled g < 2 ^ 128 → 0 <= i < 128 →
  Z.testbit (dg_recent_slots_filled (updated_dgpo checkpoint b missed g)) i =
    if i <? missed then false
    else if i =? missed then true
    else Z.testbit (dg_recent_slots_filled g) (i - missed - 1).
Proof.
  intros Hm Hg Hi. cbn [dg_recent_slots_filled updated_dgpo].
  rewrite !u128_shl_spec, u128_add_spec by lia. unfold u128_mod.
  rewrite Z.mod_pow2_bits_low, Z.shiftl_spec by lia.
  destruct (Z.ltb_spec i missed); [apply Z.testbit_neg_r; lia|].
  rewrite Zplus_mod_idemp_l, Z.mod_pow2_bits_low by lia.
  rewrite Z.shiftl_mul_pow2, Z.mul_comm by lia. change (2 ^ 1) with 2.
  destruct (Z.eqb_spec i missed) as [->|Hne].
  - rewrite Z.sub_diag. apply Z.testbit_odd_0.
  - replace (i - missed) with (Z.succ (i - missed - 1)) by lia. rewrite Z.testbit_odd_succ by lia. f_equal. lia.
Qed.
End irreversible.

(** ** Examples *)

Lemma sample_slots_wf : slots_wf sample_db.
Proof. vm_compute. repeat split; congruence. Qed.

(** The head block is at 1570000000, blocks are ten seconds apart. *)
Lemma slot_time_inverse_witness :
  ∃ u, get_slot_time (FC := fc_reference) sample_db 7 = Ok u ∧
    get_slot_at_time (FC := fc_reference) sample_db u = Ok 7.
Proof.
  destruct (slot_time_inverse (FCL := fc_reference_laws) sample_db 7 1570000099) as [H _];
    [exact sample_slots_wf|lia|vm_compute; reflexivity|lia|vm_compute; reflexivity|exact H].
Defined.

Definition schedule_db : database :=
  set_witnesses (λ _, list_to_map
      [(1, mkWitness alice 0 None 1 0 98 5 1 0 ""); (2, mkWitness bob 0 None 2 0 99 5 2 0 "");
       (3, mkWitness carol 0 None 3 0 97 5 3 0 ""); (4, mkWitness alice 0 None 4 0 80 5 4 0 "")])
    (set_gpo (set_active_witnesses (λ _, {[ 1; 2; 3; 4 ]}))
      (set_shuffled_witnesses (λ _, []) sample_db)).

Lemma schedule_fair_witness :
  let d' := get_ok (update_witness_schedule schedule_db) schedule_db in
  ∃ k, 0 <= k < 4 ∧ get_scheduled_witness d' (5 + k) = Ok 3.
Proof.
  intros d'.
  destruct (schedule_fair schedule_db d' 3 5) as (k & Hk & Hget & _);
    [apply get_ok_eq; vm_compute; reflexivity|vm_compute; reflexivity|set_solver|lia|
     vm_compute; congruence|vm_compute; congruence|].
  exists k. split; [exact Hk|exact Hget].
Defined.

(** Four witnesses have confirmed 98, 99, 97 and 80: block 97 is irreversible. *)
Lemma last_irreversible_safe_witness :
  let d' := get_ok (update_last_irreversible_block schedule_db) schedule_db in
  dg_last_irreversible_block_num (db_dgpo d') = 97 ∧
  28 <= 10 * Z.of_nat (length (filter (λ n, 97 <= n) (confirmed_by schedule_db (in_order {[ 1; 2; 3; 4 ]})))).
Proof.
  intros d'. split; [vm_compute; reflexivity|].
  destruct (last_irreversible_safe schedule_db d') as [_ H];
    [apply get_ok_eq; vm_compute; reflexivity|]. apply H. vm_compute. reflexivity.
Defined.

Lemma signing_witness_paid_witness :
  let b := mkBlock 101 1570000010 0 in
  let d' := get_ok (update_signing_witness (FC := fc_reference) sample_db 0 b) sample_db in
  conserves sample_db d' ∧ dg_witness_budget (db_dgpo d') <= 1000.
Proof.
  intros b d'.
  destruct (signing_witness_paid (FCL := fc_reference_laws) sample_db 0 b d') as (H & Hb & _);
    [vm_compute; congruence|vm_compute; congruence|apply get_ok_eq; vm_compute; reflexivity|].
  split; [exact H|]. apply Hb.
Defined.
