(* ===== verification/Exchange.v ===== *)
(** * Currency exchange ([omnibazaar/exchange.cpp], [exchange_evaluator.cpp])

    The exchange account registers a transaction of a foreign currency as an
    exchange object and later pays the account that sent it.  [fc::to_lower]
    is a parameter. *)

From stdpp Require Import gmap strings.
From Stdlib Require Import ZArith Lia.
From S2P Require Import Prelude Fc Config Asset VestingBalance Objects Database Sample Balances Fees.

Local Open Scope Z_scope.

Record exchange_create_operation := mkExchangeCreate {
  xc_fee : asset;
  xc_coin_name : string;
  xc_tx_id : string;
  xc_sender : Z;
  xc_amount : asset
}.

Record exchange_complete_operation := mkExchangeComplete {
  xf_fee : asset;
  xf_exchange : Z;
  xf_receiver : Z
}.

(** [fc::to_lower]. *)
Class FcString := { to_lower : string → string }.

(** The unique index [by_tx_id]. *)
Definition exchange_clash (a b : exchange_object) : bool :=
  bool_decide (xo_tx_id a = xo_tx_id b).

Section operations.
Context {FC : FcArith} {FS : FcString}.

Definition exchange_create_validate (op : exchange_create_operation) : result unit :=
  FC_ASSERT (0 <=? amount (xc_fee op)) ;;
  FC_ASSERT (negb (bool_decide (xc_coin_name op = EmptyString))) ;;
  FC_ASSERT (negb (bool_decide (xc_tx_id op = EmptyString))) ;;
  require (0 <? amount (xc_amount op)) assert_exception.

Definition tx_registered (d : database) (tx : string) : bool :=
  existsb (λ kv, bool_decide (xo_tx_id kv.2 = tx)) (map_to_list (objs (db_exchanges d))).

Definition exchange_create_do_evaluate (d : database) (op : exchange_create_operation)
    : result unit :=
  FC_ASSERT (negb (tx_registered d (xc_tx_id op))) ;;
  let* account := get_account d (xc_sender op) in
  FC_ASSERT (ao_verified account) ;;
  let* _ := get_account d OMNIBAZAAR_EXCHANGE_ACCOUNT in
  let* _ := get_asset_object d (asset_id (xc_amount op)) in
  require (amount (xc_amount op) <=?
           amount (get_balance d OMNIBAZAAR_EXCHANGE_ACCOUNT (asset_id (xc_amount op))))
    assert_exception.

Definition exchange_create_do_apply (d : database) (op : exchange_create_operation)
    : result database :=
  let* (_, t) := index_create exchange_clash (db_exchanges d)
    (mkExchange (to_lower (xc_coin_name op)) (xc_tx_id op) (xc_sender op) (xc_amount op)) in
  Ok (set_exchanges (λ _, t) d).

#[export] Instance exchange_create_evaluator : Evaluator exchange_create_operation := {
  ev_state := unit;
  op_fee_payer := λ _, OMNIBAZAAR_EXCHANGE_ACCOUNT;
  op_fee := xc_fee;
  do_evaluate := exchange_create_do_evaluate;
  do_apply := λ d op _, exchange_create_do_apply d op
}.

Definition exchange_complete_validate (op : exchange_complete_operation) : result unit :=
  require (0 <=? amount (xf_fee op)) assert_exception.

Definition exchange_complete_do_evaluate (d : database) (op : exchange_complete_operation)
    : result unit :=
  let* obj := index_get (db_exchanges d) (xf_exchange op) in
  require (xo_sender obj =? xf_receiver op) assert_exception.

Definition exchange_complete_do_apply (d : database) (op : exchange_complete_operation)
    : result database :=
  let* _ := get_account d (xf_receiver op) in
  let* obj := index_get (db_exchanges d) (xf_exchange op) in
  let* n := asset_neg (xo_amount obj) in
  let* d := adjust_balance d OMNIBAZAAR_EXCHANGE_ACCOUNT n in
  let* d := adjust_balance d (xf_receiver op) (xo_amount obj) in
  let* t := index_remove (db_exchanges d) (xf_exchange op) in
  Ok (set_exchanges (λ _, t) d).

#[export] Instance exchange_complete_evaluator : Evaluator exchange_complete_operation := {
  ev_state := unit;
  op_fee_payer := λ _, OMNIBAZAAR_EXCHANGE_ACCOUNT;
  op_fee := xf_fee;
  do_evaluate := exchange_complete_do_evaluate;
  do_apply := λ d op _, exchange_complete_do_apply d op
}.
End operations.

(** A foreign transaction is pending at most once, for a verified sender's
    positive amount. *)
Definition exchanges_wf (d : database) : Prop :=
  table_wf (db_exchanges d) ∧
  (∀ i j a b, objs (db_exchanges d) !! i = Some a → objs (db_exchanges d) !! j = Some b →
     xo_tx_id a = xo_tx_id b → i = j) ∧
  (∀ i a, objs (db_exchanges d) !! i = Some a → 0 < amount (xo_amount a)).

Section properties.
Context {FC : FcArith} {FCL : FcArithLaws FC} {BA : BoostArith} {FS : FcString}.

#[export] Instance exchange_create_conserves : EvaluatorConserves exchange_create_operation.
Proof.
  intros d0 d op st d' _ H. simpl in H. unfold exchange_create_do_apply in H.
  apply rbind_ok in H as ([id t] & _ & H). ok_inv. apply moves_set_exchanges.
Qed.

#[export] Instance exchange_complete_conserves : EvaluatorConserves exchange_complete_operation.
Proof.
  intros d0 d op st d' _ H. simpl in H. unfold exchange_complete_do_apply in H.
  apply rbind_ok in H as (acc & _ & H). apply rbind_ok in H as (obj & _ & H).
  apply rbind_ok in H as (n & Hn & H). apply asset_neg_ok in Hn as ->.
  apply rbind_ok in H as (d1 & H1 & H). apply rbind_ok in H as (d2 & H2 & H).
  apply rbind_ok in H as (t & _ & H). ok_inv. apply adjust_balance_moves in H1, H2.
  eapply moves_conserves_r; [|apply moves_set_exchanges].
  eapply moves_ext; [eapply moves_trans; eassumption|].
  intros aid; simpl. rewrite amount_of_neg. destruct (xo_amount obj); simpl. lia.
Qed.

Lemma tx_registered_false d tx :
  tx_registered d tx = false →
  ∀ i a, objs (db_exchanges d) !! i = Some a → xo_tx_id a ≠ tx.
Proof.
  unfold tx_registered. intros H i a Ha Heq.
  assert (existsb (λ kv, bool_decide (xo_tx_id kv.2 = tx))
    (map_to_list (objs (db_exchanges d))) = true) as E; [|congruence].
  apply existsb_exists. exists (i, a). split; [|by apply bool_decide_eq_true].
  by apply list_elem_of_In, elem_of_map_to_list.
Qed.

Lemma adjust_balance_exchanges d acct delta d' :
  adjust_balance d acct delta = Ok d' → db_exchanges d' = db_exchanges d.
Proof. intros [m ->]%adjust_balance_frame. done. Qed.

(** Registering an exchange: only for a verified sender, a foreign
    transaction that is not pending and an amount the exchange account
    holds.  The new object records it; the transactions stay unique and the
    amounts positive, and no balance changes but for the fee. *)
Theorem exchange_create_correct skip_check required d op d' :
  exchange_create_validate op = Ok tt → exchanges_wf d →
  start_evaluate false skip_check required d op = Ok d' →
  (∃ a, get_account d (xc_sender op) = Ok a ∧ ao_verified a = true) ∧
  (∀ i e, objs (db_exchanges d) !! i = Some e → xo_tx_id e ≠ xc_tx_id op) ∧
  amount (xc_amount op) <=
    amount (get_balance d OMNIBAZAAR_EXCHANGE_ACCOUNT (asset_id (xc_amount op))) ∧
  objs (db_exchanges d') !! next_id (db_exchanges d) =
    Some (mkExchange (to_lower (xc_coin_name op)) (xc_tx_id op) (xc_sender op) (xc_amount op)) ∧
  exchanges_wf d' ∧
  (∀ o i, amount (get_balance d' o i) =
     amount (get_balance d o i) - credit o i OMNIBAZAAR_EXCHANGE_ACCOUNT (xc_fee op)).
Proof.
  intros Hv (Hwf & Huniq & Hpos) (st & d1 & d2 & Hev & Hl & _ & Happ & Hadj)%start_evaluate_ok.
  simpl in *. pose proof (adjust_balance_exchanges _ _ _ _ Hadj) as Ex.
  pose proof Hl as (_ & _ & _ & _ & _ & _ & Ex1).
  unfold exchange_create_do_apply in Happ. apply rbind_ok in Happ as ([id t] & Hc & Happ).
  injection Happ as <-. simpl in Ex. rewrite Ex1 in Hc.
  apply index_create_wf in Hc as Hwf'; [|done].
  apply index_create_ok in Hc as (-> & Hnone & _ & ->).
  unfold exchange_create_do_evaluate in Hev. ok_inv. apply Z.leb_le in Hev.
  pose proof (tx_registered_false d (xc_tx_id op) ltac:(done)) as Hfresh.
  apply adjust_balance_get in Hadj as [_ Hget].
  unfold exchanges_wf. rewrite Ex; simpl. rewrite lookup_insert_eq.
  split_and!; [eauto|done|done|done|done| | |].
  - intros i j a b [[<- <-]|[_ Ha]]%lookup_insert_Some [[<- <-]|[_ Hb]]%lookup_insert_Some Hab;
      simpl in *; [done| | |by eapply Huniq].
    + by apply Hfresh in Hb.
    + by apply Hfresh in Ha.
  - intros i a [[<- <-]|[_ Ha]]%lookup_insert_Some; simpl; [|by eapply Hpos].
    unfold exchange_create_validate in Hv. ok_inv. lia.
  - intros o i. rewrite Hget. unfold get_balance at 1; simpl.
    change (match _ with None => _ | Some _ => _ end) with (get_balance d1 o i).
    rewrite (same_ledger_balance d d1) by done. unfold credit; simpl. case_decide; lia.
Qed.

(** Completing an exchange: only to the account that sent the foreign
    transaction.  The recorded amount moves from the exchange account to
    it, no other balance changes but for the fee, the object disappears and
    the others stay; so a second completion of the same exchange fails. *)
Theorem exchange_complete_pays_once skip_check required d op d' :
  exchanges_wf d → start_evaluate false skip_check required d op = Ok d' →
  ∃ e, objs (db_exchanges d) !! xf_exchange op = Some e ∧ xf_receiver op = xo_sender e ∧
    (∀ o i, amount (get_balance d' o i) =
       amount (get_balance d o i) - credit o i OMNIBAZAAR_EXCHANGE_ACCOUNT (xo_amount e)
       + credit o i (xo_sender e) (xo_amount e)
       - credit o i OMNIBAZAAR_EXCHANGE_ACCOUNT (xf_fee op)) ∧
    objs (db_exchanges d') = delete (xf_exchange op) (objs (db_exchanges d)) ∧
    exchanges_wf d' ∧
    ∀ skip_check' required' op', xf_exchange op' = xf_exchange op →
      is_ok (start_evaluate false skip_check' required' d' op') = false.
Proof.
  intros (Hwf & Huniq & Hpos) (st & d1 & d2 & Hev & Hl & _ & Happ & Hadj)%start_evaluate_ok.
  simpl in *. pose proof (adjust_balance_exchanges _ _ _ _ Hadj) as Ex.
  pose proof Hl as (_ & _ & _ & _ & _ & _ & Ex1).
  unfold exchange_complete_do_evaluate, index_get in Hev.
  apply rbind_ok in Hev as (e & He%of_option_ok & Hev%require_ok). apply Z.eqb_eq in Hev.
  exists e. unfold exchange_complete_do_apply in Happ.
  apply rbind_ok in Happ as (acc & _ & Happ). apply rbind_ok in Happ as (e' & He' & Happ).
  unfold index_get in He'. rewrite Ex1, He in He'. injection He' as <-.
  apply rbind_ok in Happ as (n & Hn & Happ). apply asset_neg_ok in Hn as ->.
  apply rbind_ok in Happ as (d3 & H3 & Happ). apply rbind_ok in Happ as (d4 & H4 & Happ).
  apply rbind_ok in Happ as (t & Ht & Happ). injection Happ as <-.
  pose proof (adjust_balance_exchanges _ _ _ _ H3) as E3.
  pose proof (adjust_balance_exchanges _ _ _ _ H4) as E4.
  apply index_remove_ok in Ht as [_ ->]. simpl in Ex. rewrite E4, E3, Ex1 in Ex.
  apply adjust_balance_get in H3 as [_ G3], H4 as [_ G4], Hadj as [_ G].
  split_and!; [done|done| |by rewrite Ex| |].
  - intros o i. rewrite G. unfold get_balance at 1; simpl.
    change (match _ with None => _ | Some _ => _ end) with (get_balance d4 o i).
    rewrite G4, G3, (same_ledger_balance d d1) by done. rewrite <- Hev.
    unfold credit; simpl. repeat case_decide; lia.
  - unfold exchanges_wf. rewrite Ex; simpl. split_and!.
    + intros i v; simpl. intros [_ Hi]%lookup_delete_Some. by apply Hwf in Hi.
    + intros i j a b [_ Ha]%lookup_delete_Some [_ Hb]%lookup_delete_Some. by eapply Huniq.
    + intros i a [_ Ha]%lookup_delete_Some. by eapply Hpos.
  - intros sk req op' Hop. destruct (start_evaluate _ _ _ _ _) as [d5|] eqn:E; [|done].
    apply start_evaluate_ok in E as (st' & ? & ? & Hev' & _). simpl in Hev'.
    unfold exchange_complete_do_evaluate, index_get in Hev'.
    rewrite Hop, Ex in Hev'. simpl in Hev'. by rewrite lookup_delete_eq in Hev'.
Qed.
End properties.

(** ** An exchange from registration to payment *)

#[local] Instance ascii_lower : FcString := {| to_lower s := s |}.

Definition verified_account (a : account_object) : account_object := set_verified (λ _, true) a.

Definition exchange_db : database :=
  set_balances (<[(8, 0) := 9000]>)
    (set_accounts (λ t, mkTable (<[alice := verified_account (sample_account "alice" alice)]> (objs t))
       (next_id t)) sample_db).

Definition sample_exchange : exchange_create_operation :=
  mkExchangeCreate (core_asset 5) "btc" "4a5e1e" alice (core_asset 700).

Definition registered_db : database :=
  get_ok (start_evaluate (FC := fc_reference) (BA := boost_reference)
    (E := exchange_create_evaluator) false false (Ok 5) exchange_db sample_exchange) exchange_db.

Lemma exchange_db_wf : exchanges_wf exchange_db.
Proof. by split_and!. Qed.

Lemma exchange_create_correct_witness :
  exchanges_wf registered_db ∧
  amount (get_balance registered_db 8 0) = 8995.
Proof.
  destruct (exchange_create_correct (FCL := fc_reference_laws) (BA := boost_reference)
    false (Ok 5) exchange_db sample_exchange registered_db)
    as (_ & _ & _ & _ & Hwf & Hb).
  - reflexivity.
  - apply exchange_db_wf.
  - apply get_ok_eq. vm_compute. reflexivity.
  - split; [exact Hwf|]. rewrite Hb. vm_compute. reflexivity.
Defined.

Definition sample_completion : exchange_complete_operation := mkExchangeComplete (core_asset 5) 0 alice.

Definition completed_db : database :=
  get_ok (start_evaluate (FC := fc_reference) (BA := boost_reference)
    (E := exchange_complete_evaluator (FC := fc_reference)) false false (Ok 5) registered_db
    sample_completion) registered_db.

Lemma registered_db_wf : exchanges_wf registered_db.
Proof.
  assert (db_exchanges registered_db = mkTable {[ 0 := mkExchange "btc" "4a5e1e" alice (core_asset 700) ]} 1)
    as E by (vm_compute; reflexivity).
  unfold exchanges_wf. rewrite E. split_and!.
  - intros i v; simpl. by intros [<- _]%lookup_singleton_Some.
  - intros i j a b; simpl. by intros [<- _]%lookup_singleton_Some [<- _]%lookup_singleton_Some.
  - intros i a; simpl. by intros [_ <-]%lookup_singleton_Some.
Qed.

Lemma exchange_complete_pays_once_witness :
  amount (get_balance completed_db alice 0) = 1000700 ∧
  amount (get_balance completed_db 8 0) = 8290 ∧
  is_ok (start_evaluate (FC := fc_reference) (BA := boost_reference)
    (E := exchange_complete_evaluator (FC := fc_reference)) false false (Ok 5) completed_db
    sample_completion) = false.
Proof.
  destruct (exchange_complete_pays_once (FCL := fc_reference_laws) (BA := boost_reference)
    false (Ok 5) registered_db sample_completion completed_db)
    as (e & He & _ & Hb & _ & _ & Hagain).
  - apply registered_db_wf.
  - apply get_ok_eq. vm_compute. reflexivity.
  - assert (e = mkExchange "btc" "4a5e1e" alice (core_asset 700)) as ->.
    { revert He. vm_compute. intros [= <-]. reflexivity. }
    rewrite !Hb. split; [vm_compute; reflexivity|]. split; [vm_compute; reflexivity|].
    apply Hagain. reflexivity.
Defined.
