(* ===== verification/VestingEval.v ===== *)
(** * Vesting balance operations
    ([protocol/vesting.hpp], [vesting_balance_evaluator.cpp]) *)

From stdpp Require Import gmap.
From Stdlib Require Import ZArith Lia.
From S2P Require Import Prelude Fc Config Asset VestingBalance Objects Database Sample Balances Fees.

Local Open Scope Z_scope.

Record linear_vesting_policy_initializer := mkLinearInit {
  li_begin_timestamp : Z;
  li_vesting_cliff_seconds : Z;
  li_vesting_duration_seconds : Z
}.

Record cdd_vesting_policy_initializer := mkCddInit {
  ci_start_claim : Z;
  ci_vesting_seconds : Z
}.

Inductive vesting_policy_initializer :=
  | linear_initializer (i : linear_vesting_policy_initializer)
  | cdd_initializer (i : cdd_vesting_policy_initializer).

Record vesting_balance_create_operation := mkVestingCreate {
  vc_fee : asset;
  vc_creator : Z;
  vc_owner : Z;
  vc_amount : asset;
  vc_policy : vesting_policy_initializer
}.

Record vesting_balance_withdraw_operation := mkVestingWithdraw {
  vw_fee : asset;
  vw_vesting_balance : Z;
  vw_owner : Z;
  vw_amount : asset
}.

Section operations.
Context {FC : FcArith}.

Definition vesting_create_validate (op : vesting_balance_create_operation) : result unit :=
  FC_ASSERT (0 <=? amount (vc_fee op)) ;;
  require (0 <? amount (vc_amount op)) assert_exception.

Definition vesting_create_do_evaluate (d : database) (op : vesting_balance_create_operation)
    : result unit :=
  let* _ := get_account d (vc_creator op) in
  let* _ := get_account d (vc_owner op) in
  FC_ASSERT (0 <? amount (vc_amount op)) ;;
  let* enough := asset_geb (get_balance d (vc_creator op) (asset_id (vc_amount op))) (vc_amount op) in
  FC_ASSERT enough ;;
  let* a := get_asset_object d (asset_id (vc_amount op)) in
  require (negb (is_transfer_restricted a)) assert_exception.

(** [init_policy_visitor]. *)
Definition init_policy (i : vesting_policy_initializer) (init_balance now : Z) : vesting_policy :=
  match i with
  | linear_initializer i =>
      linear_policy (mkLinear (li_begin_timestamp i) (li_vesting_cliff_seconds i)
        (li_vesting_duration_seconds i) init_balance)
  | cdd_initializer i =>
      cdd_policy (mkCdd (ci_vesting_seconds i) 0 (ci_start_claim i) now)
  end.

Definition vesting_create_do_apply (d : database) (op : vesting_balance_create_operation)
    : result database :=
  let now := head_block_time d in
  let* enough := asset_geb (get_balance d (vc_creator op) (asset_id (vc_amount op))) (vc_amount op) in
  FC_ASSERT enough ;;
  let* n := asset_neg (vc_amount op) in
  let* d := adjust_balance d (vc_creator op) n in
  let* (_, t) := index_create no_clash (db_vesting d)
    (mkVbo (vc_owner op) (vc_amount op)
      (init_policy (vc_policy op) (amount (vc_amount op)) now) no_type) in
  Ok (set_vesting (λ _, t) d).

#[export] Instance vesting_create_evaluator : Evaluator vesting_balance_create_operation := {
  ev_state := unit;
  op_fee_payer := vc_creator;
  op_fee := vc_fee;
  do_evaluate := vesting_create_do_evaluate;
  do_apply := λ d op _, vesting_create_do_apply d op
}.

Definition vesting_withdraw_validate (op : vesting_balance_withdraw_operation) : result unit :=
  FC_ASSERT (0 <=? amount (vw_fee op)) ;;
  require (0 <? amount (vw_amount op)) assert_exception.

Definition vesting_withdraw_do_evaluate (d : database) (op : vesting_balance_withdraw_operation)
    : result unit :=
  let now := head_block_time d in
  let* vbo := index_get (db_vesting d) (vw_vesting_balance op) in
  FC_ASSERT (vw_owner op =? vb_owner vbo) ;;
  let* allowed := vb_is_withdraw_allowed vbo now (vw_amount op) in
  FC_ASSERT allowed ;;
  let* _ := get_account d (vw_owner op) in
  Ok tt.

Definition vesting_withdraw_do_apply (d : database) (op : vesting_balance_withdraw_operation)
    : result database :=
  let now := head_block_time d in
  let* t := index_modify no_clash (db_vesting d) (vw_vesting_balance op)
              (λ vbo, vb_withdraw vbo now (vw_amount op)) in
  adjust_balance (set_vesting (λ _, t) d) (vw_owner op) (vw_amount op).

#[export] Instance vesting_withdraw_evaluator : Evaluator vesting_balance_withdraw_operation := {
  ev_state := unit;
  op_fee_payer := vw_owner;
  op_fee := vw_fee;
  do_evaluate := vesting_withdraw_do_evaluate;
  do_apply := λ d op _, vesting_withdraw_do_apply d op
}.
End operations.

(** The settings of an initializer are unsigned 32-bit numbers. *)
Definition initializer_wf (i : vesting_policy_initializer) : Prop :=
  match i with
  | linear_initializer i =>
      0 <= li_begin_timestamp i < 2 ^ 32 ∧ 0 <= li_vesting_cliff_seconds i < 2 ^ 32 ∧
      0 <= li_vesting_duration_seconds i < 2 ^ 32
  | cdd_initializer i => 0 <= ci_start_claim i < 2 ^ 32 ∧ 0 <= ci_vesting_seconds i < 2 ^ 32
  end.

Section properties.
Context {FC : FcArith} {FCL : FcArithLaws FC} {BA : BoostArith}.

#[export] Instance vesting_create_conserves : EvaluatorConserves vesting_balance_create_operation.
Proof.
  intros d0 d op st d' _ H. simpl in H. unfold vesting_create_do_apply in H.
  apply rbind_ok in H as (e & _ & H). apply rbind_ok in H as (u & _ & H).
  apply rbind_ok in H as (n & Hn & H). apply asset_neg_ok in Hn as ->.
  apply rbind_ok in H as (d1 & H1 & H). apply rbind_ok in H as ([id t] & H2 & H). ok_inv.
  apply adjust_balance_moves in H1. apply index_create_vesting_moves in H2.
  eapply moves_ext; [eapply moves_trans; eassumption|].
  intros aid; simpl. rewrite amount_of_neg. destruct (vc_amount op); simpl. lia.
Qed.

Lemma vb_withdraw_balance v now a v' :
  vb_withdraw v now a = Ok v' →
  vb_balance v' = mkAsset (amount (vb_balance v) - amount a) (asset_id (vb_balance v)) ∧
  asset_id a = asset_id (vb_balance v).
Proof.
  unfold vb_withdraw. intros H. apply rbind_ok in H as (b & Hb & H).
  apply asset_sub_ok in Hb as [E ->]. injection H as <-. done.
Qed.

#[export] Instance vesting_withdraw_conserves : EvaluatorConserves vesting_balance_withdraw_operation.
Proof.
  intros d0 d op st d' _ H. simpl in H. unfold vesting_withdraw_do_apply in H.
  apply rbind_ok in H as (t & Ht & H).
  apply index_modify_vesting_moves in Ht as (v & v' & Hv & Hw & M).
  apply vb_withdraw_balance in Hw as [E Eid]. apply adjust_balance_moves in H.
  eapply moves_ext; [eapply moves_trans; eassumption|].
  intros aid; simpl. rewrite E. unfold amount_of; simpl. rewrite Eid. case_match; lia.
Qed.

Lemma adjust_balance_vesting d acct delta d' :
  adjust_balance d acct delta = Ok d' →
  db_vesting d' = db_vesting d ∧ db_dgpo d' = db_dgpo d.
Proof. intros [m ->]%adjust_balance_frame. done. Qed.

(** A fresh vesting balance satisfies the invariant of its policy. *)
Lemma init_policy_wf i amt now o t a :
  initializer_wf i → 0 <= amt <= GRAPHENE_MAX_SHARE_SUPPLY → 0 <= now < 2 ^ 32 →
  vb_wf (mkVbo o (mkAsset amt a) (init_policy i amt now) t) now.
Proof.
  intros Hi Ha Hn. destruct i as [i|i]; unfold vb_wf; simpl in *.
  - assert (0 <= linear_vested (mkLinear (li_begin_timestamp i) (li_vesting_cliff_seconds i)
      (li_vesting_duration_seconds i) amt) now) as Hv.
    { unfold linear_vested; simpl.
      destruct (Z.leb_spec now (li_begin_timestamp i)); [lia|].
      destruct (_ <? li_vesting_cliff_seconds i); [lia|].
      destruct (Z.ltb_spec (now - li_begin_timestamp i) (li_vesting_duration_seconds i)); [|lia].
      apply Z.div_pos; nia. }
    unfold linear_wf; simpl. repeat split; lia.
  - unfold cdd_wf, cdd_divisor; simpl. repeat split; nia.
Qed.

(** Creating a vesting balance: the creator's balance pays the amount
    and the fee, one object holding exactly the amount appears for the
    owner, in the invariant of its policy, every other vesting balance
    stays; and of a coin-day balance nothing can be withdrawn yet. *)
Theorem vesting_create_correct skip_check required d op d' :
  vesting_create_validate op = Ok tt → initializer_wf (vc_policy op) →
  amount (vc_amount op) <= GRAPHENE_MAX_SHARE_SUPPLY → 0 <= head_block_time d < 2 ^ 32 →
  start_evaluate false skip_check required d op = Ok d' →
  let now := head_block_time d in
  let v := mkVbo (vc_owner op) (vc_amount op)
             (init_policy (vc_policy op) (amount (vc_amount op)) now) no_type in
  objs (db_vesting d) !! next_id (db_vesting d) = None ∧
  objs (db_vesting d') = <[next_id (db_vesting d) := v]> (objs (db_vesting d)) ∧
  vb_wf v now ∧
  (match vc_policy op with cdd_initializer _ => vb_allowed v now = 0 | _ => True end) ∧
  ∀ o i, amount (get_balance d' o i) =
    amount (get_balance d o i) - credit o i (vc_creator op) (vc_amount op)
    - credit o i (vc_creator op) (vc_fee op).
Proof.
  intros Hv Hi Hmax Hnow (g & st & d0 & d1 & d2 & _ & Hev & Hc & Hp & Happ & Hadj)%start_evaluate_stages
    now v.
  pose proof (fee_payment_ledger _ _ _ _ _ Hc Hp) as L.
  pose proof (fee_payment_vesting _ _ _ _ _ Hc Hp) as [Ev _].
  simpl in *. pose proof (adjust_balance_vesting _ _ _ _ Hadj) as [Ev2 _].
  unfold vesting_create_do_apply in Happ.
  apply rbind_ok in Happ as (e & _ & Happ). apply rbind_ok in Happ as (u & _ & Happ).
  apply rbind_ok in Happ as (n & Hn & Happ). apply asset_neg_ok in Hn as ->.
  apply rbind_ok in Happ as (d3 & H3 & Happ). apply rbind_ok in Happ as ([id t] & H4 & Happ).
  injection Happ as <-. pose proof (adjust_balance_vesting _ _ _ _ H3) as [Ev3 _].
  apply index_create_ok in H4 as (-> & Hnone & _ & ->). rewrite Ev3, Ev in Hnone.
  simpl in Ev2. rewrite Ev3, Ev in Ev2. rewrite Ev2; simpl.
  assert (head_block_time d1 = now) as Et.
  { subst now. unfold head_block_time. destruct L as (_ & _ & _ & _ & -> & _). done. }
  rewrite Et. fold v.
  assert (0 <= amount (vc_amount op)) as Hpos.
  { unfold vesting_create_validate in Hv. ok_inv. lia. }
  split_and!; [done|done| | |].
  - subst v. destruct (vc_amount op) as [amt a]; simpl in *. by apply init_policy_wf.
  - subst v. destruct (vc_policy op) as [i|i]; [done|].
    unfold vb_allowed; simpl. destruct (now <=? ci_start_claim i); [done|].
    unfold cdd_earned; simpl. rewrite Z.sub_diag, Z.mul_0_r.
    simpl in Hi. rewrite Z.min_l by (unfold cdd_divisor; simpl; nia). apply Z.div_0_l.
    unfold cdd_divisor; simpl. lia.
  - apply adjust_balance_get in H3 as [_ G3], Hadj as [_ G].
    intros o i. rewrite G. unfold get_balance at 1; simpl.
    change (match _ with None => _ | Some _ => _ end) with (get_balance d3 o i).
    rewrite G3, (same_ledger_balance d d1) by done.
    unfold credit; simpl. repeat case_decide; lia.
Qed.

(** Withdrawing from a vesting balance: only its owner can, and only
    what has vested.  The vested amount falls by what is taken, the policy
    invariant stays, the owner's balance grows by it (less the fee), and
    every other vesting balance and account balance is untouched. *)
Theorem vesting_withdraw_correct skip_check required d op d' v :
  let now := head_block_time d in
  objs (db_vesting d) !! vw_vesting_balance op = Some v → vb_wf v now →
  asset_id (vw_amount op) = asset_id (vb_balance v) →
  vesting_withdraw_validate op = Ok tt →
  start_evaluate false skip_check required d op = Ok d' →
  vw_owner op = vb_owner v ∧
  0 < amount (vw_amount op) <= vb_allowed v now ∧
  (∃ v', objs (db_vesting d') = <[vw_vesting_balance op := v']> (objs (db_vesting d)) ∧
     vb_owner v' = vb_owner v ∧ vb_wf v' now ∧
     vb_balance v' = mkAsset (amount (vb_balance v) - amount (vw_amount op))
                       (asset_id (vb_balance v)) ∧
     vb_allowed v' now = vb_allowed v now - amount (vw_amount op)) ∧
  ∀ o i, amount (get_balance d' o i) =
    amount (get_balance d o i) + credit o i (vb_owner v) (vw_amount op)
    - credit o i (vb_owner v) (vw_fee op).
Proof.
  intros now Hlk Hwf Hid Hv
    (g & st & d0 & d1 & d2 & _ & Hev & Hc & Hp & Happ & Hadj)%start_evaluate_stages.
  pose proof (fee_payment_ledger _ _ _ _ _ Hc Hp) as L.
  pose proof (fee_payment_vesting _ _ _ _ _ Hc Hp) as [Ev _].
  simpl in *. pose proof (adjust_balance_vesting _ _ _ _ Hadj) as [Ev2 _].
  assert (0 < amount (vw_amount op)) as Hpos.
  { unfold vesting_withdraw_validate in Hv. ok_inv. lia. }
  unfold vesting_withdraw_do_evaluate, index_get in Hev. rewrite Hlk in Hev. simpl in Hev.
  apply rbind_ok in Hev as (u & Ho%require_ok & Hev). apply Z.eqb_eq in Ho.
  apply rbind_ok in Hev as (ok & Hok & Hev). apply rbind_ok in Hev as (u' & Htrue%require_ok & _).
  subst ok. fold now in Hok.
  destruct (withdraw_allowed_safe v now (vw_amount op)) as (v' & Hw & Hwf' & Ho' & Hb' & Ha');
    [done|done|lia|done|].
  rewrite vb_is_withdraw_allowed_eq in Hok by done. injection Hok as Hle. apply Z.leb_le in Hle.
  unfold vesting_withdraw_do_apply in Happ. apply rbind_ok in Happ as (t & Ht & Happ).
  pose proof (adjust_balance_vesting _ _ _ _ Happ) as [Ev3 _].
  apply index_modify_ok in Ht as (w & w' & Hw1 & Hw2 & _ & ->).
  rewrite Ev, Hlk in Hw1. injection Hw1 as <-.
  assert (head_block_time d1 = now) as Et.
  { subst now. unfold head_block_time. destruct L as (_ & _ & _ & _ & -> & _). done. }
  rewrite Et, Hw in Hw2. injection Hw2 as <-.
  split_and!; [done|done|done| |].
  - exists v'. rewrite Ev2, Ev3; simpl. rewrite Ev. by split_and!.
  - apply adjust_balance_get in Happ as [_ G3], Hadj as [_ G].
    intros o i. rewrite G, G3. unfold get_balance at 1; simpl.
    change (match _ with None => _ | Some _ => _ end) with (get_balance d1 o i).
    rewrite (same_ledger_balance d d1) by done. rewrite <- Ho.
    unfold credit; simpl. repeat case_decide; lia.
Qed.
End properties.

(** ** Alice locks 5000 coins for Bob, who later withdraws some *)

Definition sample_lock : vesting_balance_create_operation :=
  mkVestingCreate (core_asset 5) alice bob (core_asset 5000) (cdd_initializer (mkCddInit 0 1000)).

Definition locked_db : database :=
  get_ok (start_evaluate (FC := fc_reference) (BA := boost_reference)
    (E := vesting_create_evaluator (FC := fc_reference)) false false (Ok 5) sample_db sample_lock)
    sample_db.

Lemma vesting_create_correct_witness :
  amount (get_balance locked_db alice 0) = 994995.
Proof.
  destruct (vesting_create_correct (FCL := fc_reference_laws) (BA := boost_reference)
    false (Ok 5) sample_db sample_lock locked_db) as (_ & _ & _ & _ & H).
  - reflexivity.
  - vm_compute. intuition congruence.
  - vm_compute. discriminate.
  - vm_compute. intuition congruence.
  - apply get_ok_eq. vm_compute. reflexivity.
  - rewrite H. vm_compute. reflexivity.
Defined.

(** Half a vesting period later. *)
Definition later_db : database :=
  set_dgpo (λ g, mkDgpo 100 1570000500 0 1000 0 100 (2 ^ 128 - 1) 0 90 0 0 0 0 0
    1570003600 1569999900 0) locked_db.

Definition sample_withdrawal : vesting_balance_withdraw_operation :=
  mkVestingWithdraw (core_asset 0) 0 bob (core_asset 2500).

Definition withdrawn_db : database :=
  get_ok (start_evaluate (FC := fc_reference) (BA := boost_reference)
    (E := vesting_withdraw_evaluator (FC := fc_reference)) false false (Ok 0) later_db
    sample_withdrawal) later_db.

Definition locked_balance : vesting_balance_object :=
  mkVbo bob (core_asset 5000) (cdd_policy (mkCdd 1000 0 0 1570000000)) no_type.

Lemma vesting_withdraw_correct_witness :
  amount (get_balance withdrawn_db bob 0) = 4500.
Proof.
  destruct (vesting_withdraw_correct (FCL := fc_reference_laws) (BA := boost_reference)
    false (Ok 0) later_db sample_withdrawal withdrawn_db locked_balance) as (_ & _ & _ & H).
  - vm_compute. reflexivity.
  - vm_compute. intuition congruence.
  - reflexivity.
  - reflexivity.
  - apply get_ok_eq. vm_compute. reflexivity.
  - rewrite H. vm_compute. reflexivity.
Defined.
