(* ===== verification/Market.v ===== *)
(** * The market ([db_market.cpp], [check_for_blackswan] of [db_update.cpp])

    Limit orders, margin positions (call orders), forced settlements and
    collateral bids: filling, matching, margin calls, global settlement.

    A reference to an object of the source is an id here, and reading through
    it after the object was removed is undefined behaviour.  An iterator over
    an ordered index is the list of the ids it still has to visit: none of the
    loops creates orders, and an order that is removed was visited before or is
    the one the iterator points at, so that the list and the live index agree
    on what comes next.  Virtual operations ([push_applied_operation]) only
    feed the history and are left out. *)

From stdpp Require Import gmap list.
From Stdlib Require Import ZArith Lia.
From S2P Require Import Prelude Fc Config Asset VestingBalance Objects Database Balances Fees.

Local Open Scope Z_scope.

(** ** Ordered indexes *)

(** The entries an iterator visits between two bounds. *)
Definition visit {V} (before : Z * V → Z * V → bool) (within : V → bool) (m : gmap Z V) : list Z :=
  map fst (List.filter (λ kv, within kv.2) (in_order before m)).

Section operations.
Context {FC : FcArith} {BA : BoostArith}.

(** [limit_order_index] by price: highest price first, then the oldest. *)
Definition limit_before (a b : Z * limit_order_object) : bool :=
  price_gtb (lim_sell_price a.2) (lim_sell_price b.2)
  || (negb (price_gtb (lim_sell_price b.2) (lim_sell_price a.2)) && (a.1 <? b.1)).

(** From [lower_bound(hi)] to [upper_bound(lo)]. *)
Definition limit_range (d : database) (hi lo : price) : list Z :=
  visit limit_before
    (λ o, negb (price_gtb (lim_sell_price o) hi) && negb (price_gtb lo (lim_sell_price o)))
    (objs (db_limit_orders d)).

(** [call_order_index] by price: lowest call price first. *)
Definition call_before (a b : Z * call_order_object) : bool :=
  price_ltb (call_call_price a.2) (call_call_price b.2)
  || (negb (price_ltb (call_call_price b.2) (call_call_price a.2)) && (a.1 <? b.1)).

Definition call_range (d : database) (lo hi : price) : list Z :=
  visit call_before
    (λ o, negb (price_ltb (call_call_price o) lo) && negb (price_ltb hi (call_call_price o)))
    (objs (db_call_orders d)).

(** All margin positions of [aid], backed by [bk]. *)
Definition positions (d : database) (bk aid : Z) : result (list Z) :=
  let* lo := price_min bk aid in
  let* hi := price_max bk aid in
  Ok (call_range d lo hi).

(** ** References *)

Definition limit_ref (d : database) (id : Z) : result limit_order_object :=
  of_option undefined_behaviour (objs (db_limit_orders d) !! id).
Definition call_ref (d : database) (id : Z) : result call_order_object :=
  of_option undefined_behaviour (objs (db_call_orders d) !! id).
Definition settlement_ref (d : database) (id : Z) : result force_settlement_object :=
  of_option undefined_behaviour (objs (db_settlements d) !! id).

Definition put_limit (id : Z) (o : limit_order_object) (d : database) : database :=
  set_limit_orders (λ t, mkTable (<[id := o]> (objs t)) (next_id t)) d.
Definition put_call (id : Z) (o : call_order_object) (d : database) : database :=
  set_call_orders (λ t, mkTable (<[id := o]> (objs t)) (next_id t)) d.
Definition put_settlement (id : Z) (o : force_settlement_object) (d : database) : database :=
  set_settlements (λ t, mkTable (<[id := o]> (objs t)) (next_id t)) d.
Definition remove_limit (id : Z) (d : database) : database :=
  set_limit_orders (λ t, mkTable (delete id (objs t)) (next_id t)) d.
Definition remove_call (id : Z) (d : database) : database :=
  set_call_orders (λ t, mkTable (delete id (objs t)) (next_id t)) d.
Definition remove_settlement (id : Z) (d : database) : database :=
  set_settlements (λ t, mkTable (delete id (objs t)) (next_id t)) d.
Definition remove_bid (id : Z) (d : database) : database :=
  set_bids (λ t, mkTable (delete id (objs t)) (next_id t)) d.

(** [mia.bitasset_data(db)]. *)
Definition bitasset_id (a : asset_object) : result Z :=
  of_option undefined_behaviour (as_bitasset_data_id a).
Definition get_bitasset (d : database) (a : asset_object) : result asset_bitasset_data_object :=
  let* i := bitasset_id a in of_option unknown_object (db_bitassets d !! i).
Definition modify_bitasset (d : database) (a : asset_object)
    (f : asset_bitasset_data_object → result asset_bitasset_data_object) : result database :=
  let* i := bitasset_id a in
  let* b := of_option unknown_object (db_bitassets d !! i) in
  let* b' := f b in
  Ok (set_bitassets (<[i := b']>) d).

Definition has_settlement (b : asset_bitasset_data_object) : bool :=
  negb (price_is_null (bd_settlement_price b)).

Definition amount_to_receive (o : limit_order_object) : result asset :=
  asset_mul_price (amount_for_sale o) (lim_sell_price o).

(** ** Market fees *)

Definition calculate_market_fee (aid : Z) (a : asset_object) (trade_amount : asset) : result asset :=
  if negb (charges_market_fees a) then Ok (mkAsset 0 aid)
  else if as_market_fee_percent a =? 0 then Ok (mkAsset 0 aid)
  else
    let* q := u128_div (u128_mul (u128_of_i64 (amount trade_amount)) (as_market_fee_percent a))
                GRAPHENE_100_PERCENT in
    let* v := u128_to_uint64 q in
    let fee := wrap_i64 v in
    Ok (mkAsset (if as_max_market_fee a <? fee then as_max_market_fee a else fee) aid).

Definition pay_market_fees (d : database) (receives : asset) : result (asset * database) :=
  let* recv_asset := get_asset_object d (asset_id receives) in
  let* issuer_fees := calculate_market_fee (asset_id receives) recv_asset receives in
  if 0 <? amount issuer_fees then
    let* d := modify_asset_dyn d (as_dynamic_asset_data_id recv_asset)
                (λ s, let* f := safe_add (dd_accumulated_fees s) (amount issuer_fees) in
                      Ok (set_accumulated_fees (λ _, f) s)) in
    Ok (issuer_fees, d)
  else Ok (issuer_fees, d).

(** [modify(statistics, total_core_in_orders -= amount)]. *)
Definition less_core_in_orders (x : Z) (s : account_statistics_object)
    : result account_statistics_object :=
  let* t := safe_sub (st_total_core_in_orders s) x in
  Ok (set_total_core_in_orders (λ _, t) s).

Definition pay_order (d : database) (receiver : Z) (receives pays : asset) : result database :=
  let* a := get_account d receiver in
  let* d := modify_statistics d (ao_statistics a)
              (λ s, if asset_id pays =? core_id then less_core_in_orders (amount pays) s else Ok s) in
  adjust_balance d receiver receives.

(** ** Cancelling *)

(** [cancel_order(limit_order_object)]. *)
Definition cancel_limit_order (d : database) (id : Z) : result database :=
  let* o := limit_ref d id in
  let refunded := amount_for_sale o in
  let* a := get_account d (lim_seller o) in
  let* d := modify_statistics d (ao_statistics a)
              (λ s, if asset_id refunded =? core_id
                    then less_core_in_orders (amount refunded) s else Ok s) in
  let* d := adjust_balance d (lim_seller o) refunded in
  let* d := adjust_balance d (lim_seller o) (core_asset (lim_deferred_fee o)) in
  Ok (remove_limit id d).

Definition maybe_cull_small_order (d : database) (id : Z) : result (bool * database) :=
  let* o := limit_ref d id in
  let* r := amount_to_receive o in
  if amount r =? 0 then
    let* d := cancel_limit_order d id in Ok (true, d)
  else Ok (false, d).

(** [cancel_order(force_settlement_object)]. *)
Definition cancel_settlement (d : database) (id : Z) : result database :=
  let* s := settlement_ref d id in
  let* d := adjust_balance d (fs_owner s) (fs_balance s) in
  Ok (remove_settlement id d).

Definition cancel_bid (d : database) (id : Z) : result database :=
  let* b := of_option undefined_behaviour (objs (db_bids d) !! id) in
  let* d := adjust_balance d (bid_bidder b) (base (bid_inv_swan_price b)) in
  Ok (remove_bid id d).

(** ** Filling *)

(** [fill_order(limit_order_object, ...)]: true when the order is gone. *)
Definition fill_limit_order (d : database) (id : Z) (pays receives : asset) (cull_if_small : bool)
    : result (bool * database) :=
  let cull_if_small := cull_if_small || (head_block_time d <? HARDFORK_555_TIME) in
  let* o := limit_ref d id in
  FC_ASSERT (asset_id (amount_for_sale o) =? asset_id pays) ;;
  FC_ASSERT (negb (asset_id pays =? asset_id receives)) ;;
  let* seller := get_account d (lim_seller o) in
  let* (issuer_fees, d) := pay_market_fees d receives in
  let* net := asset_sub receives issuer_fees in
  let* d := pay_order d (lim_seller o) net pays in
  let* d := if 0 <? lim_deferred_fee o
            then modify_statistics d (ao_statistics seller)
                   (λ s, statistics_pay_fee s (lim_deferred_fee o)
                           (cp_cashback_vesting_threshold (parameters d)))
            else Ok d in
  if asset_eqb pays (amount_for_sale o) then Ok (true, remove_limit id d)
  else
    let* rest := safe_sub (lim_for_sale o) (amount pays) in
    let d := put_limit id (mkLimit (lim_expiration o) (lim_seller o) rest (lim_sell_price o) 0) d in
    if cull_if_small then maybe_cull_small_order d id else Ok (false, d).

(** [fill_order(call_order_object, ...)].  The freed collateral lowers
    [total_core_in_orders] whatever its currency, as in the source. *)
Definition fill_call_order (d : database) (id : Z) (pays receives : asset)
    : result (bool * database) :=
  let* o := call_ref d id in
  FC_ASSERT (asset_id (get_debt o) =? asset_id receives) ;;
  FC_ASSERT (asset_id (get_collateral o) =? asset_id pays) ;;
  let* enough := asset_geb (get_collateral o) pays in
  FC_ASSERT enough ;;
  let* debt := safe_sub (call_debt o) (amount receives) in
  let* coll := safe_sub (call_collateral o) (amount pays) in
  let freed := if debt =? 0 then Some (mkAsset coll (asset_id (get_collateral o))) else None in
  let d := put_call id (mkCall (call_borrower o) (if debt =? 0 then 0 else coll) debt
                          (call_call_price o)) d in
  let* mia := get_asset_object d (asset_id receives) in
  let* d := modify_asset_dyn d (as_dynamic_asset_data_id mia)
              (λ s, let* c := safe_sub (dd_current_supply s) (amount receives) in
                    Ok (set_current_supply (λ _, c) s)) in
  let* borrower := get_account d (call_borrower o) in
  let* d :=
    if bool_decide (is_Some freed) || (asset_id pays =? core_id) then
      let* d := match freed with
                | Some f => adjust_balance d (call_borrower o) f | None => Ok d end in
      modify_statistics d (ao_statistics borrower)
        (λ s, let* s := match freed with
                        | Some f => if 0 <? amount f then less_core_in_orders (amount f) s else Ok s
                        | None => Ok s
                        end in
              if asset_id pays =? core_id then less_core_in_orders (amount pays) s else Ok s)
    else Ok d in
  Ok (bool_decide (is_Some freed), if debt =? 0 then remove_call id d else d).

(** [fill_order(force_settlement_object, ...)]. *)
Definition fill_settlement (d : database) (id : Z) (pays receives : asset)
    : result (bool * database) :=
  let* s := settlement_ref d id in
  let* (issuer_fees, d) := pay_market_fees d receives in
  let* partial := asset_ltb pays (fs_balance s) in
  let* d :=
    if partial then
      let* b := asset_sub (fs_balance s) pays in
      Ok (put_settlement id (mkSettlement (fs_owner s) b (fs_settlement_date s)) d)
    else Ok d in
  let* net := asset_sub receives issuer_fees in
  let* d := adjust_balance d (fs_owner s) net in
  Ok (negb partial, if partial then d else remove_settlement id d).

(** ** Matching *)

(** What the new order and the old one receive. *)
Definition match_amounts (usd_for_sale core_for_sale : asset) (match_price : price)
    : result (asset * asset) :=
  let* core_value := asset_mul_price core_for_sale match_price in
  let* small := asset_leb usd_for_sale core_value in
  if small then
    let* r := asset_mul_price usd_for_sale match_price in Ok (r, usd_for_sale)
  else
    let* r := asset_mul_price core_for_sale match_price in Ok (core_for_sale, r).

(** [match(limit, limit, price)]: which of the new order and the old one were
    filled. *)
Definition match_limit_orders (d : database) (usd core : Z) (match_price : price)
    : result (bool * bool * database) :=
  let* u := limit_ref d usd in
  let* c := limit_ref d core in
  let* (usd_receives, core_receives) :=
    match_amounts (amount_for_sale u) (amount_for_sale c) match_price in
  let core_pays := usd_receives in
  let usd_pays := core_receives in
  let* (filled_usd, d) := fill_limit_order d usd usd_pays usd_receives false in
  let* (filled_core, d) := fill_limit_order d core core_pays core_receives true in
  Ok (filled_usd, filled_core, d).

Definition asset_min (a b : asset) : result asset :=
  let* less := asset_ltb b a in Ok (if less then b else a).

(** [match(call, settle, price, max)]: the amount settled.  [black_swan] is
    the exception the caller catches. *)
Definition match_settlement (d : database) (call settle : Z) (match_price : price)
    (max_settlement : asset) : result (asset * database) :=
  let* c := call_ref d call in
  let* s := settlement_ref d settle in
  FC_ASSERT (debt_type c =? asset_id (fs_balance s)) ;;
  FC_ASSERT ((0 <? call_debt c) && (0 <? call_collateral c) && (0 <? amount (fs_balance s))) ;;
  let* settle_for_sale := asset_min (fs_balance s) max_settlement in
  let* call_receives := asset_min settle_for_sale (get_debt c) in
  let* call_pays := asset_mul_price call_receives match_price in
  let* covered := asset_ltb call_pays (get_collateral c) in
  GRAPHENE_ASSERT covered else black_swan_exception ;;
  let* (_, d) := fill_call_order d call call_pays call_receives in
  let* (_, d) := fill_settlement d settle call_receives call_pays in
  Ok (call_receives, d).

(** ** Global settlement *)

(** The loop over the margin positions; [gathered] is the collateral taken. *)
Fixpoint close_positions (calls : list Z) (settlement_price : price) (gathered : asset)
    (d : database) : result (asset * database) :=
  match calls with
  | [] => Ok (gathered, d)
  | id :: calls' =>
      let* c := call_ref d id in
      let* value := asset_mul_price (get_debt c) settlement_price in
      let* above := asset_gtb value (get_collateral c) in
      let pays := if above then get_collateral c else value in
      let* gathered' := asset_add gathered pays in
      let* (filled, d) := fill_call_order d id pays (get_debt c) in
      FC_ASSERT filled ;;
      close_positions calls' settlement_price gathered' d
  end.

Definition globally_settle_asset (d : database) (aid : Z) (settlement_price : price)
    : result database :=
  let* mia := get_asset_object d aid in
  let* bitasset := get_bitasset d mia in
  FC_ASSERT (negb (has_settlement bitasset)) ;;
  let* _ := get_asset_object d (backing bitasset) in
  let* mia_dyn := get_asset_dyn d (as_dynamic_asset_data_id mia) in
  let original_mia_supply := dd_current_supply mia_dyn in
  let* calls := positions d (backing bitasset) aid in
  let* (gathered, d) := close_positions calls settlement_price (mkAsset 0 (backing bitasset)) d in
  let* d := modify_bitasset d mia
              (λ b, let* p := asset_div (mkAsset original_mia_supply aid) gathered in
                    Ok (set_settlement_fund (λ _, amount gathered)
                          (set_settlement_price (λ _, p) b))) in
  modify_asset_dyn d (as_dynamic_asset_data_id mia)
    (λ s, Ok (set_current_supply (λ _, original_mia_supply) s)).

Definition check_for_blackswan (d : database) (aid : Z) (enable_black_swan : bool)
    : result (bool * database) :=
  let* mia := get_asset_object d aid in
  if negb (is_market_issued mia) then Ok (false, d)
  else
    let* bitasset := get_bitasset d mia in
    if has_settlement bitasset then Ok (true, d)
    else
      let settle_price := settlement_price (bd_current_feed bitasset) in
      if price_is_null settle_price then Ok (false, d)
      else
        let* highest_possible_bid := price_max aid (backing bitasset) in
        let* lowest_possible_bid := price_min aid (backing bitasset) in
        let bids := limit_range d highest_possible_bid lowest_possible_bid in
        let* calls := positions d (backing bitasset) aid in
        match calls with
        | [] => Ok (false, d)
        | least :: _ =>
            let* highest :=
              match bids with
              | [] => Ok settle_price
              | top :: _ =>
                  let* o := limit_ref d top in
                  (* std::max( limit_itr->sell_price, settle_price ) *)
                  Ok (if price_ltb (lim_sell_price o) settle_price
                      then settle_price else lim_sell_price o)
              end in
            let* c := call_ref d least in
            let* least_collateral := asset_div (get_collateral c) (get_debt c) in
            if price_geb (price_inv least_collateral) highest then
              FC_ASSERT enable_black_swan ;;
              let* d := globally_settle_asset d aid (price_inv least_collateral) in
              Ok (true, d)
            else Ok (false, d)
        end.

(** ** Margin calls *)

Inductive round_result :=
  | Stop (margin_called : bool) (d : database)
  | Next (filled_call filled_limit : bool) (d : database).

(** One round of the loop of [check_call_orders], on the position [call] and
    the order [limit]. *)
Definition call_round (aid : Z) (enable_black_swan : bool) (call limit : Z)
    (filled_limit margin_called : bool) (d : database) : result round_result :=
  let* mia := get_asset_object d aid in
  let* bitasset := get_bitasset d mia in
  let feed := settlement_price (bd_current_feed bitasset) in
  let* l := limit_ref d limit in
  let match_price := lim_sell_price l in
  let usd_for_sale := amount_for_sale l in
  let* _ := price_validate match_price in
  let* c := call_ref d call in
  let feed_protected := price_gtb feed (price_inv (call_call_price c)) in
  if feed_protected && (HARDFORK_436_TIME <? head_block_time d) then Ok (Stop margin_called d)
  else if price_gtb match_price (price_inv (call_call_price c)) then Ok (Stop margin_called d)
  else
    let usd_to_buy := get_debt c in
    let* value := asset_mul_price usd_to_buy match_price in
    let* short := asset_gtb value (get_collateral c) in
    if short then
      FC_ASSERT enable_black_swan ;;
      let* d := globally_settle_asset d aid feed in
      Ok (Stop true d)
    else
      let* fill_order := asset_geb usd_to_buy usd_for_sale in
      let traded := if fill_order then usd_for_sale else usd_to_buy in
      let* received := asset_mul_price traded match_price in
      let filled_limit := filled_limit || fill_order in
      let filled_call := if fill_order then asset_eqb usd_to_buy usd_for_sale else true in
      FC_ASSERT (filled_call || filled_limit) ;;
      let* (_, d) := fill_call_order d call received traded in
      let* (_, d) := fill_limit_order d limit traded received true in
      Ok (Next filled_call filled_limit d).

(** The loop.  [filled_limit] is not reset by the source: once an order was
    filled every later round moves on to the next order.  Every round moves on
    in [calls] or in [limits]. *)
Fixpoint call_loop (aid : Z) (enable_black_swan : bool) (calls : list Z) {struct calls}
    : list Z → bool → bool → database → result (bool * database) :=
  fix inner (limits : list Z) (filled_limit margin_called : bool) (d : database) {struct limits} :=
    let* (swan, d) := check_for_blackswan d aid enable_black_swan in
    if swan then Ok (margin_called, d)
    else match calls, limits with
    | [], _ => Ok (margin_called, d)
    | _ :: _, [] => Ok (margin_called, d)
    | call :: calls', limit :: limits' =>
        let* r := call_round aid enable_black_swan call limit filled_limit margin_called d in
        match r with
        | Stop b d => Ok (b, d)
        | Next true fl d =>
            call_loop aid enable_black_swan calls' (if fl then limits' else limits) fl true d
        | Next false true d => inner limits' true true d
        | Next false false _ => Throw assert_exception
        end
    end.

Definition check_call_orders (d : database) (aid : Z) (enable_black_swan : bool)
    : result (bool * database) :=
  let* mia := get_asset_object d aid in
  if negb (is_market_issued mia) then Ok (false, d)
  else
    let* (swan, d) := check_for_blackswan d aid enable_black_swan in
    if swan then Ok (false, d)
    else
      let* bitasset := get_bitasset d mia in
      if bd_is_prediction_market bitasset then Ok (false, d)
      else if price_is_null (settlement_price (bd_current_feed bitasset)) then Ok (false, d)
      else
        let* hi := price_max aid (backing bitasset) in
        let* lo := max_short_squeeze_price (bd_current_feed bitasset) in
        match limit_range d hi lo with
        | [] => Ok (false, d)
        | limits =>
            let* calls := positions d (backing bitasset) aid in
            call_loop aid enable_black_swan calls limits false false d
        end.

(** ** A new order *)

(** The matching loop of [apply_order]: it goes on while only the old order
    was filled. *)
Fixpoint match_loop (order : Z) (old : list Z) (d : database) : result database :=
  match old with
  | [] => Ok d
  | o :: old' =>
      let* oo := limit_ref d o in
      let* (r, d) := match_limit_orders d order o (lim_sell_price oo) in
      if negb r.1 && r.2 then match_loop order old' d else Ok d
  end.

Definition apply_order (d : database) (order : Z) (allow_black_swan : bool)
    : result (bool * database) :=
  let* o := limit_ref d order in
  let sell := asset_id (amount_for_sale o) in
  let* _ := get_asset_object d sell in
  let* r := amount_to_receive o in
  let receive := asset_id r in
  let* _ := get_asset_object d receive in
  let* (called1, d) := check_call_orders d sell allow_black_swan in
  let* (called2, d) := check_call_orders d receive allow_black_swan in
  if (called1 || called2) && bool_decide (objs (db_limit_orders d) !! order = None) then Ok (true, d)
  else
    let* o := limit_ref d order in
    let max_price := price_inv (lim_sell_price o) in
    let* hi := price_max (asset_id (base max_price)) (asset_id (quote max_price)) in
    let* d := match_loop order (limit_range d hi max_price) d in
    let* (_, d) := check_call_orders d sell allow_black_swan in
    let* (_, d) := check_call_orders d receive allow_black_swan in
    match objs (db_limit_orders d) !! order with
    | None => Ok (true, d)
    | Some _ =>
        if head_block_time d <=? HARDFORK_555_TIME then Ok (false, d)
        else maybe_cull_small_order d order
    end.

(** ** Reviving a settled asset *)

Definition call_clash (a b : call_order_object) : bool :=
  (call_borrower a =? call_borrower b) && (debt_type a =? debt_type b).
Definition bid_clash (a b : collateral_bid_object) : bool :=
  (asset_id (quote (bid_inv_swan_price a)) =? asset_id (quote (bid_inv_swan_price b)))
  && (bid_bidder a =? bid_bidder b).

Definition execute_bid (d : database) (bid : Z) (debt_covered collateral_from_fund : Z)
    (current_feed : price_feed) : result database :=
  let* b := of_option undefined_behaviour (objs (db_bids d) !! bid) in
  let bp := bid_inv_swan_price b in
  let* coll := safe_add (amount (base bp)) collateral_from_fund in
  let* cp := call_price (mkAsset debt_covered (asset_id (quote bp))) (mkAsset coll (asset_id (base bp)))
               (maintenance_collateral_ratio current_feed) in
  let* (_, t) := index_create call_clash (db_call_orders d)
                   (mkCall (bid_bidder b) coll debt_covered cp) in
  let d := set_call_orders (λ _, t) d in
  let* d :=
    if asset_id (base bp) =? core_id then
      let* a := get_account d (bid_bidder b) in
      modify_statistics d (ao_statistics a)
        (λ s, let* t := safe_add (st_total_core_in_orders s) coll in
              Ok (set_total_core_in_orders (λ _, t) s))
    else Ok d in
  Ok (remove_bid bid d).

(** [collateral_bid_index] by price, for the bids on [aid]. *)
Definition bid_before (a b : Z * collateral_bid_object) : bool :=
  let pa := bid_inv_swan_price a.2 in
  let pb := bid_inv_swan_price b.2 in
  price_gtb pa pb || (negb (price_gtb pb pa) && (a.1 <? b.1)).
Definition bids_on (d : database) (aid : Z) (hi : price) : list Z :=
  visit bid_before
    (λ b, (asset_id (quote (bid_inv_swan_price b)) =? aid)
          && negb (price_gtb (bid_inv_swan_price b) hi)) (objs (db_bids d)).

Definition cancel_bids_and_revive_mpa (d : database) (aid : Z) : result database :=
  let* a := get_asset_object d aid in
  FC_ASSERT (is_market_issued a) ;;
  let* bad := get_bitasset d a in
  FC_ASSERT (has_settlement bad) ;;
  FC_ASSERT (negb (bd_is_prediction_market bad)) ;;
  let* hi := price_max (backing bad) aid in
  let* d := rfold cancel_bid d (bids_on d aid hi) in
  modify_bitasset d a (λ b, Ok (set_settlement_fund (λ _, 0)
                                  (set_settlement_price (λ _, default_price) b))).

Definition revive_bitasset (d : database) (aid : Z) : result database :=
  let* a := get_asset_object d aid in
  FC_ASSERT (is_market_issued a) ;;
  let* bad := get_bitasset d a in
  FC_ASSERT (has_settlement bad) ;;
  let* bdd := get_asset_dyn d (as_dynamic_asset_data_id a) in
  FC_ASSERT (negb (bd_is_prediction_market bad)) ;;
  FC_ASSERT (negb (price_is_null (settlement_price (bd_current_feed bad)))) ;;
  let* d :=
    if 0 <? dd_current_supply bdd then
      let* p := asset_div (mkAsset 0 (backing bad)) (mkAsset (dd_current_supply bdd) aid) in
      let* (id, t) := index_create bid_clash (db_bids d) (mkBid (as_issuer a) p) in
      execute_bid (set_bids (λ _, t) d) id (dd_current_supply bdd) (bd_settlement_fund bad)
        (bd_current_feed bad)
    else
      FC_ASSERT (bd_settlement_fund bad =? 0) ;; Ok d in
  cancel_bids_and_revive_mpa d aid.
End operations.
