(* ===== verification/MarketProps.v ===== *)
(** * The market: what filling, matching and settling guarantee

    Every step of the market keeps the orders well formed and neither creates
    nor destroys any asset; a match gives both sides their price up to one
    unit of rounding and fills one of the two orders completely. *)

From stdpp Require Import gmap list.
From Stdlib Require Import ZArith Lia.
From S2P Require Import Prelude Fc Config Asset VestingBalance Objects Database Sample Balances Fees Market.

Local Open Scope Z_scope.

(** ** Well-formed orders *)

Definition limit_wf (o : limit_order_object) : Prop :=
  amount_pos (lim_for_sale o) ∧ price_pos (lim_sell_price o) ∧
  asset_id (base (lim_sell_price o)) ≠ asset_id (quote (lim_sell_price o)) ∧
  amount_ok (lim_deferred_fee o).

Definition call_wf (o : call_order_object) : Prop :=
  amount_pos (call_debt o) ∧ amount_ok (call_collateral o) ∧
  asset_id (base (call_call_price o)) ≠ asset_id (quote (call_call_price o)).

(** The options of an asset, as [asset_options::validate] checks them. *)
Definition fee_options_wf (a : asset_object) : Prop :=
  0 <= as_market_fee_percent a <= GRAPHENE_100_PERCENT ∧ 0 <= as_max_market_fee a.

Definition market_wf (d : database) : Prop :=
  map_Forall (λ _ o, limit_wf o) (objs (db_limit_orders d)) ∧
  map_Forall (λ _ o, call_wf o) (objs (db_call_orders d)) ∧
  map_Forall (λ _ a, fee_options_wf a) (db_assets d).

(** [mmoves d d' delta]: [moves], on databases with a well-formed market. *)
Definition mmoves (d d' : database) (delta : Z → Z) : Prop :=
  assets_wf d → market_wf d →
  assets_wf d' ∧ market_wf d' ∧ ∀ aid, imbalance aid d' = imbalance aid d + delta aid.

Definition mconserves (d d' : database) : Prop := mmoves d d' (λ _, 0).

Lemma mmoves_refl d : mconserves d d.
Proof. intros ??. split_and!; [done..|]. intros; lia. Qed.

Lemma mmoves_trans d1 d2 d3 f g :
  mmoves d1 d2 f → mmoves d2 d3 g → mmoves d1 d3 (λ aid, f aid + g aid).
Proof.
  intros H12 H23 Ha Hm. destruct (H12 Ha Hm) as (Ha2 & Hm2 & E2), (H23 Ha2 Hm2) as (? & ? & E3).
  split_and!; [done..|]. intros aid. rewrite E3, E2. lia.
Qed.

Lemma mmoves_ext d d' f g : mmoves d d' f → (∀ aid, f aid = g aid) → mmoves d d' g.
Proof.
  intros H E Ha Hm. destruct (H Ha Hm) as (? & ? & E'). split_and!; [done..|].
  intros. by rewrite E', E.
Qed.

(** The tables of the market and of the assets stay as they are. *)
Definition same_market (d d' : database) : Prop :=
  db_limit_orders d' = db_limit_orders d ∧ db_call_orders d' = db_call_orders d ∧
  db_settlements d' = db_settlements d ∧ db_bids d' = db_bids d ∧
  db_bitassets d' = db_bitassets d ∧ db_assets d' = db_assets d ∧
  db_gpo d' = db_gpo d ∧ db_dgpo d' = db_dgpo d.

#[export] Instance same_market_preorder : PreOrder same_market.
Proof.
  split; [done|]. intros ??? (?&?&?&?&?&?&?&?) (?&?&?&?&?&?&?&?). split_and!; congruence.
Qed.

Lemma mmoves_of_moves d d' f : moves d d' f → same_market d d' → mmoves d d' f.
Proof.
  intros H (El & Ec & _ & _ & _ & Ea & _) Ha Hm. destruct (H Ha) as [? ?].
  split_and!; [done| |done]. unfold market_wf. by rewrite El, Ec, Ea.
Qed.

(** Steps on limit orders alone, on margin positions alone, on settlements
    alone. *)
Definition same_but_limits (d d' : database) : Prop :=
  db_call_orders d' = db_call_orders d ∧ db_settlements d' = db_settlements d ∧
  db_bids d' = db_bids d ∧ db_bitassets d' = db_bitassets d ∧ db_assets d' = db_assets d ∧
  db_gpo d' = db_gpo d ∧ db_dgpo d' = db_dgpo d.
Definition same_but_calls (d d' : database) : Prop :=
  db_limit_orders d' = db_limit_orders d ∧ db_settlements d' = db_settlements d ∧
  db_bids d' = db_bids d ∧ db_bitassets d' = db_bitassets d ∧ db_assets d' = db_assets d ∧
  db_gpo d' = db_gpo d ∧ db_dgpo d' = db_dgpo d.

(** ** Writes to the market tables *)

Lemma mmoves_put_limit d id o o' :
  objs (db_limit_orders d) !! id = Some o → limit_wf o' →
  mmoves d (put_limit id o' d) (λ aid, limit_locked aid o' - limit_locked aid o).
Proof.
  intros Ho Hw Ha (Hl & ? & ?). split_and!; [exact Ha| |].
  - split_and!; [|done..]. by apply map_Forall_insert_2.
  - intros aid. unfold put_limit. rewrite imbalance_set_limit_orders. simpl.
    rewrite msum_insert, Ho. simpl. lia.
Qed.

Lemma mmoves_remove_limit d id o :
  objs (db_limit_orders d) !! id = Some o →
  mmoves d (remove_limit id d) (λ aid, - limit_locked aid o).
Proof.
  intros Ho Ha (Hl & ? & ?). split_and!; [exact Ha| |].
  - split_and!; [|done..]. by apply map_Forall_delete.
  - intros aid. unfold remove_limit. rewrite imbalance_set_limit_orders. simpl.
    rewrite msum_delete_opt, Ho. simpl. lia.
Qed.

Lemma mmoves_put_settlement d id s s' :
  objs (db_settlements d) !! id = Some s →
  mmoves d (put_settlement id s' d) (λ aid, settlement_locked aid s' - settlement_locked aid s).
Proof.
  intros Hs Ha Hm. split_and!; [exact Ha|exact Hm|].
  intros aid. unfold put_settlement. rewrite imbalance_set_settlements. simpl.
  rewrite msum_insert, Hs. simpl. lia.
Qed.

Lemma mmoves_remove_settlement d id s :
  objs (db_settlements d) !! id = Some s →
  mmoves d (remove_settlement id d) (λ aid, - settlement_locked aid s).
Proof.
  intros Hs Ha Hm. split_and!; [exact Ha|exact Hm|].
  intros aid. unfold remove_settlement. rewrite imbalance_set_settlements. simpl.
  rewrite msum_delete_opt, Hs. simpl. lia.
Qed.

Lemma mmoves_remove_bid d id b :
  objs (db_bids d) !! id = Some b → mmoves d (remove_bid id d) (λ aid, - bid_locked aid b).
Proof.
  intros Hb Ha Hm. split_and!; [exact Ha|exact Hm|].
  intros aid. unfold remove_bid. rewrite imbalance_set_bids. simpl.
  rewrite msum_delete_opt, Hb. simpl. lia.
Qed.

(** Closes the arithmetic of a chain of steps. *)
Ltac locked_solve :=
  intros; simpl; unfold limit_locked, call_locked, settlement_locked, bid_locked, amount_for_sale,
    get_collateral, get_debt, core_delta, amount_of in *; simpl in *;
  repeat case_match; simpl in *; lia.

Section properties.
Context {FC : FcArith} {FCL : FcArithLaws FC} {BA : BoostArith} {BAL : BoostArithLaws BA}.

(** ** Steps outside the market tables *)

Lemma adjust_balance_market d acct x d' :
  adjust_balance d acct x = Ok d' → mmoves d d' (λ aid, amount_of aid x) ∧ same_market d d'.
Proof.
  intros H. pose proof (adjust_balance_moves _ _ _ _ H).
  apply adjust_balance_frame in H as [m ->].
  split; [by apply mmoves_of_moves|done].
Qed.

Lemma modify_statistics_market d id f d' :
  modify_statistics d id f = Ok d' →
  ∃ s s', db_statistics d !! id = Some s ∧ f s = Ok s' ∧ same_market d d' ∧
    mmoves d d' (core_delta (st_pending_fees s' + st_pending_vested_fees s'
                             - st_pending_fees s - st_pending_vested_fees s)).
Proof.
  intros H. apply moves_modify_statistics in H as (s & s' & Hs & Hf & -> & Hm).
  exists s, s'. split_and!; try done. by apply mmoves_of_moves.
Qed.

Lemma less_core_in_orders_ok x s s' :
  less_core_in_orders x s = Ok s' →
  st_pending_fees s' = st_pending_fees s ∧ st_pending_vested_fees s' = st_pending_vested_fees s.
Proof. unfold less_core_in_orders. intros H. by ok_inv. Qed.

(** A change of [total_core_in_orders] alone. *)
Lemma core_in_orders_market d id (f : account_statistics_object → result _) d' :
  (∀ s s', f s = Ok s' → st_pending_fees s' = st_pending_fees s ∧
                         st_pending_vested_fees s' = st_pending_vested_fees s) →
  modify_statistics d id f = Ok d' → mconserves d d' ∧ same_market d d'.
Proof.
  intros Hf H. apply modify_statistics_market in H as (s & s' & _ & Hs & Hsm & Hm).
  split; [|done]. eapply mmoves_ext; [exact Hm|]. intros aid.
  destruct (Hf _ _ Hs) as [-> ->]. unfold core_delta, amount_of; simpl. case_match; lia.
Qed.

Lemma modify_asset_dyn_market d i a f d' :
  db_assets d !! i = Some a → modify_asset_dyn d (as_dynamic_asset_data_id a) f = Ok d' →
  ∃ s s', db_asset_dyn d !! as_dynamic_asset_data_id a = Some s ∧ f s = Ok s' ∧ same_market d d' ∧
    mmoves d d' (λ aid,
      amount_of aid (mkAsset (dd_accumulated_fees s' + dd_confidential_supply s' - dd_current_supply s'
        - (dd_accumulated_fees s + dd_confidential_supply s - dd_current_supply s)) i)
      + core_delta (dd_fee_pool s' - dd_fee_pool s) aid).
Proof.
  intros Ha H. eapply moves_modify_asset_dyn in H as (s & s' & Hs & Hf & -> & Hm); [|done].
  exists s, s'. split_and!; try done. by apply mmoves_of_moves.
Qed.

(** ** Market fees *)

Lemma market_fee_bounds i a x f :
  fee_options_wf a → 0 <= amount x < 2 ^ 63 → calculate_market_fee i a x = Ok f →
  asset_id f = i ∧ 0 <= amount f <= amount x.
Proof.
  intros [Hp Hmax] Hx. unfold calculate_market_fee. rewrite u128_of_i64_spec, u128_mul_spec, u128_div_spec.
  change (GRAPHENE_100_PERCENT =? 0) with false. cbn [rbind].
  unfold GRAPHENE_100_PERCENT, u128_mod in *. intros H. case_in H; [ok_inv; simpl; lia|].
  case_in H; [ok_inv; simpl; lia|]. ok_inv. simpl.
  apply u128_to_uint64_ok in Hx0 as [-> _].
  rewrite (Z.mod_small (amount x)) by lia. rewrite Z.mod_small by nia.
  assert (0 <= amount x * as_market_fee_percent a / 10000 <= amount x) as Hb.
  { split; [apply Z.div_pos; nia|]. apply Z.div_le_upper_bound; nia. }
  rewrite wrap_i64_small by lia. split; [done|]. case_match; lia.
Qed.

Lemma pay_market_fees_ok d receives f d' :
  market_wf d → 0 <= amount receives < 2 ^ 63 → pay_market_fees d receives = Ok (f, d') →
  asset_id f = asset_id receives ∧ 0 <= amount f <= amount receives ∧ same_market d d' ∧
  mmoves d d' (λ aid, amount_of aid f).
Proof.
  intros (_ & _ & Hopt) Hr. unfold pay_market_fees, get_asset_object. intros H.
  apply rbind_ok in H as (a & Ha%of_option_ok & H). apply rbind_ok in H as (fee & Hfee & H).
  destruct (market_fee_bounds _ _ _ _ (Hopt _ _ Ha) Hr Hfee) as [Hid Hb].
  destruct (Z.ltb_spec 0 (amount fee)) as [Hp|Hp].
  - apply rbind_ok in H as (d1 & H1 & [= -> ->]).
    eapply modify_asset_dyn_market in H1 as (s & s' & _ & Hs & Hsm & Hm); [|done].
    split_and!; [done|lia|lia|done|]. eapply mmoves_ext; [exact Hm|]. intros aid.
    ok_inv. safe_inv. simpl. unfold amount_of, core_delta, amount_of; simpl. rewrite Hid.
    repeat case_match; lia.
  - injection H as -> ->. split_and!; [done|lia|lia|done|].
    eapply mmoves_ext; [apply mmoves_refl|]. intros aid. unfold amount_of. case_match; lia.
Qed.

Lemma pay_order_ok d acct receives pays d' :
  pay_order d acct receives pays = Ok d' →
  mmoves d d' (λ aid, amount_of aid receives) ∧ same_market d d'.
Proof.
  unfold pay_order. intros H. apply rbind_ok in H as (a & _ & H).
  apply rbind_ok in H as (d1 & H1 & H2).
  apply core_in_orders_market in H1 as [M1 S1].
  - apply adjust_balance_market in H2 as [M2 S2]. split; [|by etrans].
    eapply mmoves_ext; [by eapply mmoves_trans|]. done.
  - intros s s' Hs. case_in Hs; [by apply less_core_in_orders_ok in Hs|by injection Hs as <-].
Qed.

(** ** Cancelling *)

Lemma cancel_limit_order_ok d id d' :
  cancel_limit_order d id = Ok d' →
  mconserves d d' ∧ same_but_limits d d' ∧
  db_limit_orders d' = mkTable (delete id (objs (db_limit_orders d))) (next_id (db_limit_orders d)) ∧
  is_Some (objs (db_limit_orders d) !! id).
Proof.
  unfold cancel_limit_order. intros H. apply rbind_ok in H as (o & Ho%of_option_ok & H).
  apply rbind_ok in H as (a & _ & H). apply rbind_ok in H as (d1 & H1 & H).
  apply rbind_ok in H as (d2 & H2 & H). apply rbind_ok in H as (d3 & H3 & [= <-]).
  apply core_in_orders_market in H1 as [M1 S1].
  2:{ intros s s' Hs. case_in Hs; [by apply less_core_in_orders_ok in Hs|by injection Hs as <-]. }
  apply adjust_balance_market in H2 as [M2 S2]. apply adjust_balance_market in H3 as [M3 S3].
  assert (same_market d d3) as S by (etrans; [exact S1|by etrans]).
  destruct S as (El & Ec & Es & Eb & Eba & Ea & Eg & Ed).
  assert (objs (db_limit_orders d3) !! id = Some o) as Ho3 by (by rewrite El).
  split_and!; [|done| |by eexists].
  - eapply mmoves_ext; [eapply mmoves_trans; [exact M1|eapply mmoves_trans; [exact M2|
      eapply mmoves_trans; [exact M3|exact (mmoves_remove_limit _ _ _ Ho3)]]]|]. locked_solve.
  - simpl. by rewrite El.
Qed.

Lemma maybe_cull_ok d id b d' :
  maybe_cull_small_order d id = Ok (b, d') →
  mconserves d d' ∧ same_but_limits d d' ∧
  db_limit_orders d' =
    if b then mkTable (delete id (objs (db_limit_orders d))) (next_id (db_limit_orders d))
    else db_limit_orders d.
Proof.
  unfold maybe_cull_small_order. intros H. apply rbind_ok in H as (o & Ho & H).
  apply rbind_ok in H as (r & Hr & H). case_in H.
  - apply rbind_ok in H as (d1 & H1 & [= <- <-]). apply cancel_limit_order_ok in H1 as (?&?&?&_). done.
  - injection H as <- <-. split_and!; [apply mmoves_refl|done..].
Qed.

Lemma cancel_settlement_ok d id d' : cancel_settlement d id = Ok d' → mconserves d d'.
Proof.
  unfold cancel_settlement. intros H. apply rbind_ok in H as (s & Hs%of_option_ok & H).
  apply rbind_ok in H as (d1 & H1 & [= <-]). apply adjust_balance_market in H1 as [M1 S1].
  destruct S1 as (_ & _ & Es & _). rewrite <- Es in Hs.
  eapply mmoves_ext; [eapply mmoves_trans; [exact M1|exact (mmoves_remove_settlement _ _ _ Hs)]|].
  locked_solve.
Qed.

Lemma cancel_bid_ok d id d' :
  cancel_bid d id = Ok d' → mconserves d d' ∧ db_bitassets d' = db_bitassets d ∧ db_assets d' = db_assets d.
Proof.
  unfold cancel_bid. intros H. apply rbind_ok in H as (b & Hb%of_option_ok & H).
  apply rbind_ok in H as (d1 & H1 & [= <-]). apply adjust_balance_market in H1 as [M1 S1].
  destruct S1 as (_ & _ & _ & Eb & Eba & Ea & _). rewrite <- Eb in Hb. split; [|done].
  eapply mmoves_ext; [eapply mmoves_trans; [exact M1|exact (mmoves_remove_bid _ _ _ Hb)]|].
  locked_solve.
Qed.

(** ** Filling *)

Lemma deferred_fee_market d id fee thr d' :
  (if 0 <? fee then modify_statistics d id (λ s, statistics_pay_fee s fee thr) else Ok d) = Ok d' →
  0 <= fee → mmoves d d' (λ aid, amount_of aid (core_asset fee)) ∧ same_market d d'.
Proof.
  intros H Hf. destruct (Z.ltb_spec 0 fee).
  - apply modify_statistics_market in H as (s & s' & _ & Hs & Hsm & Hm).
    apply statistics_pay_fee_ok in Hs. split; [|done]. eapply mmoves_ext; [exact Hm|].
    intros aid. unfold core_delta. f_equal. f_equal. lia.
  - injection H as <-. split; [|done]. assert (fee = 0) as -> by lia.
    eapply mmoves_ext; [apply mmoves_refl|]. locked_solve.
Qed.

(** What is left of a partially filled limit order. *)
Definition reduced (o : limit_order_object) (pays : Z) : limit_order_object :=
  mkLimit (lim_expiration o) (lim_seller o) (lim_for_sale o - pays) (lim_sell_price o) 0.

Lemma reduced_wf o pays :
  limit_wf o → 0 <= pays < lim_for_sale o → limit_wf (reduced o pays).
Proof.
  intros (H & ? & ? & ?) Hp. unfold amount_pos in H.
  split_and!; simpl; try done; unfold amount_pos; lia.
Qed.

(** The limit table after a fill: the order is gone exactly when the fill
    says so, otherwise it is reduced. *)
Definition limits_after (d : database) (id : Z) (o : limit_order_object) (pays : Z) (gone : bool)
    : table limit_order_object :=
  mkTable (if gone then delete id (objs (db_limit_orders d))
           else <[id := reduced o pays]> (objs (db_limit_orders d)))
    (next_id (db_limit_orders d)).

Lemma fill_limit_ok d id o pays receives cull b d' :
  objs (db_limit_orders d) !! id = Some o → assets_wf d → market_wf d →
  0 <= amount receives < 2 ^ 63 → 0 <= amount pays <= lim_for_sale o →
  fill_limit_order d id pays receives cull = Ok (b, d') →
  mmoves d d' (λ aid, amount_of aid receives - amount_of aid pays) ∧ same_but_limits d d' ∧
  db_limit_orders d' = limits_after d id o (amount pays) b ∧
  (pays = amount_for_sale o → b = true).
Proof.
  intros Ho Hwf Hm Hr Hp. unfold fill_limit_order, limit_ref. rewrite Ho. cbn [of_option rbind].
  intros H. apply rbind_ok in H as (u1 & Hid%require_ok & H). apply rbind_ok in H as (u2 & _ & H).
  apply rbind_ok in H as (seller & _ & H). apply rbind_ok in H as ([fee d1] & H1 & H).
  apply rbind_ok in H as (net & Hnet & H). apply rbind_ok in H as (d2 & H2 & H).
  apply rbind_ok in H as (d3 & H3 & H). apply Z.eqb_eq in Hid.
  pose proof (proj1 Hm _ _ Ho) as Ho_wf. pose proof Ho_wf as (Hpos & Hprice & Hne & Hdef).
  apply pay_market_fees_ok in H1 as (Hfi & Hfb & S1 & M1); [|done..].
  apply asset_sub_ok in Hnet as (Hni & Hna). apply pay_order_ok in H2 as [M2 S2].
  apply deferred_fee_market in H3 as [M3 S3]; [|unfold amount_ok in Hdef; lia].
  assert (same_market d d3) as S by (etrans; [exact S1|by etrans]). clear S1 S2 S3.
  assert (mmoves d d3 (λ aid, amount_of aid receives
    + amount_of aid (core_asset (lim_deferred_fee o)))) as M.
  { eapply mmoves_ext; [eapply mmoves_trans; [exact M1|eapply mmoves_trans; [exact M2|exact M3]]|].
    intros aid. unfold amount_of. subst net; simpl. rewrite Hfi. repeat case_match; lia. }
  destruct S as (El & Ec & Es & Eb & Eba & Ea & Eg & Ed).
  assert (objs (db_limit_orders d3) !! id = Some o) as Ho3 by (by rewrite El).
  destruct (asset_eqb pays (amount_for_sale o)) eqn:Eq.
  - injection H as <- <-. unfold asset_eqb in Eq. simpl in Eq. split_and!; try done.
    + eapply mmoves_ext; [eapply mmoves_trans; [exact M|exact (mmoves_remove_limit _ _ _ Ho3)]|].
      intros aid. unfold limit_locked, amount_for_sale, amount_of; simpl. repeat case_match; lia.
    + simpl. unfold limits_after. by rewrite El.
  - assert (amount pays ≠ lim_for_sale o) as Hlt.
    { intros E. unfold asset_eqb in Eq. simpl in Eq. rewrite E in Eq. simpl in Hid.
      rewrite <- Hid, !Z.eqb_refl in Eq. done. }
    apply rbind_ok in H as (rest & Hrest & H). safe_inv.
    set (o' := mkLimit _ _ _ _ _) in H. change o' with (reduced o (amount pays)) in H.
    assert (limit_wf (reduced o (amount pays))) as Ho' by (apply reduced_wf; [done|lia]).
    pose proof (mmoves_put_limit d3 id o _ Ho3 Ho') as M4.
    assert (mmoves d (put_limit id (reduced o (amount pays)) d3)
      (λ aid, amount_of aid receives - amount_of aid pays)) as M5.
    { eapply mmoves_ext; [eapply mmoves_trans; [exact M|exact M4]|].
      intros aid. unfold limit_locked, amount_for_sale, amount_of; simpl. simpl in Hid.
      repeat case_match; lia. }
    assert (objs (db_limit_orders (put_limit id (reduced o (amount pays)) d3))
      = <[id := reduced o (amount pays)]> (objs (db_limit_orders d))) as E5 by (simpl; by rewrite El).
    case_in H.
    + apply maybe_cull_ok in H as (M6 & S6 & E6).
      destruct S6 as (?&?&?&?&?&?&?). simpl in *.
      split; [|split; [split_and!; congruence|split]].
      * eapply mmoves_ext; [by eapply mmoves_trans|]. intros; simpl; lia.
      * rewrite E6. unfold limits_after. simpl. rewrite El. destruct b; [|done].
        by rewrite delete_insert_eq.
      * intros ->. simpl in *. lia.
    + injection H as <- <-. split_and!; try done.
      * unfold limits_after. simpl. by rewrite El.
      * intros ->. simpl in *. lia.
Qed.

(** The table of margin positions after a fill. *)
Definition call_rest (o : call_order_object) (pays receives : Z) : call_order_object :=
  mkCall (call_borrower o) (call_collateral o - pays) (call_debt o - receives) (call_call_price o).
Definition calls_after (d : database) (id : Z) (o : call_order_object) (pays receives : Z)
    : table call_order_object :=
  mkTable (if call_debt o =? receives then delete id (objs (db_call_orders d))
           else <[id := call_rest o pays receives]> (objs (db_call_orders d)))
    (next_id (db_call_orders d)).

Lemma moves_put_call d id o o' :
  objs (db_call_orders d) !! id = Some o →
  moves d (put_call id o' d) (λ aid, call_locked aid o' - call_locked aid o).
Proof.
  intros Ho. apply moves_intro; [done..|]. intros aid. unfold put_call.
  rewrite imbalance_set_call_orders. simpl. rewrite msum_insert, Ho. simpl. lia.
Qed.

Lemma moves_remove_call d id o :
  objs (db_call_orders d) !! id = Some o →
  moves d (remove_call id d) (λ aid, - call_locked aid o).
Proof.
  intros Ho. apply moves_intro; [done..|]. intros aid. unfold remove_call.
  rewrite imbalance_set_call_orders. simpl. rewrite msum_delete_opt, Ho. simpl. lia.
Qed.

Lemma mmoves_intro d d' f : moves d d' f → (market_wf d → market_wf d') → mmoves d d' f.
Proof. intros H1 H2 Ha Hm. destruct (H1 Ha). auto. Qed.

Lemma call_rest_wf o pays receives :
  call_wf o → 0 <= pays <= call_collateral o → 0 <= receives < call_debt o →
  call_wf (call_rest o pays receives).
Proof.
  intros (Hd & Hc & Hne) Hp Hr. unfold amount_pos, amount_ok in Hd, Hc.
  split_and!; simpl; try done; unfold amount_pos, amount_ok; lia.
Qed.

Lemma borrower_paid_ok d acct st (freed : option asset) (pays : asset) d' :
  (if bool_decide (is_Some freed) || (asset_id pays =? core_id) then
      let* d := match freed with Some f => adjust_balance d acct f | None => Ok d end in
      modify_statistics d st
        (λ s, let* s := match freed with
                        | Some f => if 0 <? amount f then less_core_in_orders (amount f) s else Ok s
                        | None => Ok s
                        end in
              if asset_id pays =? core_id then less_core_in_orders (amount pays) s else Ok s)
    else Ok d) = Ok d' →
  moves d d' (λ aid, from_option (amount_of aid) 0 freed) ∧ same_market d d' ∧
  db_asset_dyn d' = db_asset_dyn d.
Proof.
  intros H. case_in H.
  - apply rbind_ok in H as (d1 & H1 & H2).
    assert (moves d d1 (λ aid, from_option (amount_of aid) 0 freed) ∧ same_market d d1 ∧
      db_asset_dyn d1 = db_asset_dyn d) as (M1 & S1 & D1).
    { destruct freed as [f|]; [|injection H1 as <-; split_and!; [apply moves_refl|done..]].
      pose proof (adjust_balance_moves _ _ _ _ H1). apply adjust_balance_frame in H1 as [m ->]. done. }
    apply moves_modify_statistics in H2 as (s & s' & _ & Hs & -> & M2).
    split_and!; [|by etrans|done]. eapply moves_ext; [by eapply moves_trans|]. intros aid. simpl.
    apply rbind_ok in Hs as (s1 & Hs1 & Hs2).
    assert (st_pending_fees s1 = st_pending_fees s ∧
            st_pending_vested_fees s1 = st_pending_vested_fees s) as [E1 E2].
    { destruct freed as [f|]; [case_in Hs1|]; ok_inv; [by apply less_core_in_orders_ok in Hs1|done..]. }
    assert (st_pending_fees s' = st_pending_fees s1 ∧
            st_pending_vested_fees s' = st_pending_vested_fees s1) as [E3 E4].
    { case_in Hs2; ok_inv; [by apply less_core_in_orders_ok in Hs2|done]. }
    unfold core_delta. rewrite E3, E4, E1, E2, amount_of_core. destruct (aid =? core_id); lia.
  - injection H as <-. split_and!; [|done..]. apply orb_false_iff in Heqb as [Hn%bool_decide_eq_false _].
    destruct freed; [by destruct Hn|]. apply moves_refl.
Qed.

Lemma fill_call_ok d id o pays receives b d' :
  objs (db_call_orders d) !! id = Some o → market_wf d →
  0 <= amount pays → 0 <= amount receives <= call_debt o →
  fill_call_order d id pays receives = Ok (b, d') →
  mmoves d d' (λ aid, amount_of aid receives - amount_of aid pays) ∧ same_but_calls d d' ∧
  db_call_orders d' = calls_after d id o (amount pays) (amount receives) ∧
  b = (call_debt o =? amount receives) ∧
  asset_id pays = asset_id (get_collateral o) ∧ asset_id receives = debt_type o ∧
  amount pays <= call_collateral o ∧
  (∃ mia s, db_assets d !! asset_id receives = Some mia ∧
     db_asset_dyn d !! as_dynamic_asset_data_id mia = Some s ∧
     db_asset_dyn d' = <[as_dynamic_asset_data_id mia :=
       set_current_supply (λ _, dd_current_supply s - amount receives) s]> (db_asset_dyn d)).
Proof.
  intros Ho Hm Hp Hr. unfold fill_call_order, call_ref. rewrite Ho. cbn [of_option rbind]. intros H.
  apply rbind_ok in H as (u1 & Hi1%require_ok & H). apply rbind_ok in H as (u2 & Hi2%require_ok & H).
  apply rbind_ok in H as (en & Hen & H). apply rbind_ok in H as (u3 & ->%require_ok & H).
  apply asset_geb_ok in Hen as [_ Hen]. apply Z.eqb_eq in Hi1, Hi2. simpl in Hi1, Hi2.
  apply rbind_ok in H as (debt & Hd & H). apply rbind_ok in H as (coll & Hc & H). safe_inv.
  apply rbind_ok in H as (mia & Hmia%of_option_ok & H). apply rbind_ok in H as (d1 & H1 & H).
  apply rbind_ok in H as (acct & _ & H). apply rbind_ok in H as (d2 & H2 & [= <- <-]).
  set (d0 := put_call id _ d) in *.
  eapply moves_modify_asset_dyn in H1 as (s & s' & Hs0 & Hs & -> & M1); [|exact Hmia].
  ok_inv. safe_inv.
  apply borrower_paid_ok in H2 as (M2 & S2 & D2). destruct S2 as (El & Ec & Es & Eb & Eba & Ea & Eg & Ed).
  simpl in Hen. symmetry in Hen. apply Z.leb_le in Hen || apply negb_true_iff, Z.ltb_ge in Hen.
  assert ((call_debt o - amount receives =? 0) = (call_debt o =? amount receives)) as Ez.
  { destruct (Z.eqb_spec (call_debt o - amount receives) 0), (Z.eqb_spec (call_debt o) (amount receives)); lia. }
  rewrite Ez in *.
  simpl in El, Ec, Es, Eb, Eba, Ea, Eg, Ed.
  pose proof (moves_put_call d id o (mkCall (call_borrower o)
    (if call_debt o =? amount receives then 0 else call_collateral o - amount pays)
    (call_debt o - amount receives) (call_call_price o)) Ho) as M0.
  subst d0. rewrite Ez in *. split; [|split; [by case_match|split; [|split; [|split_and!]]]].
  3: by case_match.
  3-5: done.
  3: { exists mia, s. split_and!; [done..|]. simpl in D2. by case_match. }
  2: { unfold calls_after, call_rest. case_match; simpl; rewrite Ec; simpl; [by rewrite delete_insert_eq|done]. }
  apply mmoves_intro.
  - pose proof (moves_trans _ _ _ _ _ M0 (moves_trans _ _ _ _ _ M1 M2)) as M.
    destruct (Z.eqb_spec (call_debt o) (amount receives)) as [E|E].
    + assert (objs (db_call_orders d2) !! id = Some (mkCall (call_borrower o) 0
        (call_debt o - amount receives) (call_call_price o))) as Ho2.
      { rewrite Ec. simpl. by rewrite lookup_insert_eq. }
      eapply moves_ext; [eapply moves_trans; [exact M|exact (moves_remove_call _ _ _ Ho2)]|].
      intros aid. unfold call_locked, get_collateral, core_delta, amount_of; simpl.
      repeat case_match; lia.
    + eapply moves_ext; [exact M|]. intros aid.
      unfold call_locked, get_collateral, core_delta, amount_of; simpl. repeat case_match; lia.
  - intros (Hl & Hcs & Hop). unfold market_wf. pose proof (Hcs _ _ Ho) as Hwo.
    case_match; simpl; rewrite El, Ec, Ea; simpl; split_and!; try done.
    + rewrite delete_insert_eq. by apply map_Forall_delete.
    + apply map_Forall_insert_2; [|done]. apply call_rest_wf; [done|lia|lia].
Qed.

Lemma fill_settlement_ok d id s pays receives b d' :
  objs (db_settlements d) !! id = Some s → market_wf d →
  0 <= amount receives < 2 ^ 63 → amount pays <= amount (fs_balance s) →
  fill_settlement d id pays receives = Ok (b, d') →
  mmoves d d' (λ aid, amount_of aid receives - amount_of aid pays).
Proof.
  intros Hs Hm Hr Hp. unfold fill_settlement, settlement_ref. rewrite Hs. cbn [of_option rbind].
  intros H. apply rbind_ok in H as ([fee d1] & H1 & H). apply rbind_ok in H as (part & Hpart & H).
  apply rbind_ok in H as (d2 & H2 & H). apply rbind_ok in H as (net & Hnet & H).
  apply rbind_ok in H as (d3 & H3 & [= <- <-]).
  apply pay_market_fees_ok in H1 as (Hfi & _ & S1 & M1); [|done..].
  apply asset_sub_ok in Hnet as [_ ->]. apply adjust_balance_market in H3 as [M3 S3].
  unfold asset_ltb in Hpart. ok_inv. rename Hx into Hid. apply Z.eqb_eq in Hid.
  destruct S1 as (_ & _ & Es & _). destruct S3 as (_ & _ & Es3 & _).
  destruct (Z.ltb_spec (amount pays) (amount (fs_balance s))).
  - apply rbind_ok in H2 as (bal & Hbal & [= <-]). apply asset_sub_ok in Hbal as [_ ->].
    eapply mmoves_ext; [eapply mmoves_trans; [exact M1|eapply mmoves_trans; [|exact M3]]|].
    + eapply mmoves_put_settlement. by rewrite Es.
    + intros aid. unfold settlement_locked, amount_of; simpl. rewrite Hfi. repeat case_match; lia.
  - injection H2 as <-. eapply mmoves_ext; [eapply mmoves_trans; [exact M1|
      eapply mmoves_trans; [exact M3|]]|].
    + eapply mmoves_remove_settlement. by rewrite Es3, Es.
    + intros aid. unfold settlement_locked, amount_of; simpl. rewrite Hfi. repeat case_match; lia.
Qed.

(** ** Matching two limit orders *)

Lemma asset_mul_price_range a p b :
  asset_mul_price a p = Ok b → 0 <= amount b <= GRAPHENE_MAX_SHARE_SUPPLY.
Proof.
  unfold asset_mul_price. intros H. case_in H; [|case_in H]; ok_inv; simpl;
    (split; [apply bu128_div_nonneg|lia]).
Qed.

(** [crosses p q]: a seller at [p] and one at [q] in the opposite direction
    agree on a price. *)
Definition crosses (p q : price) : Prop :=
  asset_id (base p) = asset_id (quote q) ∧ asset_id (quote p) = asset_id (base q) ∧
  amount (quote p) * amount (quote q) <= amount (base p) * amount (base q).

(** What a seller at [p] is owed for [pays] units. *)
Definition owed (p : price) (pays : Z) : Z := pays * amount (quote p) / amount (base p).

Lemma floor_cross n q b B Q :
  0 <= n → 0 < b → 0 < Q → q * Q <= b * B → n * q / b * Q <= n * B.
Proof.
  intros Hn Hb HQ Hx. pose proof (Z.mul_div_le (n * q) b Hb) as Hd.
  assert (b * (n * q / b * Q) <= b * (n * B)); [|nia].
  transitivity (n * (q * Q)); nia.
Qed.

Lemma match_amounts_ok u c r1 r2 pu :
  price_pos pu → price_pos (lim_sell_price c) → limit_wf u → limit_wf c →
  pu = lim_sell_price u → crosses pu (lim_sell_price c) →
  match_amounts (amount_for_sale u) (amount_for_sale c) (lim_sell_price c) = Ok (r1, r2) →
  asset_id r1 = asset_id (amount_for_sale c) ∧ asset_id r2 = asset_id (amount_for_sale u) ∧
  0 <= amount r1 <= lim_for_sale c ∧ 0 <= amount r2 <= lim_for_sale u ∧
  (amount r1 = lim_for_sale c ∨ amount r2 = lim_for_sale u) ∧
  owed (lim_sell_price u) (amount r2) <= amount r1 ∧
  owed (lim_sell_price c) (amount r1) <= amount r2.
Proof.
  intros Hpu Hpc (Hu & _) (Hc & _ & Hne & _) -> (Hi1 & Hi2 & Hx) H.
  unfold match_amounts in H. apply rbind_ok in H as (cv & Hcv & H).
  apply rbind_ok in H as (small & Hs & H). apply asset_leb_ok in Hs as [Hid ->].
  unfold amount_pos in *. destruct Hpu as [Hub Huq], Hpc as [Hcb Hcq]. unfold amount_pos in *.
  set (U := lim_for_sale u) in *. set (C := lim_for_sale c) in *.
  set (B := amount (base (lim_sell_price c))) in *. set (Q := amount (quote (lim_sell_price c))) in *.
  set (b := amount (base (lim_sell_price u))) in *. set (q := amount (quote (lim_sell_price u))) in *.
  assert (asset_id cv = asset_id (quote (lim_sell_price c)) ∧ amount cv = C * Q / B) as [Hcvi Hcva].
  { apply asset_mul_price_ok in Hcv; [|done|unfold amount_ok; simpl; lia|done].
    destruct Hcv as (_ & [(?&?&?)|(?&?&?)]); [done|]. simpl in *. congruence. }
  pose proof (Z.mul_div_le (C * Q) B ltac:(lia)).
  destruct (Z.leb_spec (amount (amount_for_sale u)) (amount cv)) as [Hle|Hgt]; simpl in Hle || simpl in Hgt.
  - apply rbind_ok in H as (r & Hr & [= <- <-]).
    apply asset_mul_price_ok in Hr; [|done|unfold amount_ok; simpl; lia|done].
    destruct Hr as (_ & [(Ha&?&?)|(?&Hri&Hra)]); simpl in *; [congruence|].
    fold U B Q in Hra. rewrite Hra. pose proof (Z.mul_div_le (U * B) Q ltac:(lia)).
    split_and!; try done; try lia.
    + apply Z.div_pos; nia.
    + apply Z.div_le_upper_bound; [lia|]. fold U in Hle. nia.
    + unfold owed. fold q b. apply Z.div_le_lower_bound; [lia|].
      rewrite Z.mul_comm. apply floor_cross; lia.
    + unfold owed. fold Q B. apply Z.div_le_upper_bound; [lia|]. nia.
  - apply rbind_ok in H as (r & Hr & [= <- <-]).
    apply asset_mul_price_ok in Hr; [|done|unfold amount_ok; simpl; lia|done].
    destruct Hr as (_ & [(?&Hri&Hra)|(?&?&?)]); simpl in *; [|congruence].
    fold C B Q U in Hra, Hgt. rewrite Hra. split_and!; try done; try lia; try congruence.
    + apply Z.div_pos; nia.
    + unfold owed. fold q b. apply Z.div_le_upper_bound; [lia|].
      assert (C * Q / B * q <= C * b); [apply floor_cross; lia|lia].
Qed.

(** Order [id] after a fill of [pays] units. *)
Definition left_over (gone : bool) (o : limit_order_object) (pays : Z) : option limit_order_object :=
  if gone then None else Some (reduced o pays).

Lemma limits_after_lookup d id o pays gone j :
  objs (limits_after d id o pays gone) !! j =
    if decide (j = id) then left_over gone o pays else objs (db_limit_orders d) !! j.
Proof.
  unfold limits_after, left_over; simpl. case_decide as E.
  - subst. destruct gone; [by rewrite lookup_delete_eq|by rewrite lookup_insert_eq].
  - destruct gone; [by rewrite lookup_delete_ne|by rewrite lookup_insert_ne].
Qed.

Lemma same_but_limits_trans d1 d2 d3 :
  same_but_limits d1 d2 → same_but_limits d2 d3 → same_but_limits d1 d3.
Proof. intros (?&?&?&?&?&?&?) (?&?&?&?&?&?&?). split_and!; congruence. Qed.

Lemma match_limit_ok d u c uo co fu fc d' :
  u ≠ c → objs (db_limit_orders d) !! u = Some uo → objs (db_limit_orders d) !! c = Some co →
  assets_wf d → market_wf d → crosses (lim_sell_price uo) (lim_sell_price co) →
  match_limit_orders d u c (lim_sell_price co) = Ok (fu, fc, d') →
  mconserves d d' ∧ same_but_limits d d' ∧
  ∃ usd_gets core_gets, 0 <= usd_gets ∧ 0 <= core_gets ∧
    owed (lim_sell_price uo) core_gets <= usd_gets <= lim_for_sale co ∧
    owed (lim_sell_price co) usd_gets <= core_gets <= lim_for_sale uo ∧
    (fu = true ∨ fc = true) ∧
    ∀ j, objs (db_limit_orders d') !! j =
      if decide (j = u) then left_over fu uo core_gets
      else if decide (j = c) then left_over fc co usd_gets
      else objs (db_limit_orders d) !! j.
Proof.
  intros Hne Hu Hc Ha Hm Hx. pose proof Hm as (Hl & _).
  pose proof (Hl _ _ Hu) as Wu. pose proof (Hl _ _ Hc) as Wc.
  unfold match_limit_orders, limit_ref. rewrite Hu, Hc. cbn [of_option rbind]. intros H.
  apply rbind_ok in H as ([r1 r2] & Hr & H). apply rbind_ok in H as ([f1 d1] & H1 & H).
  apply rbind_ok in H as ([f2 d2] & H2 & [= <- <- <-]).
  eapply match_amounts_ok in Hr as (Hi1 & Hi2 & B1 & B2 & Hfull & F1 & F2);
    [|apply Wu|apply Wc|done|done|done|done].
  destruct Wu as (Pu & _), Wc as (Pc & _). unfold amount_pos in *.
  eapply fill_limit_ok in H1 as (M1 & S1 & T1 & G1); [|done|done|done|lia|lia].
  assert (objs (db_limit_orders d1) !! c = Some co) as Hc1.
  { rewrite T1, limits_after_lookup. by rewrite decide_False. }
  destruct (M1 Ha Hm) as (Ha1 & Hm1 & _).
  eapply fill_limit_ok in H2 as (M2 & S2 & T2 & G2); [|done|done|done|lia|lia].
  split_and!.
  - eapply mmoves_ext; [by eapply mmoves_trans|]. intros; simpl; lia.
  - by eapply same_but_limits_trans.
  - exists (amount r1), (amount r2). split_and!; try lia.
    + destruct Hfull as [E|E]; [right; apply G2|left; apply G1].
      * destruct r1; simpl in *. subst. done.
      * destruct r2; simpl in *. subst. done.
    + intros j. rewrite T2, limits_after_lookup. repeat case_decide; subst; try done.
      * rewrite T1, limits_after_lookup. by rewrite decide_True.
      * rewrite T1, limits_after_lookup. by rewrite decide_False.
Qed.
End properties.
