(* ===== verification/MarketSteps.v ===== *)
(** * The market: margin calls, global settlement and new orders

    Conservation of assets and well-formedness of the market through the
    loops of [db_market.cpp]: closing all margin positions, margin calls, the
    matching of a new order, the revival of a settled asset. *)

From stdpp Require Import gmap list sorting.
From Stdlib Require Import ZArith Lia.
From S2P Require Import Prelude Fc Config Asset VestingBalance Objects Database Sample Balances Fees Market MarketProps.

Local Open Scope Z_scope.

(** ** Ordered indexes *)

Lemma in_order_perm {V} before (m : gmap Z V) : in_order before m ≡ₚ map_to_list m.
Proof. apply sort_perm. Qed.

Lemma elem_of_visit {V} before within (m : gmap Z V) i :
  i ∈ visit before within m ↔ ∃ o, m !! i = Some o ∧ within o = true.
Proof.
  unfold visit. rewrite list_elem_of_In, in_map_iff. split.
  - intros ([j o] & <- & Hin). apply filter_In in Hin as [Hin Hw]. exists o. split; [|done].
    apply elem_of_map_to_list. rewrite <- (in_order_perm before m). by apply list_elem_of_In.
  - intros (o & Ho & Hw). exists (i, o). split; [done|]. apply filter_In. split; [|done].
    apply list_elem_of_In. rewrite in_order_perm. by apply elem_of_map_to_list.
Qed.

Lemma NoDup_fst_filter {V} (f : Z * V → bool) l :
  NoDup (map fst l) → NoDup (map fst (List.filter f l)).
Proof.
  induction l as [|x l IH]; simpl; [done|]. rewrite NoDup_cons. intros [Hx Hl].
  destruct (f x); simpl; [|auto]. constructor; [|auto].
  rewrite list_elem_of_In, in_map_iff. intros (y & E & [Hy _]%filter_In).
  apply Hx. rewrite <- E, list_elem_of_In. by apply in_map.
Qed.

Lemma NoDup_visit {V} before within (m : gmap Z V) : NoDup (visit before within m).
Proof.
  unfold visit. apply NoDup_fst_filter.
  assert (map fst (in_order before m) ≡ₚ map fst (map_to_list m)) as ->
    by (apply Permutation_map, in_order_perm).
  apply NoDup_fst_map_to_list.
Qed.

Section steps.
Context {FC : FcArith} {FCL : FcArithLaws FC} {BA : BoostArith} {BAL : BoostArithLaws BA}.

(** Prices between two bounds of a market belong to that market. *)
Lemma price_ltb_ids a b :
  price_ltb a b = false → asset_id (base b) <= asset_id (base a) ∧
    (asset_id (base a) = asset_id (base b) → asset_id (quote b) <= asset_id (quote a)).
Proof. unfold price_ltb. repeat case_match; intros; try done; lia. Qed.

Lemma price_leb_ids a b :
  price_leb a b = true → asset_id (base a) <= asset_id (base b) ∧
    (asset_id (base a) = asset_id (base b) → asset_id (quote a) <= asset_id (quote b)).
Proof.
  unfold price_leb, price_eqb, price_ltb. repeat case_match; intros; simpl in *; try done; try lia.
Qed.

Lemma price_gtb_false a b : price_gtb a b = false → price_leb a b = true.
Proof. unfold price_gtb. by destruct (price_leb a b). Qed.

Lemma positions_market d bk aid calls i :
  positions d bk aid = Ok calls → i ∈ calls →
  ∃ o, objs (db_call_orders d) !! i = Some o ∧ asset_id (base (call_call_price o)) = bk ∧
    debt_type o = aid.
Proof.
  unfold positions, price_min, price_max, asset_div. intros H Hi. ok_inv.
  apply elem_of_visit in Hi as (o & Ho & Hw). exists o. split; [done|].
  apply andb_true_iff in Hw as [H1%negb_true_iff H2%negb_true_iff].
  apply price_ltb_ids in H1, H2. simpl in *. unfold debt_type. lia.
Qed.

Lemma positions_nodup d bk aid calls : positions d bk aid = Ok calls → NoDup calls.
Proof. unfold positions. intros H. ok_inv. apply NoDup_visit. Qed.

(** ** Global settlement *)

Lemma calls_after_lookup d id o p r j :
  j ≠ id → objs (calls_after d id o p r) !! j = objs (db_call_orders d) !! j.
Proof.
  intros Hne. unfold calls_after; simpl. case_match;
    [by rewrite lookup_delete_ne|by rewrite lookup_insert_ne].
Qed.

Lemma same_but_calls_trans d1 d2 d3 :
  same_but_calls d1 d2 → same_but_calls d2 d3 → same_but_calls d1 d3.
Proof. intros (?&?&?&?&?&?&?) (?&?&?&?&?&?&?). split_and!; congruence. Qed.

Lemma close_positions_ok calls p g d g' d' aid mia s :
  NoDup calls → assets_wf d → market_wf d →
  (∀ i, i ∈ calls → ∃ o, objs (db_call_orders d) !! i = Some o ∧ debt_type o = aid) →
  db_assets d !! aid = Some mia → db_asset_dyn d !! as_dynamic_asset_data_id mia = Some s →
  close_positions calls p g d = Ok (g', d') →
  ∃ debt, mmoves d d' (λ x, amount_of x (mkAsset debt aid) - amount_of x g' + amount_of x g) ∧
    same_but_calls d d' ∧ asset_id g' = asset_id g ∧
    (∀ i, i ∈ calls → objs (db_call_orders d') !! i = None) ∧
    (∀ i, i ∉ calls → objs (db_call_orders d') !! i = objs (db_call_orders d) !! i) ∧
    db_asset_dyn d' !! as_dynamic_asset_data_id mia =
      Some (set_current_supply (λ _, dd_current_supply s - debt) s).
Proof.
  revert g d s. induction calls as [|i calls IH]; intros g d s Hnd Ha Hm Hcs Hmia Hs H; simpl in H.
  { injection H as <- <-. exists 0. split_and!; try done; try set_solver.
    - eapply mmoves_ext; [apply mmoves_refl|]. locked_solve.
    - rewrite Hs. destruct s. unfold set_current_supply; simpl. do 2 f_equal. lia. }
  apply NoDup_cons in Hnd as [Hi Hnd]. destruct (Hcs i) as (o & Ho & Hty); [set_solver|].
  unfold call_ref in H. rewrite Ho in H. cbn [of_option rbind] in H.
  apply rbind_ok in H as (v & Hv & H). apply rbind_ok in H as (ab & Hab & H).
  apply rbind_ok in H as (g1 & Hg & H). apply rbind_ok in H as ([fl d1] & H1 & H).
  apply rbind_ok in H as (u & ->%require_ok & H).
  pose proof Hm as (_ & Hcalls & _). pose proof (Hcalls _ _ Ho) as ((Hd & _) & (Hcl & _) & _).
  apply asset_mul_price_range in Hv. apply asset_add_ok in Hg as [Hgi ->].
  set (pays := if ab then get_collateral o else v) in *.
  assert (0 <= amount pays) as Hp0 by (unfold pays; destruct ab; simpl; lia).
  eapply fill_call_ok in H1 as (M1 & S1 & T1 & Hb & Hpi & _ & _ & mia' & s' & Hmia' & Hs' & D1);
    [|done|done|done|simpl; lia].
  cbn [asset_id get_debt] in Hmia'. rewrite Hty in Hmia'.
  assert (mia' = mia) as -> by congruence. assert (s' = s) as -> by congruence.
  destruct (M1 Ha Hm) as (Ha1 & Hm1 & _). pose proof S1 as (_ & _ & _ & _ & Ea & _).
  eapply (IH _ d1 (set_current_supply (λ _, dd_current_supply s - call_debt o) s)) in H
    as (debt & M2 & S2 & Hg2 & Hgone & Hrest & D2); [|done|done|done| |by rewrite Ea|].
  2:{ intros j Hj. destruct (Hcs j) as (oj & Hoj & ?); [set_solver|]. exists oj. split; [|done].
      rewrite T1, calls_after_lookup; [done|]. intros ->. done. }
  2:{ by rewrite D1, lookup_insert_eq. }
  exists (call_debt o + debt). split_and!.
  - eapply mmoves_ext; [by eapply mmoves_trans|]. intros x. simpl. unfold get_debt. rewrite Hty.
    unfold amount_of; simpl. rewrite Hgi. repeat case_match; lia.
  - by eapply same_but_calls_trans.
  - by rewrite Hg2.
  - intros j [->|Hj]%elem_of_cons; [|by apply Hgone].
    rewrite Hrest by done. rewrite T1. unfold calls_after. simpl.
    rewrite Z.eqb_refl. by rewrite lookup_delete_eq.
  - intros j Hj. rewrite Hrest by set_solver. rewrite T1. apply calls_after_lookup. set_solver.
  - rewrite D2. destruct s. unfold set_current_supply; simpl. do 2 f_equal. lia.
Qed.

Lemma modify_bitasset_ok d a f d' :
  modify_bitasset d a f = Ok d' →
  ∃ i b b', as_bitasset_data_id a = Some i ∧ db_bitassets d !! i = Some b ∧ f b = Ok b' ∧
    d' = set_bitassets (<[i := b']>) d ∧
    ((asset_id (base (bd_settlement_price b')) = core_id →
      asset_id (quote (bd_settlement_price b')) = core_id → bd_settlement_fund b' = 0) →
     mmoves d d' (λ aid, fund_locked aid b' - fund_locked aid b)).
Proof.
  unfold modify_bitasset, bitasset_id. intros H. ok_inv. eexists _, _, _. split_and!; [done..|].
  intros Hset (H1 & H2 & H3 & H4) Hm. split_and!.
  - split_and!; [done..|]. simpl. intros i b Hi. apply lookup_insert_Some in Hi as [[_ <-]|[_ Hi]];
      [done|by eapply H4].
  - exact Hm.
  - intros aid. rewrite imbalance_set_bitassets, msum_insert.
    match goal with H : db_bitassets d !! _ = Some _ |- _ => rewrite H end. simpl. lia.
Qed.

Lemma not_settled_fund d i b :
  assets_wf d → db_bitassets d !! i = Some b → has_settlement b = false → bd_settlement_fund b = 0.
Proof.
  intros (_ & _ & _ & Hf) Hb Hn. unfold has_settlement, price_is_null, price_eqb in Hn.
  apply negb_false_iff in Hn. case_match; [done|]. apply negb_false_iff in H. simpl in H.
  apply andb_true_iff in H as [H1%Z.eqb_eq H2%Z.eqb_eq]. by eapply Hf.
Qed.

(** Neither limit orders nor settlements nor bids are touched. *)
Definition same_limits (d d' : database) : Prop :=
  db_limit_orders d' = db_limit_orders d ∧ db_settlements d' = db_settlements d ∧
  db_bids d' = db_bids d ∧ db_assets d' = db_assets d ∧ db_gpo d' = db_gpo d ∧ db_dgpo d' = db_dgpo d.

Lemma globally_settle_ok d aid p d' :
  assets_wf d → market_wf d → globally_settle_asset d aid p = Ok d' →
  mconserves d d' ∧ same_limits d d' ∧
  ∃ mia i b b', db_assets d !! aid = Some mia ∧ as_bitasset_data_id mia = Some i ∧
    db_bitassets d !! i = Some b ∧ db_bitassets d' !! i = Some b' ∧
    has_settlement b = false ∧
    bd_settlement_price b' = mkPrice (mkAsset (current_supply aid d) aid)
                               (mkAsset (bd_settlement_fund b') (backing b)) ∧
    current_supply aid d' = current_supply aid d ∧
    ∃ calls, positions d (backing b) aid = Ok calls ∧
      ∀ j, objs (db_call_orders d') !! j =
        if decide (j ∈ calls) then None else objs (db_call_orders d) !! j.
Proof.
  intros Ha Hm. unfold globally_settle_asset, get_asset_object, get_asset_dyn, get_bitasset, bitasset_id.
  intros H. apply rbind_ok in H as (mia & Hmia%of_option_ok & H).
  apply rbind_ok in H as (b & Hb & H). apply rbind_ok in Hb as (i & Hi%of_option_ok & Hb%of_option_ok).
  apply rbind_ok in H as (u & Hns%require_ok & H). apply negb_true_iff in Hns.
  apply rbind_ok in H as (bk & _ & H). apply rbind_ok in H as (s & Hs%of_option_ok & H).
  apply rbind_ok in H as (calls & Hcalls & H). apply rbind_ok in H as ([g d1] & H1 & H).
  apply rbind_ok in H as (d2 & H2 & H3).
  eapply close_positions_ok in H1 as (debt & M1 & S1 & Hg & Hgone & Hrest & D1);
    [|by eapply positions_nodup|done|done| |done|done].
  2:{ intros j Hj. destruct (positions_market _ _ _ _ _ Hcalls Hj) as (o & ? & _ & ?). eauto. }
  simpl in Hg. pose proof S1 as (El & Es & Ebi & Eba & Ea & Eg & Ed).
  apply modify_bitasset_ok in H2 as (i' & b1 & b2 & Hi' & Hb1 & Hf & -> & M2).
  assert (i' = i) as -> by congruence. rewrite Eba in Hb1. assert (b1 = b) as -> by congruence.
  unfold asset_div in Hf. ok_inv. simpl in *. rewrite Hg in *.
  eapply moves_modify_asset_dyn in H3 as (s2 & s3 & Hs2 & [= <-] & -> & M3); [|by rewrite <- Ea in Hmia].
  simpl in Hs2. rewrite D1 in Hs2. injection Hs2 as <-. simpl in *.
  pose proof (not_settled_fund _ _ _ Ha Hb Hns) as Hfund.
  assert (current_supply aid d = dd_current_supply s) as Hcs.
  { unfold current_supply, dyn_of. by rewrite Hmia; simpl; rewrite Hs. }
  split_and!; try done.
  - eapply mmoves_ext; [eapply mmoves_trans; [exact M1|eapply mmoves_trans;
      [apply M2; intros; lia|by apply mmoves_of_moves]]|].
    intros x. unfold fund_locked, core_delta, amount_of, backing; simpl. fold (backing b).
    rewrite Hg, Hfund. repeat case_match; lia.
  - exists mia, i, b. eexists. split_and!; [done..|by rewrite lookup_insert_eq|done| | |].
    + simpl. rewrite Hcs. f_equal. destruct g; simpl in *. by subst.
    + unfold current_supply at 1, dyn_of. simpl. rewrite Ea, Hmia. simpl.
      by rewrite lookup_insert_eq, Hcs.
    + exists calls. split; [done|]. intros j. case_decide; auto.
Qed.

Lemma check_for_blackswan_ok d aid en b d' :
  assets_wf d → market_wf d → check_for_blackswan d aid en = Ok (b, d') →
  mconserves d d' ∧ same_limits d d' ∧ (b = false → d' = d).
Proof.
  intros Ha Hm H. unfold check_for_blackswan in H.
  apply rbind_ok in H as (mia & _ & H).
  case_in H; [injection H as <- <-; split_and!; [apply mmoves_refl|done..]|].
  apply rbind_ok in H as (bit & _ & H).
  case_in H; [injection H as <- <-; split_and!; [apply mmoves_refl|done..]|].
  case_in H; [injection H as <- <-; split_and!; [apply mmoves_refl|done..]|].
  apply rbind_ok in H as (hi & _ & H). apply rbind_ok in H as (lo & _ & H).
  apply rbind_ok in H as (calls & _ & H).
  destruct calls as [|least calls]; [injection H as <- <-; split_and!; [apply mmoves_refl|done..]|].
  apply rbind_ok in H as (highest & _ & H). apply rbind_ok in H as (c & _ & H).
  apply rbind_ok in H as (lc & _ & H).
  case_in H; [|injection H as <- <-; split_and!; [apply mmoves_refl|done..]].
  apply rbind_ok in H as (u & _ & H). apply rbind_ok in H as (d1 & H1 & [= <- <-]).
  apply globally_settle_ok in H1 as (? & ? & _); [|done..]. done.
Qed.

(** Limit orders only shrink; everything outside the two order tables, the
    settlement data and the dynamic data of assets stays. *)
Definition orders_shrink (d d' : database) : Prop :=
  (∀ j o', objs (db_limit_orders d') !! j = Some o' →
     ∃ o, objs (db_limit_orders d) !! j = Some o ∧ lim_sell_price o' = lim_sell_price o ∧
       lim_seller o' = lim_seller o ∧ lim_for_sale o' <= lim_for_sale o) ∧
  db_settlements d' = db_settlements d ∧ db_bids d' = db_bids d ∧ db_assets d' = db_assets d ∧
  db_gpo d' = db_gpo d ∧ db_dgpo d' = db_dgpo d.

#[export] Instance orders_shrink_preorder : PreOrder orders_shrink.
Proof.
  split.
  { intros d. split_and!; try done. intros j o Ho. exists o. split_and!; done || lia. }
  intros d1 d2 d3 (H12 & ?&?&?&?&?) (H23 &?&?&?&?&?). split_and!; try congruence.
  intros j o3 (o2 & Ho2 & E2 & S2 & L2)%H23. destruct (H12 _ _ Ho2) as (o1 & Ho1 & E1 & S1 & L1).
  exists o1. split_and!; [done|congruence|congruence|lia].
Qed.

Lemma same_limits_shrink d d' : same_limits d d' → orders_shrink d d'.
Proof.
  intros (El & ? & ? & ? & ? & ?). split_and!; try done. rewrite El.
  intros j o Ho. exists o. split_and!; done || lia.
Qed.

Lemma limits_after_shrink d d' id o pays b :
  objs (db_limit_orders d) !! id = Some o → 0 <= pays → same_but_limits d d' →
  db_limit_orders d' = limits_after d id o pays b → orders_shrink d d'.
Proof.
  intros Ho Hp (?&?&?&?&?&?&?) T. split_and!; try done.
  intros j o'. rewrite T, limits_after_lookup. case_decide as E.
  - subst. destruct b; [done|]. intros [= <-]. exists o. split_and!; try done. simpl. lia.
  - intros Ho'. exists o'. split_and!; done || lia.
Qed.

Lemma same_but_calls_shrink d d' : same_but_calls d d' → orders_shrink d d'.
Proof.
  intros (El & ? & ? & ? & ? & ? & ?). split_and!; try done. rewrite El.
  intros j o Ho. exists o. split_and!; done || lia.
Qed.

Definition round_db (r : round_result) : database := match r with Stop _ d | Next _ _ d => d end.

Lemma call_round_ok aid en ci li fl mc d r :
  assets_wf d → market_wf d → call_round aid en ci li fl mc d = Ok r →
  mconserves d (round_db r) ∧ orders_shrink d (round_db r).
Proof.
  intros Ha Hm H. unfold call_round in H.
  assert (mconserves d d ∧ orders_shrink d d) as Hrefl by (split; [apply mmoves_refl|done]).
  apply rbind_ok in H as (mia & _ & H). apply rbind_ok in H as (bit & _ & H).
  apply rbind_ok in H as (l & Hl%of_option_ok & H). apply rbind_ok in H as (u & _ & H).
  apply rbind_ok in H as (c & Hc%of_option_ok & H).
  case_in H; [by injection H as <-|]. case_in H; [by injection H as <-|].
  apply rbind_ok in H as (v & _ & H). apply rbind_ok in H as (sh & _ & H).
  destruct sh.
  { apply rbind_ok in H as (u1 & _ & H). apply rbind_ok in H as (d1 & H1 & [= <-]).
    apply globally_settle_ok in H1 as (? & ? & _); [|done..]. split; [done|by apply same_limits_shrink]. }
  apply rbind_ok in H as (fo & Hfo & H). apply asset_geb_ok in Hfo as [_ ->].
  set (traded := if amount (amount_for_sale l) <=? amount (get_debt c)
                 then amount_for_sale l else get_debt c) in H.
  apply rbind_ok in H as (rc & Hrc%asset_mul_price_range & H). apply rbind_ok in H as (u2 & _ & H).
  apply rbind_ok in H as ([f1 d1] & H1 & H). apply rbind_ok in H as ([f2 d2] & H2 & [= <-]).
  pose proof Hm as (Hlim & Hcal & _).
  pose proof (Hlim _ _ Hl) as ((Pl & Pl') & _). pose proof (Hcal _ _ Hc) as ((Pc & Pc') & _).
  assert (0 <= amount traded <= lim_for_sale l ∧ amount traded <= call_debt c) as [Ht Htc].
  { unfold traded. simpl. destruct (Z.leb_spec (lim_for_sale l) (call_debt c)); simpl; lia. }
  eapply fill_call_ok in H1 as (M1 & S1 & _); [|done|done|lia|lia].
  destruct (M1 Ha Hm) as (Ha1 & Hm1 & _).
  eapply fill_limit_ok in H2 as (M2 & S2 & T2 & _);
    [|pose proof S1 as (-> & _); exact Hl|done|done|unfold GRAPHENE_MAX_SHARE_SUPPLY in *; lia|lia].
  simpl. split.
  - eapply mmoves_ext; [by eapply mmoves_trans|]. intros; simpl; lia.
  - transitivity d1; [by apply same_but_calls_shrink|].
    eapply limits_after_shrink; [| |done|exact T2]; [by pose proof S1 as (-> & _)|lia].
Qed.

Lemma chain_shrink d1 d2 d3 :
  mconserves d1 d2 ∧ orders_shrink d1 d2 → mconserves d2 d3 ∧ orders_shrink d2 d3 →
  mconserves d1 d3 ∧ orders_shrink d1 d3.
Proof.
  intros [M1 S1] [M2 S2]. split; [|by etrans]. eapply mmoves_ext; [by eapply mmoves_trans|]. done.
Qed.

Lemma call_loop_ok aid en calls limits fl mc d b d' :
  assets_wf d → market_wf d →
  call_loop aid en calls limits fl mc d = Ok (b, d') → mconserves d d' ∧ orders_shrink d d'.
Proof.
  revert limits fl mc d. induction calls as [|ci calls IHc]; intros limits; induction limits as [|li limits IHl];
    intros fl mc d Ha Hm H; cbn [call_loop] in H; apply rbind_ok in H as ([swan d1] & H1 & H);
    destruct (check_for_blackswan_ok _ _ _ _ _ Ha Hm H1) as (M1 & S1 & Hsame);
    (destruct swan; [injection H as <- <-; split; [done|by apply same_limits_shrink]|]);
    rewrite Hsame in H by done; clear H1 M1 S1 Hsame d1;
    try (injection H as <- <-; split; [apply mmoves_refl|done]).
  apply rbind_ok in H as (r & Hr & H). destruct (call_round_ok _ _ _ _ _ _ _ _ Ha Hm Hr) as [M1 S1].
  destruct (M1 Ha Hm) as (Ha1 & Hm1 & _).
  destruct r as [b1 d1|[] fl1 d1]; simpl in *.
  - by injection H as <- <-.
  - eapply chain_shrink; [done|]. by eapply IHc.
  - destruct fl1; [|done]. eapply chain_shrink; [done|]. by eapply IHl.
Qed.

Lemma check_call_orders_ok d aid en b d' :
  assets_wf d → market_wf d → check_call_orders d aid en = Ok (b, d') →
  mconserves d d' ∧ orders_shrink d d'.
Proof.
  intros Ha Hm H. unfold check_call_orders in H.
  assert (mconserves d d ∧ orders_shrink d d) as Hrefl by (split; [apply mmoves_refl|done]).
  apply rbind_ok in H as (mia & _ & H). case_in H; [by injection H as <- <-|].
  apply rbind_ok in H as ([swan d1] & H1 & H).
  destruct (check_for_blackswan_ok _ _ _ _ _ Ha Hm H1) as (M1 & S1 & Hsame).
  destruct swan; [injection H as <- <-; split; [done|by apply same_limits_shrink]|].
  rewrite Hsame in H by done. apply rbind_ok in H as (bit & _ & H).
  case_in H; [by injection H as <- <-|]. case_in H; [by injection H as <- <-|].
  apply rbind_ok in H as (hi & _ & H). apply rbind_ok in H as (lo & _ & H).
  case_in H; [by injection H as <- <-|]. apply rbind_ok in H as (calls & _ & H).
  by eapply call_loop_ok.
Qed.

(** ** A new order *)

Lemma price_leb_cross a b :
  price_pos a → price_pos b → asset_id (base a) = asset_id (base b) →
  asset_id (quote a) = asset_id (quote b) → price_leb a b = true →
  amount (quote b) * amount (base a) <= amount (quote a) * amount (base b).
Proof.
  intros Ha Hb E1 E2 H. unfold price_leb in H. apply orb_true_iff in H as [H|H].
  - apply price_eqb_cross in H; [lia|done..].
  - apply price_ltb_cross in H; [lia|done..].
Qed.

(** The orders the matching loop visits agree with the new one on a price. *)
Lemma limit_range_crosses d p hi i :
  price_pos p → market_wf d →
  price_max (asset_id (quote p)) (asset_id (base p)) = Ok hi →
  i ∈ limit_range d hi (price_inv p) →
  ∃ o, objs (db_limit_orders d) !! i = Some o ∧ crosses p (lim_sell_price o).
Proof.
  intros Hp (Hl & _) Hhi Hi. unfold price_max, asset_div in Hhi. ok_inv.
  apply elem_of_visit in Hi as (o & Ho & Hw). exists o. split; [done|].
  apply andb_true_iff in Hw as [H1%negb_true_iff%price_gtb_false H2%negb_true_iff%price_gtb_false].
  pose proof (price_leb_ids _ _ H1) as I1. pose proof (price_leb_ids _ _ H2) as I2. simpl in I1, I2.
  destruct (Hl _ _ Ho) as (_ & Hpo & _).
  assert (asset_id (base (lim_sell_price o)) = asset_id (quote p) ∧
          asset_id (quote (lim_sell_price o)) = asset_id (base p)) as [E1 E2] by lia.
  apply price_leb_cross in H2; [|by destruct Hp|done|done|done]. simpl in H2.
  split_and!; [done|done|lia].
Qed.

Lemma match_loop_ok order o old d d' :
  assets_wf d → market_wf d → NoDup old → order ∉ old →
  objs (db_limit_orders d) !! order = Some o →
  (∀ i, i ∈ old → ∃ oo, objs (db_limit_orders d) !! i = Some oo ∧
     crosses (lim_sell_price o) (lim_sell_price oo)) →
  match_loop order old d = Ok d' → mconserves d d' ∧ orders_shrink d d'.
Proof.
  revert d o. induction old as [|i old IH]; intros d o Ha Hm Hnd Hni Ho Hold H.
  { injection H as <-. split; [apply mmoves_refl|done]. }
  apply NoDup_cons in Hnd as [Hi Hnd]. destruct (Hold i) as (oo & Hoo & Hx); [set_solver|].
  cbn [match_loop] in H. unfold limit_ref in H. rewrite Hoo in H. cbn [of_option rbind] in H.
  apply rbind_ok in H as ([[fu fc] d1] & H1 & H). simpl in H.
  eapply match_limit_ok in H1 as (M1 & S1 & g1 & g2 & G1 & G2 & _ & _ & _ & T1);
    [|set_solver|done|done|done|done|done].
  destruct (M1 Ha Hm) as (Ha1 & Hm1 & _).
  assert (orders_shrink d d1) as Sh1.
  { destruct S1 as (?&?&?&?&?&?&?). split_and!; try done. intros j o'. rewrite T1.
    repeat case_decide; subst; unfold left_over.
    - destruct fu; [done|]. intros [= <-]. exists o. split_and!; try done. simpl. lia.
    - destruct fc; [done|]. intros [= <-]. exists oo. split_and!; try done. simpl. lia.
    - intros Ho'. exists o'. split_and!; done || lia. }
  destruct (negb fu && fc) eqn:Eg; [|injection H as <-; done].
  apply andb_true_iff in Eg as [->%negb_true_iff ->].
  assert (objs (db_limit_orders d1) !! order = Some (reduced o g2)) as Ho1.
  { rewrite T1, decide_True by done. done. }
  apply (IH d1 (reduced o g2)) in H as [M2 Sh2]; [|done|done|done|set_solver|done|].
  - split; [|by etrans]. eapply mmoves_ext; [by eapply mmoves_trans|]. done.
  - intros j Hj. destruct (Hold j) as (oj & Hoj & Hxj); [set_solver|]. exists oj. split; [|done].
    rewrite T1, !decide_False; [done| |]; set_solver.
Qed.

Lemma apply_order_ok d order en b d' :
  assets_wf d → market_wf d → apply_order d order en = Ok (b, d') →
  mconserves d d' ∧ orders_shrink d d'.
Proof.
  intros Ha Hm H. unfold apply_order in H. apply rbind_ok in H as (o0 & Ho0%of_option_ok & H).
  apply rbind_ok in H as (? & _ & H). apply rbind_ok in H as (r & _ & H).
  apply rbind_ok in H as (? & _ & H).
  apply rbind_ok in H as ([c1 d1] & H1 & H). apply check_call_orders_ok in H1 as [M1 S1]; [|done..].
  destruct (M1 Ha Hm) as (Ha1 & Hm1 & _).
  apply rbind_ok in H as ([c2 d2] & H2 & H). apply check_call_orders_ok in H2 as [M2 S2]; [|done..].
  destruct (M2 Ha1 Hm1) as (Ha2 & Hm2 & _).
  pose proof (mmoves_trans _ _ _ _ _ M1 M2) as M12. assert (orders_shrink d d2) as S12 by (by etrans).
  case_in H; [injection H as <- <-; split; [by eapply mmoves_ext|done]|].
  apply rbind_ok in H as (o & Ho%of_option_ok & H). apply rbind_ok in H as (hi & Hhi & H).
  apply rbind_ok in H as (d3 & H3 & H).
  pose proof Hm2 as (Hl & _). destruct (Hl _ _ Ho) as (_ & Hpo & Hne & _).
  eapply match_loop_ok in H3 as [M3 S3]; [|done|done|apply NoDup_visit| |exact Ho|].
  2:{ intros Hin. eapply limit_range_crosses in Hin as (o' & Ho' & E1 & E2 & _); [|done..].
      assert (o' = o) as -> by congruence. congruence. }
  2:{ intros i Hi. eapply limit_range_crosses in Hi; done. }
  destruct (M3 Ha2 Hm2) as (Ha3 & Hm3 & _).
  apply rbind_ok in H as ([c4 d4] & H4 & H). apply check_call_orders_ok in H4 as [M4 S4]; [|done..].
  destruct (M4 Ha3 Hm3) as (Ha4 & Hm4 & _).
  apply rbind_ok in H as ([c5 d5] & H5 & H). apply check_call_orders_ok in H5 as [M5 S5]; [|done..].
  assert (mconserves d d5 ∧ orders_shrink d d5) as [M15 S15].
  { split; [|by etrans; [exact S12|etrans; [exact S3|by etrans]]].
    eapply mmoves_ext; [eapply mmoves_trans; [exact M12|eapply mmoves_trans; [exact M3|
      eapply mmoves_trans; [exact M4|exact M5]]]|]. done. }
  case_in H; [|by injection H as <- <-]. case_in H; [by injection H as <- <-|].
  apply maybe_cull_ok in H as (M6 & S6 & T6). split.
  - eapply mmoves_ext; [by eapply mmoves_trans|]. done.
  - etrans; [exact S15|]. destruct S6 as (?&?&?&?&?&?&?). split_and!; try done.
    intros j o'. rewrite T6. destruct b; simpl.
    + rewrite lookup_delete_Some. intros [_ Ho']. exists o'. split_and!; done || lia.
    + intros Ho'. exists o'. split_and!; done || lia.
Qed.

(** ** Forced settlement *)

Lemma asset_min_ok a b c :
  asset_min a b = Ok c → (c = a ∨ c = b) ∧ amount c = Z.min (amount a) (amount b) ∧
    asset_id c = asset_id a ∧ asset_id c = asset_id b.
Proof.
  unfold asset_min, asset_ltb. intros H. ok_inv.
  destruct (Z.ltb_spec (amount b) (amount a)); split_and!; auto; lia.
Qed.

(** [match(call, settlement)]: the settlement is paid from the collateral of
    the position, nothing else changes hands, and neither more than the debt
    of the position nor more than the cap is settled. *)
Lemma match_settlement_ok d ci si p cap x d' c s :
  assets_wf d → market_wf d →
  objs (db_call_orders d) !! ci = Some c → objs (db_settlements d) !! si = Some s →
  0 <= amount cap → match_settlement d ci si p cap = Ok (x, d') →
  mconserves d d' ∧ amount x = Z.min (Z.min (amount (fs_balance s)) (amount cap)) (call_debt c) ∧
  asset_id x = debt_type c.
Proof.
  intros Ha Hm Hc Hs Hcap. unfold match_settlement, call_ref, settlement_ref. rewrite Hc, Hs.
  cbn [of_option rbind]. intros H. apply rbind_ok in H as (u1 & _ & H).
  apply rbind_ok in H as (u2 & Hpos%require_ok & H).
  apply rbind_ok in H as (sfs & (_ & Hsa & Hsi & _)%asset_min_ok & H).
  apply rbind_ok in H as (cr & (_ & Hca & Hci & Hci')%asset_min_ok & H).
  apply rbind_ok in H as (cp & Hcp%asset_mul_price_range & H).
  apply rbind_ok in H as (cov & _ & H). apply rbind_ok in H as (u3 & _ & H).
  apply rbind_ok in H as ([f1 d1] & H1 & H). apply rbind_ok in H as ([f2 d2] & H2 & [= <- <-]).
  simpl in *. rewrite Hsa in Hca.
  eapply fill_call_ok in H1 as (M1 & S1 & _); [|done|done|lia|lia].
  destruct (M1 Ha Hm) as (Ha1 & Hm1 & _).
  eapply (fill_settlement_ok _ _ s) in H2;
    [|by pose proof S1 as (_ & -> & _)|done|unfold GRAPHENE_MAX_SHARE_SUPPLY in *; lia|lia].
  split_and!; [|done|done]. eapply mmoves_ext; [by eapply mmoves_trans|]. intros; simpl; lia.
Qed.

(** ** Reviving a settled asset *)

Lemma call_price_ids debt coll ratio p :
  call_price debt coll ratio = Ok p →
  asset_id (base p) = asset_id coll ∧ asset_id (quote p) = asset_id debt ∧ asset_id coll ≠ asset_id debt.
Proof. unfold call_price, asset_div. intros H. ok_inv. simpl in *. split_and!; [done..|lia]. Qed.

Lemma execute_bid_ok d id bid debt fund feed d' :
  objs (db_bids d) !! id = Some bid → amount_pos debt → amount_ok (amount (base (bid_inv_swan_price bid)) + fund) →
  execute_bid d id debt fund feed = Ok d' →
  mmoves d d' (λ aid, amount_of aid (mkAsset fund (asset_id (base (bid_inv_swan_price bid))))) ∧
  db_bitassets d' = db_bitassets d ∧ db_assets d' = db_assets d.
Proof.
  intros Hb Hd Hf. unfold execute_bid. rewrite Hb. cbn [of_option rbind]. intros H.
  apply rbind_ok in H as (coll & Hcoll & H). safe_inv.
  apply rbind_ok in H as (cp & (I1 & I2 & I3)%call_price_ids & H).
  apply rbind_ok in H as ([ci t] & Ht & H). apply rbind_ok in H as (d1 & H1 & [= <-]).
  apply index_create_ok in Ht as (-> & Hnone & _ & ->). simpl in *.
  set (o := mkCall _ _ _ _) in *. set (d0 := set_call_orders _ d) in *.
  assert (mmoves d d0 (λ aid, call_locked aid o)) as M0.
  { apply mmoves_intro.
    - apply moves_intro; [done..|]. intros aid. unfold d0. rewrite imbalance_set_call_orders. simpl.
      rewrite msum_insert, Hnone. simpl. lia.
    - intros (? & Hc & ?). split_and!; [done| |done]. apply map_Forall_insert_2; [|done].
      split_and!; [done|done|]. unfold o. cbn [call_call_price]. rewrite I1, I2. done. }
  assert (mconserves d0 d1 ∧ same_market d0 d1) as [M1 S1].
  { case_in H1; [|injection H1 as <-; split; [apply mmoves_refl|done]].
    apply rbind_ok in H1 as (a & _ & H1). eapply core_in_orders_market; [|exact H1].
    intros s s' Hs. cbv beta in Hs. by ok_inv. }
  destruct S1 as (_ & _ & _ & Eb & Eba & Ea & _). split_and!; [|exact Eba|exact Ea].
  assert (objs (db_bids d1) !! id = Some bid) as Hb1 by (by rewrite Eb).
  eapply mmoves_ext; [eapply mmoves_trans; [exact M0|eapply mmoves_trans; [exact M1|
    exact (mmoves_remove_bid _ _ _ Hb1)]]|].
  intros aid. unfold call_locked, bid_locked, get_collateral, amount_of; simpl. rewrite I1.
  repeat case_match; lia.
Qed.

Lemma cancel_bids_ok d ids d' :
  rfold cancel_bid d ids = Ok d' →
  mconserves d d' ∧ db_bitassets d' = db_bitassets d ∧ db_assets d' = db_assets d.
Proof.
  apply rfold_invariant with (P := λ d d', mconserves d d' ∧ db_bitassets d' = db_bitassets d ∧
    db_assets d' = db_assets d).
  - intros. split_and!; [apply mmoves_refl|done..].
  - intros a b c (M1 & ? & ?) (M2 & ? & ?). split_and!; [|congruence..].
    eapply mmoves_ext; [by eapply mmoves_trans|]. done.
  - intros a x b _. apply cancel_bid_ok.
Qed.

(** Cancelling the bids and clearing the settlement drops the settlement
    fund. *)
Lemma cancel_bids_and_revive_ok d aid mia i b d' :
  db_assets d !! aid = Some mia → as_bitasset_data_id mia = Some i → db_bitassets d !! i = Some b →
  cancel_bids_and_revive_mpa d aid = Ok d' →
  mmoves d d' (λ x, - fund_locked x b) ∧
  db_bitassets d' = <[i := set_settlement_fund (λ _, 0) (set_settlement_price (λ _, default_price) b)]>
    (db_bitassets d).
Proof.
  intros Hmia Hi Hb. unfold cancel_bids_and_revive_mpa, get_asset_object. rewrite Hmia.
  cbn [of_option rbind]. intros H. apply rbind_ok in H as (? & _ & H).
  apply rbind_ok in H as (bad & _ & H). apply rbind_ok in H as (? & _ & H).
  apply rbind_ok in H as (? & _ & H). apply rbind_ok in H as (hi & _ & H).
  apply rbind_ok in H as (d1 & H1 & H). apply cancel_bids_ok in H1 as (M1 & E1 & E2).
  apply modify_bitasset_ok in H as (i' & b1 & b2 & Hi' & Hb1 & [= <-] & -> & M2).
  assert (i' = i) as -> by congruence. rewrite E1 in Hb1. assert (b1 = b) as -> by congruence.
  split; [|simpl; by rewrite E1].
  eapply mmoves_ext; [eapply mmoves_trans; [exact M1|by apply M2]|].
  intros y. unfold fund_locked, amount_of; simpl. repeat case_match; lia.
Qed.

Lemma revive_bitasset_ok d aid mia i b s d' :
  db_assets d !! aid = Some mia → as_bitasset_data_id mia = Some i → db_bitassets d !! i = Some b →
  db_asset_dyn d !! as_dynamic_asset_data_id mia = Some s →
  dd_current_supply s < 2 ^ 63 → amount_ok (bd_settlement_fund b) →
  revive_bitasset d aid = Ok d' →
  mconserves d d' ∧ ∃ b', db_bitassets d' !! i = Some b' ∧
    bd_settlement_price b' = default_price ∧ bd_settlement_fund b' = 0.
Proof.
  intros Hmia Hi Hb Hs Hsup Hfund.
  unfold revive_bitasset, get_asset_object, get_bitasset, bitasset_id, get_asset_dyn. rewrite Hmia.
  cbn [of_option rbind]. rewrite Hi. cbn [of_option rbind]. rewrite Hb, Hs. cbn [of_option rbind].
  intros H. apply rbind_ok in H as (? & _ & H). apply rbind_ok in H as (? & _ & H).
  apply rbind_ok in H as (? & _ & H). apply rbind_ok in H as (? & _ & H).
  apply rbind_ok in H as (d1 & H1 & H).
  assert (mmoves d d1 (λ y, fund_locked y b) ∧ db_bitassets d1 = db_bitassets d ∧
    db_assets d1 = db_assets d) as (M1 & E1 & E2).
  { destruct (Z.ltb_spec 0 (dd_current_supply s)).
    - apply rbind_ok in H1 as (p & Hp & H1). apply rbind_ok in H1 as ([id t] & Ht & H1).
      unfold asset_div in Hp. apply rbind_ok in Hp as (? & _ & [= <-]). apply index_create_ok in Ht as (-> & Hnone & _ & ->).
      eapply execute_bid_ok in H1 as (M1 & E1 & E2);
        [|simpl; by rewrite lookup_insert_eq|unfold amount_pos; lia|simpl; by rewrite Z.add_0_l].
      split_and!; [|done..]. eapply mmoves_ext; [eapply mmoves_trans; [|exact M1]|].
      + intros Ha Hm. split_and!; [exact Ha|exact Hm|]. intros y. rewrite imbalance_set_bids. simpl.
        rewrite msum_insert, Hnone. simpl. instantiate (1 := λ _, 0). unfold bid_locked, amount_of; simpl.
        case_match; lia.
      + intros y. unfold fund_locked, amount_of; simpl. case_match; lia.
    - ok_inv. split_and!; [|done..]. eapply mmoves_ext; [apply mmoves_refl|].
      intros y. unfold fund_locked, amount_of; simpl. case_match; lia. }
  eapply cancel_bids_and_revive_ok in H as [M2 E3]; [|by rewrite E2|done|by rewrite E1].
  split.
  - eapply mmoves_ext; [by eapply mmoves_trans|]. intros; simpl; lia.
  - rewrite E3. eexists. split; [by rewrite lookup_insert_eq|done].
Qed.
End steps.
