(* ===== verification/MarketBook.v ===== *)
(** * The order book: price-time priority

    The index of limit orders is sorted by price and then by age; a new order
    takes the orders it crosses in that order, and touches an order only
    after every better one is gone. *)

From stdpp Require Import gmap list.
From Stdlib Require Import ZArith Lia Sorting.Sorted.
From S2P Require Import Prelude Fc Config Asset VestingBalance Objects Database Balances Fees Market MarketProps MarketSteps.

Local Open Scope Z_scope.

(** ** Ordered indices *)

Lemma in_order_sorted {V} (before : Z * V → Z * V → bool) (P : Z * V → Prop) (m : gmap Z V) :
  (∀ x y, P x → P y → before x y = true → before y x = false) →
  (∀ x y z, P x → P y → P z → before x y = true → before y z = true → before x z = true) →
  (∀ i v, m !! i = Some v → P (i, v)) →
  StronglySorted (not_after before) (in_order before m).
Proof.
  intros Hasym Htrans HP. apply sort_sorted with P; [done..|].
  rewrite Forall_forall. intros [i v] Hin%elem_of_map_to_list. by apply HP.
Qed.

Lemma StronglySorted_filter {A} (R : A → A → Prop) (f : A → bool) l :
  StronglySorted R l → StronglySorted R (List.filter f l).
Proof.
  induction 1 as [|x l Hs IH Hfa]; simpl; [constructor|]. destruct (f x); [|done].
  constructor; [done|]. rewrite Forall_forall in Hfa |- *. intros y Hy. apply Hfa.
  apply list_elem_of_In, filter_In in Hy as [Hy _]. by apply list_elem_of_In.
Qed.

Lemma StronglySorted_split {A} (R : A → A → Prop) l1 x l2 y l3 :
  StronglySorted R (l1 ++ x :: l2 ++ y :: l3) → R x y.
Proof.
  induction l1 as [|z l1 IH]; simpl; intros H; apply StronglySorted_inv in H as [H Hfa]; [|auto].
  rewrite Forall_forall in Hfa. apply Hfa. set_solver.
Qed.

Section book.
Context {FC : FcArith} {FCL : FcArithLaws FC} {BA : BoostArith} {BAL : BoostArithLaws BA}.

(** ** The order of the index *)

(** If [a < c], a third price is above [a] or below [c]. *)
Lemma price_ltb_split a b c :
  price_pos a → price_pos b → price_pos c → price_ltb a c = true →
  price_ltb a b = true ∨ price_ltb b c = true.
Proof.
  intros Ha Hb Hc. rewrite !price_ltb_cross by done.
  destruct Ha as [[? _] [? _]], Hb as [[? _] [? _]], Hc as [[? _] [? _]].
  set (ab := amount (base a)) in *. set (aq := amount (quote a)) in *.
  set (bb := amount (base b)) in *. set (bq := amount (quote b)) in *.
  set (cb := amount (base c)) in *. set (cq := amount (quote c)) in *.
  assert (cq * ab < aq * cb → bq * ab < aq * bb ∨ cq * bb < bq * cb) as Hcr.
  { intros Hlt. destruct (Z.lt_ge_cases (bq * ab) (aq * bb)) as [|G1]; [by left|].
    destruct (Z.lt_ge_cases (cq * bb) (bq * cb)) as [|G2]; [by right|]. exfalso.
    assert (aq * bb * cb <= cq * bb * ab); [|nia]. transitivity (bq * ab * cb); nia. }
  destruct (Z.lt_trichotomy (asset_id (base a)) (asset_id (base b))) as [|[|]],
    (Z.lt_trichotomy (asset_id (quote a)) (asset_id (quote b))) as [|[|]],
    (Z.lt_trichotomy (asset_id (base b)) (asset_id (base c))) as [|[|]],
    (Z.lt_trichotomy (asset_id (quote b)) (asset_id (quote c))) as [|[|]]; intuition lia.
Qed.

Lemma price_gtb_ltb a b : price_pos a → price_pos b → price_gtb a b = price_ltb b a.
Proof.
  intros Ha Hb. unfold price_gtb, price_leb.
  destruct (price_order_strict_total a b a Ha Hb Ha) as (_ & _ & [(->&->&->)|[(->&->&->)|(->&->&->)]]);
    done.
Qed.

Lemma price_ltb_asym a b : price_pos a → price_pos b → price_ltb a b = true → price_ltb b a = false.
Proof.
  intros Ha Hb. destruct (price_order_strict_total a b a Ha Hb Ha) as (_ & _ & [(->&_&->)|[(->&_&->)|(->&_&->)]]);
    done.
Qed.

Definition entry_pos (e : Z * limit_order_object) : Prop := price_pos (lim_sell_price e.2).

Lemma limit_before_alt a b :
  entry_pos a → entry_pos b →
  limit_before a b = price_ltb (lim_sell_price b.2) (lim_sell_price a.2)
    || (negb (price_ltb (lim_sell_price a.2) (lim_sell_price b.2)) && (a.1 <? b.1)).
Proof. intros. unfold limit_before. by rewrite !price_gtb_ltb. Qed.

Lemma limit_before_asym a b :
  entry_pos a → entry_pos b → limit_before a b = true → limit_before b a = false.
Proof.
  intros Ha Hb. rewrite !limit_before_alt by done.
  pose proof (price_ltb_asym _ _ Ha Hb). pose proof (price_ltb_asym _ _ Hb Ha).
  destruct (price_ltb (lim_sell_price b.2) _), (price_ltb (lim_sell_price a.2) _); simpl; intuition try done.
  lia.
Qed.

Lemma limit_before_trans a b c :
  entry_pos a → entry_pos b → entry_pos c →
  limit_before a b = true → limit_before b c = true → limit_before a c = true.
Proof.
  intros Ha Hb Hc. rewrite !limit_before_alt by done.
  pose proof (price_ltb_split _ _ _ Hc Hb Ha) as Sca. pose proof (price_ltb_split _ _ _ Ha Hb Hc) as Sac.
  pose proof (price_ltb_split _ _ _ Hc Ha Hb) as Scb. pose proof (price_ltb_split _ _ _ Hb Hc Ha) as Sba.
  pose proof (price_ltb_asym _ _ Ha Hb). pose proof (price_ltb_asym _ _ Hb Hc).
  pose proof (price_ltb_asym _ _ Ha Hc).
  destruct (price_ltb (lim_sell_price c.2) (lim_sell_price a.2)); [done|].
  destruct (price_ltb (lim_sell_price b.2) (lim_sell_price a.2)),
    (price_ltb (lim_sell_price c.2) (lim_sell_price b.2)),
    (price_ltb (lim_sell_price a.2) (lim_sell_price c.2)),
    (price_ltb (lim_sell_price a.2) (lim_sell_price b.2)),
    (price_ltb (lim_sell_price b.2) (lim_sell_price c.2)); simpl; intuition (done || lia).
Qed.

(** ** A new order against the book *)

(** The orders an order at [p] crosses are the ones its loop visits. *)
Lemma crosses_in_range d p hi i o :
  price_pos p → market_wf d → price_max (asset_id (quote p)) (asset_id (base p)) = Ok hi →
  objs (db_limit_orders d) !! i = Some o → crosses p (lim_sell_price o) →
  amount (base (lim_sell_price o)) <= GRAPHENE_MAX_SHARE_SUPPLY →
  i ∈ limit_range d hi (price_inv p).
Proof.
  intros Hp (Hl & _) Hhi Ho (E1 & E2 & Hx) Hmax. destruct (Hl _ _ Ho) as (_ & Hpo & _).
  unfold price_max, asset_div in Hhi. ok_inv. apply elem_of_visit. exists o. split; [done|].
  assert (price_pos (mkPrice (mkAsset GRAPHENE_MAX_SHARE_SUPPLY (asset_id (quote p)))
    (mkAsset 1 (asset_id (base p))))) as Hh.
  { split; unfold amount_pos, GRAPHENE_MAX_SHARE_SUPPLY; simpl; lia. }
  assert (price_pos (price_inv p)) as Hi by (by destruct Hp).
  rewrite !price_gtb_ltb by done. apply andb_true_iff.
  split; apply negb_true_iff, not_true_iff_false; rewrite price_ltb_cross by done; simpl; [|lia].
  destruct Hpo as [[? _] [? _]]. unfold GRAPHENE_MAX_SHARE_SUPPLY in *. nia.
Qed.

(** How far the loop gets: the orders before some position are gone, those
    after it and all others are untouched. *)
Lemma match_loop_prefix order o old d d' :
  assets_wf d → market_wf d → NoDup old → order ∉ old →
  objs (db_limit_orders d) !! order = Some o →
  (∀ i, i ∈ old → ∃ oo, objs (db_limit_orders d) !! i = Some oo ∧
     crosses (lim_sell_price o) (lim_sell_price oo)) →
  match_loop order old d = Ok d' →
  ∃ k, (∀ i, i ∈ take k old → objs (db_limit_orders d') !! i = None) ∧
    ∀ j, j ≠ order → j ∉ take (S k) old → objs (db_limit_orders d') !! j = objs (db_limit_orders d) !! j.
Proof.
  revert d o. induction old as [|i old IH]; intros d o Ha Hm Hnd Hni Ho Hold H.
  { injection H as <-. exists 0%nat. split; [set_solver|done]. }
  apply NoDup_cons in Hnd as [Hi Hnd]. destruct (Hold i) as (oo & Hoo & Hx); [set_solver|].
  cbn [match_loop] in H. unfold limit_ref in H. rewrite Hoo in H. cbn [of_option rbind] in H.
  apply rbind_ok in H as ([[fu fc] d1] & H1 & H). simpl in H.
  eapply match_limit_ok in H1 as (M1 & _ & g1 & g2 & _ & _ & _ & _ & _ & T1);
    [|set_solver|done|done|done|done|done].
  destruct (M1 Ha Hm) as (Ha1 & Hm1 & _).
  assert (∀ j, j ≠ order → j ≠ i → objs (db_limit_orders d1) !! j = objs (db_limit_orders d) !! j) as Hfr.
  { intros j Hj1 Hj2. by rewrite T1, !decide_False. }
  destruct (negb fu && fc) eqn:Eg.
  2:{ injection H as <-. exists 0%nat. split; [set_solver|]. intros j Hj Hn. apply Hfr; [done|].
      simpl in Hn. set_solver. }
  apply andb_true_iff in Eg as [->%negb_true_iff ->].
  assert (objs (db_limit_orders d1) !! i = None) as Hgone.
  { rewrite T1, decide_False, decide_True; [done|done|set_solver]. }
  apply (IH d1 (reduced o g2)) in H as (k & Hk1 & Hk2); [|done|done|done|set_solver| |].
  - exists (S k). split.
    + intros j. simpl. rewrite elem_of_cons. intros [->|Hj]; [|by apply Hk1].
      rewrite Hk2; [done|set_solver|]. intros Hin. apply Hi. apply elem_of_take in Hin as (n & Hn & _).
      by eapply list_elem_of_lookup_2.
    + intros j Hj Hn. change (take (S (S k)) (i :: old)) with (i :: take (S k) old) in Hn.
      rewrite Hk2, Hfr; set_solver.
  - by rewrite T1, decide_True.
  - intros j Hj. destruct (Hold j) as (oj & Hoj & Hxj); [set_solver|]. exists oj. split; [|done].
    rewrite Hfr; set_solver.
Qed.

Lemma StronglySorted_lookup_lt {A} (R : A → A → Prop) l a b x y :
  StronglySorted R l → l !! a = Some x → l !! b = Some y → (a < b)%nat → R x y.
Proof.
  intros Hs Ha Hb Hlt.
  apply list_elem_of_split_length in Ha as (l1 & l2 & -> & ->).
  rewrite lookup_app_r in Hb by lia.
  destruct (b - length l1)%nat as [|n] eqn:E; [lia|]. simpl in Hb.
  apply list_elem_of_split_length in Hb as (l3 & l4 & -> & _). by eapply StronglySorted_split.
Qed.

(** The entries of the book at two positions of a range. *)
Lemma limit_range_lookup d hi lo a i :
  limit_range d hi lo !! a = Some i →
  ∃ o, objs (db_limit_orders d) !! i = Some o ∧
    List.filter (λ kv, negb (price_gtb (lim_sell_price kv.2) hi) && negb (price_gtb lo (lim_sell_price kv.2)))
      (in_order limit_before (objs (db_limit_orders d))) !! a = Some (i, o).
Proof.
  unfold limit_range, visit. intros ([k o] & -> & Ho)%(list_lookup_fmap_Some fst).
  exists o. split; [|done].
  apply list_elem_of_lookup_2, list_elem_of_In, filter_In in Ho as [Ho _].
  apply list_elem_of_In in Ho. rewrite in_order_perm in Ho. by apply elem_of_map_to_list in Ho.
Qed.

Lemma limit_range_before d hi lo a b i j oi oj :
  market_wf d → limit_range d hi lo !! a = Some i → limit_range d hi lo !! b = Some j →
  objs (db_limit_orders d) !! i = Some oi → objs (db_limit_orders d) !! j = Some oj →
  limit_before (i, oi) (j, oj) = true → (a < b)%nat.
Proof.
  intros (Hl & _) (oi' & Hoi' & La)%limit_range_lookup (oj' & Hoj' & Lb)%limit_range_lookup Hoi Hoj Hbef.
  assert (oi' = oi) as -> by congruence. assert (oj' = oj) as -> by congruence.
  assert (∀ k o, objs (db_limit_orders d) !! k = Some o → entry_pos (k, o)) as HP.
  { intros k o Ho. by apply Hl in Ho as (_ & ? & _). }
  pose proof (HP _ _ Hoi) as Pi. pose proof (HP _ _ Hoj) as Pj.
  apply Nat.nle_gt. intros Hle. apply Nat.lt_eq_cases in Hle as [Hlt| ->].
  - assert (StronglySorted (not_after limit_before) (in_order limit_before (objs (db_limit_orders d)))) as Hs.
    { apply (in_order_sorted _ entry_pos); [apply limit_before_asym|apply limit_before_trans|exact HP]. }
    eapply StronglySorted_lookup_lt in Hlt; [|by apply StronglySorted_filter|exact Lb|exact La].
    unfold not_after in Hlt. congruence.
  - assert ((i, oi) = (j, oj)) as E by congruence. rewrite E in Hbef.
    pose proof (limit_before_asym _ _ Pj Pj Hbef). congruence.
Qed.

(** C12.  Price-time priority.  A new order takes the orders it crosses best
    price first, and at equal prices the oldest first: whenever the matching
    loop has touched an order [j] of the book, every crossing order [i] that
    stands before it in the book is gone. *)
Theorem price_time_priority d order o hi d' i oi j oj :
  assets_wf d → market_wf d → objs (db_limit_orders d) !! order = Some o →
  price_max (asset_id (quote (lim_sell_price o))) (asset_id (base (lim_sell_price o))) = Ok hi →
  match_loop order (limit_range d hi (price_inv (lim_sell_price o))) d = Ok d' →
  objs (db_limit_orders d) !! i = Some oi → objs (db_limit_orders d) !! j = Some oj →
  j ≠ order → crosses (lim_sell_price o) (lim_sell_price oi) →
  amount (base (lim_sell_price oi)) <= GRAPHENE_MAX_SHARE_SUPPLY →
  limit_before (i, oi) (j, oj) = true →
  objs (db_limit_orders d') !! j ≠ Some oj → objs (db_limit_orders d') !! i = None.
Proof.
  intros Ha Hm Ho Hhi H Hoi Hoj Hj Hx Hmax Hbef Htouched.
  pose proof Hm as (Hl & _). destruct (Hl _ _ Ho) as (_ & Hpo & Hne & _).
  eapply crosses_in_range in Hx as Hin; [|done..].
  eapply match_loop_prefix in H as (k & Hgone & Hsame); [|done|done|apply NoDup_visit| |exact Ho|].
  2:{ intros Hin'. eapply limit_range_crosses in Hin' as (o' & Ho' & E1 & _); [|done..]. congruence. }
  2:{ intros q Hq. eapply limit_range_crosses in Hq; done. }
  apply Hgone. set (l := limit_range _ _ _) in *.
  destruct (decide (j ∈ take (S k) l)) as [Hjin|Hjn]; [|by rewrite Hsame in Htouched].
  apply elem_of_take in Hjin as (b & Hb & Hbk). apply list_elem_of_lookup_1 in Hin as [a Hla].
  eapply limit_range_before in Hbef; [|done|exact Hla|exact Hb|done|done].
  apply elem_of_take. exists a. split; [done|lia].
Qed.
End book.
