(* ===== verification/PriceFeeds.v ===== *)
(** * Price feeds ([asset_object.cpp])

    The median of the feeds published for a market-issued asset
    ([update_median_feeds]) and the volume of forced settlements. *)

From stdpp Require Import gmap list.
From Stdlib Require Import ZArith Lia.
From S2P Require Import Prelude Fc Config Asset Objects Database Market.

Local Open Scope Z_scope.

(** [std::nth_element]: a permutation of the list, with an element at position
    [n] that none before it exceeds and none behind it falls below. *)
Class NthElement := std_nth_element : ∀ {A}, (A → A → bool) → nat → list A → list A.

(** What the standard promises for a strict weak order on the elements. *)
Definition weak_order {A} (less : A → A → bool) (l : list A) : Prop :=
  (∀ x y, x ∈ l → y ∈ l → less x y = true → less y x = false) ∧
  (∀ x y z, x ∈ l → y ∈ l → z ∈ l → less x z = true → less x y = true ∨ less y z = true).

Class NthElementLaws (NE : NthElement) : Prop := {
  nth_element_perm : ∀ A (less : A → A → bool) n l, std_nth_element less n l ≡ₚ l;
  nth_element_splits : ∀ A (less : A → A → bool) n l x,
    weak_order less l → std_nth_element less n l !! n = Some x →
    (∀ i y, (i < n)%nat → std_nth_element less n l !! i = Some y → less x y = false) ∧
    (∀ i y, (n < i)%nat → std_nth_element less n l !! i = Some y → less y x = false)
}.

(** [price_feed()]. *)
Definition default_feed : price_feed :=
  mkFeed default_price default_price GRAPHENE_DEFAULT_MAINTENANCE_COLLATERAL_RATIO
    GRAPHENE_DEFAULT_MAX_SHORT_SQUEEZE_RATIO.

(** [asset_bitasset_data_object()] with the given options. *)
Definition new_bitasset (o : bitasset_options) (prediction_market : bool) : asset_bitasset_data_object :=
  mkBitasset o ∅ default_feed 0 prediction_market 0 default_price 0.

Section operations.
Context {FC : FcArith} {BA : BoostArith} {NE : NthElement}.

(** A feed that counts: published, and not older than the lifetime. *)
Definition feed_is_current (o : bitasset_options) (now : Z) (f : Z * price_feed) : bool :=
  (now - f.1 <? bo_feed_lifetime_sec o) && negb (f.1 =? 0).

(** The current feeds in the order of their publishers. *)
Definition current_feeds (b : asset_bitasset_data_object) (now : Z) : list (Z * price_feed) :=
  List.filter (feed_is_current (bd_options b) now) (map snd (in_order (λ x y, x.1 <? y.1) (bd_feeds b))).

(** [CALCULATE_MEDIAN_VALUE]: the reordered feeds and the one in the middle. *)
Definition median_by (less : price_feed → price_feed → bool) (fs : list price_feed)
    : list price_feed * price_feed :=
  let n := (length fs / 2)%nat in
  let fs := std_nth_element less n fs in (fs, default default_feed (fs !! n)).

Definition less_settlement (a b : price_feed) : bool := price_ltb (settlement_price a) (settlement_price b).
Definition less_mcr (a b : price_feed) : bool :=
  maintenance_collateral_ratio a <? maintenance_collateral_ratio b.
Definition less_mssr (a b : price_feed) : bool :=
  maximum_short_squeeze_ratio a <? maximum_short_squeeze_ratio b.
Definition less_cer (a b : price_feed) : bool := price_ltb (core_exchange_rate a) (core_exchange_rate b).

Definition median_feed (fs : list price_feed) : price_feed :=
  let (fs, sp) := median_by less_settlement fs in
  let (fs, mcr) := median_by less_mcr fs in
  let (fs, mssr) := median_by less_mssr fs in
  let (fs, cer) := median_by less_cer fs in
  mkFeed (settlement_price sp) (core_exchange_rate cer) (maintenance_collateral_ratio mcr)
    (maximum_short_squeeze_ratio mssr).

Definition update_median_feeds (current_time : Z) (b : asset_bitasset_data_object)
    : asset_bitasset_data_object :=
  let current := current_feeds b current_time in
  let oldest := foldl (λ t f, Z.min t f.1) current_time current in
  let fs := map snd current in
  if Z.of_nat (length fs) <? bo_minimum_feeds (bd_options b) then
    set_feed_publication_time (λ _, current_time) (set_current_feed (λ _, default_feed) b)
  else
    let feed := match fs with [f] => f | _ => median_feed fs end in
    set_feed_publication_time (λ _, oldest) (set_current_feed (λ _, feed) b).

Definition max_force_settlement_volume (b : asset_bitasset_data_object) (current_supply : Z) : result Z :=
  let part := bo_maximum_force_settlement_volume (bd_options b) in
  if part =? 0 then Ok 0
  else if part =? GRAPHENE_100_PERCENT then safe_add current_supply (bd_force_settled_volume b)
  else
    let volume := u128_of_i64 (wrap_i64 (current_supply + bd_force_settled_volume b)) in
    let* q := u128_div (u128_mul volume part) GRAPHENE_100_PERCENT in
    let* v := u128_to_uint64 q in Ok (wrap_i64 v).

(** [operator ==] of feeds compares all but the core exchange rate. *)
Definition price_feed_eqb (a b : price_feed) : bool :=
  price_eqb (settlement_price a) (settlement_price b)
  && (maintenance_collateral_ratio a =? maintenance_collateral_ratio b)
  && (maximum_short_squeeze_ratio a =? maximum_short_squeeze_ratio b).
End operations.
