(* ===== verification/PriceFeedProps.v ===== *)
(** * Price feeds: the median

    The current feed of a market-issued asset is the median of the feeds in
    use, each of its four values on its own; a reference implementation of
    [std::nth_element] shows that what is assumed of it can be met. *)

From stdpp Require Import gmap list.
From Stdlib Require Import ZArith Lia Sorting.Sorted.
From S2P Require Import Prelude Fc Config Asset Objects Database Market PriceFeeds.

Local Open Scope Z_scope.

(** ** Weak orders *)

Lemma weak_order_irrefl {A} (less : A → A → bool) l x : weak_order less l → x ∈ l → less x x = false.
Proof. intros [Ha _] Hx. destruct (less x x) eqn:E; [|done]. by rewrite (Ha _ _ Hx Hx E) in E. Qed.

Lemma weak_order_subset {A} (less : A → A → bool) (l l' : list A) :
  (∀ x, x ∈ l' → x ∈ l) → weak_order less l → weak_order less l'.
Proof. intros Hs [Ha Ht]. split; [intros; apply Ha|intros; eapply Ht]; eauto. Qed.

Lemma weak_order_trans {A} (less : A → A → bool) (l : list A) :
  weak_order less l →
  ∀ x y z, x ∈ l → y ∈ l → z ∈ l → less x y = true → less y z = true → less x z = true.
Proof.
  intros [Ha Ht] x y z Hx Hy Hz Hxy Hyz. destruct (Ht x z y Hx Hz Hy Hxy) as [|H]; [done|].
  by rewrite (Ha y z Hy Hz Hyz) in H.
Qed.

(** An order by a key with values in [Z]. *)
Lemma weak_order_key {A} (k : A → Z) l : weak_order (λ x y, k x <? k y) l.
Proof. split; intros; rewrite ?Z.ltb_lt, ?Z.ltb_ge in *; lia. Qed.

(** Prices in one pair of currencies. *)
Lemma weak_order_price {BA : BoostArith} {BAL : BoostArithLaws BA} {A} (k : A → price) bi qi l :
  (∀ x, x ∈ l → price_pos (k x) ∧ asset_id (base (k x)) = bi ∧ asset_id (quote (k x)) = qi) →
  weak_order (λ x y, price_ltb (k x) (k y)) l.
Proof.
  intros Hk. assert (∀ x y, x ∈ l → y ∈ l → price_ltb (k x) (k y) = true ↔
    amount (quote (k y)) * amount (base (k x)) < amount (quote (k x)) * amount (base (k y))) as Hlt.
  { intros x y (Px & Bx & Qx)%Hk (Py & By & Qy)%Hk. rewrite price_ltb_cross by done. lia. }
  split.
  - intros x y Hx Hy H. apply not_true_iff_false. rewrite Hlt in * by done. lia.
  - intros x y z Hx Hy Hz H. rewrite (Hlt x z) in H by done. rewrite (Hlt x y), (Hlt y z) by done.
    destruct (Hk _ Hx) as ([[? _] [? _]] & _), (Hk _ Hy) as ([[? _] [? _]] & _),
      (Hk _ Hz) as ([[? _] [? _]] & _).
    destruct (Z.lt_ge_cases (amount (quote (k y)) * amount (base (k x)))
                            (amount (quote (k x)) * amount (base (k y)))) as [|G1]; [by left|].
    destruct (Z.lt_ge_cases (amount (quote (k z)) * amount (base (k y)))
                            (amount (quote (k y)) * amount (base (k z)))) as [|G2]; [by right|].
    exfalso. revert H. apply Z.le_ngt.
    apply (Z.mul_le_mono_pos_r _ _ (amount (base (k y)) * amount (quote (k y)))); [nia|].
    assert (amount (quote (k x)) * amount (base (k y)) * (amount (quote (k y)) * amount (base (k z)))
      <= amount (quote (k y)) * amount (base (k x)) * (amount (quote (k z)) * amount (base (k y)))) by nia.
    nia.
Qed.

(** ** The median of a list *)

(** [m] is in the middle of [l]: at most half of [l] is below it, and less
    than half above. *)
Definition in_the_middle {A} (less : A → A → bool) (l : list A) (m : A) : Prop :=
  m ∈ l ∧ (length (List.filter (λ x, less x m) l) <= length l / 2)%nat ∧
  (length (List.filter (λ x, less m x) l) < length l - length l / 2)%nat.

Lemma filter_none {A} (f : A → bool) l : (∀ x, x ∈ l → f x = false) → List.filter f l = [].
Proof.
  induction l as [|x l IH]; intros H; simpl; [done|]. rewrite H by set_solver. apply IH. set_solver.
Qed.

Lemma filter_le {A} (f : A → bool) l : (length (List.filter f l) <= length l)%nat.
Proof. apply List.filter_length_le. Qed.

Lemma filter_perm_length {A} (f : A → bool) l l' :
  l ≡ₚ l' → length (List.filter f l) = length (List.filter f l').
Proof. induction 1; simpl; repeat case_match; simpl; lia. Qed.

Section median.
Context {NE : NthElement} {NEL : NthElementLaws NE}.

Lemma nth_element_middle {A} (less : A → A → bool) l x :
  weak_order less l → std_nth_element less (length l / 2) l !! (length l / 2)%nat = Some x →
  in_the_middle less l x.
Proof.
  intros Hw Hx. set (n := (length l / 2)%nat) in *. set (l' := std_nth_element less n l) in *.
  assert (l' ≡ₚ l) as Hp by apply nth_element_perm.
  destruct (nth_element_splits _ _ _ _ _ Hw Hx) as [Hlo Hhi].
  assert (x ∈ l) as Hin by (rewrite <- Hp; by eapply list_elem_of_lookup_2).
  pose proof (lookup_lt_Some _ _ _ Hx) as Hn.
  split_and!; [done| |].
  - rewrite <- (filter_perm_length _ _ _ Hp), <- (take_drop_middle _ _ _ Hx), List.filter_app. cbn [List.filter].
    rewrite (weak_order_irrefl less l) by done. rewrite length_app, (filter_none _ (drop _ _)), Nat.add_0_r.
    { etrans; [apply filter_le|]. rewrite length_take. subst n. lia. }
    intros y (i & Hi)%list_elem_of_lookup. rewrite lookup_drop in Hi. apply (Hhi (S n + i)%nat); [lia|done].
  - rewrite <- (Permutation_length Hp), <- (filter_perm_length _ _ _ Hp), <- (take_drop_middle _ _ _ Hx) at 1.
    rewrite List.filter_app. cbn [List.filter]. rewrite (weak_order_irrefl less l) by done.
    rewrite length_app, (filter_none _ (take _ _)).
    { cbn [app length]. eapply Nat.le_lt_trans; [apply filter_le|]. rewrite length_drop. subst n. lia. }
    intros y (i & Hi)%list_elem_of_lookup. apply lookup_take_Some in Hi as [Hi ?]. by apply (Hlo i).
Qed.

Lemma median_by_ok less fs fs' m :
  fs ≠ [] → weak_order less fs → median_by less fs = (fs', m) → fs' ≡ₚ fs ∧ in_the_middle less fs m.
Proof.
  intros Hne Hw [= <- <-]. split; [apply nth_element_perm|]. apply nth_element_middle; [done|].
  destruct (lookup_lt_is_Some_2 (std_nth_element less (length fs / 2) fs) (length fs / 2)) as [x Hx].
  { rewrite (Permutation_length (nth_element_perm _ _ _ _)). apply Nat.div_lt; [|lia].
    destruct fs; simpl; [done|lia]. }
  rewrite Hx. change (Some x = Some (default default_feed (std_nth_element less (length fs / 2) fs !! (length fs / 2)%nat))).
  by rewrite Hx.
Qed.

Lemma in_the_middle_perm {A} (less : A → A → bool) l l' m :
  l ≡ₚ l' → in_the_middle less l m → in_the_middle less l' m.
Proof.
  intros Hp. unfold in_the_middle. rewrite !(filter_perm_length _ _ _ Hp), (Permutation_length Hp). by rewrite Hp.
Qed.
End median.

(** Sorting meets what is promised of [std::nth_element]. *)
#[export] Instance nth_reference : NthElement := λ A less _ l, foldr (insert_before less) [] l.

#[export] Instance nth_reference_laws : NthElementLaws nth_reference.
Proof.
  split; intros; unfold std_nth_element, nth_reference in *; [apply sort_perm|].
  match goal with H : weak_order _ _ |- _ => pose proof (weak_order_trans _ _ H) as Ht; destruct H as [Ha _] end.
  assert (StronglySorted (not_after less) (foldr (insert_before less) [] l)) as Hs.
  { apply sort_sorted with (λ x, x ∈ l); [exact Ha|exact Ht|by rewrite Forall_forall]. }
  split; intros i y Hi Hy; eapply (strongly_sorted_lookup _ _ _ _ _ _ Hs); eauto.
Qed.

Section theorems.
Context {FC : FcArith} {BA : BoostArith} {BAL : BoostArithLaws BA} {NE : NthElement} {NEL : NthElementLaws NE}.

(** Feeds for [aid] backed by [bk], as [asset_publish_feed] accepts them. *)
Definition feeds_for (aid bk : Z) (fs : list price_feed) : Prop :=
  ∀ f, f ∈ fs →
    (price_pos (settlement_price f) ∧ asset_id (base (settlement_price f)) = aid ∧
     asset_id (quote (settlement_price f)) = bk) ∧
    (price_pos (core_exchange_rate f) ∧ asset_id (base (core_exchange_rate f)) = aid ∧
     asset_id (quote (core_exchange_rate f)) = core_id).

(** Every value of [f] is in the middle of those of [fs]. *)
Definition is_median_feed (fs : list price_feed) (f : price_feed) : Prop :=
  (∃ x, in_the_middle less_settlement fs x ∧ settlement_price f = settlement_price x) ∧
  (∃ x, in_the_middle less_mcr fs x ∧ maintenance_collateral_ratio f = maintenance_collateral_ratio x) ∧
  (∃ x, in_the_middle less_mssr fs x ∧ maximum_short_squeeze_ratio f = maximum_short_squeeze_ratio x) ∧
  (∃ x, in_the_middle less_cer fs x ∧ core_exchange_rate f = core_exchange_rate x).

Lemma median_feed_ok aid bk fs : fs ≠ [] → feeds_for aid bk fs → is_median_feed fs (median_feed fs).
Proof.
  intros Hne Hf. unfold median_feed.
  assert (∀ l, l ≡ₚ fs → l ≠ []) as Hn.
  { intros l Hl ->. by apply Hne, Permutation_nil. }
  destruct (median_by less_settlement fs) as [l1 m1] eqn:E1.
  apply median_by_ok in E1 as [P1 M1]; [|done|apply (weak_order_price _ aid bk); intros x Hx; by apply Hf].
  destruct (median_by less_mcr l1) as [l2 m2] eqn:E2.
  apply median_by_ok in E2 as [P2 M2]; [|by apply Hn|apply weak_order_key]. rewrite P1 in P2.
  destruct (median_by less_mssr l2) as [l3 m3] eqn:E3.
  apply median_by_ok in E3 as [P3 M3]; [|by apply Hn|apply weak_order_key]. rewrite P2 in P3.
  destruct (median_by less_cer l3) as [l4 m4] eqn:E4.
  apply median_by_ok in E4 as [_ M4]; [|by apply Hn|apply (weak_order_price _ aid core_id); intros x Hx;
    apply Hf; by rewrite <- P3].
  split_and!; [exists m1|exists m2|exists m3|exists m4]; (split; [|done]); [done|..];
    (eapply in_the_middle_perm; [|eassumption]; done).
Qed.

(** A single feed is its own median. *)
Lemma singleton_median (f : price_feed) :
  feeds_for (asset_id (base (settlement_price f))) (asset_id (quote (settlement_price f))) [f] →
  is_median_feed [f] f.
Proof.
  intros Hf. assert (∀ less : price_feed → price_feed → bool, weak_order less [f] → in_the_middle less [f] f) as H.
  { intros less Hw. assert (less f f = false) as E by (eapply weak_order_irrefl; [done|set_solver]).
    split_and!; [set_solver|..]; simpl; rewrite E; simpl; lia. }
  split_and!; exists f; (split; [|done]); apply H; try apply weak_order_key.
  - eapply (weak_order_price settlement_price). intros x Hx. by apply Hf.
  - eapply (weak_order_price core_exchange_rate). intros x Hx. by apply Hf.
Qed.

Lemma oldest_ok (l : list (Z * price_feed)) t :
  let o := foldl (λ t f, Z.min t f.1) t l in
  o <= t ∧ (∀ f, f ∈ l → o <= f.1) ∧ (o = t ∨ ∃ f, f ∈ l ∧ o = f.1).
Proof.
  revert t. induction l as [|f l IH]; intros t; simpl; [split_and!; [lia|set_solver|by left]|].
  destruct (IH (Z.min t f.1)) as (H1 & H2 & H3). split_and!; [lia| |].
  - intros g [->|Hg]%elem_of_cons; [lia|by apply H2].
  - destruct H3 as [->|(g & Hg & ->)]; [|right; exists g; split; [set_solver|done]].
    destruct (Z.min_spec t f.1) as [[_ ->]|[_ ->]]; [by left|right; exists f; split; [set_solver|done]].
Qed.

(** C18.  The current feed of a market-issued asset is the median of the feeds
    in use.  When fewer feeds than the minimum are neither missing nor
    older than the lifetime, the asset has no feed from now on; otherwise
    each of the four values of its feed is one of the published ones, with at
    most half of the feeds below it and less than half above it, whatever
    [std::nth_element] does with the rest, and the feed is as old as the
    oldest one in use.  Nothing else of the asset changes. *)
Theorem update_median_feeds_correct aid bk now b :
  let used := current_feeds b now in let fs := map snd used in
  feeds_for aid bk fs → 0 < bo_minimum_feeds (bd_options b) →
  let b' := update_median_feeds now b in
  bd_options b' = bd_options b ∧ bd_feeds b' = bd_feeds b ∧
  bd_settlement_price b' = bd_settlement_price b ∧ bd_settlement_fund b' = bd_settlement_fund b ∧
  if Z.of_nat (length fs) <? bo_minimum_feeds (bd_options b)
  then bd_current_feed b' = default_feed ∧ bd_current_feed_publication_time b' = now
  else is_median_feed fs (bd_current_feed b') ∧
    bd_current_feed_publication_time b' <= now ∧
    (∀ f, f ∈ used → bd_current_feed_publication_time b' <= f.1) ∧
    (bd_current_feed_publication_time b' = now ∨ ∃ f, f ∈ used ∧ bd_current_feed_publication_time b' = f.1).
Proof.
  intros used fs Hf Hmin b'. subst b'. unfold update_median_feeds. fold used. fold fs.
  pose proof (oldest_ok used now) as Ho. cbv zeta in Ho.
  destruct (Z.ltb_spec (Z.of_nat (length fs)) (bo_minimum_feeds (bd_options b))) as [Hlt|Hge]; [done|].
  split_and!; try done; try apply Ho.
  clearbody fs. destruct fs as [|f [|g l]]; simpl in *; [lia| |].
  - apply singleton_median. destruct (Hf f) as ((?&Eb&Eq)&?); [set_solver|]. by rewrite Eb, Eq.
  - by eapply median_feed_ok.
Qed.
End theorems.

(** ** A run: three feeds, one of them outdated *)

#[local] Existing Instance fc_reference.
#[local] Existing Instance boost_reference.
#[local] Existing Instance boost_reference_laws.

Definition feed_at (n : Z) : price_feed :=
  mkFeed (mkPrice (mkAsset n 2) (mkAsset 1 core_id)) (mkPrice (mkAsset n 2) (mkAsset 1 core_id)) 1750 1500.
Definition fed_dollar : asset_bitasset_data_object :=
  mkBitasset (mkBitassetOptions 86400 1 86400 0 2000 core_id)
    (list_to_map [(10, (1000000, feed_at 4)); (11, (1001000, feed_at 2)); (12, (500, feed_at 9));
                  (13, (1002000, feed_at 3))])
    default_feed 0 false 0 default_price 0.

Lemma update_median_feeds_correct_witness :
  bd_current_feed (update_median_feeds 1003000 fed_dollar) = feed_at 3 ∧
  is_median_feed [feed_at 4; feed_at 2; feed_at 3] (feed_at 3).
Proof.
  pose proof (update_median_feeds_correct 2 core_id 1003000 fed_dollar) as H. cbv zeta in H.
  destruct H as (_ & _ & _ & _ & H).
  - assert (map snd (current_feeds fed_dollar 1003000) = [feed_at 4; feed_at 2; feed_at 3]) as ->
      by (vm_compute; reflexivity).
    intros f Hf. rewrite !elem_of_cons, elem_of_nil in Hf.
    destruct Hf as [->|[->|[->|[]]]]; vm_compute; intuition congruence.
  - reflexivity.
  - split; [vm_compute; reflexivity|].
    replace [feed_at 4; feed_at 2; feed_at 3] with (map snd (current_feeds fed_dollar 1003000))
      by (vm_compute; reflexivity).
    replace (feed_at 3) with (bd_current_feed (update_median_feeds 1003000 fed_dollar))
      by (vm_compute; reflexivity).
    apply H.
Defined.
