(* ===== verification/MarketEval.v ===== *)
(** * Market operations ([protocol/market.cpp], [market_evaluator.cpp])

    Limit orders, margin positions and collateral bids as operations, run
    with their fees, and the cancellation of expired limit orders
    ([db_update.cpp], [clear_expired_orders]). *)

From stdpp Require Import gmap list.
From Stdlib Require Import ZArith Lia.
From S2P Require Import Prelude Fc Config Asset VestingBalance Objects Database Sample Balances Fees Listing Market MarketProps MarketSteps.

Local Open Scope Z_scope.

(** ** Operations *)

Record limit_order_create_operation := mkLimitCreate {
  lc_fee : asset;
  lc_seller : Z;
  lc_amount_to_sell : asset;
  lc_min_to_receive : asset;
  lc_expiration : Z;
  lc_fill_or_kill : bool
}.

Record limit_order_cancel_operation := mkLimitCancel {
  lx_fee : asset;
  lx_order : Z;
  lx_fee_paying_account : Z
}.

Record call_order_update_operation := mkCallUpdate {
  cu_fee : asset;
  cu_funding_account : Z;
  cu_delta_collateral : asset;
  cu_delta_debt : asset
}.

Record bid_collateral_operation := mkBidCollateral {
  bc_fee : asset;
  bc_bidder : Z;
  bc_additional_collateral : asset;
  bc_debt_covered : asset
}.

Section operations.
Context {FC : FcArith} {BA : BoostArith}.

Definition limit_order_create_validate (op : limit_order_create_operation) : result unit :=
  FC_ASSERT (negb (asset_id (lc_amount_to_sell op) =? asset_id (lc_min_to_receive op))) ;;
  FC_ASSERT (0 <=? amount (lc_fee op)) ;;
  FC_ASSERT (0 <? amount (lc_amount_to_sell op)) ;;
  require (0 <? amount (lc_min_to_receive op)) assert_exception.

Definition limit_order_cancel_validate (op : limit_order_cancel_operation) : result unit :=
  require (0 <=? amount (lx_fee op)) assert_exception.

Definition call_order_update_validate (op : call_order_update_operation) : result unit :=
  FC_ASSERT (0 <=? amount (cu_fee op)) ;;
  FC_ASSERT (negb (asset_id (cu_delta_collateral op) =? asset_id (cu_delta_debt op))) ;;
  require (negb (amount (cu_delta_collateral op) =? 0) || negb (amount (cu_delta_debt op) =? 0))
    assert_exception.

Definition bid_collateral_validate (op : bid_collateral_operation) : result unit :=
  FC_ASSERT (0 <=? amount (bc_fee op)) ;;
  require ((amount (bc_debt_covered op) =? 0)
           || (0 <? amount (bc_debt_covered op)) && (0 <? amount (bc_additional_collateral op)))
    assert_exception.

(** ** Limit orders *)

Definition limit_order_create_do_evaluate (d : database) (op : limit_order_create_operation)
    : result unit :=
  FC_ASSERT (head_block_time d <=? lc_expiration op) ;;
  let* seller := get_account d (lc_seller op) in
  let sell := asset_id (lc_amount_to_sell op) in
  let receive := asset_id (lc_min_to_receive op) in
  let* sell_asset := get_asset_object d sell in
  let* receive_asset := get_asset_object d receive in
  FC_ASSERT (bool_decide (as_whitelist_markets sell_asset = ∅)
             || bool_decide (receive ∈ as_whitelist_markets sell_asset)) ;;
  FC_ASSERT (bool_decide (as_blacklist_markets sell_asset = ∅)
             || bool_decide (receive ∉ as_blacklist_markets sell_asset)) ;;
  FC_ASSERT (is_authorized_asset d seller sell sell_asset) ;;
  FC_ASSERT (is_authorized_asset d seller receive receive_asset) ;;
  let* enough := asset_geb (get_balance d (lc_seller op) sell) (lc_amount_to_sell op) in
  require enough assert_exception.

(** [pay_fee] is overridden: the fee stays with the order until it is filled. *)
Definition limit_order_create_pay_fee (skip_fee : bool) (g : generic_evaluator) (d : database)
    : result (Z * database) :=
  if head_block_time d <=? HARDFORK_445_TIME then
    let* d := pay_fee skip_fee g d in Ok (0, d)
  else Ok (core_fee_paid g, d).

Definition limit_order_create_do_apply (d : database) (op : limit_order_create_operation)
    (deferred_fee : Z) : result (Z * database) :=
  let* seller := get_account d (lc_seller op) in
  let* d := modify_statistics d (ao_statistics seller)
              (λ s, if asset_id (lc_amount_to_sell op) =? core_id
                    then let* t := safe_add (st_total_core_in_orders s) (amount (lc_amount_to_sell op)) in
                         Ok (set_total_core_in_orders (λ _, t) s)
                    else Ok s) in
  let* n := asset_neg (lc_amount_to_sell op) in
  let* d := adjust_balance d (lc_seller op) n in
  let* p := asset_div (lc_amount_to_sell op) (lc_min_to_receive op) in
  let* (id, t) := index_create no_clash (db_limit_orders d)
                    (mkLimit (lc_expiration op) (lc_seller op) (amount (lc_amount_to_sell op)) p
                       deferred_fee) in
  let* (filled, d) := apply_order (set_limit_orders (λ _, t) d) id true in
  FC_ASSERT (negb (lc_fill_or_kill op) || filled) ;;
  Ok (id, d).

(** [evaluator::evaluate] and [evaluator::apply] with the overridden [pay_fee]. *)
Definition limit_order_create_start (skip_fee skip_check : bool) (required_fee : result Z)
    (d : database) (op : limit_order_create_operation) : result (Z * database) :=
  let* g := prepare_fee d (lc_seller op) (lc_fee op) in
  let* _ :=
    if skip_check then Ok tt
    else let* r := required_fee in require (r <=? core_fee_paid g) insufficient_fee in
  let* _ := limit_order_create_do_evaluate d op in
  let* d := convert_fee skip_fee g d in
  let* (deferred_fee, d) := limit_order_create_pay_fee skip_fee g d in
  let* (id, d) := limit_order_create_do_apply d op deferred_fee in
  let* n := asset_neg (fee_from_account g) in
  let* d := adjust_balance d (lc_seller op) n in
  Ok (id, d).

Definition limit_order_cancel_do_evaluate (d : database) (op : limit_order_cancel_operation)
    : result unit :=
  let* o := index_get (db_limit_orders d) (lx_order op) in
  require (lim_seller o =? lx_fee_paying_account op) assert_exception.

Definition limit_order_cancel_do_apply (d : database) (op : limit_order_cancel_operation)
    : result database :=
  let* o := limit_ref d (lx_order op) in
  let base_asset := asset_id (base (lim_sell_price o)) in
  let quote_asset := asset_id (quote (lim_sell_price o)) in
  let* d := cancel_limit_order d (lx_order op) in
  let* (_, d) := check_call_orders d base_asset true in
  let* (_, d) := check_call_orders d quote_asset true in
  Ok d.

#[export] Instance limit_order_cancel_evaluator : Evaluator limit_order_cancel_operation := {
  ev_state := unit;
  op_fee_payer := lx_fee_paying_account;
  op_fee := lx_fee;
  do_evaluate := limit_order_cancel_do_evaluate;
  do_apply := λ d op _, limit_order_cancel_do_apply d op
}.

(** The loop over expired limit orders; [cancel_fee] is what the schedule
    asks for a cancellation, capped by the fee the order still holds. *)
Fixpoint clear_expired_limit_orders (fuel : nat) (cancel_fee : result asset) (d : database)
    : result database :=
  match first_by lim_expiration (objs (db_limit_orders d)) with
  | None => Ok d
  | Some (id, o) =>
      if lim_expiration o <=? head_block_time d then
        match fuel with
        | O => Throw out_of_fuel
        | S fuel' =>
            let* f := cancel_fee in
            let fee := if lim_deferred_fee o <? amount f then core_asset (lim_deferred_fee o) else f in
            let* d := start_evaluate false true (Ok 0) d (mkLimitCancel fee id (lim_seller o)) in
            clear_expired_limit_orders fuel' cancel_fee d
        end
      else Ok d
  end.

(** ** Margin positions *)

Definition find_call (d : database) (borrower debt : Z) : option (Z * call_order_object) :=
  head (filter (λ kc, call_borrower kc.2 = borrower ∧ debt_type kc.2 = debt)
          (map_to_list (objs (db_call_orders d)))).

Definition call_order_update_do_evaluate (d : database) (op : call_order_update_operation)
    : result unit :=
  let* _ := get_account d (cu_funding_account op) in
  let* debt_asset := get_asset_object d (asset_id (cu_delta_debt op)) in
  FC_ASSERT (is_market_issued debt_asset) ;;
  let* b := get_bitasset d debt_asset in
  FC_ASSERT (negb (has_settlement b)) ;;
  FC_ASSERT (asset_id (cu_delta_collateral op) =? backing b) ;;
  let* _ :=
    if bd_is_prediction_market b then
      require (amount (cu_delta_collateral op) =? amount (cu_delta_debt op)) assert_exception
    else require (negb (price_is_null (settlement_price (bd_current_feed b)))) insufficient_feeds in
  let* _ :=
    if amount (cu_delta_debt op) <? 0 then
      let* ok := asset_geb (get_balance d (cu_funding_account op) (asset_id (cu_delta_debt op)))
                   (cu_delta_debt op) in
      require ok assert_exception
    else Ok tt in
  if 0 <? amount (cu_delta_collateral op) then
    let* _ := get_asset_object d (backing b) in
    let* ok := asset_geb (get_balance d (cu_funding_account op) (backing b)) (cu_delta_collateral op) in
    require ok assert_exception
  else Ok tt.

(** Borrowing and posting collateral, before the position is touched. *)
Definition call_order_update_transfer (d : database) (op : call_order_update_operation)
    : result database :=
  let* debt_asset := get_asset_object d (asset_id (cu_delta_debt op)) in
  let* d :=
    if negb (amount (cu_delta_debt op) =? 0) then
      let* d := adjust_balance d (cu_funding_account op) (cu_delta_debt op) in
      modify_asset_dyn d (as_dynamic_asset_data_id debt_asset)
        (λ s, let* c := safe_add (dd_current_supply s) (amount (cu_delta_debt op)) in
              Ok (set_current_supply (λ _, c) s))
    else Ok d in
  if negb (amount (cu_delta_collateral op) =? 0) then
    let* n := asset_neg (cu_delta_collateral op) in
    let* d := adjust_balance d (cu_funding_account op) n in
    if asset_id (cu_delta_collateral op) =? core_id then
      let* payer := get_account d (cu_funding_account op) in
      modify_statistics d (ao_statistics payer)
        (λ s, let* t := safe_add (st_total_core_in_orders s) (amount (cu_delta_collateral op)) in
              Ok (set_total_core_in_orders (λ _, t) s))
    else Ok d
  else Ok d.

(** Opening or changing the position: its id and the new object. *)
Definition call_order_update_position (d : database) (op : call_order_update_operation) (mcr : Z)
    : result (Z * call_order_object * database) :=
  match find_call d (cu_funding_account op) (asset_id (cu_delta_debt op)) with
  | None =>
      FC_ASSERT (0 <? amount (cu_delta_collateral op)) ;;
      FC_ASSERT (0 <? amount (cu_delta_debt op)) ;;
      let* cp := call_price (cu_delta_debt op) (cu_delta_collateral op) mcr in
      let c := mkCall (cu_funding_account op) (amount (cu_delta_collateral op))
                 (amount (cu_delta_debt op)) cp in
      let* (id, t) := index_create call_clash (db_call_orders d) c in
      Ok (id, c, set_call_orders (λ _, t) d)
  | Some (id, c) =>
      let* coll := safe_add (call_collateral c) (amount (cu_delta_collateral op)) in
      let* debt := safe_add (call_debt c) (amount (cu_delta_debt op)) in
      let* cp :=
        if 0 <? debt
        then call_price (mkAsset debt (debt_type c)) (mkAsset coll (asset_id (get_collateral c))) mcr
        else Ok (call_call_price c) in
      let c' := mkCall (call_borrower c) coll debt cp in
      Ok (id, c', put_call id c' d)
  end.

Definition call_order_update_do_apply (d : database) (op : call_order_update_operation)
    : result database :=
  let* debt_asset := get_asset_object d (asset_id (cu_delta_debt op)) in
  let* b := get_bitasset d debt_asset in
  let* d := call_order_update_transfer d op in
  let* (id, c, d) :=
    call_order_update_position d op (maintenance_collateral_ratio (bd_current_feed b)) in
  if call_debt c =? 0 then
    FC_ASSERT (call_collateral c =? 0) ;;
    Ok (remove_call id d)
  else
    FC_ASSERT ((0 <? call_collateral c) && (0 <? call_debt c)) ;;
    if bd_is_prediction_market b then Ok d
    else
      let* (called, d) := check_call_orders d (asset_id (cu_delta_debt op)) false in
      let* _ :=
        if called then
          require (bool_decide (objs (db_call_orders d) !! id = None))
            call_order_update_unfilled_margin_call
        else
          let* c := of_option assert_exception (objs (db_call_orders d) !! id) in
          require (price_ltb (price_inv (call_call_price c)) (settlement_price (bd_current_feed b)))
            call_order_update_unfilled_margin_call in
      Ok d.

#[export] Instance call_order_update_evaluator : Evaluator call_order_update_operation := {
  ev_state := unit;
  op_fee_payer := cu_funding_account;
  op_fee := cu_fee;
  do_evaluate := call_order_update_do_evaluate;
  do_apply := λ d op _, call_order_update_do_apply d op
}.

(** ** Collateral bids *)

Definition find_bid (d : database) (debt bidder : Z) : option Z :=
  fst <$> head (filter (λ kb, asset_id (quote (bid_inv_swan_price kb.2)) = debt ∧ bid_bidder kb.2 = bidder)
                  (map_to_list (objs (db_bids d)))).

Definition bid_collateral_do_evaluate (d : database) (op : bid_collateral_operation)
    : result (option Z) :=
  FC_ASSERT (HARDFORK_CORE_216_TIME <? head_block_time d) ;;
  let* _ := get_account d (bc_bidder op) in
  let* debt_asset := get_asset_object d (asset_id (bc_debt_covered op)) in
  FC_ASSERT (is_market_issued debt_asset) ;;
  let* b := get_bitasset d debt_asset in
  FC_ASSERT (has_settlement b) ;;
  FC_ASSERT (asset_id (bc_additional_collateral op) =? backing b) ;;
  FC_ASSERT (negb (bd_is_prediction_market b)) ;;
  let* _ :=
    if 0 <? amount (bc_additional_collateral op) then
      let* _ := get_asset_object d (backing b) in
      let* ok := asset_geb (get_balance d (bc_bidder op) (backing b)) (bc_additional_collateral op) in
      require ok assert_exception
    else Ok tt in
  let bid := find_bid d (asset_id (bc_debt_covered op)) (bc_bidder op) in
  let* _ := match bid with
            | Some _ => Ok tt
            | None => require (0 <? amount (bc_debt_covered op)) assert_exception
            end in
  Ok bid.

Definition bid_collateral_do_apply (d : database) (op : bid_collateral_operation) (bid : option Z)
    : result database :=
  let* d := match bid with Some id => cancel_bid d id | None => Ok d end in
  if amount (bc_debt_covered op) =? 0 then Ok d
  else
    let* n := asset_neg (bc_additional_collateral op) in
    let* d := adjust_balance d (bc_bidder op) n in
    let* p := asset_div (bc_additional_collateral op) (bc_debt_covered op) in
    let* (_, t) := index_create bid_clash (db_bids d) (mkBid (bc_bidder op) p) in
    Ok (set_bids (λ _, t) d).

#[export] Instance bid_collateral_evaluator : Evaluator bid_collateral_operation := {
  ev_state := option Z;
  op_fee_payer := bc_bidder;
  op_fee := bc_fee;
  do_evaluate := bid_collateral_do_evaluate;
  do_apply := bid_collateral_do_apply
}.
End operations.
