(* ===== verification/MarketEvalProps.v ===== *)
(** * The market operations: what a run guarantees

    Placing, cancelling and expiring limit orders, opening and changing
    margin positions, bidding collateral: run with their fees, they keep the
    market well formed and neither create nor destroy any asset. *)

From stdpp Require Import gmap list.
From Stdlib Require Import ZArith Lia.
From S2P Require Import Prelude Fc Config Asset VestingBalance Objects Database Sample Balances Fees Listing ListingInv Market MarketProps MarketSteps MarketEval.

Local Open Scope Z_scope.

Lemma asset_div_ok a b p :
  asset_div a b = Ok p → p = mkPrice a b ∧ asset_id a ≠ asset_id b.
Proof. unfold asset_div. intros H. ok_inv. split; [done|]. lia. Qed.

Section properties.
Context {FC : FcArith} {FCL : FcArithLaws FC} {BA : BoostArith} {BAL : BoostArithLaws BA}.

(** ** Fees do not touch the market *)

Lemma convert_fee_same sf g d d' : convert_fee sf g d = Ok d' → same_market d d'.
Proof.
  unfold convert_fee, modify_asset_dyn. intros H. case_in H; [by ok_inv|]. case_in H; by ok_inv.
Qed.

Lemma pay_fee_same sf g d d' : pay_fee sf g d = Ok d' → same_market d d'.
Proof. unfold pay_fee, modify_statistics. intros H. case_in H; by ok_inv. Qed.

Lemma same_market_time d d' : same_market d d' → head_block_time d' = head_block_time d.
Proof. intros (_&_&_&_&_&_&_&E). unfold head_block_time. by rewrite E. Qed.

(** What converting the fee alone leaves to be paid: its value in core. *)
Lemma convert_fee_moves d d' payer fee g :
  prepare_fee d payer fee = Ok g → convert_fee false g d = Ok d' →
  moves d d' (λ aid, amount_of aid fee - core_delta (core_fee_paid g) aid).
Proof.
  intros (<- & Hi & _ & (fa & Hfa & Hdyn) & Hcore)%prepare_fee_ok Hc.
  unfold convert_fee in Hc. rewrite Hi in Hc.
  destruct (Z.eqb_spec (asset_id (fee_from_account g)) core_id) as [E|E]; simpl in Hc; ok_inv.
  - eapply moves_ext; [apply moves_refl|]. intros aid. rewrite Hcore by done.
    unfold core_delta. rewrite amount_of_core. unfold amount_of. rewrite E, Z.eqb_sym.
    case_match; lia.
  - rewrite Hdyn in Hc.
    eapply moves_modify_asset_dyn in Hc as (t & t' & _ & Ht & _ & Hm2); [|done].
    ok_inv. safe_inv. simpl in *. eapply moves_ext; [exact Hm2|].
    intros aid; simpl. unfold core_delta. rewrite !amount_of_core.
    unfold amount_of; simpl. repeat case_match; lia.
Qed.

Lemma prepare_fee_core d payer fee g :
  amount fee < 2 ^ 63 → prepare_fee d payer fee = Ok g → amount_ok (core_fee_paid g).
Proof.
  intros Hb H. pose proof (prepare_fee_ok _ _ _ _ H) as (_ & _ & Hf & _ & Hcore).
  destruct (Z.eqb_spec (asset_id fee) core_id) as [E|E].
  { rewrite Hcore by done. unfold amount_ok. lia. }
  unfold prepare_fee in H. apply Z.eqb_neq in E. rewrite E in H. ok_inv. simpl.
  match goal with Hm : asset_mul_price _ _ = _ |- _ => apply asset_mul_price_range in Hm end.
  unfold amount_ok, GRAPHENE_MAX_SHARE_SUPPLY in *. lia.
Qed.

(** Paying a fee leaves the supplies. *)
Definition same_supplies (d d' : database) : Prop :=
  ∀ i s', db_asset_dyn d' !! i = Some s' →
    ∃ s, db_asset_dyn d !! i = Some s ∧ dd_current_supply s' = dd_current_supply s.

Lemma fee_supplies sf g d d1 d2 : convert_fee sf g d = Ok d1 → pay_fee sf g d1 = Ok d2 → same_supplies d d2.
Proof.
  unfold convert_fee, pay_fee, modify_asset_dyn, modify_statistics. intros H1 H2 i s' Hs.
  destruct sf; [ok_inv; by exists s'|]. assert (db_asset_dyn d2 = db_asset_dyn d1) as E by (ok_inv; done).
  rewrite E in Hs. case_in H1; [|ok_inv; by exists s']. clear E H2. ok_inv. simpl in Hs.
  apply lookup_insert_Some in Hs as [[<- <-]|[_ Hs]]; [|by exists s'].
  eexists. split; [by eapply of_option_ok|done].
Qed.

(** The framework, for operations on the market. *)
Lemma start_evaluate_market {Op} {E : Evaluator Op} skip_check required d (op : Op) d' :
  start_evaluate false skip_check required d op = Ok d' →
  ∃ st d1 d2, do_evaluate d op = Ok st ∧ same_market d d1 ∧
    mmoves d d1 (λ aid, amount_of aid (op_fee op)) ∧ do_apply d1 op st = Ok d2 ∧
    same_market d2 d' ∧ (mconserves d1 d2 → mconserves d d') ∧ same_supplies d d1.
Proof.
  intros (g & st & d0 & d1 & d2 & Hprep & Hst & Hc & Hp & Ha & H)%start_evaluate_stages.
  assert (same_market d d1) as S1.
  { etrans; [by eapply convert_fee_same|by eapply pay_fee_same]. }
  assert (mmoves d d1 (λ aid, amount_of aid (op_fee op))) as M1.
  { apply mmoves_of_moves; [|done]. by eapply fee_payment_moves. }
  apply adjust_balance_market in H as [M3 S3].
  exists st, d1, d2. split_and!; [done..| |by eapply fee_supplies]. intros M2.
  eapply mmoves_ext; [eapply mmoves_trans; [exact M1|eapply mmoves_trans; [exact M2|exact M3]]|].
  intros aid; simpl. rewrite amount_of_neg. destruct (op_fee op); simpl. lia.
Qed.

(** ** Placing a limit order *)

(** [apply_order] reports the order as filled exactly when it is gone. *)
Lemma apply_order_gone d order en b d' :
  apply_order d order en = Ok (b, d') → b = bool_decide (objs (db_limit_orders d') !! order = None).
Proof.
  unfold apply_order. intros H.
  apply rbind_ok in H as (? & _ & H). apply rbind_ok in H as (? & _ & H).
  apply rbind_ok in H as (? & _ & H). apply rbind_ok in H as (? & _ & H).
  apply rbind_ok in H as ([c1 d1] & _ & H). apply rbind_ok in H as ([c2 d2] & _ & H).
  case_in H.
  { injection H as <- <-. by apply andb_true_iff in Heqb0 as [_ ->]. }
  apply rbind_ok in H as (? & _ & H). apply rbind_ok in H as (? & _ & H).
  apply rbind_ok in H as (? & _ & H). apply rbind_ok in H as ([? ?] & _ & H).
  apply rbind_ok in H as ([? d5] & _ & H).
  destruct (objs (db_limit_orders d5) !! order) eqn:E.
  2:{ injection H as <- <-. by rewrite E. }
  case_in H; [injection H as <- <-; by rewrite E|].
  apply maybe_cull_ok in H as (_ & _ & ->). destruct b; simpl; [by rewrite lookup_delete_eq|by rewrite E].
Qed.

Lemma mmoves_create_limit d o id t :
  limit_wf o → index_create no_clash (db_limit_orders d) o = Ok (id, t) →
  mmoves d (set_limit_orders (λ _, t) d) (λ aid, limit_locked aid o) ∧
  objs t = <[id := o]> (objs (db_limit_orders d)) ∧ objs (db_limit_orders d) !! id = None ∧
  id = next_id (db_limit_orders d).
Proof.
  intros Hw (-> & Hn & _ & ->)%index_create_ok. split_and!; [|done..].
  intros Ha (Hl & Hc & Hf). split_and!; [exact Ha| |].
  - split_and!; [|done..]. by apply map_Forall_insert_2.
  - intros aid. rewrite imbalance_set_limit_orders. simpl. rewrite msum_insert, Hn. simpl. lia.
Qed.

(** The order a [limit_order_create_operation] asks for. *)
Definition placed (op : limit_order_create_operation) (deferred_fee : Z) : limit_order_object :=
  mkLimit (lc_expiration op) (lc_seller op) (amount (lc_amount_to_sell op))
    (mkPrice (lc_amount_to_sell op) (lc_min_to_receive op)) deferred_fee.

Lemma limit_order_create_do_apply_ok d op fee id d' :
  assets_wf d → market_wf d → limit_wf (placed op fee) →
  limit_order_create_do_apply d op fee = Ok (id, d') →
  mmoves d d' (core_delta fee) ∧ id = next_id (db_limit_orders d) ∧
  objs (db_limit_orders d) !! id = None ∧
  (lc_fill_or_kill op = true → objs (db_limit_orders d') !! id = None) ∧
  ∀ j o', objs (db_limit_orders d') !! j = Some o' →
    ∃ o, <[id := placed op fee]> (objs (db_limit_orders d)) !! j = Some o ∧
      lim_sell_price o' = lim_sell_price o ∧ lim_seller o' = lim_seller o ∧
      lim_for_sale o' <= lim_for_sale o.
Proof.
  intros Ha Hm Hw. unfold limit_order_create_do_apply. intros H.
  apply rbind_ok in H as (seller & _ & H). apply rbind_ok in H as (d1 & H1 & H).
  apply core_in_orders_market in H1 as [M1 S1].
  2:{ intros s s' Hs. case_in Hs; ok_inv; done. }
  apply rbind_ok in H as (n & Hn & H). apply asset_neg_ok in Hn as ->.
  apply rbind_ok in H as (d2 & H2 & H). apply adjust_balance_market in H2 as [M2 S2].
  apply rbind_ok in H as (p & Hp & H). apply asset_div_ok in Hp as [-> _].
  apply rbind_ok in H as ([i t] & Hc & H).
  apply rbind_ok in H as ([filled d3] & H3 & H). apply rbind_ok in H as (u & Hk%require_ok & [= <- <-]).
  change (mkLimit _ _ _ _ _) with (placed op fee) in Hc.
  apply mmoves_create_limit in Hc as (Mc & Ht & Hnone & Hid); [|done].
  assert (same_market d d2) as (El & _) by (by etrans). rewrite El in Ht, Hnone, Hid.
  pose proof (mmoves_trans _ _ _ _ _ M1 (mmoves_trans _ _ _ _ _ M2 Mc)) as M.
  destruct (M Ha Hm) as (Ha2 & Hm2 & _).
  pose proof (apply_order_gone _ _ _ _ _ H3) as Hg.
  apply apply_order_ok in H3 as [M3 [Hs _]]; [|done..].
  split_and!; [|done|done| |].
  - eapply mmoves_ext; [by eapply mmoves_trans|]. intros aid. simpl.
    unfold limit_locked, amount_for_sale, core_delta, amount_of; simpl. repeat case_match; lia.
  - intros Hfk. rewrite Hfk in Hk. simpl in Hk. rewrite Hk in Hg.
    by apply symmetry, bool_decide_eq_true in Hg.
  - intros j o' Ho'. apply Hs in Ho'. simpl in Ho'. by rewrite Ht in Ho'.
Qed.

(** Fee conversion and the overridden [pay_fee]: the part of the fee that is
    not paid stays with the order. *)
Lemma limit_fee_ok d d1 d2 payer fee g deferred :
  amount fee < 2 ^ 63 → prepare_fee d payer fee = Ok g → convert_fee false g d = Ok d1 →
  limit_order_create_pay_fee false g d1 = Ok (deferred, d2) →
  mmoves d d2 (λ aid, amount_of aid fee - core_delta deferred aid) ∧ same_market d d2 ∧
  amount_ok deferred.
Proof.
  intros Hb Hprep Hc Hp. pose proof (convert_fee_same _ _ _ _ Hc) as S1.
  unfold limit_order_create_pay_fee in Hp. case_in Hp.
  - apply rbind_ok in Hp as (d3 & Hp & [= <- <-]).
    assert (same_market d d3) by (etrans; [exact S1|by eapply pay_fee_same]).
    split_and!; [|done|unfold amount_ok; lia]. apply mmoves_of_moves; [|done].
    eapply moves_ext; [by eapply fee_payment_moves|]. intros aid. unfold core_delta.
    rewrite amount_of_core. case_match; lia.
  - injection Hp as <- <-. split_and!; [|done|by eapply prepare_fee_core].
    apply mmoves_of_moves; [|done]. by eapply convert_fee_moves.
Qed.

Lemma limit_order_create_validate_ok op :
  limit_order_create_validate op = Ok tt →
  asset_id (lc_amount_to_sell op) ≠ asset_id (lc_min_to_receive op) ∧ 0 <= amount (lc_fee op) ∧
  0 < amount (lc_amount_to_sell op) ∧ 0 < amount (lc_min_to_receive op).
Proof. unfold limit_order_create_validate. intros H. ok_inv. lia. Qed.

(** The amounts of an order are 64-bit numbers. *)
Definition create_int64 (op : limit_order_create_operation) : Prop :=
  amount (lc_amount_to_sell op) < 2 ^ 63 ∧ amount (lc_min_to_receive op) < 2 ^ 63 ∧
  amount (lc_fee op) < 2 ^ 63.

(** C8.  Placing a limit order, with everything it sets off (margin calls,
    matches with the orders on the book, global settlement): the market
    stays well formed and no asset is created or destroyed, the fee
    included; a fill-or-kill order is not on the book afterwards; what is on
    the book is a rest of the new order, of the operation's seller at the
    operation's price, or of an order that was there before, at its price
    and not larger than it was. *)
Theorem limit_order_create_correct skip_check required d op id d' :
  limit_order_create_validate op = Ok tt → create_int64 op → assets_wf d → market_wf d →
  limit_order_create_start false skip_check required d op = Ok (id, d') →
  assets_wf d' ∧ market_wf d' ∧ (∀ aid, imbalance aid d' = imbalance aid d) ∧
  objs (db_limit_orders d) !! id = None ∧
  (lc_fill_or_kill op = true → objs (db_limit_orders d') !! id = None) ∧
  ∀ j o', objs (db_limit_orders d') !! j = Some o' →
    ∃ o, (if decide (j = id) then ∃ fee, o = placed op fee
          else objs (db_limit_orders d) !! j = Some o) ∧
      lim_sell_price o' = lim_sell_price o ∧ lim_seller o' = lim_seller o ∧
      lim_for_sale o' <= lim_for_sale o.
Proof.
  intros (Hne & Hf & Hs & Hr)%limit_order_create_validate_ok (Bs & Br & Bf) Ha Hm H.
  unfold limit_order_create_start in H. apply rbind_ok in H as (g & Hprep & H).
  apply rbind_ok in H as (? & _ & H). apply rbind_ok in H as (? & _ & H).
  apply rbind_ok in H as (d1 & Hc & H). apply rbind_ok in H as ([fee d2] & Hp & H).
  apply rbind_ok in H as ([i d3] & H3 & H). apply rbind_ok in H as (n & Hn & H).
  apply rbind_ok in H as (d4 & H4 & [= <- <-]). apply asset_neg_ok in Hn as ->.
  destruct (prepare_fee_ok _ _ _ _ Hprep) as (Hfee & _). rewrite Hfee in H4.
  eapply limit_fee_ok in Hp as (M1 & S1 & Hok); [|exact Bf|exact Hprep|exact Hc].
  destruct (M1 Ha Hm) as (Ha1 & Hm1 & _). destruct S1 as (El & _).
  apply limit_order_create_do_apply_ok in H3 as (M3 & _ & Hnone & Hfk & Hord); [|done|done|].
  2:{ split_and!; unfold amount_pos; simpl; done || split; simpl; unfold amount_pos; lia. }
  apply adjust_balance_market in H4 as [M4 (El4 & _)]. rewrite El in Hnone, Hord. rewrite El4.
  destruct (mmoves_trans _ _ _ _ _ M1 (mmoves_trans _ _ _ _ _ M3 M4) Ha Hm) as (Ha' & Hm' & E).
  split_and!; [done|done| |done|done|].
  - intros aid. rewrite E. rewrite amount_of_neg. destruct (lc_fee op); simpl. lia.
  - intros j o' (o & Ho & Hrest)%Hord. exists o. split; [|done].
    case_decide as Hj; [subst; rewrite lookup_insert_eq in Ho; exists fee; congruence|].
    by rewrite lookup_insert_ne in Ho.
Qed.

(** ** Cancelling limit orders *)

Lemma same_market_shrink d d' : same_market d d' → orders_shrink d d'.
Proof.
  intros (El&_&?&?&_&?&?&?). split_and!; try done. rewrite El.
  intros j o Ho. exists o. split_and!; done || lia.
Qed.

Lemma cancel_limit_shrink d id d' : cancel_limit_order d id = Ok d' → orders_shrink d d'.
Proof.
  intros (_ & (?&?&?&?&?&?&?) & T & _)%cancel_limit_order_ok. split_and!; try done.
  intros j o'. rewrite T; simpl. rewrite lookup_delete_Some. intros [_ Ho]. exists o'. split_and!; done || lia.
Qed.

Lemma limit_order_cancel_do_apply_ok d op d' :
  assets_wf d → market_wf d → limit_order_cancel_do_apply d op = Ok d' →
  mconserves d d' ∧ orders_shrink d d' ∧ objs (db_limit_orders d') !! lx_order op = None.
Proof.
  intros Ha Hm H. unfold limit_order_cancel_do_apply in H. apply rbind_ok in H as (o & _ & H).
  apply rbind_ok in H as (d1 & H1 & H). pose proof (cancel_limit_shrink _ _ _ H1) as S1.
  apply cancel_limit_order_ok in H1 as (M1 & _ & T1 & _). destruct (M1 Ha Hm) as (Ha1 & Hm1 & _).
  apply rbind_ok in H as ([b2 d2] & H2 & H). apply check_call_orders_ok in H2 as [M2 S2]; [|done..].
  destruct (M2 Ha1 Hm1) as (Ha2 & Hm2 & _).
  apply rbind_ok in H as ([b3 d3] & H3 & [= <-]). apply check_call_orders_ok in H3 as [M3 S3]; [|done..].
  assert (orders_shrink d1 d3) as S13 by (by etrans). split_and!.
  - eapply mmoves_ext; [eapply mmoves_trans; [exact M1|eapply mmoves_trans; eassumption]|]. done.
  - by etrans.
  - apply eq_None_not_Some. intros [o' Ho']. apply S13 in Ho' as (o1 & Ho1 & _).
    rewrite T1 in Ho1. simpl in Ho1. by rewrite lookup_delete_eq in Ho1.
Qed.

Lemma limit_order_cancel_run skip_check required d op d' :
  assets_wf d → market_wf d →
  start_evaluate (E := limit_order_cancel_evaluator) false skip_check required d op = Ok d' →
  mconserves d d' ∧ orders_shrink d d' ∧ objs (db_limit_orders d') !! lx_order op = None ∧
  ∃ o, objs (db_limit_orders d) !! lx_order op = Some o ∧ lim_seller o = lx_fee_paying_account op.
Proof.
  intros Ha Hm (st & d1 & d2 & Hev & S1 & M1 & Happ & S3 & Hc & _)%start_evaluate_market.
  destruct (M1 Ha Hm) as (Ha1 & Hm1 & _).
  apply limit_order_cancel_do_apply_ok in Happ as (M2 & S2 & Hg); [|done..].
  split_and!; [by apply Hc|etrans; [by apply same_market_shrink|etrans; [exact S2|by apply same_market_shrink]]| |].
  - by destruct S3 as (-> & _).
  - unfold limit_order_cancel_do_evaluate, index_get in Hev; simpl in Hev.
    unfold limit_order_cancel_do_evaluate, index_get in Hev.
    apply rbind_ok in Hev as (o & Ho%of_option_ok & He%require_ok). exists o. split; [done|lia].
Qed.

Lemma orders_shrink_size d d' id :
  orders_shrink d d' → is_Some (objs (db_limit_orders d) !! id) →
  objs (db_limit_orders d') !! id = None →
  (size (objs (db_limit_orders d')) < size (objs (db_limit_orders d)))%nat.
Proof.
  intros [Hs _] [o Ho] Hn. rewrite <- !size_dom. apply subset_size. apply strict_spec_alt. split.
  - intros j [o' Ho']%elem_of_dom. apply Hs in Ho' as (o1 & Ho1 & _). by eapply elem_of_dom_2.
  - intros E. apply not_elem_of_dom in Hn. rewrite E in Hn. apply Hn. by eapply elem_of_dom_2.
Qed.

Lemma mconserves_trans d1 d2 d3 : mconserves d1 d2 → mconserves d2 d3 → mconserves d1 d3.
Proof. intros M1 M2. eapply mmoves_ext; [by eapply mmoves_trans|done]. Qed.

(** The cancellation the loop applies to an expired order. *)
Definition expiry_cancel (f : asset) (id : Z) (o : limit_order_object) : limit_order_cancel_operation :=
  mkLimitCancel (if lim_deferred_fee o <? amount f then core_asset (lim_deferred_fee o) else f) id (lim_seller o).

(** The cancellation of an expired order fails with [e] in a state that the
    loop reaches from [d]. *)
Definition cancel_fails (cancel_fee : result asset) (d : database) (e : exn) : Prop :=
  cancel_fee = Throw e ∨
  ∃ d0 id o f, cancel_fee = Ok f ∧ mconserves d d0 ∧ orders_shrink d d0 ∧
    objs (db_limit_orders d0) !! id = Some o ∧
    start_evaluate (E := limit_order_cancel_evaluator) false true (Ok 0) d0 (expiry_cancel f id o) = Throw e.

(** With as many rounds as there are orders, the loop ends with no expired
    order, or because a cancellation fails. *)
Lemma clear_expired_limit_orders_ok fuel cancel_fee d :
  assets_wf d → market_wf d → (size (objs (db_limit_orders d)) <= fuel)%nat →
  match clear_expired_limit_orders fuel cancel_fee d with
  | Ok d' => mconserves d d' ∧ orders_shrink d d' ∧
      map_Forall (λ _ o, head_block_time d < lim_expiration o) (objs (db_limit_orders d'))
  | Throw e => cancel_fails cancel_fee d e
  end.
Proof.
  revert d. induction fuel as [|fuel IH]; intros d Ha Hm Hf; simpl.
  all: destruct (first_by _ _) as [[id o]|] eqn:Efirst;
    [|apply first_by_none in Efirst; split_and!; [apply mmoves_refl|done|rewrite Efirst; apply map_Forall_empty]].
  all: apply first_by_some in Efirst as [Ho Hmin];
    destruct (Z.leb_spec (lim_expiration o) (head_block_time d)) as [Hexp|Hexp];
    [|split_and!; [apply mmoves_refl|done|intros j o' Ho'; apply Hmin in Ho'; simpl in Ho'; lia]].
  { apply Nat.le_0_r, map_size_empty_iff in Hf. by rewrite Hf, lookup_empty in Ho. }
  destruct cancel_fee as [f|e]; [|by left]. cbn [rbind]. fold (expiry_cancel f id o).
  destruct (start_evaluate false true (Ok 0) d (expiry_cancel f id o)) as [d1|e] eqn:Hrun; cbn [rbind].
  2:{ right. exists d, id, o, f. split_and!; [done|apply mmoves_refl|done|done|done]. }
  apply limit_order_cancel_run in Hrun as (M1 & S1 & Hg & _); [|done..]. simpl in Hg.
  destruct (M1 Ha Hm) as (Ha1 & Hm1 & _).
  pose proof (orders_shrink_size _ _ _ S1 (mk_is_Some _ _ Ho) Hg) as Hlt.
  assert (head_block_time d1 = head_block_time d) as Et.
  { unfold head_block_time. by destruct S1 as (_&_&_&_&_&->). }
  specialize (IH d1 Ha1 Hm1 ltac:(lia)). destruct (clear_expired_limit_orders _ _ _) as [d'|e].
  - destruct IH as (M2 & S2 & Hall). rewrite <- Et. split_and!; [by eapply mconserves_trans|by etrans|done].
  - destruct IH as [|(d0 & i & o0 & f0 & ? & M2 & S2 & ? & ?)]; [by left|]. right. exists d0, i, o0, f0.
    split_and!; [done|by eapply mconserves_trans|by etrans|done|done].
Qed.

(** ** Margin positions *)

(** Positions in [debt] hold their collateral in [coll]. *)
Definition collateral_in (d : database) (debt coll : Z) : Prop :=
  map_Forall (λ _ c, debt_type c = debt → asset_id (get_collateral c) = coll) (objs (db_call_orders d)).

Lemma find_call_some d b debt id c :
  find_call d b debt = Some (id, c) →
  objs (db_call_orders d) !! id = Some c ∧ call_borrower c = b ∧ debt_type c = debt.
Proof.
  unfold find_call. intros H%head_Some_elem_of.
  apply list_elem_of_filter in H as [[? ?] Hin]. by apply elem_of_map_to_list in Hin.
Qed.

Lemma call_order_update_transfer_ok d op d' :
  call_order_update_transfer d op = Ok d' →
  moves d d' (λ aid, - amount_of aid (cu_delta_collateral op)) ∧ same_market d d'.
Proof.
  unfold call_order_update_transfer. intros H. apply rbind_ok in H as (a & Ha%of_option_ok & H).
  apply rbind_ok in H as (d1 & H1 & H).
  assert (conserves d d1 ∧ same_market d d1) as [M1 S1].
  { case_in H1; [|injection H1 as <-; split; [apply moves_refl|done]].
    apply rbind_ok in H1 as (d0 & H0 & H1). pose proof (adjust_balance_moves _ _ _ _ H0) as M0.
    apply adjust_balance_frame in H0 as [m ->].
    eapply moves_modify_asset_dyn in H1 as (s & s' & _ & Hs & -> & M1); [|done].
    ok_inv. safe_inv. split; [|done]. eapply moves_ext; [eapply moves_trans; [exact M0|exact M1]|].
    intros aid; simpl. unfold core_delta. rewrite amount_of_core. unfold amount_of; simpl. repeat case_match; lia. }
  case_in H.
  2:{ injection H as <-. split; [|done]. eapply moves_ext; [exact M1|]. intros aid.
      apply negb_false_iff, Z.eqb_eq in Heqb. unfold amount_of. destruct (_ =? aid); lia. }
  apply rbind_ok in H as (n & Hn & H). apply asset_neg_ok in Hn as ->.
  apply rbind_ok in H as (d2 & H2 & H). pose proof (adjust_balance_moves _ _ _ _ H2) as M2.
  apply adjust_balance_frame in H2 as [m ->].
  assert (conserves (set_balances m d1) d' ∧ same_market (set_balances m d1) d') as [M3 S3].
  { case_in H; [|injection H as <-; split; [apply moves_refl|done]].
    apply rbind_ok in H as (payer & _ & H).
    apply moves_modify_statistics in H as (s & s' & _ & Hs & -> & M3). split; [|done].
    eapply moves_ext; [exact M3|]. intros aid. ok_inv. simpl. unfold core_delta.
    rewrite amount_of_core. destruct (aid =? core_id); lia. }
  split; [|by etrans].
  eapply moves_ext; [eapply moves_trans; [exact M1|eapply moves_trans; [exact M2|exact M3]]|].
  intros aid; simpl. rewrite amount_of_neg. destruct (cu_delta_collateral op); simpl. lia.
Qed.

(** The amounts of the operation are 64-bit numbers. *)
Definition update_int64 (op : call_order_update_operation) : Prop :=
  amount (cu_delta_collateral op) < 2 ^ 63 ∧ amount (cu_delta_debt op) < 2 ^ 63.

Lemma call_order_update_position_ok d op mcr id c d' :
  update_int64 op → market_wf d →
  collateral_in d (asset_id (cu_delta_debt op)) (asset_id (cu_delta_collateral op)) →
  call_order_update_position d op mcr = Ok (id, c, d') →
  moves d d' (λ aid, amount_of aid (cu_delta_collateral op)) ∧ same_but_calls d d' ∧
  objs (db_call_orders d') = <[id := c]> (objs (db_call_orders d)) ∧
  call_borrower c = cu_funding_account op ∧
  debt_type c = asset_id (cu_delta_debt op) ∧
  call_debt c < 2 ^ 63 ∧ call_collateral c < 2 ^ 63 ∧
  asset_id (base (call_call_price c)) ≠ asset_id (quote (call_call_price c)).
Proof.
  intros [Bc Bd] (_ & Hwf & _) Hin. unfold call_order_update_position. intros H.
  destruct (find_call _ _ _) as [[i o]|] eqn:Ef.
  - apply find_call_some in Ef as (Ho & Hb & Hdt). pose proof (Hwf _ _ Ho) as (_ & _ & Hne).
    apply rbind_ok in H as (coll & Hc & H). apply rbind_ok in H as (debt & Hd & H). safe_inv.
    apply rbind_ok in H as (cp & Hcp & [= <- <- <-]).
    assert (asset_id (base cp) = asset_id (base (call_call_price o)) ∧
            asset_id (quote cp) = asset_id (quote (call_call_price o))) as [E1 E2].
    { case_in Hcp; [|by injection Hcp as <-]. by apply call_price_ids in Hcp as (?&?&_). }
    pose proof (Hin _ _ Ho Hdt) as Hco. simpl in Hco. unfold debt_type in *; simpl in *.
    split_and!; simpl; try done; try lia; try congruence.
    eapply moves_ext; [by apply moves_put_call|]. intros aid.
    unfold call_locked, get_collateral, amount_of; simpl. rewrite E1, Hco. destruct (_ =? aid); lia.
  - apply rbind_ok in H as (? & Hp1%require_ok & H). apply rbind_ok in H as (? & Hp2%require_ok & H).
    apply rbind_ok in H as (cp & Hcp & H). apply rbind_ok in H as ([i t] & Ht & [= <- <- <-]).
    apply call_price_ids in Hcp as (E1 & E2 & Hne).
    apply index_create_ok in Ht as (-> & Hnone & _ & ->). unfold debt_type; simpl.
    split_and!; simpl; try done; try lia; try congruence.
    apply moves_intro; [done..|]. intros aid. rewrite imbalance_set_call_orders. simpl.
    rewrite msum_insert, Hnone. unfold call_locked, get_collateral, amount_of; simpl. rewrite E1. lia.
Qed.

Lemma call_order_update_do_apply_ok d op d' :
  update_int64 op → assets_wf d → market_wf d →
  collateral_in d (asset_id (cu_delta_debt op)) (asset_id (cu_delta_collateral op)) →
  call_order_update_do_apply d op = Ok d' → mconserves d d' ∧ orders_shrink d d'.
Proof.
  intros Hb Ha Hm Hin H. unfold call_order_update_do_apply in H.
  apply rbind_ok in H as (a & _ & H). apply rbind_ok in H as (b & _ & H).
  apply rbind_ok in H as (d1 & H1 & H). apply call_order_update_transfer_ok in H1 as [M1 S1].
  pose proof (mmoves_of_moves _ _ _ M1 S1 Ha Hm) as (Ha1 & Hm1 & _).
  pose proof S1 as (_ & Ec1 & _). unfold collateral_in in Hin. rewrite <- Ec1 in Hin.
  apply rbind_ok in H as ([[id c] d2] & H2 & H).
  apply call_order_update_position_ok in H2 as (M2 & S2 & T2 & _ & Hdt & Bd & Bc & Hne); [|done..].
  pose proof (moves_trans _ _ _ _ _ M1 M2) as M12.
  assert (orders_shrink d d2) as S12.
  { etrans; [by apply same_market_shrink|by apply same_but_calls_shrink]. }
  pose proof S2 as (El & _ & _ & _ & Ea & _). pose proof Hm1 as (Hl & Hc & Hf).
  destruct (Z.eqb_spec (call_debt c) 0) as [E|E].
  - apply rbind_ok in H as (? & Hz%require_ok & [= <-]). apply Z.eqb_eq in Hz. split; [|done].
    assert (objs (db_call_orders d2) !! id = Some c) as Hlk by (rewrite T2; by rewrite lookup_insert_eq).
    pose proof (moves_remove_call _ _ _ Hlk) as M3.
    apply mmoves_intro.
    + eapply moves_ext; [eapply moves_trans; [exact M12|exact M3]|]. intros aid; simpl.
      unfold call_locked, get_collateral, amount_of; simpl. repeat case_match; lia.
    + intros _. unfold market_wf; simpl. rewrite El, Ea, T2. split_and!; [done| |done].
      rewrite delete_insert_eq. by apply map_Forall_delete.
  - apply rbind_ok in H as (? & Hp%require_ok & H). apply andb_true_iff in Hp as [Hp1 Hp2].
    assert (mconserves d d2) as M.
    { apply mmoves_intro.
      - eapply moves_ext; [exact M12|]. intros; simpl; lia.
      - intros _. unfold market_wf. rewrite El, Ea, T2. split_and!; [done| |done].
        apply map_Forall_insert_2; [|done]. split_and!; unfold amount_pos, amount_ok; lia || done. }
    case_in H; [by injection H as <-|]. destruct (M Ha Hm) as (Ha2 & Hm2 & _).
    apply rbind_ok in H as ([called d3] & H3 & H). apply check_call_orders_ok in H3 as [M3 S3]; [|done..].
    apply rbind_ok in H as (? & _ & [= <-]). split; [|by etrans].
    eapply mmoves_ext; [by eapply mmoves_trans|]. done.
Qed.

Lemma call_order_update_run skip_check required d op d' :
  update_int64 op → assets_wf d → market_wf d →
  collateral_in d (asset_id (cu_delta_debt op)) (asset_id (cu_delta_collateral op)) →
  start_evaluate (E := call_order_update_evaluator) false skip_check required d op = Ok d' →
  mconserves d d' ∧ orders_shrink d d'.
Proof.
  intros Hb Ha Hm Hin (st & d1 & d2 & _ & S1 & M1 & Happ & S3 & Hc & _)%start_evaluate_market.
  destruct (M1 Ha Hm) as (Ha1 & Hm1 & _). pose proof S1 as (_ & Ec & _).
  apply call_order_update_do_apply_ok in Happ as [M2 S2]; [|done..|by unfold collateral_in; rewrite Ec].
  split; [by apply Hc|]. etrans; [by apply same_market_shrink|]. etrans; [exact S2|]. by apply same_market_shrink.
Qed.

(** The position that an update opens or changes. *)
Definition updated_position (d : database) (op : call_order_update_operation) : Z :=
  match find_call d (cu_funding_account op) (asset_id (cu_delta_debt op)) with
  | Some (id, _) => id
  | None => next_id (db_call_orders d)
  end.

(** A position that is left after an update is not called: at the price of
    the feed its collateral still covers its debt with the required margin. *)
Lemma call_order_update_not_called d op a b d' id :
  db_assets d !! asset_id (cu_delta_debt op) = Some a → get_bitasset d a = Ok b →
  bd_is_prediction_market b = false → call_order_update_do_apply d op = Ok d' →
  updated_position d op = id →
  ∀ c', objs (db_call_orders d') !! id = Some c' →
  price_ltb (price_inv (call_call_price c')) (settlement_price (bd_current_feed b)) = true.
Proof.
  intros Ha Hb Hpm H Hf c' Hc'. unfold call_order_update_do_apply, get_asset_object in H.
  rewrite Ha in H. cbn [of_option rbind] in H. rewrite Hb in H. cbn [rbind] in H.
  apply rbind_ok in H as (d1 & H1 & H).
  apply call_order_update_transfer_ok in H1 as [_ (_ & Ec & _)].
  apply rbind_ok in H as ([[i c1] d2] & H2 & H).
  assert (i = id) as ->.
  { subst id. unfold updated_position, call_order_update_position, find_call in H2 |- *. rewrite Ec in H2.
    destruct (head (filter _ _)) as [[j c]|]; apply rbind_ok in H2 as (? & _ & H2);
      apply rbind_ok in H2 as (? & _ & H2); apply rbind_ok in H2 as (? & _ & H2); [congruence|].
    apply rbind_ok in H2 as ([k t] & (-> & _)%index_create_ok & H2). congruence. }
  destruct (Z.eqb_spec (call_debt c1) 0).
  { apply rbind_ok in H as (? & _ & [= <-]). simpl in Hc'. by rewrite lookup_delete_eq in Hc'. }
  apply rbind_ok in H as (? & _ & H). rewrite Hpm in H.
  apply rbind_ok in H as ([called d3] & _ & H). apply rbind_ok in H as (? & Hchk & [= <-]).
  destruct called.
  - apply require_ok, bool_decide_eq_true in Hchk. congruence.
  - rewrite Hc' in Hchk. cbn [of_option rbind] in Hchk. by apply require_ok in Hchk.
Qed.

(** ** Collateral bids *)

Lemma bid_collateral_do_apply_ok d op st d' :
  bid_collateral_do_apply d op st = Ok d' → mconserves d d'.
Proof.
  unfold bid_collateral_do_apply. intros H. apply rbind_ok in H as (d1 & H1 & H).
  assert (mconserves d d1) as M1.
  { destruct st; [by apply cancel_bid_ok in H1 as [? _]|injection H1 as <-; apply mmoves_refl]. }
  case_in H; [by injection H as <-|].
  apply rbind_ok in H as (n & Hn & H). apply asset_neg_ok in Hn as ->.
  apply rbind_ok in H as (d2 & H2 & H). apply adjust_balance_market in H2 as [M2 _].
  apply rbind_ok in H as (p & Hp & H). apply asset_div_ok in Hp as [-> _].
  apply rbind_ok in H as ([i t] & Ht & [= <-]). apply index_create_ok in Ht as (-> & Hnone & _ & ->).
  assert (mmoves d2 (set_bids (λ _, mkTable (<[next_id (db_bids d2) := mkBid (bc_bidder op)
    (mkPrice (bc_additional_collateral op) (bc_debt_covered op))]> (objs (db_bids d2)))
    (next_id (db_bids d2) + 1)) d2) (λ aid, amount_of aid (bc_additional_collateral op))) as M3.
  { intros Ha Hm. split_and!; [exact Ha|exact Hm|]. intros aid. rewrite imbalance_set_bids. simpl.
    rewrite msum_insert, Hnone. unfold bid_locked; simpl. lia. }
  eapply mmoves_ext; [eapply mmoves_trans; [exact M1|eapply mmoves_trans; [exact M2|exact M3]]|].
  intros aid; simpl. rewrite amount_of_neg. destruct (bc_additional_collateral op); simpl. lia.
Qed.

Lemma bid_collateral_run skip_check required d op d' :
  start_evaluate (E := bid_collateral_evaluator) false skip_check required d op = Ok d' →
  mconserves d d'.
Proof.
  intros (st & d1 & d2 & _ & _ & _ & Happ & _ & Hc & _)%start_evaluate_market.
  apply Hc. exact (bid_collateral_do_apply_ok _ _ _ _ Happ).
Qed.
End properties.
