(* ===== verification/MarketTheorems.v ===== *)
(** * The market on concrete states, and its main theorems

    A small market in a dollar backed by the core currency, the theorems on
    single matches and on global settlement, and the runs that exercise the
    theorems of the other market files. *)

From stdpp Require Import gmap list strings.
From Stdlib Require Import ZArith Lia.
From S2P Require Import Prelude Fc Config Asset VestingBalance Objects Database Sample Balances Fees Listing Market MarketProps MarketSteps MarketBook MarketEval MarketEvalProps.

Local Open Scope Z_scope.

(** ** A sample market

    Asset 2 is a dollar backed by the core currency, at 3 dollars a coin.
    Alice and Carol borrowed 1000 dollars each against 500 coins: they are
    below the required ratio of 1.75.  Bob holds the dollars.  On the book
    Carol and Bob sell coins for Bob's currency. *)

Definition usd : Z := 2.
Definition usd_feed : price_feed :=
  mkFeed (mkPrice (mkAsset 3 usd) (mkAsset 1 core_id)) (mkPrice (mkAsset 3 usd) (mkAsset 1 core_id)) 1750 1500.
Definition usd_asset : asset_object :=
  mkAssetObject alice 0 63 ∅ ∅ (mkPrice (mkAsset 3 usd) (mkAsset 1 core_id)) 2 (Some 0) None
    "USD" 2 1000000 0 0 ∅ ∅.
Definition usd_data : asset_bitasset_data_object :=
  mkBitasset (mkBitassetOptions 86400 1 86400 0 2000 core_id) ∅ usd_feed 0 false 0 default_price 0.

(** Collateral to debt of a position of 1000 dollars on 500 coins, times the
    maintenance ratio. *)
Definition sample_call (borrower : Z) : call_order_object :=
  mkCall borrower 500 1000 (mkPrice (mkAsset 2 core_id) (mkAsset 7 usd)).

Definition carol_order : limit_order_object :=
  mkLimit 1600000000 carol 100 (mkPrice (mkAsset 100 core_id) (mkAsset 10 1)) 0.
Definition bob_order : limit_order_object :=
  mkLimit 1600000000 bob 100 (mkPrice (mkAsset 100 core_id) (mkAsset 20 1)) 0.

Definition market_db : database :=
  set_limit_orders (λ _, mkTable (list_to_map [(0, carol_order); (1, bob_order)]) 2)
  (set_call_orders (λ _, mkTable (list_to_map [(0, sample_call alice); (1, sample_call carol)]) 2)
  (set_bitassets (λ _, {[ 0 := usd_data ]})
  (set_asset_dyn (λ _, list_to_map [(0, mkDynData 1019720 0 0 0); (1, mkDynData 600 0 0 10000);
                                    (2, mkDynData 2000 0 0 0)])
  (set_assets (<[ usd := usd_asset ]>)
  (set_balances (<[ (bob, usd) := 2000 ]>) sample_db))))).

Lemma market_db_ok :
  assets_wf market_db ∧ market_wf market_db ∧ imbalance 0 market_db = 0 ∧ imbalance 1 market_db = 0 ∧
  imbalance 2 market_db = 0.
Proof.
  split; [|split; [|by vm_compute]].
  - split_and!.
    + intros i j a b Ha Hb. unfold market_db, sample_db in *; simpl in *.
      rewrite !lookup_insert_Some, lookup_empty in Ha, Hb.
      destruct Ha as [[<- <-]|[_ [[<- <-]|[_ [[<- <-]|[_ Ha]]]]]],
        Hb as [[<- <-]|[_ [[<- <-]|[_ [[<- <-]|[_ Hb]]]]]]; simpl; try done.
    + eexists. split; [reflexivity|done].
    + eexists. reflexivity.
    + intros i b H. unfold market_db in H; simpl in H. apply lookup_singleton_Some in H as [<- <-]. done.
  - split_and!; unfold market_db, sample_db; simpl;
      repeat (apply map_Forall_insert_2; [vm_compute; intuition congruence|]); apply map_Forall_empty.
Qed.

Section theorems.
Context {FC : FcArith} {FCL : FcArithLaws FC} {BA : BoostArith} {BAL : BoostArithLaws BA}.

(** C10.  A match is fair.  When two crossing orders are matched at the price
    of the older one, each side receives at least what its own price asks
    for what it pays, neither pays more than it offered, at least one of the
    two leaves the book, no other order changes, and no asset is created or
    destroyed (market fees included). *)
Theorem match_is_fair d u c uo co fu fc d' :
  u ≠ c → objs (db_limit_orders d) !! u = Some uo → objs (db_limit_orders d) !! c = Some co →
  assets_wf d → market_wf d → crosses (lim_sell_price uo) (lim_sell_price co) →
  match_limit_orders d u c (lim_sell_price co) = Ok (fu, fc, d') →
  (market_wf d' ∧ ∀ aid, imbalance aid d' = imbalance aid d) ∧
  ∃ new_gets old_gets,
    owed (lim_sell_price uo) old_gets <= new_gets <= lim_for_sale co ∧
    owed (lim_sell_price co) new_gets <= old_gets <= lim_for_sale uo ∧
    (fu = true ∨ fc = true) ∧
    ∀ j, objs (db_limit_orders d') !! j =
      if decide (j = u) then left_over fu uo old_gets
      else if decide (j = c) then left_over fc co new_gets
      else objs (db_limit_orders d) !! j.
Proof.
  intros Hne Hu Hc Ha Hm Hx H.
  eapply match_limit_ok in H as (M & _ & g1 & g2 & _ & _ & F1 & F2 & Hf & T); [|done..].
  destruct (M Ha Hm) as (_ & Hm' & E). split; [split; [done|]|by exists g1, g2].
  intros aid. rewrite E. lia.
Qed.

(** Global settlement.  Settling an asset closes all its margin
    positions and no other one; the collateral taken from them is the
    settlement fund, and the settlement price is the outstanding supply over
    that fund, so the fund pays every holder alike; the supply stays, and no
    asset is created or destroyed. *)
Theorem globally_settle_correct d aid p d' :
  assets_wf d → market_wf d → globally_settle_asset d aid p = Ok d' →
  market_wf d' ∧ (∀ x, imbalance x d' = imbalance x d) ∧
  current_supply aid d' = current_supply aid d ∧ db_limit_orders d' = db_limit_orders d ∧
  ∃ mia i b b' calls, db_assets d !! aid = Some mia ∧ as_bitasset_data_id mia = Some i ∧
    db_bitassets d !! i = Some b ∧ db_bitassets d' !! i = Some b' ∧
    has_settlement b = false ∧
    bd_settlement_price b' = mkPrice (mkAsset (current_supply aid d) aid)
                               (mkAsset (bd_settlement_fund b') (backing b)) ∧
    positions d (backing b) aid = Ok calls ∧
    ∀ j, objs (db_call_orders d') !! j = if decide (j ∈ calls) then None else objs (db_call_orders d) !! j.
Proof.
  intros Ha Hm H. apply globally_settle_ok in H as (M & (El & _) & mia & i & b & b' & H); [|done..].
  destruct H as (? & ? & ? & ? & ? & ? & ? & calls & ? & ?).
  destruct (M Ha Hm) as (_ & Hm' & E). split_and!; [done| |done|done|by exists mia, i, b, b', calls].
  intros x. rewrite E. lia.
Qed.

(** C17.  Opening, changing or closing a margin position, with the margin calls
    it sets off, creates and destroys nothing, in every bit asset, prediction
    markets included: the borrowed amount is new supply, the collateral moves
    between the balance and the position.  Unless the asset is a prediction
    market, which has no margin calls, the position -- an old one or one just
    opened -- is above its call price at the current feed if it is open
    afterwards.  It is assumed that the positions in the asset have their
    collateral in the asset of the operation, which evaluation requires to be
    the one that backs it. *)
Theorem call_order_update_correct d op d' :
  update_int64 op → assets_wf d → market_wf d →
  collateral_in d (asset_id (cu_delta_debt op)) (asset_id (cu_delta_collateral op)) →
  call_order_update_do_apply d op = Ok d' →
  market_wf d' ∧ (∀ x, imbalance x d' = imbalance x d) ∧ orders_shrink d d' ∧
  ∀ a b c', db_assets d !! asset_id (cu_delta_debt op) = Some a → get_bitasset d a = Ok b →
    bd_is_prediction_market b = false → objs (db_call_orders d') !! updated_position d op = Some c' →
    price_ltb (price_inv (call_call_price c')) (settlement_price (bd_current_feed b)) = true.
Proof.
  intros Hb Ha Hm Hin H. pose proof H as Hcopy.
  apply call_order_update_do_apply_ok in H as [M S]; [|done..].
  destruct (M Ha Hm) as (_ & Hm' & E). split_and!; [done| |done|].
  - intros x. rewrite E. lia.
  - intros a b c' Hlk Hbit Hpm. by eapply call_order_update_not_called.
Qed.

(** The loop over the expired limit orders ends: as many rounds as
    there are orders are enough, whatever margin calls the cancellations set
    off.  It creates and destroys nothing, and afterwards every order left
    expires after the head block; unless the cancellation of an order itself
    fails, which then is what the loop fails with. *)
Theorem clear_expired_limit_orders_correct fuel cancel_fee d :
  assets_wf d → market_wf d → (size (objs (db_limit_orders d)) <= fuel)%nat →
  (∃ d', clear_expired_limit_orders fuel cancel_fee d = Ok d' ∧
     (∀ x, imbalance x d' = imbalance x d) ∧ orders_shrink d d' ∧
     map_Forall (λ _ o, head_block_time d < lim_expiration o) (objs (db_limit_orders d'))) ∨
  (∃ e, clear_expired_limit_orders fuel cancel_fee d = Throw e ∧ cancel_fails cancel_fee d e).
Proof.
  intros Ha Hm Hf. pose proof (clear_expired_limit_orders_ok fuel cancel_fee d Ha Hm Hf) as H.
  destruct (clear_expired_limit_orders _ _ _) as [d'|e]; [left|right; eauto].
  destruct H as (M & S & Hall). destruct (M Ha Hm) as (_ & _ & Ei). exists d'.
  split_and!; [done| |done|done]. intros x. rewrite Ei. lia.
Qed.
End theorems.

(** ** Runs *)

#[local] Existing Instance fc_reference.
#[local] Existing Instance boost_reference.
#[local] Existing Instance fc_reference_laws.
#[local] Existing Instance boost_reference_laws.

(** Alice buys coins for 15 units of Bob's currency: she takes all of Carol's
    order and a quarter of Bob's, which has the worse price. *)
Definition alice_buys : limit_order_create_operation :=
  mkLimitCreate (core_asset 5) alice (mkAsset 15 1) (mkAsset 60 core_id) 1600000000 false.
Definition bought_db : database :=
  snd (get_ok (limit_order_create_start false false (Ok 5) market_db alice_buys) (0, market_db)).

Lemma limit_order_create_correct_witness :
  imbalance 0 bought_db = 0 ∧ objs (db_limit_orders bought_db) !! 0 = None.
Proof.
  destruct market_db_ok as (Ha & Hm & Hi & _).
  destruct (limit_order_create_correct false (Ok 5) market_db alice_buys 2 bought_db) as (_ & _ & E & _).
  - reflexivity.
  - vm_compute. intuition congruence.
  - exact Ha.
  - exact Hm.
  - vm_compute. reflexivity.
  - split; [rewrite E; exact Hi|vm_compute; reflexivity].
Defined.

(** The state in which the matching loop runs: Alice's order is on the book. *)
Definition alice_order : limit_order_object :=
  mkLimit 1600000000 alice 15 (mkPrice (mkAsset 15 1) (mkAsset 60 core_id)) 0.
Definition placed_db : database :=
  set_limit_orders (λ t, mkTable (<[2 := alice_order]> (objs t)) 3) market_db.

Lemma placed_db_ok : assets_wf placed_db ∧ market_wf placed_db.
Proof.
  destruct market_db_ok as (Ha & (Hl & Hm) & _). split; [exact Ha|]. split; [|exact Hm].
  apply map_Forall_insert_2; [vm_compute; intuition congruence|exact Hl].
Qed.

Definition placed_hi : price := mkPrice (mkAsset GRAPHENE_MAX_SHARE_SUPPLY core_id) (mkAsset 1 1).
Definition matched_db : database :=
  get_ok (match_loop 2 (limit_range placed_db placed_hi (price_inv (lim_sell_price alice_order))) placed_db)
    placed_db.

(** Bob's order was touched, so Carol's better one is gone. *)
Lemma price_time_priority_witness : objs (db_limit_orders matched_db) !! 0 = None.
Proof.
  destruct placed_db_ok as [Ha Hm].
  apply (price_time_priority placed_db 2 alice_order placed_hi matched_db 0 carol_order 1 bob_order).
  - exact Ha.
  - exact Hm.
  - reflexivity.
  - reflexivity.
  - vm_compute. reflexivity.
  - reflexivity.
  - reflexivity.
  - discriminate.
  - vm_compute. intuition congruence.
  - vm_compute. discriminate.
  - vm_compute. reflexivity.
  - vm_compute. discriminate.
Defined.

(** Alice's order takes all of Carol's. *)
Definition traded_db : database :=
  snd (get_ok (match_limit_orders placed_db 2 0 (lim_sell_price carol_order)) (false, false, placed_db)).

Lemma match_is_fair_witness : imbalance 1 traded_db = imbalance 1 placed_db.
Proof.
  destruct placed_db_ok as [Ha Hm].
  destruct (match_is_fair placed_db 2 0 alice_order carol_order false true traded_db) as [[_ E] _].
  - discriminate.
  - reflexivity.
  - reflexivity.
  - exact Ha.
  - exact Hm.
  - vm_compute. intuition congruence.
  - vm_compute. reflexivity.
  - exact (E 1).
Defined.

(** The dollar is settled at 2 dollars a coin. *)
Definition settled_db : database :=
  get_ok (globally_settle_asset market_db usd (mkPrice (mkAsset 2 usd) (mkAsset 1 core_id))) market_db.

Lemma globally_settle_correct_witness :
  imbalance 0 settled_db = 0 ∧ objs (db_call_orders settled_db) = ∅.
Proof.
  destruct market_db_ok as (Ha & Hm & Hi & _).
  destruct (globally_settle_correct market_db usd (mkPrice (mkAsset 2 usd) (mkAsset 1 core_id)) settled_db)
    as (_ & E & _); [exact Ha|exact Hm|vm_compute; reflexivity|].
  split; [rewrite E; exact Hi|vm_compute; reflexivity].
Defined.

(** Alice adds 1000 coins of collateral. *)
Definition alice_adds : call_order_update_operation :=
  mkCallUpdate (core_asset 5) alice (core_asset 1000) (mkAsset 0 usd).
Definition added_db : database := get_ok (call_order_update_do_apply market_db alice_adds) market_db.

Lemma call_order_update_correct_witness : imbalance 0 added_db = 0.
Proof.
  destruct market_db_ok as (Ha & Hm & Hi & _).
  destruct (call_order_update_correct market_db alice_adds added_db) as (_ & E & _).
  - vm_compute. split; reflexivity.
  - exact Ha.
  - exact Hm.
  - unfold collateral_in, market_db; simpl.
    repeat (apply map_Forall_insert_2; [done|]). apply map_Forall_empty.
  - vm_compute. reflexivity.
  - rewrite E. exact Hi.
Defined.

(** A day later both orders on the book have expired. *)
Definition expired_db : database :=
  set_dgpo (λ g, mkDgpo 100 1600000000 0 1000 0 100 (2 ^ 128 - 1) 0 90 0 0 0 0 0
    1570003600 1569999900 0) market_db.

Lemma set_dgpo_wf f d : assets_wf d → market_wf d → assets_wf (set_dgpo f d) ∧ market_wf (set_dgpo f d).
Proof. done. Qed.

Lemma clear_expired_limit_orders_correct_witness :
  imbalance 0 (get_ok (clear_expired_limit_orders 5 (Ok (core_asset 5)) expired_db) expired_db)
  = imbalance 0 expired_db.
Proof.
  destruct market_db_ok as (Ha0 & Hm0 & _).
  assert (assets_wf expired_db ∧ market_wf expired_db) as [Ha Hm] by exact (set_dgpo_wf _ market_db Ha0 Hm0).
  destruct (clear_expired_limit_orders_correct 5 (Ok (core_asset 5)) expired_db)
    as [(d' & E & Hi & _)|(e & E & _)]; [exact Ha|exact Hm|vm_compute; lia| |].
  - rewrite E. exact (Hi 0).
  - exfalso. revert E. vm_compute. discriminate.
Defined.

(** A margin call can read an order that was removed.  Bob sells 1001
    dollars for 334 coins while the positions of Alice and Carol are under
    their call price.  The order covers Alice's debt and has one dollar left,
    which is worth nothing at its price, so [fill_order] cancels it; the loop
    did not advance its iterator, since the order counts as not filled, and
    goes on to Carol's position with an iterator to the removed order. *)
Theorem margin_call_dangling_order :
  assets_wf market_db ∧ market_wf market_db ∧
  limit_order_create_start false false (Ok 5) market_db
    (mkLimitCreate (core_asset 5) bob (mkAsset 1001 usd) (mkAsset 334 core_id) 1600000000 false)
  = Throw undefined_behaviour.
Proof.
  destruct market_db_ok as (Ha & Hm & _). split_and!; [exact Ha|exact Hm|]. vm_compute. reflexivity.
Qed.
