(* ===== verification/AssetOps.v ===== *)
(** * Asset operations ([protocol/asset_ops.cpp], [asset_evaluator.cpp])

    Creation, issue, reservation, settings, price feeds, fee pools and
    settlement of assets: the data of the operations, their validation and
    their evaluators. *)

From stdpp Require Import gmap list strings.
From Stdlib Require Import ZArith Lia Ascii.
From S2P Require Import Prelude Fc Config Asset Objects Database Balances Fees Market PriceFeeds.

Local Open Scope Z_scope.

(** ** Data *)

(** [asset_options]. *)
Record asset_options := mkOptions {
  opt_max_supply : Z;
  opt_market_fee_percent : Z;
  opt_max_market_fee : Z;
  opt_issuer_permissions : Z;
  opt_flags : Z;
  opt_core_exchange_rate : price;
  opt_whitelist_authorities : gset Z;
  opt_blacklist_authorities : gset Z;
  opt_whitelist_markets : gset Z;
  opt_blacklist_markets : gset Z
}.

Record asset_create_operation := mkAssetCreate {
  ac_fee : asset;
  ac_issuer : Z;
  ac_symbol : string;
  ac_precision : Z;
  ac_common_options : asset_options;
  ac_bitasset_opts : option bitasset_options;
  ac_is_prediction_market : bool
}.

Record asset_issue_operation := mkAssetIssue {
  ai_fee : asset;
  ai_issuer : Z;
  ai_asset_to_issue : asset;
  ai_issue_to_account : Z
}.

Record asset_reserve_operation := mkAssetReserve {
  ar_fee : asset;
  ar_payer : Z;
  ar_amount_to_reserve : asset
}.

Record asset_fund_fee_pool_operation := mkFundPool {
  afp_fee : asset;
  afp_from_account : Z;
  afp_asset_id : Z;
  afp_amount : Z
}.

Record asset_update_operation := mkAssetUpdate {
  au_fee : asset;
  au_issuer : Z;
  au_asset_to_update : Z;
  au_new_issuer : option Z;
  au_new_options : asset_options
}.

Record asset_update_bitasset_operation := mkUpdateBitasset {
  aub_fee : asset;
  aub_issuer : Z;
  aub_asset_to_update : Z;
  aub_new_options : bitasset_options
}.

Record asset_update_feed_producers_operation := mkUpdateProducers {
  aup_fee : asset;
  aup_issuer : Z;
  aup_asset_to_update : Z;
  aup_new_feed_producers : gset Z
}.

Record asset_global_settle_operation := mkGlobalSettle {
  ags_fee : asset;
  ags_issuer : Z;
  ags_asset_to_settle : Z;
  ags_settle_price : price
}.

Record asset_settle_operation := mkAssetSettle {
  ase_fee : asset;
  ase_account : Z;
  ase_amount : asset
}.

Record asset_publish_feed_operation := mkPublishFeed {
  apf_fee : asset;
  apf_publisher : Z;
  apf_asset_id : Z;
  apf_feed : price_feed
}.

Record asset_claim_fees_operation := mkClaimFees {
  acf_fee : asset;
  acf_issuer : Z;
  acf_amount_to_claim : asset
}.

(** The options of an asset, and an asset with other options. *)
Definition options_of (a : asset_object) : asset_options :=
  mkOptions (as_max_supply a) (as_market_fee_percent a) (as_max_market_fee a) (as_issuer_permissions a)
    (as_flags a) (as_core_exchange_rate a) (as_whitelist_authorities a) (as_blacklist_authorities a)
    (as_whitelist_markets a) (as_blacklist_markets a).
Definition with_options (o : asset_options) (issuer : Z) (a : asset_object) : asset_object :=
  mkAssetObject issuer (opt_flags o) (opt_issuer_permissions o) (opt_whitelist_authorities o)
    (opt_blacklist_authorities o) (opt_core_exchange_rate o) (as_dynamic_asset_data_id a)
    (as_bitasset_data_id a) (as_buyback_account a) (as_symbol a) (as_precision a) (opt_max_supply o)
    (opt_market_fee_percent o) (opt_max_market_fee o) (opt_whitelist_markets o) (opt_blacklist_markets o).

(** ** Symbols *)

Definition is_upper (c : ascii) : bool := let n := Z.of_nat (nat_of_ascii c) in (65 <=? n) && (n <=? 90).
Definition is_lower (c : ascii) : bool := let n := Z.of_nat (nat_of_ascii c) in (97 <=? n) && (n <=? 122).
Definition is_digit (c : ascii) : bool := let n := Z.of_nat (nat_of_ascii c) in (48 <=? n) && (n <=? 57).
Definition is_alpha (c : ascii) : bool := is_upper c || is_lower c.
Definition is_dot (c : ascii) : bool := Ascii.eqb c ".".

Fixpoint symbol_chars (dot_already_present : bool) (l : list ascii) : bool :=
  match l with
  | [] => true
  | c :: l' =>
      if (is_alpha c && is_upper c) || is_digit c then symbol_chars dot_already_present l'
      else if is_dot c then (if dot_already_present then false else symbol_chars true l')
      else false
  end.

Definition is_valid_symbol (symbol : string) : bool :=
  let l := String.list_ascii_of_string symbol in
  let size := Z.of_nat (length l) in
  if size <? GRAPHENE_MIN_ASSET_SYMBOL_LENGTH then false
  else if bool_decide (String.substring 0 3 symbol = "BIT"%string) then false
  else if GRAPHENE_MAX_ASSET_SYMBOL_LENGTH <? size then false
  else if negb (from_option is_alpha false (head l)) then false
  else if negb (from_option is_alpha false (last l)) then false
  else symbol_chars false l.

(** [symbol.substr( 0, symbol.rfind('.') )]. *)
Definition symbol_prefix (symbol : string) : option string :=
  let fix drop_last (l : list ascii) : option (list ascii) :=   (* of the reversed symbol *)
    match l with
    | [] => None
    | c :: l' => if is_dot c then Some l' else drop_last l'
    end in
  (λ l, String.string_of_list_ascii (rev l)) <$> drop_last (rev (String.list_ascii_of_string symbol)).

(** ** Validation *)

(** The bits of [issuer_permissions] that are not known. *)
Definition ASSET_ISSUER_PERMISSION_MASK : Z :=
  Z.lor charge_market_fee (Z.lor white_list (Z.lor override_authority (Z.lor transfer_restricted
    (Z.lor disable_force_settle (Z.lor global_settle (Z.lor disable_confidential
      (Z.lor witness_fed_asset committee_fed_asset))))))).

Definition has_bits (x mask : Z) : bool := negb (Z.land x mask =? 0).

Section operations.
Context {FC : FcArith} {BA : BoostArith} {NE : NthElement}.

Definition asset_options_validate (o : asset_options) : result unit :=
  FC_ASSERT (0 <? opt_max_supply o) ;;
  FC_ASSERT (opt_max_supply o <=? GRAPHENE_MAX_SHARE_SUPPLY) ;;
  FC_ASSERT (opt_market_fee_percent o <=? GRAPHENE_100_PERCENT) ;;
  FC_ASSERT ((0 <=? opt_max_market_fee o) && (opt_max_market_fee o <=? GRAPHENE_MAX_SHARE_SUPPLY)) ;;
  FC_ASSERT (Z.ldiff (opt_issuer_permissions o) ASSET_ISSUER_PERMISSION_MASK =? 0) ;;
  FC_ASSERT (negb (has_bits (opt_flags o) global_settle)) ;;
  let fed := Z.lor witness_fed_asset committee_fed_asset in
  FC_ASSERT (negb (Z.land (opt_flags o) fed =? fed)) ;;
  let* _ := price_validate (opt_core_exchange_rate o) in
  FC_ASSERT ((asset_id (base (opt_core_exchange_rate o)) =? core_id)
             || (asset_id (quote (opt_core_exchange_rate o)) =? core_id)) ;;
  FC_ASSERT ((bool_decide (opt_whitelist_authorities o = ∅) && bool_decide (opt_blacklist_authorities o = ∅))
             || has_bits (opt_flags o) white_list) ;;
  require (bool_decide (opt_whitelist_markets o ## opt_blacklist_markets o)) assert_exception.

Definition bitasset_options_validate (o : bitasset_options) : result unit :=
  FC_ASSERT (0 <? bo_minimum_feeds o) ;;
  FC_ASSERT (bo_force_settlement_offset_percent o <=? GRAPHENE_100_PERCENT) ;;
  require (bo_maximum_force_settlement_volume o <=? GRAPHENE_100_PERCENT) assert_exception.

Definition asset_create_validate (op : asset_create_operation) : result unit :=
  FC_ASSERT (0 <=? amount (ac_fee op)) ;;
  FC_ASSERT (is_valid_symbol (ac_symbol op)) ;;
  let o := ac_common_options op in
  let* _ := asset_options_validate o in
  let bit := match ac_bitasset_opts op with Some _ => true | None => false end in
  FC_ASSERT (negb (has_bits (opt_issuer_permissions o) (Z.lor disable_force_settle global_settle)) || bit) ;;
  FC_ASSERT (negb (ac_is_prediction_market op)
             || bit && has_bits (opt_issuer_permissions o) global_settle) ;;
  let* _ := match ac_bitasset_opts op with Some b => bitasset_options_validate b | None => Ok tt end in
  let* dummy := asset_mul_price (mkAsset 1 core_id) (opt_core_exchange_rate o) in
  FC_ASSERT (asset_id dummy =? 1) ;;
  require (ac_precision op <=? 12) assert_exception.

Definition asset_update_validate (op : asset_update_operation) : result unit :=
  FC_ASSERT (0 <=? amount (au_fee op)) ;;
  FC_ASSERT (negb (bool_decide (au_new_issuer op = Some (au_issuer op)))) ;;
  let* _ := asset_options_validate (au_new_options op) in
  let* dummy := asset_mul_price (mkAsset 1 (au_asset_to_update op)) (opt_core_exchange_rate (au_new_options op)) in
  require (asset_id dummy =? core_id) assert_exception.

Definition asset_publish_feed_validate (op : asset_publish_feed_operation) : result unit :=
  let f := apf_feed op in
  FC_ASSERT (0 <=? amount (apf_fee op)) ;;
  let* _ := price_feed_validate f in
  let* _ := if price_is_null (core_exchange_rate f) then Ok tt else price_validate (core_exchange_rate f) in
  FC_ASSERT (price_is_null (settlement_price f) || price_is_null (core_exchange_rate f)
             || (asset_id (base (settlement_price f)) =? asset_id (base (core_exchange_rate f)))) ;;
  FC_ASSERT (negb (price_is_null (settlement_price f))) ;;
  FC_ASSERT (negb (price_is_null (core_exchange_rate f))) ;;
  require (price_feed_is_for f (apf_asset_id op)) assert_exception.

Definition asset_reserve_validate (op : asset_reserve_operation) : result unit :=
  FC_ASSERT (0 <=? amount (ar_fee op)) ;;
  FC_ASSERT (amount (ar_amount_to_reserve op) <=? GRAPHENE_MAX_SHARE_SUPPLY) ;;
  require (0 <? amount (ar_amount_to_reserve op)) assert_exception.

Definition asset_issue_validate (op : asset_issue_operation) : result unit :=
  FC_ASSERT (0 <=? amount (ai_fee op)) ;;
  FC_ASSERT (amount (ai_asset_to_issue op) <=? GRAPHENE_MAX_SHARE_SUPPLY) ;;
  FC_ASSERT (0 <? amount (ai_asset_to_issue op)) ;;
  require (negb (asset_id (ai_asset_to_issue op) =? core_id)) assert_exception.

Definition asset_fund_fee_pool_validate (op : asset_fund_fee_pool_operation) : result unit :=
  FC_ASSERT (0 <=? amount (afp_fee op)) ;;
  FC_ASSERT (asset_id (afp_fee op) =? core_id) ;;
  require (0 <? afp_amount op) assert_exception.

Definition asset_settle_validate (op : asset_settle_operation) : result unit :=
  FC_ASSERT (0 <=? amount (ase_fee op)) ;; require (0 <=? amount (ase_amount op)) assert_exception.

Definition asset_update_bitasset_validate (op : asset_update_bitasset_operation) : result unit :=
  FC_ASSERT (0 <=? amount (aub_fee op)) ;; bitasset_options_validate (aub_new_options op).

Definition asset_update_feed_producers_validate (op : asset_update_feed_producers_operation) : result unit :=
  require (0 <=? amount (aup_fee op)) assert_exception.

Definition asset_global_settle_validate (op : asset_global_settle_operation) : result unit :=
  FC_ASSERT (0 <=? amount (ags_fee op)) ;;
  require (ags_asset_to_settle op =? asset_id (base (ags_settle_price op))) assert_exception.

Definition asset_claim_fees_validate (op : asset_claim_fees_operation) : result unit :=
  FC_ASSERT (0 <=? amount (acf_fee op)) ;; require (0 <? amount (acf_amount_to_claim op)) assert_exception.
End operations.
