(* ===== verification/AssetText.v ===== *)
(** * Amounts as text ([asset_object::amount_to_string] and
    [amount_from_string])

    What the command line shows and reads: the conversions between amounts
    and decimal text, the round trip between them, and two inputs on which
    they go wrong.  Text is a list of characters; [std::to_string] and
    [std::stoll] are defined on it, [fc::to_string] is a parameter. *)

From stdpp Require Import base list strings.
From Stdlib Require Import ZArith Lia Ascii.
From S2P Require Import Prelude Fc Config Asset Objects Database AssetOps.

Local Open Scope Z_scope.

Definition text := list ascii.

(** ** The standard library *)

Definition digit_of (n : Z) : ascii := ascii_of_nat (Z.to_nat (48 + n)).
Definition digit_value (c : ascii) : Z := Z.of_nat (nat_of_ascii c) - 48.

(** The decimal digits of a number below [10 ^ fuel]. *)
Fixpoint decimal (fuel : nat) (n : Z) : text :=
  match fuel with
  | O => []
  | S fuel => if n <? 10 then [digit_of n] else decimal fuel (n / 10) ++ [digit_of (n mod 10)]
  end.

(** [std::to_string] of a 64-bit number: 20 digits are enough. *)
Definition std_to_string (z : Z) : text :=
  if z <? 0 then "-"%char :: decimal 20 (- z) else decimal 20 z.

Definition digits_value (l : text) : Z := foldl (λ v c, v * 10 + digit_value c) 0 l.
Fixpoint take_digits (l : text) : text :=
  match l with
  | [] => []
  | c :: l' => if is_digit c then c :: take_digits l' else []
  end.

(** [std::stoll] on text without blanks and [+]: what follows the digits is
    ignored; no digits and a number out of range are errors. *)
Definition stoll (l : text) : result Z :=
  let neg := match l with c :: _ => Ascii.eqb c "-" | [] => false end in
  match take_digits (if neg then drop 1 l else l) with
  | [] => Throw thrown
  | ds => let v := if neg then - digits_value ds else digits_value ds in
          if in_int64 v then Ok v else Throw thrown
  end.

(** [string::find] of a point. *)
Fixpoint find_point (l : text) : option nat :=
  match l with
  | [] => None
  | c :: l' => if is_dot c then Some O else S <$> find_point l'
  end.

(** [fc::to_string( int64_t )] is documented to be the decimal form. *)
Class FcToString := fc_to_string : Z → text.
Class FcToStringLaws (FS : FcToString) : Prop :=
  fc_to_string_spec : ∀ z, fc_to_string z = std_to_string z.

(** ** The conversions *)

(** The characters allowed, and which of minus and point were seen. *)
Fixpoint scan_amount (negative_found decimal_found : bool) (l : text) : result (bool * bool) :=
  match l with
  | [] => Ok (negative_found, decimal_found)
  | c :: l' =>
      if is_digit c then scan_amount negative_found decimal_found l'
      else if Ascii.eqb c "-" && negb negative_found then scan_amount true decimal_found l'
      else if is_dot c && negb decimal_found then scan_amount negative_found true l'
      else Throw thrown
  end.

Section conversions.
Context {FC : FcArith} {FS : FcToString}.

Definition amount_from_string (precision aid : Z) (amount_string : text) : result asset :=
  let* (negative_found, decimal_found) := scan_amount false false amount_string in
  let* scaled := scaled_precision precision in
  let decimal_pos := find_point amount_string in
  let rest := if negative_found then drop 1 amount_string else amount_string in
  let lhs := match decimal_pos with Some n => take n rest | None => rest end in
  let* satoshis :=
    if bool_decide (lhs = []) then Ok 0
    else let* v := stoll lhs in let* v := safe_mul v scaled in safe_add 0 v in
  let* satoshis :=
    match decimal_pos with
    | Some n =>
        let max_rhs_size := length (drop 1 (std_to_string scaled)) in
        let rhs := drop (n + 1) amount_string in
        FC_ASSERT (length rhs <=? max_rhs_size)%nat ;;
        let rhs := rhs ++ replicate (max_rhs_size - length rhs) "0"%char in
        if bool_decide (rhs = []) then Ok satoshis
        else let* v := stoll rhs in safe_add satoshis v
    | None => Ok satoshis
    end in
  FC_ASSERT (satoshis <=? GRAPHENE_MAX_SHARE_SUPPLY) ;;
  let* satoshis := if negative_found then safe_mul satoshis (-1) else Ok satoshis in
  Ok (mkAsset satoshis aid).

(** [scaled_precision *= 10], [precision] times. *)
Fixpoint power_of_ten (n : nat) (p : Z) : result Z :=
  match n with
  | O => Ok p
  | S n => let* q := safe_mul p 10 in power_of_ten n q
  end.

Definition amount_to_string (precision amt : Z) : result text :=
  let* scaled := power_of_ten (Z.to_nat precision) 1 in
  let decimals := Z.rem amt scaled in
  Ok (fc_to_string (Z.quot amt scaled)
      ++ (if decimals =? 0 then [] else "."%char :: drop 1 (fc_to_string (scaled + decimals)))).
End conversions.

(** ** Decimal digits *)

Lemma digit_of_ok n : 0 <= n < 10 → is_digit (digit_of n) = true ∧ digit_value (digit_of n) = n.
Proof.
  intros Hn. assert (n = 0 ∨ n = 1 ∨ n = 2 ∨ n = 3 ∨ n = 4 ∨ n = 5 ∨ n = 6 ∨ n = 7 ∨ n = 8 ∨ n = 9) as H by lia.
  repeat (destruct H as [->|H]; [split; reflexivity|]). subst. split; reflexivity.
Qed.

Lemma digits_value_snoc l c : digits_value (l ++ [c]) = digits_value l * 10 + digit_value c.
Proof. unfold digits_value. by rewrite foldl_app. Qed.

Definition all_digits (l : text) : Prop := Forall (λ c, is_digit c = true) l.

Lemma decimal_ok fuel n :
  0 <= n < 10 ^ Z.of_nat fuel → (0 < fuel)%nat →
  digits_value (decimal fuel n) = n ∧ all_digits (decimal fuel n) ∧ decimal fuel n ≠ [].
Proof.
  revert n. induction fuel as [|fuel IH]; intros n Hn Hf; [lia|]. cbn [decimal].
  destruct (Z.ltb_spec n 10) as [Hlt|Hge].
  - destruct (digit_of_ok n) as [Hd Hv]; [lia|]. split_and!; [|by repeat constructor|done].
    unfold digits_value; simpl. lia.
  - rewrite Nat2Z.inj_succ, Z.pow_succ_r in Hn by lia.
    destruct (digit_of_ok (n mod 10)) as [Hd Hv]; [apply Z.mod_pos_bound; lia|].
    destruct (IH (n / 10)) as (V & D & Ne).
    + split; [apply Z.div_pos; lia|apply Z.div_lt_upper_bound; lia].
    + destruct fuel; [simpl in Hn; lia|lia].
    + rewrite digits_value_snoc, V, Hv. split_and!; [pose proof (Z.div_mod n 10); lia| |by destruct (decimal fuel _)].
      apply Forall_app. by repeat constructor.
Qed.

(** [10 ^ p + r] is a one and the [p] digits of [r]. *)
Lemma decimal_lead p fuel n :
  10 ^ Z.of_nat p <= n < 2 * 10 ^ Z.of_nat p → (p < fuel)%nat →
  ∃ ds, decimal fuel n = "1"%char :: ds ∧ length ds = p ∧ digits_value ds = n - 10 ^ Z.of_nat p ∧ all_digits ds.
Proof.
  revert fuel n. induction p as [|p IH]; intros [|fuel] n Hn Hf; try lia; cbn [decimal].
  - assert (n = 1) as -> by (simpl in Hn; lia). exists []. by split_and!; try constructor.
  - rewrite Nat2Z.inj_succ, Z.pow_succ_r in * by lia.
    pose proof (Z.pow_pos_nonneg 10 (Z.of_nat p) ltac:(lia) ltac:(lia)).
    destruct (Z.ltb_spec n 10) as [|_]; [lia|].
    destruct (digit_of_ok (n mod 10)) as [Hd Hv]; [apply Z.mod_pos_bound; lia|].
    destruct (IH fuel (n / 10)) as (ds & E & L & V & D).
    + split; [apply Z.div_le_lower_bound; lia|apply Z.div_lt_upper_bound; lia].
    + lia.
    + exists (ds ++ [digit_of (n mod 10)]). rewrite E. split_and!; [done|rewrite length_app; simpl; lia| |].
      * rewrite digits_value_snoc, V, Hv. pose proof (Z.div_mod n 10). lia.
      * apply Forall_app. by repeat constructor.
Qed.

Lemma digit_not c d : is_digit c = true → is_digit d = false → Ascii.eqb c d = false.
Proof. intros Hc Hd. destruct (Ascii.eqb_spec c d); congruence. Qed.

Lemma take_digits_all l : all_digits l → take_digits l = l.
Proof. induction 1 as [|c l Hc _ IH]; simpl; [done|]. by rewrite Hc, IH. Qed.

Lemma stoll_digits l : all_digits l → l ≠ [] → in_int64 (digits_value l) = true → stoll l = Ok (digits_value l).
Proof.
  intros Hl Hne Hv. unfold stoll. destruct l as [|c l]; [done|]. pose proof Hl as [Hc _]%Forall_cons.
  rewrite (digit_not c "-") by done. rewrite take_digits_all by done. by rewrite Hv.
Qed.

Lemma scan_digits n d l l' : all_digits l → scan_amount n d (l ++ l') = scan_amount n d l'.
Proof. induction 1 as [|c l Hc _ IH]; simpl; [done|]. by rewrite Hc. Qed.

Lemma find_point_digits l l' : all_digits l → find_point (l ++ l') = (λ n, (length l + n)%nat) <$> find_point l'.
Proof.
  induction 1 as [|c l Hc _ IH]; simpl; [by destruct (find_point l')|].
  unfold is_dot. rewrite (digit_not c ".") by done. rewrite IH. by destruct (find_point l').
Qed.

(** ** Round trip *)

Section properties.
Context {FC : FcArith} {FCL : FcArithLaws FC} {FS : FcToString} {FSL : FcToStringLaws FS}.

Lemma power_of_ten_ok n p : 0 <= p → p * 10 ^ Z.of_nat n < 2 ^ 63 → power_of_ten n p = Ok (p * 10 ^ Z.of_nat n).
Proof.
  revert p. induction n as [|n IH]; intros p Hp Hb; cbn [power_of_ten]; [f_equal; simpl; lia|].
  rewrite Nat2Z.inj_succ, Z.pow_succ_r in * by lia.
  pose proof (Z.pow_pos_nonneg 10 (Z.of_nat n) ltac:(lia) ltac:(lia)).
  rewrite safe_mul_spec. unfold check_int64, in_int64.
  replace ((- 2 ^ 63 <=? p * 10) && (p * 10 <? 2 ^ 63)) with true by (symmetry; apply andb_true_iff; split;
    [apply Z.leb_le; nia|apply Z.ltb_lt; nia]).
  simpl. rewrite IH by nia. f_equal. lia.
Qed.

Lemma scaled_precision_ok p : 0 <= p < 19 → scaled_precision p = Ok (10 ^ p).
Proof.
  intros Hp. assert (∃ n, p = Z.of_nat n ∧ (n < 19)%nat) as (n & -> & Hn).
  { exists (Z.to_nat p). lia. }
  do 19 (destruct n as [|n]; [by vm_compute|]). lia.
Qed.

Lemma std_to_string_ok n :
  0 <= n < 10 ^ 20 →
  digits_value (std_to_string n) = n ∧ all_digits (std_to_string n) ∧ std_to_string n ≠ [].
Proof.
  intros Hn. unfold std_to_string. destruct (Z.ltb_spec n 0); [lia|].
  apply decimal_ok; [exact Hn|lia].
Qed.

(** The fraction printed after the point. *)
Lemma fraction_ok p r :
  (p < 19)%nat → 0 <= r < 10 ^ Z.of_nat p →
  ∃ ds, drop 1 (std_to_string (10 ^ Z.of_nat p + r)) = ds ∧ length ds = p ∧ digits_value ds = r ∧ all_digits ds.
Proof.
  intros Hp Hr. unfold std_to_string. destruct (Z.ltb_spec (10 ^ Z.of_nat p + r) 0); [lia|].
  destruct (decimal_lead p 20 (10 ^ Z.of_nat p + r)) as (ds & -> & ? & V & ?); [lia|lia|].
  exists ds. split_and!; [done..|rewrite V; lia|done].
Qed.

(** Reading [lhs], a point and [rhs], a full fraction. *)
Lemma read_amount p aid q r lhs rhs :
  (p < 19)%nat → 0 <= q → 0 <= r < 10 ^ Z.of_nat p → q * 10 ^ Z.of_nat p + r <= GRAPHENE_MAX_SHARE_SUPPLY →
  all_digits lhs → lhs ≠ [] → digits_value lhs = q →
  (rhs = None ∧ r = 0 ∨ ∃ ds, rhs = Some ds ∧ all_digits ds ∧ length ds = p ∧ digits_value ds = r) →
  amount_from_string (Z.of_nat p) aid (lhs ++ from_option (cons "."%char) [] rhs)
  = Ok (mkAsset (q * 10 ^ Z.of_nat p + r) aid).
Proof.
  intros Hp Hq Hr Hmax Hl Hne Hv Hrhs. pose proof (Z.pow_pos_nonneg 10 (Z.of_nat p) ltac:(lia) ltac:(lia)).
  assert (∀ y, y <= 1000000000000000 → (y <=? GRAPHENE_MAX_SHARE_SUPPLY) = true) as Hle by (intros; by apply Z.leb_le).
  unfold GRAPHENE_MAX_SHARE_SUPPLY in Hmax.
  assert (in_int64 q = true) as Hqi by (unfold in_int64; apply andb_true_iff; nia).
  assert (stoll lhs = Ok q) as Hs by (rewrite stoll_digits by (by rewrite ?Hv); by rewrite Hv).
  assert (safe_mul q (10 ^ Z.of_nat p) = Ok (q * 10 ^ Z.of_nat p)) as Hm by (apply safe_mul_ok; split; [done|nia]).
  assert (safe_add 0 (q * 10 ^ Z.of_nat p) = Ok (q * 10 ^ Z.of_nat p)) as Ha by (apply safe_add_ok; nia).
  unfold amount_from_string. rewrite scan_digits, find_point_digits by done.
  destruct Hrhs as [[-> ->]|(ds & -> & Hd & Hlen & Hdv)]; simpl.
  - rewrite scaled_precision_ok by lia. simpl. rewrite app_nil_r, bool_decide_false by done. rewrite Hs. simpl.
    rewrite Hm. simpl. rewrite Ha. simpl. rewrite Z.add_0_r.
    by rewrite Hle by lia.
  - rewrite <- (app_nil_r ds) at 1. rewrite scan_digits by done. simpl.
    rewrite scaled_precision_ok by lia. simpl. rewrite Nat.add_0_r, take_app_length, bool_decide_false by done.
    rewrite Hs. simpl. rewrite Hm. simpl. rewrite Ha. simpl.
    destruct (fraction_ok p 0) as (zs & Hz & Hzl & _); [done|lia|]. rewrite Z.add_0_r in Hz.
    rewrite Hz, drop_app_add. simpl. rewrite drop_0, Hlen, Hzl, Nat.leb_refl, Nat.sub_diag. simpl.
    rewrite app_nil_r. case_bool_decide as Hnil; simpl.
    + assert (r = 0) as -> by (by subst ds). rewrite Z.add_0_r. by rewrite Hle by lia.
    + rewrite stoll_digits by (rewrite ?Hdv; try done; unfold in_int64; apply andb_true_iff; lia).
      simpl. rewrite Hdv. rewrite (proj2 (safe_add_ok _ _ (q * 10 ^ Z.of_nat p + r))) by nia. simpl.
      by rewrite Hle by lia.
Qed.

(** C19.  Printing an amount and reading the text gives the amount back, for
    every precision an asset can have and every amount from zero to the
    largest supply. *)
Theorem amount_text_round_trip p aid x :
  0 <= p < 19 → 0 <= x <= GRAPHENE_MAX_SHARE_SUPPLY →
  ∃ s, amount_to_string p x = Ok s ∧ amount_from_string p aid s = Ok (mkAsset x aid).
Proof.
  intros Hp Hx. assert (∃ n, p = Z.of_nat n ∧ (n < 19)%nat) as (n & -> & Hn) by (exists (Z.to_nat p); lia).
  pose proof (Z.pow_pos_nonneg 10 (Z.of_nat n) ltac:(lia) ltac:(lia)) as Hpos.
  assert (10 ^ Z.of_nat n <= 10 ^ 18) as Hle by (apply Z.pow_le_mono_r; lia).
  unfold amount_to_string. rewrite Nat2Z.id, power_of_ten_ok by lia. cbn [rbind]. rewrite Z.mul_1_l.
  rewrite Z.quot_div_nonneg, Z.rem_mod_nonneg, !fc_to_string_spec by lia.
  set (q := x / 10 ^ Z.of_nat n). set (r := x mod 10 ^ Z.of_nat n).
  assert (x = q * 10 ^ Z.of_nat n + r) as E by (pose proof (Z.div_mod x (10 ^ Z.of_nat n)); subst q r; lia).
  assert (0 <= r < 10 ^ Z.of_nat n) as Hr by (by apply Z.mod_pos_bound).
  assert (0 <= q) as Hq by (apply Z.div_pos; lia). unfold GRAPHENE_MAX_SHARE_SUPPLY in Hx.
  destruct (std_to_string_ok q) as (Hv & Hd & Hne); [nia|]. eexists. split; [done|].
  rewrite E. destruct (Z.eqb_spec r 0) as [Hr0|Hr0].
  - apply (read_amount n aid q r _ None); try done; [unfold GRAPHENE_MAX_SHARE_SUPPLY; lia|by left].
  - destruct (fraction_ok n r) as (ds & -> & ? & ? & ?); [done..|].
    apply (read_amount n aid q r _ (Some ds)); try done; [unfold GRAPHENE_MAX_SHARE_SUPPLY; lia|right; by exists ds].
Qed.
End properties.

(** ** Runs *)

#[export] Instance to_string_reference : FcToString := std_to_string.
#[export] Instance to_string_reference_laws : FcToStringLaws to_string_reference.
Proof. by intros z. Qed.

#[local] Existing Instance fc_reference.
#[local] Existing Instance fc_reference_laws.

Definition chars : string → text := String.list_ascii_of_string.

Lemma amount_text_round_trip_witness :
  amount_to_string 5 123456 = Ok (chars "1.23456") ∧
  amount_from_string 5 0 (chars "1.23456") = Ok (mkAsset 123456 0).
Proof.
  destruct (amount_text_round_trip 5 0 123456) as (s & Hs & Hr).
  - vm_compute. intuition congruence.
  - vm_compute. intuition congruence.
  - assert (amount_to_string 5 123456 = Ok (chars "1.23456")) as E by (vm_compute; reflexivity).
    rewrite E in Hs. injection Hs as <-. split; [exact E|exact Hr].
Defined.

(** A debt of 1.50 is printed as a debt of 1; a minus in the middle of the
    text is taken for the number's sign twice. *)
Lemma negative_amount_misprinted :
  amount_to_string 2 (-150) = Ok (chars "-1.0") ∧
  amount_from_string 2 0 (chars "-1.0") = Ok (mkAsset (-100) 0).
Proof. split; vm_compute; reflexivity. Qed.

Lemma minus_inside_number : amount_from_string 2 0 (chars "1-2") = Ok (mkAsset 200 0).
Proof. vm_compute. reflexivity. Qed.
