(* ===== verification/AssetEval.v ===== *)
(** * Asset operations: the evaluators ([asset_evaluator.cpp]) *)

From stdpp Require Import gmap list strings.
From Stdlib Require Import ZArith Lia.
From S2P Require Import Prelude Fc Config Authority Asset Objects Database Balances Fees Market PriceFeeds AssetOps.

Local Open Scope Z_scope.

(** [force_settlement_index] by expiration: by asset, date and age. *)
Definition settlement_before (a b : Z * force_settlement_object) : bool :=
  let x := asset_id (fs_balance a.2) in let y := asset_id (fs_balance b.2) in
  (x <? y) || ((x =? y) && ((fs_settlement_date a.2 <? fs_settlement_date b.2)
    || ((fs_settlement_date a.2 =? fs_settlement_date b.2) && (a.1 <? b.1)))).

(** The settlement requests in [aid]. *)
Definition settlements_in (d : database) (aid : Z) : list Z :=
  visit settlement_before (λ s, asset_id (fs_balance s) =? aid) (objs (db_settlements d)).

(** [asset_index] by symbol. *)
Definition find_symbol (d : database) (symbol : string) : option (Z * asset_object) :=
  List.find (λ ia, bool_decide (as_symbol ia.2 = symbol)) (in_order (λ x y, x.1 <? y.1) (db_assets d)).

Section operations.
Context {FC : FcArith} {BA : BoostArith} {NE : NthElement}.

(** [d.get_object(id)] for each account of a set. *)
Definition accounts_exist (d : database) (ids : gset Z) : bool :=
  forallb (λ id, bool_decide (is_Some (objs (db_accounts d) !! id))) (flat_elements ids).

Definition check_listing_authorities (d : database) (o : asset_options) : result unit :=
  let max := cp_maximum_asset_whitelist_authorities (parameters d) in
  FC_ASSERT (Z.of_nat (size (opt_whitelist_authorities o)) <=? max) ;;
  FC_ASSERT (Z.of_nat (size (opt_blacklist_authorities o)) <=? max) ;;
  GRAPHENE_ASSERT (accounts_exist d (opt_whitelist_authorities o)) else unknown_object ;;
  require (accounts_exist d (opt_blacklist_authorities o)) unknown_object.

(** ** Creation *)

(** Only the issuer of [A] may create [A.B], by the rules of the time. *)
Definition check_symbol_prefix (d : database) (op : asset_create_operation) : result unit :=
  if HARDFORK_385_TIME <? head_block_time d then
    match symbol_prefix (ac_symbol op) with
    | None => Ok tt
    | Some prefix =>
        let key := if head_block_time d <=? HARDFORK_409_TIME then ac_symbol op else prefix in
        match find_symbol d key with
        | None => Throw assert_exception
        | Some (_, a) => require (as_issuer a =? ac_issuer op) assert_exception
        end
    end
  else Ok tt.

Definition check_backing (d : database) (op : asset_create_operation) (o : bitasset_options) : result unit :=
  let backing_id := bo_short_backing_asset o in
  let* backing_asset := get_asset_object d backing_id in
  let* _ :=
    if is_market_issued backing_asset then
      let* data := get_bitasset d backing_asset in
      let* backing_backing := get_asset_object d (backing data) in
      FC_ASSERT (negb (is_market_issued backing_backing)) ;;
      require (negb (ac_issuer op =? GRAPHENE_COMMITTEE_ACCOUNT) || (backing data =? core_id)) assert_exception
    else
      require (negb (ac_issuer op =? GRAPHENE_COMMITTEE_ACCOUNT) || (backing_id =? core_id)) assert_exception in
  require ((block_interval d <? bo_feed_lifetime_sec o)
           && (block_interval d <? bo_force_settlement_delay_sec o)) assert_exception.

Definition asset_create_do_evaluate (d : database) (op : asset_create_operation) : result unit :=
  let* _ := check_listing_authorities d (ac_common_options op) in
  FC_ASSERT (match find_symbol d (ac_symbol op) with None => true | Some _ => false end) ;;
  let* _ := check_symbol_prefix d op in
  let* _ := match ac_bitasset_opts op with Some o => check_backing d op o | None => Ok tt end in
  let* _ :=
    if ac_is_prediction_market op then
      match ac_bitasset_opts op with
      | None => Throw assert_exception
      | Some o =>
          let* a := get_asset_object d (bo_short_backing_asset o) in
          require (ac_precision op =? as_precision a) assert_exception
      end
    else Ok tt in
  if head_block_time d <=? HARDFORK_CORE_429_TIME
  then require (asset_id (ac_fee op) =? core_id) assert_exception else Ok tt.

(** [pay_fee] is overridden: half of the fee (rounded down) goes into the fee
    pool of the new asset.  The evaluator with the rest as the fee, and
    whether the fee is odd. *)
Definition asset_create_pay_fee (skip_fee : bool) (g : generic_evaluator) (d : database)
    : result (generic_evaluator * bool * database) :=
  let fee_is_odd := Z.land (core_fee_paid g) 1 =? 1 in
  let g := mkGeneric (fee_from_account g) (core_fee_paid g - Z.quot (core_fee_paid g) 2)
             (fee_paying_account g) (fee_paying_account_statistics g) (fee_asset g) (fee_asset_dyn_data g) in
  let* d := pay_fee skip_fee g d in Ok (g, fee_is_odd, d).

(** [create] in the three tables of assets. *)
Definition create_asset_dyn (v : asset_dynamic_data_object) (d : database) : result (Z * database) :=
  let id := db_next_asset_dyn d in
  FC_ASSERT (bool_decide (db_asset_dyn d !! id = None)) ;;
  Ok (id, set_next_asset_dyn (λ n, n + 1) (set_asset_dyn (<[id := v]>) d)).
Definition create_bitasset (v : asset_bitasset_data_object) (d : database) : result (Z * database) :=
  let id := db_next_bitasset d in
  FC_ASSERT (bool_decide (db_bitassets d !! id = None)) ;;
  Ok (id, set_next_bitasset (λ n, n + 1) (set_bitassets (<[id := v]>) d)).
Definition create_asset (f : Z → asset_object) (d : database) : result (Z * database) :=
  let id := db_next_asset d in
  let v := f id in
  FC_ASSERT (bool_decide (db_assets d !! id = None)
             && match find_symbol d (as_symbol v) with None => true | Some _ => false end) ;;
  Ok (id, set_next_asset (λ n, n + 1) (set_assets (<[id := v]>) d)).

(** The new asset [id]; the exchange rate is completed with its id. *)
Definition created_asset (op : asset_create_operation) (dyn : Z) (bit : option Z) (id : Z) : asset_object :=
  let o := ac_common_options op in
  let r := opt_core_exchange_rate o in
  let rate := if asset_id (base r) =? 0
              then mkPrice (base r) (mkAsset (amount (quote r)) id)
              else mkPrice (mkAsset (amount (base r)) id) (quote r) in
  mkAssetObject (ac_issuer op) (opt_flags o) (opt_issuer_permissions o) (opt_whitelist_authorities o)
    (opt_blacklist_authorities o) rate dyn bit None (ac_symbol op) (ac_precision op) (opt_max_supply o)
    (opt_market_fee_percent o) (opt_max_market_fee o) (opt_whitelist_markets o) (opt_blacklist_markets o).

Definition asset_create_do_apply (d : database) (op : asset_create_operation) (core_fee : Z) (fee_is_odd : bool)
    : result (Z * database) :=
  let hf_429 := fee_is_odd && (HARDFORK_CORE_429_TIME <? head_block_time d) in
  let* (dyn, d) := create_asset_dyn (mkDynData 0 0 0 (core_fee - (if hf_429 then 1 else 0))) d in
  let* d :=
    if fee_is_odd && negb hf_429 then
      let* core := get_asset_object d core_id in
      modify_asset_dyn d (as_dynamic_asset_data_id core)
        (λ s, let* n := safe_add (dd_current_supply s) 1 in Ok (set_current_supply (λ _, n) s))
    else Ok d in
  let* (bit, d) :=
    match ac_bitasset_opts op with
    | None => Ok (None, d)
    | Some o => let* (i, d) := create_bitasset (new_bitasset o (ac_is_prediction_market op)) d in Ok (Some i, d)
    end in
  create_asset (created_asset op dyn bit) d.

(** [evaluator::evaluate] and [evaluator::apply] with the overridden [pay_fee]. *)
Definition asset_create_start (skip_fee skip_check : bool) (required_fee : result Z)
    (d : database) (op : asset_create_operation) : result (Z * database) :=
  let* g := prepare_fee d (ac_issuer op) (ac_fee op) in
  let* _ :=
    if skip_check then Ok tt
    else let* r := required_fee in require (r <=? core_fee_paid g) insufficient_fee in
  let* _ := asset_create_do_evaluate d op in
  let* d := convert_fee skip_fee g d in
  let* (g, fee_is_odd, d) := asset_create_pay_fee skip_fee g d in
  let* (id, d) := asset_create_do_apply d op (core_fee_paid g) fee_is_odd in
  let* n := asset_neg (fee_from_account g) in
  let* d := adjust_balance d (ac_issuer op) n in
  Ok (id, d).

(** ** Issuing and reserving *)

(** [modify( *asset_dyn_data, current_supply += x )]. *)
Definition add_to_supply (d : database) (a : asset_object) (x : Z) : result database :=
  modify_asset_dyn d (as_dynamic_asset_data_id a)
    (λ s, let* n := safe_add (dd_current_supply s) x in Ok (set_current_supply (λ _, n) s)).
Definition take_from_supply (d : database) (a : asset_object) (x : Z) : result database :=
  modify_asset_dyn d (as_dynamic_asset_data_id a)
    (λ s, let* n := safe_sub (dd_current_supply s) x in Ok (set_current_supply (λ _, n) s)).

Definition asset_issue_do_evaluate (d : database) (op : asset_issue_operation) : result asset_object :=
  let aid := asset_id (ai_asset_to_issue op) in
  let* a := get_asset_object d aid in
  FC_ASSERT (ai_issuer op =? as_issuer a) ;;
  FC_ASSERT (negb (is_market_issued a)) ;;
  let* to_account := get_account d (ai_issue_to_account op) in
  FC_ASSERT (is_authorized_asset d to_account aid a) ;;
  let* dyn := get_asset_dyn d (as_dynamic_asset_data_id a) in
  let* n := safe_add (dd_current_supply dyn) (amount (ai_asset_to_issue op)) in
  FC_ASSERT (n <=? as_max_supply a) ;;
  Ok a.

Definition asset_issue_do_apply (d : database) (op : asset_issue_operation) (a : asset_object)
    : result database :=
  let* d := adjust_balance d (ai_issue_to_account op) (ai_asset_to_issue op) in
  add_to_supply d a (amount (ai_asset_to_issue op)).

Definition asset_reserve_do_evaluate (d : database) (op : asset_reserve_operation) : result asset_object :=
  let aid := asset_id (ar_amount_to_reserve op) in
  let* a := get_asset_object d aid in
  GRAPHENE_ASSERT (negb (is_market_issued a)) else asset_reserve_invalid_on_mia ;;
  let* from_account := get_account d (ar_payer op) in
  FC_ASSERT (is_authorized_asset d from_account aid a) ;;
  let* dyn := get_asset_dyn d (as_dynamic_asset_data_id a) in
  let* n := safe_sub (dd_current_supply dyn) (amount (ar_amount_to_reserve op)) in
  FC_ASSERT (0 <=? n) ;;
  Ok a.

Definition asset_reserve_do_apply (d : database) (op : asset_reserve_operation) (a : asset_object)
    : result database :=
  let* n := asset_neg (ar_amount_to_reserve op) in
  let* d := adjust_balance d (ar_payer op) n in
  take_from_supply d a (amount (ar_amount_to_reserve op)).

Definition asset_fund_fee_pool_do_evaluate (d : database) (op : asset_fund_fee_pool_operation)
    : result asset_object :=
  let* a := get_asset_object d (afp_asset_id op) in
  let* _ := get_asset_dyn d (as_dynamic_asset_data_id a) in Ok a.

Definition asset_fund_fee_pool_do_apply (d : database) (op : asset_fund_fee_pool_operation) (a : asset_object)
    : result database :=
  let* n := safe_neg (afp_amount op) in
  let* d := adjust_balance d (afp_from_account op) (core_asset n) in
  modify_asset_dyn d (as_dynamic_asset_data_id a)
    (λ s, let* p := safe_add (dd_fee_pool s) (afp_amount op) in Ok (set_fee_pool (λ _, p) s)).

Definition asset_claim_fees_do_evaluate (d : database) (op : asset_claim_fees_operation) : result unit :=
  FC_ASSERT (HARDFORK_413_TIME <? head_block_time d) ;;
  let* a := get_asset_object d (asset_id (acf_amount_to_claim op)) in
  require (as_issuer a =? acf_issuer op) assert_exception.

Definition asset_claim_fees_do_apply (d : database) (op : asset_claim_fees_operation) : result database :=
  let* a := get_asset_object d (asset_id (acf_amount_to_claim op)) in
  let* dyn := get_asset_dyn d (as_dynamic_asset_data_id a) in
  FC_ASSERT (amount (acf_amount_to_claim op) <=? dd_accumulated_fees dyn) ;;
  let* d := modify_asset_dyn d (as_dynamic_asset_data_id a)
    (λ s, let* f := safe_sub (dd_accumulated_fees s) (amount (acf_amount_to_claim op)) in
          Ok (set_accumulated_fees (λ _, f) s)) in
  adjust_balance d (acf_issuer op) (acf_amount_to_claim op).

(** ** Settings *)

(** A market-issued asset of the committee must be backed by the core asset,
    perhaps through one other asset; [data] are those of the asset. *)
Definition check_committee_backing (d : database) (data : asset_bitasset_data_object) : result unit :=
  let* backing_asset := get_asset_object d (backing data) in
  if is_market_issued backing_asset then
    let* backing_data := get_bitasset d backing_asset in
    let* _ := get_asset_object d (backing backing_data) in
    require (backing backing_data =? core_id) assert_exception
  else require (backing data =? core_id) assert_exception.

(** [asset_object::validate]. *)
Definition asset_object_validate (a : asset_object) : result unit :=
  require (is_market_issued a
           || negb (has_bits (as_flags a) disable_force_settle || has_bits (as_flags a) global_settle)
              && negb (has_bits (as_issuer_permissions a) disable_force_settle
                       || has_bits (as_issuer_permissions a) global_settle)) assert_exception.

Definition asset_update_do_evaluate (d : database) (op : asset_update_operation) : result asset_object :=
  let o := au_new_options op in
  let* a := get_asset_object d (au_asset_to_update op) in
  let* _ := asset_object_validate (with_options o (as_issuer a) a) in
  let* _ :=
    match au_new_issuer op with
    | None => Ok tt
    | Some i =>
        FC_ASSERT (bool_decide (is_Some (objs (db_accounts d) !! i))) ;;
        if is_market_issued a && (i =? GRAPHENE_COMMITTEE_ACCOUNT) then
          let* data := get_bitasset d a in check_committee_backing d data
        else Ok tt
    end in
  let* dyn := get_asset_dyn d (as_dynamic_asset_data_id a) in
  FC_ASSERT (negb ((head_block_time d <? HARDFORK_572_TIME) || negb (dd_current_supply dyn =? 0))
             || (Z.ldiff (opt_issuer_permissions o) (as_issuer_permissions a) =? 0)) ;;
  FC_ASSERT (Z.ldiff (Z.lxor (opt_flags o) (as_flags a)) (as_issuer_permissions a) =? 0) ;;
  FC_ASSERT (au_issuer op =? as_issuer a) ;;
  let max := cp_maximum_asset_whitelist_authorities (parameters d) in
  FC_ASSERT (Z.of_nat (size (opt_whitelist_authorities o)) <=? max) ;;
  GRAPHENE_ASSERT (accounts_exist d (opt_whitelist_authorities o)) else unknown_object ;;
  FC_ASSERT (Z.of_nat (size (opt_blacklist_authorities o)) <=? max) ;;
  GRAPHENE_ASSERT (accounts_exist d (opt_blacklist_authorities o)) else unknown_object ;;
  Ok a.

Definition modify_asset (d : database) (aid : Z) (f : asset_object → asset_object) : result database :=
  let* a := get_asset_object d aid in Ok (set_assets (<[aid := f a]>) d).

Definition asset_update_do_apply (d : database) (op : asset_update_operation) (a : asset_object)
    : result database :=
  let o := au_new_options op in
  let* d :=
    if has_bits (opt_flags o) disable_force_settle && can_force_settle a
    then rfold cancel_settlement d (settlements_in d (au_asset_to_update op)) else Ok d in
  modify_asset d (au_asset_to_update op) (λ a, with_options o (default (as_issuer a) (au_new_issuer op)) a).

Definition asset_update_bitasset_do_evaluate (d : database) (op : asset_update_bitasset_operation)
    : result asset_object :=
  let* a := get_asset_object d (aub_asset_to_update op) in
  FC_ASSERT (is_market_issued a) ;;
  let* b := get_bitasset d a in
  FC_ASSERT (negb (has_settlement b)) ;;
  let new_backing := bo_short_backing_asset (aub_new_options op) in
  let* _ :=
    if negb (new_backing =? backing b) then
      let* dyn := get_asset_dyn d (as_dynamic_asset_data_id a) in
      FC_ASSERT (dd_current_supply dyn =? 0) ;;
      FC_ASSERT (bool_decide (is_Some (db_assets d !! new_backing))) ;;
      if as_issuer a =? GRAPHENE_COMMITTEE_ACCOUNT then check_committee_backing d b else Ok tt
    else Ok tt in
  FC_ASSERT (aub_issuer op =? as_issuer a) ;;
  Ok a.

Definition asset_update_bitasset_do_apply (d : database) (op : asset_update_bitasset_operation)
    (a : asset_object) : result database :=
  modify_bitasset d a (λ b,
    let b' := set_bitasset_options (λ _, aub_new_options op) b in
    Ok (if bo_minimum_feeds (aub_new_options op) =? bo_minimum_feeds (bd_options b) then b'
        else update_median_feeds (head_block_time d) b')).

Definition asset_update_feed_producers_do_evaluate (d : database) (op : asset_update_feed_producers_operation)
    : result asset_object :=
  let ps := aup_new_feed_producers op in
  FC_ASSERT (Z.of_nat (size ps) <=? cp_maximum_asset_feed_publishers (parameters d)) ;;
  GRAPHENE_ASSERT (accounts_exist d ps) else unknown_object ;;
  let* a := get_asset_object d (aup_asset_to_update op) in
  FC_ASSERT (is_market_issued a) ;;
  FC_ASSERT (negb (has_bits (as_flags a) committee_fed_asset)) ;;
  FC_ASSERT (negb (has_bits (as_flags a) witness_fed_asset)) ;;
  let* _ := get_bitasset d a in
  FC_ASSERT (as_issuer a =? aup_issuer op) ;;
  Ok a.

(** Publishers that stay keep their feed; new ones get an empty one. *)
Definition with_producers (ps : gset Z) (feeds : gmap Z (Z * price_feed)) : gmap Z (Z * price_feed) :=
  filter (λ kf, kf.1 ∈ ps) feeds ∪ gset_to_gmap (0, default_feed) ps.

Definition asset_update_feed_producers_do_apply (d : database) (op : asset_update_feed_producers_operation)
    (a : asset_object) : result database :=
  let* d := modify_bitasset d a (λ b,
    Ok (update_median_feeds (head_block_time d) (set_feeds (with_producers (aup_new_feed_producers op)) b))) in
  let* (_, d) := check_call_orders d (aup_asset_to_update op) true in Ok d.

(** The accounts that may publish a feed for [a]. *)
Definition may_publish (d : database) (a : asset_object) (b : asset_bitasset_data_object) (publisher : Z)
    : result bool :=
  let member id := let* x := get_account d id in
                   Ok (existsb (λ kw, kw.1 =? publisher) (account_auths (ao_active x))) in
  if has_bits (as_flags a) witness_fed_asset then member GRAPHENE_WITNESS_ACCOUNT
  else if has_bits (as_flags a) committee_fed_asset then member GRAPHENE_COMMITTEE_ACCOUNT
  else Ok (bool_decide (is_Some (bd_feeds b !! publisher))).

Definition asset_publish_feed_do_evaluate (d : database) (op : asset_publish_feed_operation)
    : result asset_object :=
  let f := apf_feed op in
  let* a := get_asset_object d (apf_asset_id op) in
  FC_ASSERT (is_market_issued a) ;;
  let* b := get_bitasset d a in
  FC_ASSERT (negb (bd_is_prediction_market b || (head_block_time d <=? HARDFORK_CORE_216_TIME))
             || negb (has_settlement b)) ;;
  FC_ASSERT (asset_id (quote (settlement_price f)) =? backing b) ;;
  FC_ASSERT (if HARDFORK_480_TIME <? head_block_time d
             then price_is_null (core_exchange_rate f) || (asset_id (quote (core_exchange_rate f)) =? core_id)
             else price_is_null (settlement_price f) || price_is_null (core_exchange_rate f)
                  || (asset_id (quote (settlement_price f)) =? asset_id (quote (core_exchange_rate f)))) ;;
  let* ok := may_publish d a b (apf_publisher op) in
  FC_ASSERT ok ;;
  Ok a.

(** Whether a settled asset has enough collateral at the new feed. *)
Definition may_revive (b : asset_bitasset_data_object) (aid supply : Z) : result bool :=
  let f := bd_current_feed b in
  if price_is_null (settlement_price f) then Ok false
  else if supply =? 0 then Ok true
  else
    let* p := call_price (mkAsset supply aid) (mkAsset (bd_settlement_fund b) (backing b))
                (maintenance_collateral_ratio f) in
    Ok (price_ltb (price_inv p) (settlement_price f)).

Definition asset_publish_feed_do_apply (d : database) (op : asset_publish_feed_operation) (a : asset_object)
    : result database :=
  let aid := apf_asset_id op in
  let* b0 := get_bitasset d a in
  let now := head_block_time d in
  let* d := modify_bitasset d a (λ b,
    Ok (update_median_feeds now (set_feeds (<[apf_publisher op := (now, apf_feed op)]>) b))) in
  let* b := get_bitasset d a in
  if price_feed_eqb (bd_current_feed b0) (bd_current_feed b) then Ok d
  else
    let* d :=
      if has_settlement b then
        let* dyn := get_asset_dyn d (as_dynamic_asset_data_id a) in
        let* ok := may_revive b aid (dd_current_supply dyn) in
        if ok then revive_bitasset d aid else Ok d
      else Ok d in
    let* (_, d) := check_call_orders d aid true in Ok d.

(** ** Settlement *)

(** [call_order_index] by collateral: least collateralized first. *)
Definition collateralization (o : call_order_object) : price := mkPrice (get_collateral o) (get_debt o).
Definition collateral_before (a b : Z * call_order_object) : bool :=
  price_ltb (collateralization a.2) (collateralization b.2)
  || (negb (price_ltb (collateralization b.2) (collateralization a.2)) && (a.1 <? b.1)).

(** [*lower_bound( price::min( backing, asset ) )]; the assertion that the
    position is one of this asset is off in a release build. *)
Definition least_collateralized (d : database) (bk aid : Z) : result Z :=
  let* lo := price_min bk aid in
  of_option undefined_behaviour
    (head (visit collateral_before (λ o, negb (price_ltb (collateralization o) lo)) (objs (db_call_orders d)))).

Definition asset_global_settle_do_evaluate (d : database) (op : asset_global_settle_operation) : result unit :=
  let* a := get_asset_object d (ags_asset_to_settle op) in
  FC_ASSERT (is_market_issued a) ;;
  FC_ASSERT (can_global_settle a) ;;
  FC_ASSERT (as_issuer a =? ags_issuer op) ;;
  let* dyn := get_asset_dyn d (as_dynamic_asset_data_id a) in
  FC_ASSERT (0 <? dd_current_supply dyn) ;;
  let* b := get_bitasset d a in
  let* least := least_collateralized d (backing b) (ags_asset_to_settle op) in
  let* c := call_ref d least in
  let* value := asset_mul_price (get_debt c) (ags_settle_price op) in
  let* ok := asset_leb value (get_collateral c) in
  require ok assert_exception.

Definition asset_global_settle_do_apply (d : database) (op : asset_global_settle_operation) : result database :=
  globally_settle_asset d (ags_asset_to_settle op) (ags_settle_price op).

Definition asset_settle_do_evaluate (d : database) (op : asset_settle_operation) : result asset_object :=
  let aid := asset_id (ase_amount op) in
  let* a := get_asset_object d aid in
  FC_ASSERT (is_market_issued a) ;;
  let* b := get_bitasset d a in
  FC_ASSERT (can_force_settle a || has_settlement b) ;;
  let* _ :=
    if bd_is_prediction_market b then require (has_settlement b) assert_exception
    else if price_is_null (settlement_price (bd_current_feed b))
            && ((head_block_time d <=? HARDFORK_CORE_216_TIME) || negb (has_settlement b))
    then Throw insufficient_feeds else Ok tt in
  let* _ := get_account d (ase_account op) in
  let* enough := asset_geb (get_balance d (ase_account op) aid) (ase_amount op) in
  FC_ASSERT enough ;;
  Ok a.

(** What a holder gets from the settlement fund. *)
Definition settled_amount (b : asset_bitasset_data_object) (supply : Z) (x : asset) : result asset :=
  let* value := asset_mul_price x (bd_settlement_price b) in
  if amount x =? supply then Ok (mkAsset (bd_settlement_fund b) (asset_id value))
  else FC_ASSERT (amount value <=? bd_settlement_fund b) ;; Ok value.

Definition asset_settle_do_apply (d : database) (op : asset_settle_operation) (a : asset_object)
    : result database :=
  let* n := asset_neg (ase_amount op) in
  let* d := adjust_balance d (ase_account op) n in
  let* b := get_bitasset d a in
  if has_settlement b then
    let* dyn := get_asset_dyn d (as_dynamic_asset_data_id a) in
    let* settled := settled_amount b (dd_current_supply dyn) (ase_amount op) in
    let* d := modify_bitasset d a (λ b, let* f := safe_sub (bd_settlement_fund b) (amount settled) in
                                        Ok (set_settlement_fund (λ _, f) b)) in
    let* d := adjust_balance d (ase_account op) settled in
    take_from_supply d a (amount (ase_amount op))
  else
    let* (_, t) := index_create no_clash (db_settlements d)
      (mkSettlement (ase_account op) (ase_amount op)
        (wrap_u32 (head_block_time d + bo_force_settlement_delay_sec (bd_options b)))) in
    Ok (set_settlements (λ _, t) d).

(** ** The evaluators *)

#[export] Instance asset_issue_evaluator : Evaluator asset_issue_operation := {
  ev_state := asset_object; op_fee_payer := ai_issuer; op_fee := ai_fee;
  do_evaluate := asset_issue_do_evaluate; do_apply := asset_issue_do_apply
}.
#[export] Instance asset_reserve_evaluator : Evaluator asset_reserve_operation := {
  ev_state := asset_object; op_fee_payer := ar_payer; op_fee := ar_fee;
  do_evaluate := asset_reserve_do_evaluate; do_apply := asset_reserve_do_apply
}.
#[export] Instance asset_fund_fee_pool_evaluator : Evaluator asset_fund_fee_pool_operation := {
  ev_state := asset_object; op_fee_payer := afp_from_account; op_fee := afp_fee;
  do_evaluate := asset_fund_fee_pool_do_evaluate; do_apply := asset_fund_fee_pool_do_apply
}.
#[export] Instance asset_claim_fees_evaluator : Evaluator asset_claim_fees_operation := {
  ev_state := unit; op_fee_payer := acf_issuer; op_fee := acf_fee;
  do_evaluate := asset_claim_fees_do_evaluate; do_apply := λ d op _, asset_claim_fees_do_apply d op
}.
#[export] Instance asset_update_evaluator : Evaluator asset_update_operation := {
  ev_state := asset_object; op_fee_payer := au_issuer; op_fee := au_fee;
  do_evaluate := asset_update_do_evaluate; do_apply := asset_update_do_apply
}.
#[export] Instance asset_update_bitasset_evaluator : Evaluator asset_update_bitasset_operation := {
  ev_state := asset_object; op_fee_payer := aub_issuer; op_fee := aub_fee;
  do_evaluate := asset_update_bitasset_do_evaluate; do_apply := asset_update_bitasset_do_apply
}.
#[export] Instance asset_update_feed_producers_evaluator : Evaluator asset_update_feed_producers_operation := {
  ev_state := asset_object; op_fee_payer := aup_issuer; op_fee := aup_fee;
  do_evaluate := asset_update_feed_producers_do_evaluate; do_apply := asset_update_feed_producers_do_apply
}.
#[export] Instance asset_publish_feed_evaluator : Evaluator asset_publish_feed_operation := {
  ev_state := asset_object; op_fee_payer := apf_publisher; op_fee := apf_fee;
  do_evaluate := asset_publish_feed_do_evaluate; do_apply := asset_publish_feed_do_apply
}.
#[export] Instance asset_global_settle_evaluator : Evaluator asset_global_settle_operation := {
  ev_state := unit; op_fee_payer := ags_issuer; op_fee := ags_fee;
  do_evaluate := asset_global_settle_do_evaluate; do_apply := λ d op _, asset_global_settle_do_apply d op
}.
#[export] Instance asset_settle_evaluator : Evaluator asset_settle_operation := {
  ev_state := asset_object; op_fee_payer := ase_account; op_fee := ase_fee;
  do_evaluate := asset_settle_do_evaluate; do_apply := asset_settle_do_apply
}.
End operations.
