(* ===== verification/AssetProps.v ===== *)
(** * Asset operations: conservation

    Every asset operation keeps the assets and the market well formed and
    creates and destroys nothing except what it issues, reserves or settles,
    which changes supply and holdings alike. *)

From stdpp Require Import gmap list strings.
From Stdlib Require Import ZArith Lia.
From S2P Require Import Prelude Fc Config Asset Objects Database Balances Fees Market MarketProps MarketSteps MarketEval MarketEvalProps PriceFeeds AssetOps AssetEval.

Local Open Scope Z_scope.

Section properties.
Context {FC : FcArith} {FCL : FcArithLaws FC} {BA : BoostArith} {BAL : BoostArithLaws BA} {NE : NthElement}.

(** ** Supply *)

Lemma add_to_supply_ok d i a x d' :
  db_assets d !! i = Some a → add_to_supply d a x = Ok d' →
  same_market d d' ∧ mmoves d d' (λ aid, - amount_of aid (mkAsset x i)).
Proof.
  intros Ha H. eapply modify_asset_dyn_market in H as (s & s' & _ & Hs' & S & M); [|done].
  apply rbind_ok in Hs' as (n & Hn & [= <-]). safe_inv. split; [done|].
  eapply mmoves_ext; [exact M|]. intros aid. unfold core_delta, amount_of; simpl. repeat case_match; lia.
Qed.

Lemma take_from_supply_ok d i a x d' :
  db_assets d !! i = Some a → take_from_supply d a x = Ok d' →
  same_market d d' ∧ mmoves d d' (λ aid, amount_of aid (mkAsset x i)).
Proof.
  intros Ha H. eapply modify_asset_dyn_market in H as (s & s' & _ & Hs' & S & M); [|done].
  apply rbind_ok in Hs' as (n & Hn & [= <-]). safe_inv. split; [done|].
  eapply mmoves_ext; [exact M|]. intros aid. unfold core_delta, amount_of; simpl. repeat case_match; lia.
Qed.

Lemma same_market_assets d d' : same_market d d' → db_assets d' = db_assets d.
Proof. by intros (_&_&_&_&_&?&_). Qed.
Lemma same_market_bitassets d d' : same_market d d' → db_bitassets d' = db_bitassets d.
Proof. by intros (_&_&_&_&?&_). Qed.

Lemma get_asset_ok d i a : get_asset_object d i = Ok a ↔ db_assets d !! i = Some a.
Proof. apply of_option_ok. Qed.

Lemma asset_issue_conserves d op a d' :
  db_assets d !! asset_id (ai_asset_to_issue op) = Some a → asset_issue_do_apply d op a = Ok d' →
  mconserves d d'.
Proof.
  intros Ha H. apply rbind_ok in H as (d1 & [M1 S1]%adjust_balance_market & H).
  rewrite <- (same_market_assets _ _ S1) in Ha. apply (add_to_supply_ok _ _ _ _ _ Ha) in H as [_ M2].
  eapply mmoves_ext; [by eapply mmoves_trans|]. intros aid; simpl. destruct (ai_asset_to_issue op); simpl. lia.
Qed.

Lemma asset_reserve_conserves d op a d' :
  db_assets d !! asset_id (ar_amount_to_reserve op) = Some a → asset_reserve_do_apply d op a = Ok d' →
  mconserves d d'.
Proof.
  intros Ha H. apply rbind_ok in H as (n & Hn & H).
  apply rbind_ok in H as (d1 & [M1 S1]%adjust_balance_market & H).
  rewrite <- (same_market_assets _ _ S1) in Ha. apply (take_from_supply_ok _ _ _ _ _ Ha) in H as [_ M2].
  eapply mmoves_ext; [by eapply mmoves_trans|]. intros aid; simpl. unfold asset_neg in Hn. ok_inv. safe_inv.
  destruct (ar_amount_to_reserve op); unfold amount_of; simpl. case_match; lia.
Qed.

Lemma asset_fund_fee_pool_conserves d op a d' :
  db_assets d !! afp_asset_id op = Some a → asset_fund_fee_pool_do_apply d op a = Ok d' → mconserves d d'.
Proof.
  intros Ha H. apply rbind_ok in H as (n & Hn & H).
  apply rbind_ok in H as (d1 & [M1 S1]%adjust_balance_market & H). safe_inv.
  rewrite <- (same_market_assets _ _ S1) in Ha.
  eapply modify_asset_dyn_market in H as (s & s' & _ & Hs' & S & M2); [|done].
  apply rbind_ok in Hs' as (p & Hp & [= <-]). safe_inv.
  eapply mmoves_ext; [by eapply mmoves_trans|]. intros aid. unfold core_delta, amount_of; simpl.
  repeat case_match; lia.
Qed.

Lemma asset_claim_fees_conserves d op d' : asset_claim_fees_do_apply d op = Ok d' → mconserves d d'.
Proof.
  intros H. apply rbind_ok in H as (a & Ha%get_asset_ok & H). apply rbind_ok in H as (s0 & _ & H).
  apply rbind_ok in H as (u & _ & H). apply rbind_ok in H as (d1 & H1 & [M2 S2]%adjust_balance_market).
  eapply modify_asset_dyn_market in H1 as (s & s' & _ & Hs' & S & M1); [|done].
  apply rbind_ok in Hs' as (p & Hp & [= <-]). safe_inv.
  eapply mmoves_ext; [by eapply mmoves_trans|]. intros aid. destruct (acf_amount_to_claim op).
  unfold core_delta, amount_of; simpl. repeat case_match; lia.
Qed.

(** ** Data of market-issued assets *)

(** A change that keeps the settlement, or has nothing in the fund. *)
Definition keeps_fund (b b' : asset_bitasset_data_object) : Prop :=
  bd_settlement_price b' = bd_settlement_price b ∧ bd_settlement_fund b' = bd_settlement_fund b ∧
  (backing b' = backing b ∨ bd_settlement_fund b = 0).

Definition same_but_bitassets (d d' : database) : Prop :=
  db_limit_orders d' = db_limit_orders d ∧ db_call_orders d' = db_call_orders d ∧
  db_settlements d' = db_settlements d ∧ db_bids d' = db_bids d ∧ db_assets d' = db_assets d ∧
  db_asset_dyn d' = db_asset_dyn d ∧ db_gpo d' = db_gpo d ∧ db_dgpo d' = db_dgpo d.

Lemma modify_bitasset_keeps d a i b f b' d' :
  as_bitasset_data_id a = Some i → db_bitassets d !! i = Some b → f b = Ok b' → keeps_fund b b' →
  modify_bitasset d a f = Ok d' →
  mconserves d d' ∧ same_but_bitassets d d' ∧ db_bitassets d' = <[i := b']> (db_bitassets d).
Proof.
  intros Hi Hb Hf (E1 & E2 & E3) H.
  apply modify_bitasset_ok in H as (i' & b0 & b1 & Hi' & Hb0 & Hf0 & -> & M).
  assert (i' = i) as -> by congruence. assert (b0 = b) as -> by congruence.
  assert (b1 = b') as -> by congruence. split_and!; [|done|done].
  intros Ha Hm. destruct M as (Ha' & Hm' & E); [|done|done|split_and!; [done|done|]].
  - rewrite E1, E2. destruct Ha as (_ & _ & _ & Hw). by eapply Hw.
  - intros aid. rewrite E. unfold fund_locked. rewrite E2. destruct E3 as [->|E3]; [lia|].
    rewrite E3. unfold amount_of; simpl. repeat case_match; lia.
Qed.

Lemma update_median_keeps now b :
  bd_settlement_price (update_median_feeds now b) = bd_settlement_price b ∧
  bd_settlement_fund (update_median_feeds now b) = bd_settlement_fund b ∧
  bd_options (update_median_feeds now b) = bd_options b.
Proof. unfold update_median_feeds. by repeat case_match. Qed.

Lemma get_bitasset_ok d a b :
  get_bitasset d a = Ok b ↔ ∃ i, as_bitasset_data_id a = Some i ∧ db_bitassets d !! i = Some b.
Proof.
  unfold get_bitasset, bitasset_id. split.
  - intros H. apply rbind_ok in H as (i & Hi%of_option_ok & Hb%of_option_ok). eauto.
  - by intros (i & -> & Hb); simpl; rewrite Hb.
Qed.

Lemma asset_update_bitasset_conserves d op a b d' :
  get_bitasset d a = Ok b → has_settlement b = false →
  assets_wf d → asset_update_bitasset_do_apply d op a = Ok d' → mconserves d d'.
Proof.
  intros (i & Hi & Hb)%get_bitasset_ok Hns Ha H. pose proof (not_settled_fund _ _ _ Ha Hb Hns) as Hf.
  unfold asset_update_bitasset_do_apply in H. eapply modify_bitasset_keeps in H as (? & _); [done|done..|].
  case_match; [by split_and!; auto|].
  destruct (update_median_keeps (head_block_time d) (set_bitasset_options (λ _, aub_new_options op) b))
    as (E1 & E2 & E3). split_and!; [exact E1|exact E2|by right].
Qed.

Lemma set_feeds_keeps now f b : keeps_fund b (update_median_feeds now (set_feeds f b)).
Proof.
  destruct (update_median_keeps now (set_feeds f b)) as (E1 & E2 & E3).
  split_and!; [done..|left]. unfold backing. by rewrite E3.
Qed.

Lemma check_call_orders_conserves d aid b d' : check_call_orders d aid true = Ok (b, d') → mconserves d d'.
Proof. intros H Ha Hm. by apply check_call_orders_ok in H as [M _]; [apply M|done..]. Qed.

Lemma asset_update_feed_producers_conserves d op a d' :
  asset_update_feed_producers_do_apply d op a = Ok d' → mconserves d d'.
Proof.
  intros H. apply rbind_ok in H as (d1 & H1 & H). apply rbind_ok in H as ([called d2] & H2 & [= <-]).
  pose proof H1 as H1'. apply modify_bitasset_ok in H1' as (i & b & b' & Hi & Hb & _).
  eapply modify_bitasset_keeps in H1 as (M1 & _); [|done..|apply set_feeds_keeps].
  apply check_call_orders_conserves in H2. by eapply mconserves_trans.
Qed.

(** The funds of settled assets and the supplies are 64-bit numbers. *)
Definition amounts_wf (d : database) : Prop :=
  (∀ i s, db_asset_dyn d !! i = Some s → dd_current_supply s < 2 ^ 63) ∧
  (∀ i b, db_bitassets d !! i = Some b → amount_ok (bd_settlement_fund b)).

Lemma asset_publish_feed_conserves d op a d' :
  db_assets d !! apf_asset_id op = Some a → amounts_wf d →
  asset_publish_feed_do_apply d op a = Ok d' → mconserves d d'.
Proof.
  intros Ha [Hsup Hfund] H. apply rbind_ok in H as (b0 & _ & H). apply rbind_ok in H as (d1 & H1 & H).
  pose proof H1 as H1'. apply modify_bitasset_ok in H1' as (i & b & b' & Hi & Hb & _).
  eapply modify_bitasset_keeps in H1 as (M1 & S1 & E1); [|done..|apply set_feeds_keeps].
  set (b1 := update_median_feeds _ _) in E1. destruct S1 as (_ & _ & _ & _ & Ea & Ed & _).
  apply rbind_ok in H as (b2 & (i' & Hi' & Hb2)%get_bitasset_ok & H).
  assert (i' = i) as -> by congruence. rewrite E1, lookup_insert_eq in Hb2. injection Hb2 as <-.
  case_in H; [by injection H as <-|]. apply rbind_ok in H as (d2 & H2 & H).
  apply rbind_ok in H as ([called d3] & H3%check_call_orders_conserves & [= <-]).
  eapply mconserves_trans; [exact M1|]. eapply mconserves_trans; [|exact H3].
  case_in H2; [|injection H2 as <-; apply mmoves_refl].
  apply rbind_ok in H2 as (s & Hs%of_option_ok & H2). apply rbind_ok in H2 as (ok & _ & H2).
  destruct ok; [|injection H2 as <-; apply mmoves_refl].
  eapply revive_bitasset_ok in H2 as [M2 _]; [exact M2|by rewrite Ea|exact Hi|by rewrite E1, lookup_insert_eq|
    exact Hs|rewrite Ed in Hs; by eapply Hsup|].
  assert (bd_settlement_fund b1 = bd_settlement_fund b) as -> by apply set_feeds_keeps. by eapply Hfund.
Qed.

(** ** Settlement *)

(** The settlement price of [aid] is in terms of its backing asset. *)
Definition settled_in_backing (aid : Z) (b : asset_bitasset_data_object) : Prop :=
  has_settlement b = true → asset_id (base (bd_settlement_price b)) = aid ∧
    asset_id (quote (bd_settlement_price b)) = backing b ∧ aid ≠ backing b.

Lemma settled_amount_ok aid b supply x v :
  settled_in_backing aid b → has_settlement b = true → asset_id x = aid →
  settled_amount b supply x = Ok v →
  asset_id v = backing b ∧ amount v <= bd_settlement_fund b.
Proof.
  intros Hset Hs Hx H. destruct (Hset Hs) as (E1 & E2 & Hne).
  unfold settled_amount in H. apply rbind_ok in H as (w & Hw & H).
  assert (asset_id w = backing b) as Ew.
  { unfold asset_mul_price in Hw. rewrite E1, E2, Hx, Z.eqb_refl in Hw. ok_inv. done. }
  case_in H; [by injection H as <-|]. apply rbind_ok in H as (u & Hle%require_ok & [= <-]). split; [done|lia].
Qed.

Lemma asset_settle_conserves d op a b d' :
  db_assets d !! asset_id (ase_amount op) = Some a → get_bitasset d a = Ok b →
  settled_in_backing (asset_id (ase_amount op)) b →
  asset_settle_do_apply d op a = Ok d' → mconserves d d'.
Proof.
  intros Ha (i & Hi & Hb)%get_bitasset_ok Hset H.
  apply rbind_ok in H as (n & Hn & H). apply rbind_ok in H as (d1 & [M1 S1]%adjust_balance_market & H).
  pose proof (same_market_assets _ _ S1) as Ea1. pose proof (same_market_bitassets _ _ S1) as Eb1.
  apply rbind_ok in H as (b1 & (i' & Hi' & Hb1)%get_bitasset_ok & H).
  assert (i' = i) as -> by congruence. rewrite Eb1 in Hb1. assert (b1 = b) as -> by congruence.
  assert (∀ aid, amount_of aid n = - amount_of aid (ase_amount op)) as En.
  { intros aid. unfold asset_neg in Hn. ok_inv. safe_inv. rewrite amount_of_neg. by destruct (ase_amount op). }
  destruct (has_settlement b) eqn:Ehas.
  - apply rbind_ok in H as (s & _ & H). apply rbind_ok in H as (v & Hv & H).
    apply rbind_ok in H as (d2 & H2 & H). apply rbind_ok in H as (d3 & [M3 S3]%adjust_balance_market & H).
    eapply settled_amount_ok in Hv as [Ev _]; [|done..].
    pose proof H2 as H2'. apply modify_bitasset_ok in H2' as (i' & b1 & b' & Hi2 & Hb2 & Hf & -> & M2).
    assert (i' = i) as -> by congruence. rewrite Eb1 in Hb2. assert (b1 = b) as -> by congruence.
    apply rbind_ok in Hf as (f & Hf & [= <-]). safe_inv.
    eapply take_from_supply_ok in H as [_ M4]; [|rewrite (same_market_assets _ _ S3); simpl; by rewrite Ea1].
    destruct (Hset Ehas) as (E1 & E2 & Hne). simpl in M2.
    assert (mmoves d1 (set_bitassets <[i:=set_settlement_fund (λ _, bd_settlement_fund b - amount v) b]> d1)
      (λ aid, - amount_of aid v)) as M2'.
    { eapply mmoves_ext; [apply M2; intros; rewrite E1, E2 in *; congruence|].
      intros aid. unfold fund_locked, amount_of, backing; simpl. fold (backing b). rewrite Ev.
      repeat case_match; lia. }
    eapply mmoves_ext; [eapply mmoves_trans; [exact M1|eapply mmoves_trans; [exact M2'|
      eapply mmoves_trans; [exact M3|exact M4]]]|].
    intros aid; simpl. rewrite En. destruct (ase_amount op); simpl. lia.
  - apply rbind_ok in H as ([id t] & (-> & Hnone & _ & ->)%index_create_ok & [= <-]).
    eapply mmoves_ext; [eapply mmoves_trans; [exact M1|]|].
    + intros Hw Hm. split_and!; [exact Hw|exact Hm|]. intros aid. rewrite imbalance_set_settlements. simpl.
      rewrite msum_insert, Hnone. simpl. instantiate (1 := λ aid, amount_of aid (ase_amount op)).
      unfold settlement_locked. simpl. lia.
    + intros aid; simpl. rewrite En. lia.
Qed.

(** ** Changing the options *)

(** The percentage is an unsigned number. *)
Lemma asset_options_validate_ok o i a :
  asset_options_validate o = Ok tt → 0 <= opt_market_fee_percent o → fee_options_wf (with_options o i a).
Proof.
  unfold asset_options_validate. intros H Hp.
  apply rbind_ok in H as (? & _ & H). apply rbind_ok in H as (? & _ & H).
  apply rbind_ok in H as (? & Hf%require_ok & H). apply rbind_ok in H as (? & Hm%require_ok & _).
  unfold fee_options_wf; simpl. lia.
Qed.

Lemma modify_asset_conserves d aid f d' :
  (∀ a, as_dynamic_asset_data_id (f a) = as_dynamic_asset_data_id a) → (∀ a, fee_options_wf a → fee_options_wf (f a)) →
  modify_asset d aid f = Ok d' → mconserves d d'.
Proof.
  intros Hd Hf H. apply rbind_ok in H as (a & Ha%get_asset_ok & [= <-]).
  assert (∀ i b, <[aid := f a]> (db_assets d) !! i = Some b →
    ∃ b', db_assets d !! i = Some b' ∧ as_dynamic_asset_data_id b = as_dynamic_asset_data_id b') as Hl.
  { intros i b [[<- <-]|[_ Hi]]%lookup_insert_Some; [by exists a|by exists b]. }
  intros (W1 & (z & Hz & Ez) & W3 & W4) (M1 & M2 & M3). split_and!.
  - split_and!; [|exists (if decide (aid = core_id) then f a else z)|done|done]; simpl.
    + intros i j x y (x' & ? & Ex)%Hl (y' & ? & Ey)%Hl E. rewrite Ex, Ey in E. by eapply W1.
    + case_decide as E; [subst; rewrite lookup_insert_eq, Hd|by rewrite lookup_insert_ne].
      split; [done|]. rewrite Ha in Hz. by injection Hz as ->.
  - split_and!; [done..|]. apply map_Forall_insert_2; [apply Hf; by eapply M3|done].
  - intros aid'. assert (∀ dyn, dyn_of aid' (<[aid := f a]> (db_assets d)) dyn = dyn_of aid' (db_assets d) dyn) as E.
    { intros dyn. unfold dyn_of. destruct (decide (aid = aid')) as [->|];
        [by rewrite lookup_insert_eq, Ha; simpl; rewrite Hd|by rewrite lookup_insert_ne]. }
    unfold imbalance, held, held_market, issuer_held, current_supply; simpl. rewrite !E. lia.
Qed.

Lemma asset_update_conserves d op a d' :
  asset_options_validate (au_new_options op) = Ok tt → 0 <= opt_market_fee_percent (au_new_options op) →
  asset_update_do_apply d op a = Ok d' → mconserves d d'.
Proof.
  intros Hv Hp H. apply rbind_ok in H as (d1 & H1 & H).
  eapply modify_asset_conserves in H; [|done|intros; by apply asset_options_validate_ok].
  eapply mconserves_trans; [|exact H]. case_in H1; [|injection H1 as <-; apply mmoves_refl].
  eapply (rfold_invariant _ mconserves); [apply mmoves_refl|intros; by eapply mconserves_trans| |exact H1].
  intros ???? Hc. by eapply cancel_settlement_ok.
Qed.

(** ** Creation *)

(** Ids of dynamic and bit asset data are given out in order. *)
Definition asset_ids_fresh (d : database) : Prop :=
  (∀ i a, db_assets d !! i = Some a →
     i < db_next_asset d ∧ as_dynamic_asset_data_id a < db_next_asset_dyn d) ∧
  (∀ i s, db_asset_dyn d !! i = Some s → i < db_next_asset_dyn d) ∧
  (∀ i s, db_bitassets d !! i = Some s → i < db_next_bitasset d).

Lemma create_asset_dyn_ok d pool id d' :
  create_asset_dyn (mkDynData 0 0 0 pool) d = Ok (id, d') →
  id = db_next_asset_dyn d ∧ db_asset_dyn d !! id = None ∧
  d' = set_next_asset_dyn (λ n, n + 1) (set_asset_dyn (<[id := mkDynData 0 0 0 pool]>) d).
Proof.
  intros H. apply rbind_ok in H as (u & Hn%require_ok & [= <- <-]). case_bool_decide; [|done]. done.
Qed.

Lemma create_asset_dyn_moves d pool id d' :
  asset_ids_fresh d → create_asset_dyn (mkDynData 0 0 0 pool) d = Ok (id, d') → mmoves d d' (core_delta pool).
Proof.
  intros Hfr (-> & Hn & ->)%create_asset_dyn_ok. set (id := db_next_asset_dyn d) in *.
  intros (W1 & W2 & [s0 W3] & W4) Hm. split_and!; [split_and!; [done|done| |done]|done|].
  - simpl. rewrite lookup_insert_ne by (intros E; rewrite <- E in W3; congruence). by exists s0.
  - intros aid. assert (∀ x, dyn_of aid (db_assets d) (<[id := x]> (db_asset_dyn d)) =
        dyn_of aid (db_assets d) (db_asset_dyn d)) as E.
    { intros x. unfold dyn_of. destruct (db_assets d !! aid) as [a|] eqn:Ha; [|done]. simpl.
      destruct Hfr as [Hfr _]. destruct (Hfr _ _ Ha) as [_ Hlt]. rewrite lookup_insert_ne; [done|].
      subst id. lia. }
    unfold imbalance, held, held_market, issuer_held, current_supply, held_pools, core_delta; simpl.
    rewrite !E, msum_insert, Hn, amount_of_core. simpl. destruct (aid =? core_id); lia.
Qed.

Lemma create_bitasset_ok d b id d' :
  create_bitasset b d = Ok (id, d') →
  id = db_next_bitasset d ∧ db_bitassets d !! id = None ∧
  d' = set_next_bitasset (λ n, n + 1) (set_bitassets (<[id := b]>) d).
Proof.
  intros H. apply rbind_ok in H as (u & Hn%require_ok & [= <- <-]). case_bool_decide; [|done]. done.
Qed.

Lemma create_bitasset_conserves d o pm id d' :
  create_bitasset (new_bitasset o pm) d = Ok (id, d') → mconserves d d'.
Proof.
  intros (-> & Hn & ->)%create_bitasset_ok (W1 & W2 & W3 & W4) Hm. split_and!; [|done|].
  - split_and!; [done..|]. simpl. intros i b [[_ <-]|[_ Hi]]%lookup_insert_Some; [done|by eapply W4].
  - intros aid. unfold imbalance, held, held_market, current_supply; simpl.
    rewrite msum_insert, Hn. simpl. unfold fund_locked, amount_of; simpl. case_match; lia.
Qed.

Lemma create_asset_ok d f id d' :
  create_asset f d = Ok (id, d') →
  id = db_next_asset d ∧ db_assets d !! id = None ∧ find_symbol d (as_symbol (f id)) = None ∧
  d' = set_next_asset (λ n, n + 1) (set_assets (<[id := f id]>) d).
Proof.
  intros H. apply rbind_ok in H as (u & [Hn Hf]%require_ok%andb_prop & [= <- <-]).
  case_bool_decide; [|done]. case_match; done.
Qed.

(** A new asset whose dynamic data is its own and empty. *)
Lemma create_asset_conserves d f id d' p :
  fee_options_wf (f (db_next_asset d)) →
  db_asset_dyn d !! as_dynamic_asset_data_id (f (db_next_asset d)) = Some (mkDynData 0 0 0 p) →
  (∀ i a, db_assets d !! i = Some a → as_dynamic_asset_data_id a ≠ as_dynamic_asset_data_id (f (db_next_asset d))) →
  create_asset f d = Ok (id, d') → mconserves d d'.
Proof.
  intros Hf Hs Hd (-> & Hn & _ & ->)%create_asset_ok. set (id := db_next_asset d) in *.
  intros (W1 & (z & Hz & Ez) & W3 & W4) (M1 & M2 & M3). split_and!.
  - split_and!; [| |done|done]; simpl.
    + intros i j x y [[<- <-]|[? Hi]]%lookup_insert_Some [[<- <-]|[? Hj]]%lookup_insert_Some E; try done.
      * destruct (Hd _ _ Hj). done.
      * destruct (Hd _ _ Hi). done.
      * by eapply W1.
    + exists z. rewrite lookup_insert_ne; [done|congruence].
  - split_and!; [done..|]. simpl. by apply map_Forall_insert_2.
  - intros aid. assert (∀ g : asset_dynamic_data_object → Z, g (mkDynData 0 0 0 p) = 0 →
      from_option g 0 (dyn_of aid (<[id := f id]> (db_assets d)) (db_asset_dyn d)) =
      from_option g 0 (dyn_of aid (db_assets d) (db_asset_dyn d))) as E.
    { intros g Hg. unfold dyn_of. destruct (decide (id = aid)) as [<-|]; [|by rewrite lookup_insert_ne].
      rewrite lookup_insert_eq, Hn. simpl. by rewrite Hs. }
    unfold imbalance, held, held_market, issuer_held, current_supply; simpl. rewrite !E by done. lia.
Qed.

(** The odd half coin of the fee. *)
Lemma odd_core_moves (odd : bool) d d' :
  (if odd then
     let* core := get_asset_object d core_id in
     modify_asset_dyn d (as_dynamic_asset_data_id core)
       (λ s, let* n := safe_add (dd_current_supply s) 1 in Ok (set_current_supply (λ _, n) s))
   else Ok d) = Ok d' →
  mmoves d d' (λ aid, - core_delta (if odd then 1 else 0) aid) ∧ db_assets d' = db_assets d ∧
  db_next_asset d' = db_next_asset d ∧
  ∀ j, (∀ i a, db_assets d !! i = Some a → as_dynamic_asset_data_id a ≠ j) →
    db_asset_dyn d' !! j = db_asset_dyn d !! j.
Proof.
  intros H. case_in H.
  - apply rbind_ok in H as (core & Hc%get_asset_ok & H). pose proof H as H'.
    eapply modify_asset_dyn_market in H as (s & s' & _ & Hs' & S & M); [|done].
    apply rbind_ok in Hs' as (n & Hn & [= <-]). safe_inv.
    apply rbind_ok in H' as (s1 & Hs1 & H'). apply rbind_ok in H' as (s2 & _ & [= <-]).
    split_and!; [|done|done|].
    + eapply mmoves_ext; [exact M|]. intros aid. unfold core_delta, amount_of; simpl. repeat case_match; lia.
    + intros j Hj. simpl. rewrite lookup_insert_ne; [done|]. by eapply Hj.
  - injection H as <-. split_and!; [|done..]. eapply mmoves_ext; [apply mmoves_refl|].
    intros aid. unfold core_delta, amount_of; simpl. by case_match.
Qed.

(** What is created with the rest of the fee in the pool; half a coin goes to
    nobody after the hard fork of time 429, and is new supply before. *)
Lemma asset_create_do_apply_moves d op core_fee odd id d' :
  asset_options_validate (ac_common_options op) = Ok tt →
  0 <= opt_market_fee_percent (ac_common_options op) → asset_ids_fresh d →
  asset_create_do_apply d op core_fee odd = Ok (id, d') →
  mmoves d d' (core_delta (core_fee - (if odd then 1 else 0))).
Proof.
  intros Hv Hp Hfr H. apply rbind_ok in H as ([dyn d1] & H1 & H).
  pose proof (create_asset_dyn_moves _ _ _ _ Hfr H1) as M1.
  apply create_asset_dyn_ok in H1 as (-> & Hn & E1). set (dyn := db_next_asset_dyn d) in *.
  apply rbind_ok in H as (d2 & (M2 & Ea2 & En2 & Ed2)%odd_core_moves & H).
  apply rbind_ok in H as ([bit d3] & H3 & H4). set (pool := core_fee - _) in *.
  assert (∀ i a, db_assets d1 !! i = Some a → as_dynamic_asset_data_id a ≠ dyn) as Hne.
  { intros i a Ha. subst d1. destruct Hfr as [Hfr _]. destruct (Hfr _ _ Ha). subst dyn. lia. }
  assert (mconserves d2 d3 ∧ db_assets d3 = db_assets d2 ∧ db_asset_dyn d3 = db_asset_dyn d2) as (M3 & Ea3 & Ed3).
  { case_match; [|injection H3 as <- <-; split_and!; [apply mmoves_refl|done..]].
    apply rbind_ok in H3 as ([j d4] & H3 & [= <- <-]). split; [by eapply create_bitasset_conserves|].
    by apply create_bitasset_ok in H3 as (_ & _ & ->). }
  apply (create_asset_conserves _ _ _ _ pool) in H4.
  - eapply mmoves_ext; [eapply mmoves_trans; [exact M1|eapply mmoves_trans; [exact M2|
      eapply mmoves_trans; [exact M3|exact H4]]]|].
    intros aid; cbv beta. subst pool. unfold core_delta, amount_of, core_asset. cbn [asset_id amount].
    destruct odd, (HARDFORK_CORE_429_TIME <? head_block_time d), (core_id =? aid); simpl; lia.
  - unfold asset_options_validate in Hv.
    apply (asset_options_validate_ok _ 0 (created_asset op dyn bit (db_next_asset d3))) in Hv; [done|done].
  - simpl. rewrite Ed3, Ed2 by done. subst d1. simpl. by rewrite lookup_insert_eq.
  - simpl. intros i a Ha. rewrite Ea3, Ea2 in Ha. by eapply Hne.
Qed.

Lemma half_of_fee x : 0 <= x → x - Z.quot x 2 - (if Z.land x 1 =? 1 then 1 else 0) = x / 2.
Proof.
  intros Hx. change 1 with (Z.ones 1) at 1. rewrite Z.land_ones by lia. change (2 ^ 1) with 2.
  change (Z.ones 1) with 1. rewrite Z.quot_div_nonneg by lia.
  pose proof (Z.div_mod x 2 ltac:(lia)). pose proof (Z.mod_pos_bound x 2 ltac:(lia)). case_match; lia.
Qed.

(** Half of the fee, rounded down, goes to the pool; what is paid is the rest. *)
Lemma asset_create_pay_fee_moves g d g' odd d' :
  0 <= core_fee_paid g → asset_create_pay_fee false g d = Ok (g', odd, d') →
  same_market d d' ∧ fee_from_account g' = fee_from_account g ∧
  mmoves d d' (core_delta (core_fee_paid g')) ∧
  core_fee_paid g' + core_fee_paid g' - (if odd then 1 else 0) = core_fee_paid g.
Proof.
  intros Hpos H. unfold asset_create_pay_fee in H.
  apply rbind_ok in H as (d1 & H & [= <- <- <-]). pose proof (pay_fee_same _ _ _ _ H) as S. simpl.
  split_and!; [done|done| |].
  - unfold pay_fee in H. apply modify_statistics_market in H as (s & s' & _ & Hs%statistics_pay_fee_ok & _ & M).
    eapply mmoves_ext; [exact M|]. intros aid. unfold core_delta. f_equal. f_equal. simpl in Hs. lia.
  - pose proof (half_of_fee _ Hpos). rewrite Z.quot_div_nonneg in * by lia. lia.
Qed.
End properties.
