(* ===== verification/AssetTheorems.v ===== *)
(** * Asset operations: main theorems and runs

    The operations together with their fees, in one type; conservation for
    all of them; what issuing and creating do; the median of the feeds. *)

From stdpp Require Import gmap list strings.
From Stdlib Require Import ZArith Lia.
From S2P Require Import Prelude Fc Config Asset VestingBalance Objects Database Sample Balances Fees Listing Market MarketProps MarketSteps MarketEval MarketEvalProps MarketTheorems PriceFeeds PriceFeedProps AssetOps AssetEval AssetProps.

Local Open Scope Z_scope.

(** ** All asset operations *)

Inductive asset_operation :=
  | op_asset_create (op : asset_create_operation)
  | op_asset_issue (op : asset_issue_operation)
  | op_asset_reserve (op : asset_reserve_operation)
  | op_asset_fund_fee_pool (op : asset_fund_fee_pool_operation)
  | op_asset_claim_fees (op : asset_claim_fees_operation)
  | op_asset_update (op : asset_update_operation)
  | op_asset_update_bitasset (op : asset_update_bitasset_operation)
  | op_asset_update_feed_producers (op : asset_update_feed_producers_operation)
  | op_asset_publish_feed (op : asset_publish_feed_operation)
  | op_asset_global_settle (op : asset_global_settle_operation)
  | op_asset_settle (op : asset_settle_operation).

Section operations.
Context {FC : FcArith} {BA : BoostArith} {NE : NthElement}.

Definition asset_operation_validate (op : asset_operation) : result unit :=
  match op with
  | op_asset_create op => asset_create_validate op
  | op_asset_issue op => asset_issue_validate op
  | op_asset_reserve op => asset_reserve_validate op
  | op_asset_fund_fee_pool op => asset_fund_fee_pool_validate op
  | op_asset_claim_fees op => asset_claim_fees_validate op
  | op_asset_update op => asset_update_validate op
  | op_asset_update_bitasset op => asset_update_bitasset_validate op
  | op_asset_update_feed_producers op => asset_update_feed_producers_validate op
  | op_asset_publish_feed op => asset_publish_feed_validate op
  | op_asset_global_settle op => asset_global_settle_validate op
  | op_asset_settle op => asset_settle_validate op
  end.

Definition asset_operation_apply (required : result Z) (d : database) (op : asset_operation) : result database :=
  match op with
  | op_asset_create op => let* (_, d) := asset_create_start false false required d op in Ok d
  | op_asset_issue op => start_evaluate false false required d op
  | op_asset_reserve op => start_evaluate false false required d op
  | op_asset_fund_fee_pool op => start_evaluate false false required d op
  | op_asset_claim_fees op => start_evaluate false false required d op
  | op_asset_update op => start_evaluate false false required d op
  | op_asset_update_bitasset op => start_evaluate false false required d op
  | op_asset_update_feed_producers op => start_evaluate false false required d op
  | op_asset_publish_feed op => start_evaluate false false required d op
  | op_asset_global_settle op => start_evaluate false false required d op
  | op_asset_settle op => start_evaluate false false required d op
  end.
End operations.

(** The options in an operation: the percentage is an unsigned number. *)
Definition asset_options_typed (op : asset_operation) : Prop :=
  match op with
  | op_asset_create op => 0 <= opt_market_fee_percent (ac_common_options op) ∧ amount (ac_fee op) < 2 ^ 63
  | op_asset_update op => 0 <= opt_market_fee_percent (au_new_options op)
  | _ => True
  end.

Section evaluation.
Context {FC : FcArith} {FCL : FcArithLaws FC} {BA : BoostArith} {BAL : BoostArithLaws BA} {NE : NthElement}.

(** The settlement prices of the settled assets. *)
Definition settlements_backed (d : database) : Prop :=
  ∀ aid a b, db_assets d !! aid = Some a → get_bitasset d a = Ok b → settled_in_backing aid b.

(** The state on which asset operations run. *)
Definition asset_state_wf (d : database) : Prop :=
  assets_wf d ∧ market_wf d ∧ asset_ids_fresh d ∧ amounts_wf d ∧ settlements_backed d.

(** ** What the checks ensure *)

Lemma issue_evaluate_ok d op a :
  asset_issue_do_evaluate d op = Ok a →
  db_assets d !! asset_id (ai_asset_to_issue op) = Some a ∧ as_issuer a = ai_issuer op ∧
  as_bitasset_data_id a = None ∧
  ∃ s, db_asset_dyn d !! as_dynamic_asset_data_id a = Some s ∧
    dd_current_supply s + amount (ai_asset_to_issue op) <= as_max_supply a.
Proof.
  unfold asset_issue_do_evaluate, get_asset_object, get_asset_dyn. intros H. ok_inv. safe_inv.
  split_and!; [done|lia| |eexists; split; [done|lia]].
  unfold is_market_issued in *. by destruct (as_bitasset_data_id a).
Qed.

Lemma reserve_evaluate_ok d op a :
  asset_reserve_do_evaluate d op = Ok a → db_assets d !! asset_id (ar_amount_to_reserve op) = Some a.
Proof. unfold asset_reserve_do_evaluate, get_asset_object. intros H. by ok_inv. Qed.

Lemma fund_pool_evaluate_ok d op a :
  asset_fund_fee_pool_do_evaluate d op = Ok a → db_assets d !! afp_asset_id op = Some a.
Proof. unfold asset_fund_fee_pool_do_evaluate, get_asset_object. intros H. by ok_inv. Qed.

Lemma update_bitasset_evaluate_ok d op a :
  asset_update_bitasset_do_evaluate d op = Ok a → ∃ b, get_bitasset d a = Ok b ∧ has_settlement b = false.
Proof.
  unfold asset_update_bitasset_do_evaluate. intros H.
  apply rbind_ok in H as (a' & _ & H). apply rbind_ok in H as (? & _ & H).
  apply rbind_ok in H as (b & Hb & H). apply rbind_ok in H as (? & Hs%require_ok%negb_true_iff & H).
  apply rbind_ok in H as (? & _ & H). apply rbind_ok in H as (? & _ & [= <-]). eauto.
Qed.

Lemma publish_evaluate_ok d op a :
  asset_publish_feed_do_evaluate d op = Ok a → db_assets d !! apf_asset_id op = Some a.
Proof. unfold asset_publish_feed_do_evaluate, get_asset_object. intros H. by ok_inv. Qed.

Lemma settle_evaluate_ok d op a :
  asset_settle_do_evaluate d op = Ok a →
  db_assets d !! asset_id (ase_amount op) = Some a ∧ ∃ b, get_bitasset d a = Ok b.
Proof.
  unfold asset_settle_do_evaluate. intros H.
  apply rbind_ok in H as (a' & Ha%get_asset_ok & H). apply rbind_ok in H as (? & _ & H).
  apply rbind_ok in H as (b & Hb & H). apply rbind_ok in H as (? & _ & H).
  apply rbind_ok in H as (? & _ & H). apply rbind_ok in H as (? & _ & H).
  apply rbind_ok in H as (? & _ & H). apply rbind_ok in H as (? & _ & [= <-]). eauto.
Qed.

Lemma same_market_get_bitasset d d' a : same_market d d' → get_bitasset d' a = get_bitasset d a.
Proof. intros S. unfold get_bitasset. by rewrite (same_market_bitassets _ _ S). Qed.

Lemma amounts_wf_fee d d' : same_market d d' → same_supplies d d' → amounts_wf d → amounts_wf d'.
Proof.
  intros S Hs [H1 H2]. split; [|by rewrite (same_market_bitassets _ _ S)].
  intros i s' (s & Hi & ->)%Hs. by eapply H1.
Qed.

(** An operation whose own part conserves, on any state the fee leads to. *)
Lemma start_conserves {Op} {E : Evaluator Op} required d (op : Op) d' :
  asset_state_wf d →
  (∀ st d1 d2, do_evaluate d op = Ok st → same_market d d1 → same_supplies d d1 → assets_wf d1 → market_wf d1 →
     do_apply d1 op st = Ok d2 → mconserves d1 d2) →
  start_evaluate false false required d op = Ok d' → mconserves d d'.
Proof.
  intros (Ha & Hm & _) Hop (st & d1 & d2 & Hev & S1 & M1 & Happ & S3 & Hc & Hs)%start_evaluate_market.
  destruct (M1 Ha Hm) as (Ha1 & Hm1 & _). apply Hc. by eapply Hop.
Qed.

Lemma convert_fee_fresh sf g d d' : convert_fee sf g d = Ok d' → asset_ids_fresh d → asset_ids_fresh d'.
Proof.
  unfold convert_fee, modify_asset_dyn. intros H Hfr. case_in H; [by ok_inv|].
  case_in H; [|by ok_inv]. apply rbind_ok in H as (s & Hs%of_option_ok & H).
  apply rbind_ok in H as (s' & _ & [= <-]). destruct Hfr as (H1 & H2 & H3). split_and!; [done| |done].
  simpl. intros i x [[<- <-]|[_ Hx]]%lookup_insert_Some; by eapply H2.
Qed.

Lemma pay_fee_fresh sf g d d' : pay_fee sf g d = Ok d' → asset_ids_fresh d → asset_ids_fresh d'.
Proof.
  unfold pay_fee, modify_statistics. intros H Hfr. case_in H; [by ok_inv|].
  apply rbind_ok in H as (s & _ & H). by apply rbind_ok in H as (s' & _ & [= <-]).
Qed.

Lemma asset_create_start_conserves required d op id d' :
  asset_options_validate (ac_common_options op) = Ok tt →
  0 <= opt_market_fee_percent (ac_common_options op) → amount (ac_fee op) < 2 ^ 63 → asset_ids_fresh d →
  asset_create_start false false required d op = Ok (id, d') → mconserves d d'.
Proof.
  intros Hv Hp Hfee Hfr H. apply rbind_ok in H as (g & Hg & H).
  apply rbind_ok in H as (? & _ & H). apply rbind_ok in H as (? & _ & H).
  apply rbind_ok in H as (d1 & Hc & H). apply rbind_ok in H as ([[g' odd] d2] & H2 & H).
  apply rbind_ok in H as ([id' d3] & H3 & H). apply rbind_ok in H as (n & Hn & H).
  apply asset_neg_ok in Hn as ->.
  apply rbind_ok in H as (d4 & [M4 _]%adjust_balance_market & [= <- <-]).
  pose proof (prepare_fee_core _ _ _ _ Hfee Hg) as [Hcore _].
  pose proof (prepare_fee_ok _ _ _ _ Hg) as (Ef & _).
  pose proof (mmoves_of_moves _ _ _ (convert_fee_moves _ _ _ _ _ Hg Hc) (convert_fee_same _ _ _ _ Hc)) as M1.
  assert (asset_ids_fresh d2) as Hfr2.
  { apply rbind_ok in H2 as (d2' & Hpay & [= _ _ <-]). eapply pay_fee_fresh; [done|]. by eapply convert_fee_fresh. }
  apply asset_create_pay_fee_moves in H2 as (S2 & Ef' & M2 & Es); [|done].
  apply asset_create_do_apply_moves in H3; [|done..]. rewrite Ef', Ef in M4.
  eapply mmoves_ext; [eapply mmoves_trans; [exact M1|eapply mmoves_trans; [exact M2|
    eapply mmoves_trans; [exact H3|exact M4]]]|].
  intros aid; cbv beta. rewrite amount_of_neg, <- Es. unfold core_delta. rewrite !amount_of_core.
  destruct (ac_fee op); simpl. destruct (aid =? core_id); lia.
Qed.

(** C9.  Asset operations create and destroy nothing.  Whatever operation of
    creation, issue, reservation, funding of the fee pool, claiming of fees,
    change of options, of the backing or of the feed producers, publication
    of a feed, global settlement or settlement passes its checks, with its
    fee: for every asset, what the accounts, orders, pools and funds hold
    grows by exactly what the supply grows by, and the assets and the market
    stay well formed. *)
Theorem asset_operations_conserve required d op d' :
  asset_state_wf d → asset_options_typed op → asset_operation_validate op = Ok tt →
  asset_operation_apply required d op = Ok d' →
  assets_wf d' ∧ market_wf d' ∧ ∀ aid, imbalance aid d' = imbalance aid d.
Proof.
  intros Hwf Ht Hv H. pose proof Hwf as (Ha & Hm & Hfr & Ham & Hsb).
  enough (mconserves d d') as M.
  { destruct (M Ha Hm) as (? & ? & E). split_and!; [done..|]. intros. rewrite E. lia. }
  destruct op; simpl in *.
  - apply rbind_ok in H as ([id d1] & H & [= <-]). destruct Ht as [Hp Hfee].
    apply rbind_ok in Hv as (? & _ & Hv). apply rbind_ok in Hv as (? & _ & Hv).
    apply rbind_ok in Hv as ([] & Hv & _). by eapply asset_create_start_conserves.
  - eapply (start_conserves _ _ op _ Hwf), H. intros st d1 d2 (Hlk & _)%issue_evaluate_ok S _ _ _.
    apply asset_issue_conserves. by rewrite (same_market_assets _ _ S).
  - eapply (start_conserves _ _ op _ Hwf), H. intros st d1 d2 Hlk%reserve_evaluate_ok S _ _ _.
    apply asset_reserve_conserves. by rewrite (same_market_assets _ _ S).
  - eapply (start_conserves _ _ op _ Hwf), H. intros st d1 d2 Hlk%fund_pool_evaluate_ok S _ _ _.
    apply asset_fund_fee_pool_conserves. by rewrite (same_market_assets _ _ S).
  - eapply (start_conserves _ _ op _ Hwf), H. intros st d1 d2 _ _ _ _ _. apply asset_claim_fees_conserves.
  - eapply (start_conserves _ _ op _ Hwf), H. intros st d1 d2 _ _ _ _ _.
    apply rbind_ok in Hv as (? & _ & Hv). apply rbind_ok in Hv as (? & _ & Hv).
    apply rbind_ok in Hv as ([] & Hv & _). by apply asset_update_conserves.
  - eapply (start_conserves _ _ op _ Hwf), H. intros st d1 d2 (b & Hb & Hs)%update_bitasset_evaluate_ok S _ Ha1 _.
    apply (asset_update_bitasset_conserves _ _ _ b); [|done|done].
    by rewrite (same_market_get_bitasset _ _ _ S).
  - eapply (start_conserves _ _ op _ Hwf), H. intros st d1 d2 _ _ _ _ _. apply asset_update_feed_producers_conserves.
  - eapply (start_conserves _ _ op _ Hwf), H. intros st d1 d2 Hlk%publish_evaluate_ok S Hs _ _.
    apply asset_publish_feed_conserves; [by rewrite (same_market_assets _ _ S)|by eapply amounts_wf_fee].
  - eapply (start_conserves _ _ op _ Hwf), H. intros st d1 d2 _ _ _ Ha1 Hm1 Hd.
    by apply globally_settle_ok in Hd as [M _].
  - eapply (start_conserves _ _ op _ Hwf), H. intros st d1 d2 (Hlk & b & Hb)%settle_evaluate_ok S _ _ _.
    apply (asset_settle_conserves _ _ _ b); [by rewrite (same_market_assets _ _ S)| |by eapply Hsb].
    by rewrite (same_market_get_bitasset _ _ _ S).
Qed.

(** ** Issue *)

(** Issuing an asset.  Only its issuer can, and only an asset that is not
    market issued; the receiver's balance and the supply grow by the issued
    amount, nobody else's balance and no other supply changes, and the
    supply stays within the maximum of the asset. *)
Theorem asset_issue_correct d op a d' :
  assets_wf d → asset_issue_do_evaluate d op = Ok a → asset_issue_do_apply d op a = Ok d' →
  let aid := asset_id (ai_asset_to_issue op) in let x := amount (ai_asset_to_issue op) in
  as_issuer a = ai_issuer op ∧ as_bitasset_data_id a = None ∧ current_supply aid d' <= as_max_supply a ∧
  (∀ i, current_supply i d' = current_supply i d + (if decide (i = aid) then x else 0)) ∧
  ∀ who i, amount (get_balance d' who i) =
    amount (get_balance d who i) + (if decide (who = ai_issue_to_account op ∧ i = aid) then x else 0).
Proof.
  intros (Hinj & _) (Ha & Hi & Hb & s & Hs & Hmax)%issue_evaluate_ok H. cbv zeta.
  apply rbind_ok in H as (d1 & H1 & H). pose proof (adjust_balance_get _ _ _ _ H1) as [_ G].
  apply adjust_balance_frame in H1 as [m ->].
  apply rbind_ok in H as (s1 & Hs1%of_option_ok & H). apply rbind_ok in H as (s' & Hs' & [= <-]).
  apply rbind_ok in Hs' as (n & Hn & [= <-]). simpl in Hs1. assert (s1 = s) as -> by congruence. safe_inv.
  assert (∀ i, current_supply i (set_asset_dyn
      <[as_dynamic_asset_data_id a := set_current_supply (λ _, dd_current_supply s + amount (ai_asset_to_issue op)) s]>
      (set_balances m d)) = current_supply i d +
      (if decide (i = asset_id (ai_asset_to_issue op)) then amount (ai_asset_to_issue op) else 0)) as Hsup.
  { intros i. unfold current_supply, dyn_of; simpl. case_decide as Ei; [subst i; rewrite Ha; simpl; by rewrite lookup_insert_eq, Hs|].
    destruct (db_assets d !! i) as [b|] eqn:Hbi; simpl; [|lia].
    rewrite lookup_insert_ne; [lia|]. intros E. apply Ei. by eapply Hinj. }
  split_and!; [done|done| |exact Hsup|exact G]. rewrite Hsup, decide_True by done.
  unfold current_supply, dyn_of. rewrite Ha. simpl. by rewrite Hs.
Qed.

(** ** Creation *)

Lemma find_symbol_none d symbol i a :
  find_symbol d symbol = None → db_assets d !! i = Some a → as_symbol a ≠ symbol.
Proof.
  unfold find_symbol. intros H Ha. pose proof (find_none _ _ H (i, a)) as Hn.
  apply bool_decide_eq_false in Hn; [done|].
  apply list_elem_of_In. rewrite in_order_perm. by apply elem_of_map_to_list.
Qed.

Lemma find_symbol_some d symbol i a :
  find_symbol d symbol = Some (i, a) → db_assets d !! i = Some a ∧ as_symbol a = symbol.
Proof.
  unfold find_symbol. intros [Hin Hs]%find_some. apply bool_decide_eq_true in Hs. split; [|done].
  apply list_elem_of_In in Hin. rewrite in_order_perm in Hin. by apply elem_of_map_to_list in Hin.
Qed.

(** What creation does after the fee is paid. *)
Lemma asset_create_do_apply_ok d op core_fee odd id d' :
  asset_ids_fresh d → asset_create_do_apply d op core_fee odd = Ok (id, d') →
  ∃ dyn bit pool, db_assets d !! id = None ∧ find_symbol d (ac_symbol op) = None ∧
    db_assets d' = <[id := created_asset op dyn bit id]> (db_assets d) ∧
    db_asset_dyn d' !! dyn = Some (mkDynData 0 0 0 pool) ∧
    (HARDFORK_CORE_429_TIME < head_block_time d → pool = core_fee - (if odd then 1 else 0)) ∧
    match ac_bitasset_opts op with
    | None => bit = None
    | Some o => ∃ i, bit = Some i ∧ db_bitassets d' !! i = Some (new_bitasset o (ac_is_prediction_market op))
    end.
Proof.
  intros Hfr H. apply rbind_ok in H as ([dyn d1] & H1 & H).
  apply create_asset_dyn_ok in H1 as (-> & Hn & E1). set (dyn := db_next_asset_dyn d) in *.
  apply rbind_ok in H as (d2 & (_ & Ea2 & _ & Ed2)%odd_core_moves & H).
  apply rbind_ok in H as ([bit d3] & H3 & H4). set (pool := core_fee - _) in *.
  assert (∀ i a, db_assets d1 !! i = Some a → as_dynamic_asset_data_id a ≠ dyn) as Hne.
  { intros i a Ha. subst d1. destruct Hfr as [Hfr _]. destruct (Hfr _ _ Ha). subst dyn. lia. }
  assert (db_assets d3 = db_assets d2 ∧ db_asset_dyn d3 = db_asset_dyn d2 ∧
    match ac_bitasset_opts op with
    | None => bit = None
    | Some o => ∃ i, bit = Some i ∧ db_bitassets d3 !! i = Some (new_bitasset o (ac_is_prediction_market op))
    end) as (Ea3 & Ed3 & Hbit).
  { case_match; [|by injection H3 as <- <-]. apply rbind_ok in H3 as ([j d4] & H3 & [= <- <-]).
    apply create_bitasset_ok in H3 as (_ & _ & ->). split_and!; [done|done|]. exists j. split; [done|].
    simpl. by rewrite lookup_insert_eq. }
  apply create_asset_ok in H4 as (-> & Hid & Hsym & ->). unfold find_symbol in Hsym.
  rewrite Ea3, Ea2, E1 in Hid, Hsym. exists dyn, bit, pool. split_and!; [done|done| | | |exact Hbit]; simpl.
  - by rewrite Ea3, Ea2, E1.
  - rewrite Ed3, Ed2 by done. rewrite E1. simpl. by rewrite lookup_insert_eq.
  - intros Ht. subst pool. destruct odd; [|done]. by apply Z.ltb_lt in Ht as ->.
Qed.

(** The market authorities of an asset: who may create sub-assets of it. *)
Lemma check_symbol_prefix_ok d op p :
  HARDFORK_385_TIME < head_block_time d → HARDFORK_409_TIME < head_block_time d →
  symbol_prefix (ac_symbol op) = Some p → check_symbol_prefix d op = Ok tt →
  ∃ i a, db_assets d !! i = Some a ∧ as_symbol a = p ∧ as_issuer a = ac_issuer op.
Proof.
  intros H1 H2 Hp H. unfold check_symbol_prefix in H. apply Z.ltb_lt in H1. rewrite H1, Hp in H.
  apply Z.leb_gt in H2. rewrite H2 in H. case_match eqn:E; [|done]. case_match. subst.
  apply find_symbol_some in E as [? ?]. apply require_ok in H. eexists _, _. split_and!; [done|done|lia].
Qed.

(** Two assets have different symbols. *)
Definition symbols_unique (d : database) : Prop :=
  ∀ i j a b, db_assets d !! i = Some a → db_assets d !! j = Some b → as_symbol a = as_symbol b → i = j.

(** Creating an asset adds one asset with a new id, the given issuer,
    symbol and options, no supply, and nothing else to the table of assets;
    symbols stay unique, and [A.B] can only be created by the issuer of [A]
    (after the hard forks 385 and 409); half of a fee paid in the core
    currency, rounded down, is the fee pool of the new asset; the data of a
    market-issued asset are those of the given options with no feed. *)
Theorem asset_create_correct required d op id d' :
  asset_ids_fresh d → symbols_unique d → asset_create_start false false required d op = Ok (id, d') →
  ∃ a pool, db_assets d !! id = None ∧ db_assets d' = <[id := a]> (db_assets d) ∧
    as_issuer a = ac_issuer op ∧ as_symbol a = ac_symbol op ∧ as_precision a = ac_precision op ∧
    as_max_supply a = opt_max_supply (ac_common_options op) ∧ as_flags a = opt_flags (ac_common_options op) ∧
    symbols_unique d' ∧
    (∀ p, HARDFORK_385_TIME < head_block_time d → HARDFORK_409_TIME < head_block_time d →
       symbol_prefix (ac_symbol op) = Some p →
       ∃ i b, db_assets d !! i = Some b ∧ as_symbol b = p ∧ as_issuer b = ac_issuer op) ∧
    db_asset_dyn d' !! as_dynamic_asset_data_id a = Some (mkDynData 0 0 0 pool) ∧
    (asset_id (ac_fee op) = core_id → HARDFORK_CORE_429_TIME < head_block_time d →
       pool = amount (ac_fee op) / 2) ∧
    match ac_bitasset_opts op with
    | None => as_bitasset_data_id a = None
    | Some o => get_bitasset d' a = Ok (new_bitasset o (ac_is_prediction_market op))
    end.
Proof.
  intros Hfr Hu H. apply rbind_ok in H as (g & Hg & H).
  apply rbind_ok in H as (? & _ & H). apply rbind_ok in H as ([] & Hev & H).
  apply rbind_ok in H as (d1 & Hc & H). apply rbind_ok in H as ([[g' odd] d2] & H2 & H).
  apply rbind_ok in H as ([id' d3] & H3 & H). apply rbind_ok in H as (n & _ & H).
  apply rbind_ok in H as (d4 & H4 & [= <- <-]). apply adjust_balance_frame in H4 as [m ->].
  pose proof (prepare_fee_ok _ _ _ _ Hg) as (_ & _ & Hpos & _ & Hcore).
  apply rbind_ok in H2 as (d2' & Hpay & [= <- <- <-]).
  pose proof (convert_fee_same _ _ _ _ Hc) as S1. pose proof (pay_fee_same _ _ _ _ Hpay) as S2.
  pose proof (pay_fee_fresh _ _ _ _ Hpay (convert_fee_fresh _ _ _ _ Hc Hfr)) as Hfr2.
  apply asset_create_do_apply_ok in H3 as (dyn & bit & pool & Hid & Hsym & Ea & Ed & Hp & Hbit); [|done].
  unfold find_symbol in Hsym. rewrite (same_market_assets _ _ S2), (same_market_assets _ _ S1) in Hid, Ea, Hsym.
  exists (created_asset op dyn bit id'), pool.
  split_and!; [done|exact Ea|done..| | |exact Ed| |].
  - intros i j a b. simpl. rewrite Ea, !lookup_insert_Some.
    intros [[<- <-]|[? Hi]] [[<- <-]|[? Hj]] E; [done| | |by eapply Hu].
    + by destruct (find_symbol_none _ _ _ _ Hsym Hj).
    + by destruct (find_symbol_none _ _ _ _ Hsym Hi).
  - intros p Ht1 Ht2 Hpre. apply rbind_ok in Hev as (? & _ & Hev). apply rbind_ok in Hev as (? & _ & Hev).
    apply rbind_ok in Hev as ([] & Hev & _). by eapply check_symbol_prefix_ok.
  - intros Hc0 Ht. rewrite Hp; [|by rewrite (same_market_time _ _ S2), (same_market_time _ _ S1)].
    simpl. rewrite Hcore by done. by apply half_of_fee.
  - case_match; [|done]. destruct Hbit as (i & -> & Hb). apply get_bitasset_ok. eauto.
Qed.
End evaluation.

(** ** Runs *)

#[local] Existing Instance fc_reference.
#[local] Existing Instance boost_reference.
#[local] Existing Instance fc_reference_laws.
#[local] Existing Instance boost_reference_laws.

(** The sample market with its ids, and dollars fed by Alice, Bob and Carol. *)
Definition asset_db : database :=
  set_next_asset (λ _, 3) (set_next_asset_dyn (λ _, 3) (set_next_bitasset (λ _, 1) market_db)).

Lemma asset_db_ok : asset_state_wf asset_db.
Proof.
  destruct market_db_ok as (Ha & Hm & _). split_and!; [exact Ha|exact Hm| | |].
  - split_and!; [change (map_Forall (λ i a, i < 3 ∧ as_dynamic_asset_data_id a < 3) (db_assets asset_db))|
      change (map_Forall (λ i (_ : asset_dynamic_data_object), i < 3) (db_asset_dyn asset_db))|
      change (map_Forall (λ i (_ : asset_bitasset_data_object), i < 1) (db_bitassets asset_db))];
      unfold asset_db, market_db, sample_db; simpl;
      repeat (apply map_Forall_insert_2; [vm_compute; intuition congruence|]);
      first [apply map_Forall_empty|apply map_Forall_singleton; reflexivity].
  - split.
    + change (map_Forall (λ (_ : Z) s, dd_current_supply s < 2 ^ 63) (db_asset_dyn asset_db)).
      unfold asset_db, market_db, sample_db; simpl.
      repeat (apply map_Forall_insert_2; [vm_compute; reflexivity|]). apply map_Forall_empty.
    + change (map_Forall (λ (_ : Z) b, amount_ok (bd_settlement_fund b)) (db_bitassets asset_db)).
      apply map_Forall_singleton. vm_compute. intuition congruence.
  - intros aid a b _ (i & _ & Hb)%get_bitasset_ok Hs. unfold asset_db in Hb; simpl in Hb.
    apply lookup_singleton_Some in Hb as [<- <-]. vm_compute in Hs. discriminate.
Qed.

Definition gold_options : asset_options :=
  mkOptions 1000000 0 0 0 0 (mkPrice (mkAsset 1 core_id) (mkAsset 1 1)) ∅ ∅ ∅ ∅.
Definition create_gold : asset_create_operation :=
  mkAssetCreate (core_asset 501) alice "GOLD" 3 gold_options None false.
Definition gold_db : database :=
  snd (get_ok (asset_create_start false false (Ok 500) asset_db create_gold) (0, asset_db)).

Lemma asset_operations_conserve_witness :
  imbalance 0 gold_db = 0 ∧ imbalance 3 gold_db = 0 ∧ is_Some (db_assets gold_db !! 3).
Proof.
  destruct market_db_ok as (_ & _ & Hi & _).
  destruct (asset_operations_conserve (Ok 500) asset_db (op_asset_create create_gold) gold_db)
    as (_ & _ & E).
  - exact asset_db_ok.
  - split; [vm_compute; discriminate|vm_compute; reflexivity].
  - vm_compute. reflexivity.
  - vm_compute. reflexivity.
  - split_and!; [rewrite E; exact Hi|rewrite E; vm_compute; reflexivity|by eexists].
Defined.

Lemma asset_create_correct_witness :
  ∃ a, db_assets gold_db !! 3 = Some a ∧ as_symbol a = "GOLD"%string ∧
    dd_fee_pool <$> db_asset_dyn gold_db !! as_dynamic_asset_data_id a = Some 250.
Proof.
  destruct (asset_create_correct (Ok 500) asset_db create_gold 3 gold_db)
    as (a & pool & _ & Ea & _ & Es & _ & _ & _ & _ & _ & Ed & Hp & _).
  - apply asset_db_ok.
  - intros i j a b Hi Hj E. unfold asset_db, market_db, sample_db in Hi, Hj. simpl in Hi, Hj.
    rewrite !lookup_insert_Some, lookup_empty in Hi, Hj.
    destruct Hi as [[<- <-]|[_ [[<- <-]|[_ [[<- <-]|[_ Hi]]]]]],
      Hj as [[<- <-]|[_ [[<- <-]|[_ [[<- <-]|[_ Hj]]]]]]; done.
  - vm_compute. reflexivity.
  - exists a. rewrite Ea, lookup_insert_eq. split_and!; [done|exact Es|].
    rewrite Ed. simpl. rewrite Hp; [reflexivity|reflexivity|vm_compute; reflexivity].
Defined.

(** Bob issues 50 of his coins to Carol. *)
Definition issue_bobcoin : asset_issue_operation :=
  mkAssetIssue (core_asset 5) bob (mkAsset 50 1) carol.
Definition issued_db : database :=
  get_ok (let* a := asset_issue_do_evaluate asset_db issue_bobcoin in asset_issue_do_apply asset_db issue_bobcoin a)
    asset_db.
Lemma asset_issue_correct_witness :
  current_supply 1 issued_db = 650 ∧ amount (get_balance issued_db carol 1) = 50.
Proof.
  destruct (asset_issue_correct asset_db issue_bobcoin
    (get_ok (asset_issue_do_evaluate asset_db issue_bobcoin) usd_asset) issued_db) as (_ & _ & _ & Es & Eb).
  - apply asset_db_ok.
  - vm_compute. reflexivity.
  - vm_compute. reflexivity.
  - split; [by rewrite Es|by rewrite Eb].
Defined.
