(* ===== verification/Upkeep.v ===== *)
(** * The upkeep of the market with every block ([db_update.cpp])

    Limit orders that expire, settlements that fall due
    ([clear_expired_orders]), and the feeds of the market-issued assets
    ([update_expired_feeds]).  Messages to the log are left out. *)

From stdpp Require Import gmap strings list.
From Stdlib Require Import ZArith Lia.
From S2P Require Import Prelude Fc Config Asset VestingBalance Objects Database Sample Balances Fees Listing ListingInv Market MarketProps MarketSteps MarketEval MarketEvalProps PriceFeeds AssetOps AssetEval AssetProps.

Local Open Scope Z_scope.

(** ** The settlements in their order *)

(** [force_settlement_index] by expiration: the asset, the date, the id. *)
Definition settlement_before (a b : Z * force_settlement_object) : bool :=
  let aa := asset_id (fs_balance a.2) in
  let ab := asset_id (fs_balance b.2) in
  (aa <? ab) || ((aa =? ab) &&
    ((fs_settlement_date a.2 <? fs_settlement_date b.2)
     || ((fs_settlement_date a.2 =? fs_settlement_date b.2) && (a.1 <? b.1)))).

Definition settlements_where (d : database) (f : Z → bool) : list Z :=
  visit settlement_before (λ s, f (asset_id (fs_balance s))) (objs (db_settlements d)).

(** [lower_bound( current_asset )] and [upper_bound( current_asset )]. *)
Definition settlement_from (d : database) (aid : Z) : option Z := head (settlements_where d (λ i, aid <=? i)).
Definition settlement_after (d : database) (aid : Z) : option Z := head (settlements_where d (λ i, aid <? i)).

Section operations.
Context {FC : FcArith} {BA : BoostArith} {NE : NthElement}.

(** ** One settlement that is due *)

(** The inner loop: against the least collateralized position until the
    settlement is done or the volume of the interval is used up. *)
Fixpoint settle_order (fuel : nat) (id : Z) (mia : asset_object) (aid : Z) (settlement_price : price)
    (max_settlement_volume settled : asset) (d : database) : result (asset * database) :=
  let* more := asset_ltb settled max_settlement_volume in
  match more, objs (db_settlements d) !! id with
  | true, Some order =>
      match fuel with
      | O => Throw out_of_fuel
      | S fuel' =>
          let* b := get_bitasset d mia in
          let* call := least_collateralized d (backing b) aid in
          let* max_settlement := asset_sub max_settlement_volume settled in
          if amount (fs_balance order) =? 0 then
            let* d := cancel_settlement d id in Ok (settled, d)
          else
            match match_settlement d call id settlement_price max_settlement with
            | Ok (x, d) =>
                let* settled := asset_add settled x in
                settle_order fuel' id mia aid settlement_price max_settlement_volume settled d
            | Throw black_swan_exception => let* d := cancel_settlement d id in Ok (settled, d)
            | Throw e => Throw e
            end
      end
  | _, _ => Ok (settled, d)
  end.

(** The price of a settlement: the feed less the offset of the asset. *)
Definition due_price (pays : asset) (mia : asset_bitasset_data_object) : result price :=
  let* receives := asset_mul_price pays (settlement_price (bd_current_feed mia)) in
  let* q := u128_div (u128_mul (u128_of_i64 (amount receives))
                        (GRAPHENE_100_PERCENT - bo_force_settlement_offset_percent (bd_options mia)))
              GRAPHENE_100_PERCENT in
  let* x := u128_to_uint64 q in
  asset_div pays (mkAsset (wrap_i64 x) (asset_id receives)).

Definition settle_due_order (d : database) (id : Z) (a : asset_object) (aid : Z)
    (max_settlement_volume : asset) : result database :=
  let* order := settlement_ref d id in
  let* mia := get_bitasset d a in
  let* p := due_price (fs_balance order) mia in
  let* (settled, d) := settle_order (S (size (objs (db_call_orders d)))) id a aid p max_settlement_volume
                         (mkAsset (bd_force_settled_volume mia) aid) d in
  let* mia := get_bitasset d a in
  if bd_force_settled_volume mia =? amount settled then Ok d
  else modify_bitasset d a (λ b, Ok (set_force_settled_volume (λ _, amount settled) b)).

(** ** The loop over the settlements *)

(** What a round does with the order it looks at. *)
Inductive due_round :=
| Cancel
| NextAsset
| Settle (max_settlement_volume : asset).

Definition due_order (d : database) (order : force_settlement_object) (mia_object : asset_object)
    (max_settlement_volume : asset) : result due_round :=
  let current_asset := asset_id (fs_balance order) in
  let* mia := get_bitasset d mia_object in
  if has_settlement mia then Ok Cancel
  else if head_block_time d <? fs_settlement_date order then Ok NextAsset
  else if price_is_null (settlement_price (bd_current_feed mia)) then Ok Cancel
  else
    let* max :=
      if asset_id max_settlement_volume =? current_asset then Ok max_settlement_volume
      else
        let* dyn := get_asset_dyn d (as_dynamic_asset_data_id mia_object) in
        let* v := max_force_settlement_volume mia (dd_current_supply dyn) in
        Ok (mkAsset v current_asset) in
    Ok (if amount max <=? bd_force_settled_volume mia then NextAsset else Settle max).

(** The volume kept between rounds is recomputed when the asset changes. *)
Fixpoint settle_due (fuel : nat) (current_asset : Z) (max_settlement_volume : asset) (d : database)
    : result database :=
  match settlement_from d current_asset with
  | None => Ok d
  | Some id =>
      match fuel with
      | O => Throw out_of_fuel
      | S fuel' =>
          let* order := settlement_ref d id in
          let current_asset := asset_id (fs_balance order) in
          let* mia_object := get_asset_object d current_asset in
          let* round := due_order d order mia_object max_settlement_volume in
          match round with
          | Cancel =>
              let* d := cancel_settlement d id in settle_due fuel' current_asset max_settlement_volume d
          | NextAsset =>
              match settlement_after d current_asset with
              | None => Ok d
              | Some next =>
                  let* n := settlement_ref d next in
                  settle_due fuel' (asset_id (fs_balance n)) max_settlement_volume d
              end
          | Settle max =>
              let* d := settle_due_order d id mia_object current_asset max in
              settle_due fuel' current_asset max d
          end
      end
  end.

(** Every round removes an order, uses up the volume of its asset, or moves on
    to a later asset. *)
Definition settle_fuel (d : database) : nat := 3 * size (objs (db_settlements d)).

(** The cancellation fee the schedule asks for is an argument. *)
Definition clear_expired_orders (cancel_fee : result asset) (d : database) : result database :=
  let* d := clear_expired_limit_orders (size (objs (db_limit_orders d))) cancel_fee d in
  match settlement_from d 0 with
  | None => Ok d
  | Some first =>
      let* s := settlement_ref d first in
      settle_due (settle_fuel d) (asset_id (fs_balance s)) (mkAsset 0 core_id) d
  end.

(** ** Feeds *)

(** Before the hardfork the comparison was the wrong way round. *)
Definition feed_is_expired (now : Z) (b : asset_bitasset_data_object) : bool :=
  let feed_expiration_time :=
    time_add (bd_current_feed_publication_time b) (bo_feed_lifetime_sec (bd_options b)) in
  if now <? HARDFORK_615_TIME then now <=? feed_expiration_time else feed_expiration_time <=? now.

Definition update_expired_feed (d : database) (aid : Z) : result database :=
  let* a := get_asset_object d aid in
  let* b := get_bitasset d a in
  let* d :=
    if feed_is_expired (head_block_time d) b then
      let* d := modify_bitasset d a (λ b, Ok (update_median_feeds (head_block_time d) b)) in
      let* b := get_bitasset d a in
      let feed_asset := asset_id (base (settlement_price (bd_current_feed b))) in
      let* (_, d) := check_call_orders d feed_asset true in Ok d
    else Ok d in
  let* a := get_asset_object d aid in
  let* b := get_bitasset d a in
  let rate := core_exchange_rate (bd_current_feed b) in
  if negb (price_is_null rate) && negb (price_eqb (as_core_exchange_rate a) rate)
  then modify_asset d aid (set_core_exchange_rate (λ _, rate)) else Ok d.

(** The market-issued assets in the order of their ids. *)
Definition market_issued_ids (d : database) : list Z :=
  visit (λ a b, a.1 <? b.1) is_market_issued (db_assets d).

Definition update_expired_feeds (d : database) : result database :=
  rfold update_expired_feed d (market_issued_ids d).
End operations.
