(* ===== verification/UpkeepProps.v ===== *)
(** * The upkeep of the market: the properties

    The loops of [clear_expired_orders] and [update_expired_feeds] end and
    neither create nor destroy any asset. *)

From stdpp Require Import gmap strings list sorting.
From Stdlib Require Import ZArith Lia.
From S2P Require Import Prelude Fc Config Asset VestingBalance Objects Database Sample Balances Fees Reputation Exceptions Listing ListingInv Market MarketProps MarketSteps MarketEval MarketEvalProps MarketTheorems PriceFeeds PriceFeedProps AssetOps AssetEval AssetProps Upkeep.

Local Open Scope Z_scope.

(** ** Runs that end *)

(** With a result, an exception or undefined behaviour. *)
Definition ends {A} (c : result A) : Prop := c ≠ Throw out_of_fuel.

Lemma ends_rbind {A B} (c : result A) (k : A → result B) : ends c → (∀ a, ends (k a)) → ends (rbind c k).
Proof. unfold ends. destruct c; simpl; [auto|congruence]. Qed.

Lemma ends_defined {A} (c : result A) : defined c → ends c.
Proof. unfold ends. by intros H ->. Qed.

Create HintDb ends discriminated.
Ltac ends_step :=
  match goal with
  | |- ends (rbind _ _) => apply ends_rbind; [|intros ?]
  | |- ends (require ?b _) => destruct b; discriminate
  | |- ends (of_option _ ?o) => destruct o; discriminate
  | |- ends (Ok _) => discriminate
  | |- ends (Throw _) => discriminate
  | |- _ => solve [auto with nocore ends]
  | |- _ => solve [apply ends_defined; auto with nocore defined]
  | |- ends ?c => match c with context [match ?x with _ => _ end] => destruct x end
  end.
Ltac ends_tac := repeat (intros; cbv zeta beta; ends_step).

Section properties.
Context {FC : FcArith} {FCL : FcArithLaws FC} {BA : BoostArith} {BAL : BoostArithLaws BA} {NE : NthElement}.

Lemma ends_safe_add a b : ends (safe_add a b).
Proof. apply ends_defined, defined_safe_add. Qed.
Lemma ends_u128_div a b : ends (u128_div a b).
Proof. apply ends_defined, defined_u128_div. Qed.
Lemma ends_u128_to_uint64 a : ends (u128_to_uint64 a).
Proof. rewrite u128_to_uint64_spec. ends_tac. Qed.
Lemma ends_asset_mul_price a p : ends (asset_mul_price a p).
Proof. apply ends_defined, defined_asset_mul_price. Qed.
Local Hint Resolve ends_safe_add ends_u128_div ends_u128_to_uint64 ends_asset_mul_price : ends.

Lemma ends_asset_add a b : ends (asset_add a b).
Proof. unfold asset_add. ends_tac. Qed.
Lemma ends_asset_sub a b : ends (asset_sub a b).
Proof. unfold asset_sub. ends_tac. Qed.
Lemma ends_asset_ltb a b : ends (asset_ltb a b).
Proof. unfold asset_ltb. ends_tac. Qed.
Lemma ends_asset_geb a b : ends (asset_geb a b).
Proof. apply ends_defined, defined_asset_geb. Qed.
Lemma ends_asset_div a b : ends (asset_div a b).
Proof. unfold asset_div. ends_tac. Qed.
Local Hint Resolve ends_asset_add ends_asset_sub ends_asset_ltb ends_asset_geb ends_asset_div : ends.

Lemma ends_asset_min a b : ends (asset_min a b).
Proof. unfold asset_min. ends_tac. Qed.
Lemma ends_modify_statistics d id f : (∀ s, ends (f s)) → ends (modify_statistics d id f).
Proof. intros Hf. unfold modify_statistics, get_statistics. ends_tac. Qed.
Lemma ends_modify_asset_dyn d id f : (∀ s, ends (f s)) → ends (modify_asset_dyn d id f).
Proof. intros Hf. unfold modify_asset_dyn, get_asset_dyn. ends_tac. Qed.
Lemma ends_less_core x s : ends (less_core_in_orders x s).
Proof. unfold less_core_in_orders. ends_tac. Qed.
Local Hint Resolve ends_asset_min ends_less_core : ends.
Local Hint Extern 1 (ends (modify_asset_dyn _ _ _)) => apply ends_modify_asset_dyn; ends_tac : ends.
Local Hint Extern 1 (ends (modify_statistics _ _ _)) => apply ends_modify_statistics; ends_tac : ends.

Lemma ends_pay_market_fees d x : ends (pay_market_fees d x).
Proof.
  unfold pay_market_fees, get_asset_object, calculate_market_fee. ends_tac.
Qed.
Local Hint Resolve ends_pay_market_fees : ends.

Lemma ends_fill_call_order d id p r : ends (fill_call_order d id p r).
Proof.
  unfold fill_call_order, call_ref, get_asset_object. ends_tac.
Qed.
Lemma ends_fill_settlement d id p r : ends (fill_settlement d id p r).
Proof. unfold fill_settlement, settlement_ref. ends_tac. Qed.
Lemma ends_cancel_settlement d id : ends (cancel_settlement d id).
Proof. unfold cancel_settlement, settlement_ref. ends_tac. Qed.
Local Hint Resolve ends_fill_call_order ends_fill_settlement ends_cancel_settlement : ends.

Lemma ends_match_settlement d ci si p m : ends (match_settlement d ci si p m).
Proof. unfold match_settlement, call_ref, settlement_ref. ends_tac. Qed.
Lemma ends_get_bitasset d a : ends (get_bitasset d a).
Proof. unfold get_bitasset, bitasset_id. ends_tac. Qed.
Local Hint Resolve ends_get_bitasset ends_match_settlement : ends.
Lemma ends_least d bk aid : ends (least_collateralized d bk aid).
Proof. unfold least_collateralized, price_min. ends_tac. Qed.
Lemma ends_due_price x b : ends (due_price x b).
Proof. unfold due_price. ends_tac. Qed.
Lemma ends_due_order d s a m : ends (due_order d s a m).
Proof. unfold due_order, get_asset_dyn, max_force_settlement_volume. ends_tac. Qed.
Lemma ends_modify_bitasset d a f : (∀ b, ends (f b)) → ends (modify_bitasset d a f).
Proof. intros Hf. unfold modify_bitasset, bitasset_id. ends_tac. Qed.
Local Hint Resolve ends_least ends_due_price ends_due_order : ends.
(** ** One settlement *)

(** Of the settlements only [id] has changed; the assets have not. *)
Definition settles (id : Z) (d d' : database) : Prop :=
  db_assets d' = db_assets d ∧ db_dgpo d' = db_dgpo d ∧
  (∀ j, j ≠ id → objs (db_settlements d') !! j = objs (db_settlements d) !! j) ∧
  (∀ s', objs (db_settlements d') !! id = Some s' →
     ∃ s, objs (db_settlements d) !! id = Some s ∧ asset_id (fs_balance s') = asset_id (fs_balance s)).

#[export] Instance settles_preorder id : PreOrder (settles id).
Proof.
  split; [intros d; split_and!; eauto|]. intros d1 d2 d3 (A1 & C1 & D1 & E1) (A2 & C2 & D2 & E2).
  split_and!; [congruence..|intros j Hj; by rewrite D2, D1|].
  intros s' (s & Hs & ->)%E2. apply E1 in Hs as (s0 & Hs0 & ->). eauto.
Qed.

Lemma settles_same_market id d d' : same_market d d' → settles id d d'.
Proof. intros (_ & _ & Es & _ & Eb & Ea & _ & Ed). split_and!; [done..|by rewrite Es|rewrite Es; eauto]. Qed.

Lemma settles_removed id d : settles id d (remove_settlement id d).
Proof.
  split_and!; [done..| |]; cbn.
  - intros j Hj. by rewrite lookup_delete_ne.
  - intros s'. by rewrite lookup_delete_eq.
Qed.

Lemma cancel_settlement_frame d id d' : cancel_settlement d id = Ok d' →
  settles id d d' ∧ objs (db_settlements d') !! id = None ∧ is_Some (objs (db_settlements d) !! id).
Proof.
  unfold cancel_settlement, settlement_ref. intros H. apply rbind_ok in H as (s & Hs%of_option_ok & H).
  apply rbind_ok in H as (d1 & [_ S1]%adjust_balance_market & [= <-]). split_and!; [|apply lookup_delete_eq|eauto].
  etrans; [by apply settles_same_market|apply settles_removed].
Qed.

Lemma fill_settlement_frame d id s pays receives b d' : market_wf d → 0 <= amount receives < 2 ^ 63 →
  objs (db_settlements d) !! id = Some s → fill_settlement d id pays receives = Ok (b, d') →
  settles id d d' ∧ db_call_orders d' = db_call_orders d ∧
  (amount pays = amount (fs_balance s) → objs (db_settlements d') !! id = None).
Proof.
  intros Hm Hr Hs. unfold fill_settlement, settlement_ref. rewrite Hs. cbn [of_option rbind].
  intros H. apply rbind_ok in H as ([fee d1] & (_ & _ & S1 & _)%pay_market_fees_ok & H); [|done..].
  apply rbind_ok in H as (part & Hpart & H). apply rbind_ok in H as (d2 & H2 & H).
  apply rbind_ok in H as (net & _ & H). apply rbind_ok in H as (d3 & [_ S3]%adjust_balance_market & [= _ <-]).
  unfold asset_ltb in Hpart. ok_inv. pose proof S1 as (_ & Ec1 & Es1 & _). pose proof S3 as (_ & Ec3 & _).
  destruct (Z.ltb_spec (amount pays) (amount (fs_balance s))).
  - apply rbind_ok in H2 as (bal & Hbal & [= <-]). apply asset_sub_ok in Hbal as [_ ->]. cbn in Ec3.
    split; [|split; [congruence|lia]]. etrans; [by apply settles_same_market|]. etrans; [|by apply settles_same_market].
    split_and!; [done..| |]; cbn.
    + intros j Hj. by rewrite lookup_insert_ne.
    + rewrite lookup_insert_eq, Es1. intros s' [= <-]. by exists s.
  - injection H2 as <-. cbn. rewrite Ec3, Ec1, lookup_delete_eq. split; [|done].
    etrans; [by apply settles_same_market|]. etrans; [by apply settles_same_market|apply settles_removed].
Qed.

Lemma match_settlement_frame d ci si p cap x d' c s : assets_wf d → market_wf d →
  objs (db_call_orders d) !! ci = Some c → objs (db_settlements d) !! si = Some s → 0 <= amount cap →
  match_settlement d ci si p cap = Ok (x, d') →
  settles si d d' ∧ (size (objs (db_call_orders d')) <= size (objs (db_call_orders d)))%nat ∧
  (amount x = call_debt c → size (objs (db_call_orders d')) < size (objs (db_call_orders d)))%nat ∧
  (amount x = amount (fs_balance s) → objs (db_settlements d') !! si = None).
Proof.
  intros Ha Hm Hc Hs Hcap. unfold match_settlement, call_ref, settlement_ref. rewrite Hc, Hs.
  cbn [of_option rbind]. intros H. apply rbind_ok in H as (u1 & _ & H).
  apply rbind_ok in H as (u2 & Hpos%require_ok & H).
  apply rbind_ok in H as (sfs & (_ & Hsa & Hsi & _)%asset_min_ok & H).
  apply rbind_ok in H as (cr & (_ & Hca & Hci & Hci')%asset_min_ok & H).
  apply rbind_ok in H as (cp & Hcp%asset_mul_price_range & H).
  apply rbind_ok in H as (cov & _ & H). apply rbind_ok in H as (u3 & _ & H).
  apply rbind_ok in H as ([f1 d1] & H1 & H). apply rbind_ok in H as ([f2 d2] & H2 & [= <- <-]).
  simpl in *. rewrite Hsa in Hca.
  pose proof H1 as Hk. eapply fill_call_ok in Hk as (M1 & S1 & Ec & _); [|done|done|lia|lia].
  destruct (M1 Ha Hm) as (_ & Hm1 & _).
  pose proof S1 as (_ & Es & _ & Eb & Ea & Eg & Ed).
  eapply (fill_settlement_frame _ _ s) in H2 as (St & Ec2 & Hgone);
    [|done|unfold GRAPHENE_MAX_SHARE_SUPPLY in *; lia|by rewrite Es].
  split; [|rewrite Ec2, Ec; unfold calls_after; cbn; split_and!].
  - etrans; [|exact St]. split_and!; [done..|by rewrite Es|rewrite Es; eauto].
  - case_match; [rewrite map_size_delete, Hc; lia|rewrite map_size_insert, Hc; done].
  - intros E. rewrite (proj2 (Z.eqb_eq _ _) (eq_sym E)). rewrite map_size_delete, Hc.
    assert (size (objs (db_call_orders d)) ≠ 0)%nat; [|lia]. intros Hz%map_size_empty_iff. by rewrite Hz, lookup_empty in Hc.
  - exact Hgone.
Qed.
Lemma ends_rbind_ok {A B} (c : result A) (k : A → result B) :
  ends c → (∀ a, c = Ok a → ends (k a)) → ends (rbind c k).
Proof. unfold ends. destruct c; simpl; [auto|congruence]. Qed.

Lemma asset_ltb_ok a b c : asset_ltb a b = Ok c → c = (amount a <? amount b).
Proof. unfold asset_ltb. intros H. by ok_inv. Qed.

Lemma match_settlement_refs d ci si p cap r : match_settlement d ci si p cap = Ok r →
  ∃ c s, objs (db_call_orders d) !! ci = Some c ∧ objs (db_settlements d) !! si = Some s.
Proof.
  unfold match_settlement, call_ref, settlement_ref. intros H. apply rbind_ok in H as (c & Hc%of_option_ok & H).
  apply rbind_ok in H as (s & Hs%of_option_ok & _). eauto.
Qed.

(** A match of the loop; it fills the settlement, uses up the volume, or
    closes a margin position. *)
Lemma match_settlement_step d ci si p settled max cap x settled' d' : assets_wf d → market_wf d →
  asset_sub max settled = Ok cap → amount settled < amount max →
  match_settlement d ci si p cap = Ok (x, d') → asset_add settled x = Ok settled' →
  mconserves d d' ∧ settles si d d' ∧
  (objs (db_settlements d') !! si = None ∨ amount max <= amount settled' ∨
   (size (objs (db_call_orders d')) < size (objs (db_call_orders d)))%nat).
Proof.
  intros Ha Hm [_ ->]%asset_sub_ok Hlt H Hs'. pose proof H as (c & s & Hc & Hs)%match_settlement_refs.
  pose proof H as K. eapply match_settlement_ok in K as (M & Hx & _); [|done..|simpl; lia].
  eapply match_settlement_frame in H as (St & _ & Hcalls & Hgone); [|done..|simpl; lia].
  split_and!; [done..|]. apply asset_add_ok in Hs' as [_ ->]. simpl in *.
  destruct (decide (amount x = amount (fs_balance s))); [left; auto|].
  destruct (decide (amount x = call_debt c)); [right; right; auto|]. right. left. lia.
Qed.

Lemma settle_order_ok fuel id mia aid p max settled d x d' : assets_wf d → market_wf d →
  settle_order fuel id mia aid p max settled d = Ok (x, d') →
  mconserves d d' ∧ settles id d d' ∧ (objs (db_settlements d') !! id = None ∨ amount max <= amount x).
Proof.
  revert settled d. induction fuel as [|fuel IH]; intros settled d Ha Hm H; simpl in H.
  all: apply rbind_ok in H as (more & ->%asset_ltb_ok & H).
  all: destruct (Z.ltb_spec (amount settled) (amount max)) as [Hlt|Hge];
    [|injection H as <- <-; split_and!; [apply mmoves_refl|done|by right]].
  all: destruct (objs (db_settlements d) !! id) as [order|] eqn:Ho;
    [|injection H as <- <-; split_and!; [apply mmoves_refl|done|by left]].
  { done. }
  apply rbind_ok in H as (b & _ & H). apply rbind_ok in H as (call & _ & H). apply rbind_ok in H as (cap & Hcap & H).
  assert (∀ d1, cancel_settlement d id = Ok d1 → mconserves d d1 ∧ settles id d d1 ∧
    (objs (db_settlements d1) !! id = None ∨ amount max <= amount x)) as Hcancel.
  { intros d1 H1. pose proof (cancel_settlement_frame _ _ _ H1) as (? & ? & _).
    split_and!; [by eapply cancel_settlement_ok|done|by left]. }
  case_in H; [apply rbind_ok in H as (d1 & H1 & [= _ <-]); by apply Hcancel|].
  destruct (match_settlement d call id p cap) as [[y d1]|e] eqn:Hmatch.
  - apply rbind_ok in H as (settled' & Hs' & H).
    eapply match_settlement_step in Hmatch as (M & St & _); [|done..].
    destruct (M Ha Hm) as (Ha1 & Hm1 & _). apply IH in H as (M' & St' & Hend); [|done..].
    split_and!; [by eapply mconserves_trans|by etrans|done].
  - destruct e; try discriminate. apply rbind_ok in H as (d1 & H1 & [= _ <-]); by apply Hcancel.
Qed.

Lemma settle_order_ends fuel id mia aid p max settled d : assets_wf d → market_wf d →
  (size (objs (db_call_orders d)) < fuel)%nat ∨ objs (db_settlements d) !! id = None ∨ amount max <= amount settled →
  ends (settle_order fuel id mia aid p max settled d).
Proof.
  revert settled d. induction fuel as [|fuel IH]; intros settled d Ha Hm Hf; simpl.
  all: apply ends_rbind_ok; [apply ends_asset_ltb|]; intros more ->%asset_ltb_ok.
  all: destruct (Z.ltb_spec (amount settled) (amount max)) as [Hlt|Hge]; [|done].
  all: destruct (objs (db_settlements d) !! id) as [order|] eqn:Ho; [|done].
  { exfalso. destruct Hf as [|[|]]; [lia|done|lia]. }
  destruct Hf as [Hf|[|]]; [|done|lia].
  apply ends_rbind; [apply ends_get_bitasset|intros b]. apply ends_rbind; [apply ends_least|intros call].
  apply ends_rbind_ok; [apply ends_asset_sub|intros cap Hcap]. case_match; [ends_tac|].
  destruct (match_settlement d call id p cap) as [[y d1]|e] eqn:Hmatch.
  - apply ends_rbind_ok; [apply ends_asset_add|intros settled' Hs'].
    eapply match_settlement_step in Hmatch as (M & _ & Hor); [|done..].
    destruct (M Ha Hm) as (Ha1 & Hm1 & _). apply IH; [done..|]. destruct Hor as [|[|]]; [auto..|left; lia].
  - assert (e ≠ out_of_fuel) as Hne by (intros ->; by apply (ends_match_settlement _ _ _ _ _ Hmatch)).
    destruct e; try done. ends_tac.
Qed.

(** ** The order of the settlements *)

Lemma strongly_sorted_filter {A} (R : A → A → Prop) f l : StronglySorted R l → StronglySorted R (List.filter f l).
Proof.
  induction 1 as [|x l Hs IH Hx]; simpl; [constructor|]. destruct (f x); [|done]. constructor; [done|].
  rewrite Forall_forall in Hx |- *. intros y [Hy _]%list_elem_of_In%filter_In. apply Hx. by apply list_elem_of_In.
Qed.

Lemma settlement_before_order : (∀ x y, settlement_before x y = true → settlement_before y x = false) ∧
  ∀ x y z, settlement_before x y = true → settlement_before y z = true → settlement_before x z = true.
Proof. unfold settlement_before. split; intros; b2p; lia. Qed.

Lemma settlements_first d f id : head (settlements_where d f) = Some id →
  ∃ s, objs (db_settlements d) !! id = Some s ∧ f (asset_id (fs_balance s)) = true ∧
    ∀ j s', objs (db_settlements d) !! j = Some s' → f (asset_id (fs_balance s')) = true →
      asset_id (fs_balance s) <= asset_id (fs_balance s').
Proof.
  unfold settlements_where, visit. set (g := λ kv : Z * force_settlement_object, f (asset_id (fs_balance kv.2))).
  intros H. pose proof settlement_before_order as [Hasym Htrans].
  assert (StronglySorted (not_after settlement_before) (in_order settlement_before (objs (db_settlements d)))) as Hs.
  { apply (sort_sorted settlement_before (λ _, True)); [by eauto|intros x y z _ _ _; by apply Htrans|by apply Forall_true]. }
  apply (strongly_sorted_filter _ g) in Hs.
  destruct (List.filter g _) as [|[i s] l] eqn:E; [done|]. injection H as <-.
  assert (∀ kv, kv ∈ (i, s) :: l ↔ objs (db_settlements d) !! kv.1 = Some kv.2 ∧ g kv = true) as Hin.
  { intros [j s']. rewrite <- E, list_elem_of_In, filter_In, <- list_elem_of_In, (in_order_perm _), elem_of_map_to_list. done. }
  destruct (proj1 (Hin (i, s)) ltac:(left)) as [Hi Hg]. exists s. split_and!; [done..|]. intros j s' Hj Hf.
  assert ((j, s') ∈ (i, s) :: l) as [[= -> ->]|Hl]%elem_of_cons by (apply Hin; done); [done|].
  apply StronglySorted_inv in Hs as [_ Hs]. rewrite Forall_forall in Hs. specialize (Hs _ Hl).
  unfold not_after, settlement_before in Hs. simpl in Hs. b2p; lia.
Qed.

(** The settlements of [current] and the later assets. *)
Definition due_from (current : Z) (d : database) : gmap Z force_settlement_object :=
  filter (λ ks, current <= asset_id (fs_balance ks.2)) (objs (db_settlements d)).

Lemma due_from_size current current' d d' :
  (∀ j s', objs (db_settlements d') !! j = Some s' → current' <= asset_id (fs_balance s') →
     ∃ s, objs (db_settlements d) !! j = Some s ∧ current <= asset_id (fs_balance s)) →
  (size (due_from current' d') <= size (due_from current d))%nat.
Proof.
  intros H. rewrite <- !size_dom. apply subseteq_size. intros j. rewrite !elem_of_dom. intros [s' Hs'].
  apply map_lookup_filter_Some in Hs' as [Hs' Hle]. destruct (H _ _ Hs' Hle) as (s & Hs & Hc). exists s.
  by apply map_lookup_filter_Some.
Qed.

Lemma due_from_less current current' d d' id s :
  objs (db_settlements d) !! id = Some s → current <= asset_id (fs_balance s) →
  (∀ s', objs (db_settlements d') !! id = Some s' → asset_id (fs_balance s') < current') →
  (∀ j s', objs (db_settlements d') !! j = Some s' → current' <= asset_id (fs_balance s') →
     ∃ s, objs (db_settlements d) !! j = Some s ∧ current <= asset_id (fs_balance s)) →
  (size (due_from current' d') < size (due_from current d))%nat.
Proof.
  intros Hid Hc Hgone H. rewrite <- !size_dom. apply subset_size. split.
  - intros j. rewrite !elem_of_dom. intros [s' Hs']. apply map_lookup_filter_Some in Hs' as [Hs' Hle].
    destruct (H _ _ Hs' Hle) as (s0 & Hs & Hc'). exists s0. by apply map_lookup_filter_Some.
  - intros Hsub. assert (id ∈ dom (due_from current' d')) as [s' Hs']%elem_of_dom.
    { apply Hsub, elem_of_dom. exists s. by apply map_lookup_filter_Some. }
    apply map_lookup_filter_Some in Hs' as [Hs' Hle]. specialize (Hgone _ Hs'). simpl in Hle. lia.
Qed.

(** ** The loop over the settlements *)

(** The volume [max] of the asset [aid] is used up. *)
Definition used_up (aid : Z) (max : asset) (d : database) : Prop :=
  ∀ a b, db_assets d !! aid = Some a → get_bitasset d a = Ok b → amount max <= bd_force_settled_volume b.

Lemma settle_due_order_ok d id a aid max d' : assets_wf d → market_wf d → db_assets d !! aid = Some a →
  settle_due_order d id a aid max = Ok d' →
  mconserves d d' ∧ settles id d d' ∧ (objs (db_settlements d') !! id = None ∨ used_up aid max d').
Proof.
  intros Ha Hm Haid H. unfold settle_due_order in H. apply rbind_ok in H as (order & _ & H).
  apply rbind_ok in H as (b & _ & H). apply rbind_ok in H as (p & _ & H).
  apply rbind_ok in H as ([settled d1] & H1 & H). apply settle_order_ok in H1 as (M1 & St1 & Hend); [|done..].
  pose proof St1 as (Ea1 & _). apply rbind_ok in H as (b1 & Hb1 & H). case_in H.
  - injection H as <-. split_and!; [done..|]. destruct Hend as [|Hend]; [by left|right].
    intros a' b' Ha' Hb'. rewrite Ea1, Haid in Ha'. injection Ha' as <-. rewrite Hb1 in Hb'. injection Hb' as <-. lia.
  - apply get_bitasset_ok in Hb1 as (i & Hi & Hb1).
    eapply modify_bitasset_keeps in H as (M2 & S2 & E2); [|done|done|reflexivity|by split_and!; auto].
    destruct S2 as (_ & _ & Es & _ & Ea2 & _ & _ & Ed).
    split_and!; [by eapply mconserves_trans|etrans; [exact St1|split_and!; [done..|by rewrite Es|rewrite Es; eauto]]|].
    destruct Hend as [|Hend]; [left; by rewrite Es|right].
    intros a' b' Ha' (i' & Hi' & Hb')%get_bitasset_ok. rewrite Ea2, Ea1, Haid in Ha'. injection Ha' as <-.
    rewrite Hi in Hi'. injection Hi' as <-. rewrite E2, lookup_insert_eq in Hb'. injection Hb' as <-. done.
Qed.

Lemma settle_due_order_ends d id a aid max : assets_wf d → market_wf d → ends (settle_due_order d id a aid max).
Proof.
  intros Ha Hm. unfold settle_due_order. apply ends_rbind; [unfold settlement_ref; ends_tac|intros order].
  apply ends_rbind; [apply ends_get_bitasset|intros b]. apply ends_rbind; [apply ends_due_price|intros p].
  apply ends_rbind; [apply settle_order_ends; [done..|left; lia]|intros [settled d1]].
  apply ends_rbind; [apply ends_get_bitasset|intros b1]. case_match; [done|]. apply ends_modify_bitasset. done.
Qed.

Lemma due_order_used_up d order a max max' :
  due_order d order a max = Ok (Settle max') → ∃ b, get_bitasset d a = Ok b ∧
    asset_id max' = asset_id (fs_balance order) ∧ bd_force_settled_volume b < amount max' ∧
    (asset_id max = asset_id (fs_balance order) → max' = max).
Proof.
  unfold due_order. intros H. apply rbind_ok in H as (b & Hb & H). exists b. repeat (case_in H; [done|]).
  apply rbind_ok in H as (m & Hmax & H). case_in H; [done|]. injection H as ->. split; [done|].
  case_in Hmax; [injection Hmax as ->; split_and!; [lia|lia|done]|].
  ok_inv. simpl in *. split_and!; [done|lia|]. lia.
Qed.

Lemma settle_due_ok fuel current max d d' : assets_wf d → market_wf d →
  settle_due fuel current max d = Ok d' → mconserves d d'.
Proof.
  revert current max d. induction fuel as [|fuel IH]; intros current max d Ha Hm H; simpl in H.
  all: destruct (settlement_from d current) as [id|] eqn:Hid; [|injection H as <-; apply mmoves_refl].
  { done. }
  apply rbind_ok in H as (order & _ & H). apply rbind_ok in H as (a & Haid%get_asset_ok & H).
  apply rbind_ok in H as (round & _ & H). destruct round as [| |max'].
  - apply rbind_ok in H as (d1 & M%cancel_settlement_ok & H). destruct (M Ha Hm) as (? & ? & _).
    eapply mconserves_trans; [exact M|by eapply IH].
  - case_in H; [|injection H as <-; apply mmoves_refl]. apply rbind_ok in H as (n & _ & H). by eapply IH.
  - apply rbind_ok in H as (d1 & (M & _)%settle_due_order_ok & H); [|done..]. destruct (M Ha Hm) as (? & ? & _).
    eapply mconserves_trans; [exact M|by eapply IH].
Qed.

(** The volume of the asset the loop is at is used up. *)
Definition exhausted (current : Z) (max : asset) (d : database) : Prop :=
  asset_id max = current ∧ used_up current max d ∧
  ∃ j s, objs (db_settlements d) !! j = Some s ∧ asset_id (fs_balance s) = current.

Lemma settles_from id s d d' current : settles id d d' →
  objs (db_settlements d) !! id = Some s → current <= asset_id (fs_balance s) →
  ∀ j s', objs (db_settlements d') !! j = Some s' → asset_id (fs_balance s) <= asset_id (fs_balance s') →
    ∃ s, objs (db_settlements d) !! j = Some s ∧ current <= asset_id (fs_balance s).
Proof.
  intros (_ & _ & Hother & Hsame) Hs Hcur j s' Hj Hle. destruct (decide (j = id)) as [->|Hne]; [by exists s|].
  rewrite Hother in Hj by done. exists s'. split; [done|lia].
Qed.

Lemma due_removed id s d d' current : settles id d d' → objs (db_settlements d') !! id = None →
  objs (db_settlements d) !! id = Some s → current <= asset_id (fs_balance s) →
  (size (due_from (asset_id (fs_balance s)) d') < size (due_from current d))%nat.
Proof.
  intros Hst Hgone Hs Hcur. eapply due_from_less; [exact Hs|done|by rewrite Hgone|by eapply settles_from].
Qed.

(** A round that settles removes the order, or uses up the volume. *)
Lemma due_progress id s d d' current max : settles id d d' →
  objs (db_settlements d) !! id = Some s → current <= asset_id (fs_balance s) →
  asset_id max = asset_id (fs_balance s) →
  objs (db_settlements d') !! id = None ∨ used_up (asset_id (fs_balance s)) max d' →
  (size (due_from (asset_id (fs_balance s)) d') < size (due_from current d))%nat ∨
  (exhausted (asset_id (fs_balance s)) max d' ∧
   size (due_from (asset_id (fs_balance s)) d') <= size (due_from current d))%nat.
Proof.
  intros Hst Hs Hcur Hmax Hor. destruct (objs (db_settlements d') !! id) as [s'|] eqn:E; [|left; by eapply due_removed].
  destruct Hor as [|Hup]; [done|]. right. split; [|by apply due_from_size; eapply settles_from].
  split_and!; [done..|]. exists id, s'. split; [done|]. destruct Hst as (_ & _ & _ & Hsame).
  apply Hsame in E as (s0 & Hs0 & ->). congruence.
Qed.

Lemma settlement_from_some d current id : settlement_from d current = Some id →
  ∃ s, objs (db_settlements d) !! id = Some s ∧ current <= asset_id (fs_balance s) ∧
    size (due_from current d) ≠ 0%nat ∧
    ∀ j s', objs (db_settlements d) !! j = Some s' → current <= asset_id (fs_balance s') →
      asset_id (fs_balance s) <= asset_id (fs_balance s').
Proof.
  intros (s & Hs & Hcur & Hmin)%settlements_first. exists s. split_and!; [done|lia| |intros; eapply Hmin; [done|lia]].
  intros Hz%map_size_empty_iff. assert (due_from current d !! id = Some s) as Hd.
  { apply map_lookup_filter_Some. split; [done|simpl; lia]. }
  by rewrite Hz, lookup_empty in Hd.
Qed.

Lemma settlement_after_some d current id : settlement_after d current = Some id →
  ∃ s, objs (db_settlements d) !! id = Some s ∧ current < asset_id (fs_balance s).
Proof. intros (s & Hs & Hcur & _)%settlements_first. exists s. split; [done|lia]. Qed.

(** In a state that is used up the next order of the asset is not settled. *)
Lemma exhausted_not_settled d current max id s a max' : exhausted current max d →
  objs (db_settlements d) !! id = Some s → current <= asset_id (fs_balance s) →
  (∀ j s', objs (db_settlements d) !! j = Some s' → current <= asset_id (fs_balance s') →
      asset_id (fs_balance s) <= asset_id (fs_balance s')) →
  db_assets d !! asset_id (fs_balance s) = Some a →
  due_order d s a max ≠ Ok (Settle max').
Proof.
  intros (Hmax & Hup & j & s' & Hj & Hs') Hs Hcur Hmin Ha H.
  assert (asset_id (fs_balance s) = current) as E by (specialize (Hmin _ _ Hj); lia).
  apply due_order_used_up in H as (b & Hb & _ & Hlt & Heq). rewrite Heq in Hlt by congruence.
  rewrite E in Ha. specialize (Hup _ _ Ha Hb). lia.
Qed.

Lemma settle_due_ends fuel current max d : assets_wf d → market_wf d →
  (2 * size (due_from current d) + 1 <= fuel)%nat ∨
    (exhausted current max d ∧ 2 * size (due_from current d) <= fuel)%nat →
  ends (settle_due fuel current max d).
Proof.
  revert current max d. induction fuel as [|fuel IH]; intros current max d Ha Hm Hf; simpl.
  all: destruct (settlement_from d current) as [id|] eqn:Hid; [|done].
  all: apply settlement_from_some in Hid as (s & Hs & Hcur & Hz & Hmin).
  { lia. }
  unfold settlement_ref at 1. rewrite Hs. cbn [of_option rbind].
  apply ends_rbind_ok; [unfold get_asset_object; ends_tac|intros a Haid%get_asset_ok].
  apply ends_rbind_ok; [apply ends_due_order|intros round Hround]. destruct round as [| |max'].
  - apply ends_rbind_ok; [apply ends_cancel_settlement|intros d1 H1].
    pose proof (cancel_settlement_ok _ _ _ H1 Ha Hm) as (Ha1 & Hm1 & _).
    apply cancel_settlement_frame in H1 as (St & Hgone & _).
    pose proof (due_removed _ _ _ _ _ St Hgone Hs Hcur). apply IH; [done..|left; lia].
  - destruct (settlement_after d _) as [next|] eqn:Hnext; [|done].
    apply settlement_after_some in Hnext as (n & Hn & Hlt).
    unfold settlement_ref. rewrite Hn. cbn [of_option rbind]. apply IH; [done..|left].
    assert (size (due_from (asset_id (fs_balance n)) d) < size (due_from current d))%nat; [|lia].
    eapply due_from_less; [exact Hs|lia| |]; [intros s'; rewrite Hs; by intros [= <-]|].
    intros j s' Hj Hle. exists s'. split; [done|lia].
  - apply ends_rbind_ok; [by apply settle_due_order_ends|intros d1 H1].
    apply settle_due_order_ok in H1 as (M & St & Hor); [|done..]. destruct (M Ha Hm) as (Ha1 & Hm1 & _).
    destruct Hf as [Hf|[Hex _]]; [|by destruct (exhausted_not_settled _ _ _ _ _ _ _ Hex Hs Hcur Hmin Haid Hround)].
    pose proof Hround as (_ & _ & Hasset & _)%due_order_used_up.
    eapply due_progress in St as [?|[? ?]]; [| |done..]; apply IH; try done; [left; lia|right; split; [done|lia]].
Qed.

Lemma clear_expired_orders_settle d first s : assets_wf d → market_wf d →
  objs (db_settlements d) !! first = Some s →
  ends (settle_due (settle_fuel d) (asset_id (fs_balance s)) (mkAsset 0 core_id) d).
Proof.
  intros Ha Hm Hs. apply settle_due_ends; [done..|left]. unfold settle_fuel.
  assert (size (due_from (asset_id (fs_balance s)) d) <= size (objs (db_settlements d)))%nat.
  { apply map_subseteq_size, map_filter_subseteq. }
  assert (size (objs (db_settlements d)) ≠ 0)%nat; [|lia].
  intros Hz%map_size_empty_iff. by rewrite Hz, lookup_empty in Hs.
Qed.

(** ** The expired feeds *)

Lemma update_expired_feed_ok d aid d' : update_expired_feed d aid = Ok d' → mconserves d d'.
Proof.
  intros H. apply rbind_ok in H as (a & _ & H). apply rbind_ok in H as (b & Hb & H).
  apply rbind_ok in H as (d1 & H1 & H). assert (mconserves d d1) as M1.
  { case_in H1; [|injection H1 as <-; apply mmoves_refl]. apply rbind_ok in H1 as (d2 & H2 & H1).
    apply rbind_ok in H1 as (b2 & _ & H1). apply rbind_ok in H1 as ([c d3] & H3 & [= <-]).
    apply get_bitasset_ok in Hb as (i & Hi & Hb). destruct (update_median_keeps (head_block_time d) b) as (E1 & E2 & E3).
    eapply modify_bitasset_keeps in H2 as (M2 & _); [|done|done|reflexivity|split_and!; [done..|left; unfold backing; by rewrite E3]].
    eapply mconserves_trans; [exact M2|by eapply check_call_orders_conserves]. }
  apply rbind_ok in H as (a' & _ & H). apply rbind_ok in H as (b' & _ & H).
  cbv zeta in H; case_in H; [|by injection H as <-]. eapply mconserves_trans; [exact M1|].
  eapply modify_asset_conserves; [..|exact H]; done.
Qed.

Lemma update_expired_feeds_ok d d' : update_expired_feeds d = Ok d' → mconserves d d'.
Proof.
  unfold update_expired_feeds. apply rfold_invariant.
  - apply mmoves_refl.
  - intros; by eapply mconserves_trans.
  - intros d1 aid d2 _. apply update_expired_feed_ok.
Qed.

(** C39. The upkeep of the market at the end of a block.  The loops of
    [clear_expired_orders] end: as many rounds as there are limit orders, three
    for every settlement, and one match for every margin position are enough,
    whatever calls and settlements the rounds set off; what can stop them is
    only an exception, and for the limit orders only that of a cancellation.
    Expired orders, due settlements at the price of the feed, and the refresh
    of the feeds with the margin calls it leads to neither create nor destroy
    any asset and keep the market well formed. *)
Theorem market_upkeep_correct cancel_fee d : assets_wf d → market_wf d →
  match clear_expired_orders cancel_fee d with
  | Throw e => e ≠ out_of_fuel ∨ cancel_fails cancel_fee d e
  | Ok d1 =>
      (assets_wf d1 ∧ market_wf d1 ∧ ∀ x, imbalance x d1 = imbalance x d) ∧
      ∀ d2, update_expired_feeds d1 = Ok d2 →
        assets_wf d2 ∧ market_wf d2 ∧ ∀ x, imbalance x d2 = imbalance x d
  end.
Proof.
  intros Ha Hm. unfold clear_expired_orders.
  pose proof (clear_expired_limit_orders_ok _ cancel_fee d Ha Hm (le_n _)) as Hlim.
  destruct (clear_expired_limit_orders _ _ _) as [d0|e]; [|by right]. cbn [rbind].
  destruct Hlim as (M0 & _). destruct (M0 Ha Hm) as (Ha0 & Hm0 & _).
  assert (∀ d1, mconserves d0 d1 → (assets_wf d1 ∧ market_wf d1 ∧ ∀ x, imbalance x d1 = imbalance x d) ∧
      ∀ d2, update_expired_feeds d1 = Ok d2 → assets_wf d2 ∧ market_wf d2 ∧ ∀ x, imbalance x d2 = imbalance x d) as Hok.
  { intros d1 M1. pose proof (mconserves_trans _ _ _ M0 M1) as M. split; [|intros d2 M2%update_expired_feeds_ok].
    - destruct (M Ha Hm) as (? & ? & E). split_and!; [done..|]. intros x. rewrite E. lia.
    - destruct (mconserves_trans _ _ _ M M2 Ha Hm) as (? & ? & E). split_and!; [done..|]. intros x. rewrite E. lia. }
  destruct (settlement_from d0 0) as [first|] eqn:Hf; [|apply Hok, mmoves_refl].
  apply settlement_from_some in Hf as (s & Hs & _). unfold settlement_ref. rewrite Hs. cbn [of_option rbind].
  pose proof (clear_expired_orders_settle _ _ _ Ha0 Hm0 Hs) as Hends.
  destruct (settle_due _ _ _ _) as [d1|e] eqn:H1; [|left; intros ->; by apply Hends].
  apply Hok. by eapply settle_due_ok.
Qed.
End properties.

(** ** Runs *)

#[local] Existing Instance fc_reference.
#[local] Existing Instance boost_reference.
#[local] Existing Instance fc_reference_laws.
#[local] Existing Instance boost_reference_laws.
#[local] Existing Instance nth_reference.

(** Bob's settlement of 600 of his 2000 dollars is due, and 400 of them are a
    fifth of the supply; an order of Carol has expired. *)
Definition due_db : database :=
  set_settlements (λ _, mkTable {[ 0 := mkSettlement bob (mkAsset 600 usd) 1569999000 ]} 1)
  (set_limit_orders (λ t, mkTable (<[2 := mkLimit 1569999999 carol 100 (mkPrice (mkAsset 100 core_id) (mkAsset 10 1)) 0]> (objs t)) 3)
  (set_balances (<[ (bob, usd) := 1400 ]>) market_db)).
Definition kept_db : database := get_ok (clear_expired_orders (Ok (core_asset 0)) due_db) due_db.
Definition feeds_db : database := get_ok (update_expired_feeds kept_db) kept_db.

Lemma upkeep_tables_wf f i o n h d : assets_wf d → market_wf d → limit_wf o →
  let d' := set_settlements f (set_limit_orders (λ t, mkTable (<[i := o]> (objs t)) n) (set_balances h d)) in
  assets_wf d' ∧ market_wf d'.
Proof. intros Ha [Hl Hm] Ho. split; [exact Ha|]. split; [by apply map_Forall_insert_2|exact Hm]. Qed.

Lemma due_db_ok : assets_wf due_db ∧ market_wf due_db.
Proof.
  destruct market_db_ok as (Ha & Hm & _). apply upkeep_tables_wf; [exact Ha|exact Hm|].
  vm_compute. intuition congruence.
Qed.

(** Two fifths of a position are settled, 200 dollars wait for the next
    interval, and the expired order is off the book. *)
Lemma market_upkeep_correct_witness :
  (assets_wf kept_db ∧ market_wf kept_db) ∧ (assets_wf feeds_db ∧ ∀ x, imbalance x feeds_db = imbalance x due_db) ∧
  amount <$> (fs_balance <$> objs (db_settlements kept_db) !! 0) = Some 200 ∧
  (call_collateral <$> objs (db_call_orders kept_db) !! 0) = Some 367 ∧
  objs (db_limit_orders kept_db) !! 2 = None.
Proof.
  destruct due_db_ok as [Ha Hm]. pose proof (market_upkeep_correct (Ok (core_asset 0)) due_db Ha Hm) as H.
  replace (clear_expired_orders (Ok (core_asset 0)) due_db) with (Ok kept_db) in H by (vm_compute; reflexivity).
  destruct H as ((H1 & H2 & _) & H3).
  destruct (H3 feeds_db) as (H4 & _ & H5); [vm_compute; reflexivity|].
  split; [split; assumption|]. split; [split; assumption|]. vm_compute. split_and!; reflexivity.
Defined.
