(* ===== verification/VoteCount.v ===== *)
(** * Counting votes

    [vote_counter] ([vote_count.hpp]), which turns the votes for accounts into
    a weighted authority; the counting before hard fork 533
    ([db_maint.cpp]); and the integer square root of [omnibazaar_util.cpp]
    that sets the number of active witnesses. *)

From stdpp Require Import gmap list.
From Stdlib Require Import ZArith Lia Sorting.Sorted.
From S2P Require Import Prelude Fc Config Authority Objects.

Local Open Scope Z_scope.

(** [int8_t]. *)
Definition wrap_i8 (z : Z) : Z := (z + 2 ^ 7) mod 2 ^ 8 - 2 ^ 7.

Lemma wrap_i8_small z : - 2 ^ 7 <= z < 2 ^ 7 → wrap_i8 z = z.
Proof. intros. unfold wrap_i8. rewrite Z.mod_small by lia. lia. Qed.

(** ** [vote_counter] *)

Record vote_counter := mkCounter {
  vc_last_votes : Z;
  vc_total_votes : Z;
  vc_bitshift : Z;
  vc_auth : authority
}.

Definition new_vote_counter : vote_counter := mkCounter (2 ^ 64 - 1) 0 (-1) empty_authority.

Definition add_account_authority (k w : Z) (a : authority) : authority :=
  mkAuthority (weight_threshold a) (flat_put k w (account_auths a)) (key_auths a) (address_auths a).

Definition set_weight_threshold (w : Z) (a : authority) : authority :=
  mkAuthority w (account_auths a) (key_auths a) (address_auths a).

Section operations.
Context {BA : BoostArith}.

(** How far votes are shifted so that the largest fits 16 bits. *)
Definition bits_over_16 (votes : Z) : Z := wrap_i8 (Z.max (find_msb votes - 15) 0).

Definition scale_votes (votes bitshift : Z) : Z := Z.max (Z.shiftr votes bitshift) 1.

Definition vc_add (c : vote_counter) (who votes : Z) : vote_counter :=
  if votes =? 0 then c
  else
    let bitshift := if vc_bitshift c =? -1 then bits_over_16 votes else vc_bitshift c in
    let scaled_votes := scale_votes votes bitshift in
    mkCounter votes (wrap_u64 (vc_total_votes c + scaled_votes)) bitshift
      (add_account_authority who (wrap_u16 scaled_votes) (vc_auth c)).

Definition vc_finish (c : vote_counter) (out_auth : authority) : authority :=
  if vc_total_votes c =? 0 then out_auth
  else set_weight_threshold (Z.shiftr (wrap_u32 (vc_total_votes c)) 1 + 1) (vc_auth c).

Definition vc_is_empty (c : vote_counter) : bool := vc_total_votes c =? 0.

(** Counting a sequence of votes. *)
Definition vc_count (l : list (Z * Z)) : vote_counter :=
  foldl (λ c wv, vc_add c wv.1 wv.2) new_vote_counter l.

(** ** Counting before hard fork 533

    [emplace] keeps the first entry of a key; [clear] leaves the addresses. *)
Fixpoint flat_emplace (k w : Z) (l : list (Z * Z)) : list (Z * Z) :=
  match l with
  | [] => [(k, w)]
  | (j, v) :: l' =>
      if k <? j then (k, w) :: l else if k =? j then l else (j, v) :: flat_emplace k w l'
  end.

Definition count_before_533 (l : list (Z * Z)) (a : authority) : authority :=
  let weights := foldl (λ m wv, flat_emplace wv.1 wv.2 m) [] l in
  let total_votes := foldl (λ t wv, wrap_u64 (t + wv.2)) 0 l in
  let bits_to_drop := bits_over_16 total_votes in
  let votes w := wrap_u16 (scale_votes w bits_to_drop) in
  let members := (λ kw, (kw.1, votes kw.2)) <$> weights in
  let threshold := foldl (λ t kw, wrap_u32 (t + kw.2)) 0 members in
  mkAuthority (wrap_u32 (threshold / 2 + 1)) members [] (address_auths a).
End operations.

(** ** [util::isqrt] *)

Fixpoint isqrt_loop (fuel : nat) (n r : Z) : result Z :=
  match fuel with
  | O => Throw out_of_fuel
  | S fuel' =>
      let r := wrap_u64 (r + n / r) / 2 in
      if (wrap_u64 (r * r) <=? n) && (n <? wrap_u64 (wrap_u64 (r + 1) * wrap_u64 (r + 1)))
      then Ok (wrap_u32 r)
      else isqrt_loop fuel' n r
  end.

Definition isqrt_fuel : nat := 33.

Definition isqrt (n : Z) : result Z := if n =? 0 then Ok 0 else isqrt_loop isqrt_fuel n n.

(** One step of the iteration from [r] above the root at least halves the
    distance to it. *)
Lemma newton_step n s r :
  1 <= s → s * s <= n < (s + 1) * (s + 1) → s <= r →
  s <= (r + n / r) / 2 ∧ (s < r → 2 * ((r + n / r) / 2 - s) <= r - s).
Proof.
  intros Hs [Hlo Hhi] Hr. pose proof (Z.div_mod n r ltac:(lia)) as E.
  pose proof (Z.mod_pos_bound n r ltac:(lia)).
  set (q := n / r) in *. clearbody q. split.
  - apply Z.div_le_lower_bound; [lia|]. nia.
  - intros Hlt. assert (q <= s) by nia. assert ((r + q) / 2 <= (r + s) / 2) by (apply Z.div_le_mono; lia).
    pose proof (Z.mul_div_le (r + s) 2 ltac:(lia)). lia.
Qed.

Lemma isqrt_loop_ok fuel n s r :
  1 <= s → s * s <= n < (s + 1) * (s + 1) → n < 2 ^ 32 → s <= r <= n → s < r ∨ n = 1 →
  r - s < 2 ^ (Z.of_nat fuel - 1) → (0 < fuel)%nat → isqrt_loop fuel n r = Ok s.
Proof.
  intros Hs Hn Hmax. revert r. induction fuel as [|fuel IH]; intros r Hr Hsr Hd Hf; [lia|].
  cbn [isqrt_loop]. destruct (newton_step n s r Hs Hn ltac:(lia)) as [Hlo Hhalf].
  assert (0 <= n / r <= n).
  { split; [apply Z.div_pos; lia|]. apply Z.div_le_upper_bound; nia. }
  rewrite (wrap_u64_small (r + n / r)) by lia.
  assert ((r + n / r) / 2 <= n) by (apply Z.div_le_upper_bound; lia).
  set (r' := (r + n / r) / 2) in *.
  assert (r' = s ∨ s < r' ∧ s < r) as Hr'.
  { destruct Hsr as [?| ->]; [lia|]. left. assert (r = 1 ∧ s = 1) as [-> ->] by nia. done. }
  clearbody r'. rewrite (wrap_u64_small (r' * r')), (wrap_u64_small (r' + 1)) by nia.
  rewrite (wrap_u64_small ((r' + 1) * (r' + 1))) by nia.
  destruct Hr' as [->|[Hlt' Hlt]].
  { rewrite (proj2 (Z.leb_le _ _)), (proj2 (Z.ltb_lt _ _)) by lia. simpl.
    by rewrite wrap_u32_small by nia. }
  rewrite (proj2 (Z.leb_gt _ _)) by nia. simpl. specialize (Hhalf Hlt).
  destruct fuel as [|fuel]; [simpl in Hd; lia|]. apply IH; [lia|lia| |lia].
  replace (Z.of_nat (S (S fuel)) - 1) with (Z.of_nat (S fuel) - 1 + 1) in Hd by lia.
  rewrite Z.pow_add_r in Hd by lia. lia.
Qed.

(** The loop ends within 33 rounds for every 32-bit number, with the root. *)
Lemma isqrt_ok n : 0 <= n < 2 ^ 32 → isqrt n = Ok (Z.sqrt n).
Proof.
  intros Hn. unfold isqrt. destruct (Z.eqb_spec n 0) as [->|]; [done|].
  pose proof (Z.sqrt_spec n ltac:(lia)) as [Hs Hs']. rewrite <- Z.add_1_r in Hs'.
  assert (1 <= Z.sqrt n) by (apply Z.sqrt_le_square; lia).
  set (s := Z.sqrt n) in *. clearbody s. apply isqrt_loop_ok; [done|lia|lia|nia| |change (Z.of_nat isqrt_fuel - 1) with 32; lia|unfold isqrt_fuel; lia].
  destruct (decide (n = 1)); [by right|left]. nia.
Qed.

(** ** What the counter produces *)

Definition sum_weights (l : list (Z * Z)) : Z := foldr (λ kw acc, kw.2 + acc) 0 l.

Definition voters (l : list (Z * Z)) : list (Z * Z) := filter (λ wv, wv.2 ≠ 0) l.

Definition members (shift : Z) (l : list (Z * Z)) : list (Z * Z) :=
  (λ wv, (wv.1, scale_votes wv.2 shift)) <$> voters l.

(** The weight the accounts of [S] have together. *)
Definition weight_of (S : gset Z) (a : authority) : Z :=
  sum_weights (filter (λ kw, kw.1 ∈ S) (account_auths a)).

Lemma sum_weights_app l1 l2 : sum_weights (l1 ++ l2) = sum_weights l1 + sum_weights l2.
Proof. unfold sum_weights. induction l1; simpl; lia. Qed.

Lemma sum_weights_perm l1 l2 : l1 ≡ₚ l2 → sum_weights l1 = sum_weights l2.
Proof. unfold sum_weights. induction 1; simpl; lia. Qed.

Lemma sum_weights_bounds l : Forall (λ kw, 1 <= kw.2 < 2 ^ 16) l →
  Z.of_nat (length l) <= sum_weights l <= Z.of_nat (length l) * (2 ^ 16 - 1).
Proof. unfold sum_weights. induction 1; simpl; lia. Qed.

Lemma sum_weights_disjoint (S T : gset Z) l : S ## T → Forall (λ kw, 0 <= kw.2) l →
  sum_weights (filter (λ kw, kw.1 ∈ S) l) + sum_weights (filter (λ kw, kw.1 ∈ T) l) <= sum_weights l.
Proof.
  intros Hd. induction 1 as [|[k w] l Hw _ IH]; [done|].
  rewrite !filter_cons. cbn [fst snd] in *. change (sum_weights ((k, w) :: l)) with (w + sum_weights l).
  destruct (decide (k ∈ S)), (decide (k ∈ T)); [set_solver|..];
    unfold sum_weights in *; cbn [foldr snd]; lia.
Qed.

Lemma flat_put_new k w l : k ∉ l.*1 → flat_put k w l ≡ₚ (k, w) :: l.
Proof.
  induction l as [|[j v] l IH]; simpl; intros Hk; [done|]. apply not_elem_of_cons in Hk as [Hne Hk].
  destruct (k <? j); [done|]. rewrite (proj2 (Z.eqb_neq k j)) by done.
  rewrite IH by done. apply Permutation_swap.
Qed.

Lemma total_auths_sum l acc : 0 <= acc → Forall (λ kw, 0 <= kw.2) l → acc + sum_weights l < 2 ^ 64 →
  total_auths l acc = acc + sum_weights l.
Proof.
  unfold total_auths, sum_weights. intros Ha Hl. revert acc Ha.
  induction Hl as [|kw l Hw Hl IH]; simpl; intros acc Ha Hb; [lia|].
  assert (0 <= foldr (λ kw acc, kw.2 + acc) 0 l) by (clear - Hl; induction Hl; simpl; lia).
  rewrite wrap_u64_small by lia. rewrite IH by lia. lia.
Qed.

Lemma scale_votes_bounds v b : 0 <= v < 2 ^ (b + 16) → 0 <= b → 1 <= scale_votes v b < 2 ^ 16.
Proof.
  intros Hv Hb. unfold scale_votes. rewrite Z.shiftr_div_pow2 by done.
  assert (v / 2 ^ b < 2 ^ 16); [|lia]. apply Z.div_lt_upper_bound; [lia|].
  rewrite <- Z.pow_add_r by lia. lia.
Qed.

Lemma members_cons b k v l :
  members b ((k, v) :: l) = if v =? 0 then members b l else (k, scale_votes v b) :: members b l.
Proof.
  unfold members, voters. rewrite filter_cons. cbn [snd].
  destruct (Z.eqb_spec v 0); [by rewrite decide_False by lia|by rewrite decide_True by done].
Qed.

Lemma members_weights b l : 0 <= b → Forall (λ wv, 0 <= wv.2 < 2 ^ (b + 16)) l →
  Forall (λ kw, 1 <= kw.2 < 2 ^ 16) (members b l).
Proof.
  intros Hb. induction 1 as [|[k v] l Hv _ IH]; [constructor|]. rewrite members_cons.
  destruct (v =? 0); [done|]. constructor; [by apply scale_votes_bounds|done].
Qed.

Lemma members_length b l : (length (members b l) <= length l)%nat.
Proof. unfold members, voters. rewrite length_fmap. apply length_filter. Qed.

Lemma sum_weights_cons kw l : sum_weights (kw :: l) = kw.2 + sum_weights l.
Proof. done. Qed.

Section counting.
Context {BA : BoostArith} {BAL : BoostArithLaws BA}.

Lemma bits_over_16_ok v : 0 < v < 2 ^ 64 →
  0 <= bits_over_16 v <= 48 ∧ v < 2 ^ (bits_over_16 v + 16).
Proof.
  intros Hv. unfold bits_over_16. rewrite find_msb_spec by done.
  assert (0 <= Z.log2 v < 64) as Hl by (split; [apply Z.log2_nonneg|apply Z.log2_lt_pow2; lia]).
  rewrite wrap_i8_small by lia. split; [lia|].
  apply Z.lt_le_trans with (2 ^ Z.succ (Z.log2 v)); [apply Z.log2_spec; lia|].
  apply Z.pow_le_mono_r; lia.
Qed.

(** Once the shift is set, every vote adds a member. *)
Lemma vc_count_rest l c b :
  vc_bitshift c = b → 0 <= b → Forall (λ wv, 0 <= wv.2 < 2 ^ (b + 16)) l → NoDup l.*1 →
  (∀ k, k ∈ l.*1 → k ∉ (account_auths (vc_auth c)).*1) →
  0 <= vc_total_votes c → vc_total_votes c + sum_weights (members b l) < 2 ^ 64 →
  let c' := foldl (λ c wv, vc_add c wv.1 wv.2) c l in
  account_auths (vc_auth c') ≡ₚ members b l ++ account_auths (vc_auth c) ∧
  key_auths (vc_auth c') = key_auths (vc_auth c) ∧
  address_auths (vc_auth c') = address_auths (vc_auth c) ∧
  vc_total_votes c' = vc_total_votes c + sum_weights (members b l).
Proof.
  intros Hb Hb0 Hl. revert c Hb. induction Hl as [|[w v] l Hv Hl IH]; intros c Hb Hnd Hfr Ht Hmax;
    [cbn; split_and!; [done..|lia]|].
  apply NoDup_cons in Hnd as [Hw Hnd]. cbn [foldl fst snd] in *. rewrite members_cons in *.
  destruct (Z.eqb_spec v 0) as [->|Hv0].
  { apply IH; [done..| |done|done]. intros k Hk. apply Hfr. by right. }
  pose proof (scale_votes_bounds v b Hv Hb0) as Hs.
  pose proof (sum_weights_bounds _ (members_weights b l Hb0 Hl)) as H0.
  rewrite sum_weights_cons in *. cbn [snd] in *.
  assert (vc_add c w v = mkCounter v (vc_total_votes c + scale_votes v b) b
    (add_account_authority w (scale_votes v b) (vc_auth c))) as ->.
  { unfold vc_add. rewrite (proj2 (Z.eqb_neq v 0)), Hb, (proj2 (Z.eqb_neq b (-1))) by lia.
    by rewrite wrap_u64_small, wrap_u16_small by lia. }
  set (c1 := mkCounter _ _ _ _).
  assert (w ∉ (account_auths (vc_auth c)).*1) as Hwn by (apply Hfr; left).
  destruct (IH c1) as (E1 & E2 & E3 & E4); subst c1; cbn [vc_total_votes vc_bitshift vc_auth
    add_account_authority account_auths key_auths address_auths] in *; [done..| |lia|lia|].
  { intros k Hk. rewrite flat_put_new by done. cbn. apply not_elem_of_cons. split; [|by apply Hfr; right].
    intros ->. done. }
  split_and!; [|done..|lia]. rewrite E1, flat_put_new by done. symmetry. apply Permutation_middle.
Qed.

(** The first vote sets the shift. *)
Lemma vc_count_first w v l (b := bits_over_16 v) (m := members b ((w, v) :: l)) :
  v ≠ 0 → 0 <= b → Forall (λ wv, 0 <= wv.2 < 2 ^ (b + 16)) ((w, v) :: l) → w ∉ l.*1 → NoDup l.*1 →
  sum_weights m < 2 ^ 64 →
  let c := vc_count ((w, v) :: l) in account_auths (vc_auth c) ≡ₚ m ∧
    key_auths (vc_auth c) = [] ∧ address_auths (vc_auth c) = [] ∧ vc_total_votes c = sum_weights m.
Proof.
  intros Hv Hb Hall Hw Hnd Hmax c. apply Forall_cons in Hall as [Hv0 Hl]. cbn [snd] in Hv0.
  pose proof (scale_votes_bounds v b Hv0 Hb) as Hs.
  pose proof (sum_weights_bounds _ (members_weights b l Hb Hl)) as H0.
  assert (m = (w, scale_votes v b) :: members b l) as Em.
  { subst m. by rewrite members_cons, (proj2 (Z.eqb_neq v 0)) by done. }
  clearbody m. subst m. rewrite sum_weights_cons in *. cbn [snd] in *.
  assert (vc_add new_vote_counter w v = mkCounter v (scale_votes v b) b
    (add_account_authority w (scale_votes v b) empty_authority)) as E1.
  { unfold vc_add. rewrite (proj2 (Z.eqb_neq v 0)) by done. cbn. fold b.
    by rewrite wrap_u64_small, wrap_u16_small by lia. }
  subst c. unfold vc_count. cbn [foldl fst snd]. rewrite E1.
  destruct (vc_count_rest l (mkCounter v (scale_votes v b) b
    (add_account_authority w (scale_votes v b) empty_authority)) b) as (Ea & Ek & Eh & Et);
    cbn [vc_total_votes vc_bitshift vc_auth] in *; [done..| |lia|lia|].
  { intros k Hk. cbn. apply not_elem_of_cons. split; [intros ->; done|apply not_elem_of_nil]. }
  split_and!; [|done..|lia]. rewrite Ea. cbn. by rewrite Permutation_app_comm.
Qed.

Lemma voters_nil l : voters l = [] → foldl (λ c wv, vc_add c wv.1 wv.2) new_vote_counter l = new_vote_counter.
Proof.
  unfold voters. generalize new_vote_counter. induction l as [|[k v] l IH]; intros c; [done|].
  rewrite filter_cons. cbn [foldl fst snd]. destruct (decide (v = 0)) as [->|Hv].
  - rewrite decide_False by lia. apply IH.
  - by rewrite decide_True by done.
Qed.
End counting.

Section majority.
Context {BA : BoostArith} {BAL : BoostArithLaws BA}.

(** C28.  The authority made of votes.  For accounts listed once each by
    falling 64-bit votes: those with votes become the members, with weights
    between 1 and 65535 that are the votes shifted by a common number of
    bits; there are no keys or addresses; the threshold is just above half
    of the weights, so all members together reach it, and of two groups
    without a common member at most one does.  Without any votes the old
    authority stays. *)
Theorem vote_counter_majority l out :
  StronglySorted (λ a b, b.2 <= a.2) l → NoDup l.*1 → Forall (λ wv, 0 <= wv.2 < 2 ^ 64) l →
  Z.of_nat (length l) < 2 ^ 16 →
  let a := vc_finish (vc_count l) out in
  (voters l = [] → a = out) ∧
  (voters l ≠ [] → ∃ shift,
    account_auths a ≡ₚ members shift l ∧ Forall (λ kw, 1 <= kw.2 < 2 ^ 16) (account_auths a) ∧
    key_auths a = [] ∧ address_auths a = [] ∧
    weight_threshold a = sum_weights (members shift l) / 2 + 1 ∧ is_impossible a = false ∧
    ∀ S T : gset Z, S ## T → weight_threshold a <= weight_of S a → weight_of T a < weight_threshold a).
Proof.
  intros Hs Hnd Hv Hlen a. split; [intros E; subst a; unfold vc_count; by rewrite voters_nil|].
  intros Hne. destruct l as [|[w v] l]; [done|].
  apply StronglySorted_inv in Hs as [_ Hle]. apply NoDup_cons in Hnd as [Hw Hnd].
  apply Forall_cons in Hv as [Hv0 Hv]. cbn [snd] in *.
  destruct (decide (v = 0)) as [->|Hnz].
  { exfalso. apply Hne. unfold voters. rewrite filter_cons, decide_False by (cbn; lia).
    clear - Hle Hv. induction Hle as [|[k u] l Hu _ IH]; [done|]. apply Forall_cons in Hv as [? ?].
    cbn [snd] in *. rewrite filter_cons, decide_False by (cbn; lia). by apply IH. }
  destruct (bits_over_16_ok v ltac:(lia)) as [Hb Hvb]. set (b := bits_over_16 v) in *.
  assert (Forall (λ wv, 0 <= wv.2 < 2 ^ (b + 16)) ((w, v) :: l)) as Hall.
  { constructor; [cbn; lia|]. rewrite Forall_forall in Hle, Hv |- *. intros x Hx.
    specialize (Hle _ Hx). specialize (Hv _ Hx). cbn [snd] in *. lia. }
  pose proof (members_weights b _ (proj1 Hb) Hall) as Hm.
  pose proof (sum_weights_bounds _ Hm) as Hsum. pose proof (members_length b ((w, v) :: l)).
  set (m := members b ((w, v) :: l)) in *.
  assert (let c := vc_count ((w, v) :: l) in account_auths (vc_auth c) ≡ₚ m ∧
    key_auths (vc_auth c) = [] ∧ address_auths (vc_auth c) = [] ∧ vc_total_votes c = sum_weights m)
    as (Ea & Ek & Eh & Et).
  { apply (vc_count_first w v l); [done|apply Hb|done..|]. fold b m. lia. }
  assert (0 < sum_weights m).
  { subst m. rewrite members_cons, (proj2 (Z.eqb_neq v 0)) in * by done. cbn [length] in *. lia. }
  subst a. unfold vc_finish. rewrite Et, (proj2 (Z.eqb_neq _ 0)), wrap_u32_small by lia.
  exists b. fold m. unfold set_weight_threshold; cbn [account_auths key_auths address_auths weight_threshold].
  rewrite Z.shiftr_div_pow2 by lia. change (2 ^ 1) with 2.
  pose proof (Z.mul_div_le (sum_weights m) 2 ltac:(lia)). pose proof (Z.mul_succ_div_gt (sum_weights m) 2 ltac:(lia)).
  split_and!; [done|by rewrite Ea|done..| |].
  - unfold is_impossible. cbn [account_auths key_auths address_auths weight_threshold]. rewrite Ek, Eh. cbn [total_auths foldl]. apply Z.ltb_ge.
    rewrite total_auths_sum; [|lia|rewrite Ea; eapply Forall_impl; [done|]; cbn; lia|];
      rewrite (sum_weights_perm _ _ Ea); lia.
  - intros S T Hd HS. unfold weight_of in *. cbn [account_auths] in *.
    enough (Forall (λ kw, 0 <= kw.2) (account_auths (vc_auth (vc_count ((w, v) :: l))))) as Hx.
    { apply (sum_weights_disjoint S T) in Hx; [|done]. rewrite (sum_weights_perm _ _ Ea) in Hx. lia. }
    rewrite Ea. eapply Forall_impl; [done|]. cbn; lia.
Qed.
End majority.

Definition sample_votes : list (Z * Z) := [(20, 9000); (22, 7000); (21, 2500); (6, 0)].

(** Three voters with weights 9000, 7000 and 2500: two of them are needed. *)
Lemma vote_counter_majority_witness :
  weight_threshold (vc_finish (vc_count (BA := boost_reference) sample_votes)
    empty_authority) = 9251.
Proof.
  destruct (vote_counter_majority (BAL := boost_reference_laws) sample_votes empty_authority)
    as [_ (shift & _ & _ & _ & _ & E & _)].
  - repeat constructor; simpl; lia.
  - simpl. repeat (apply NoDup_cons; split; [set_solver|]). apply NoDup_nil_2.
  - repeat constructor; simpl; lia.
  - simpl. lia.
  - discriminate.
  - vm_compute. reflexivity.
Defined.
