(* ===== verification/PopScores.v ===== *)
(** * Proof of Participation scores

    [database::update_account_scores] ([db_maint.cpp]): the trust and
    reliability of witnesses, and the referral, reputation, listings and
    overall score of every account, computed at maintenance. *)

From stdpp Require Import gmap strings list.
From Stdlib Require Import ZArith Lia.
From S2P Require Import Prelude Fc Config Asset VestingBalance Objects Database Sample Balances Reputation.

Local Open Scope Z_scope.

(** The largest value of a property over a table; 0 for an empty one. *)
Definition map_max {V} (f : V → Z) (m : gmap Z V) : Z := map_fold (λ _ v acc, Z.max (f v) acc) 0 m.

(** [_vote_tally_buffer[ vote_id ]]. *)
Definition tally_at (buffer : list Z) (vote_id : Z) : result Z :=
  of_option undefined_behaviour (buffer !! Z.to_nat (vote_instance vote_id)).

Definition set_trust_score : (Z → Z) → account_object → account_object :=
  ltac:(field_setter account_eta ao_trust_score).
Definition set_reliability_score : (Z → Z) → account_object → account_object :=
  ltac:(field_setter account_eta ao_reliability_score).
Definition set_referral_score : (Z → Z) → account_object → account_object :=
  ltac:(field_setter account_eta ao_referral_score).
Definition set_listings_score : (Z → Z) → account_object → account_object :=
  ltac:(field_setter account_eta ao_listings_score).
Definition set_reputation_score : (Z → Z) → account_object → account_object :=
  ltac:(field_setter account_eta ao_reputation_score).
Definition set_pop_score : (Z → Z) → account_object → account_object :=
  ltac:(field_setter account_eta ao_pop_score).

Section operations.
Context {FC : FcArith}.

(** [fc::uint128_t( part ) * GRAPHENE_100_PERCENT / whole], as a [uint16_t]. *)
Definition percent_of (part whole : Z) : result Z :=
  let* q := u128_div (u128_mul part GRAPHENE_100_PERCENT) whole in
  let* i := u128_to_integer q in
  Ok (wrap_u16 i).

(** ** Witnesses *)

Definition max_witness_votes (buffer : list Z) (d : database) : result Z :=
  rfold (λ m wid, let* w := get_witness d wid in
                  let* v := tally_at buffer (wo_vote_id w) in Ok (Z.max m v))
    0 (ids_of (db_witnesses d)).

Definition witness_scores (max_votes votes : Z) (w : witness_object) (a : account_object)
    : result (Z * Z) :=
  let* trust := if 0 <? max_votes then percent_of votes max_votes else Ok (ao_trust_score a) in
  let* reliability :=
    if (0 <? wo_total_produced w) || (0 <? wo_total_missed w) then
      percent_of (u128_of_i64 (wo_total_produced w))
        (u128_add (u128_of_i64 (wo_total_produced w)) (u128_of_i64 (wo_total_missed w)))
    else Ok (ao_reliability_score a) in
  Ok (trust, reliability).

Definition update_witness_scores (buffer : list Z) (max_votes : Z) (d : database) (wid : Z)
    : result database :=
  let* w := get_witness d wid in
  let* a := get_account d (wo_witness_account w) in
  let* votes := tally_at buffer (wo_vote_id w) in
  let* (trust, reliability) := witness_scores max_votes votes w a in
  if negb (trust =? ao_trust_score a) || negb (reliability =? ao_reliability_score a) then
    modify_account d (wo_witness_account w)
      (λ a, set_reliability_score (λ _, reliability) (set_trust_score (λ _, trust) a))
  else Ok d.

(** ** All accounts *)

(** [account_referrer_index]: how many accounts [r] referred. *)
Definition referred_count (d : database) (r : Z) : Z :=
  Z.of_nat (size (filter (λ kv, ao_referrer kv.2 = r) (objs (db_accounts d)))).

Record score_maxima := mkMaxima {
  max_referred : Z;
  max_listings : Z;
  max_reputation_votes : Z;
  max_weight_sum : Z
}.

(** The largest sum of the weights of an account's votes. *)
Definition largest_weight_sum (d : database) : result Z :=
  if HARDFORK_OM_713_TIME <? head_block_time d then
    rfold (λ m id, let* a := get_account d id in
                   let* s := get_statistics d (ao_statistics a) in
                   Ok (if bool_decide (st_reputation_votes s = ∅) then m
                       else Z.max m (weight_sum (st_reputation_votes s))))
      0 (ids_of (objs (db_accounts d)))
  else Ok 0.

Definition find_maxima (d : database) : result score_maxima :=
  let accounts := objs (db_accounts d) in
  let* w := largest_weight_sum d in
  Ok (mkMaxima (map_max (λ a, referred_count d (ao_referrer a)) accounts)
        (map_max ao_listings_count accounts) (map_max ao_reputation_votes_count accounts) w).

Definition new_referral_score (m : score_maxima) (d : database) (id : Z) (a : account_object) : Z :=
  let referred := referred_count d id in
  if (0 <? max_referred m) && (0 <? referred)
  then wrap_u16 (wrap_u64 (referred * GRAPHENE_100_PERCENT) / max_referred m)
  else ao_referral_score a.

Definition new_reputation_score (m : score_maxima) (d : database) (a : account_object) : result Z :=
  let* s := get_statistics d (ao_statistics a) in
  let votes := st_reputation_votes s in
  if bool_decide (votes = ∅) then Ok (ao_reputation_score a)
  else
    let weights := if head_block_time d <=? HARDFORK_OM_713_TIME then weight_sum votes
                   else max_weight_sum m in
    let* q := u128_div (u128_mul (u128_mul (weighted_votes_sum votes) (ao_reputation_votes_count a))
                          GRAPHENE_100_PERCENT)
                (u128_mul weights (max_reputation_votes m)) in
    let* q := u128_div q OMNIBAZAAR_REPUTATION_MAX in
    let* i := u128_to_integer q in
    Ok (wrap_u16 i).

Definition new_listings_score (m : score_maxima) (a : account_object) : result Z :=
  if 0 <? max_listings m then percent_of (ao_listings_count a) (max_listings m)
  else Ok (ao_listings_score a).

(** The account with its new scores. *)
Definition rescored (m : score_maxima) (d : database) (id : Z) (a : account_object)
    : result account_object :=
  let referral := new_referral_score m d id a in
  let* reputation := new_reputation_score m d a in
  let* listings := new_listings_score m a in
  let pop := calc_pop_score (cp_pop_weights (parameters d)) referral listings reputation
               (ao_trust_score a) (ao_reliability_score a) (ao_verified a) in
  Ok (set_pop_score (λ _, pop) (set_reputation_score (λ _, reputation)
        (set_listings_score (λ _, listings) (set_referral_score (λ _, referral) a)))).

Definition scores_changed (a b : account_object) : bool :=
  negb (ao_referral_score a =? ao_referral_score b) || negb (ao_listings_score a =? ao_listings_score b)
  || negb (ao_reputation_score a =? ao_reputation_score b) || negb (ao_pop_score a =? ao_pop_score b).

Definition update_scores_of (m : score_maxima) (d : database) (id : Z) : result database :=
  let* a := get_account d id in
  let* a' := rescored m d id a in
  if scores_changed a' a then modify_account d id (λ _, a') else Ok d.

Definition update_account_scores (buffer : list Z) (d : database) : result database :=
  let* max_votes := max_witness_votes buffer d in
  let* d := rfold (update_witness_scores buffer max_votes) d (ids_of (db_witnesses d)) in
  let* m := find_maxima d in
  rfold (update_scores_of m) d (ids_of (objs (db_accounts d))).
End operations.

(** ** Maxima *)

Lemma map_max_ge {V} (f : V → Z) m k v : m !! k = Some v → f v <= map_max f m.
Proof.
  unfold map_max. induction m as [|i x m Hi Hf IH] using map_first_key_ind; [by rewrite lookup_empty|].
  rewrite map_fold_insert_first_key by done. rewrite lookup_insert_Some.
  intros [[_ ->]|[_ Hk]]; [lia|]. apply IH in Hk. lia.
Qed.

Lemma map_max_nonneg {V} (f : V → Z) m : 0 <= map_max f m.
Proof. unfold map_max. apply (map_fold_weak_ind (λ r _, 0 <= r)); [done|]. intros. lia. Qed.

Lemma map_max_le {V} (f : V → Z) m b : 0 <= b → (∀ k v, m !! k = Some v → f v <= b) → map_max f m <= b.
Proof.
  intros Hb H. unfold map_max. revert H. apply (map_fold_weak_ind (λ r m, (∀ k v, m !! k = Some v → f v <= b) → r <= b)); [done|].
  intros i x m' r Hi IH H. pose proof (H i x ltac:(by rewrite lookup_insert_eq)).
  enough (r <= b) by lia. apply IH. intros k v Hk. apply (H k). rewrite lookup_insert_ne; [done|congruence].
Qed.

(** The largest value a loop has met is at least each of them. *)
Lemma rfold_max_ge {A} (f : Z → A → result Z) l m m' :
  (∀ m x m', f m x = Ok m' → m <= m') → rfold f m l = Ok m' →
  m <= m' ∧ ∀ x, x ∈ l → ∃ m0 m1, f m0 x = Ok m1 ∧ m1 <= m'.
Proof.
  intros Hf. revert m. induction l as [|x l IH]; simpl; intros m H.
  - injection H as <-. split; [lia|]. intros y Hy. by apply not_elem_of_nil in Hy.
  - apply rbind_ok in H as (m1 & H1 & H). destruct (IH _ H) as [Hle Hx].
    pose proof (Hf _ _ _ H1). split; [lia|]. intros y [->|Hy]%elem_of_cons; [eauto|by apply Hx].
Qed.

(** ** Scores stay percentages *)

Definition account_scores_wf (a : account_object) : Prop :=
  score_wf (ao_referral_score a) ∧ score_wf (ao_listings_score a) ∧ score_wf (ao_reputation_score a) ∧
  score_wf (ao_trust_score a) ∧ score_wf (ao_reliability_score a) ∧ score_wf (ao_pop_score a).

Definition scores_wf (d : database) : Prop :=
  ∀ id a, objs (db_accounts d) !! id = Some a → account_scores_wf a.

(** An account without its scores, and a database that differs in scores only. *)
Definition unscored (a : account_object) : account_object :=
  set_pop_score (λ _, 0) (set_reputation_score (λ _, 0) (set_listings_score (λ _, 0)
    (set_referral_score (λ _, 0) (set_reliability_score (λ _, 0) (set_trust_score (λ _, 0) a))))).

Definition scores_only (d d' : database) : Prop :=
  d' = set_accounts (λ t, mkTable (objs (db_accounts d')) (next_id t)) d ∧
  unscored <$> objs (db_accounts d') = unscored <$> objs (db_accounts d).

(** Marks of 0 to 10, positive weights, as many as the account's counter says. *)
Definition account_votes_wf (a : account_object) (votes : gmap Z (Z * asset)) : Prop :=
  (∀ k v, votes !! k = Some v → OMNIBAZAAR_REPUTATION_MIN <= v.1 <= OMNIBAZAAR_REPUTATION_MAX ∧
     0 < amount v.2 <= GRAPHENE_MAX_SHARE_SUPPLY) ∧
  Z.of_nat (size votes) <= 2 ^ 28 ∧ ao_reputation_votes_count a = Z.of_nat (size votes).

(** The state the scores are computed from. *)
Definition scoring_wf (buffer : list Z) (d : database) : Prop :=
  weights_wf (cp_pop_weights (parameters d)) ∧
  Z.of_nat (size (objs (db_accounts d))) <= 2 ^ 32 ∧
  (∀ id a, objs (db_accounts d) !! id = Some a → 0 <= ao_listings_count a < 2 ^ 64 ∧
     ∃ s, db_statistics d !! ao_statistics a = Some s ∧ account_votes_wf a (st_reputation_votes s)) ∧
  (∀ wid w, db_witnesses d !! wid = Some w →
     is_Some (objs (db_accounts d) !! wo_witness_account w) ∧
     0 <= wo_total_produced w < 2 ^ 63 ∧ 0 <= wo_total_missed w < 2 ^ 63 ∧
     ∃ v, tally_at buffer (wo_vote_id w) = Ok v ∧ 0 <= v < 2 ^ 64).

Section properties.
Context {FC : FcArith} {FCL : FcArithLaws FC}.

Lemma percent_of_ok part whole : 0 <= part <= whole → 0 < whole < 2 ^ 66 →
  percent_of part whole = Ok (part * GRAPHENE_100_PERCENT / whole) ∧
  score_wf (part * GRAPHENE_100_PERCENT / whole).
Proof.
  intros Hp Hw. unfold percent_of, score_wf, GRAPHENE_100_PERCENT.
  assert (0 <= part * 10000 / whole <= 10000).
  { split; [apply Z.div_pos; lia|]. apply Z.div_le_upper_bound; lia. }
  rewrite u128_mul_small by (unfold u128_mod; lia). rewrite u128_div_ok by lia. cbn [rbind].
  rewrite u128_to_integer_spec, (proj2 (Z.ltb_lt _ _)) by lia. cbn [rbind].
  rewrite wrap_u16_small by lia. done.
Qed.

Lemma scores_only_refl d : scores_only d d.
Proof. split; [|done]. by destruct d as [[]]. Qed.

(** Writing scores of one account. *)
Lemma scores_only_modify d d1 id a a' :
  scores_only d d1 → objs (db_accounts d1) !! id = Some a → unscored a' = unscored a →
  scores_only d (set_accounts (λ t, mkTable (<[id := a']> (objs t)) (next_id t)) d1).
Proof.
  intros [E1 E2] Ha Hu. split; simpl.
  - rewrite E1. done.
  - rewrite fmap_insert, Hu, <- E2. apply insert_id. by rewrite lookup_fmap, Ha.
Qed.

Lemma scores_only_lookup d d1 id a1 : scores_only d d1 → objs (db_accounts d1) !! id = Some a1 →
  ∃ a, objs (db_accounts d) !! id = Some a ∧ unscored a1 = unscored a.
Proof.
  intros [_ E] Ha. assert ((unscored <$> objs (db_accounts d)) !! id = Some (unscored a1)) as H.
  { by rewrite <- E, lookup_fmap, Ha. }
  rewrite lookup_fmap in H. destruct (objs (db_accounts d) !! id) as [a|]; [|done].
  apply (inj Some) in H. eauto.
Qed.

Lemma scores_only_is_Some d d1 id : scores_only d d1 →
  is_Some (objs (db_accounts d) !! id) → ∃ a, objs (db_accounts d1) !! id = Some a.
Proof.
  intros [_ E] [a Ha]. assert ((unscored <$> objs (db_accounts d1)) !! id = Some (unscored a)) as H.
  { by rewrite E, lookup_fmap, Ha. }
  rewrite lookup_fmap in H. destruct (objs (db_accounts d1) !! id) as [a1|]; [eauto|done].
Qed.

Lemma referred_count_scores d d1 r : scores_only d d1 → referred_count d1 r = referred_count d r.
Proof.
  intros [_ E]. unfold referred_count. f_equal.
  assert (∀ m : gmap Z account_object, size (filter (λ kv : Z * account_object, ao_referrer kv.2 = r) m)
    = size (filter (λ kv : Z * account_object, ao_referrer kv.2 = r) (unscored <$> m))) as Hm.
  { intros m. by rewrite map_filter_fmap, map_size_fmap. }
  by rewrite Hm, E, <- Hm.
Qed.

Lemma max_witness_votes_ok buffer d : scoring_wf buffer d →
  ∃ m, max_witness_votes buffer d = Ok m ∧ 0 <= m < 2 ^ 64 ∧
    ∀ wid w v, db_witnesses d !! wid = Some w → tally_at buffer (wo_vote_id w) = Ok v → v <= m.
Proof.
  intros (_ & _ & _ & Hw). unfold max_witness_votes. set (f := λ m wid, _).
  destruct (rfold_total f (λ m, 0 <= m < 2 ^ 64) (ids_of (db_witnesses d)) 0) as (m & Hm & Hr); [|lia|].
  { intros m wid [w Hl]%elem_of_ids_of Hm. destruct (Hw _ _ Hl) as (_ & _ & _ & v & Hv & Hb).
    exists (Z.max m v). subst f. simpl. unfold get_witness. rewrite Hl. simpl. rewrite Hv. simpl. split; [done|lia]. }
  exists m. split_and!; [done|lia..|]. intros wid w v Hl Hv.
  apply rfold_max_ge in Hm as [_ Hm].
  - destruct (Hm wid) as (m0 & m1 & H1 & Hle); [apply elem_of_ids_of; eauto|].
    subst f. simpl in H1. unfold get_witness in H1. rewrite Hl in H1. simpl in H1. rewrite Hv in H1.
    injection H1 as <-. lia.
  - intros a x b H. subst f. simpl in H. ok_inv. lia.
Qed.

(** The invariant of both loops. *)
Definition rescoring (d d1 : database) : Prop := scores_only d d1 ∧ scores_wf d1.

Lemma scores_wf_insert d id a n : scores_wf d → account_scores_wf a →
  scores_wf (set_accounts (λ t, mkTable (<[id := a]> (objs t)) n) d).
Proof.
  intros Hd Ha i b. simpl. rewrite lookup_insert_Some. intros [[_ <-]|[_ Hb]]; [done|by apply (Hd i)].
Qed.

Lemma witness_scores_ok m v w a : 0 <= v <= m → m < 2 ^ 64 →
  0 <= wo_total_produced w < 2 ^ 63 → 0 <= wo_total_missed w < 2 ^ 63 → account_scores_wf a →
  ∃ t r, witness_scores m v w a = Ok (t, r) ∧ score_wf t ∧ score_wf r.
Proof.
  intros Hv Hm Hp Hmi (? & ? & ? & Ht & Hr & ?). unfold witness_scores.
  rewrite !u128_of_i64_nonneg by (unfold u128_mod; lia). rewrite u128_add_small by (unfold u128_mod; lia).
  assert (∃ t, (if 0 <? m then percent_of v m else Ok (ao_trust_score a)) = Ok t ∧ score_wf t) as (t & -> & Hwt).
  { destruct (Z.ltb_spec 0 m); [|eauto]. destruct (percent_of_ok v m) as [-> ?]; [lia..|eauto]. }
  set (p := wo_total_produced w) in *. set (q := wo_total_missed w) in *.
  assert (∃ r, (if (0 <? p) || (0 <? q) then percent_of p (p + q) else Ok (ao_reliability_score a)) = Ok r
    ∧ score_wf r) as (r & E & Hwr).
  { destruct (Z.ltb_spec 0 p), (Z.ltb_spec 0 q); simpl; [..|by eauto];
      (destruct (percent_of_ok p (p + q)) as [-> ?]; [lia|lia|eauto]). }
  cbn [rbind]. rewrite E. cbn [rbind]. eauto.
Qed.

Lemma update_witness_scores_ok buffer d m d1 wid :
  scoring_wf buffer d → 0 <= m < 2 ^ 64 →
  (∀ wid w v, db_witnesses d !! wid = Some w → tally_at buffer (wo_vote_id w) = Ok v → v <= m) →
  is_Some (db_witnesses d !! wid) → rescoring d d1 →
  ∃ d2, update_witness_scores buffer m d1 wid = Ok d2 ∧ rescoring d d2.
Proof.
  intros (_ & _ & _ & Hw) Hm Hmax [w Hl] [Hso Hwf]. destruct (Hw _ _ Hl) as (Ha & Hp & Hq & v & Hv & Hb).
  destruct (scores_only_is_Some _ _ _ Hso Ha) as [a1 Ha1].
  destruct (witness_scores_ok m v w a1) as (t & r & Hs & Ht & Hr); [|lia|done..|by apply (Hwf (wo_witness_account w))|].
  { split; [lia|by eapply Hmax]. }
  unfold update_witness_scores, get_witness. pose proof Hso as [E _].
  assert (db_witnesses d1 = db_witnesses d) as -> by (by rewrite E). rewrite Hl. cbn [of_option rbind].
  unfold modify_account, get_account, index_get. rewrite Ha1. cbn [of_option rbind]. rewrite Hv. cbn [rbind].
  rewrite Hs. cbn [rbind]. case_match; [|by exists d1]. eexists. split; [reflexivity|]. split.
  - eapply scores_only_modify; [done|done|reflexivity].
  - apply scores_wf_insert; [done|]. destruct (Hwf _ _ Ha1) as (? & ? & ? & _ & _ & ?). red. split_and!; assumption.
Qed.

(** ** The maxima *)

Lemma account_votes_sums a votes : account_votes_wf a votes →
  weighted_votes_sum votes = votes_total votes ∧ weight_sum votes = weights_total votes ∧
  0 <= weights_total votes <= 2 ^ 78 ∧ 0 <= votes_total votes <= 10 * weights_total votes ∧
  (votes ≠ ∅ → 0 < weights_total votes).
Proof.
  intros (Hv & Hs & _). unfold GRAPHENE_MAX_SHARE_SUPPLY in Hv.
  assert (votes_wf votes) as Hwf by (split; [intros k v Hk; apply Hv in Hk; lia|lia]).
  destruct (sums_eq votes Hwf) as [-> ->]. destruct (votes_bounds votes Hwf) as [? ?].
  split_and!; [done..|lia| |lia|lia|].
  - unfold weights_total. pose proof (msum_size_bound (λ _ v, amount v.2) (2 ^ 50) votes
      ltac:(intros k v Hk; apply Hv in Hk; lia)). lia.
  - intros Hne. destruct (map_choose votes Hne) as (k & v & Hk). unfold weights_total.
    pose proof (msum_lookup_le (λ _ v, amount v.2) votes k v ltac:(intros i w Hi; apply Hv in Hi; lia) Hk).
    apply Hv in Hk. simpl in *. lia.
Qed.

Lemma largest_weight_sum_ok d :
  (∀ id a, objs (db_accounts d) !! id = Some a → ∃ s, db_statistics d !! ao_statistics a = Some s ∧
     account_votes_wf a (st_reputation_votes s)) →
  ∃ w, largest_weight_sum d = Ok w ∧ 0 <= w <= 2 ^ 78 ∧
    (HARDFORK_OM_713_TIME < head_block_time d → ∀ id a s, objs (db_accounts d) !! id = Some a →
     db_statistics d !! ao_statistics a = Some s → st_reputation_votes s ≠ ∅ →
     weight_sum (st_reputation_votes s) <= w).
Proof.
  intros Hd. unfold largest_weight_sum.
  destruct (Z.ltb_spec HARDFORK_OM_713_TIME (head_block_time d)); [|exists 0; split_and!; [done|lia|lia|lia]].
  set (f := λ m id, _).
  destruct (rfold_total f (λ m, 0 <= m <= 2 ^ 78) (ids_of (objs (db_accounts d))) 0) as (m & Hm & Hr); [|lia|].
  { intros m id [a Ha]%elem_of_ids_of Hm. destruct (Hd _ _ Ha) as (s & Hs & Hv).
    subst f. simpl. unfold get_account, index_get, get_statistics. rewrite Ha. simpl. rewrite Hs. simpl.
    eexists. split; [reflexivity|]. case_bool_decide; [done|].
    pose proof (account_votes_sums _ _ Hv) as (_ & E & ? & ? & _). rewrite E. lia. }
  exists m. split_and!; [done|lia|lia|]. intros _ id a s Ha Hs Hne.
  apply rfold_max_ge in Hm as [_ Hm].
  - destruct (Hm id) as (m0 & m1 & H1 & Hle); [apply elem_of_ids_of; eauto|].
    subst f. simpl in H1. unfold get_account, index_get, get_statistics in H1. rewrite Ha in H1. simpl in H1.
    rewrite Hs in H1. simpl in H1. injection H1 as <-. rewrite bool_decide_false in Hle by done. lia.
  - intros x y z H1. subst f. simpl in H1. ok_inv. case_bool_decide; lia.
Qed.

(** ** The new scores of one account *)

(** What the loop over the accounts knows about the maxima. *)
Definition maxima_ok (d : database) (m : score_maxima) : Prop :=
  (∀ id a, objs (db_accounts d) !! id = Some a →
     referred_count d (ao_referrer a) <= max_referred m ∧ ao_listings_count a <= max_listings m ∧
     ao_reputation_votes_count a <= max_reputation_votes m ∧
     (HARDFORK_OM_713_TIME < head_block_time d → ∀ s, db_statistics d !! ao_statistics a = Some s →
        st_reputation_votes s ≠ ∅ → weight_sum (st_reputation_votes s) <= max_weight_sum m)) ∧
  max_listings m < 2 ^ 64 ∧ max_reputation_votes m <= 2 ^ 28 ∧ 0 <= max_weight_sum m <= 2 ^ 78.

Lemma find_maxima_ok buffer d : scoring_wf buffer d → ∃ m, find_maxima d = Ok m ∧ maxima_ok d m.
Proof.
  intros (_ & _ & Ha & _).
  destruct (largest_weight_sum_ok d) as (w & Hw & Hb & Hle).
  { intros id a Hid. apply Ha in Hid as [_ H]. done. }
  unfold find_maxima. rewrite Hw. eexists. split; [reflexivity|]. split_and!; simpl; [|..|lia|lia].
  - intros id a Hid. pose proof Hid as Hid'. split_and!.
    + eapply (map_max_ge (λ a, referred_count d (ao_referrer a))), Hid.
    + eapply map_max_ge, Hid.
    + eapply map_max_ge, Hid.
    + intros Ht s Hs Hne. by eapply Hle.
  - assert (map_max ao_listings_count (objs (db_accounts d)) <= 2 ^ 64 - 1); [|lia].
    apply map_max_le; [lia|]. intros k v Hk. apply Ha in Hk as [? _]. lia.
  - apply map_max_le; [lia|]. intros k v Hk. apply Ha in Hk as (_ & s & _ & _ & ? & E). lia.
Qed.

Lemma referral_score_ok m d id a :
  maxima_ok d m → Z.of_nat (size (objs (db_accounts d))) <= 2 ^ 32 → score_wf (ao_referral_score a) →
  score_wf (new_referral_score m d id a).
Proof.
  intros (Hm & _) Hsz Hwf. unfold new_referral_score. destruct (Z.ltb_spec 0 (max_referred m)); simpl; [|done].
  destruct (Z.ltb_spec 0 (referred_count d id)); [|done].
  assert (referred_count d id <= max_referred m ∧ referred_count d id <= 2 ^ 32) as [Hle Hb].
  { unfold referred_count in *. set (F := filter _ _) in *.
    assert (size F <= size (objs (db_accounts d)))%nat as Hs.
    { apply map_size_filter. }
    split; [|lia]. destruct (decide (F = ∅)) as [E|Hne]; [rewrite E, map_size_empty in *; lia|].
    apply map_choose in Hne as (k & v & Hk). apply map_lookup_filter_Some in Hk as [Hk Href]. simpl in Href.
    destruct (Hm _ _ Hk) as [Hc _]. unfold referred_count in Hc. rewrite Href in Hc. done. }
  unfold score_wf, GRAPHENE_100_PERCENT. rewrite wrap_u64_small by lia.
  assert (0 <= referred_count d id * 10000 / max_referred m <= 10000).
  { split; [apply Z.div_pos; lia|]. apply Z.div_le_upper_bound; lia. }
  rewrite wrap_u16_small by lia. lia.
Qed.

Lemma reputation_score_ok m d id a s :
  maxima_ok d m → objs (db_accounts d) !! id = Some a → db_statistics d !! ao_statistics a = Some s →
  account_votes_wf a (st_reputation_votes s) → score_wf (ao_reputation_score a) →
  ∃ r, new_reputation_score m d a = Ok r ∧ score_wf r.
Proof.
  intros (Hm & _ & Hrep & Hwt) Ha Hs Hv Hwf. destruct (Hm _ _ Ha) as (_ & _ & Hcount & Hsum).
  unfold new_reputation_score, get_statistics. rewrite Hs. cbn [of_option rbind].
  case_bool_decide as Hne; [eauto|].
  destruct (account_votes_sums a _ Hv) as (E1 & E2 & Hw & Hvt & Hpos). specialize (Hpos Hne).
  set (votes := st_reputation_votes s) in *. rewrite E1.
  set (W := if head_block_time d <=? HARDFORK_OM_713_TIME then weight_sum votes else max_weight_sum m).
  assert (weights_total votes <= W <= 2 ^ 78) as HW.
  { subst W. destruct (Z.leb_spec (head_block_time d) HARDFORK_OM_713_TIME); [lia|].
    specialize (Hsum ltac:(lia) _ Hs Hne). fold votes in Hsum. lia. }
  destruct Hv as (_ & Hsz & Ec).
  assert (1 <= ao_reputation_votes_count a) as Hc1.
  { rewrite Ec. assert (size votes ≠ 0%nat) by (by apply map_size_non_empty_iff). lia. }
  set (c := ao_reputation_votes_count a) in *. set (M := max_reputation_votes m) in *.
  set (v := votes_total votes) in *. clearbody W c M v.
  unfold GRAPHENE_100_PERCENT, OMNIBAZAAR_REPUTATION_MAX, score_wf.
  assert (0 <= v * c <= 10 * (W * M) ∧ 0 < W * M <= 2 ^ 78 * 2 ^ 28) as [HvM HWM] by nia.
  rewrite (u128_mul_small v c), (u128_mul_small (v * c)), (u128_mul_small W M) by (unfold u128_mod; lia).
  rewrite u128_div_ok by lia. cbn [rbind].
  assert (0 <= v * c * 10000 / (W * M) <= 100000).
  { split; [apply Z.div_pos; lia|]. apply Z.div_le_upper_bound; lia. }
  rewrite u128_div_ok by lia. cbn [rbind].
  assert (0 <= v * c * 10000 / (W * M) / 10 <= 10000).
  { split; [apply Z.div_pos; lia|]. apply Z.div_le_upper_bound; lia. }
  rewrite u128_to_integer_spec, (proj2 (Z.ltb_lt _ _)) by lia. cbn [rbind].
  rewrite wrap_u16_small by lia. eauto.
Qed.

Definition pop_computed (w : pop_weights) (a : account_object) : Prop :=
  ao_pop_score a = calc_pop_score w (ao_referral_score a) (ao_listings_score a) (ao_reputation_score a)
    (ao_trust_score a) (ao_reliability_score a) (ao_verified a).

Lemma rescored_ok m d id a s :
  maxima_ok d m → Z.of_nat (size (objs (db_accounts d))) <= 2 ^ 32 →
  weights_wf (cp_pop_weights (parameters d)) → objs (db_accounts d) !! id = Some a →
  0 <= ao_listings_count a → db_statistics d !! ao_statistics a = Some s →
  account_votes_wf a (st_reputation_votes s) → account_scores_wf a →
  ∃ a', rescored m d id a = Ok a' ∧ account_scores_wf a' ∧ unscored a' = unscored a ∧
    pop_computed (cp_pop_weights (parameters d)) a'.
Proof.
  intros Hm Hsz Hpw Ha Hl Hs Hv (Hr & Hls & Hrep & Ht & Hrel & Hp).
  destruct (reputation_score_ok m d id a s) as (rep & Erep & Hwrep); [done..|].
  pose proof (referral_score_ok m d id a Hm Hsz Hr) as Hwref.
  assert (∃ l, new_listings_score m a = Ok l ∧ score_wf l) as (l & El & Hwl).
  { unfold new_listings_score. destruct Hm as (Hm & Hml & _). destruct (Hm _ _ Ha) as (_ & ? & _).
    destruct (Z.ltb_spec 0 (max_listings m)); [|eauto].
    destruct (percent_of_ok (ao_listings_count a) (max_listings m)) as [-> ?]; [lia|lia|eauto]. }
  unfold rescored. rewrite Erep. cbn [rbind]. rewrite El. cbn [rbind].
  eexists. split; [reflexivity|]. split_and!; [|done|done].
  red. split_and!; try assumption. cbn.
  destruct (calc_pop_score_eq (cp_pop_weights (parameters d)) (new_referral_score m d id a) l rep
    (ao_trust_score a) (ao_reliability_score a) (ao_verified a)) as [E B]; [done..|].
  cbv zeta in *. red. rewrite E. unfold GRAPHENE_100_PERCENT in *.
  split; [apply Z.div_pos; lia|]. apply Z.div_le_upper_bound; lia.
Qed.

(** ** All accounts *)

(** Scores do not enter what the scores are computed from. *)
Lemma unscored_fields a b : unscored a = unscored b →
  ao_referrer a = ao_referrer b ∧ ao_listings_count a = ao_listings_count b ∧
  ao_reputation_votes_count a = ao_reputation_votes_count b ∧ ao_statistics a = ao_statistics b.
Proof.
  intros E. pose proof (f_equal ao_referrer E). pose proof (f_equal ao_listings_count E).
  pose proof (f_equal ao_reputation_votes_count E). by pose proof (f_equal ao_statistics E).
Qed.

Lemma scoring_wf_scores buffer d d1 : scores_only d d1 → scoring_wf buffer d → scoring_wf buffer d1.
Proof.
  intros Hso (Hp & Hsz & Ha & Hw). pose proof Hso as [E1 E2].
  assert (size (objs (db_accounts d1)) = size (objs (db_accounts d))) as Es.
  { by rewrite <- (map_size_fmap unscored), E2, map_size_fmap. }
  split_and!; [by rewrite E1|by rewrite Es| |].
  - intros id a1 Ha1. destruct (scores_only_lookup _ _ _ _ Hso Ha1) as (a & Hl & E).
    apply unscored_fields in E as (_ & E3 & E4 & E5). destruct (Ha _ _ Hl) as (? & s & Hs & Hv).
    rewrite E3, E5. split; [done|]. exists s. rewrite E1. split; [done|].
    destruct Hv as (? & ? & ?). split_and!; [done..|by rewrite E4].
  - intros wid w Hl. rewrite E1 in Hl. destruct (Hw _ _ Hl) as (Hs & Hrest). split; [|done].
    destruct (scores_only_is_Some _ _ _ Hso Hs). eauto.
Qed.

Lemma maxima_ok_scores d d1 m : scores_only d d1 → maxima_ok d m → maxima_ok d1 m.
Proof.
  intros Hso (Hm & Hrest). pose proof Hso as [E1 _]. split; [|done].
  intros id a1 Ha1. destruct (scores_only_lookup _ _ _ _ Hso Ha1) as (a & Hl & E).
  apply unscored_fields in E as (E2 & E3 & E4 & E5). rewrite E2, E3, E4, E5, (referred_count_scores _ _ _ Hso).
  assert (head_block_time d1 = head_block_time d ∧ db_statistics d1 = db_statistics d) as [-> ->].
  { by rewrite E1. }
  by apply (Hm id).
Qed.

Lemma rescored_unchanged m d id a a' : rescored m d id a = Ok a' → scores_changed a' a = false → a' = a.
Proof.
  unfold rescored. intros H Hc. ok_inv. unfold scores_changed in Hc.
  set (p := calc_pop_score _ _ _ _ _ _ _) in *. set (r := new_referral_score _ _ _ _) in *. clearbody p r.
  rewrite !orb_false_iff, !negb_false_iff, !Z.eqb_eq in Hc. destruct Hc as [[[E1 E2] E3] E4].
  clear - E1 E2 E3 E4. destruct a; cbn in *. by subst.
Qed.

Lemma scores_only_trans d1 d2 d3 : scores_only d1 d2 → scores_only d2 d3 → scores_only d1 d3.
Proof. intros [E1 E2] [E3 E4]. split; [rewrite E3; by rewrite E1|by rewrite E4, E2]. Qed.

Definition pop_of (d : database) (id : Z) : Prop :=
  ∀ a, objs (db_accounts d) !! id = Some a → pop_computed (cp_pop_weights (parameters d)) a.

Lemma update_scores_of_ok buffer d m d1 id :
  scoring_wf buffer d → maxima_ok d m → id ∈ ids_of (objs (db_accounts d)) → rescoring d d1 →
  ∃ d2, update_scores_of m d1 id = Ok d2 ∧ rescoring d d2 ∧ pop_of d2 id ∧
    ∀ y, pop_of d1 y → pop_of d2 y.
Proof.
  intros Hswf Hm Hid%elem_of_ids_of [Hso Hwf]. destruct (scores_only_is_Some _ _ _ Hso Hid) as [a Ha].
  pose proof (scoring_wf_scores _ _ _ Hso Hswf) as (Hpw & Hsz & Hacc & _).
  destruct (Hacc _ _ Ha) as (Hl & s & Hs & Hv).
  destruct (rescored_ok m d1 id a s) as (a' & Hr & Hwa & Hu & Hpop);
    [by eapply maxima_ok_scores|done..|lia|done|done|by apply (Hwf id)|].
  unfold update_scores_of, modify_account, get_account, index_get. rewrite Ha. cbn [of_option rbind].
  rewrite Hr. cbn [rbind]. destruct (scores_changed a' a) eqn:Ec.
  - eexists. split; [reflexivity|]. split_and!.
    + split; [by eapply scores_only_modify|by apply scores_wf_insert].
    + intros b. simpl. rewrite lookup_insert_eq. by intros [= <-].
    + intros y Hy b. simpl. rewrite lookup_insert_Some. intros [[_ <-]|[_ Hb]]; [done|by apply Hy].
  - pose proof (rescored_unchanged _ _ _ _ _ Hr Ec) as ->. exists d1. split_and!; [done..| |done].
    intros b Hb. rewrite Ha in Hb. by injection Hb as <-.
Qed.

(** C26.  Proof of Participation scores.  On a state with consistent votes
    the update at maintenance has a result, for any number of accounts and
    witnesses: nothing but the scores of accounts changes, every score stays
    between 0 and 100%, no product or quotient of the 128-bit computation
    overflows, and the overall score of every account is the weighted sum of
    its new component scores. *)
Theorem account_scores_correct buffer d :
  scoring_wf buffer d → scores_wf d →
  ∃ d', update_account_scores buffer d = Ok d' ∧ scores_only d d' ∧ scores_wf d' ∧
    ∀ id, is_Some (objs (db_accounts d') !! id) → pop_of d' id.
Proof.
  intros Hs Hwf. unfold update_account_scores.
  destruct (max_witness_votes_ok buffer d Hs) as (mv & -> & Hmv & Hmax). cbn [rbind].
  destruct (rfold_total (update_witness_scores buffer mv) (rescoring d) (ids_of (db_witnesses d)) d)
    as (d1 & -> & Hso & Hwf1).
  { intros d1 wid Hw%elem_of_ids_of H1. by eapply update_witness_scores_ok. }
  { split; [apply scores_only_refl|done]. }
  cbn [rbind]. pose proof (scoring_wf_scores _ _ _ Hso Hs) as Hs1.
  destruct (find_maxima_ok buffer d1 Hs1) as (m & -> & Hm). cbn [rbind].
  destruct (rfold_total_each (update_scores_of m) (rescoring d1) pop_of
    (ids_of (objs (db_accounts d1))) d1) as (d2 & -> & [Hso2 Hwf2] & Hpop & _).
  { intros d2 id Hid H2. by eapply update_scores_of_ok. }
  { split; [apply scores_only_refl|done]. }
  exists d2. split_and!; [done|by eapply scores_only_trans|done|].
  intros id Hid. apply Hpop, elem_of_ids_of.
  destruct Hid as [a Ha]. destruct (scores_only_lookup _ _ _ _ Hso2 Ha) as (b & Hb & _). eauto.
Qed.
End properties.

(** Alice voted for Bob and her witness has half of the votes of the best. *)
Definition scored_db : database :=
  set_statistics (λ m, <[bob := mkStats bob 0 0 0 {[ alice := (10, core_asset 500) ]} ∅ 0]> m)
    (set_accounts (λ t, mkTable (<[bob := set_reputation_votes_count (λ _, 1)
       (agent_of (sample_account "bob" bob))]> (objs t)) (next_id t)) sample_db).

Lemma no_votes_wf a : ao_reputation_votes_count a = 0 → account_votes_wf a ∅.
Proof. intros E. split_and!; [|done|done]. intros k v Hk. by rewrite lookup_empty in Hk. Qed.

Lemma one_vote_wf a k r x : 0 <= r <= 10 → 0 < x <= 1000000000000000 →
  ao_reputation_votes_count a = 1 → account_votes_wf a {[ k := (r, core_asset x) ]}.
Proof.
  intros Hr Hx E. split_and!; [|rewrite map_size_singleton; lia|by rewrite map_size_singleton].
  intros j v [-> <-]%lookup_singleton_Some. done.
Qed.

Lemma scored_db_wf : scoring_wf [700; 300] scored_db ∧ scores_wf scored_db.
Proof.
  assert (∀ id a, objs (db_accounts scored_db) !! id = Some a →
    (0 <= ao_listings_count a < 2 ^ 64 ∧ ∃ s, db_statistics scored_db !! ao_statistics a = Some s ∧
       account_votes_wf a (st_reputation_votes s)) ∧ account_scores_wf a) as H.
  { intros id a H. simpl in H. repeat (apply lookup_insert_Some in H as [[<- <-]|[? H]];
      [first [done|split; [split; [vm_compute; split; congruence|eexists; split; [reflexivity|]]
              |repeat split; vm_compute; congruence]]|]);
      first [by rewrite lookup_empty in H|apply no_votes_wf; reflexivity
            |apply (one_vote_wf _ alice 10 500); [lia|lia|reflexivity]]. }
  split; [split_and!|intros id a Ha; by apply H in Ha as [_ ?]].
  - unfold weights_wf, GRAPHENE_100_PERCENT. simpl. lia.
  - vm_compute. congruence.
  - intros id a Ha. by apply H in Ha as [? _].
  - intros wid w Hw. simpl in Hw. apply lookup_singleton_Some in Hw as [<- <-].
    split; [eexists; reflexivity|]. simpl. split; [lia|]. split; [lia|]. exists 700. split; [reflexivity|lia].
Qed.

Lemma account_scores_correct_witness :
  ∃ d', update_account_scores (FC := fc_reference) [700; 300] scored_db = Ok d' ∧
    (ao_pop_score <$> objs (db_accounts d') !! alice) = Some 3000.
Proof.
  destruct (account_scores_correct (FCL := fc_reference_laws) [700; 300] scored_db)
    as (d' & E & _); [apply scored_db_wf|apply scored_db_wf|].
  exists d'. split; [done|]. vm_compute in E. injection E as <-. vm_compute. reflexivity.
Defined.
