(* ===== verification/Elections.v ===== *)
(** * Votes and elections at maintenance ([db_maint.cpp])

    The tally of the votes of all accounts, interleaved with the distribution
    of their fees ([perform_account_maintenance], [vote_tally_helper]); the
    choice of the active witnesses and committee members
    ([sort_votable_objects], [update_active_witnesses],
    [update_active_committee_members]); the votes of workers
    ([update_worker_votes]); authorities made of the largest holders of an
    asset ([update_top_n_authorities]). *)

From stdpp Require Import gmap strings list.
From Stdlib Require Import ZArith Lia Sorting.Sorted.
From S2P Require Import Prelude Fc Config Authority Asset VestingBalance Objects Database Sample Balances Fees Reputation VoteCount PopScores.

Local Open Scope Z_scope.

Section operations.
Context {FC : FcArith} {BA : BoostArith}.

(** ** The tally *)

(** [_vote_tally_buffer] and [_total_voting_stake]. *)
Record tally := mkTally { vote_tally_buffer : list Z; total_voting_stake : Z }.

(** Accounts in the order of the index [by_name]. *)
Definition accounts_by_name (d : database) : list Z :=
  (foldr (insert_before (λ a b, String.ltb (ao_name a.2) (ao_name b.2))) []
    (map_to_list (objs (db_accounts d)))).*1.

Definition opinion_account (d : database) (a : account_object) : result account_object :=
  if ao_voting_account a =? GRAPHENE_PROXY_TO_SELF_ACCOUNT then Ok a
  else get_account d (ao_voting_account a).

Definition voting_stake (d : database) (id : Z) (a : account_object) : result Z :=
  let* stats := get_statistics d (ao_statistics a) in
  let* cashback :=
    match ao_cashback_vb a with
    | Some vb => let* v := index_get (db_vesting d) vb in Ok (amount (vb_balance v))
    | None => Ok 0
    end in
  Ok (wrap_u64 (st_total_core_in_orders stats + cashback + amount (get_balance d id core_id))).

(** An illegal offset is ignored. *)
Definition add_vote (stake : Z) (buffer : list Z) (vote : Z) : list Z :=
  alter (λ v, wrap_u64 (v + stake)) (Z.to_nat (vote_instance vote)) buffer.

Definition vote_tally_helper (d : database) (t : tally) (id : Z) : result tally :=
  let* a := get_account d id in
  let* opinion := opinion_account d a in
  let* stake := voting_stake d id a in
  Ok (mkTally (foldl (add_vote stake) (vote_tally_buffer t) (flat_elements (ao_votes opinion)))
        (wrap_u64 (total_voting_stake t + stake))).

(** Both helpers, the tally and the fees, for one account after the other. *)
Definition account_maintenance (s : database * tally) (id : Z) : result (database * tally) :=
  let* t := vote_tally_helper s.1 s.2 id in
  let* a := get_account s.1 id in
  let* d := process_fees s.1 (ao_statistics a) id in
  Ok (d, t).

Definition new_tally (d : database) : tally :=
  mkTally (replicate (Z.to_nat (gp_next_available_vote_id (db_gpo d))) 0) 0.

Definition perform_account_maintenance (d : database) : result (database * tally) :=
  rfold account_maintenance (d, new_tally d) (accounts_by_name d).

(** ** Sorting candidates *)

Record candidate := mkCandidate {
  cd_id : Z;
  cd_account : Z;
  cd_vote_id : Z;
  cd_pop_score : Z
}.

(** The candidates of a table; every one of them is compared by the score of
    its account. *)
Definition candidates {V} (d : database) (account vote : V → Z) (m : gmap Z V)
    : result (list candidate) :=
  rmap (λ id, let* v := of_option unknown_object (m !! id) in
              let* a := get_account d (account v) in
              Ok (mkCandidate id (account v) (vote v) (ao_pop_score a))) (ids_of m).

Definition before (a b : candidate) : bool :=
  if cd_pop_score a =? cd_pop_score b then vote_instance (cd_vote_id a) <? vote_instance (cd_vote_id b)
  else cd_pop_score b <? cd_pop_score a.

Definition sort_votable_objects (count : Z) (l : list candidate) : list candidate :=
  take (Z.to_nat (Z.min count (Z.of_nat (length l)))) (foldr (insert_before before) [] l).

(** The votes an authority of elected accounts is made of. *)
Definition score_votes (l : list candidate) : list (Z * Z) := (λ c, (cd_account c, cd_pop_score c)) <$> l.

(** ** Witnesses *)

Definition update_witness_votes (buffer : list Z) (d : database) (wid : Z) : result database :=
  let* w := get_witness d wid in
  let* v := tally_at buffer (wo_vote_id w) in
  modify_witness d wid (set_witness_votes (λ _, v)).

(** An odd number, to prevent exactly 50/50 agreement. *)
Definition witness_count (d : database) : result Z :=
  let* root := isqrt (wrap_u32 (Z.of_nat (size (db_witnesses d)))) in
  let count := wrap_u32 (cp_witness_count_term (parameters d) + root) in
  Ok (if count mod 2 =? 0 then wrap_u32 (count + 1) else count).

Definition update_active_witnesses (buffer : list Z) (d : database) : result database :=
  let* d := rfold (update_witness_votes buffer) d (ids_of (db_witnesses d)) in
  let* count := witness_count d in
  let* all := candidates d wo_witness_account wo_vote_id (db_witnesses d) in
  let wits := sort_votable_objects (Z.max count (gv_min_witness_count (db_governance d))) all in
  let* d := modify_account d GRAPHENE_WITNESS_ACCOUNT (set_active (λ active,
    if head_block_time d <? HARDFORK_533_TIME then count_before_533 (score_votes wits) active
    else vc_finish (vc_count (score_votes wits)) active)) in
  Ok (set_gpo (set_active_witnesses (λ _, list_to_set (cd_id <$> wits))) d).

(** ** Committee members *)

Definition modify_committee_member (d : database) (id : Z)
    (f : committee_member_object → committee_member_object) : result database :=
  let* t := index_modify no_clash (db_committee_members d) id (λ c, Ok (f c)) in
  Ok (set_committee_members (λ _, t) d).

Definition update_committee_votes (buffer : list Z) (d : database) (c : candidate) : result database :=
  let* v := tally_at buffer (cd_vote_id c) in
  modify_committee_member d (cd_id c)
    (λ cm, mkCommitteeMember (cm_account cm) (cm_vote_id cm) v (cm_url cm)).

(** The committee's authority; before hard fork 533 made of the votes, then of
    the scores. *)
Definition update_committee_authority (buffer : list Z) (members : list candidate) (d : database)
    : result database :=
  let* votes := rmap (λ c, let* v := tally_at buffer (cd_vote_id c) in Ok (cd_account c, v)) members in
  let* d := modify_account d GRAPHENE_COMMITTEE_ACCOUNT (set_active (λ active,
    if head_block_time d <? HARDFORK_533_TIME then count_before_533 votes active
    else vc_finish (vc_count (score_votes members)) active)) in
  let* chairs := get_account d GRAPHENE_COMMITTEE_ACCOUNT in
  modify_account d GRAPHENE_RELAXED_COMMITTEE_ACCOUNT (set_active (λ _, ao_active chairs)).

Definition update_active_committee_members (buffer : list Z) (d : database) : result database :=
  let count := Z.max (cp_committee_count (parameters d)) (gv_min_committee_member_count (db_governance d)) in
  let* all := candidates d cm_account cm_vote_id (objs (db_committee_members d)) in
  let members := sort_votable_objects count all in
  let* d := rfold (update_committee_votes buffer) d members in
  let* d := match members with [] => Ok d | _ => update_committee_authority buffer members d end in
  Ok (set_gpo (set_active_committee (λ _, cd_id <$> members)) d).

(** ** Workers *)

Definition modify_worker (d : database) (id : Z) (f : worker_object → result worker_object)
    : result database :=
  let* t := index_modify no_clash (db_workers d) id f in
  Ok (set_workers (λ _, t) d).

Definition update_worker_votes_of (buffer : list Z) (d : database) (id : Z) : result database :=
  modify_worker d id (λ w,
    let* votes_for := tally_at buffer (wk_vote_for w) in
    let* votes_against :=
      if head_block_time d <? HARDFORK_607_TIME then tally_at buffer (wk_vote_against w) else Ok 0 in
    Ok (set_votes_against (λ _, votes_against) (set_votes_for (λ _, votes_for) w))).

Definition update_worker_votes (buffer : list Z) (d : database) : result database :=
  rfold (update_worker_votes_of buffer) d (ids_of (objs (db_workers d))).

(** ** Authorities of the largest holders *)

(** The balances of an asset, largest first, then by owner. *)
Definition holders (d : database) (aid : Z) : list (Z * Z) :=
  foldr (insert_before (λ a b, if a.2 =? b.2 then a.1 <? b.1 else b.2 <? a.2)) []
    ((λ kv, (kv.1.1, kv.2)) <$> filter (λ kv, kv.1.2 = aid) (map_to_list (db_balances d))).

Definition top_holders (d : database) (aid n self : Z) : list (Z * Z) :=
  take (Z.to_nat n) (filter (λ hb, hb.1 ≠ self) (holders d aid)).

Definition top_n_control_owner : Z := 1.
Definition top_n_control_active : Z := 2.

Definition update_top_n_authority (d : database) (id : Z) (is_owner : bool) (auth : special_authority)
    : result database :=
  match auth with
  | top_holders_special_authority aid n =>
      if n =? 0 then Ok d
      else
        let vc := vc_count (top_holders d aid n id) in
        let flag := if is_owner then top_n_control_owner else top_n_control_active in
        modify_account d id (λ a,
          let a := if is_owner then set_owner (vc_finish vc) a else set_active (vc_finish vc) a in
          if vc_is_empty vc then a else set_top_n_control_flags (λ f, Z.lor f flag) a)
  | no_special_authority => Ok d
  end.

Definition visit_special_authority (d : database) (sa : Z) : result database :=
  let* account := index_get (db_special_authorities d) sa in
  let* a := get_account d account in
  let* d := update_top_n_authority d account true (ao_owner_special_authority a) in
  update_top_n_authority d account false (ao_active_special_authority a).

Definition update_top_n_authorities (d : database) : result database :=
  rfold visit_special_authority d (ids_of (objs (db_special_authorities d))).
End operations.

(** ** Only the accounts, the elected objects and the global properties change *)

Definition only_elections (d d' : database) : Prop :=
  d' = set_governance (λ _, db_governance d') (set_gpo (λ _, db_gpo d')
         (set_witnesses (λ _, db_witnesses d') (set_accounts (λ _, db_accounts d') d))).

#[export] Instance only_elections_preorder : PreOrder only_elections.
Proof.
  split; [by intros []|]. intros d1 d2 d3 E1 E2. rewrite E1 in E2. exact E2.
Qed.

Lemma only_elections_conserves d d' : only_elections d d' → conserves d d'.
Proof. intros E. apply moves_intro; [by rewrite E..|]. intros. rewrite E, Z.add_0_r. done. Qed.

Lemma modify_account_elections d id f d' : modify_account d id f = Ok d' → only_elections d d'.
Proof. unfold modify_account. intros H. ok_inv. done. Qed.

Lemma rfold_elections {A} (f : database → A → result database) l d d' :
  (∀ d x d', f d x = Ok d' → only_elections d d') → rfold f d l = Ok d' → only_elections d d'.
Proof.
  intros Hf. apply rfold_invariant; [reflexivity|intros ???; apply transitivity|].
  intros a x b _. apply Hf.
Qed.

#[export] Hint Resolve modify_account_elections : chain.

(** ** Sorting *)

Lemma before_asym a b : before a b = true → before b a = false.
Proof.
  unfold before. destruct (Z.eqb_spec (cd_pop_score a) (cd_pop_score b)) as [E|E].
  - rewrite E, Z.eqb_refl. rewrite Z.ltb_lt, Z.ltb_ge. lia.
  - rewrite (proj2 (Z.eqb_neq _ _)) by congruence. rewrite Z.ltb_lt, Z.ltb_ge. lia.
Qed.

Lemma before_trans a b c : before a b = true → before b c = true → before a c = true.
Proof.
  unfold before. destruct (Z.eqb_spec (cd_pop_score a) (cd_pop_score b)),
    (Z.eqb_spec (cd_pop_score b) (cd_pop_score c)), (Z.eqb_spec (cd_pop_score a) (cd_pop_score c));
    rewrite ?Z.ltb_lt; lia.
Qed.

(** The chosen ones are of the list, as many as there are places, in order,
    and none of the others comes before one of them. *)
Lemma sort_votable_objects_ok count l (s := sort_votable_objects count l) : 0 <= count →
  Z.of_nat (length s) = Z.min count (Z.of_nat (length l)) ∧
  (∃ rest, s ++ rest ≡ₚ l) ∧ StronglySorted (not_after before) s ∧
  ∀ a b, a ∈ s → b ∈ l → b ∉ s → before b a = false.
Proof.
  intros Hc. set (o := foldr (insert_before before) [] l). set (n := Z.to_nat (Z.min count (Z.of_nat (length l)))).
  assert (o ≡ₚ l) as Hp by apply sort_perm.
  assert (StronglySorted (not_after before) o) as Hs.
  { apply (sort_sorted _ (λ _, True)); [..|by apply Forall_true]; intros; [by apply before_asym|by eapply before_trans]. }
  assert (s ++ drop n o = o) as Es by apply take_drop.
  split_and!.
  - subst s. unfold sort_votable_objects. rewrite length_take. fold o.
    rewrite (Permutation_length Hp). lia.
  - exists (drop n o). by rewrite Es.
  - rewrite <- Es in Hs. clear -Hs. induction s as [|x s IH]; [constructor|].
    simpl in Hs. apply StronglySorted_inv in Hs as [Hs Hx]. constructor; [by apply IH|].
    by apply Forall_app in Hx as [? _].
  - intros a b Ha Hb Hnb. rewrite <- Hp, <- Es in Hb. apply elem_of_app in Hb as [?|Hb]; [done|].
    apply list_elem_of_lookup in Ha as [i Hi]. apply list_elem_of_lookup in Hb as [j Hj].
    pose proof (lookup_lt_Some _ _ _ Hi). apply (strongly_sorted_lookup (not_after before) o i (length s + j)); [done|lia|..].
    + by rewrite <- Es, lookup_app_l.
    + rewrite <- Es, lookup_app_r by lia. by replace (length s + j - length s)%nat with j by lia.
Qed.

(** Falling votes, as [vote_counter] asks for. *)
Lemma score_votes_sorted l : StronglySorted (not_after before) l →
  StronglySorted (λ a b, b.2 <= a.2) (score_votes l).
Proof.
  unfold score_votes. induction 1 as [|a l Hs IH Ha]; simpl; constructor; [done|].
  apply Forall_fmap. eapply Forall_impl; [exact Ha|]. intros b. unfold not_after, before. simpl.
  destruct (Z.eqb_spec (cd_pop_score b) (cd_pop_score a)); [lia|]. rewrite Z.ltb_ge. lia.
Qed.

(** ** The active witnesses *)

(** The witness [id] as a candidate. *)
Definition witness_candidate (d : database) (id : Z) : option candidate :=
  w ← db_witnesses d !! id; a ← objs (db_accounts d) !! wo_witness_account w;
  Some (mkCandidate id (wo_witness_account w) (wo_vote_id w) (ao_pop_score a)).

Section properties.
Context {FC : FcArith} {BA : BoostArith}.

Lemma candidates_ok {V} d (account vote : V → Z) m l :
  candidates d account vote m = Ok l →
  cd_id <$> l = ids_of m ∧
  ∀ c, c ∈ l → ∃ v a, m !! cd_id c = Some v ∧ objs (db_accounts d) !! account v = Some a ∧
    c = mkCandidate (cd_id c) (account v) (vote v) (ao_pop_score a).
Proof.
  unfold candidates, get_account, index_get. intros H%rmap_ok.
  assert (Forall2 (λ id c, cd_id c = id ∧ ∃ v a, m !! id = Some v ∧ objs (db_accounts d) !! account v = Some a ∧
    c = mkCandidate id (account v) (vote v) (ao_pop_score a)) (ids_of m) l) as H'.
  { eapply Forall2_impl; [exact H|]. intros id c Hc. simpl in Hc. ok_inv. eauto 10. }
  split.
  - clear H. induction H' as [|id c ids l [<- _] _ IH]; [done|]. rewrite fmap_cons. by f_equal.
  - intros c Hc. apply list_elem_of_lookup in Hc as [i Hi].
    destruct (Forall2_lookup_r _ _ _ _ _ H' Hi) as (id & _ & <- & v & a & ? & ? & ->). eauto.
Qed.

(** Counting votes does not change who the witnesses are. *)
Definition same_witnesses (d d1 : database) : Prop :=
  d1 = set_witnesses (λ _, db_witnesses d1) d ∧
  (λ w, (wo_witness_account w, wo_vote_id w)) <$> db_witnesses d1 =
  (λ w, (wo_witness_account w, wo_vote_id w)) <$> db_witnesses d.

Lemma update_witness_votes_same buffer d d1 :
  rfold (update_witness_votes buffer) d (ids_of (db_witnesses d)) = Ok d1 → same_witnesses d d1.
Proof.
  apply (rfold_invariant _ same_witnesses).
  - intros []. done.
  - intros d0 d2 d3 [E1 K1] [E2 K2]. split; [rewrite E1 in E2; exact E2|by rewrite K2].
  - intros d0 wid d2 _ H. unfold update_witness_votes, modify_witness, get_witness in H. ok_inv.
    split; [done|]. simpl. rewrite fmap_insert. apply insert_id. rewrite lookup_fmap.
    match goal with H : db_witnesses _ !! _ = Some _ |- _ => by rewrite H end.
Qed.

Lemma same_witnesses_candidate d d1 id : same_witnesses d d1 → witness_candidate d1 id = witness_candidate d id.
Proof.
  intros [E K]. unfold witness_candidate.
  assert ((λ w, (wo_witness_account w, wo_vote_id w)) <$> db_witnesses d1 !! id =
          (λ w, (wo_witness_account w, wo_vote_id w)) <$> db_witnesses d !! id) as Ki.
  { by rewrite <- !lookup_fmap, K. }
  assert (db_accounts d1 = db_accounts d) as -> by (by rewrite E).
  destruct (db_witnesses d1 !! id), (db_witnesses d !! id); simpl in *; [|done..].
  injection Ki as -> ->. done.
Qed.

Lemma same_witnesses_size d d1 : same_witnesses d d1 → size (db_witnesses d1) = size (db_witnesses d).
Proof.
  intros [_ K]. rewrite <- (map_size_fmap (λ w, (wo_witness_account w, wo_vote_id w))), K.
  apply map_size_fmap.
Qed.

(** The number of places: odd, around the square root of the candidates. *)
Lemma witness_count_ok d :
  Z.of_nat (size (db_witnesses d)) < 2 ^ 32 →
  0 <= cp_witness_count_term (parameters d) < 2 ^ 31 →
  let n := cp_witness_count_term (parameters d) + Z.sqrt (Z.of_nat (size (db_witnesses d))) in
  witness_count d = Ok (if Z.even n then n + 1 else n).
Proof.
  intros Hs Ht n. unfold witness_count. rewrite wrap_u32_small, isqrt_ok by lia. cbn [rbind].
  assert (Z.sqrt (Z.of_nat (size (db_witnesses d))) < 2 ^ 16) by (apply Z.sqrt_lt_square; lia).
  pose proof (Z.sqrt_nonneg (Z.of_nat (size (db_witnesses d)))).
  rewrite wrap_u32_small by lia. fold n. rewrite Zmod_even.
  destruct (Z.even n); [|done]. simpl. by rewrite wrap_u32_small by lia.
Qed.

(** Choosing among the candidates that [f] lists: the ids of the chosen. *)
Lemma elected_ok (f : Z → option candidate) l count (s := sort_votable_objects count l)
    (A : gset Z := list_to_set (cd_id <$> s)) :
  0 <= count → NoDup (cd_id <$> l) → (∀ c, c ∈ l → f (cd_id c) = Some c) →
  (∀ j c, f j = Some c → j ∈ cd_id <$> l) →
  Z.of_nat (size A) = Z.min count (Z.of_nat (length l)) ∧
  (∀ i, i ∈ A → is_Some (f i)) ∧
  (∀ i j ci cj, i ∈ A → j ∉ A → f i = Some ci → f j = Some cj → before cj ci = false) ∧
  (∀ k v, (k, v) ∈ score_votes s ↔ ∃ i c, i ∈ A ∧ f i = Some c ∧ k = cd_account c ∧ v = cd_pop_score c).
Proof.
  intros Hcount Hnd Hf Hl.
  destruct (sort_votable_objects_ok count l Hcount) as (Hlen & (rest & Hperm) & _ & Hbest). fold s in Hlen, Hperm, Hbest.
  assert (∀ c, c ∈ s → c ∈ l) as Hsl by (intros c Hc; rewrite <- Hperm; apply elem_of_app; by left).
  assert (∀ i, i ∈ A ↔ ∃ c, c ∈ s ∧ f i = Some c) as HA.
  { intros i. unfold A. rewrite elem_of_list_to_set, list_elem_of_fmap. split.
    - intros (c & -> & Hc). exists c. split; [done|]. by apply Hf, Hsl.
    - intros (c & Hc & Hi). exists c. split; [|done].
      apply Hl in Hi as Hil. apply list_elem_of_fmap in Hil as (c' & -> & Hc').
      rewrite (Hf c') in Hi by done. by injection Hi as ->. }
  split_and!.
  - unfold A. rewrite size_list_to_set; [by rewrite length_fmap|].
    rewrite <- Hperm, fmap_app in Hnd. by apply NoDup_app in Hnd as [? _].
  - intros i (c & _ & ?)%HA. eauto.
  - intros i j ci cj (c & Hc & Hi)%HA Hj Hi' Hj'. rewrite Hi in Hi'. injection Hi' as <-.
    apply Hbest; [done| |].
    + apply Hl in Hj' as Hjl. apply list_elem_of_fmap in Hjl as (c' & -> & Hc').
      rewrite (Hf c') in Hj' by done. by injection Hj' as <-.
    + intros Hin. apply Hj, HA. eauto.
  - intros k v. unfold score_votes. rewrite list_elem_of_fmap. split.
    + intros (c & [= -> ->] & Hc). exists (cd_id c), c. split_and!; [|by apply Hf, Hsl|done..].
      apply HA. exists c. split; [done|]. by apply Hf, Hsl.
    + intros (i & c & (c' & Hc' & Hi)%HA & Hi' & -> & ->). rewrite Hi in Hi'. injection Hi' as ->. eauto.
Qed.

(** C27.  The elected witnesses.  The number of witnesses asked for is odd:
    the odd number next above the square root of the number of candidates
    plus the constant of the chain parameters, or the minimum of the chain,
    which genesis asserts to be odd, where that is larger; and where there
    are that many candidates, that many are active.  No witness left out has
    a better score of Proof of Participation, or the same score and a smaller
    vote id, than an active one.  The witness account is governed by the
    active ones, counted by [vote_counter] in falling order of their scores,
    and nothing else changes but the votes shown for witnesses. *)
Theorem active_witnesses_correct buffer d d' :
  Z.of_nat (size (db_witnesses d)) < 2 ^ 32 → 0 <= cp_witness_count_term (parameters d) < 2 ^ 31 →
  Z.odd (gv_min_witness_count (db_governance d)) = true →
  update_active_witnesses buffer d = Ok d' →
  let n := cp_witness_count_term (parameters d) + Z.sqrt (Z.of_nat (size (db_witnesses d))) in
  let places := if Z.even n then n + 1 else n in
  let active := gp_active_witnesses (db_gpo d') in
  let wanted := Z.max places (gv_min_witness_count (db_governance d)) in
  only_elections d d' ∧ Z.odd wanted = true ∧
  (wanted <= Z.of_nat (size (db_witnesses d)) → Z.of_nat (size active) = wanted) ∧
  (∀ i, i ∈ active → is_Some (witness_candidate d i)) ∧
  (∀ i j ci cj, i ∈ active → j ∉ active → witness_candidate d i = Some ci →
     witness_candidate d j = Some cj → before cj ci = false) ∧
  ∃ votes a, StronglySorted (λ a b, b.2 <= a.2) votes ∧
    (∀ k v, (k, v) ∈ votes ↔ ∃ i c, i ∈ active ∧ witness_candidate d i = Some c ∧
       k = cd_account c ∧ v = cd_pop_score c) ∧
    objs (db_accounts d) !! GRAPHENE_WITNESS_ACCOUNT = Some a ∧
    objs (db_accounts d') !! GRAPHENE_WITNESS_ACCOUNT = Some (set_active (λ active,
      if head_block_time d <? HARDFORK_533_TIME then count_before_533 votes active
      else vc_finish (vc_count votes) active) a).
Proof.
  intros Hsz Hterm Hmin H n places active wanted. unfold update_active_witnesses in H.
  apply rbind_ok in H as (d1 & H1 & H). apply update_witness_votes_same in H1.
  pose proof (same_witnesses_size _ _ H1) as Es. pose proof H1 as [E1 _].
  assert (parameters d1 = parameters d ∧ db_governance d1 = db_governance d ∧
    head_block_time d1 = head_block_time d ∧ db_accounts d1 = db_accounts d) as (Ep & Eg & Et & Ea)
    by (by rewrite E1).
  rewrite witness_count_ok in H by (rewrite ?Es, ?Ep; lia). rewrite Es, Ep in H. fold n in H. fold places in H.
  cbn [rbind] in H. rewrite Eg in H. apply rbind_ok in H as (l & Hl & H). apply candidates_ok in Hl as [Hids Hc].
  change (Z.max places _) with wanted in H. apply rbind_ok in H as (d2 & Hm & [= <-]).
  assert (0 <= wanted) as Hcount.
  { subst wanted places. pose proof (Z.sqrt_nonneg (Z.of_nat (size (db_witnesses d)))). destruct (Z.even n); lia. }
  destruct (elected_ok (witness_candidate d) l wanted Hcount) as (Hn & Hsome & Hbest & Hvotes).
  { rewrite Hids. apply NoDup_ids_of. }
  { intros c (w & a & Hw & Hacc & ->)%Hc. rewrite <- (same_witnesses_candidate _ _ _ H1). unfold witness_candidate.
    cbn [cd_id]. rewrite Hw. cbn [option_bind]. simpl. rewrite Hacc. done. }
  { intros j c Hj. rewrite Hids, elem_of_ids_of. rewrite <- (same_witnesses_candidate _ _ _ H1) in Hj.
    unfold witness_candidate in Hj. destruct (db_witnesses d1 !! j); [eauto|done]. }
  assert (length l = size (db_witnesses d)) as Ell.
  { by rewrite <- Es, <- length_ids_of, <- Hids, length_fmap. }
  rewrite Ell in Hn. unfold modify_account, get_account, index_get in Hm. rewrite Ea in Hm. ok_inv.
  split_and!; [by rewrite E1| | |done..|].
  - subst wanted. destruct (Z.max_spec places (gv_min_witness_count (db_governance d))) as [[_ ->]|[_ ->]]; [done|].
    subst places. rewrite <- Z.negb_even.
    destruct (Z.even n) eqn:E; [|by rewrite E]. by rewrite Z.even_add, E.
  - intros Henough. etransitivity; [exact Hn|]. lia.
  - exists (score_votes (sort_votable_objects wanted l)). eexists. split_and!.
    + apply score_votes_sorted. by apply sort_votable_objects_ok.
    + done.
    + done.
    + simpl. by rewrite Ea, lookup_insert_eq, Et.
Qed.
End properties.

(** Alice (better score) and Bob stand for election. *)
Definition election_db : database :=
  set_witnesses (λ _, list_to_map [(0, mkWitness alice 0 None 1 0 90 5 77 0 "");
                                   (1, mkWitness bob 0 None 257 0 90 5 78 0 "")])
    (set_accounts (λ t, mkTable (<[GRAPHENE_WITNESS_ACCOUNT := sample_account "witness-account" 1]>
       (<[alice := set_pop_score (λ _, 3000) (sample_account "alice" alice)]> (objs t))) (next_id t)) sample_db).

(** The same with one place: the constant is 0 and the minimum 1. *)
Definition single_seat_db : database :=
  set_gpo (set_parameters (ltac:(field_setter params_eta cp_witness_count_term) (λ _, 0)))
    (set_governance (ltac:(field_setter governance_eta gv_min_witness_count) (λ _, 1)) election_db).

Lemma active_witnesses_correct_witness :
  ∃ d', update_active_witnesses (BA := boost_reference) [700; 300] single_seat_db = Ok d' ∧
    Z.of_nat (size (gp_active_witnesses (db_gpo d'))) = 1 ∧ 0 ∈ gp_active_witnesses (db_gpo d').
Proof.
  set (d' := get_ok (update_active_witnesses (BA := boost_reference) [700; 300] single_seat_db) single_seat_db).
  assert (update_active_witnesses (BA := boost_reference) [700; 300] single_seat_db = Ok d') as E
    by (apply get_ok_eq; vm_compute; reflexivity).
  destruct (active_witnesses_correct (BA := boost_reference) [700; 300] single_seat_db d')
    as (_ & _ & Hsize & _); [vm_compute; reflexivity|vm_compute; split; congruence|reflexivity|exact E|].
  exists d'. split; [exact E|]. split; [apply Hsize; vm_compute; congruence|].
  apply (bool_decide_unpack _). vm_compute. exact I.
Defined.

(** ** The tally *)

(** How many of the votes are for [i]. *)
Definition votes_for (i : nat) (votes : gset Z) : Z :=
  Z.of_nat (length (filter (λ v, Z.to_nat (vote_instance v) = i) (flat_elements votes))).

(** A ballot: a stake and the votes it counts for. *)
Definition sum_ballots (i : nat) (l : list (Z * gset Z)) : Z :=
  foldr (λ b acc, b.1 * votes_for i b.2 + acc) 0 l.
Definition sum_stakes (l : list (Z * gset Z)) : Z := foldr (λ b acc, b.1 + acc) 0 l.

Definition opinions (d : database) : gmap Z (Z * gset Z) :=
  (λ a, (ao_voting_account a, ao_votes a)) <$> objs (db_accounts d).

(** The votes that the stake of account [id] counts for. *)
Definition opinion_of (d : database) (id : Z) : option (gset Z) :=
  p ← opinions d !! id;
  if p.1 =? GRAPHENE_PROXY_TO_SELF_ACCOUNT then Some p.2 else snd <$> opinions d !! p.1.

Section tally_properties.
Context {FC : FcArith} {BA : BoostArith}.

Lemma modify_account_opinions d id f d' :
  modify_account d id f = Ok d' →
  (∀ a, ao_voting_account (f a) = ao_voting_account a ∧ ao_votes (f a) = ao_votes a) →
  opinions d' = opinions d ∧ dom (objs (db_accounts d')) = dom (objs (db_accounts d)).
Proof.
  unfold modify_account, get_account, index_get. intros H Hf. ok_inv. unfold opinions. simpl.
  rewrite fmap_insert, dom_insert_L. split.
  - match goal with H : objs _ !! _ = Some ?a |- _ => destruct (Hf a) as [-> ->];
      apply insert_id; by rewrite lookup_fmap, H end.
  - match goal with H : objs _ !! _ = Some _ |- _ => apply elem_of_dom_2 in H end. set_solver.
Qed.

Lemma deposit_cashback_opinions d acct x rv ty d' :
  deposit_cashback d acct x rv ty = Ok d' →
  opinions d' = opinions d ∧ dom (objs (db_accounts d')) = dom (objs (db_accounts d)).
Proof.
  unfold deposit_cashback. intros H. apply rbind_ok in H as (a & _ & H).
  destruct (x =? 0); [by injection H as <-|]. destruct (is_reserved_account acct).
  - unfold modify_asset_dyn in H. by ok_inv.
  - apply rbind_ok in H as ([nv d1] & H1 & H).
    assert (db_accounts d1 = db_accounts d) as E.
    { unfold deposit_lazy_vesting in H1. repeat (case_in H1 || ok_inv); done. }
    unfold opinions in *. rewrite <- E. destruct nv as [v|]; [|by injection H as <-].
    apply (modify_account_opinions _ _ _ _ H). intros b. by destruct ty.
Qed.

Lemma pay_out_fees_opinions d a x rv d' :
  pay_out_fees d a x rv = Ok d' →
  opinions d' = opinions d ∧ dom (objs (db_accounts d')) = dom (objs (db_accounts d)).
Proof.
  unfold pay_out_fees. intros H. apply rbind_ok in H as (cut & _ & H). apply rbind_ok in H as (ref & _ & H).
  apply rbind_ok in H as (d1 & H1 & H). apply rbind_ok in H as (rc & _ & H). apply rbind_ok in H as (gc & _ & H).
  apply rbind_ok in H as (d2 & [E2 D2]%deposit_cashback_opinions & [E3 D3]%deposit_cashback_opinions).
  rewrite E3, D3, E2, D2. unfold modify_asset_dyn in H1. by ok_inv.
Qed.

Lemma process_fees_opinions d st id d' :
  process_fees d st id = Ok d' →
  opinions d' = opinions d ∧ dom (objs (db_accounts d')) = dom (objs (db_accounts d)).
Proof.
  unfold process_fees. intros H. apply rbind_ok in H as (s & _ & H). apply rbind_ok in H as (a & _ & H).
  case_match; [|by injection H as <-].
  apply rbind_ok in H as (d1 & [E1 D1]%pay_out_fees_opinions & H).
  apply rbind_ok in H as (d2 & [E2 D2]%pay_out_fees_opinions & H).
  rewrite <- E1, <- E2, <- D1, <- D2. unfold modify_statistics in H. by ok_inv.
Qed.

Lemma wrap_u64_add a b : wrap_u64 (wrap_u64 a + b) = wrap_u64 (a + b).
Proof. unfold wrap_u64. apply Zplus_mod_idemp_l. Qed.

Lemma foldl_add_vote stake l buffer :
  length (foldl (add_vote stake) buffer l) = length buffer ∧
  ∀ i v, buffer !! i = Some v → 0 <= v < 2 ^ 64 → foldl (add_vote stake) buffer l !! i =
    Some (wrap_u64 (v + stake * Z.of_nat (length (filter (λ v, Z.to_nat (vote_instance v) = i) l)))).
Proof.
  revert buffer. induction l as [|x l IH]; intros buffer; cbn [foldl].
  { split; [done|]. intros i v -> Hv. simpl. by rewrite Z.mul_0_r, Z.add_0_r, wrap_u64_small. }
  destruct (IH (add_vote stake buffer x)) as [Hl Hi]. replace (length (add_vote stake buffer x)) with (length buffer) in Hl by (symmetry; apply length_alter).
  split; [done|]. intros i v Hv Hb. rewrite filter_cons. destruct (decide (Z.to_nat (vote_instance x) = i)) as [E|E].
  - erewrite Hi; [|unfold add_vote; rewrite E, list_lookup_alter_eq, Hv; reflexivity|apply wrap_u64_range].
    rewrite wrap_u64_add. cbn [length]. do 2 f_equal. lia.
  - apply Hi; [|done]. unfold add_vote. by rewrite list_lookup_alter_ne.
Qed.

Lemma opinion_account_of d id a o :
  objs (db_accounts d) !! id = Some a → opinion_account d a = Ok o → opinion_of d id = Some (ao_votes o).
Proof.
  intros Ha. unfold opinion_account, opinion_of, opinions, get_account, index_get. rewrite lookup_fmap, Ha. simpl.
  destruct (ao_voting_account a =? GRAPHENE_PROXY_TO_SELF_ACCOUNT); [by intros [= <-]|].
  intros H. apply of_option_ok in H. by rewrite lookup_fmap, H.
Qed.

(** The ballots of a run over [ids]. *)
Lemma account_maintenance_ballots ids d t d' t' :
  rfold account_maintenance (d, t) ids = Ok (d', t') →
  ∃ ballots, Forall2 (λ id b, opinion_of d id = Some b.2 ∧ 0 <= b.1 < 2 ^ 64) ids ballots ∧
    opinions d' = opinions d ∧ length (vote_tally_buffer t') = length (vote_tally_buffer t) ∧
    (∀ i v, vote_tally_buffer t !! i = Some v → 0 <= v < 2 ^ 64 →
       vote_tally_buffer t' !! i = Some (wrap_u64 (v + sum_ballots i ballots))) ∧
    (0 <= total_voting_stake t < 2 ^ 64 →
     total_voting_stake t' = wrap_u64 (total_voting_stake t + sum_stakes ballots)).
Proof.
  revert d t. induction ids as [|id ids IH]; intros d t H; cbn [rfold] in H.
  { injection H as <- <-. exists []. split_and!; [constructor|done..| |].
    - intros i v -> Hv. simpl. by rewrite Z.add_0_r, wrap_u64_small.
    - intros Hv. simpl. by rewrite Z.add_0_r, wrap_u64_small. }
  apply rbind_ok in H as ([d1 t1] & H1 & H). unfold account_maintenance in H1. cbn [fst snd] in H1.
  apply rbind_ok in H1 as (t2 & Ht & H1). apply rbind_ok in H1 as (a & Ha & H1).
  apply rbind_ok in H1 as (d2 & Hf & [= -> ->]). apply process_fees_opinions in Hf as [Eo _].
  unfold vote_tally_helper in Ht. rewrite Ha in Ht. cbn [rbind] in Ht.
  apply rbind_ok in Ht as (o & Ho & Ht). apply rbind_ok in Ht as (stake & Hs & [= <-]).
  unfold get_account, index_get in Ha. apply of_option_ok in Ha.
  apply IH in H as (ballots & Hb & Eo' & Hl & Hi & Htot). cbn [vote_tally_buffer total_voting_stake] in *.
  assert (0 <= stake < 2 ^ 64) as Hst.
  { unfold voting_stake in Hs. ok_inv. apply wrap_u64_range. }
  destruct (foldl_add_vote stake (flat_elements (ao_votes o)) (vote_tally_buffer t)) as [Hl2 Hi2].
  exists ((stake, ao_votes o) :: ballots). split_and!.
  - constructor; [split; [by eapply opinion_account_of|done]|].
    eapply Forall2_impl; [exact Hb|]. intros j b. unfold opinion_of. by rewrite Eo.
  - by rewrite Eo', Eo.
  - by rewrite Hl, Hl2.
  - intros i v Hv Hvb. erewrite Hi; [|by apply Hi2|apply wrap_u64_range]. rewrite wrap_u64_add.
    do 2 f_equal.
    change (sum_ballots i ((stake, ao_votes o) :: ballots))
      with (stake * votes_for i (ao_votes o) + sum_ballots i ballots).
    unfold votes_for. lia.
  - intros Hv. rewrite Htot by apply wrap_u64_range. rewrite wrap_u64_add. f_equal.
    unfold sum_stakes. simpl. lia.
Qed.

Lemma accounts_by_name_perm d : accounts_by_name d ≡ₚ ids_of (objs (db_accounts d)).
Proof.
  unfold accounts_by_name. rewrite sort_perm. symmetry. unfold ids_of, flat_elements. rewrite sort_perm.
  apply NoDup_Permutation; [apply NoDup_elements|apply NoDup_fst_map_to_list|].
  intros k. rewrite elem_of_elements, elem_of_dom, list_elem_of_fmap. split.
  - intros [v Hv]. exists (k, v). split; [done|]. by apply elem_of_map_to_list.
  - intros ([k' v] & -> & Hv%elem_of_map_to_list). eauto.
Qed.

(** The tally.  However fees are distributed while the votes are
    counted: every account casts exactly one ballot, with the votes it or the
    account it follows has, and every place of the result is the sum, in 64
    bits, of the stakes times the votes for it; votes out of range count for
    nothing, and the total is the sum of all stakes. *)
Theorem vote_tally_correct d d' t :
  0 <= gp_next_available_vote_id (db_gpo d) →
  perform_account_maintenance d = Ok (d', t) →
  ∃ ids ballots, ids ≡ₚ ids_of (objs (db_accounts d)) ∧
    Forall2 (λ id b, opinion_of d id = Some b.2 ∧ 0 <= b.1 < 2 ^ 64) ids ballots ∧
    opinions d' = opinions d ∧
    Z.of_nat (length (vote_tally_buffer t)) = gp_next_available_vote_id (db_gpo d) ∧
    (∀ i, (i < length (vote_tally_buffer t))%nat →
       vote_tally_buffer t !! i = Some (wrap_u64 (sum_ballots i ballots))) ∧
    total_voting_stake t = wrap_u64 (sum_stakes ballots).
Proof.
  intros Hn H. unfold perform_account_maintenance in H.
  apply account_maintenance_ballots in H as (ballots & Hb & Ho & Hl & Hi & Ht).
  cbn [vote_tally_buffer total_voting_stake new_tally] in *. rewrite length_replicate in Hl.
  exists (accounts_by_name d), ballots. split_and!; [apply accounts_by_name_perm|done|done|lia| |].
  - intros i Hlt. apply (Hi i 0); [|lia]. apply lookup_replicate_2. lia.
  - apply Ht. lia.
Qed.
End tally_properties.

(** Bob follows Alice, who votes for the first witness. *)
Definition voting_db : database :=
  set_accounts (λ t, mkTable (alter (λ a, set_voting_account (λ _, alice) a) bob
    (alter (set_votes (λ _, {[ 1 ]})) alice (objs t))) (next_id t)) sample_db.

Lemma vote_tally_correct_witness :
  ∃ d' t, perform_account_maintenance (FC := fc_reference) voting_db = Ok (d', t) ∧
    length (vote_tally_buffer t) = 8%nat ∧ vote_tally_buffer t !! 0%nat = Some 1002000.
Proof.
  set (r := get_ok (perform_account_maintenance (FC := fc_reference) voting_db) (voting_db, mkTally [] 0)).
  assert (perform_account_maintenance (FC := fc_reference) voting_db = Ok (r.1, r.2)) as E
    by (rewrite <- surjective_pairing; apply get_ok_eq; vm_compute; reflexivity).
  destruct (vote_tally_correct (FC := fc_reference) voting_db r.1 r.2) as (_ & _ & _ & _ & _ & Hl & _);
    [vm_compute; congruence|exact E|].
  exists r.1, r.2. split; [exact E|]. split; [|vm_compute; reflexivity].
  vm_compute in Hl |- *. lia.
Defined.

(** ** The elections move no funds *)

Section frame.
Context {FC : FcArith} {BA : BoostArith}.

Lemma update_active_witnesses_frame buffer d d' :
  update_active_witnesses buffer d = Ok d' → only_elections d d'.
Proof.
  unfold update_active_witnesses. intros H. apply rbind_ok in H as (d1 & H1 & H).
  apply rbind_ok in H as (count & _ & H). apply rbind_ok in H as (all & _ & H).
  apply rbind_ok in H as (d2 & H2 & [= <-]). transitivity d1; [|transitivity d2; [eauto with chain|done]].
  revert H1. apply rfold_elections. intros d0 x d3 H. unfold update_witness_votes, modify_witness in H. by ok_inv.
Qed.

Lemma update_active_committee_frame buffer d d' :
  update_active_committee_members buffer d = Ok d' → only_elections d d'.
Proof.
  unfold update_active_committee_members. intros H. apply rbind_ok in H as (all & _ & H).
  apply rbind_ok in H as (d1 & H1 & H). apply rbind_ok in H as (d2 & H2 & [= <-]).
  transitivity d1; [|transitivity d2; [|done]].
  - revert H1. apply rfold_elections. intros d0 c d3 H.
    unfold update_committee_votes, modify_committee_member in H. by ok_inv.
  - destruct (sort_votable_objects _ _); [by injection H2 as <-|].
    unfold update_committee_authority in H2. apply rbind_ok in H2 as (v & _ & H2).
    apply rbind_ok in H2 as (d3 & H3 & H2). apply rbind_ok in H2 as (a & _ & H2).
    transitivity d3; eauto with chain.
Qed.

Lemma update_worker_votes_frame buffer d d' : update_worker_votes buffer d = Ok d' → only_elections d d'.
Proof.
  apply rfold_elections. intros d0 x d3 H. unfold update_worker_votes_of, modify_worker in H. by ok_inv.
Qed.

Lemma update_top_n_frame d d' : update_top_n_authorities d = Ok d' → only_elections d d'.
Proof.
  apply rfold_elections. intros d0 x d3 H. unfold visit_special_authority in H.
  apply rbind_ok in H as (acc & _ & H). apply rbind_ok in H as (a & _ & H).
  apply rbind_ok in H as (d1 & H1 & H).
  assert (∀ d id b auth d', update_top_n_authority d id b auth = Ok d' → only_elections d d') as Hu.
  { intros e id b [|aid n] e' He; simpl in He; [by injection He as <-|].
    destruct (n =? 0); [by injection He as <-|eauto with chain]. }
  transitivity d1; eauto.
Qed.

Lemma update_account_scores_frame buffer d d' : update_account_scores buffer d = Ok d' → only_elections d d'.
Proof.
  unfold update_account_scores. intros H. apply rbind_ok in H as (m & _ & H).
  apply rbind_ok in H as (d1 & H1 & H). apply rbind_ok in H as (mx & _ & H). transitivity d1.
  - revert H1. apply rfold_elections. intros d0 x d3 H1. unfold update_witness_scores in H1.
    apply rbind_ok in H1 as (w & _ & H1). apply rbind_ok in H1 as (a & _ & H1).
    apply rbind_ok in H1 as (v & _ & H1). apply rbind_ok in H1 as ([t r] & _ & H1).
    case_match; [eauto with chain|by injection H1 as <-].
  - revert H. apply rfold_elections. intros d0 x d3 H. unfold update_scores_of in H.
    apply rbind_ok in H as (a & _ & H). apply rbind_ok in H as (b & _ & H).
    case_match; [eauto with chain|by injection H as <-].
Qed.
End frame.
