(* ===== verification/Budget.v ===== *)
(** * The maintenance budget ([db_maint.cpp], [worker_evaluator.cpp])

    [initialize_budget_record] and [process_budget]: how much of the reserve
    of the core asset is released at maintenance, and its distribution to
    witnesses and workers; [pay_workers] and the kinds of workers. *)

From stdpp Require Import gmap strings list.
From Stdlib Require Import ZArith Lia Sorting.Sorted.
From S2P Require Import Prelude Fc Config Asset VestingBalance Objects Database Sample Balances Market MarketProps MarketSteps Elections.

Local Open Scope Z_scope.

Section operations.
Context {FC : FcArith}.

(** ** Workers *)

(** [pay_worker] of the three kinds of workers. *)
Definition pay_worker (d : database) (pay : Z) (w : worker_type) : result (database * worker_type) :=
  match w with
  | refund_worker_type total_burned =>
      let* t := safe_add total_burned pay in
      let* core := get_core_asset d in
      let* d := modify_asset_dyn d (as_dynamic_asset_data_id core)
        (λ s, let* c := safe_sub (dd_current_supply s) pay in Ok (set_current_supply (λ _, c) s)) in
      Ok (d, refund_worker_type t)
  | vesting_balance_worker_type balance =>
      let* t := index_modify no_clash (db_vesting d) balance
        (λ b, vb_deposit b (head_block_time d) (core_asset pay)) in
      Ok (set_vesting (λ _, t) d, w)
  | burn_worker_type total_burned =>
      let* t := safe_add total_burned pay in
      let* d := adjust_balance d GRAPHENE_NULL_ACCOUNT (core_asset pay) in
      Ok (d, burn_worker_type t)
  end.

Definition approving_stake (w : worker_object) : Z :=
  wrap_i64 (wrap_i64 (wk_total_votes_for w) - wrap_i64 (wk_total_votes_against w)).

(** More votes first; on a tie the lower id. *)
Definition preferred (a b : Z * worker_object) : bool :=
  if approving_stake a.2 =? approving_stake b.2 then a.1 <? b.1
  else approving_stake b.2 <? approving_stake a.2.

Definition active_workers (d : database) : list (Z * worker_object) :=
  in_order preferred (filter (λ kw, is_active kw.2 (head_block_time d) = true ∧ 0 < approving_stake kw.2)
    (objs (db_workers d))).

(** Seconds since the last budget. *)
Definition budget_seconds (d : database) : Z :=
  time_sub_seconds (head_block_time d) (dg_last_budget_time (db_dgpo d)).

Definition microseconds (seconds : Z) : Z := seconds * 1000000.
Definition one_day : Z := 60 * 60 * 24.

Definition requested_pay (d : database) (w : worker_object) : result Z :=
  if budget_seconds d =? one_day then Ok (wk_daily_pay w)
  else
    let pay := u128_mul (u128_of_i64 (wk_daily_pay w)) (u128_of_i64 (microseconds (budget_seconds d))) in
    let* pay := u128_div pay (microseconds one_day) in
    let* pay := u128_to_uint64 pay in
    Ok (wrap_i64 pay).

(** One round of the loop; it ends when the budget is used up. *)
Definition pay_next_worker (s : database * Z) (iw : Z * worker_object) : result (database * Z) :=
  let (d, budget) := s in
  if budget <=? 0 then Ok s
  else
    let* requested := requested_pay d iw.2 in
    let actual_pay := Z.min budget requested in
    let* w := index_get (db_workers d) iw.1 in
    let* (d, kind) := pay_worker d actual_pay (wk_worker w) in
    let* d := modify_worker d iw.1 (λ w, Ok (set_worker (λ _, kind) w)) in
    let* budget := safe_sub budget actual_pay in
    Ok (d, budget).

Definition pay_workers (d : database) (budget : Z) : result (database * Z) :=
  rfold pay_next_worker (d, budget) (active_workers d).

(** ** The budget *)

(** [asset_object::reserved]. *)
Definition reserved (a : asset_object) (dyn : asset_dynamic_data_object) : result Z :=
  safe_sub (as_max_supply a) (dd_current_supply dyn).

(** The part of the reserve released in [dt] seconds, rounded up. *)
Definition release_of (reserve dt : Z) : result Z :=
  let budget := u128_mul (u128_mul (u128_of_i64 reserve) (wrap_u64 dt)) GRAPHENE_CORE_ASSET_CYCLE_RATE in
  let budget := u128_shr (u128_add budget (2 ^ GRAPHENE_CORE_ASSET_CYCLE_RATE_BITS - 1))
                  GRAPHENE_CORE_ASSET_CYCLE_RATE_BITS in
  if budget <? u128_of_i64 reserve then let* b := u128_to_uint64 budget in Ok (wrap_i64 b)
  else Ok reserve.

Definition initialize_budget_record (d : database) (now : Z) : result budget_record :=
  let* core := get_core_asset d in
  let* dyn := get_asset_dyn d (as_dynamic_asset_data_id core) in
  let* r := reserved core dyn in
  let fees := dd_accumulated_fees dyn in
  let unused := dg_witness_budget (db_dgpo d) in
  let last := dg_last_budget_time (db_dgpo d) in
  if (last =? 0) || (now <=? last) then Ok (mkBudget 0 r fees unused 0 0 0 0 0 0)
  else
    let dt := time_sub_seconds now last in
    let* reserve := safe_add r fees in
    let* reserve := safe_add reserve unused in
    let* total := release_of reserve dt in
    Ok (mkBudget (wrap_u64 dt) r fees unused 0 total 0 0 0 0).

(** Blocks until the next maintenance. *)
Definition blocks_to_maint (d : database) : result Z :=
  let interval := cp_block_interval (parameters d) in
  let time_to_maint := wrap_u64 (time_sub_seconds (dg_next_maintenance_time (db_dgpo d)) (head_block_time d)) in
  if interval =? 0 then Throw undefined_behaviour
  else Ok (wrap_u64 (wrap_u64 (time_to_maint + interval) - 1) / interval).

(** What the parameters ask for the workers until then, at most what is left. *)
Definition worker_budget_of (d : database) (available : Z) : result Z :=
  let time_to_maint := wrap_u64 (time_sub_seconds (dg_next_maintenance_time (db_dgpo d)) (head_block_time d)) in
  let* b := u128_div (u128_mul (u128_of_i64 (cp_worker_budget_per_day (parameters d))) time_to_maint) one_day in
  if u128_of_i64 available <=? b then Ok available
  else let* b := u128_to_uint64 b in Ok (wrap_i64 b).

Definition process_budget (d : database) : result database :=
  let now := head_block_time d in
  let* core := get_core_asset d in
  let* _ := get_asset_dyn d (as_dynamic_asset_data_id core) in
  let* blocks := blocks_to_maint d in
  let* rec := initialize_budget_record d now in
  let requested := wrap_i64 (wrap_u64 (cp_witness_pay_per_block (parameters d) * blocks)) in
  let witness_budget := Z.min requested (br_total_budget rec) in
  let* available := safe_sub (br_total_budget rec) witness_budget in
  let* worker_budget := worker_budget_of d available in
  let* available := safe_sub available worker_budget in
  let* (d, leftover) := pay_workers d worker_budget in
  let* _ := safe_add available leftover in
  let* delta := safe_add witness_budget worker_budget in
  let* delta := safe_sub delta leftover in
  let* delta := safe_sub delta (br_from_accumulated_fees rec) in
  let* delta := safe_sub delta (br_from_unused_witness_budget rec) in
  let* d := modify_asset_dyn d (as_dynamic_asset_data_id core)
    (λ s, let* c := safe_add (dd_current_supply s) delta in
          Ok (set_accumulated_fees (λ _, 0) (set_current_supply (λ _, c) s))) in
  let* d := modify_dgpo d (λ g, Ok (set_last_budget_time (λ _, now)
                                      (set_witness_budget (λ _, witness_budget) g))) in
  let* (_, t) := index_create no_clash (gv_budget_records (db_governance d))
    (now, mkBudget (br_time_since_last_budget rec) (br_from_initial_reserve rec)
            (br_from_accumulated_fees rec) (br_from_unused_witness_budget rec) requested
            (br_total_budget rec) witness_budget worker_budget leftover delta) in
  Ok (set_budget_records (λ _, t) d).
End operations.

(** ** Paying workers *)

(** What paying out [x] of core, that the chain issues, does; [y] of it went
    back to the reserve. *)
Definition pays_out (d d' : database) (x y : Z) : Prop :=
  mmoves d d' (core_delta x) ∧ same_market d d' ∧
  ∀ a s, db_assets d !! core_id = Some a → db_asset_dyn d !! as_dynamic_asset_data_id a = Some s →
    ∃ s', db_asset_dyn d' !! as_dynamic_asset_data_id a = Some s' ∧
      dd_accumulated_fees s' = dd_accumulated_fees s ∧ dd_current_supply s' = dd_current_supply s - y.

Lemma pays_out_refl d : pays_out d d 0 0.
Proof.
  split_and!; [|done|].
  - eapply mmoves_ext; [apply mmoves_refl|]. intros. unfold core_delta, amount_of. simpl. by case_match.
  - intros a s _ Hs. exists s. split_and!; [done..|lia].
Qed.

Lemma pays_out_trans d1 d2 d3 x y x' y' :
  pays_out d1 d2 x y → pays_out d2 d3 x' y' → pays_out d1 d3 (x + x') (y + y').
Proof.
  intros (M1 & S1 & F1) (M2 & S2 & F2). split_and!; [|by etrans|].
  - eapply mmoves_ext; [by eapply mmoves_trans|]. delta_solve.
  - intros a s Ha Hs. destruct (F1 a s Ha Hs) as (s1 & Hs1 & E1 & B1).
    assert (db_assets d2 !! core_id = Some a) as Ha2 by (destruct S1 as (_ & _ & _ & _ & _ & -> & _); done).
    destruct (F2 a s1 Ha2 Hs1) as (s2 & Hs2 & E2 & B2). exists s2. split_and!; [done|congruence|lia].
Qed.

(** A change of the elected objects alone. *)
Lemma only_elections_market d d' : only_elections d d' → db_gpo d' = db_gpo d →
  mconserves d d' ∧ same_market d d'.
Proof.
  intros E Hg. assert (same_market d d') as S by (rewrite E; by rewrite Hg).
  split; [|done]. by apply mmoves_of_moves, S; apply only_elections_conserves.
Qed.

Section properties.
Context {FC : FcArith} {FCL : FcArithLaws FC}.

Lemma pay_worker_ok d x w d' w' : pay_worker d x w = Ok (d', w') →
  ∃ y, (y = 0 ∨ y = x) ∧ pays_out d d' x y.
Proof.
  intros H. destruct w as [t|vb|t]; cbn [pay_worker] in H; apply rbind_ok in H as (r & Hr & H).
  - apply rbind_ok in H as (a & Ha & H). unfold get_core_asset, get_asset_object in Ha. apply of_option_ok in Ha.
    apply rbind_ok in H as (d1 & H1 & [= <- <-]).
    apply (moves_modify_asset_dyn _ _ _ _ _ Ha) in H1 as (s & s' & Hs & Hf & -> & M).
    apply rbind_ok in Hf as (c & Hc & [= <-]). safe_inv. exists x. split; [by right|]. split_and!; [|done|].
    + eapply mmoves_ext; [by apply mmoves_of_moves|]. delta_solve.
    + intros a' s1 Ha' Hs1. rewrite Ha in Ha'. injection Ha' as <-. rewrite Hs in Hs1. injection Hs1 as <-.
      simpl. rewrite lookup_insert_eq. eexists. split_and!; [reflexivity|done|done].
  - injection H as <- <-. apply index_modify_vesting_moves in Hr as (v & v' & Hv & Hd & M).
    apply vb_deposit_balance in Hd. exists 0. split; [by left|]. split_and!; [|done|].
    + eapply mmoves_ext; [by apply mmoves_of_moves|]. intros aid. cbn beta.
      rewrite (asset_add_amount_of _ _ _ aid Hd). unfold core_delta. lia.
    + intros a s Ha Hs. exists s. split_and!; [done..|lia].
  - apply rbind_ok in H as (d1 & H1 & [= <- <-]). pose proof (adjust_balance_moves _ _ _ _ H1) as M.
    apply adjust_balance_frame in H1 as [m ->]. exists 0. split; [by left|]. split_and!; [by apply mmoves_of_moves|done|].
    intros a s Ha Hs. exists s. split_and!; [done..|lia].
Qed.

(** Workers ask for pay that fits 63 bits. *)
Definition workers_wf (d : database) : Prop :=
  0 <= budget_seconds d <= 700000000 ∧
  ∀ id w, objs (db_workers d) !! id = Some w → 0 <= wk_daily_pay w < GRAPHENE_MAX_SHARE_SUPPLY.

Lemma requested_pay_ok d w : 0 <= budget_seconds d <= 700000000 →
  0 <= wk_daily_pay w < GRAPHENE_MAX_SHARE_SUPPLY →
  requested_pay d w = Ok (wk_daily_pay w * budget_seconds d / one_day).
Proof.
  unfold GRAPHENE_MAX_SHARE_SUPPLY, requested_pay, microseconds, one_day. intros Hs Hp.
  destruct (Z.eqb_spec (budget_seconds d) (60 * 60 * 24)) as [->|_]; [by rewrite Z.div_mul|].
  set (p := wk_daily_pay w) in *. set (s := budget_seconds d) in *. clearbody p s.
  rewrite !u128_of_i64_nonneg by (unfold u128_mod; lia). rewrite u128_mul_small by (unfold u128_mod; nia).
  rewrite u128_div_ok by lia. cbn [rbind].
  replace (p * (s * 1000000)) with (p * s * 1000000) by lia. rewrite Z.div_mul_cancel_r by lia.
  assert (0 <= p * s / (60 * 60 * 24) < 2 ^ 63).
  { split; [apply Z.div_pos; nia|]. apply Z.div_lt_upper_bound; [lia|]. nia. }
  rewrite u128_to_uint64_spec, (proj2 (Z.ltb_lt _ _)) by lia. cbn [rbind].
  by rewrite wrap_i64_small by lia.
Qed.

(** What a run of the loop pays. *)
Definition payroll (d : database) (s s' : database * Z) : Prop :=
  ∃ x y, s'.2 = s.2 - x ∧ pays_out s.1 s'.1 x y ∧ (workers_wf d → 0 <= y <= x ∧ (0 <= s.2 → 0 <= s'.2)).

Lemma pay_next_worker_ok d s iw s' :
  same_market d s.1 → objs (db_workers d) !! iw.1 = Some iw.2 → pay_next_worker s iw = Ok s' → payroll d s s'.
Proof.
  destruct s as [d1 b]. cbn [fst snd]. intros S Hi H. unfold pay_next_worker in H. unfold payroll. cbn [fst snd].
  destruct (Z.leb_spec b 0).
  { injection H as <-. exists 0, 0. cbn [fst snd]. split_and!; [lia|apply pays_out_refl|lia]. }
  apply rbind_ok in H as (r & Hr & H). apply rbind_ok in H as (w & _ & H). apply rbind_ok in H as ([d2 k] & H2 & H).
  apply rbind_ok in H as (d3 & H3 & H). apply rbind_ok in H as (b' & Hb & [= <-]). safe_inv.
  apply pay_worker_ok in H2 as (y & Hy & P).
  exists (Z.min b r), y. cbn [fst snd]. split_and!; [lia| |].
  - rewrite <- (Z.add_0_r (Z.min b r)), <- (Z.add_0_r y). eapply pays_out_trans; [exact P|].
    unfold modify_worker in H3. apply rbind_ok in H3 as (t & _ & [= <-]).
    destruct (only_elections_market d2 (set_workers (λ _, t) d2)) as [M Sm]; [done..|].
    split_and!; [|done|].
    + eapply mmoves_ext; [exact M|]. delta_solve.
    + intros a s _ Hs. exists s. split_and!; [done..|lia].
  - intros [Hsec Hw]. pose proof (Hw _ _ Hi) as Hp.
    assert (budget_seconds d1 = budget_seconds d) as Es.
    { destruct S as (_ & _ & _ & _ & _ & _ & _ & E). unfold budget_seconds, head_block_time. by rewrite E. }
    rewrite (requested_pay_ok d1) in Hr by (rewrite ?Es; eauto). rewrite Es in Hr. injection Hr as <-.
    assert (0 <= wk_daily_pay iw.2 * budget_seconds d / one_day) by (apply Z.div_pos; [nia|done]). lia.
Qed.

Lemma active_worker_elem d iw : iw ∈ active_workers d → objs (db_workers d) !! iw.1 = Some iw.2.
Proof.
  unfold active_workers. destruct iw as [id w]. rewrite in_order_perm, elem_of_map_to_list.
  by intros [? _]%map_lookup_filter_Some.
Qed.

Lemma pay_workers_none d : pay_workers d 0 = Ok (d, 0).
Proof. unfold pay_workers. by induction (active_workers d). Qed.

Lemma pay_workers_payroll d b d' b' : pay_workers d b = Ok (d', b') → payroll d (d, b) (d', b').
Proof.
  intros H. assert (same_market d (d, b).1 → payroll d (d, b) (d', b')) as P; [|by apply P].
  eapply (rfold_invariant _ (λ s s', same_market d s.1 → payroll d s s') (active_workers d)); [| | |exact H].
  - intros s _. exists 0, 0. split_and!; [lia|apply pays_out_refl|lia].
  - intros s1 s2 s3 H12 H23 S. destruct (H12 S) as (x & y & ? & P1 & W1).
    destruct H23 as (x' & y' & ? & P2 & W2); [etrans; [exact S|apply P1]|].
    exists (x + x'), (y + y'). split_and!; [lia|by eapply pays_out_trans|]. intros W.
    destruct (W1 W), (W2 W). split; [lia|auto].
  - intros s iw s' Hi Hs S. by eapply pay_next_worker_ok; [|apply active_worker_elem|].
Qed.

Lemma pay_workers_ok d b d' b' : b = 0 ∨ workers_wf d → 0 <= b → pay_workers d b = Ok (d', b') →
  ∃ x y, 0 <= y <= x ∧ x <= b ∧ b' = b - x ∧ pays_out d d' x y.
Proof.
  intros [->|Hwf] Hb H.
  { rewrite pay_workers_none in H. injection H as <- <-. exists 0, 0. split_and!; [lia..|apply pays_out_refl]. }
  apply pay_workers_payroll in H as (x & y & E & P & W). destruct (W Hwf) as [? Hn].
  simpl in *. exists x, y. split_and!; [lia..|done].
Qed.

Lemma release_of_ok reserve dt : 0 <= reserve < 2 ^ 62 → 0 <= dt < 2 ^ 32 →
  release_of reserve dt = Ok (Z.min reserve ((reserve * dt * 17 + 2 ^ 32 - 1) / 2 ^ 32)).
Proof.
  intros Hr Hd. unfold release_of, GRAPHENE_CORE_ASSET_CYCLE_RATE, GRAPHENE_CORE_ASSET_CYCLE_RATE_BITS.
  rewrite !u128_of_i64_nonneg by (unfold u128_mod; lia).
  rewrite wrap_u64_small by lia. assert (0 <= reserve * dt < 2 ^ 94) by nia.
  rewrite (u128_mul_small reserve) by (unfold u128_mod; lia).
  rewrite u128_mul_small by (unfold u128_mod; lia). rewrite u128_add_small by (unfold u128_mod; lia).
  rewrite u128_shr_spec by lia. rewrite Z.shiftr_div_pow2 by lia.
  replace (reserve * dt * 17 + (2 ^ 32 - 1)) with (reserve * dt * 17 + 2 ^ 32 - 1) by lia.
  assert (0 <= (reserve * dt * 17 + 2 ^ 32 - 1) / 2 ^ 32) by (apply Z.div_pos; lia).
  destruct (Z.ltb_spec ((reserve * dt * 17 + 2 ^ 32 - 1) / 2 ^ 32) reserve).
  - rewrite u128_to_uint64_spec, (proj2 (Z.ltb_lt _ _)) by lia. cbn [rbind]. rewrite wrap_i64_small by lia.
    by rewrite Z.min_r by lia.
  - by rewrite Z.min_l by lia.
Qed.

(** What the budget is made from. *)
Record budget_wf (d : database) (a : asset_object) (s : asset_dynamic_data_object) : Prop := {
  bw_core : db_assets d !! core_id = Some a;
  bw_dyn : db_asset_dyn d !! as_dynamic_asset_data_id a = Some s;
  bw_supply : 0 <= dd_current_supply s <= as_max_supply a ∧ as_max_supply a <= GRAPHENE_MAX_SHARE_SUPPLY;
  bw_fees : 0 <= dd_accumulated_fees s < 2 ^ 60;
  bw_unused : 0 <= dg_witness_budget (db_dgpo d) < 2 ^ 60;
  bw_last : 0 <= dg_last_budget_time (db_dgpo d) ∧ head_block_time d < 2 ^ 32;
  bw_pay : 0 <= cp_witness_pay_per_block (parameters d) < 2 ^ 31 ∧ 0 <= cp_worker_budget_per_day (parameters d) < 2 ^ 62;
  bw_interval : 0 < cp_block_interval (parameters d) < 256;
  bw_next : head_block_time d < dg_next_maintenance_time (db_dgpo d) < 2 ^ 32;
  bw_now : 0 <= head_block_time d }.

(** What can be spent, and the part of it that is released. *)
Definition spendable (d : database) (a : asset_object) (s : asset_dynamic_data_object) : Z :=
  as_max_supply a - dd_current_supply s + dd_accumulated_fees s + dg_witness_budget (db_dgpo d).

Definition released (d : database) (a : asset_object) (s : asset_dynamic_data_object) : Z :=
  let last := dg_last_budget_time (db_dgpo d) in
  if (last =? 0) || (head_block_time d <=? last) then 0
  else Z.min (spendable d a s) ((spendable d a s * (head_block_time d - last) * 17 + 2 ^ 32 - 1) / 2 ^ 32).

Definition seconds_left (d : database) : Z := dg_next_maintenance_time (db_dgpo d) - head_block_time d.

Definition blocks_left (d : database) : Z :=
  (seconds_left d + cp_block_interval (parameters d) - 1) / cp_block_interval (parameters d).

Lemma spendable_bounds d a s : budget_wf d a s → 0 <= spendable d a s < 2 ^ 62.
Proof. intros []. unfold spendable, GRAPHENE_MAX_SHARE_SUPPLY in *. lia. Qed.

Lemma released_bounds d a s : budget_wf d a s → 0 <= released d a s <= spendable d a s.
Proof.
  intros W. pose proof (spendable_bounds _ _ _ W). destruct W. unfold released.
  destruct (Z.eqb_spec (dg_last_budget_time (db_dgpo d)) 0); simpl; [lia|].
  destruct (Z.leb_spec (head_block_time d) (dg_last_budget_time (db_dgpo d))); [lia|].
  assert (0 <= spendable d a s * (head_block_time d - dg_last_budget_time (db_dgpo d))) by nia.
  pose proof (Z.div_pos (spendable d a s * (head_block_time d - dg_last_budget_time (db_dgpo d)) * 17 + 2 ^ 32 - 1) (2 ^ 32)).
  lia.
Qed.

Lemma initialize_budget_record_ok d a s : budget_wf d a s → ∃ rec,
  initialize_budget_record d (head_block_time d) = Ok rec ∧
  br_from_accumulated_fees rec = dd_accumulated_fees s ∧
  br_from_unused_witness_budget rec = dg_witness_budget (db_dgpo d) ∧ br_total_budget rec = released d a s.
Proof.
  intros W. pose proof (spendable_bounds _ _ _ W) as Hb. destruct W.
  unfold initialize_budget_record, get_core_asset, get_asset_object, get_asset_dyn, released.
  rewrite bw_core0. cbn [of_option rbind]. rewrite bw_dyn0. cbn [of_option rbind].
  unfold reserved. unfold spendable, GRAPHENE_MAX_SHARE_SUPPLY in *.
  rewrite safe_sub_spec, check_int64_in by lia. cbn [rbind].
  case_match eqn:Hl; [eexists; split_and!; done|]. apply orb_false_iff in Hl as [Hl Hn]. b2p.
  rewrite safe_add_spec, check_int64_in by lia. cbn [rbind]. rewrite safe_add_spec, check_int64_in by lia. cbn [rbind].
  rewrite time_sub_seconds_spec, release_of_ok by lia. cbn [rbind]. eexists. split_and!; done.
Qed.

Lemma worker_budget_of_ok d a s av : budget_wf d a s → 0 <= av < 2 ^ 62 →
  ∃ w, worker_budget_of d av = Ok w ∧ 0 <= w <= av.
Proof.
  intros [] Hav. unfold worker_budget_of, one_day. rewrite time_sub_seconds_spec, wrap_u64_small by lia.
  rewrite !u128_of_i64_nonneg by (unfold u128_mod; lia).
  assert (0 <= cp_worker_budget_per_day (parameters d) * (dg_next_maintenance_time (db_dgpo d) - head_block_time d) < 2 ^ 94)
    as Hm by nia.
  rewrite u128_mul_small by (unfold u128_mod; lia). rewrite u128_div_ok by lia. cbn [rbind].
  set (m := _ * _) in *. clearbody m. assert (0 <= m / (60 * 60 * 24)) by (apply Z.div_pos; lia).
  case_match; b2p; [exists av; split; [done|lia]|].
  rewrite u128_to_uint64_spec, (proj2 (Z.ltb_lt _ _)) by lia. cbn [rbind]. rewrite wrap_i64_small by lia.
  eexists. split; [reflexivity|lia].
Qed.

Lemma blocks_to_maint_ok d a s : budget_wf d a s → blocks_to_maint d = Ok (blocks_left d) ∧ 0 <= blocks_left d < 2 ^ 32.
Proof.
  intros []. unfold blocks_to_maint, blocks_left, seconds_left. rewrite time_sub_seconds_spec.
  rewrite (wrap_u64_small (dg_next_maintenance_time _ - _)) by lia.
  rewrite (wrap_u64_small (_ + _)) by lia. rewrite wrap_u64_small by lia.
  case_match; b2p; [lia|]. split; [done|].
  split; [apply Z.div_pos; lia|]. apply Z.div_lt_upper_bound; nia.
Qed.

(** The last writes of [process_budget], on the database the workers were
    paid in. *)
Lemma settle_budget_ok d1 a s1 delta wb now d2 d3 f :
  db_assets d1 !! core_id = Some a → db_asset_dyn d1 !! as_dynamic_asset_data_id a = Some s1 →
  modify_asset_dyn d1 (as_dynamic_asset_data_id a) (λ s, let* c := safe_add (dd_current_supply s) delta in
    Ok (set_accumulated_fees (λ _, 0) (set_current_supply (λ _, c) s))) = Ok d2 →
  modify_dgpo d2 (λ g, Ok (set_last_budget_time (λ _, now) (set_witness_budget (λ _, wb) g))) = Ok d3 →
  mmoves d1 (set_budget_records f d3)
    (core_delta (wb - dg_witness_budget (db_dgpo d1) - dd_accumulated_fees s1 - delta)) ∧
  dg_witness_budget (db_dgpo d3) = wb ∧ dg_last_budget_time (db_dgpo d3) = now ∧
  ∃ s', db_asset_dyn d3 !! as_dynamic_asset_data_id a = Some s' ∧ dd_accumulated_fees s' = 0 ∧
    dd_current_supply s' = dd_current_supply s1 + delta.
Proof.
  intros Ha Hs H2 H3. apply (moves_modify_asset_dyn _ _ _ _ _ Ha) in H2 as (s & s' & Hs0 & Hf & -> & M2).
  rewrite Hs in Hs0. injection Hs0 as <-. apply rbind_ok in Hf as (c & Hc & [= <-]). safe_inv.
  pose proof (moves_modify_dgpo _ _ _ H3) as M3. unfold modify_dgpo in H3. injection H3 as <-. simpl in *.
  split_and!; [|done|done|].
  - apply mmoves_intro; [|done]. intros Hwf. destruct (M2 Hwf) as [Hwf2 E2], (M3 Hwf2) as [Hwf3 E3].
    split; [done|]. intros aid. etransitivity; [apply imbalance_set_governance|].
    rewrite E3, E2. delta_solve.
  - rewrite lookup_insert_eq. eexists. split_and!; reflexivity.
Qed.

(** The parts of a run. *)
Lemma process_budget_inv d d' : process_budget d = Ok d' →
  ∃ a s blocks rec wb k left d1 d2 d3 f,
    db_assets d !! core_id = Some a ∧ db_asset_dyn d !! as_dynamic_asset_data_id a = Some s ∧
    blocks_to_maint d = Ok blocks ∧ initialize_budget_record d (head_block_time d) = Ok rec ∧
    wb = Z.min (wrap_i64 (wrap_u64 (cp_witness_pay_per_block (parameters d) * blocks))) (br_total_budget rec) ∧
    worker_budget_of d (br_total_budget rec - wb) = Ok k ∧ pay_workers d k = Ok (d1, left) ∧
    modify_asset_dyn d1 (as_dynamic_asset_data_id a) (λ s, let* c := safe_add (dd_current_supply s)
      (wb + k - left - br_from_accumulated_fees rec - br_from_unused_witness_budget rec) in
      Ok (set_accumulated_fees (λ _, 0) (set_current_supply (λ _, c) s))) = Ok d2 ∧
    modify_dgpo d2 (λ g, Ok (set_last_budget_time (λ _, head_block_time d) (set_witness_budget (λ _, wb) g))) = Ok d3 ∧
    d' = set_budget_records f d3.
Proof.
  intros H. unfold process_budget, get_core_asset, get_asset_object, get_asset_dyn in H.
  apply rbind_ok in H as (a & Ha%of_option_ok & H). apply rbind_ok in H as (s & Hs%of_option_ok & H).
  apply rbind_ok in H as (blocks & Hb & H). apply rbind_ok in H as (rec & Hr & H).
  apply rbind_ok in H as (av & Hav & H). apply rbind_ok in H as (k & Hk & H).
  apply rbind_ok in H as (av' & _ & H). apply rbind_ok in H as ([d1 left] & Hp & H).
  repeat (let x := fresh "t" in let Hx := fresh "Ht" in
          apply rbind_ok in H as (x & Hx & H); lazymatch type of x with Z => idtac end).
  apply rbind_ok in H as (d2 & H2 & H). apply rbind_ok in H as (d3 & H3 & H). apply rbind_ok in H as ([i t'] & _ & [= <-]). safe_inv.
  eexists a, s, blocks, rec, _, k, left, d1, _, d3, (λ _, t'). by split_and!.
Qed.

Lemma initialize_budget_record_from d a s now rec :
  db_assets d !! core_id = Some a → db_asset_dyn d !! as_dynamic_asset_data_id a = Some s →
  initialize_budget_record d now = Ok rec →
  br_from_accumulated_fees rec = dd_accumulated_fees s ∧
  br_from_unused_witness_budget rec = dg_witness_budget (db_dgpo d).
Proof.
  intros Ha Hs. unfold initialize_budget_record, get_core_asset, get_asset_object, get_asset_dyn.
  rewrite Ha. cbn [of_option rbind]. rewrite Hs. cbn [of_option rbind]. intros H.
  apply rbind_ok in H as (r & _ & H). case_match; ok_inv; done.
Qed.

(** Whatever the parameters are, no core is lost or invented. *)
Lemma process_budget_conserves d d' : process_budget d = Ok d' → mconserves d d'.
Proof.
  intros (a & s & blocks & rec & wb & k & left & d1 & d2 & d3 & f & Ha & Hs & _ & Hr & -> & _ & Hp & H2 & H3 & ->)%process_budget_inv.
  destruct (initialize_budget_record_from _ _ _ _ _ Ha Hs Hr) as [Ef Eu]. rewrite Ef, Eu in H2.
  apply pay_workers_payroll in Hp as (x & y & Ex & (M & S & F) & _). simpl in *. subst left.
  destruct (F a s Ha Hs) as (s1 & Hs1 & E1 & _).
  pose proof S as (_ & _ & _ & _ & _ & Ea & _ & Eg).
  eapply (settle_budget_ok _ _ _ _ _ _ _ _ f) in H2 as (M' & _); [|by rewrite Ea|exact Hs1|exact H3].
  rewrite Eg, E1 in M'. eapply mmoves_ext; [by eapply mmoves_trans|delta_solve].
Qed.

(** C29. Maintenance pays witnesses and workers out of the reserve without
    losing or inventing a satoshi: of what can be spent -- the unissued core,
    the fees collected and the witness budget that was not used -- at most the
    released part goes to the next witness budget (what the parameters ask for
    the blocks until the next maintenance, if that much was released) and to
    the workers.  All else returns to the reserve; the supply of core never
    exceeds its maximum. *)
Theorem process_budget_correct d a s d' :
  budget_wf d a s → dg_last_budget_time (db_dgpo d) = 0 ∨ workers_wf d → process_budget d = Ok d' →
  mconserves d d' ∧
  ∃ s' paid, db_asset_dyn d' !! as_dynamic_asset_data_id a = Some s' ∧ dd_accumulated_fees s' = 0 ∧
    dg_witness_budget (db_dgpo d') = Z.min (cp_witness_pay_per_block (parameters d) * blocks_left d) (released d a s) ∧
    0 <= paid <= released d a s - dg_witness_budget (db_dgpo d') ∧
    0 <= dd_current_supply s' - (as_max_supply a - spendable d a s + dg_witness_budget (db_dgpo d')) <= paid ∧
    dd_current_supply s' <= as_max_supply a ∧ dg_last_budget_time (db_dgpo d') = head_block_time d.
Proof.
  intros W Hw H. split; [by apply process_budget_conserves|].
  pose proof (released_bounds _ _ _ W) as Hr. pose proof (spendable_bounds _ _ _ W) as Hsp.
  apply process_budget_inv in H as (a' & s0 & blocks & rec & wb & k & left & d1 & d2 & d3 & f & Ha & Hs & Hb & Hi & Ewb
    & Hk & Hp & H2 & H3 & ->).
  destruct (blocks_to_maint_ok _ _ _ W) as [Eb Hbl]. rewrite Eb in Hb. injection Hb as <-.
  destruct (initialize_budget_record_ok _ _ _ W) as (rec' & Er & Ef & Eu & Et).
  rewrite Er in Hi. injection Hi as <-. rewrite (bw_core _ _ _ W) in Ha. injection Ha as <-.
  rewrite (bw_dyn _ _ _ W) in Hs. injection Hs as <-. rewrite Et, ?Ef, ?Eu in *.
  pose proof (bw_pay _ _ _ W). rewrite wrap_u64_small, wrap_i64_small in Ewb by nia.
  assert (0 <= wb <= released d a s) as Hwb by nia.
  destruct (worker_budget_of_ok d a s (released d a s - wb)) as (k' & Ek & Hkb); [done|lia|].
  rewrite Ek in Hk. injection Hk as ->.
  assert (k = 0 ∨ workers_wf d) as Hpay.
  { destruct Hw as [Hl|]; [left|by right]. unfold released in *. rewrite Hl in *. simpl in *. lia. }
  apply (pay_workers_ok d k d1 left Hpay (proj1 Hkb)) in Hp as (paid & y & Hy & Hpd & -> & _ & S & F).
  destruct (F a s (bw_core _ _ _ W) (bw_dyn _ _ _ W)) as (s1 & Hs1 & E1 & B1).
  assert (db_assets d1 !! core_id = Some a) as Ha1 by (destruct S as (_ & _ & _ & _ & _ & -> & _); apply W).
  eapply (settle_budget_ok _ _ _ _ _ _ _ _ f) in H2 as (_ & Ew & El & s' & Hs' & Ef' & Es'); [|exact Ha1|exact Hs1|exact H3].
  unfold spendable, set_budget_records in *. simpl. exists s', paid. rewrite Ew, Es', B1. split_and!; try done; lia.
Qed.
End properties.

(** ** A maintenance with two workers *)

(** The worker who burns his pay has more votes than the one who returns it
    to the reserve; the third one is voted against. *)
Definition sample_worker (name : string) (pay : Z) (kind : worker_type) (for_it against : Z) : worker_object :=
  mkWorker alice 1569000000 1571000000 pay kind name "" 1 2 for_it against.

Definition budget_db : database :=
  set_dgpo (set_last_budget_time (λ _, 1569996400))
    (set_workers (λ _, mkTable (list_to_map
      [(0, sample_worker "refund" 24000000 (refund_worker_type 5) 100 0);
       (1, sample_worker "burn" 48000000 (burn_worker_type 0) 900 10);
       (2, sample_worker "none" 96000000 (burn_worker_type 0) 900 901)]) 3) sample_db).

Example budget_db_pays :
  active_workers budget_db = [(1, sample_worker "burn" 48000000 (burn_worker_type 0) 900 10);
                              (0, sample_worker "refund" 24000000 (refund_worker_type 5) 100 0)].
Proof. vm_compute. reflexivity. Qed.

Lemma budget_db_wf : budget_wf budget_db
  (mkAssetObject 3 0 0 ∅ ∅ (unit_price 0) 0 None None "OMNIBAZAAR" 5 GRAPHENE_MAX_SHARE_SUPPLY 0 0 ∅ ∅)
  (mkDynData 1018520 0 0 0).
Proof. split; vm_compute; repeat split; intros; congruence. Qed.

Lemma budget_db_workers : workers_wf (FC := fc_reference) budget_db.
Proof.
  split; [vm_compute; split; congruence|]. intros id w H. change (objs (db_workers budget_db)) with
    (list_to_map [(0, sample_worker "refund" 24000000 (refund_worker_type 5) 100 0);
       (1, sample_worker "burn" 48000000 (burn_worker_type 0) 900 10);
       (2, sample_worker "none" 96000000 (burn_worker_type 0) 900 901)] : gmap Z worker_object) in H.
  apply elem_of_list_to_map_2 in H. unfold GRAPHENE_MAX_SHARE_SUPPLY.
  repeat (apply elem_of_cons in H as [[= -> ->]|H]; [simpl; lia|]). by apply elem_of_nil in H.
Qed.

Lemma process_budget_correct_witness :
  ∃ d' s', process_budget (FC := fc_reference) budget_db = Ok d' ∧
    db_asset_dyn d' !! 0 = Some s' ∧ dd_current_supply s' <= GRAPHENE_MAX_SHARE_SUPPLY ∧
    db_balances d' !! (GRAPHENE_NULL_ACCOUNT, 0) = Some 2000000.
Proof.
  set (d' := get_ok (process_budget (FC := fc_reference) budget_db) budget_db).
  assert (process_budget (FC := fc_reference) budget_db = Ok d') as E by (apply get_ok_eq; vm_compute; reflexivity).
  destruct (process_budget_correct (FCL := fc_reference_laws) budget_db _ _ d' budget_db_wf (or_intror budget_db_workers) E)
    as (_ & s' & _ & Hs & _ & _ & _ & _ & Hm & _).
  exists d', s'. split; [exact E|]. split; [exact Hs|]. split; [exact Hm|vm_compute; reflexivity].
Defined.
