(* ===== verification/Fba.v ===== *)
(** * Fee-based assets ([fba_object.cpp], [db_maint.cpp])

    The fees of confidential transfers are collected in accumulators; at
    maintenance each is split between the network, the buyback account and
    the issuer of the asset designated to it. *)

From stdpp Require Import gmap strings list.
From Stdlib Require Import ZArith Lia.
From S2P Require Import Prelude Fc Config Asset Objects Database Sample Balances Market MarketProps Elections.

Local Open Scope Z_scope.

(** [graphene_fba_accumulator_id_enum]. *)
Definition fba_accumulator_id_transfer_to_blind : Z := 0.
Definition fba_accumulator_id_blind_transfer : Z := 1.
Definition fba_accumulator_id_transfer_from_blind : Z := 2.

Definition set_accumulated_fba_fees (x : Z) (f : fba_accumulator_object) : fba_accumulator_object :=
  mkFba x (fba_designated_asset f).

Definition modify_fba (d : database) (id : Z) (f : fba_accumulator_object → fba_accumulator_object)
    : result database :=
  let* a := of_option unknown_object (db_fbas d !! id) in
  Ok (set_fbas (<[id := f a]>) d).

(** Only [mask] is set in [flags]. *)
Definition subset_of (flags mask : Z) : bool := Z.land flags mask =? flags.

Definition controlled_by_holders (aid : Z) (auth : special_authority) : bool :=
  match auth with
  | no_special_authority => false
  | top_holders_special_authority a _ => a =? aid
  end.

Definition is_configured (d : database) (fba : fba_accumulator_object) : result bool :=
  match fba_designated_asset fba with
  | None => Ok false
  | Some aid =>
      match db_assets d !! aid with
      | None => Ok false
      | Some dasset =>
          if is_market_issued dasset then Ok false
          else if negb (subset_of (as_issuer_permissions dasset) charge_market_fee) then Ok false
          else if negb (subset_of (as_flags dasset) charge_market_fee) then Ok false
          else if bool_decide (as_buyback_account dasset = None) then Ok false
          else
            let* issuer := get_account d (as_issuer dasset) in
            Ok (controlled_by_holders aid (ao_owner_special_authority issuer)
                && controlled_by_holders aid (ao_active_special_authority issuer)
                && (ao_top_n_control_flags issuer =? Z.lor top_n_control_owner top_n_control_active))
      end
  end.

Section operations.
Context {FC : FcArith}.

(** [pct] of [fees], rounded down. *)
Definition share_of (fees pct : Z) : result Z :=
  let* x := u128_div (u128_mul (u128_of_i64 fees) pct) GRAPHENE_100_PERCENT in
  let* x := u128_to_uint64 x in
  Ok (wrap_i64 x).

(** The fees given to the network leave the supply. *)
Definition burn_core (d : database) (core : asset_object) (x : Z) : result database :=
  modify_asset_dyn d (as_dynamic_asset_data_id core)
    (λ s, let* c := safe_sub (dd_current_supply s) x in Ok (set_current_supply (λ _, c) s)).

Definition split_fba_balance (d : database) (fba_id : Z)
    (network_pct designated_asset_buyback_pct designated_asset_issuer_pct : Z) : result database :=
  FC_ASSERT (network_pct + designated_asset_buyback_pct + designated_asset_issuer_pct =? GRAPHENE_100_PERCENT) ;;
  let* fba := of_option unknown_object (db_fbas d !! fba_id) in
  let fees := fba_accumulated_fba_fees fba in
  if fees =? 0 then Ok d
  else
    let* core := get_core_asset d in
    let* _ := get_asset_dyn d (as_dynamic_asset_data_id core) in
    let* configured := is_configured d fba in
    if negb configured then
      let* d := burn_core d core fees in
      modify_fba d fba_id (set_accumulated_fba_fees 0)
    else
      let* buyback_amount := share_of fees designated_asset_buyback_pct in
      let* issuer_amount := share_of fees designated_asset_issuer_pct in
      let* shared := safe_add buyback_amount issuer_amount in
      FC_ASSERT (shared <=? fees) ;;
      let* network_amount := safe_sub fees shared in
      let* aid := of_option undefined_behaviour (fba_designated_asset fba) in
      let* designated_asset := get_asset_object d aid in
      let* d := if network_amount =? 0 then Ok d else burn_core d core network_amount in
      let* buyback := of_option undefined_behaviour (as_buyback_account designated_asset) in
      let* d := if buyback_amount =? 0 then Ok d else adjust_balance d buyback (core_asset buyback_amount) in
      let* d := if issuer_amount =? 0 then Ok d
                else adjust_balance d (as_issuer designated_asset) (core_asset issuer_amount) in
      modify_fba d fba_id (set_accumulated_fba_fees 0).

Definition distribute_fba_balances (d : database) : result database :=
  let split d id := split_fba_balance d id (20 * GRAPHENE_1_PERCENT) (60 * GRAPHENE_1_PERCENT) (20 * GRAPHENE_1_PERCENT) in
  let* d := split d fba_accumulator_id_transfer_to_blind in
  let* d := split d fba_accumulator_id_blind_transfer in
  split d fba_accumulator_id_transfer_from_blind.
End operations.

(** ** Conservation *)

Section properties.
Context {FC : FcArith} {FCL : FcArithLaws FC}.

Lemma imbalance_set_fbas aid f d :
  imbalance aid (set_fbas f d) = imbalance aid d +
    core_delta (held_fbas (f (db_fbas d)) - held_fbas (db_fbas d)) aid.
Proof.
  unfold core_delta. rewrite amount_of_core. unfold imbalance, held, held_market, current_supply; simpl.
  destruct (aid =? core_id); lia.
Qed.

Lemma modify_fba_moves d id x d' f : db_fbas d !! id = Some f →
  modify_fba d id (set_accumulated_fba_fees x) = Ok d' →
  mmoves d d' (core_delta (x - fba_accumulated_fba_fees f)) ∧ same_market d d' ∧
  db_balances d' = db_balances d ∧ db_asset_dyn d' = db_asset_dyn d ∧
  db_accounts d' = db_accounts d ∧ db_fbas d' !! id = Some (set_accumulated_fba_fees x f).
Proof.
  intros Hf. unfold modify_fba. rewrite Hf. intros [= <-]. split; [|split_and!; [done..|apply lookup_insert_eq]].
  apply mmoves_of_moves; [|done]. apply moves_intro; [done..|]. intros aid. rewrite imbalance_set_fbas.
  unfold held_fbas. rewrite msum_insert, Hf. simpl. f_equal. f_equal. lia.
Qed.

Lemma burn_core_moves d core x d' : db_assets d !! core_id = Some core → burn_core d core x = Ok d' →
  mmoves d d' (core_delta x) ∧ same_market d d' ∧ db_balances d' = db_balances d ∧ db_fbas d' = db_fbas d ∧
  ∃ s s', db_asset_dyn d !! as_dynamic_asset_data_id core = Some s ∧
    db_asset_dyn d' !! as_dynamic_asset_data_id core = Some s' ∧
    dd_current_supply s' = dd_current_supply s - x.
Proof.
  intros Ha H. apply (moves_modify_asset_dyn _ _ _ _ _ Ha) in H as (s & s' & Hs & Hf & -> & M).
  apply rbind_ok in Hf as (c & Hc & [= <-]). safe_inv. split_and!; [|done..|].
  - eapply mmoves_ext; [by apply mmoves_of_moves|]. delta_solve.
  - exists s. eexists. split_and!; [done|apply lookup_insert_eq|done].
Qed.

Lemma share_of_ok fees pct x : 0 <= fees < 2 ^ 62 → 0 <= pct <= GRAPHENE_100_PERCENT → share_of fees pct = Ok x →
  x = fees * pct / GRAPHENE_100_PERCENT ∧ 0 <= x <= fees.
Proof.
  unfold GRAPHENE_100_PERCENT. intros Hf Hp. unfold share_of, GRAPHENE_100_PERCENT.
  rewrite u128_of_i64_nonneg by (unfold u128_mod; lia). rewrite u128_mul_small by (unfold u128_mod; nia).
  rewrite u128_div_ok by done. cbn [rbind].
  assert (0 <= fees * pct / 10000 <= fees) by (split; [apply Z.div_pos; nia|apply Z.div_le_upper_bound; nia]).
  rewrite u128_to_uint64_spec, (proj2 (Z.ltb_lt _ _)) by lia. cbn [rbind]. rewrite wrap_i64_small by lia.
  intros [= <-]. done.
Qed.

Lemma adjust_balance_unless_0 d acct x :
  (if x =? 0 then Ok d else adjust_balance d acct (core_asset x)) = adjust_balance d acct (core_asset x).
Proof. unfold adjust_balance. simpl. by destruct (x =? 0). Qed.

(** What a payment to an account changes. *)
Lemma pay_account_ok d acct x d' : adjust_balance d acct (core_asset x) = Ok d' →
  mmoves d d' (core_delta x) ∧ same_market d d' ∧ db_fbas d' = db_fbas d ∧ db_asset_dyn d' = db_asset_dyn d ∧
  ∀ o, amount (get_balance d' o core_id) = amount (get_balance d o core_id) + (if decide (o = acct) then x else 0).
Proof.
  intros H. pose proof (adjust_balance_moves _ _ _ _ H) as M. pose proof (adjust_balance_get _ _ _ _ H) as [_ G].
  apply adjust_balance_frame in H as [m ->]. split_and!; [by apply mmoves_of_moves|done..|].
  intros o. rewrite G. simpl. repeat case_decide; naive_solver lia.
Qed.

(** What the designated asset's accounts get, and what the network gets. *)
Definition fba_income (fees b i : Z) (a : asset_object) (o : Z) : Z :=
  (if decide (as_buyback_account a = Some o) then fees * b / GRAPHENE_100_PERCENT else 0)
  + (if decide (o = as_issuer a) then fees * i / GRAPHENE_100_PERCENT else 0).

Definition network_income (fees b i : Z) : Z :=
  fees - (fees * b / GRAPHENE_100_PERCENT + fees * i / GRAPHENE_100_PERCENT).

Lemma is_configured_true d f : is_configured d f = Ok true →
  ∃ aid a, fba_designated_asset f = Some aid ∧ db_assets d !! aid = Some a ∧ is_Some (as_buyback_account a).
Proof.
  unfold is_configured. destruct (fba_designated_asset f) as [aid|]; [|done].
  destruct (db_assets d !! aid) as [a|] eqn:Ha; [|done]. intros H. exists aid, a. split_and!; [done..|].
  repeat (case_match; [done|]). destruct (as_buyback_account a); [eauto|done].
Qed.

(** The payments, once the shares are known. *)
Lemma fba_payments d core x bb y iss z id f d1 d2 d3 d4 s :
  db_assets d !! core_id = Some core → db_asset_dyn d !! as_dynamic_asset_data_id core = Some s →
  db_fbas d !! id = Some f → fba_accumulated_fba_fees f = x + y + z →
  (if x =? 0 then Ok d else burn_core d core x) = Ok d1 →
  (if y =? 0 then Ok d1 else adjust_balance d1 bb (core_asset y)) = Ok d2 →
  (if z =? 0 then Ok d2 else adjust_balance d2 iss (core_asset z)) = Ok d3 →
  modify_fba d3 id (set_accumulated_fba_fees 0) = Ok d4 →
  mconserves d d4 ∧ same_market d d4 ∧ fba_accumulated_fba_fees <$> db_fbas d4 !! id = Some 0 ∧
  (∃ s', db_asset_dyn d4 !! as_dynamic_asset_data_id core = Some s' ∧ dd_current_supply s' = dd_current_supply s - x) ∧
  ∀ o, amount (get_balance d4 o core_id) = amount (get_balance d o core_id)
    + ((if decide (o = bb) then y else 0) + (if decide (o = iss) then z else 0)).
Proof.
  intros Hcore Hs Hf Hsum H1 H2 H3 H4. rewrite adjust_balance_unless_0 in H2, H3.
  assert (mmoves d d1 (core_delta x) ∧ same_market d d1 ∧ db_balances d1 = db_balances d ∧ db_fbas d1 = db_fbas d ∧
    ∃ s', db_asset_dyn d1 !! as_dynamic_asset_data_id core = Some s' ∧ dd_current_supply s' = dd_current_supply s - x)
    as (M1 & S1 & B1 & F1 & s' & Hs' & Es).
  { destruct (Z.eqb_spec x 0) as [->|].
    - injection H1 as <-. split_and!; [|done..|exists s; split; [done|lia]].
      eapply mmoves_ext; [apply mmoves_refl|delta_solve].
    - apply burn_core_moves in H1 as (M & ? & ? & ? & s0 & s' & Hs0 & ? & ?); [|done].
      split_and!; [done..|]. exists s'. split; [done|]. congruence. }
  apply pay_account_ok in H2 as (M2 & S2 & F2 & D2 & B2). apply pay_account_ok in H3 as (M3 & S3 & F3 & D3 & B3).
  eapply modify_fba_moves in H4 as (M4 & S4 & B4 & D4 & _ & F4); [|rewrite F3, F2, F1; exact Hf].
  split_and!.
  - eapply mmoves_ext; [eapply mmoves_trans; [eapply mmoves_trans; [eapply mmoves_trans|]|]; eassumption|].
    rewrite Hsum. delta_solve.
  - etrans; [exact S1|]. etrans; [exact S2|]. by etrans.
  - by rewrite F4.
  - exists s'. by rewrite D4, D3, D2.
  - intros o. unfold get_balance at 1. rewrite B4. fold (get_balance d3 o core_id). rewrite B3, B2.
    unfold get_balance. rewrite B1. lia.
Qed.

(** The three ways a split goes. *)
Lemma split_fba_balance_inv d id n b i d' f :
  db_fbas d !! id = Some f → split_fba_balance d id n b i = Ok d' →
  let fees := fba_accumulated_fba_fees f in
  n + b + i = GRAPHENE_100_PERCENT ∧
  ((fees = 0 ∧ d' = d) ∨
   fees ≠ 0 ∧ ∃ core s c d3, db_assets d !! core_id = Some core ∧
     db_asset_dyn d !! as_dynamic_asset_data_id core = Some s ∧ is_configured d f = Ok c ∧
     modify_fba d3 id (set_accumulated_fba_fees 0) = Ok d' ∧
     if c then
       ∃ y z aid a bb d1 d2, fba_designated_asset f = Some aid ∧ db_assets d !! aid = Some a ∧
         as_buyback_account a = Some bb ∧ share_of fees b = Ok y ∧ share_of fees i = Ok z ∧
         (if fees - (y + z) =? 0 then Ok d else burn_core d core (fees - (y + z))) = Ok d1 ∧
         (if y =? 0 then Ok d1 else adjust_balance d1 bb (core_asset y)) = Ok d2 ∧
         (if z =? 0 then Ok d2 else adjust_balance d2 (as_issuer a) (core_asset z)) = Ok d3
     else burn_core d core fees = Ok d3).
Proof.
  intros Hf H fees. unfold split_fba_balance in H. apply rbind_ok in H as (? & Hpct%require_ok%Z.eqb_eq & H).
  split; [done|]. rewrite Hf in H. cbn [of_option rbind] in H. fold fees in H.
  destruct (Z.eqb_spec fees 0) as [E0|E0]; [left; by injection H as <-|right]. split; [done|].
  apply rbind_ok in H as (core & Hcore%of_option_ok & H). apply rbind_ok in H as (s & Hs%of_option_ok & H).
  apply rbind_ok in H as (c & Hc & H). exists core, s, c. destruct c; cbn [negb] in H.
  - destruct (is_configured_true _ _ Hc) as (aid & a & Hd & Ha & [bb Hbb]).
    apply rbind_ok in H as (y & Hy & H). apply rbind_ok in H as (z & Hz & H).
    apply rbind_ok in H as (sh & Hsh & H). apply rbind_ok in H as (? & _ & H). apply rbind_ok in H as (nw & Hnw & H).
    rewrite Hd in H. unfold get_asset_object in H. cbn [of_option rbind] in H. rewrite Ha in H. cbn [of_option rbind] in H.
    apply rbind_ok in H as (d1 & H1 & H). rewrite Hbb in H. cbn [of_option rbind] in H.
    apply rbind_ok in H as (d2 & H2 & H). apply rbind_ok in H as (d3 & H3 & H). safe_inv.
    exists d3. split_and!; [done..|]. exists y, z, aid, a, bb, d1, d2. by split_and!.
  - apply rbind_ok in H as (d1 & H1 & H). exists d1. by split_and!.
Qed.

Lemma split_fba_balance_conserves d id n b i d' :
  split_fba_balance d id n b i = Ok d' → mconserves d d' ∧ same_market d d'.
Proof.
  intros H. assert (∃ f, db_fbas d !! id = Some f) as [f Hf].
  { unfold split_fba_balance in H. apply rbind_ok in H as (? & _ & H).
    apply rbind_ok in H as (f & Hf%of_option_ok & _). eauto. }
  destruct (split_fba_balance_inv _ _ _ _ _ _ _ Hf H) as
    [_ [[_ ->]|(_ & core & s & c & d3 & Hcore & Hs & _ & H4 & Hc)]]; [split; [apply mmoves_refl|done]|].
  destruct c.
  - destruct Hc as (y & z & aid & a & bb & d1 & d2 & _ & _ & _ & _ & _ & H1 & H2 & H3).
    eapply fba_payments in H4 as (M & S & _); [|exact Hcore|exact Hs|exact Hf| |exact H1|exact H2|exact H3]; [done|lia].
  - apply burn_core_moves in Hc as (M & S & B & F & _); [|done].
    eapply modify_fba_moves in H4 as (M' & S' & _); [|rewrite F; exact Hf].
    split; [eapply mmoves_ext; [by eapply mmoves_trans|delta_solve]|by etrans].
Qed.

Lemma distribute_fba_balances_conserves d d' :
  distribute_fba_balances d = Ok d' → mconserves d d' ∧ same_market d d'.
Proof.
  unfold distribute_fba_balances. intros H. apply rbind_ok in H as (d1 & [M1 S1]%split_fba_balance_conserves & H).
  apply rbind_ok in H as (d2 & [M2 S2]%split_fba_balance_conserves & [M3 S3]%split_fba_balance_conserves).
  split; [|by do 2 (etrans; [eassumption|])].
  eapply mmoves_ext; [eapply mmoves_trans; [exact M1|by eapply mmoves_trans]|done].
Qed.

(** The split of an accumulator: a designated asset that is configured gets its
    shares, rounded down, for its buyback account and its issuer, the network
    (that is, the reserve) all the rest; without one the network gets
    everything.  Nothing stays in the accumulator and no core is lost. *)
Theorem split_fba_balance_correct d id n b i d' f core s c :
  0 <= n → 0 <= b → 0 <= i → db_fbas d !! id = Some f → 0 <= fba_accumulated_fba_fees f < 2 ^ 62 →
  db_assets d !! core_id = Some core → db_asset_dyn d !! as_dynamic_asset_data_id core = Some s →
  is_configured d f = Ok c → split_fba_balance d id n b i = Ok d' →
  let fees := fba_accumulated_fba_fees f in
  mconserves d d' ∧ fba_accumulated_fba_fees <$> db_fbas d' !! id = Some 0 ∧
  ∃ s', db_asset_dyn d' !! as_dynamic_asset_data_id core = Some s' ∧
    if c then
      ∃ aid a, fba_designated_asset f = Some aid ∧ db_assets d !! aid = Some a ∧
        dd_current_supply s' = dd_current_supply s - network_income fees b i ∧
        ∀ o, amount (get_balance d' o core_id) = amount (get_balance d o core_id) + fba_income fees b i a o
    else dd_current_supply s' = dd_current_supply s - fees ∧
      ∀ o, amount (get_balance d' o core_id) = amount (get_balance d o core_id).
Proof.
  intros Hn Hb Hi Hf Hfees Hcore Hs Hc H fees. split; [by eapply split_fba_balance_conserves|].
  destruct (split_fba_balance_inv _ _ _ _ _ _ _ Hf H) as [Hpct Hcase]. fold fees in Hfees, Hcase.
  destruct Hcase as [[E0 ->]|(_ & core' & s0 & c' & d3 & Hcore' & Hs0 & Hc' & H4 & Hcase)].
  - split; [by rewrite Hf; simpl; f_equal|]. exists s. split; [done|]. unfold fba_income, network_income. rewrite E0.
    assert (∀ k, 0 * k / GRAPHENE_100_PERCENT = 0) as Ez by (intros; by rewrite Z.mul_0_l).
    destruct c; [|split; [lia|done]]. apply is_configured_true in Hc as (aid & a & ? & ? & _). exists aid, a.
    split_and!; [done..|rewrite !Ez; lia|]. intros o. rewrite !Ez. repeat case_decide; lia.
  - assert (core' = core ∧ s0 = s ∧ c' = c) as (-> & -> & ->) by (split_and!; congruence). destruct c.
    + destruct Hcase as (y & z & aid & a & bb & d1 & d2 & Hd & Ha & Hbb & Hy & Hz & H1 & H2 & H3).
      unfold GRAPHENE_100_PERCENT in Hpct. apply share_of_ok in Hy as [Ey _], Hz as [Ez _]; [|done|unfold GRAPHENE_100_PERCENT; lia..].
      eapply fba_payments in H4 as (_ & _ & E & (s' & Hs' & Es) & B); [|exact Hcore|exact Hs|exact Hf| |exact H1|exact H2|exact H3];
        [|fold fees; lia].
      split; [exact E|]. exists s'. split; [done|]. exists aid, a. unfold fba_income, network_income. rewrite Hbb, <- Ey, <- Ez.
      split_and!; [done..|]. intros o. rewrite B. repeat case_decide; naive_solver lia.
    + apply burn_core_moves in Hcase as (_ & _ & B & F & s1 & s' & Hs1 & Hs' & Es); [|done].
      eapply modify_fba_moves in H4 as (_ & _ & B' & D' & _ & F'); [|rewrite F; exact Hf].
      split; [by rewrite F'|]. exists s'. rewrite D'. split_and!; [done|congruence|]. intros o. unfold get_balance. by rewrite B', B.
Qed.
End properties.

(** ** An accumulator of 1001 *)

Definition top_coin : asset_object :=
  mkAssetObject bob 0 charge_market_fee ∅ ∅ (mkPrice (mkAsset 1 2) (mkAsset 1 0)) 0 None (Some carol)
    "TOPCOIN" 2 1000000 0 0 ∅ ∅.

Definition fba_db : database :=
  let bob_account := agent_of (sample_account "bob" bob) in
  set_fbas (λ _, {[ 1 := mkFba 1001 (Some 2) ]})
    (set_assets (<[2 := top_coin]>)
      (set_accounts (λ t, mkTable (<[bob := set_top_n_control_flags (λ _, 3)
        (set_owner_special_authority (λ _, top_holders_special_authority 2 10)
          (set_active_special_authority (λ _, top_holders_special_authority 2 10) bob_account))]> (objs t)) (next_id t))
        sample_db)).

Lemma split_fba_balance_correct_witness :
  ∃ d', split_fba_balance (FC := fc_reference) fba_db 1 2000 6000 2000 = Ok d' ∧
    amount (get_balance d' carol 0) = 600 ∧ amount (get_balance d' bob 0) = 2200.
Proof.
  set (d' := get_ok (split_fba_balance (FC := fc_reference) fba_db 1 2000 6000 2000) fba_db).
  assert (split_fba_balance (FC := fc_reference) fba_db 1 2000 6000 2000 = Ok d') as E
    by (apply get_ok_eq; vm_compute; reflexivity).
  destruct (split_fba_balance_correct (FCL := fc_reference_laws) fba_db 1 2000 6000 2000 d' (mkFba 1001 (Some 2))
    (mkAssetObject 3 0 0 ∅ ∅ (unit_price 0) 0 None None "OMNIBAZAAR" 5 GRAPHENE_MAX_SHARE_SUPPLY 0 0 ∅ ∅)
    (mkDynData 1018520 0 0 0) true) as (_ & _ & s' & _ & aid & a & Hd & Ha & _ & B);
    [lia..|reflexivity|simpl; lia|reflexivity|reflexivity|vm_compute; reflexivity|exact E|].
  injection Hd as <-. injection Ha as <-. exists d'. split; [exact E|].
  rewrite !B. split; vm_compute; reflexivity.
Defined.
