(* ===== verification/Maintenance.v ===== *)
(** * Chain maintenance ([db_maint.cpp], [update_vested_balances] of
    [db_update.cpp])

    The steps of [perform_chain_maintenance] that are not in [PopScores],
    [Elections], [Budget] and [Fba]: buyback orders, automatic withdrawal of
    vested funds, the change of the parameters, the reserved names, the time
    of the next maintenance, the revival of settled assets by bids; and the
    whole of it. *)

From stdpp Require Import gmap strings list.
From Stdlib Require Import ZArith Lia.
From S2P Require Import Prelude Fc Config Authority Asset VestingBalance Objects Database Sample Balances Fees Exchange VestingEval Market MarketEval PopScores Elections Budget Fba.

Local Open Scope Z_scope.

Definition set_updated_at : (Z → Z) → listing_object → listing_object :=
  ltac:(field_setter listing_eta lo_updated_at).

Section operations.
Context {FC : FcArith} {BA : BoostArith} {FS : FcString}.

(** ** Buyback orders *)

(** An exception in the middle of an evaluator's writes is caught with
    neither a result nor an undo session: such a run has no result here. *)
Definition half_done {A} (r : result A) : result A :=
  match r with Ok a => Ok a | Throw _ => Throw undefined_behaviour end.

Definition buyback_order (account asset_to_sell amount_to_sell asset_to_buy : Z) : limit_order_create_operation :=
  mkLimitCreate (core_asset 0) account (mkAsset amount_to_sell asset_to_sell) (mkAsset 1 asset_to_buy)
    (2 ^ 32 - 1) false.

(** What the evaluation of an operation without a fee reads. *)
Definition evaluate_order (d : database) (op : limit_order_create_operation) : result unit :=
  let* _ := prepare_fee d (lc_seller op) (lc_fee op) in
  let* _ := limit_order_create_do_evaluate d op in
  Ok tt.

Definition sell_holding (asset_to_buy account : Z) (allowed : gset Z) (d : database) (asset_to_sell : Z)
    : result database :=
  match db_balances d !! (account, asset_to_sell) with
  | None => Ok d
  | Some amount_to_sell =>
      if asset_to_sell =? asset_to_buy then Ok d
      else if amount_to_sell =? 0 then Ok d
      else if negb (bool_decide (asset_to_sell ∈ allowed)) then Ok d
      else
        let op := buyback_order account asset_to_sell amount_to_sell asset_to_buy in
        match evaluate_order d op with
        | Throw e => if catchable e then Ok d else Throw e
        | Ok _ =>
            half_done (
              let* (order_id, d) := limit_order_create_start false true (Ok 0) d op in
              match objs (db_limit_orders d) !! order_id with
              | None => Ok d
              | Some _ => start_evaluate false true (Ok 0) d (mkLimitCancel (core_asset 0) order_id account)
              end)
        end
  end.

(** The holdings of the account, in the order of the assets. *)
Definition buyback (d : database) (asset_to_buy : Z) : result database :=
  let* a := get_asset_object d asset_to_buy in
  let* account_id := of_option undefined_behaviour (as_buyback_account a) in
  let* account := get_account d account_id in
  match ao_allowed_assets account with
  | None => Ok d
  | Some allowed => rfold (sell_holding asset_to_buy account_id allowed) d (ids_of (db_assets d))
  end.

Definition create_buyback_orders (d : database) : result database :=
  rfold (λ d bbo, let* asset_to_buy := index_get (db_buybacks d) bbo in buyback d asset_to_buy)
    d (ids_of (objs (db_buybacks d))).

(** ** Vested balances *)

(** Each withdrawal has its own undo session: one that fails changes
    nothing.  [withdraw_fee] is what the schedule asks for it. *)
Definition update_vested_balance (withdraw_fee : result Z) (d : database) (id : Z) : result database :=
  let* v := index_get (db_vesting d) id in
  try_catch
    (let* allowed := vb_get_allowed_withdraw v (head_block_time d) in
     if 0 <? amount allowed then
       let op := mkVestingWithdraw (core_asset 0) id (vb_owner v) allowed in
       let* _ := vesting_withdraw_validate op in
       start_evaluate false false withdraw_fee d op
     else Ok d)
    (Ok d).

Definition update_vested_balances (withdraw_fee : result Z) (d : database) : result database :=
  rfold (update_vested_balance withdraw_fee) d (ids_of (objs (db_vesting d))).

(** ** Parameters *)

(** [x >>= n] on [uint64_t]. *)
Definition shift_right_u64 (x n : Z) : result Z :=
  if 64 <=? n then Throw undefined_behaviour else Ok (Z.shiftr x n).

(** Defaults for the publisher fee limits when OM-749 takes effect. *)
Definition default_publisher_fees (p : chain_parameters) : chain_parameters :=
  set_publisher_fee_max (λ x, Some (default OMNIBAZAAR_DEFAULT_PUBLISHER_FEE_MAX x))
    (set_publisher_fee_min (λ x, Some (default OMNIBAZAAR_DEFAULT_PUBLISHER_FEE_MIN x)) p).

Definition update_global_parameters (d : database) : result database :=
  let gp := db_gpo d in
  let p := gp_parameters gp in
  if cp_accounts_per_fee_scale p =? 0 then Throw undefined_behaviour
  else
    let shift := cp_account_fee_scale_bitshifts p *
                 (dg_accounts_registered_this_interval (db_dgpo d) / cp_accounts_per_fee_scale p) in
    let* basic_fee := shift_right_u64 (cp_account_basic_fee p) (wrap_u32 shift) in
    let p := default (set_account_basic_fee (λ _, basic_fee) p) (gp_pending_parameters gp) in
    let p := if HARDFORK_OM_749_TIME <=? head_block_time d then default_publisher_fees p else p in
    Ok (set_gpo (set_parameters (λ _, p) ∘ set_pending_parameters (λ _, None)) d).

(** ** Reserved names *)

Definition merge_reserved_names (r : reserved_names_object) : reserved_names_object :=
  mkReservedNames
    ((rn_names r ∪ set_map to_lower (rn_pending_names_to_add r)) ∖ set_map to_lower (rn_pending_names_to_delete r))
    ∅ ∅.

Definition update_reserved_names (d : database) : database :=
  set_reserved_names merge_reserved_names d.

(** ** The next maintenance *)

Definition next_maintenance_time (next interval timestamp block_num : Z) : result Z :=
  if timestamp <? next then Ok next
  else if interval =? 0 then Throw undefined_behaviour
  else if block_num =? 1 then Ok (wrap_u32 (wrap_u32 (timestamp / interval + 1) * interval))
  else
    let y := Z.quot (time_sub_seconds timestamp next) interval in
    Ok (time_add next ((y + 1) * interval)).

(** ** Bids on settled assets *)

(** The best bids that cover the debt together, as far as their positions
    would be sound: the amount covered and the bids. *)
Fixpoint covering_bids (d : database) (bad : asset_bitasset_data_object) (supply covered : Z) (ids : list Z)
    : result (Z * list Z) :=
  if supply <=? covered then Ok (covered, [])
  else
    match ids with
    | [] => Ok (covered, [])
    | id :: ids' =>
        let* bid := index_get (db_bids d) id in
        let p := bid_inv_swan_price bid in
        let* total_collateral := asset_mul_price (quote p) (bd_settlement_price bad) in
        let* total_collateral := asset_add total_collateral (base p) in
        let* cp := call_price (quote p) total_collateral (maintenance_collateral_ratio (bd_current_feed bad)) in
        if price_geb (price_inv cp) (settlement_price (bd_current_feed bad)) then Ok (covered, [])
        else
          let* covered := safe_add covered (amount (quote p)) in
          let* (total, taken) := covering_bids d bad supply covered ids' in
          Ok (total, id :: taken)
    end.

(** One bid takes over its debt and its share of the settlement fund; the
    last one takes what is left. *)
Definition take_over (bad : asset_bitasset_data_object) (s : database * Z * Z) (id : Z)
    : result (database * Z * Z) :=
  let '(d, to_cover, remaining_fund) := s in
  let* bid := index_get (db_bids d) id in
  let q := quote (bid_inv_swan_price bid) in
  let* share := asset_mul_price q (bd_settlement_price bad) in
  let last := to_cover <=? amount q in
  let debt := if last then to_cover else amount q in
  let collateral := if last then remaining_fund else amount share in
  let* to_cover := safe_sub to_cover debt in
  let* remaining_fund := safe_sub remaining_fund collateral in
  let* d := execute_bid d id debt collateral (bd_current_feed bad) in
  Ok (d, to_cover, remaining_fund).

Definition process_bids (d : database) (bad : asset_bitasset_data_object) : result database :=
  if bd_is_prediction_market bad then Ok d
  else if price_is_null (settlement_price (bd_current_feed bad)) then Ok d
  else if head_block_time d <=? HARDFORK_CORE_216_TIME then Ok d
  else
    let* nothing := asset_mul_price (mkAsset 0 (backing bad)) (bd_settlement_price bad) in
    let to_revive_id := asset_id nothing in
    let* to_revive := get_asset_object d to_revive_id in
    let* bdd := get_asset_dyn d (as_dynamic_asset_data_id to_revive) in
    let* hi := price_max (backing bad) to_revive_id in
    let* (covered, taken) := covering_bids d bad (dd_current_supply bdd) 0 (bids_on d to_revive_id hi) in
    if covered <? dd_current_supply bdd then Ok d
    else
      let* (d, to_cover, remaining_fund) :=
        rfold (take_over bad) (d, dd_current_supply bdd, bd_settlement_fund bad) taken in
      FC_ASSERT (remaining_fund =? 0) ;;
      FC_ASSERT (to_cover =? 0) ;;
      cancel_bids_and_revive_mpa d to_revive_id.

(** No settlement volume yet in the new interval. *)
Definition bitasset_maintenance (d : database) (id : Z) : result database :=
  let* b := of_option unknown_object (db_bitassets d !! id) in
  let b := set_force_settled_volume (λ _, 0) b in
  let d := set_bitassets (<[id := b]>) d in
  if has_settlement b then process_bids d b else Ok d.

(** ** The whole of it *)

Definition process_hf_om_774 (d : database) : result database :=
  rfold (λ d id, modify_listing d id (λ l, Ok (set_updated_at (λ _, head_block_time d) l)))
    d (ids_of (objs (db_listings d))).

(** From the elections to the withdrawal of vested funds. *)
Definition accounts_and_votes (withdraw_fee : result Z) (d : database) : result database :=
  let* (d, t) := perform_account_maintenance d in
  let buffer := vote_tally_buffer t in
  let* d := update_top_n_authorities d in
  let* d := update_account_scores buffer d in
  let* d := update_active_witnesses buffer d in
  let* d := update_active_committee_members buffer d in
  let* d := update_worker_votes buffer d in
  update_vested_balances withdraw_fee d.

(** The new maintenance time, and what happens when it passes a hardfork. *)
Definition schedule_maintenance (timestamp block_num : Z) (d : database) : result database :=
  let before := dg_next_maintenance_time (db_dgpo d) in
  let* next := next_maintenance_time before (cp_maintenance_interval (parameters d)) timestamp block_num in
  let* d :=
    if (before <=? HARDFORK_OM_774_TIME) && (HARDFORK_OM_774_TIME <? next) then process_hf_om_774 d else Ok d in
  let d :=
    if (before <=? HARDFORK_OM_774_2_TIME) && (HARDFORK_OM_774_2_TIME <? next)
    then set_gpo (set_parameters (set_maximum_listing_lifetime (Z.max (100 * 1000 * 1000)))) d else d in
  modify_dgpo d (λ g, Ok (set_accounts_registered (λ _, 0) (set_next_maintenance_time (λ _, next) g))).

Definition perform_chain_maintenance (withdraw_fee : result Z) (timestamp block_num : Z) (d : database)
    : result database :=
  let* d := distribute_fba_balances d in
  let* d := create_buyback_orders d in
  let* d := accounts_and_votes withdraw_fee d in
  let* d := update_global_parameters d in
  let d := update_reserved_names d in
  let* d := schedule_maintenance timestamp block_num d in
  let* d := rfold bitasset_maintenance d (ids_of (db_bitassets d)) in
  process_budget d.
End operations.
