(* ===== verification/Revival.v ===== *)
(** * Settled assets revived by bids ([process_bids] of [db_maint.cpp])

    At maintenance the best bids on a globally settled asset take over its
    debt, if together they cover all of it: the theorem says that no more and
    no less than the debt is taken over and that the settlement fund is
    distributed to the last satoshi. *)

From stdpp Require Import gmap strings list.
From Stdlib Require Import ZArith Lia.
From S2P Require Import Prelude Fc Config Asset Objects Database Sample Balances Market MarketProps MarketSteps Elections Maintenance.

Local Open Scope Z_scope.

(** What is owed in asset [aid]. *)
Definition debt_of (aid : Z) (d : database) : Z :=
  msum (λ _ c, if debt_type c =? aid then call_debt c else 0) (objs (db_call_orders d)).

(** The settled asset [aid] with its bitasset data [b]: the fund covers the
    settlement of the whole supply, and the bids are sound. *)
Record revivable (d : database) (aid i : Z) (b : asset_bitasset_data_object) (a : asset_object)
    (s : asset_dynamic_data_object) : Prop := {
  rv_asset : db_assets d !! aid = Some a;
  rv_core : aid ≠ core_id;
  rv_data : as_bitasset_data_id a = Some i;
  rv_dyn : db_asset_dyn d !! as_dynamic_asset_data_id a = Some s;
  rv_supply : 0 <= dd_current_supply s < 2 ^ 63;
  rv_price : price_pos (bd_settlement_price b) ∧ asset_id (base (bd_settlement_price b)) = aid ∧
             asset_id (quote (bd_settlement_price b)) = backing b ∧ aid ≠ backing b;
  rv_fund : dd_current_supply s * amount (quote (bd_settlement_price b)) / amount (base (bd_settlement_price b))
            <= bd_settlement_fund b < 2 ^ 62;
  rv_bids : ∀ k bid, objs (db_bids d) !! k = Some bid → asset_id (quote (bid_inv_swan_price bid)) = aid →
    asset_id (base (bid_inv_swan_price bid)) = backing b ∧
    0 < amount (quote (bid_inv_swan_price bid)) < 2 ^ 62 ∧ 0 <= amount (base (bid_inv_swan_price bid)) < 2 ^ 62 }.

Section revival.
Context {FC : FcArith} {FCL : FcArithLaws FC} {BA : BoostArith} {BAL : BoostArithLaws BA}.

(** What [execute_bid] writes: a position for the debt, with the collateral
    of the bid and of the fund. *)
Lemma execute_bid_effect d id debt fund feed d' :
  execute_bid d id debt fund feed = Ok d' →
  ∃ bid o n, objs (db_bids d) !! id = Some bid ∧ objs (db_call_orders d) !! n = None ∧
    objs (db_call_orders d') = <[n := o]> (objs (db_call_orders d)) ∧
    call_borrower o = bid_bidder bid ∧ call_debt o = debt ∧
    call_collateral o = amount (base (bid_inv_swan_price bid)) + fund ∧
    debt_type o = asset_id (quote (bid_inv_swan_price bid)) ∧
    objs (db_bids d') = delete id (objs (db_bids d)) ∧ db_asset_dyn d' = db_asset_dyn d.
Proof.
  unfold execute_bid. intros H. apply rbind_ok in H as (bid & Hb%of_option_ok & H).
  apply rbind_ok in H as (coll & Hcoll & H). safe_inv.
  apply rbind_ok in H as (cp & (_ & I2 & _)%call_price_ids & H).
  apply rbind_ok in H as ([n t] & Ht & H). apply rbind_ok in H as (d1 & H1 & [= <-]).
  apply index_create_ok in Ht as (-> & Hnone & _ & ->).
  assert (db_call_orders d1 = mkTable (<[next_id (db_call_orders d) := mkCall (bid_bidder bid)
    (amount (base (bid_inv_swan_price bid)) + fund) debt cp]> (objs (db_call_orders d))) (next_id (db_call_orders d) + 1) ∧
    db_bids d1 = db_bids d ∧ db_asset_dyn d1 = db_asset_dyn d) as (E1 & E2 & E3).
  { case_in H1; [|injection H1 as <-; done]. apply rbind_ok in H1 as (a & _ & H1).
    unfold modify_statistics in H1. ok_inv. done. }
  exists bid. eexists _, _. split_and!; [done|exact Hnone|simpl; rewrite E1; simpl; reflexivity|done..| |].
  - simpl. by rewrite E2.
  - done.
Qed.

(** The bids taken, each while the debt was not covered yet. *)
Fixpoint taken_from (d : database) (supply covered : Z) (l : list Z) : Prop :=
  match l with
  | [] => True
  | id :: l => covered < supply ∧ ∃ bid, objs (db_bids d) !! id = Some bid ∧
      taken_from d supply (covered + amount (quote (bid_inv_swan_price bid))) l
  end.

Lemma covering_bids_ok d bad supply covered ids total l :
  covering_bids d bad supply covered ids = Ok (total, l) →
  taken_from d supply covered l ∧ sublist l ids ∧
  (supply <= total → l = [] → supply <= covered).
Proof.
  revert covered total l. induction ids as [|id ids IH]; intros covered total l H; simpl in H.
  - destruct (Z.leb_spec supply covered); injection H as <- <-; (split_and!; [done|constructor|done]).
  - destruct (Z.leb_spec supply covered); [injection H as <- <-; split_and!; [done|apply sublist_nil_l|done]|].
    apply rbind_ok in H as (bid & Hb%of_option_ok & H). apply rbind_ok in H as (? & _ & H).
    apply rbind_ok in H as (? & _ & H). apply rbind_ok in H as (cp & _ & H).
    case_in H; [injection H as <- <-; split_and!; [done|apply sublist_nil_l|lia]|].
    apply rbind_ok in H as (c' & Hc & H). apply rbind_ok in H as ([t l'] & Hl & [= <- <-]). safe_inv.
    apply IH in Hl as (? & ? & ?). split_and!; [|by constructor|done]. simpl. split; [lia|eauto].
Qed.

(** Floors of shares add up to at most the floor of the whole. *)
Lemma floor_shares x y n m : 0 <= x → 0 <= y → 0 <= n → 0 < m → x * n / m + y * n / m <= (x + y) * n / m.
Proof.
  intros. apply Z.div_le_lower_bound; [done|].
  pose proof (Z.mul_div_le (x * n) m). pose proof (Z.mul_div_le (y * n) m). nia.
Qed.

(** What one of the taken bids does to the books. *)
Definition revives (d d' : database) (aid bk debt fund : Z) : Prop :=
  mmoves d d' (λ x, amount_of x (mkAsset fund bk)) ∧ db_bitassets d' = db_bitassets d ∧
  db_assets d' = db_assets d ∧ db_asset_dyn d' = db_asset_dyn d ∧
  objs (db_bids d') ⊆ objs (db_bids d) ∧ debt_of aid d' = debt_of aid d + debt.

Lemma revives_refl d aid bk : revives d d aid bk 0 0.
Proof.
  split_and!; [|done..|lia]. eapply mmoves_ext; [apply mmoves_refl|]. intros. unfold amount_of. simpl. by case_match.
Qed.

Lemma revives_trans d1 d2 d3 aid bk x y f g :
  revives d1 d2 aid bk x f → revives d2 d3 aid bk y g → revives d1 d3 aid bk (x + y) (f + g).
Proof.
  intros (M1 & ? & ? & ? & ? & ?) (M2 & ? & ? & ? & ? & ?). split_and!; [|congruence..|by etrans|lia].
  eapply mmoves_ext; [by eapply mmoves_trans|]. delta_solve.
Qed.

Lemma execute_bid_revives d id bid bk debt fund feed d' :
  objs (db_bids d) !! id = Some bid → asset_id (base (bid_inv_swan_price bid)) = bk →
  0 <= amount (base (bid_inv_swan_price bid)) < 2 ^ 62 → amount_pos debt → 0 <= fund < 2 ^ 62 →
  execute_bid d id debt fund feed = Ok d' →
  revives d d' (asset_id (quote (bid_inv_swan_price bid))) bk debt fund ∧
  objs (db_bids d') = delete id (objs (db_bids d)).
Proof.
  intros Hb <- Hbase Hd Hf H. pose proof H as H'.
  apply execute_bid_effect in H' as (bid' & o & n & Hb' & Hn & Ec & _ & Ed & _ & Et & Eb & Edyn).
  assert (bid' = bid) as -> by congruence.
  eapply execute_bid_ok in H as (M & Eba & Ea); [|done|done|unfold amount_ok; lia].
  split; [|done]. split_and!; [done..|rewrite Eb; apply delete_subseteq|].
  unfold debt_of. rewrite Ec, msum_insert, Hn. simpl. rewrite Et, Z.eqb_refl. lia.
Qed.

Lemma taken_from_ext d d' supply l : ∀ covered,
  (∀ id, id ∈ l → objs (db_bids d') !! id = objs (db_bids d) !! id) →
  taken_from d supply covered l → taken_from d' supply covered l.
Proof.
  induction l as [|id l IH]; intros covered Hsame; simpl; [done|]. intros [Hc (bid & Hb & Hl)].
  split; [done|]. exists bid. split; [rewrite Hsame by left; done|]. apply IH; [|done].
  intros j Hj. apply Hsame. by right.
Qed.

(** The bids of [d] on [aid]. *)
Definition bids_sound (d : database) (aid bk : Z) : Prop :=
  ∀ k bid, objs (db_bids d) !! k = Some bid → asset_id (quote (bid_inv_swan_price bid)) = aid →
    asset_id (base (bid_inv_swan_price bid)) = bk ∧
    0 < amount (quote (bid_inv_swan_price bid)) < 2 ^ 62 ∧ 0 <= amount (base (bid_inv_swan_price bid)) < 2 ^ 62.

Lemma bids_sound_sub d d' aid bk : objs (db_bids d') ⊆ objs (db_bids d) → bids_sound d aid bk → bids_sound d' aid bk.
Proof. intros Hsub Hs k bid Hb. apply (Hs k). by eapply lookup_weaken. Qed.

Definition floor_share (p : price) (x : Z) : Z := x * amount (quote p) / amount (base p).

Lemma take_over_step bad aid supply covered d rem id l d' tc rf :
  price_pos (bd_settlement_price bad) → asset_id (base (bd_settlement_price bad)) = aid →
  asset_id (quote (bd_settlement_price bad)) ≠ aid →
  bids_sound d aid (backing bad) → (∀ b, objs (db_bids d) !! id = Some b → asset_id (quote (bid_inv_swan_price b)) = aid) →
  taken_from d supply covered (id :: l) → 0 <= supply - covered < 2 ^ 63 →
  floor_share (bd_settlement_price bad) (supply - covered) <= rem < 2 ^ 62 →
  take_over bad (d, supply - covered, rem) id = Ok (d', tc, rf) →
  revives d d' aid (backing bad) (supply - covered - tc) (rem - rf) ∧ objs (db_bids d') = delete id (objs (db_bids d)) ∧
  ((tc = 0 ∧ l = []) ∨
   ∃ bid, objs (db_bids d) !! id = Some bid ∧ tc = supply - (covered + amount (quote (bid_inv_swan_price bid))) ∧ 0 <= tc ∧
     floor_share (bd_settlement_price bad) tc <= rf < 2 ^ 62).
Proof.
  intros [Hpb Hpq] Hbase Hquote Hs Hid [Hc (bid & Hb & Hl)] Hr Hrem H. unfold take_over in H.
  apply rbind_ok in H as (bid' & Hb'%of_option_ok & H). assert (bid' = bid) as -> by congruence.
  apply rbind_ok in H as (share & Hsh & H). pose proof (Hid _ Hb) as Hq. destruct (Hs _ _ Hb Hq) as (Hbk & Hqa & Hba).
  apply rbind_ok in H as (tc' & Htc & H). apply rbind_ok in H as (rf' & Hrf & H).
  apply rbind_ok in H as (d1 & H1 & [= <- <- <-]). safe_inv.
  unfold floor_share, amount_pos in *.
  apply asset_mul_price_ok in Hsh as [Hsm [(_ & _ & Esh)|(E & _)]];
    [|congruence|by split|unfold amount_ok; lia|congruence].
  assert (0 <= amount share) by (rewrite Esh; apply Z.div_pos; nia).
  assert (0 <= (supply - covered) * amount (quote (bd_settlement_price bad)) / amount (base (bd_settlement_price bad)))
    by (apply Z.div_pos; nia).
  rewrite <- Hq. destruct (Z.leb_spec (supply - covered) (amount (quote (bid_inv_swan_price bid)))).
  - eapply execute_bid_revives in H1 as [R E]; [|done|exact Hbk|done|unfold amount_pos; lia|lia].
    split_and!; [|exact E|].
    + by replace (supply - covered - (supply - covered - (supply - covered))) with (supply - covered) by lia;
        replace (rem - (rem - rem)) with rem by lia.
    + left. split; [lia|]. destruct l; [done|]. destruct Hl. lia.
  - pose proof (floor_shares (amount (quote (bid_inv_swan_price bid))) (supply - covered - amount (quote (bid_inv_swan_price bid)))
      (amount (quote (bd_settlement_price bad))) (amount (base (bd_settlement_price bad)))) as Hfl.
    replace (amount (quote (bid_inv_swan_price bid)) + (supply - covered - amount (quote (bid_inv_swan_price bid))))
      with (supply - covered) in Hfl by lia.
    assert (0 <= (supply - covered - amount (quote (bid_inv_swan_price bid))) * amount (quote (bd_settlement_price bad))
      / amount (base (bd_settlement_price bad))) by (apply Z.div_pos; nia).
    eapply execute_bid_revives in H1 as [R E]; [|done|exact Hbk|done|unfold amount_pos; lia|lia].
    split_and!; [|exact E|].
    + replace (supply - covered - (supply - covered - amount (quote (bid_inv_swan_price bid))))
        with (amount (quote (bid_inv_swan_price bid))) by lia.
      by replace (rem - (rem - amount share)) with (amount share) by lia.
    + right. exists bid. split_and!; [done|lia..|rewrite Esh in *; lia|lia].
Qed.

Lemma take_overs_ok bad aid supply l : ∀ covered d rem d' tc rf,
  price_pos (bd_settlement_price bad) → asset_id (base (bd_settlement_price bad)) = aid →
  asset_id (quote (bd_settlement_price bad)) ≠ aid →
  NoDup l → taken_from d supply covered l → bids_sound d aid (backing bad) →
  (∀ id b, id ∈ l → objs (db_bids d) !! id = Some b → asset_id (quote (bid_inv_swan_price b)) = aid) →
  0 <= supply - covered < 2 ^ 63 → floor_share (bd_settlement_price bad) (supply - covered) <= rem < 2 ^ 62 →
  rfold (take_over bad) (d, supply - covered, rem) l = Ok (d', tc, rf) →
  revives d d' aid (backing bad) (supply - covered - tc) (rem - rf).
Proof.
  induction l as [|id l IH]; intros covered d rem d' tc rf Hp Hb Hq Hnd Ht Hs Hid Hr Hrem H.
  { simpl in H. injection H as <- <- <-. rewrite !Z.sub_diag. apply revives_refl. }
  apply NoDup_cons in Hnd as [Hni Hnd]. cbn [rfold] in H. apply rbind_ok in H as ([[d1 tc1] rf1] & H1 & H).
  pose proof Ht as [_ (bid & Hbid & Hl)].
  eapply take_over_step in H1 as (R & E & Hcase); try done; [|by intros b Hb'; eapply Hid; [left|exact Hb']].
  destruct Hcase as [[-> ->]|(bid' & Hb' & -> & Htc & Hrf)].
  { simpl in H. injection H as <- <- <-. exact R. }
  assert (bid' = bid) as -> by congruence. apply IH in H; try done.
  - replace (supply - covered - tc) with (supply - covered - (supply - (covered + amount (quote (bid_inv_swan_price bid))))
      + (supply - (covered + amount (quote (bid_inv_swan_price bid))) - tc)) by lia.
    replace (rem - rf) with (rem - rf1 + (rf1 - rf)) by lia. by eapply revives_trans.
  - eapply taken_from_ext; [|exact Hl]. intros j Hj. rewrite E, lookup_delete_ne; [done|]. by intros ->.
  - eapply bids_sound_sub; [|done]. apply R.
  - intros j b Hj Hbj. eapply Hid; [by right|]. rewrite E in Hbj. by apply lookup_delete_Some in Hbj as [_ Hbj].
  - split; [lia|]. destruct (Hs _ _ Hbid) as (_ & ? & _); [by eapply Hid; [left|]|lia].
Qed.

(** Cancelling the other bids touches neither positions nor supplies. *)
Lemma cancel_bids_frame ids d d' : rfold cancel_bid d ids = Ok d' →
  db_call_orders d' = db_call_orders d ∧ db_asset_dyn d' = db_asset_dyn d ∧
  objs (db_bids d') ⊆ objs (db_bids d).
Proof.
  apply rfold_invariant with (P := λ d d', db_call_orders d' = db_call_orders d ∧
    db_asset_dyn d' = db_asset_dyn d ∧ objs (db_bids d') ⊆ objs (db_bids d)); [done| |].
  - intros x y z (? & ? & ?) (? & ? & ?). split_and!; [congruence..|by etrans].
  - intros x id y _ H. unfold cancel_bid in H. apply rbind_ok in H as (bid & _ & H).
    apply rbind_ok in H as (d1 & [m ->]%adjust_balance_frame & [= <-]). split_and!; [done..|apply delete_subseteq].
Qed.

Lemma cancel_bids_and_revive_frame d aid d' : cancel_bids_and_revive_mpa d aid = Ok d' →
  db_call_orders d' = db_call_orders d ∧ db_asset_dyn d' = db_asset_dyn d ∧
  db_assets d' = db_assets d ∧ objs (db_bids d') ⊆ objs (db_bids d).
Proof.
  unfold cancel_bids_and_revive_mpa. intros H. apply rbind_ok in H as (a & _ & H). apply rbind_ok in H as (? & _ & H).
  apply rbind_ok in H as (bad & _ & H). apply rbind_ok in H as (? & _ & H). apply rbind_ok in H as (? & _ & H).
  apply rbind_ok in H as (hi & _ & H). apply rbind_ok in H as (d1 & H1 & H).
  pose proof (cancel_bids_ok _ _ _ H1) as (_ & _ & Ea). apply cancel_bids_frame in H1 as (? & ? & ?).
  unfold modify_bitasset in H. ok_inv. done.
Qed.

(** What a revival leaves of the books of the asset. *)
Definition revived (b : asset_bitasset_data_object) : asset_bitasset_data_object :=
  set_settlement_fund (λ _, 0) (set_settlement_price (λ _, default_price) b).

Lemma process_bids_run d aid i b a s d' :
  revivable d aid i b a s → db_bitassets d !! i = Some b → process_bids d b = Ok d' →
  d' = d ∨
  mconserves d d' ∧ db_bitassets d' = <[i := revived b]> (db_bitassets d) ∧ db_assets d' = db_assets d ∧
  db_asset_dyn d' = db_asset_dyn d ∧ objs (db_bids d') ⊆ objs (db_bids d) ∧
  debt_of aid d' = debt_of aid d + dd_current_supply s.
Proof.
  intros [] Hb H. unfold process_bids in H. destruct rv_price0 as (Hp & Hbase & Hquote & Hne).
  do 3 (case_in H; [injection H as <-; by left|]).
  apply rbind_ok in H as (nothing & Hno & H).
  apply asset_mul_price_ok in Hno as [_ [(E & _)|(_ & Eid & _)]];
    [simpl in E; congruence| |done|unfold amount_ok; simpl; lia|congruence].
  rewrite Eid, Hbase in H. unfold get_asset_object, get_asset_dyn in H. rewrite rv_asset0 in H. cbn [of_option rbind] in H.
  rewrite rv_dyn0 in H. cbn [of_option rbind] in H. apply rbind_ok in H as (hi & _ & H).
  apply rbind_ok in H as ([total l] & (Ht & Hsub & _)%covering_bids_ok & H).
  case_in H; [injection H as <-; by left|right].
  apply rbind_ok in H as ([[d1 tc] rf] & H1 & H).
  apply rbind_ok in H as (? & ->%require_ok%Z.eqb_eq & H). apply rbind_ok in H as (? & ->%require_ok%Z.eqb_eq & H).
  rewrite <- (Z.sub_0_r (dd_current_supply s)) in H1.
  eapply take_overs_ok in H1 as (M & Eb & Ea & Ed & Hbids & Edebt); try done.
  - rewrite !Z.sub_0_r in M, Edebt. pose proof (cancel_bids_and_revive_frame _ _ _ H) as (Ec & Ed' & Ea' & Hb').
    eapply cancel_bids_and_revive_ok in H as [M' Eb']; [|by rewrite Ea|exact rv_data0|by rewrite Eb].
    split_and!; [|by rewrite Eb', Eb|congruence..|by etrans|].
    + eapply mmoves_ext; [by eapply mmoves_trans|]. intros y. cbn beta. unfold fund_locked. lia.
    + rewrite <- (Z.sub_0_r (dd_current_supply s)). etransitivity; [|exact Edebt]. unfold debt_of. by rewrite Ec.
  - by rewrite Hquote.
  - refine (sublist_NoDup _ _ _ Hsub). apply NoDup_visit.
  - intros id bid Hid Hbid. pose proof (elem_of_sublist _ _ _ Hid Hsub) as Hin.
    apply elem_of_visit in Hin as (bid' & Hbid' & [Hw _]%andb_true_iff). assert (bid' = bid) as -> by congruence. lia.
  - lia.
  - unfold floor_share. rewrite Z.sub_0_r. lia.
Qed.
End revival.

Section theorem.
Context {FC : FcArith} {FCL : FcArithLaws FC} {BA : BoostArith} {BAL : BoostArithLaws BA}.

(** C33. A globally settled asset whose bids are processed at maintenance
    either stays as it was, or it is no longer settled: then the positions of
    the bidders owe exactly what was in circulation, the settlement fund is
    empty, nothing is issued, and no coin of any asset is lost. *)
Theorem settled_asset_revived d aid i b a s d' :
  revivable d aid i b a s → db_bitassets d !! i = Some b → process_bids d b = Ok d' →
  d' = d ∨
  (mconserves d d' ∧ debt_of aid d' = debt_of aid d + dd_current_supply s ∧ db_asset_dyn d' = db_asset_dyn d ∧
   ∃ b', db_bitassets d' !! i = Some b' ∧ has_settlement b' = false ∧ bd_settlement_fund b' = 0).
Proof.
  intros Hr Hb [->|(M & Eb & _ & Ed & _ & Edebt)]%(process_bids_run _ _ _ _ _ _ _ Hr Hb); [by left|right].
  split_and!; [done..|]. exists (revived b). rewrite Eb, lookup_insert_eq. split_and!; [done| |done].
  unfold has_settlement, revived, price_is_null, price_eqb; simpl. by rewrite Z.eqb_refl.
Qed.
End theorem.

(** ** Two bids on a settled dollar *)

Definition settled_usd : asset_bitasset_data_object :=
  mkBitasset (mkBitassetOptions 86400 1 86400 0 2000 core_id) ∅
    (mkFeed (mkPrice (mkAsset 3 2) (mkAsset 1 0)) (mkPrice (mkAsset 3 2) (mkAsset 1 0)) 1750 1500)
    0 false 0 (mkPrice (mkAsset 2000 2) (mkAsset 700 0)) 700.
Definition usd_coin : asset_object :=
  mkAssetObject alice 0 63 ∅ ∅ (mkPrice (mkAsset 3 2) (mkAsset 1 0)) 2 (Some 0) None "USD" 2 1000000 0 0 ∅ ∅.
Definition bid_of (who collateral debt : Z) : collateral_bid_object :=
  mkBid who (mkPrice (mkAsset collateral 0) (mkAsset debt 2)).

Definition settled_db : database :=
  set_bids (λ _, mkTable (list_to_map [(0, bid_of alice 400 1200); (1, bid_of bob 300 900)]) 2)
  (set_bitassets (λ _, {[ 0 := settled_usd ]})
  (set_asset_dyn (<[2 := mkDynData 2000 0 0 0]>) (set_assets (<[ 2 := usd_coin ]>) sample_db))).

Lemma settled_db_revivable : revivable settled_db 2 0 settled_usd usd_coin (mkDynData 2000 0 0 0).
Proof.
  split; [reflexivity|done|reflexivity|reflexivity|vm_compute; split; congruence|
    vm_compute; repeat split; congruence|vm_compute; split; congruence|].
  intros k bid H _. change (objs (db_bids settled_db)) with
    (list_to_map [(0, bid_of alice 400 1200); (1, bid_of bob 300 900)] : gmap Z collateral_bid_object) in H.
  apply elem_of_list_to_map_2 in H.
  repeat (apply elem_of_cons in H as [[= -> ->]|H]; [simpl; split_and!; [done|lia..]|]). by apply elem_of_nil in H.
Qed.

Lemma settled_asset_revived_witness :
  ∃ d' b', process_bids (FC := fc_reference) (BA := boost_reference) settled_db settled_usd = Ok d' ∧
    debt_of 2 d' = 2000 ∧ db_bitassets d' !! 0 = Some b' ∧ bd_settlement_fund b' = 0 ∧
    call_collateral <$> objs (db_call_orders d') !! 1 = Some (300 + 280).
Proof.
  set (d' := get_ok (process_bids (FC := fc_reference) (BA := boost_reference) settled_db settled_usd) settled_db).
  assert (process_bids (FC := fc_reference) (BA := boost_reference) settled_db settled_usd = Ok d') as E
    by (apply get_ok_eq; vm_compute; reflexivity).
  destruct (settled_asset_revived (FCL := fc_reference_laws) (BAL := boost_reference_laws) settled_db 2 0 settled_usd
    usd_coin (mkDynData 2000 0 0 0) d' settled_db_revivable eq_refl E) as [Hd|(_ & Ed & _ & b' & Hb & _ & Hf)].
  - exfalso. apply (f_equal (debt_of 2)) in Hd. vm_compute in Hd. discriminate Hd.
  - exists d', b'. split; [exact E|]. split; [exact Ed|]. split; [exact Hb|]. split; [exact Hf|vm_compute; reflexivity].
Defined.
