(* ===== verification/BuybackProps.v ===== *)
(** * Buyback orders ([create_buyback_orders] of [db_maint.cpp])

    Every stored balance stays non-negative through whatever a limit order
    sets off: this is what makes the orders of the buyback accounts
    well formed, each for a whole holding; and the orders, with the matches
    and margin calls they set off and the cancellations of what is left of
    them, neither create nor destroy any asset. *)

From stdpp Require Import gmap strings list.
From Stdlib Require Import ZArith Lia.
From S2P Require Import Prelude Fc Config Authority Asset VestingBalance Objects Database Balances Fees Market MarketProps MarketSteps MarketEval MarketEvalProps PopScores Fba Maintenance.

Local Open Scope Z_scope.

(** No account is overdrawn. *)
Definition no_overdraft (d : database) : Prop := map_Forall (λ _ b, 0 <= b) (db_balances d).

Create HintDb solvent.

(** The goal [no_overdraft d'] from the run that made [d']. *)
Ltac solvent :=
  repeat match goal with
  | H : rbind _ _ = Ok _ |- _ =>
      let x := fresh "x" in let Hx := fresh "Hx" in
      apply rbind_ok in H; destruct H as (x & Hx & H); cbn beta in *
  | x : _ * _ |- _ => destruct x; cbn beta iota in *
  | H : Ok _ = Ok _ |- _ => injection H; clear H; intros; subst
  | H : Throw _ = Ok _ |- _ => discriminate H
  | H : context [match ?e with _ => _ end] |- _ =>
      match type of H with _ = Ok _ => destruct e eqn:? end
  end; eauto 12 with solvent.

Section properties.
Context {FC : FcArith} {FCL : FcArithLaws FC} {BA : BoostArith} {BAL : BoostArithLaws BA}.

(** ** Writes *)

Lemma solvent_eq d d' : db_balances d' = db_balances d → no_overdraft d → no_overdraft d'.
Proof. unfold no_overdraft. by intros ->. Qed.

Lemma adjust_balance_solvent d acct delta d' : adjust_balance d acct delta = Ok d' → no_overdraft d → no_overdraft d'.
Proof.
  intros [[_ ->]|(_ & Hlt & _ & ->)]%adjust_balance_ok Hd; [done|].
  apply map_Forall_insert_2; [|done]. rewrite get_balance_default in *.
  destruct (db_balances d !! _) as [b|] eqn:Hb; simpl in *; [apply Hd in Hb|]; lia.
Qed.

Lemma modify_statistics_solvent d id f d' : modify_statistics d id f = Ok d' → no_overdraft d → no_overdraft d'.
Proof. unfold modify_statistics. intros H. ok_inv. done. Qed.

Lemma modify_asset_dyn_solvent d id f d' : modify_asset_dyn d id f = Ok d' → no_overdraft d → no_overdraft d'.
Proof. unfold modify_asset_dyn. intros H. ok_inv. done. Qed.

Lemma modify_bitasset_solvent d a f d' : modify_bitasset d a f = Ok d' → no_overdraft d → no_overdraft d'.
Proof. unfold modify_bitasset. intros H. ok_inv. done. Qed.

Lemma modify_fba_solvent d id f d' : modify_fba d id f = Ok d' → no_overdraft d → no_overdraft d'.
Proof. unfold modify_fba. intros H. ok_inv. done. Qed.

#[local] Hint Resolve adjust_balance_solvent modify_statistics_solvent modify_asset_dyn_solvent
  modify_bitasset_solvent modify_fba_solvent : solvent.
#[local] Hint Extern 2 (no_overdraft (remove_limit _ ?d)) => apply (solvent_eq d); [reflexivity|] : solvent.
#[local] Hint Extern 2 (no_overdraft (remove_call _ ?d)) => apply (solvent_eq d); [reflexivity|] : solvent.
#[local] Hint Extern 2 (no_overdraft (put_limit _ _ ?d)) => apply (solvent_eq d); [reflexivity|] : solvent.
#[local] Hint Extern 2 (no_overdraft (put_call _ _ ?d)) => apply (solvent_eq d); [reflexivity|] : solvent.
#[local] Hint Extern 2 (no_overdraft (set_limit_orders _ ?d)) => apply (solvent_eq d); [reflexivity|] : solvent.

(** ** Orders and positions *)

Lemma cancel_limit_order_solvent d id d' : cancel_limit_order d id = Ok d' → no_overdraft d → no_overdraft d'.
Proof. unfold cancel_limit_order. intros H Hd. solvent. Qed.

#[local] Hint Resolve cancel_limit_order_solvent : solvent.

Lemma maybe_cull_solvent d id b d' : maybe_cull_small_order d id = Ok (b, d') → no_overdraft d → no_overdraft d'.
Proof. unfold maybe_cull_small_order. intros H Hd. solvent. Qed.

Lemma pay_market_fees_solvent d r a d' : pay_market_fees d r = Ok (a, d') → no_overdraft d → no_overdraft d'.
Proof. unfold pay_market_fees. intros H Hd. solvent. Qed.

Lemma pay_order_solvent d who r p d' : pay_order d who r p = Ok d' → no_overdraft d → no_overdraft d'.
Proof. unfold pay_order. intros H Hd. solvent. Qed.

#[local] Hint Resolve maybe_cull_solvent pay_market_fees_solvent pay_order_solvent : solvent.

Lemma fill_limit_order_solvent d id p r c b d' : fill_limit_order d id p r c = Ok (b, d') → no_overdraft d → no_overdraft d'.
Proof. unfold fill_limit_order. intros H Hd. solvent. Qed.

Lemma fill_call_order_solvent d id p r b d' : fill_call_order d id p r = Ok (b, d') → no_overdraft d → no_overdraft d'.
Proof.
  unfold fill_call_order. intros H Hd. solvent.
Qed.

#[local] Hint Resolve fill_limit_order_solvent fill_call_order_solvent : solvent.

Lemma match_limit_orders_solvent d u c p r d' : match_limit_orders d u c p = Ok (r, d') → no_overdraft d → no_overdraft d'.
Proof. unfold match_limit_orders. intros H Hd. solvent. Qed.

#[local] Hint Resolve match_limit_orders_solvent : solvent.

Lemma close_positions_solvent calls p : ∀ g d g' d', close_positions calls p g d = Ok (g', d') → no_overdraft d → no_overdraft d'.
Proof. induction calls as [|c calls IH]; simpl; intros g d g' d' H Hd; solvent. Qed.

#[local] Hint Resolve close_positions_solvent : solvent.

Lemma globally_settle_solvent d aid p d' : globally_settle_asset d aid p = Ok d' → no_overdraft d → no_overdraft d'.
Proof. unfold globally_settle_asset. intros H Hd. solvent. Qed.

#[local] Hint Resolve globally_settle_solvent : solvent.

Lemma check_for_blackswan_solvent d aid en b d' : check_for_blackswan d aid en = Ok (b, d') → no_overdraft d → no_overdraft d'.
Proof. unfold check_for_blackswan. intros H Hd. solvent. Qed.

Definition round_db (r : round_result) : database := match r with Stop _ d => d | Next _ _ d => d end.

Lemma call_round_solvent aid en c l fl mc d r : call_round aid en c l fl mc d = Ok r → no_overdraft d → no_overdraft (round_db r).
Proof. unfold call_round. intros H Hd. solvent; simpl; eauto with solvent. Qed.

#[local] Hint Resolve check_for_blackswan_solvent : solvent.

Lemma call_loop_solvent aid en calls : ∀ limits fl mc d b d',
  call_loop aid en calls limits fl mc d = Ok (b, d') → no_overdraft d → no_overdraft d'.
Proof.
  induction calls as [|c calls IHc]; intros limits; induction limits as [|l limits IHl]; intros fl mc d b d' H Hd;
    cbn in H; apply rbind_ok in H as ([swan d1] & H1%check_for_blackswan_solvent & H); try done;
    (case_in H; [by injection H as <- <-|]); try by injection H as <- <-.
  apply rbind_ok in H as (r & Hr%call_round_solvent & H); [|done]. destruct r as [mc' d2|fc fl' d2]; simpl in Hr.
  - by injection H as <- <-.
  - destruct fc, fl'; try done; eauto.
Qed.

#[local] Hint Resolve call_loop_solvent : solvent.

Lemma check_call_orders_solvent d aid en b d' : check_call_orders d aid en = Ok (b, d') → no_overdraft d → no_overdraft d'.
Proof. unfold check_call_orders. intros H Hd. solvent. Qed.

Lemma match_loop_solvent order old : ∀ d d', match_loop order old d = Ok d' → no_overdraft d → no_overdraft d'.
Proof. induction old as [|o old IH]; simpl; intros d d' H Hd; solvent. Qed.

#[local] Hint Resolve check_call_orders_solvent match_loop_solvent : solvent.

Lemma apply_order_solvent d order en b d' : apply_order d order en = Ok (b, d') → no_overdraft d → no_overdraft d'.
Proof. unfold apply_order. intros H Hd. solvent. Qed.

#[local] Hint Resolve apply_order_solvent : solvent.

Lemma limit_order_create_solvent sf sk req d op id d' :
  limit_order_create_start sf sk req d op = Ok (id, d') → no_overdraft d → no_overdraft d'.
Proof.
  unfold limit_order_create_start, convert_fee, limit_order_create_pay_fee, pay_fee, limit_order_create_do_apply.
  intros H Hd. solvent.
Qed.

Lemma limit_order_cancel_solvent sf sk req d op d' :
  start_evaluate (E := limit_order_cancel_evaluator) sf sk req d op = Ok d' → no_overdraft d → no_overdraft d'.
Proof.
  unfold start_evaluate, evaluate, Fees.apply, convert_fee, pay_fee. simpl. unfold limit_order_cancel_do_apply.
  intros H Hd. solvent.
Qed.

(** ** The orders of a buyback account *)

(** What an order sells is a 64-bit number, or its amount could not be taken
    from the balance. *)
Lemma limit_order_create_bound skip_check required d op id d' :
  0 < amount (lc_amount_to_sell op) → limit_order_create_start false skip_check required d op = Ok (id, d') →
  amount (lc_amount_to_sell op) < 2 ^ 63.
Proof.
  intros Hpos H. unfold limit_order_create_start in H. apply rbind_ok in H as (? & _ & H).
  apply rbind_ok in H as (? & _ & H). apply rbind_ok in H as (? & _ & H). apply rbind_ok in H as (d1 & _ & H).
  apply rbind_ok in H as ([? d2] & _ & H). apply rbind_ok in H as ([? d3] & H & _).
  unfold limit_order_create_do_apply in H. apply rbind_ok in H as (? & _ & H). apply rbind_ok in H as (d4 & _ & H).
  apply rbind_ok in H as (n & ->%asset_neg_ok & H). apply rbind_ok in H as (d5 & H & _).
  unfold adjust_balance in H. simpl in H. rewrite (proj2 (Z.eqb_neq _ _)) in H by lia.
  case_in H; [|ok_inv; lia]. apply rbind_ok in H as (? & H & _). rewrite (proj2 (Z.ltb_lt _ _)) in H by lia.
  apply rbind_ok in H as (? & H & _). unfold asset_neg in H. simpl in H. apply rbind_ok in H as (y & H & _).
  safe_inv. lia.
Qed.

Lemma sell_holding_ok to_buy account allowed d sell d' :
  assets_wf d → market_wf d → no_overdraft d → sell_holding to_buy account allowed d sell = Ok d' →
  mconserves d d' ∧ no_overdraft d'.
Proof.
  intros Ha Hm Hd H. unfold sell_holding in H.
  assert (mconserves d d ∧ no_overdraft d) as Hnone by (split; [apply mmoves_refl|done]).
  destruct (db_balances d !! (account, sell)) as [held|] eqn:Hb; [|by injection H as <-].
  apply Hd in Hb. cbn beta in Hb. do 3 (case_in H; [by injection H as <-|]). b2p.
  case_in H; [|case_in H; [by injection H as <-|done]].
  unfold half_done in H. case_in H; [injection H as ->|done].
  match goal with E : rbind _ _ = Ok d' |- _ => rename E into R end.
  apply rbind_ok in R as ([order d1] & H1 & R).
  assert (held < 2 ^ 63) as Hmax by (refine (limit_order_create_bound _ _ _ _ _ _ _ H1); simpl; lia).
  pose proof (limit_order_create_solvent _ _ _ _ _ _ _ H1 Hd) as Hd1.
  assert (limit_order_create_validate (buyback_order account sell held to_buy) = Ok tt) as Hv.
  { unfold limit_order_create_validate, buyback_order. simpl.
    rewrite (proj2 (Z.eqb_neq _ _)), (proj2 (Z.ltb_lt _ _)) by lia. done. }
  apply limit_order_create_correct in H1 as (Ha1 & Hm1 & E1 & _); [|exact Hv|by split_and!; simpl in *|done..].
  assert (mconserves d d1) as M1 by (intros _ _; split_and!; [done..|intros; simpl; rewrite E1; lia]).
  case_in R; [|by injection R as <-]. pose proof (limit_order_cancel_solvent _ _ _ _ _ _ R Hd1) as Hd'.
  apply limit_order_cancel_run in R as (M2 & _); [|done..]. split; [by eapply mconserves_trans|done].
Qed.

Lemma buyback_ok to_buy d d' : assets_wf d → market_wf d → no_overdraft d → buyback d to_buy = Ok d' →
  mconserves d d' ∧ no_overdraft d'.
Proof.
  intros Ha Hm Hd H. unfold buyback in H. apply rbind_ok in H as (a & _ & H). apply rbind_ok in H as (who & _ & H).
  apply rbind_ok in H as (acct & _ & H). case_in H; [|injection H as <-; split; [apply mmoves_refl|done]].
  revert H. generalize (ids_of (db_assets d)) as l. intros l. revert d Ha Hm Hd.
  induction l as [|i l IH]; intros d Ha Hm Hd H; simpl in H; [injection H as <-; split; [apply mmoves_refl|done]|].
  apply rbind_ok in H as (d1 & H1 & H). apply sell_holding_ok in H1 as [M1 Hd1]; [|done..].
  destruct (M1 Ha Hm) as (Ha1 & Hm1 & _). apply IH in H as [M2 Hd']; [|done..].
  split; [by eapply mconserves_trans|done].
Qed.

Lemma create_buyback_orders_ok d d' : assets_wf d → market_wf d → no_overdraft d → create_buyback_orders d = Ok d' →
  mconserves d d' ∧ no_overdraft d'.
Proof.
  unfold create_buyback_orders. generalize (ids_of (objs (db_buybacks d))) as l. intros l. revert d.
  induction l as [|i l IH]; intros d Ha Hm Hd H; simpl in H; [injection H as <-; split; [apply mmoves_refl|done]|].
  apply rbind_ok in H as (d1 & H1 & H). apply rbind_ok in H1 as (to_buy & _ & H1).
  apply buyback_ok in H1 as [M1 Hd1]; [|done..].
  destruct (M1 Ha Hm) as (Ha1 & Hm1 & _). apply IH in H as [M2 Hd']; [|done..].
  split; [by eapply mconserves_trans|done].
Qed.

(** ** The fees of confidential transfers *)

Lemma split_fba_balance_solvent d id n b i d' : split_fba_balance d id n b i = Ok d' → no_overdraft d → no_overdraft d'.
Proof. unfold split_fba_balance, burn_core. intros H Hd. solvent. Qed.

Lemma distribute_fba_balances_solvent d d' : distribute_fba_balances d = Ok d' → no_overdraft d → no_overdraft d'.
Proof.
  unfold distribute_fba_balances. intros H Hd. apply rbind_ok in H as (d1 & H1%split_fba_balance_solvent & H); [|done].
  apply rbind_ok in H as (d2 & H2%split_fba_balance_solvent & H%split_fba_balance_solvent); done.
Qed.
End properties.
