(* ===== verification/MaintenanceProps.v ===== *)
(** * What maintenance guarantees

    The next maintenance time is the first one of its grid that is in the
    future; and the whole of [perform_chain_maintenance] -- buyback orders
    placed, fees paid out, votes counted, vested funds withdrawn, settled assets revived, the budget
    released -- neither creates nor destroys any asset. *)

From stdpp Require Import gmap strings list.
From Stdlib Require Import ZArith Lia.
From S2P Require Import Prelude Fc Config Authority Asset VestingBalance Objects Database Sample Balances Fees Exchange VestingEval Market MarketProps MarketSteps MarketEval MarketEvalProps PopScores Elections Budget Fba Maintenance Revival BuybackProps.

Local Open Scope Z_scope.

Section properties.
Context {FC : FcArith} {FCL : FcArithLaws FC} {BA : BoostArith} {BAL : BoostArithLaws BA} {FS : FcString}.

(** ** The time of the next maintenance *)

(** After a maintenance the next one is at the first time in the future
    that lies a whole number of intervals after the last scheduled one (on the
    first block: the first multiple of the interval), however many intervals
    were missed. *)
Theorem next_maintenance_time_least next interval timestamp block_num :
  0 < interval → 0 <= next <= timestamp → timestamp + interval < 2 ^ 32 →
  ∃ k, let origin := if block_num =? 1 then 0 else next in
    next_maintenance_time next interval timestamp block_num = Ok (origin + k * interval) ∧
    timestamp < origin + k * interval <= timestamp + interval ∧
    ∀ j, timestamp < origin + j * interval → k <= j.
Proof.
  intros Hi Hn Ht. unfold next_maintenance_time.
  rewrite (proj2 (Z.ltb_ge _ _)), (proj2 (Z.eqb_neq _ _)) by lia.
  destruct (block_num =? 1).
  - exists (timestamp / interval + 1). pose proof (Z.mul_div_le timestamp interval).
    pose proof (Z.mul_succ_div_gt timestamp interval). assert (0 <= timestamp / interval) by (apply Z.div_pos; lia).
    rewrite (wrap_u32_small (_ + 1)), wrap_u32_small by nia. split_and!; [done|nia..|]. intros j Hj. nia.
  - rewrite time_sub_seconds_spec, Z.quot_div_nonneg by lia.
    exists ((timestamp - next) / interval + 1). pose proof (Z.mul_div_le (timestamp - next) interval).
    pose proof (Z.mul_succ_div_gt (timestamp - next) interval). assert (0 <= (timestamp - next) / interval) by (apply Z.div_pos; lia).
    rewrite time_add_small by nia. split_and!; [done|nia..|]. intros j Hj. nia.
Qed.

(** ** Steps that leave the settled assets alone *)

(** No asset is created or destroyed; bids, assets, their bitasset data and
    the supplies of all assets but the core one stay. *)
Definition sound (d : database) : Prop := assets_wf d ∧ market_wf d.

Definition steady (d d' : database) : Prop :=
  sound d → sound d' ∧ (∀ aid, imbalance aid d' = imbalance aid d) ∧
  db_bids d' = db_bids d ∧ db_bitassets d' = db_bitassets d ∧ db_assets d' = db_assets d ∧
  ∀ i, i ≠ 0 → db_asset_dyn d' !! i = db_asset_dyn d !! i.

#[export] Instance steady_preorder : PreOrder steady.
Proof.
  split; [by intros d Hd|]. intros d1 d2 d3 H12 H23 (S2 & I2 & B2 & D2 & A2 & F2)%H12.
  destruct (H23 S2) as (S3 & I3 & B3 & D3 & A3 & F3).
  split_and!; [done|intros; by rewrite I3|congruence..|]. intros i Hi. by rewrite F3, F2.
Qed.

Lemma steady_intro d d' : mconserves d d' → db_bids d' = db_bids d → db_bitassets d' = db_bitassets d →
  db_assets d' = db_assets d →
  (sound d → ∀ i, i ≠ 0 → db_asset_dyn d' !! i = db_asset_dyn d !! i) → steady d d'.
Proof.
  intros M ? ? ? F [Ha Hm]. destruct (M Ha Hm) as (? & ? & I).
  split_and!; [by split|intros; rewrite I; lia|done..|by apply F].
Qed.

Lemma steady_market d d' : mconserves d d' → same_market d d' →
  (sound d → ∀ i, i ≠ 0 → db_asset_dyn d' !! i = db_asset_dyn d !! i) → steady d d'.
Proof. intros M (_ & _ & _ & ? & ? & ? & _) F. by apply steady_intro. Qed.

Lemma rfold_steady {S A} (f : S → A → result S) (g : S → database) l s s' :
  (∀ s x s', f s x = Ok s' → steady (g s) (g s')) → rfold f s l = Ok s' → steady (g s) (g s').
Proof.
  intros Hf. apply rfold_invariant with (P := λ s s', steady (g s) (g s')); [reflexivity|intros ???; apply transitivity|].
  intros a x b _. apply Hf.
Qed.

Lemma sound_core d a : sound d → db_assets d !! core_id = Some a → as_dynamic_asset_data_id a = 0.
Proof. intros [(_ & (a' & Ha' & Hz) & _) _] Ha. congruence. Qed.

Lemma elections_steady d d' : only_elections d d' → steady d d'.
Proof.
  intros E. apply steady_intro; [|by rewrite E..|intros; by rewrite E].
  apply mmoves_intro; [by apply only_elections_conserves|]. intros (? & ? & ?). rewrite E. done.
Qed.

Lemma core_dyn_steady d a f d' : db_assets d !! core_id = Some a →
  modify_asset_dyn d (as_dynamic_asset_data_id a) f = Ok d' →
  sound d → ∀ i, i ≠ 0 → db_asset_dyn d' !! i = db_asset_dyn d !! i.
Proof.
  unfold modify_asset_dyn. intros Ha H S i Hi. ok_inv. simpl. rewrite (sound_core _ _ S Ha).
  by rewrite lookup_insert_ne.
Qed.

(** ** Fees of confidential transfers *)

Lemma modify_fba_frame d id f d' : modify_fba d id f = Ok d' →
  db_asset_dyn d' = db_asset_dyn d ∧ db_governance d' = db_governance d.
Proof. unfold modify_fba. intros H. by ok_inv. Qed.

Lemma burn_core_frame d a x d' : burn_core d a x = Ok d' → db_governance d' = db_governance d ∧ db_assets d' = db_assets d.
Proof. unfold burn_core, modify_asset_dyn. intros H. by ok_inv. Qed.

Lemma split_fba_balance_steady d id n b i d' : split_fba_balance d id n b i = Ok d' →
  steady d d' ∧ db_governance d' = db_governance d.
Proof.
  intros H. destruct (split_fba_balance_conserves _ _ _ _ _ _ H) as [M S].
  assert (∃ f, db_fbas d !! id = Some f) as [f Hf].
  { unfold split_fba_balance in H. apply rbind_ok in H as (? & _ & H).
    apply rbind_ok in H as (f & Hf%of_option_ok & _). eauto. }
  assert (db_governance d' = db_governance d ∧ (sound d → ∀ i, i ≠ 0 → db_asset_dyn d' !! i = db_asset_dyn d !! i))
    as [Hg F]; [|split; [by apply steady_market|done]].
  destruct (split_fba_balance_inv _ _ _ _ _ _ _ Hf H) as
    [_ [[_ ->]|(_ & core & s & c & d3 & Hcore & Hs & _ & [E4 G4]%modify_fba_frame & Hc)]]; [done|].
  rewrite E4, G4. destruct c.
  - destruct Hc as (y & z & aid & a & bb & d1 & d2 & _ & _ & _ & _ & _ & H1 & H2 & H3).
    rewrite adjust_balance_unless_0 in H2, H3.
    apply adjust_balance_frame in H2 as [m2 ->]. apply adjust_balance_frame in H3 as [m3 ->]. simpl.
    case_in H1; [by injection H1 as <-|]. split; [by apply burn_core_frame in H1 as [? _]|by eapply core_dyn_steady].
  - split; [by apply burn_core_frame in Hc as [? _]|by eapply core_dyn_steady].
Qed.

Lemma distribute_fba_balances_steady d d' : distribute_fba_balances d = Ok d' →
  steady d d' ∧ db_governance d' = db_governance d.
Proof.
  unfold distribute_fba_balances. intros H. apply rbind_ok in H as (d1 & [M1 S1]%split_fba_balance_steady & H).
  apply rbind_ok in H as (d2 & [M2 S2]%split_fba_balance_steady & [M3 S3]%split_fba_balance_steady).
  split; [by do 2 (etrans; [eassumption|])|congruence].
Qed.

(** ** Fees and votes of the accounts *)

Lemma deposit_lazy_vesting_frame d o amt secs owner rv ty r d' :
  deposit_lazy_vesting d o amt secs owner rv ty = Ok (r, d') → ∃ t, d' = set_vesting (λ _, t) d.
Proof.
  unfold deposit_lazy_vesting. intros H. case_in H; ok_inv; [exists (db_vesting d'); by destruct d'|].
  case_in H; ok_inv; [eauto|]. destruct x0; ok_inv. eauto.
Qed.

(** Steps that move funds of accounts only. *)
Definition calm (d d' : database) : Prop :=
  same_market d d' ∧ (sound d → sound d' ∧ ∀ i, i ≠ 0 → db_asset_dyn d' !! i = db_asset_dyn d !! i).

#[export] Instance calm_preorder : PreOrder calm.
Proof.
  split; [by intros d|]. intros d1 d2 d3 [S1 F1] [S2 F2]. split; [by etrans|].
  intros [Hd2 E1]%F1. destruct (F2 Hd2) as [Hd3 E2]. split; [done|]. intros i Hi. by rewrite E2, E1.
Qed.

Lemma calm_intro d d' f : moves d d' f → same_market d d' →
  (sound d → ∀ i, i ≠ 0 → db_asset_dyn d' !! i = db_asset_dyn d !! i) → calm d d'.
Proof.
  intros M S F. split; [done|]. intros Hd. split; [|by apply F]. destruct Hd as [Ha Hm].
  by destruct (mmoves_of_moves _ _ _ M S Ha Hm) as (? & ? & _).
Qed.

Lemma calm_steady d d' : mconserves d d' → calm d d' → steady d d'.
Proof. intros M [S F]. apply steady_market; [done..|]. intros Hd. by apply F. Qed.

Lemma deposit_cashback_calm d acct amt rv ty d' : deposit_cashback d acct amt rv ty = Ok d' → calm d d'.
Proof.
  intros H. apply (calm_intro _ _ _ (deposit_cashback_moves _ _ _ _ _ _ H)); revert H; unfold deposit_cashback;
    intros H; apply rbind_ok in H as (a & _ & H); (case_in H; [by injection H as <-|]); case_in H.
  1, 3: apply rbind_ok in H as (core & Hc%of_option_ok & H).
  - unfold modify_asset_dyn in H. by ok_inv.
  - by eapply core_dyn_steady.
  - apply rbind_ok in H as ([r d1] & [t ->]%deposit_lazy_vesting_frame & H).
    destruct r; [|by injection H as <-]. unfold modify_account in H. by ok_inv.
  - apply rbind_ok in H as ([r d1] & [t ->]%deposit_lazy_vesting_frame & H).
    destruct r; [|by injection H as <-]. unfold modify_account in H. by ok_inv.
Qed.

Lemma pay_out_fees_calm d acct total rv d' : pay_out_fees d acct total rv = Ok d' → calm d d'.
Proof.
  unfold pay_out_fees. intros H. apply rbind_ok in H as (n & _ & H). apply rbind_ok in H as (r & _ & H).
  apply rbind_ok in H as (d1 & H1 & H). apply rbind_ok in H as (c & _ & H). apply rbind_ok in H as (g & _ & H).
  apply rbind_ok in H as (d2 & C2%deposit_cashback_calm & C3%deposit_cashback_calm).
  transitivity d1; [|by transitivity d2]. split; [unfold modify_asset_dyn in H1; by ok_inv|].
  intros S. pose proof S as [(_ & (core & Hc & Hz) & _) Hm].
  rewrite <- Hz in H1. pose proof (core_dyn_steady _ _ _ _ Hc H1 S). split; [|done].
  apply (moves_modify_asset_dyn _ _ _ _ _ Hc) in H1 as (s & s' & _ & _ & -> & M).
  destruct S as [Ha _]. destruct (M Ha) as [Ha' _]. by split.
Qed.

Lemma process_fees_steady d stats a d' : process_fees d stats a = Ok d' → steady d d'.
Proof.
  unfold process_fees. intros H. apply rbind_ok in H as (s & Hs%of_option_ok & H). apply rbind_ok in H as (acct & _ & H).
  case_in H; [|by injection H as <-]. apply rbind_ok in H as (d1 & H1 & H). apply rbind_ok in H as (d2 & H2 & H).
  pose proof (pay_out_fees_stats _ _ _ _ _ H1) as E1. pose proof (pay_out_fees_stats _ _ _ _ _ H2) as E2.
  pose proof (pay_out_fees_calm _ _ _ _ _ H1) as C1. pose proof (pay_out_fees_calm _ _ _ _ _ H2) as C2.
  apply pay_out_fees_moves in H1, H2.
  apply moves_modify_statistics in H as (s1 & s' & Hs1 & Hs' & -> & Hm).
  assert (s1 = s) as -> by congruence. ok_inv. safe_inv. set (d' := set_statistics _ d2) in *.
  assert (calm d d') as C by (transitivity d1; [done|]; by transitivity d2).
  apply calm_steady; [|done]. apply mmoves_of_moves; [|apply C].
  eapply moves_ext; [eapply moves_trans; [exact H1|eapply moves_trans; eassumption]|].
  intros aid. simpl. unfold core_delta. rewrite !amount_of_core. case_match; lia.
Qed.

Lemma perform_account_maintenance_steady d d' t : perform_account_maintenance d = Ok (d', t) → steady d d'.
Proof.
  apply (rfold_steady _ fst _ (d, new_tally d) (d', t)). intros [d1 t1] id [d2 t2] H. unfold account_maintenance in H.
  apply rbind_ok in H as (t3 & _ & H). apply rbind_ok in H as (a & _ & H).
  apply rbind_ok in H as (d3 & H3 & [= <- <-]). by eapply process_fees_steady.
Qed.

(** ** Vested funds *)

(** An operation whose fee is in core and that only moves an account's
    funds. *)
Lemma vesting_withdraw_steady skip_check required d op d' :
  asset_id (vw_fee op) = core_id → start_evaluate false skip_check required d op = Ok d' → steady d d'.
Proof.
  intros Hfee H. assert (conserves d d') as M.
  { apply start_evaluate_ok in H as (st & d1 & d2 & Hev & _ & Hf & Happ & Hadj).
    apply (do_apply_conserves _ _ _ _ _ Hev) in Happ. apply adjust_balance_moves in Hadj.
    eapply moves_ext; [eapply moves_trans; [by apply Hf|eapply moves_trans; eassumption]|].
    intros aid; simpl. rewrite amount_of_neg. destruct (vw_fee op); simpl. lia. }
  apply start_evaluate_stages in H as (g & st & d0 & d1 & d2 & Hg & _ & H0 & H1 & H2 & H3).
  apply prepare_fee_ok in Hg as (_ & Ef & _). unfold convert_fee in H0. simpl in Ef. rewrite Ef, Hfee in H0.
  injection H0 as <-. unfold pay_fee, modify_statistics in H1. simpl in H2. unfold vesting_withdraw_do_apply in H2.
  apply rbind_ok in H2 as (t & _ & [m2 ->]%adjust_balance_frame). apply adjust_balance_frame in H3 as [m3 ->].
  ok_inv. apply steady_market; [by apply mmoves_of_moves|done|done].
Qed.

Lemma update_vested_balances_steady fee d d' : update_vested_balances fee d = Ok d' → steady d d'.
Proof.
  apply (rfold_steady _ id _ d d'). intros d1 vb d2 H. unfold update_vested_balance, try_catch in H.
  apply rbind_ok in H as (v & _ & H). case_match eqn:E; [|case_in H; [by injection H as <-|done]].
  injection H as <-. apply rbind_ok in E as (allowed & _ & E). case_in E; [|by injection E as <-].
  apply rbind_ok in E as (? & _ & E). by apply vesting_withdraw_steady in E.
Qed.

Lemma accounts_and_votes_steady fee d d' : accounts_and_votes fee d = Ok d' → steady d d'.
Proof.
  unfold accounts_and_votes. intros H. apply rbind_ok in H as ([d1 t] & H1%perform_account_maintenance_steady & H).
  apply rbind_ok in H as (d2 & H2%update_top_n_frame%elections_steady & H).
  apply rbind_ok in H as (d3 & H3%update_account_scores_frame%elections_steady & H).
  apply rbind_ok in H as (d4 & H4%update_active_witnesses_frame%elections_steady & H).
  apply rbind_ok in H as (d5 & H5%update_active_committee_frame%elections_steady & H).
  apply rbind_ok in H as (d6 & H6%update_worker_votes_frame%elections_steady & H%update_vested_balances_steady).
  transitivity d1; [done|]. transitivity d2; [done|]. transitivity d3; [done|]. transitivity d4; [done|].
  transitivity d5; [done|]. by transitivity d6.
Qed.

(** ** Parameters and times *)

Lemma update_global_parameters_steady d d' : update_global_parameters d = Ok d' → steady d d'.
Proof.
  unfold update_global_parameters. intros H. case_in H; [done|]. ok_inv.
  by apply elections_steady.
Qed.

Lemma update_reserved_names_steady d : steady d (update_reserved_names d).
Proof. by apply elections_steady. Qed.

Lemma process_hf_om_774_steady d d' : process_hf_om_774 d = Ok d' → steady d d'.
Proof.
  apply (rfold_steady _ id _ d d'). intros d1 l d2 H. unfold modify_listing in H. ok_inv.
  apply steady_market; [|done..]. apply mmoves_of_moves; [|done]. apply moves_set_listings.
Qed.

Lemma schedule_maintenance_steady timestamp n d d' : schedule_maintenance timestamp n d = Ok d' → steady d d'.
Proof.
  unfold schedule_maintenance. intros H. apply rbind_ok in H as (next & _ & H).
  apply rbind_ok in H as (d1 & H1 & H). transitivity d1.
  { case_in H1; [by apply process_hf_om_774_steady|by injection H1 as <-]. }
  match type of H with modify_dgpo ?x _ = _ => set (d2 := x) in H end. transitivity d2.
  { subst d2. case_match; [by apply elections_steady|done]. }
  pose proof (moves_modify_dgpo _ _ _ H) as M. unfold modify_dgpo in H. injection H as <-.
  apply steady_intro; [|done..]. apply mmoves_intro; [|done]. eapply moves_ext; [exact M|]. delta_solve.
Qed.

(** ** Settled assets *)

(** Every settled asset is one [process_bids] can revive. *)
Definition settled_ok (d : database) : Prop :=
  ∀ i b, db_bitassets d !! i = Some b → has_settlement b = true → ∃ aid a s, revivable d aid i b a s.

Lemma revivable_steady d d' aid i b a s : steady d d' → sound d → revivable d aid i b a s → revivable d' aid i b a s.
Proof.
  intros St Hd []. destruct (St Hd) as (_ & _ & Eb & _ & Ea & Ed). split; [by rewrite Ea|done|done| |done..|by rewrite Eb].
  rewrite Ed; [done|]. intros E. apply rv_core.
  destruct Hd as [(Hinj & (c & Hc & Hz) & _) _]. eapply Hinj; [done|exact Hc|congruence].
Qed.

Lemma settled_ok_steady d d' : steady d d' → sound d → settled_ok d → settled_ok d'.
Proof.
  intros St Hd Hs i b Hb Hset. pose proof (St Hd) as (_ & _ & _ & E & _). rewrite E in Hb.
  destruct (Hs i b Hb Hset) as (aid & a & s & Hr). exists aid, a, s. by eapply revivable_steady.
Qed.

Lemma revivable_sub d d' aid i b b' a s :
  revivable d aid i b a s → db_assets d' = db_assets d → db_asset_dyn d' = db_asset_dyn d →
  objs (db_bids d') ⊆ objs (db_bids d) → bd_options b' = bd_options b →
  bd_settlement_price b' = bd_settlement_price b → bd_settlement_fund b' = bd_settlement_fund b →
  revivable d' aid i b' a s.
Proof.
  intros [] Ea Ed Hb Eo Ep Ef. unfold backing in *.
  split; rewrite ?Ea, ?Ed, ?Ep, ?Ef; unfold backing; rewrite ?Eo; try done.
  intros k bid Hk. apply (rv_bids k). by eapply lookup_weaken.
Qed.

Lemma has_settlement_default b : bd_settlement_price b = default_price → has_settlement b = false.
Proof. unfold has_settlement, price_is_null. intros ->. unfold price_eqb. simpl. by rewrite Z.eqb_refl. Qed.

Lemma reset_volume_conserves d id b : db_bitassets d !! id = Some b →
  mconserves d (set_bitassets (<[id := set_force_settled_volume (λ _, 0) b]>) d).
Proof.
  intros Hb (H1 & H2 & H3 & H4) Hm. split_and!; [|exact Hm|].
  - split_and!; [done..|]. simpl. intros i b' Hi. apply lookup_insert_Some in Hi as [[<- <-]|[_ Hi]]; [|by eapply H4].
    simpl. by apply H4 with id.
  - intros aid. rewrite imbalance_set_bitassets, msum_insert, Hb. simpl.
    change (fund_locked aid (set_force_settled_volume (λ _, 0) b)) with (fund_locked aid b). lia.
Qed.

(** One bitasset of the loop. *)
Lemma bitasset_maintenance_ok d id d' : settled_ok d → bitasset_maintenance d id = Ok d' →
  mconserves d d' ∧ settled_ok d'.
Proof.
  intros Hs H. unfold bitasset_maintenance in H. apply rbind_ok in H as (b & Hb%of_option_ok & H).
  pose proof (reset_volume_conserves _ _ _ Hb) as M0.
  set (b0 := set_force_settled_volume (λ _, 0) b) in *. set (d0 := set_bitassets _ d) in *.
  assert (settled_ok d0) as Hs0.
  { intros i b' Hi Hset. simpl in Hi. apply lookup_insert_Some in Hi as [[<- <-]|[_ Hi]].
    - destruct (Hs _ _ Hb Hset) as (aid & a & s & Hr). exists aid, a, s. by eapply revivable_sub.
    - destruct (Hs _ _ Hi Hset) as (aid & a & s & Hr). exists aid, a, s. by eapply revivable_sub. }
  assert (db_bitassets d0 !! id = Some b0) as Hb0 by apply lookup_insert_eq.
  case_in H; [|injection H as <-; by split].
  destruct (Hs0 _ _ Hb0 Heqb1) as (aid & a & s & Hr).
  destruct (process_bids_run _ _ _ _ _ _ _ Hr Hb0 H) as [->|(M & Eb & Ea & Ed & Hsub & _)]; [by split|].
  split; [by eapply mconserves_trans|]. intros i b' Hi Hset. rewrite Eb in Hi.
  apply lookup_insert_Some in Hi as [[_ <-]|[_ Hi]]; [by rewrite has_settlement_default in Hset|].
  destruct (Hs0 _ _ Hi Hset) as (aid' & a' & s' & Hr'). exists aid', a', s'. by eapply revivable_sub.
Qed.

Lemma bitassets_maintenance_ok ids : ∀ d d', settled_ok d → rfold bitasset_maintenance d ids = Ok d' → mconserves d d'.
Proof.
  induction ids as [|id ids IH]; intros d d' Hs H; simpl in H; [injection H as <-; apply mmoves_refl|].
  apply rbind_ok in H as (d1 & H1 & H). apply bitasset_maintenance_ok in H1 as [M1 Hs1]; [|done].
  eapply mconserves_trans; [exact M1|by apply IH].
Qed.

(** What maintenance finds of the settled assets when it comes to their
    bids: the state the buyback orders leave. *)
Definition settled_after_buyback (d : database) : Prop :=
  ∀ d1 d2, distribute_fba_balances d = Ok d1 → create_buyback_orders d1 = Ok d2 → settled_ok d2.

(** Without a buyback programme these are the settled assets of the start. *)
Lemma settled_without_buyback d : assets_wf d → market_wf d → objs (db_buybacks d) = ∅ → settled_ok d →
  settled_after_buyback d.
Proof.
  intros Ha Hm Hbb Hs d1 d2 [H1 G1]%distribute_fba_balances_steady H2.
  unfold create_buyback_orders, db_buybacks in H2. rewrite G1 in H2. unfold db_buybacks in Hbb. rewrite Hbb in H2.
  injection H2 as <-. by eapply settled_ok_steady.
Qed.

(** C24. Maintenance neither creates nor destroys any asset, of any kind: not
    the split of the confidential-transfer fees, not the buyback orders with
    the matches and margin calls they set off, not the distribution of the
    fees of all accounts, not the elections, the withdrawal of vested funds,
    the revival of settled assets or the budget. It starts from well-formed
    assets and orders and non-negative balances; of the settled assets the
    buyback orders leave it is assumed that the settlement fund covers what
    is in circulation at the settlement price, and that the bids on them are
    in the backing asset, with amounts below [2^62]. *)
Theorem chain_maintenance_conserves fee timestamp n d d' :
  assets_wf d → market_wf d → no_overdraft d → settled_after_buyback d →
  perform_chain_maintenance fee timestamp n d = Ok d' →
  assets_wf d' ∧ market_wf d' ∧ ∀ aid, imbalance aid d' = imbalance aid d.
Proof.
  intros Ha Hm Hn Hs H. assert (sound d) as Hd by done. unfold perform_chain_maintenance in H.
  apply rbind_ok in H as (d1 & H1 & H). apply rbind_ok in H as (d2 & H2 & H). specialize (Hs _ _ H1 H2).
  pose proof (distribute_fba_balances_solvent _ _ H1 Hn) as Hn1. apply distribute_fba_balances_steady in H1 as [H1 _].
  destruct (H1 Hd) as ([Ha1 Hm1] & I1 & _). apply create_buyback_orders_ok in H2 as [M2 _]; [|done..].
  destruct (M2 Ha1 Hm1) as (Ha2 & Hm2 & I2).
  apply rbind_ok in H as (d3 & H3%accounts_and_votes_steady & H).
  apply rbind_ok in H as (d4 & H4%update_global_parameters_steady & H).
  apply rbind_ok in H as (d5 & H5%schedule_maintenance_steady & H).
  assert (steady d2 d5) as S5.
  { transitivity d3; [done|]. transitivity d4; [done|]. etrans; [apply update_reserved_names_steady|done]. }
  apply rbind_ok in H as (d6 & H6 & H%process_budget_conserves).
  destruct (S5 (conj Ha2 Hm2)) as ([Ha5 Hm5] & I5 & _).
  apply bitassets_maintenance_ok in H6; [|by eapply settled_ok_steady].
  destruct (H6 Ha5 Hm5) as (Ha6 & Hm6 & I6). destruct (H Ha6 Hm6) as (Ha' & Hm' & I').
  split_and!; [done..|]. intros aid. rewrite I', I6, I5, I2, <- I1. lia.
Qed.
End properties.

(** ** A maintenance *)

#[local] Instance same_case : FcString := {| to_lower s := s |}.
#[local] Existing Instance fc_reference.
#[local] Existing Instance fc_reference_laws.
#[local] Existing Instance boost_reference.
#[local] Existing Instance boost_reference_laws.

(** Fees for the network, an election and a settled dollar with bids. *)
Definition maintenance_db : database :=
  set_fbas (λ _, list_to_map [(0, mkFba 0 None); (1, mkFba 30 None); (2, mkFba 0 None)])
  (set_bids (λ _, mkTable (list_to_map [(0, bid_of alice 400 1200); (1, bid_of bob 300 900)]) 2)
  (set_bitassets (λ _, {[ 0 := settled_usd ]})
  (set_asset_dyn (<[2 := mkDynData 2000 0 0 0]>)
  (set_assets (<[ 2 := usd_coin ]>) (set_statistics (<[1 := default_stats 1]>) election_db))))).

Lemma next_maintenance_time_least_witness :
  next_maintenance_time 1000 600 2799 7 = Ok 2800.
Proof.
  destruct (next_maintenance_time_least 1000 600 2799 7) as (k & E & H & _); [lia..|].
  rewrite E. f_equal. simpl in *. lia.
Defined.

Lemma maintenance_db_sound : assets_wf maintenance_db ∧ market_wf maintenance_db.
Proof.
  split.
  - split_and!.
    + intros i j a b Ha Hb.
      change (db_assets maintenance_db) with (db_assets settled_db) in *. unfold settled_db, sample_db in *; simpl in *.
      rewrite !lookup_insert_Some, lookup_empty in Ha, Hb.
      destruct Ha as [[<- <-]|[_ [[<- <-]|[_ [[<- <-]|[_ Ha]]]]]],
        Hb as [[<- <-]|[_ [[<- <-]|[_ [[<- <-]|[_ Hb]]]]]]; simpl; try done.
    + eexists. split; [reflexivity|done].
    + eexists. reflexivity.
    + intros i b H. change (db_bitassets maintenance_db) with ({[0 := settled_usd]} : gmap Z asset_bitasset_data_object) in H.
      apply lookup_singleton_Some in H as [<- <-]. done.
  - split_and!; [apply map_Forall_empty..|].
    change (db_assets maintenance_db) with (db_assets settled_db). unfold settled_db, sample_db; simpl.
    repeat (apply map_Forall_insert_2; [vm_compute; repeat split; congruence|]). apply map_Forall_empty.
Qed.

(** Bob's coin has a buyback programme: Carol holds 400 core for it, and
    Alice sells 15 coins for 60 core. *)
Definition set_allowed_assets : (option (gset Z) → option (gset Z)) → account_object → account_object :=
  ltac:(field_setter account_eta ao_allowed_assets).
Definition alice_offer : limit_order_object :=
  mkLimit 1600000000 alice 15 (mkPrice (mkAsset 15 1) (mkAsset 60 core_id)) 0.
Definition with_programme (coin : asset_object) (d : database) : database :=
  set_buybacks (λ _, mkTable {[ 0 := 1 ]} 1)
  (set_limit_orders (λ _, mkTable {[ 0 := alice_offer ]} 1)
  (set_balances (<[(carol, 0) := 400]>) (set_assets (<[1 := set_buyback_account (λ _, Some carol) coin]>)
  (set_accounts (λ t, mkTable (alter (set_allowed_assets (λ _, Some {[ 0; 1 ]})) carol (objs t)) (next_id t)) d)))).
Definition bob_coin : asset_object := default usd_coin (db_assets maintenance_db !! 1).
Definition buyback_db : database := with_programme bob_coin maintenance_db.
Definition bought_back_db : database :=
  get_ok (let* d := distribute_fba_balances buyback_db in create_buyback_orders d) buyback_db.

Lemma with_programme_sound coin d : db_assets d !! 1 = Some coin → assets_wf d ∧ market_wf d →
  assets_wf (with_programme coin d) ∧ market_wf (with_programme coin d).
Proof.
  intros Hcoin [(Hinj & (c & Hc & Hz) & Hcore & Hbits) (_ & Hcalls & Hfees)].
  split; [split_and!; [| |exact Hcore|exact Hbits]|split_and!; [|exact Hcalls|]].
  - simpl. set (m := <[1 := _]> (db_assets d)). assert (∀ k x, m !! k = Some x →
      ∃ y, db_assets d !! k = Some y ∧ as_dynamic_asset_data_id y = as_dynamic_asset_data_id x) as Hold.
    { intros k x [[<- <-]|[_ Hk]]%lookup_insert_Some; eauto. }
    intros i j a b Hi Hj E. destruct (Hold _ _ Hi) as (x & Hx & Ex), (Hold _ _ Hj) as (y & Hy & Ey).
    eapply Hinj; [exact Hx|exact Hy|congruence].
  - exists c. simpl. by rewrite lookup_insert_ne.
  - apply map_Forall_singleton. vm_compute. intuition congruence.
  - apply map_Forall_insert_2; [exact (Hfees _ _ Hcoin)|exact Hfees].
Qed.

Lemma buyback_db_sound : assets_wf buyback_db ∧ market_wf buyback_db.
Proof. exact (with_programme_sound bob_coin maintenance_db eq_refl maintenance_db_sound). Qed.

Lemma buyback_db_balances : balances_wf buyback_db.
Proof. apply balances_wf_check. vm_compute. reflexivity. Qed.

Lemma Ok_injective {A} (a b : A) : Ok a = Ok b → a = b.
Proof. by intros [= ->]. Qed.

Lemma bought_back_run :
  rbind (distribute_fba_balances buyback_db) create_buyback_orders = Ok bought_back_db.
Proof. apply get_ok_eq. vm_compute. reflexivity. Qed.

Lemma bought_back_tables :
  db_bitassets bought_back_db = {[ 0 := settled_usd ]} ∧
  db_assets bought_back_db !! 2 = Some usd_coin ∧ db_asset_dyn bought_back_db !! 2 = Some (mkDynData 2000 0 0 0) ∧
  db_bids bought_back_db = db_bids settled_db.
Proof. split_and!; vm_compute; reflexivity. Qed.

(** The buyback leaves the settled dollar and its bids as they were. *)
Lemma buyback_db_settled : settled_after_buyback buyback_db.
Proof.
  intros d1 d2 H1 H2. pose proof bought_back_run as R. rewrite H1 in R. cbn [rbind] in R. rewrite H2 in R.
  apply Ok_injective in R as ->. destruct bought_back_tables as (Eb & Ea & Ed & Ebids). intros i b Hb _. rewrite Eb in Hb.
  apply lookup_singleton_Some in Hb as [<- <-]. exists 2, usd_coin, (mkDynData 2000 0 0 0).
  destruct settled_db_revivable. split; [exact Ea|assumption|assumption|exact Ed|assumption|assumption|assumption|].
  rewrite Ebids. assumption.
Qed.

Lemma chain_maintenance_conserves_witness :
  ∃ d', perform_chain_maintenance (Ok 0) 1570000000 100 buyback_db = Ok d' ∧
    db_balances d' !! (carol, 1) = Some 15 ∧ debt_of 2 d' = 2000 ∧
    ∀ aid, imbalance aid d' = imbalance aid buyback_db.
Proof.
  set (d' := get_ok (perform_chain_maintenance (Ok 0) 1570000000 100 buyback_db) buyback_db).
  assert (perform_chain_maintenance (Ok 0) 1570000000 100 buyback_db = Ok d') as E
    by (apply get_ok_eq; vm_compute; reflexivity).
  exists d'. split; [exact E|]. split; [vm_compute; reflexivity|]. split; [vm_compute; reflexivity|].
  destruct buyback_db_sound as [Ha Hm].
  refine (proj2 (proj2 (chain_maintenance_conserves (Ok 0) 1570000000 100 buyback_db d' Ha Hm _ _ E))).
  - intros k b Hb. exact (proj1 (buyback_db_balances k b Hb)).
  - exact buyback_db_settled.
Defined.
