(* ===== verification/WithdrawPermission.v ===== *)
(** * Recurring payments ([withdraw_permission_evaluator.cpp],
    [withdraw_permission.hpp], [withdraw_permission_object.hpp])

    An account permits another one to withdraw up to a limit from it, in each
    of a number of periods.  The main theorem: whatever sequence of claims
    the chain accepts, the claims of one period never exceed the limit. *)

From stdpp Require Import gmap strings list.
From Stdlib Require Import ZArith Lia.
From S2P Require Import Prelude Fc Config Asset Objects Database Sample Balances Fees Listing ListingInv.

Local Open Scope Z_scope.

Record withdraw_permission_create_operation := mkPermitCreate {
  wpc_fee : asset;
  wpc_withdraw_from_account : Z;
  wpc_authorized_account : Z;
  wpc_withdrawal_limit : asset;
  wpc_withdrawal_period_sec : Z;
  wpc_periods_until_expiration : Z;
  wpc_period_start_time : Z
}.

Record withdraw_permission_update_operation := mkPermitUpdate {
  wpu_fee : asset;
  wpu_withdraw_from_account : Z;
  wpu_authorized_account : Z;
  wpu_permission_to_update : Z;
  wpu_withdrawal_limit : asset;
  wpu_withdrawal_period_sec : Z;
  wpu_period_start_time : Z;
  wpu_periods_until_expiration : Z
}.

(** The memo is not modelled. *)
Record withdraw_permission_claim_operation := mkPermitClaim {
  wpl_fee : asset;
  wpl_withdraw_permission : Z;
  wpl_withdraw_from_account : Z;
  wpl_withdraw_to_account : Z;
  wpl_amount_to_withdraw : asset
}.

Record withdraw_permission_delete_operation := mkPermitDelete {
  wpd_fee : asset;
  wpd_withdraw_from_account : Z;
  wpd_authorized_account : Z;
  wpd_withdrawal_permission : Z
}.

(** ** Validation *)

Definition permit_create_validate (op : withdraw_permission_create_operation) : result unit :=
  FC_ASSERT (0 <=? amount (wpc_fee op)) ;;
  FC_ASSERT (negb (wpc_withdraw_from_account op =? wpc_authorized_account op)) ;;
  FC_ASSERT (0 <? amount (wpc_withdrawal_limit op)) ;;
  FC_ASSERT (0 <? wpc_withdrawal_period_sec op) ;;
  require (0 <? wpc_periods_until_expiration op) assert_exception.

Definition permit_update_validate (op : withdraw_permission_update_operation) : result unit :=
  FC_ASSERT (0 <? amount (wpu_withdrawal_limit op)) ;;
  FC_ASSERT (0 <=? amount (wpu_fee op)) ;;
  FC_ASSERT (0 <? wpu_withdrawal_period_sec op) ;;
  FC_ASSERT (negb (wpu_withdraw_from_account op =? wpu_authorized_account op)) ;;
  require (0 <? wpu_periods_until_expiration op) assert_exception.

Definition permit_claim_validate (op : withdraw_permission_claim_operation) : result unit :=
  FC_ASSERT (negb (wpl_withdraw_to_account op =? wpl_withdraw_from_account op)) ;;
  FC_ASSERT (0 <? amount (wpl_amount_to_withdraw op)) ;;
  require (0 <=? amount (wpl_fee op)) assert_exception.

Definition permit_delete_validate (op : withdraw_permission_delete_operation) : result unit :=
  FC_ASSERT (0 <=? amount (wpd_fee op)) ;;
  require (negb (wpd_withdraw_from_account op =? wpd_authorized_account op)) assert_exception.

Section operations.
Context {FC : FcArith}.

(** [find_object(...)] is not null. *)
Definition account_exists (d : database) (id : Z) : bool := bool_decide (is_Some (objs (db_accounts d) !! id)).
Definition asset_exists (d : database) (id : Z) : bool := bool_decide (is_Some (db_assets d !! id)).

(** The end of the last period; both sums are of 32 bits. *)
Definition permit_expiration (start periods period_sec : Z) : Z :=
  time_add start (wrap_u32 (periods * period_sec)).

(** [available_this_period]. *)
Definition available_this_period (p : withdraw_permission_object) (current_time : Z) : result asset :=
  if time_add (wp_period_start_time p) (wp_withdrawal_period_sec p) <=? current_time then Ok (wp_withdrawal_limit p)
  else
    let limit := wp_withdrawal_limit p in
    let* rest :=
      if wp_claimed_this_period p <? amount limit then safe_sub (amount limit) (wp_claimed_this_period p) else Ok 0 in
    Ok (mkAsset rest (asset_id limit)).

(** ** Granting *)

Definition permit_create_do_evaluate (d : database) (op : withdraw_permission_create_operation) : result unit :=
  FC_ASSERT (account_exists d (wpc_withdraw_from_account op)) ;;
  FC_ASSERT (account_exists d (wpc_authorized_account op)) ;;
  FC_ASSERT (asset_exists d (asset_id (wpc_withdrawal_limit op))) ;;
  FC_ASSERT (head_block_time d <? wpc_period_start_time op) ;;
  FC_ASSERT (head_block_time d <? permit_expiration (wpc_period_start_time op) (wpc_periods_until_expiration op)
                                    (wpc_withdrawal_period_sec op)) ;;
  require (block_interval d <=? wpc_withdrawal_period_sec op) assert_exception.

Definition permit_create_do_apply (d : database) (op : withdraw_permission_create_operation) : result (Z * database) :=
  let* (id, t) := index_create no_clash (db_withdraw_permissions d)
    (mkPermit (wpc_withdraw_from_account op) (wpc_authorized_account op) (wpc_withdrawal_limit op)
       (wpc_withdrawal_period_sec op) (wpc_period_start_time op)
       (permit_expiration (wpc_period_start_time op) (wpc_periods_until_expiration op) (wpc_withdrawal_period_sec op)) 0) in
  Ok (id, set_withdraw_permissions (λ _, t) d).

Definition permit_update_do_evaluate (d : database) (op : withdraw_permission_update_operation) : result unit :=
  let* permit := index_get (db_withdraw_permissions d) (wpu_permission_to_update op) in
  FC_ASSERT (wp_authorized_account permit =? wpu_authorized_account op) ;;
  FC_ASSERT (wp_withdraw_from_account permit =? wpu_withdraw_from_account op) ;;
  FC_ASSERT (asset_exists d (asset_id (wpu_withdrawal_limit op))) ;;
  FC_ASSERT (head_block_time d <=? wpu_period_start_time op) ;;
  FC_ASSERT (head_block_time d <? permit_expiration (wpu_period_start_time op) (wpu_periods_until_expiration op)
                                    (wpu_withdrawal_period_sec op)) ;;
  require (block_interval d <=? wpu_withdrawal_period_sec op) assert_exception.

(** What was claimed stays counted. *)
Definition updated_permit (op : withdraw_permission_update_operation) (p : withdraw_permission_object) : withdraw_permission_object :=
  mkPermit (wp_withdraw_from_account p) (wp_authorized_account p) (wpu_withdrawal_limit op)
    (wpu_withdrawal_period_sec op) (wpu_period_start_time op)
    (permit_expiration (wpu_period_start_time op) (wpu_periods_until_expiration op) (wpu_withdrawal_period_sec op))
    (wp_claimed_this_period p).

Definition permit_update_do_apply (d : database) (op : withdraw_permission_update_operation) : result database :=
  let* t := index_modify no_clash (db_withdraw_permissions d) (wpu_permission_to_update op) (λ p, Ok (updated_permit op p)) in
  Ok (set_withdraw_permissions (λ _, t) d).

Definition permit_delete_do_evaluate (d : database) (op : withdraw_permission_delete_operation) : result unit :=
  let* permit := index_get (db_withdraw_permissions d) (wpd_withdrawal_permission op) in
  FC_ASSERT (wp_authorized_account permit =? wpd_authorized_account op) ;;
  require (wp_withdraw_from_account permit =? wpd_withdraw_from_account op) assert_exception.

Definition permit_delete_do_apply (d : database) (op : withdraw_permission_delete_operation) : result database :=
  let* t := index_remove (db_withdraw_permissions d) (wpd_withdrawal_permission op) in
  Ok (set_withdraw_permissions (λ _, t) d).

(** ** Claiming *)

Definition permit_claim_do_evaluate (d : database) (op : withdraw_permission_claim_operation) : result unit :=
  let now := head_block_time d in
  let amount_to_withdraw := wpl_amount_to_withdraw op in
  let* permit := index_get (db_withdraw_permissions d) (wpl_withdraw_permission op) in
  FC_ASSERT (now <? wp_expiration permit) ;;
  FC_ASSERT (wp_authorized_account permit =? wpl_withdraw_to_account op) ;;
  FC_ASSERT (wp_withdraw_from_account permit =? wpl_withdraw_from_account op) ;;
  FC_ASSERT (if HARDFORK_23_TIME <=? now then wp_period_start_time permit <=? now else true) ;;
  let* available := available_this_period permit now in
  let* within := asset_leb amount_to_withdraw available in
  FC_ASSERT within ;;
  let* enough := asset_geb (get_balance d (wpl_withdraw_from_account op) (asset_id amount_to_withdraw)) amount_to_withdraw in
  FC_ASSERT enough ;;
  let* a := get_asset_object d (asset_id amount_to_withdraw) in
  FC_ASSERT (if is_transfer_restricted a
             then (as_issuer a =? wp_authorized_account permit) || (as_issuer a =? wp_withdraw_from_account permit)
             else true) ;;
  let* from := get_account d (wpl_withdraw_to_account op) in
  let* to := get_account d (wp_authorized_account permit) in
  FC_ASSERT (is_authorized_asset d to (asset_id amount_to_withdraw) a) ;;
  require (is_authorized_asset d from (asset_id amount_to_withdraw) a) assert_exception.

(** The lambda of [do_apply]: [claimed_this_period] is of the period that
    starts at [period_start_time]. *)
Definition claim_from (now claimed : Z) (p : withdraw_permission_object) : result withdraw_permission_object :=
  if wp_withdrawal_period_sec p =? 0 then Throw undefined_behaviour
  else
    let periods := Z.quot (time_sub_seconds now (wp_period_start_time p)) (wp_withdrawal_period_sec p) in
    let* total := if periods =? 0 then safe_add (wp_claimed_this_period p) claimed else Ok claimed in
    Ok (mkPermit (wp_withdraw_from_account p) (wp_authorized_account p) (wp_withdrawal_limit p)
          (wp_withdrawal_period_sec p)
          (time_add (wp_period_start_time p) (periods * wp_withdrawal_period_sec p)) (wp_expiration p) total).

Definition permit_claim_do_apply (d : database) (op : withdraw_permission_claim_operation) : result database :=
  let* t := index_modify no_clash (db_withdraw_permissions d) (wpl_withdraw_permission op)
    (claim_from (head_block_time d) (amount (wpl_amount_to_withdraw op))) in
  let d := set_withdraw_permissions (λ _, t) d in
  let* n := asset_neg (wpl_amount_to_withdraw op) in
  let* d := adjust_balance d (wpl_withdraw_from_account op) n in
  adjust_balance d (wpl_withdraw_to_account op) (wpl_amount_to_withdraw op).

#[export] Instance permit_create_evaluator : Evaluator withdraw_permission_create_operation := {
  ev_state := unit;
  op_fee_payer := wpc_withdraw_from_account;
  op_fee := wpc_fee;
  do_evaluate := permit_create_do_evaluate;
  do_apply := λ d op _, let* (_, d) := permit_create_do_apply d op in Ok d
}.

#[export] Instance permit_update_evaluator : Evaluator withdraw_permission_update_operation := {
  ev_state := unit;
  op_fee_payer := wpu_withdraw_from_account;
  op_fee := wpu_fee;
  do_evaluate := permit_update_do_evaluate;
  do_apply := λ d op _, permit_update_do_apply d op
}.

#[export] Instance permit_claim_evaluator : Evaluator withdraw_permission_claim_operation := {
  ev_state := unit;
  op_fee_payer := wpl_withdraw_to_account;
  op_fee := wpl_fee;
  do_evaluate := permit_claim_do_evaluate;
  do_apply := λ d op _, permit_claim_do_apply d op
}.

#[export] Instance permit_delete_evaluator : Evaluator withdraw_permission_delete_operation := {
  ev_state := unit;
  op_fee_payer := wpd_withdraw_from_account;
  op_fee := wpd_fee;
  do_evaluate := permit_delete_do_evaluate;
  do_apply := λ d op _, permit_delete_do_apply d op
}.

(** Expired permits are removed with every block; [fuel] bounds the loop. *)
Fixpoint update_withdraw_permissions (fuel : nat) (d : database) : result database :=
  match first_by wp_expiration (objs (db_withdraw_permissions d)) with
  | None => Ok d
  | Some (id, p) =>
      if wp_expiration p <=? head_block_time d then
        match fuel with
        | O => Throw out_of_fuel
        | S fuel' =>
            let* t := index_remove (db_withdraw_permissions d) id in
            update_withdraw_permissions fuel' (set_withdraw_permissions (λ _, t) d)
        end
      else Ok d
  end.
End operations.

(** ** A sequence of claims *)

Section properties.
Context {FC : FcArith} {FCL : FcArithLaws FC} {BA : BoostArith}.

(** What an accepted claim does to the permit. *)
Lemma permit_claim_run skip_check required d op d' :
  permit_claim_validate op = Ok tt → start_evaluate false skip_check required d op = Ok d' →
  ∃ p p', objs (db_withdraw_permissions d) !! wpl_withdraw_permission op = Some p ∧
    objs (db_withdraw_permissions d') = <[wpl_withdraw_permission op := p']> (objs (db_withdraw_permissions d)) ∧
    head_block_time d < wp_expiration p ∧
    (HARDFORK_23_TIME <= head_block_time d → wp_period_start_time p <= head_block_time d) ∧
    0 < amount (wpl_amount_to_withdraw op) ∧
    (∃ available, available_this_period p (head_block_time d) = Ok available ∧
       amount (wpl_amount_to_withdraw op) <= amount available) ∧
    claim_from (head_block_time d) (amount (wpl_amount_to_withdraw op)) p = Ok p'.
Proof.
  intros Hv H. apply start_evaluate_stages in H as (g & st & d0 & d1 & d2 & _ & Hev & H0 & H1 & H2 & H3).
  assert (db_withdraw_permissions d1 = db_withdraw_permissions d ∧ head_block_time d1 = head_block_time d) as [Ep Et].
  { unfold convert_fee, pay_fee, modify_asset_dyn, modify_statistics in *. case_in H0; ok_inv; done. }
  simpl in Hev, H2. unfold permit_claim_do_evaluate in Hev. unfold permit_claim_do_apply in H2.
  apply rbind_ok in Hev as (p & Hp%of_option_ok & Hev). repeat (apply rbind_ok in Hev as (? & ?%require_ok & Hev)).
  apply rbind_ok in Hev as (av & Hav & Hev). apply rbind_ok in Hev as (b & Hle & Hev).
  apply rbind_ok in Hev as (? & ->%require_ok & _).
  apply rbind_ok in H2 as (t & Ht & H2). apply rbind_ok in H2 as (n & _ & H2).
  apply rbind_ok in H2 as (d3 & [m3 ->]%adjust_balance_frame & [m2 ->]%adjust_balance_frame).
  apply adjust_balance_frame in H3 as [m4 ->].
  apply index_modify_ok in Ht as (p1 & p' & Hp1 & Hc & _ & ->). rewrite Ep in Hp1. rewrite Et in Hc.
  assert (p1 = p) as -> by congruence. exists p, p'. apply asset_leb_ok in Hle as [_ Hle].
  unfold permit_claim_validate in Hv. ok_inv. split_and!; [done|simpl; by rewrite Ep|lia| |lia| |done].
  - intros Hf. repeat match goal with H : (if _ then _ else _) = true |- _ => revert H end.
    rewrite (proj2 (Z.leb_le _ _)) by done. lia.
  - exists av. split; [done|lia].
Qed.

(** A sequence of accepted claims on permit [id], each at the time and for the
    amount listed, with anything but an update of the permit in between. *)
Inductive claims (id : Z) : withdraw_permission_object → list (Z * Z) → withdraw_permission_object → Prop :=
| no_claims p : claims id p [] p
| next_claim p skip_check required d op d' p' l q :
    objs (db_withdraw_permissions d) !! id = Some p → wpl_withdraw_permission op = id →
    permit_claim_validate op = Ok tt → start_evaluate false skip_check required d op = Ok d' →
    objs (db_withdraw_permissions d') !! id = Some p' → claims id p' l q →
    claims id p ((head_block_time d, amount (wpl_amount_to_withdraw op)) :: l) q.

(** What [l] claims in the [k]-th period of length [len] from [start]. *)
Definition claimed_in (start len k : Z) (l : list (Z * Z)) : Z :=
  foldr (λ c acc, (if (c.1 - start) / len =? k then c.2 else 0) + acc) 0 l.

(** The claims are made after the hardfork that asks for the first period to
    have begun. *)
Definition claims_begun (l : list (Z * Z)) : Prop := Forall (λ c, HARDFORK_23_TIME <= c.1) l.

(** The permit expires at the end of a period, and that is a time the clock
    can show: its end has not wrapped around. *)
Definition ends_in_time (p : withdraw_permission_object) : Prop :=
  0 < wp_withdrawal_period_sec p ∧ 0 <= wp_period_start_time p ∧ wp_expiration p < 2 ^ 32 ∧
  ∃ periods, wp_expiration p = wp_period_start_time p + periods * wp_withdrawal_period_sec p.

(** What can still be claimed of period [k] when the running one is [now]. *)
Definition allowance (p : withdraw_permission_object) (now k : Z) : Z :=
  if k <? now then 0
  else if k =? now then Z.max 0 (amount (wp_withdrawal_limit p) - wp_claimed_this_period p)
  else amount (wp_withdrawal_limit p).

Lemma claim_from_period p now a p' n origin :
  let len := wp_withdrawal_period_sec p in
  0 < len → wp_period_start_time p = origin + n * len → 0 <= wp_period_start_time p <= now → now < 2 ^ 32 →
  wp_period_start_time p + len < 2 ^ 32 → 0 <= wp_claimed_this_period p → 0 < a →
  (∃ av, available_this_period p now = Ok av ∧ a <= amount av) → claim_from now a p = Ok p' →
  ∃ m, m = (now - origin) / len ∧ n <= m ∧ wp_period_start_time p' = origin + m * len ∧ wp_period_start_time p' <= now ∧
    wp_withdrawal_period_sec p' = len ∧ wp_expiration p' = wp_expiration p ∧ wp_withdrawal_limit p' = wp_withdrawal_limit p ∧
    wp_claimed_this_period p' = (if m =? n then wp_claimed_this_period p else 0) + a ∧
    wp_claimed_this_period p' <= amount (wp_withdrawal_limit p).
Proof.
  intros len Hlen Hs Hnow Ht Hb Hc Ha (av & Hav & Hle) H. unfold claim_from in H. fold len in H.
  rewrite (proj2 (Z.eqb_neq _ _)), time_sub_seconds_spec, Z.quot_div_nonneg in H by lia.
  set (q := (now - wp_period_start_time p) / len) in H.
  assert (0 <= q) as Hq by (apply Z.div_pos; lia).
  assert ((now - origin) / len = n + q) as Em.
  { unfold q. replace (now - origin) with (now - wp_period_start_time p + n * len) by lia. rewrite Z.div_add by lia. lia. }
  pose proof (Z.mul_div_le (now - wp_period_start_time p) len Hlen) as Hfl. fold q in Hfl.
  pose proof (Z.mul_succ_div_gt (now - wp_period_start_time p) len Hlen) as Hfg. fold q in Hfg.
  apply rbind_ok in H as (total & Hto & [= <-]). exists (n + q). cbn [wp_period_start_time wp_withdrawal_period_sec
    wp_expiration wp_withdrawal_limit wp_claimed_this_period].
  rewrite time_add_small by nia. unfold available_this_period in Hav. fold len in Hav. rewrite time_add_small in Hav by lia.
  split_and!; [done|lia|lia|nia|done|done|done| |].
  - destruct (Z.eqb_spec q 0) as [E|E]; [rewrite E, Z.add_0_r, Z.eqb_refl|rewrite (proj2 (Z.eqb_neq _ _)) by lia]; ok_inv; safe_inv; lia.
  - destruct (Z.eqb_spec q 0) as [E|E].
    + safe_inv. rewrite (proj2 (Z.leb_gt _ _)) in Hav by nia. ok_inv. simpl in Hle. case_in Hx; ok_inv; safe_inv; b2p; lia.
    + ok_inv. rewrite (proj2 (Z.leb_le _ _)) in Hav by nia. ok_inv. lia.
Qed.

Lemma claims_allowed id p l q : claims id p l q → ∀ n origin periods,
  let len := wp_withdrawal_period_sec p in
  0 < len → wp_period_start_time p = origin + n * len → 0 <= wp_period_start_time p →
  wp_expiration p = origin + periods * len → wp_expiration p < 2 ^ 32 →
  0 <= wp_claimed_this_period p → 0 <= amount (wp_withdrawal_limit p) → claims_begun l →
  ∀ k, claimed_in origin len k l <= allowance p n k.
Proof.
  induction 1 as [p|p sc r d op d' p' l q Hp Hid Hv H Hp' Hl IH]; intros n origin periods len Hlen Hs H0 Hexp Hend Hc Hlim Ht k.
  { simpl. unfold allowance. repeat case_match; b2p; lia. }
  apply Forall_cons in Ht as [Hhf Ht]. simpl in Hhf.
  apply permit_claim_run in H as (p0 & p1 & Hp0 & Hp1 & Hnow & Hstart & Ha & Hav & Hcl); [|done].
  rewrite Hid in Hp0, Hp1. assert (p0 = p) as -> by congruence.
  rewrite Hp1, lookup_insert_eq in Hp'. injection Hp' as <-. specialize (Hstart Hhf).
  assert (n < periods) by (apply (Zmult_lt_reg_r _ _ len); lia).
  assert (wp_period_start_time p + len < 2 ^ 32) as Hb by nia. assert (head_block_time d < 2 ^ 32) as Hn by lia.
  pose proof (claim_from_period _ _ _ _ n origin Hlen Hs (conj H0 Hstart) Hn Hb Hc Ha Hav Hcl)
    as (m & Em & Hnm & Es & Hle & El & Ee & Elim & Ec & Hcm).
  specialize (IH m origin periods). rewrite El, Ee, Elim in IH.
  assert (0 <= wp_claimed_this_period p1) as Hc1 by (rewrite Ec; case_match; lia).
  assert (claimed_in origin len k l <= allowance p1 m k) as Hrest by (apply IH; try done; nia).
  cbn [claimed_in foldr fst snd]. fold (claimed_in origin len k l). subst len. rewrite <- Em.
  unfold allowance in *. rewrite Elim, Ec in Hrest. rewrite Ec in Hcm. clear -Hrest Hcm Hnm Hc Ha Hlim.
  repeat case_match; b2p; try subst; try lia.
Qed.

(** C32. A permit that ends before the 32-bit clock does is never overdrawn:
    in whatever sequence of claims the chain accepts from any state of the
    permit, at whatever times, the claims of each period together are within
    its limit, and those of the running period together with what was already
    claimed of it (until the permit is updated; then the same holds of the
    updated permit). *)
Theorem claims_within_limit id p l q :
  ends_in_time p → 0 <= wp_claimed_this_period p → 0 <= amount (wp_withdrawal_limit p) →
  claims_begun l → claims id p l q →
  ∀ k, claimed_in (wp_period_start_time p) (wp_withdrawal_period_sec p) k l <=
    if k =? 0 then Z.max 0 (amount (wp_withdrawal_limit p) - wp_claimed_this_period p)
    else amount (wp_withdrawal_limit p).
Proof.
  intros (Hlen & H0 & Hend & periods & Hexp) Hc Hl Ht H k.
  pose proof (claims_allowed _ _ _ _ H 0 (wp_period_start_time p) periods Hlen ltac:(lia) H0 Hexp Hend Hc Hl Ht k) as Hk.
  unfold allowance in Hk. repeat case_match; b2p; lia.
Qed.

(** Where the sums for the expiration do not wrap around, a permit that is
    granted or updated ends in time. *)
Lemma permit_expiration_exact start periods period_sec :
  0 <= start → 0 < periods → 0 < period_sec → start + periods * period_sec < 2 ^ 32 →
  permit_expiration start periods period_sec = start + periods * period_sec.
Proof.
  intros. assert (0 <= periods * period_sec) by nia. unfold permit_expiration.
  rewrite wrap_u32_small by lia. by rewrite time_add_small by lia.
Qed.

Lemma created_permit_ends d op id d' p : permit_create_validate op = Ok tt → permit_create_do_evaluate d op = Ok tt →
  0 <= head_block_time d →
  wpc_period_start_time op + wpc_periods_until_expiration op * wpc_withdrawal_period_sec op < 2 ^ 32 →
  permit_create_do_apply d op = Ok (id, d') → objs (db_withdraw_permissions d') !! id = Some p →
  ends_in_time p ∧ wp_claimed_this_period p = 0 ∧ 0 <= amount (wp_withdrawal_limit p).
Proof.
  intros Hv He Ht Hw H Hp. unfold permit_create_validate in Hv. unfold permit_create_do_evaluate in He.
  unfold permit_create_do_apply in H. apply rbind_ok in H as ([i t] & (-> & _ & _ & ->)%index_create_ok & [= <- <-]). ok_inv.
  simpl in Hp. rewrite lookup_insert_eq in Hp. injection Hp as <-. b2p. unfold ends_in_time; simpl.
  rewrite permit_expiration_exact by lia. split_and!; [lia|lia|lia|eauto|done|lia].
Qed.

Lemma updated_permit_ends d op p : permit_update_validate op = Ok tt → permit_update_do_evaluate d op = Ok tt →
  0 <= head_block_time d →
  wpu_period_start_time op + wpu_periods_until_expiration op * wpu_withdrawal_period_sec op < 2 ^ 32 →
  ends_in_time (updated_permit op p) ∧ 0 <= amount (wp_withdrawal_limit (updated_permit op p)).
Proof.
  intros Hv He Ht Hw. unfold permit_update_validate in Hv. unfold permit_update_do_evaluate in He.
  ok_inv. b2p. unfold ends_in_time; simpl.
  rewrite permit_expiration_exact by lia. split_and!; [lia|lia|lia|eauto|lia].
Qed.
End properties.

(** ** Expiry *)

(** With as much fuel as there are permits the loop ends, and no permit that
    is left has expired. *)
Lemma update_withdraw_permissions_run fuel : ∀ d, (size (objs (db_withdraw_permissions d)) <= fuel)%nat →
  ∃ d', update_withdraw_permissions fuel d = Ok d' ∧
    objs (db_withdraw_permissions d') ⊆ objs (db_withdraw_permissions d) ∧
    ∀ id p, objs (db_withdraw_permissions d') !! id = Some p → head_block_time d < wp_expiration p.
Proof.
  induction fuel as [|fuel IH]; intros d Hsz; cbn [update_withdraw_permissions];
    (destruct (first_by wp_expiration (objs (db_withdraw_permissions d))) as [[id p]|] eqn:E;
     [apply first_by_some in E as [Hid Hmin]|apply first_by_none in E; exists d; split_and!; [done..|];
      intros k v Hk; by rewrite E, lookup_empty in Hk]);
    (destruct (Z.leb_spec (wp_expiration p) (head_block_time d));
     [|exists d; split_and!; [done..|]; intros k v Hk; apply Hmin in Hk; lia]).
  - assert (size (objs (db_withdraw_permissions d)) = 0%nat) as E%map_size_empty_inv by lia.
    by rewrite E, lookup_empty in Hid.
  - unfold index_remove, index_get. rewrite Hid. cbn [of_option rbind].
    destruct (IH (set_withdraw_permissions (λ _, mkTable (delete id (objs (db_withdraw_permissions d)))
      (next_id (db_withdraw_permissions d))) d)) as (d' & Hr & Hsub & Hexp).
    { simpl. rewrite map_size_delete_Some by eauto. lia. }
    exists d'. split_and!; [exact Hr|etrans; [exact Hsub|apply delete_subseteq]|exact Hexp].
Qed.

(** ** Conservation *)

Section conservation.
Context {FC : FcArith} {FCL : FcArithLaws FC}.

Lemma moves_set_governance d f : conserves d (set_governance f d).
Proof. apply moves_intro; [done..|]. intros. rewrite imbalance_set_governance. lia. Qed.

#[export] Instance permit_create_conserves : EvaluatorConserves withdraw_permission_create_operation.
Proof.
  intros d0 d op st d' _ H. simpl in H. unfold permit_create_do_apply in H.
  apply rbind_ok in H as ([id d1] & H & [= <-]). apply rbind_ok in H as ([i t] & _ & [= <- <-]). apply moves_set_governance.
Qed.

#[export] Instance permit_update_conserves : EvaluatorConserves withdraw_permission_update_operation.
Proof.
  intros d0 d op st d' _ H. simpl in H. unfold permit_update_do_apply in H.
  apply rbind_ok in H as (t & _ & [= <-]). apply moves_set_governance.
Qed.

#[export] Instance permit_claim_conserves : EvaluatorConserves withdraw_permission_claim_operation.
Proof.
  intros d0 d op st d' _ H. simpl in H. unfold permit_claim_do_apply in H.
  apply rbind_ok in H as (t & _ & H). apply rbind_ok in H as (n & Hn & H). apply asset_neg_ok in Hn as ->.
  apply rbind_ok in H as (d1 & H1%adjust_balance_moves & H2%adjust_balance_moves).
  eapply moves_ext; [eapply moves_trans; [apply moves_set_governance|eapply moves_trans; eassumption]|].
  intros aid; simpl. rewrite amount_of_neg. destruct (wpl_amount_to_withdraw op); simpl. lia.
Qed.

#[export] Instance permit_delete_conserves : EvaluatorConserves withdraw_permission_delete_operation.
Proof.
  intros d0 d op st d' _ H. simpl in H. unfold permit_delete_do_apply in H.
  apply rbind_ok in H as (t & _ & [= <-]). apply moves_set_governance.
Qed.
End conservation.

(** ** Alice pays Bob up to 100 an hour *)

#[local] Existing Instance fc_reference.
#[local] Existing Instance fc_reference_laws.
#[local] Existing Instance boost_reference.

Definition sample_permit : withdraw_permission_object :=
  mkPermit alice bob (core_asset 100) 3600 1569999000 1580799000 0.

Definition permit_db : database := set_withdraw_permissions (λ _, mkTable {[ 4 := sample_permit ]} 5) sample_db.

Definition sample_claim (x : Z) : withdraw_permission_claim_operation :=
  mkPermitClaim (core_asset 0) 4 alice bob (core_asset x).

Definition claimed_db (x : Z) (d : database) : database :=
  get_ok (start_evaluate false false (Ok 0) d (sample_claim x)) d.

(** Two claims in the first hour, one in the third. *)
Definition set_time : (Z → Z) → dynamic_global_property_object → dynamic_global_property_object :=
  ltac:(field_setter dgpo_eta dg_time).
Definition later (d : database) : database :=
  set_dgpo (set_time (λ t, t + 7200)) d.

Example second_claim_limited :
  start_evaluate false false (Ok 0) (claimed_db 60 permit_db) (sample_claim 41)
  = Throw assert_exception.
Proof. vm_compute. reflexivity. Qed.

Lemma claims_within_limit_witness :
  ∃ q, claims 4 sample_permit
         [(1570000000, 60); (1570000000, 40); (1570007200, 100)] q ∧
    claimed_in 1569999000 3600 0 [(1570000000, 60); (1570000000, 40); (1570007200, 100)] <= 100.
Proof.
  set (d1 := claimed_db 60 permit_db). set (d2 := claimed_db 40 d1). set (d3 := claimed_db 100 (later d2)).
  set (permit := λ d : database, default sample_permit (objs (db_withdraw_permissions d) !! 4)).
  assert (∀ x p d l q, objs (db_withdraw_permissions d) !! 4 = Some p → 0 < x →
    start_evaluate false false (Ok 0) d (sample_claim x) = Ok (claimed_db x d) →
    objs (db_withdraw_permissions (claimed_db x d)) !! 4 = Some (permit (claimed_db x d)) →
    claims 4 (permit (claimed_db x d)) l q → claims 4 p ((head_block_time d, x) :: l) q) as step.
  { intros x p d l q Hp Hx H Hp' Hl. eapply (next_claim 4 p false (Ok 0) d (sample_claim x)); try done.
    unfold permit_claim_validate; simpl. by rewrite (proj2 (Z.ltb_lt 0 x)). }
  assert (claims 4 sample_permit [(1570000000, 60); (1570000000, 40); (1570007200, 100)] (permit d3)) as H.
  { replace 1570007200 with (head_block_time (later d2)) by (vm_compute; reflexivity).
    assert (1570000000 = head_block_time permit_db ∧ 1570000000 = head_block_time d1) as [E1 E2]
      by (split; vm_compute; reflexivity).
    rewrite E1 at 1. apply step; [vm_compute; reflexivity|done|vm_compute; reflexivity|vm_compute; reflexivity|].
    rewrite E2. apply step; [vm_compute; reflexivity|done|vm_compute; reflexivity|vm_compute; reflexivity|].
    apply step; [vm_compute; reflexivity|done|vm_compute; reflexivity|vm_compute; reflexivity|constructor]. }
  exists (permit d3). split; [exact H|].
  refine (claims_within_limit 4 sample_permit _ (permit d3) _ _ _ _ H 0).
  - split_and!; [reflexivity|discriminate|reflexivity|by exists 3000].
  - discriminate.
  - discriminate.
  - repeat constructor; vm_compute; congruence.
Defined.

(** A permit for three periods of 3,000,000,000 seconds is granted though its
    end wraps around.  The end of its first period wraps around too and lies
    in the past, so that every claim finds the whole limit: two claims at the
    same time take twice the limit. *)
Definition long_permit : withdraw_permission_create_operation :=
  mkPermitCreate (core_asset 0) alice bob (core_asset 100) 3000000000 3 1570000001.
Definition long_db : database :=
  set_dgpo (set_time (λ t, t + 1)) (get_ok (start_evaluate false false (Ok 0) sample_db long_permit) sample_db).
Definition overdraw (x : Z) : withdraw_permission_claim_operation :=
  mkPermitClaim (core_asset 0) 0 alice bob (core_asset x).

Example wrapped_permit_overdrawn :
  permit_create_validate long_permit = Ok tt ∧
  (let* _ := start_evaluate false false (Ok 0) sample_db long_permit in
   let* d := start_evaluate false false (Ok 0) long_db (overdraw 100) in
   let* d := start_evaluate false false (Ok 0) d (overdraw 100) in
   Ok (amount (get_balance d bob core_id) - amount (get_balance sample_db bob core_id))) = Ok 200.
Proof. split; vm_compute; reflexivity. Qed.
