(* ===== verification/Governance.v ===== *)
(** * Governance operations ([committee_member_evaluator.cpp],
    [witness_evaluator.cpp], [worker_evaluator.cpp], [fee_schedule.cpp])

    Standing for election as committee member, witness or worker, each with
    new vote ids; the change of the chain parameters by the committee and
    their validation. *)

From stdpp Require Import gmap strings list.
From Stdlib Require Import ZArith Lia.
From S2P Require Import Prelude Fc Config Asset VestingBalance Objects Database Sample Balances Fees Elections.

Local Open Scope Z_scope.

Record committee_member_create_operation := mkCommitteeCreate {
  cc_fee : asset;
  cc_committee_member_account : Z;
  cc_url : string
}.

Record committee_member_update_operation := mkCommitteeUpdate {
  cu_fee : asset;
  cu_committee_member : Z;
  cu_committee_member_account : Z;
  cu_new_url : option string
}.

Record committee_member_update_global_parameters_operation := mkUpdateParameters {
  gpu_fee : asset;
  gpu_new_parameters : chain_parameters
}.

Record witness_create_operation := mkWitnessCreate {
  wc_fee : asset;
  wc_witness_account : Z;
  wc_url : string;
  wc_block_signing_key : Z
}.

Record witness_update_operation := mkWitnessUpdate {
  wu_fee : asset;
  wu_witness : Z;
  wu_witness_account : Z;
  wu_new_url : option string;
  wu_new_signing_key : option Z
}.

Inductive worker_initializer :=
| refund_worker_initializer
| vesting_balance_worker_initializer (pay_vesting_period_days : Z)
| burn_worker_initializer.

Record worker_create_operation := mkWorkerCreate {
  wkc_fee : asset;
  wkc_owner : Z;
  wkc_work_begin_date : Z;
  wkc_work_end_date : Z;
  wkc_daily_pay : Z;
  wkc_name : string;
  wkc_url : string;
  wkc_initializer : worker_initializer
}.

(** ** Validation *)

Definition string_size (s : string) : Z := Z.of_nat (String.length s).
Definition valid_url (url : string) : bool := string_size url <? GRAPHENE_MAX_URL_LENGTH.
Definition valid_new_url (url : option string) : bool := from_option valid_url true url.

Definition committee_member_create_validate (op : committee_member_create_operation) : result unit :=
  FC_ASSERT (0 <=? amount (cc_fee op)) ;; require (valid_url (cc_url op)) assert_exception.

Definition committee_member_update_validate (op : committee_member_update_operation) : result unit :=
  FC_ASSERT (0 <=? amount (cu_fee op)) ;; require (valid_new_url (cu_new_url op)) assert_exception.

Definition witness_create_validate (op : witness_create_operation) : result unit :=
  FC_ASSERT (0 <=? amount (wc_fee op)) ;; require (valid_url (wc_url op)) assert_exception.

Definition witness_update_validate (op : witness_update_operation) : result unit :=
  FC_ASSERT (0 <=? amount (wu_fee op)) ;; require (valid_new_url (wu_new_url op)) assert_exception.

Definition worker_create_validate (op : worker_create_operation) : result unit :=
  FC_ASSERT (0 <=? amount (wkc_fee op)) ;;
  FC_ASSERT (wkc_work_begin_date op <? wkc_work_end_date op) ;;
  FC_ASSERT (0 <? wkc_daily_pay op) ;;
  FC_ASSERT (wkc_daily_pay op <? GRAPHENE_MAX_SHARE_SUPPLY) ;;
  FC_ASSERT (string_size (wkc_name op) <? GRAPHENE_MAX_WORKER_NAME_LENGTH) ;;
  require (valid_url (wkc_url op)) assert_exception.

(** [pop_weights::total]. *)
Definition pop_weights_total (w : pop_weights) : Z :=
  pw_referral w + pw_listings w + pw_reputation w + pw_trust w + pw_reliability w + pw_verification w.

(** [chain_parameters::validate]; lifetimes and periods are [uint32_t]. *)
Definition chain_parameters_validate (p : chain_parameters) : result unit :=
  FC_ASSERT (cp_reserve_percent_of_fee p <=? GRAPHENE_100_PERCENT) ;;
  FC_ASSERT (cp_network_percent_of_fee p <=? GRAPHENE_100_PERCENT) ;;
  FC_ASSERT (GRAPHENE_MIN_BLOCK_INTERVAL <=? cp_block_interval p) ;;
  FC_ASSERT (cp_block_interval p <=? GRAPHENE_MAX_BLOCK_INTERVAL) ;;
  FC_ASSERT (0 <? cp_block_interval p) ;;
  FC_ASSERT (cp_block_interval p <? cp_maintenance_interval p) ;;
  FC_ASSERT (cp_maintenance_interval p mod cp_block_interval p =? 0) ;;
  FC_ASSERT (GRAPHENE_MIN_TRANSACTION_SIZE_LIMIT <=? cp_maximum_transaction_size p) ;;
  FC_ASSERT (GRAPHENE_MIN_BLOCK_SIZE_LIMIT <=? cp_maximum_block_size p) ;;
  FC_ASSERT (cp_block_interval p <? cp_maximum_time_until_expiration p) ;;
  FC_ASSERT (cp_block_interval p <? wrap_u32 (cp_maximum_proposal_lifetime p - cp_committee_proposal_review_period p)) ;;
  FC_ASSERT (cp_block_interval p <? cp_maximum_escrow_lifetime p) ;;
  FC_ASSERT (cp_block_interval p <? cp_maximum_listing_lifetime p) ;;
  FC_ASSERT (cp_maximum_listing_priority_fee p <? GRAPHENE_100_PERCENT) ;;
  FC_ASSERT (pop_weights_total (cp_pop_weights p) =? GRAPHENE_100_PERCENT) ;;
  match cp_publisher_fee_min p, cp_publisher_fee_max p with
  | Some lo, Some hi => require (lo <=? hi) assert_exception
  | _, _ => Ok tt
  end.

Definition update_parameters_validate (op : committee_member_update_global_parameters_operation) : result unit :=
  FC_ASSERT (0 <=? amount (gpu_fee op)) ;; chain_parameters_validate (gpu_new_parameters op).

Section operations.
Context {FC : FcArith}.

(** ** Vote ids *)

(** [get_next_vote_id]. *)
Definition get_next_vote_id (d : database) (type : vote_type) : Z * database :=
  (vote_id type (gp_next_available_vote_id (db_gpo d)), set_gpo (set_next_vote_id (λ n, wrap_u32 (n + 1))) d).

(** ** Committee members *)

(** The unique indexes [by_account] and [by_vote_id]. *)
Definition committee_clash (a b : committee_member_object) : bool :=
  (cm_account a =? cm_account b) || (vote_instance (cm_vote_id a) =? vote_instance (cm_vote_id b)).

Definition committee_member_create_do_apply (d : database) (op : committee_member_create_operation)
    : result (Z * database) :=
  let (id, d) := get_next_vote_id d committee in
  let* (i, t) := index_create committee_clash (db_committee_members d)
    (mkCommitteeMember (cc_committee_member_account op) id 0 (cc_url op)) in
  Ok (i, set_committee_members (λ _, t) d).

Definition committee_member_update_do_evaluate (d : database) (op : committee_member_update_operation) : result unit :=
  let* com := index_get (db_committee_members d) (cu_committee_member op) in
  require (cm_account com =? cu_committee_member_account op) assert_exception.

Definition committee_member_update_do_apply (d : database) (op : committee_member_update_operation) : result database :=
  let* t := index_modify committee_clash (db_committee_members d) (cu_committee_member op)
    (λ com, Ok (mkCommitteeMember (cm_account com) (cm_vote_id com) (cm_total_votes com)
                  (default (cm_url com) (cu_new_url op)))) in
  Ok (set_committee_members (λ _, t) d).

(** The publisher fee limits are for the time after HARDFORK_OM_749 only. *)
Definition update_parameters_do_evaluate (is_proposed_trx : bool) (d : database)
    (op : committee_member_update_global_parameters_operation) : result unit :=
  let p := gpu_new_parameters op in
  FC_ASSERT is_proposed_trx ;;
  if head_block_time d <? HARDFORK_OM_749_TIME then
    FC_ASSERT (negb (cp_null_ext p)) ;;
    FC_ASSERT (bool_decide (cp_publisher_fee_min p = None)) ;;
    require (bool_decide (cp_publisher_fee_max p = None)) assert_exception
  else
    FC_ASSERT (bool_decide (is_Some (cp_publisher_fee_min p))) ;;
    require (bool_decide (is_Some (cp_publisher_fee_max p))) assert_exception.

Definition update_parameters_do_apply (d : database) (op : committee_member_update_global_parameters_operation)
    : result database :=
  Ok (set_gpo (set_pending_parameters (λ _, Some (gpu_new_parameters op))) d).

(** ** Witnesses *)

Definition witness_clash (a b : witness_object) : bool :=
  (wo_witness_account a =? wo_witness_account b) || (vote_instance (wo_vote_id a) =? vote_instance (wo_vote_id b)).

Definition create_witness (d : database) (w : witness_object) : result (Z * database) :=
  let id := gv_next_witness (db_governance d) in
  FC_ASSERT (bool_decide (db_witnesses d !! id = None) && negb (clashes witness_clash (db_witnesses d) w)) ;;
  Ok (id, set_next_witness (λ n, n + 1) (set_witnesses (<[id := w]>) d)).

Definition witness_create_do_apply (d : database) (op : witness_create_operation) : result (Z * database) :=
  let (id, d) := get_next_vote_id d witness in
  create_witness d (mkWitness (wc_witness_account op) 0 None id 0 0 0 (wc_block_signing_key op) 0 (wc_url op)).

Definition witness_update_do_evaluate (d : database) (op : witness_update_operation) : result unit :=
  let* w := get_witness d (wu_witness op) in
  require (wo_witness_account w =? wu_witness_account op) assert_exception.

Definition witness_update_do_apply (d : database) (op : witness_update_operation) : result database :=
  modify_witness d (wu_witness op)
    (λ w, set_signing_key (λ k, default k (wu_new_signing_key op))
            (set_witness_url (λ u, default u (wu_new_url op)) w)).

(** ** Workers *)

Definition worker_clash (a b : worker_object) : bool :=
  (vote_instance (wk_vote_for a) =? vote_instance (wk_vote_for b))
  || (vote_instance (wk_vote_against a) =? vote_instance (wk_vote_against b)).

Definition worker_create_do_evaluate (d : database) (op : worker_create_operation) : result unit :=
  require (head_block_time d <=? wkc_work_begin_date op) assert_exception.

(** [worker_init_visitor]: a worker whose pay vests gets a vesting balance. *)
Definition init_worker (d : database) (owner : Z) (i : worker_initializer) : result (worker_type * database) :=
  match i with
  | refund_worker_initializer => Ok (refund_worker_type 0, d)
  | burn_worker_initializer => Ok (burn_worker_type 0, d)
  | vesting_balance_worker_initializer pay_vesting_period_days =>
      let* (id, t) := index_create no_clash (db_vesting d)
        (mkVbo owner (core_asset 0)
           (cdd_policy (mkCdd (wrap_u32 (pay_vesting_period_days * 86400)) 0 0 (head_block_time d))) no_type) in
      Ok (vesting_balance_worker_type id, set_vesting (λ _, t) d)
  end.

Definition worker_create_do_apply (d : database) (op : worker_create_operation) : result (Z * database) :=
  let (for_id, d) := get_next_vote_id d worker in
  let (against_id, d) := get_next_vote_id d worker in
  let* (kind, d) := init_worker d (wkc_owner op) (wkc_initializer op) in
  let* (i, t) := index_create worker_clash (db_workers d)
    (mkWorker (wkc_owner op) (wkc_work_begin_date op) (wkc_work_end_date op) (wkc_daily_pay op) kind
       (wkc_name op) (wkc_url op) for_id against_id 0 0) in
  Ok (i, set_workers (λ _, t) d).

(** ** The evaluators *)

Definition drop_id (r : result (Z * database)) : result database := let* (_, d) := r in Ok d.

#[export] Instance committee_member_create_evaluator : Evaluator committee_member_create_operation := {
  ev_state := unit; op_fee_payer := cc_committee_member_account; op_fee := cc_fee;
  do_evaluate := λ _ _, Ok tt;
  do_apply := λ d op _, drop_id (committee_member_create_do_apply d op)
}.

#[export] Instance committee_member_update_evaluator : Evaluator committee_member_update_operation := {
  ev_state := unit; op_fee_payer := cu_committee_member_account; op_fee := cu_fee;
  do_evaluate := committee_member_update_do_evaluate;
  do_apply := λ d op _, committee_member_update_do_apply d op
}.

(** [trx_state->_is_proposed_trx] is a parameter of this evaluator. *)
Definition update_parameters_evaluator (is_proposed_trx : bool)
    : Evaluator committee_member_update_global_parameters_operation := {|
  ev_state := unit; op_fee_payer := λ _, GRAPHENE_COMMITTEE_ACCOUNT; op_fee := gpu_fee;
  do_evaluate := update_parameters_do_evaluate is_proposed_trx;
  do_apply := λ d op _, update_parameters_do_apply d op
|}.

#[export] Instance witness_create_evaluator : Evaluator witness_create_operation := {
  ev_state := unit; op_fee_payer := wc_witness_account; op_fee := wc_fee;
  do_evaluate := λ _ _, Ok tt;
  do_apply := λ d op _, drop_id (witness_create_do_apply d op)
}.

#[export] Instance witness_update_evaluator : Evaluator witness_update_operation := {
  ev_state := unit; op_fee_payer := wu_witness_account; op_fee := wu_fee;
  do_evaluate := witness_update_do_evaluate;
  do_apply := λ d op _, witness_update_do_apply d op
}.

#[export] Instance worker_create_evaluator : Evaluator worker_create_operation := {
  ev_state := unit; op_fee_payer := wkc_owner; op_fee := wkc_fee;
  do_evaluate := worker_create_do_evaluate;
  do_apply := λ d op _, drop_id (worker_create_do_apply d op)
}.
End operations.
