(* ===== verification/GovernanceProps.v ===== *)
(** * What the governance operations guarantee

    Vote ids are never used twice, so that a vote is for one candidate only;
    workers' pay is in range; and the chain parameters in force are always
    ones that passed validation. *)

From stdpp Require Import gmap strings list.
From Stdlib Require Import ZArith Lia.
From S2P Require Import Prelude Fc Config Asset VestingBalance Objects Database Sample Balances Fees Exchange Elections Maintenance Governance.

Local Open Scope Z_scope.

(** ** Vote ids *)

Lemma vote_instance_id t n : 0 <= n < 2 ^ 24 → vote_instance (vote_id t n) = n.
Proof.
  intros Hn. unfold vote_instance, vote_id. rewrite Z.shiftl_mul_pow2, Z.mod_small, Z.shiftr_lor by lia.
  rewrite !Z.shiftr_div_pow2, Z.div_mul by lia.
  assert (vote_type_number t / 2 ^ 8 = 0) as -> by (by destruct t). apply Z.lor_0_r.
Qed.

Lemma vote_kind_id t n : vote_kind (vote_id t n) = vote_type_number t.
Proof.
  unfold vote_kind, vote_id. change 255 with (Z.ones 8). rewrite Z.land_lor_distr_l, !Z.land_ones by done.
  assert (vote_type_number t mod 2 ^ 8 = vote_type_number t) as -> by (by destruct t).
  rewrite Z.shiftl_mul_pow2 by done. change (2 ^ 32) with (2 ^ 24 * 2 ^ 8).
  rewrite Z.mul_mod_distr_r, Z.mod_mul by done. apply Z.lor_0_l.
Qed.

Section offices.
Context {V : Type} (f : V → Z).

(** The instances of the votes of a table. *)
Definition instances (m : gmap Z V) : list Z := (λ kv, vote_instance (f kv.2)) <$> map_to_list m.

Lemma instances_new m k v : m !! k = None → instances (<[k := v]> m) ≡ₚ vote_instance (f v) :: instances m.
Proof. intros Hk. unfold instances. by rewrite map_to_list_insert. Qed.

Lemma instances_same m k v w : m !! k = Some v → f w = f v → instances (<[k := w]> m) ≡ₚ instances m.
Proof.
  intros Hk E. rewrite <- (insert_id m k v Hk) at 2. rewrite <- !(insert_delete_eq m k).
  rewrite !instances_new by apply lookup_delete_eq. by rewrite E.
Qed.
End offices.

(** Of all candidates of all kinds. *)
Definition vote_instances (d : database) : list Z :=
  instances wo_vote_id (db_witnesses d) ++ instances cm_vote_id (objs (db_committee_members d))
  ++ instances wk_vote_for (objs (db_workers d)) ++ instances wk_vote_against (objs (db_workers d)).

Definition next_vote (d : database) : Z := gp_next_available_vote_id (db_gpo d).

(** All different, and all below the next one. *)
Definition votes_wf (d : database) : Prop :=
  NoDup (vote_instances d) ∧ Forall (λ i, 0 <= i < next_vote d) (vote_instances d) ∧ 0 <= next_vote d.

Definition pays_wf (d : database) : Prop :=
  ∀ id w, objs (db_workers d) !! id = Some w → 0 < wk_daily_pay w < GRAPHENE_MAX_SHARE_SUPPLY.

(** New ids for new candidates. *)
Lemma votes_wf_new d d' n : votes_wf d → 0 <= n → next_vote d' = next_vote d + n →
  (∃ l, vote_instances d' ≡ₚ l ++ vote_instances d ∧ NoDup l ∧ Forall (λ i, next_vote d <= i < next_vote d + n) l) →
  votes_wf d'.
Proof.
  intros (Hnd & Hall & H0) Hn En (l & Hp & Hl & Hr). split_and!; [| |lia].
  - rewrite Hp. apply NoDup_app. split_and!; [done| |done]. intros i Hi Hd.
    rewrite Forall_forall in Hr, Hall. apply Hr in Hi. apply Hall in Hd. lia.
  - rewrite Hp, En. apply Forall_app. split; eapply Forall_impl; try eassumption; simpl; intros; lia.
Qed.

(** ** The operations *)

(** A validated operation, applied through the fee framework. *)
Inductive governance_operation :=
| create_member (op : committee_member_create_operation)
| update_member (op : committee_member_update_operation)
| change_parameters (is_proposed_trx : bool) (op : committee_member_update_global_parameters_operation)
| create_witness_op (op : witness_create_operation)
| update_witness_op (op : witness_update_operation)
| create_worker (op : worker_create_operation).

Section properties.
Context {FC : FcArith} {FCL : FcArithLaws FC} {BA : BoostArith}.

Definition run_governance (skip_check : bool) (required : result Z) (d : database) (o : governance_operation)
    : result database :=
  match o with
  | create_member op =>
      let* _ := committee_member_create_validate op in start_evaluate false skip_check required d op
  | update_member op =>
      let* _ := committee_member_update_validate op in start_evaluate false skip_check required d op
  | change_parameters proposed op =>
      let* _ := update_parameters_validate op in
      start_evaluate (E := update_parameters_evaluator proposed) false skip_check required d op
  | create_witness_op op =>
      let* _ := witness_create_validate op in start_evaluate false skip_check required d op
  | update_witness_op op =>
      let* _ := witness_update_validate op in start_evaluate false skip_check required d op
  | create_worker op =>
      let* _ := worker_create_validate op in start_evaluate false skip_check required d op
  end.

(** What these operations are about. *)
Definition offices (d : database) := (db_witnesses d, db_governance d, db_gpo d, db_dgpo d).

Lemma start_evaluate_offices {Op} {E : Evaluator Op} skip_check required d (op : Op) d' :
  start_evaluate false skip_check required d op = Ok d' →
  ∃ st d1 d2, do_evaluate d op = Ok st ∧ offices d1 = offices d ∧ do_apply d1 op st = Ok d2 ∧ offices d' = offices d2.
Proof.
  intros (g & st & d0 & d1 & d2 & _ & Hst & Hc & Hp & Ha & [m ->]%adjust_balance_frame)%start_evaluate_stages.
  exists st, d1, d2. split_and!; [done| |done|done].
  unfold convert_fee, pay_fee, modify_asset_dyn, modify_statistics in *. case_in Hc; ok_inv; done.
Qed.

Lemma offices_votes d d' : offices d' = offices d → vote_instances d' = vote_instances d ∧ next_vote d' = next_vote d ∧
  db_workers d' = db_workers d ∧ db_gpo d' = db_gpo d ∧ db_dgpo d' = db_dgpo d.
Proof.
  unfold offices. intros [= Ew Eg Ep Ed]. unfold vote_instances, next_vote, db_committee_members, db_workers.
  by rewrite Ew, Eg, Ep.
Qed.

(** *** What each one does to the votes *)

Lemma member_create_votes d op id d' : 0 <= next_vote d < 2 ^ 24 →
  committee_member_create_do_apply d op = Ok (id, d') →
  next_vote d' = next_vote d + 1 ∧ vote_instances d' ≡ₚ [next_vote d] ++ vote_instances d ∧ db_workers d' = db_workers d.
Proof.
  intros Hn H. unfold committee_member_create_do_apply, get_next_vote_id in H.
  apply rbind_ok in H as ([i t] & (-> & Hnone & _ & ->)%index_create_ok & [= <- <-]).
  unfold vote_instances, next_vote in *. simpl. rewrite wrap_u32_small by lia. split_and!; [done| |done].
  rewrite instances_new by done. cbn [cm_vote_id]. rewrite vote_instance_id by done.
  symmetry. apply Permutation_middle.
Qed.

Lemma witness_create_votes d op id d' : 0 <= next_vote d < 2 ^ 24 →
  witness_create_do_apply d op = Ok (id, d') →
  next_vote d' = next_vote d + 1 ∧ vote_instances d' ≡ₚ [next_vote d] ++ vote_instances d ∧ db_workers d' = db_workers d.
Proof.
  intros Hn H. unfold witness_create_do_apply, get_next_vote_id, create_witness in H.
  apply rbind_ok in H as (? & [Hnone _]%require_ok%andb_prop & [= <- <-]). apply bool_decide_eq_true in Hnone.
  unfold vote_instances, next_vote in *. simpl in *. rewrite wrap_u32_small by lia. split_and!; [done| |done].
  rewrite instances_new by done. cbn [wo_vote_id]. by rewrite vote_instance_id by done.
Qed.

Lemma init_worker_offices d o i k d' : init_worker d o i = Ok (k, d') → offices d' = offices d.
Proof.
  destruct i; simpl; intros H; [by injection H as <- <-| |by injection H as <- <-].
  apply rbind_ok in H as ([id t] & _ & [= <- <-]). done.
Qed.

Lemma worker_create_votes d op id d' : 0 <= next_vote d < 2 ^ 24 - 1 →
  worker_create_do_apply d op = Ok (id, d') →
  next_vote d' = next_vote d + 2 ∧ vote_instances d' ≡ₚ [next_vote d; next_vote d + 1] ++ vote_instances d ∧
  ∃ i w, objs (db_workers d') = <[i := w]> (objs (db_workers d)) ∧ wk_daily_pay w = wkc_daily_pay op.
Proof.
  intros Hn H. unfold worker_create_do_apply, get_next_vote_id in H. simpl in H.
  apply rbind_ok in H as ([k d1] & Ho%init_worker_offices & H). unfold offices in Ho. simpl in Ho.
  injection Ho as Ew Eg Ep _.
  apply rbind_ok in H as ([i t] & (-> & Hnone & _ & ->)%index_create_ok & [= <- <-]).
  unfold db_workers in Hnone. rewrite Eg in Hnone.
  unfold vote_instances, next_vote, db_committee_members, db_workers in *. simpl. rewrite Ew, Eg, Ep. simpl.
  rewrite !wrap_u32_small by (rewrite ?wrap_u32_small; lia). split_and!; [lia| |eexists _, _; split; reflexivity].
  rewrite !instances_new by done. cbn [wk_vote_for wk_vote_against]. rewrite !vote_instance_id by lia.
  set (l1 := instances _ _). set (l2 := instances _ _). set (l3 := instances _ _). set (l4 := instances _ _).
  solve_Permutation.
Qed.

Lemma member_update_votes d op d' : committee_member_update_do_apply d op = Ok d' →
  next_vote d' = next_vote d ∧ vote_instances d' ≡ₚ vote_instances d ∧ db_workers d' = db_workers d.
Proof.
  intros H. unfold committee_member_update_do_apply in H.
  apply rbind_ok in H as (t & (v & v' & Hv & [= <-] & _ & ->)%index_modify_ok & [= <-]).
  split_and!; [done| |done]. unfold vote_instances. simpl. by rewrite (instances_same cm_vote_id _ _ v).
Qed.

Lemma witness_update_votes d op d' : witness_update_do_apply d op = Ok d' →
  next_vote d' = next_vote d ∧ vote_instances d' ≡ₚ vote_instances d ∧ db_workers d' = db_workers d.
Proof.
  intros H. unfold witness_update_do_apply, modify_witness, get_witness in H.
  apply rbind_ok in H as (w & Hw%of_option_ok & [= <-]).
  split_and!; [done| |done]. unfold vote_instances. simpl. by rewrite (instances_same wo_vote_id _ _ w).
Qed.

Lemma update_parameters_votes d op d' : update_parameters_do_apply d op = Ok d' →
  next_vote d' = next_vote d ∧ vote_instances d' ≡ₚ vote_instances d ∧ db_workers d' = db_workers d.
Proof. by intros [= <-]. Qed.

(** What a run does: [n] new votes and perhaps a new worker. *)
Definition enrols (d d' : database) (n : Z) : Prop :=
  0 <= n <= 2 ∧ next_vote d' = next_vote d + n ∧
  (∃ l, vote_instances d' ≡ₚ l ++ vote_instances d ∧ NoDup l ∧ Forall (λ i, next_vote d <= i < next_vote d + n) l) ∧
  (db_workers d' = db_workers d ∨
   ∃ i w, objs (db_workers d') = <[i := w]> (objs (db_workers d)) ∧ 0 < wk_daily_pay w < GRAPHENE_MAX_SHARE_SUPPLY).

Lemma drop_id_ok r d : drop_id r = Ok d → ∃ id, r = Ok (id, d).
Proof. unfold drop_id. intros H. apply rbind_ok in H as ([id d'] & -> & [= <-]). eauto. Qed.

Lemma enrols_offices d d1 d2 d' n : offices d1 = offices d → offices d' = offices d2 → enrols d1 d2 n → enrols d d' n.
Proof.
  intros (E1 & E2 & E3 & _)%offices_votes (F1 & F2 & F3 & _)%offices_votes. unfold enrols. by rewrite E1, E2, E3, F1, F2, F3.
Qed.

Lemma enrols_same d d' : next_vote d' = next_vote d → vote_instances d' ≡ₚ vote_instances d → db_workers d' = db_workers d →
  enrols d d' 0.
Proof.
  intros E P W. split_and!; [lia..| |by left]. exists []. simpl. split_and!; [done|constructor|constructor].
Qed.

Lemma enrols_one d d' : next_vote d' = next_vote d + 1 → vote_instances d' ≡ₚ [next_vote d] ++ vote_instances d →
  db_workers d' = db_workers d → enrols d d' 1.
Proof.
  intros E P W. split_and!; [lia..| |by left]. exists [next_vote d]. split_and!; [done|apply NoDup_singleton|].
  repeat constructor; lia.
Qed.

Lemma run_governance_enrols skip_check required d o d' :
  0 <= next_vote d < 2 ^ 24 - 1 → run_governance skip_check required d o = Ok d' → ∃ n, enrols d d' n.
Proof.
  intros Hn H. destruct o; simpl in H; apply rbind_ok in H as (? & Hv & H);
    apply start_evaluate_offices in H as (st & d1 & d2 & _ & E1 & H & E2);
    pose proof (offices_votes _ _ E1) as (_ & En & _); simpl in H.
  - apply drop_id_ok in H as [id H]. exists 1. eapply enrols_offices; [done..|]. rewrite <- En in Hn.
    apply member_create_votes in H as (? & ? & ?); [by apply enrols_one|lia].
  - exists 0. eapply enrols_offices; [done..|]. apply member_update_votes in H as (? & ? & ?). by apply enrols_same.
  - exists 0. eapply enrols_offices; [done..|]. apply update_parameters_votes in H as (? & ? & ?). by apply enrols_same.
  - apply drop_id_ok in H as [id H]. exists 1. eapply enrols_offices; [done..|]. rewrite <- En in Hn.
    apply witness_create_votes in H as (? & ? & ?); [by apply enrols_one|lia].
  - exists 0. eapply enrols_offices; [done..|]. apply witness_update_votes in H as (? & ? & ?). by apply enrols_same.
  - apply drop_id_ok in H as [id H]. exists 2. eapply enrols_offices; [done..|]. rewrite <- En in Hn.
    apply worker_create_votes in H as (E & P & i & w & Hw & Hp); [|lia].
    split_and!; [lia..| |right; exists i, w; split; [done|rewrite Hp; unfold worker_create_validate in Hv; ok_inv; lia]].
    exists [next_vote d1; next_vote d1 + 1]. split_and!; [done| |repeat constructor; lia].
    apply NoDup_cons. split; [|apply NoDup_singleton]. rewrite list_elem_of_singleton. lia.
Qed.

(** C30. The votes of all candidates -- witnesses, committee members, workers
    for and against -- are for different things: no operation ever gives out
    a vote id twice, as long as less than 2^24 were given out; and every
    worker asks for a pay that the budget can deal with. *)
Theorem vote_ids_distinct skip_check required d o d' :
  votes_wf d → pays_wf d → next_vote d < 2 ^ 24 - 1 → run_governance skip_check required d o = Ok d' →
  votes_wf d' ∧ pays_wf d' ∧ next_vote d <= next_vote d' <= next_vote d + 2.
Proof.
  intros Hv Hp Hn H. pose proof Hv as (_ & _ & H0).
  apply run_governance_enrols in H as (n & Hr & E & Hl & Hw); [|lia].
  split_and!; [by eapply (votes_wf_new d d' n); [|lia|..]| |lia..].
  destruct Hw as [Hw|(i & w & Hw & Hpay)]; intros id v; rewrite Hw; [apply Hp|].
  rewrite lookup_insert_Some. intros [[_ <-]|[_ Hv']]; [done|by eapply Hp].
Qed.
End properties.

(** ** The chain parameters *)

(** Validated, and with the two publisher fee limits only together. *)
Definition params_ok (p : chain_parameters) : Prop :=
  chain_parameters_validate p = Ok tt ∧ (is_Some (cp_publisher_fee_min p) ↔ is_Some (cp_publisher_fee_max p)).

Definition parameters_wf (d : database) : Prop :=
  params_ok (parameters d) ∧ ∀ p, gp_pending_parameters (db_gpo d) = Some p → params_ok p.

Lemma params_ok_default p : params_ok p → params_ok (default_publisher_fees p).
Proof.
  intros [Hv Hl]. unfold params_ok, chain_parameters_validate, default_publisher_fees in *. simpl in *.
  destruct (cp_publisher_fee_min p) as [lo|], (cp_publisher_fee_max p) as [hi|]; simpl in *.
  - done.
  - by destruct (proj1 Hl) as [? [=]].
  - by destruct (proj2 Hl) as [? [=]].
  - split; [exact Hv|by split].
Qed.

Lemma params_ok_basic_fee p f : params_ok p → params_ok (set_account_basic_fee f p).
Proof. done. Qed.

Lemma params_ok_lifetime p n : params_ok p → params_ok (set_maximum_listing_lifetime (Z.max n) p).
Proof.
  intros [Hv Hl]. split; [|exact Hl]. unfold chain_parameters_validate in *. simpl in *. ok_inv.
  repeat match goal with H : _ = true |- _ => rewrite H; clear H; simpl end.
  match goal with |- context [require ?b _] => assert (b = true) as -> by (b2p; apply Z.ltb_lt; lia) end.
  done.
Qed.

Section parameters.
Context {FC : FcArith} {FCL : FcArithLaws FC} {BA : BoostArith}.

(** The writes to the chain parameters: the committee's, and those of the
    maintenance. *)
Inductive parameter_step : database → database → Prop :=
| committee_changes skip_check required d op d' :
    run_governance skip_check required d (change_parameters true op) = Ok d' → parameter_step d d'
| maintenance_updates d d' : update_global_parameters d = Ok d' → parameter_step d d'
| maintenance_schedules timestamp block_num d d' :
    schedule_maintenance timestamp block_num d = Ok d' → parameter_step d d'.

Lemma process_hf_om_774_gpo d d' : process_hf_om_774 d = Ok d' → db_gpo d' = db_gpo d.
Proof.
  apply (rfold_invariant _ (λ d d', db_gpo d' = db_gpo d)); [done|by intros ? ? ? -> ->|].
  intros d0 id d1 _ (l & l' & _ & _ & _ & ->)%modify_listing_ok. done.
Qed.

Lemma schedule_maintenance_parameters timestamp block_num d d' :
  schedule_maintenance timestamp block_num d = Ok d' →
  gp_pending_parameters (db_gpo d') = gp_pending_parameters (db_gpo d) ∧
  (parameters d' = parameters d ∨
   parameters d' = set_maximum_listing_lifetime (Z.max (100 * 1000 * 1000)) (parameters d)).
Proof.
  unfold schedule_maintenance. intros H. apply rbind_ok in H as (next & _ & H).
  apply rbind_ok in H as (d1 & H1 & H).
  assert (db_gpo d1 = db_gpo d) as E by (case_in H1; [by apply process_hf_om_774_gpo|by injection H1 as <-]).
  unfold modify_dgpo, parameters in *. simpl in H. injection H as <-.
  destruct ((_ <=? HARDFORK_OM_774_2_TIME) && _); simpl; rewrite E; auto.
Qed.

Lemma update_parameters_params_ok d op : update_parameters_validate op = Ok tt →
  update_parameters_do_evaluate true d op = Ok tt → params_ok (gpu_new_parameters op).
Proof.
  unfold update_parameters_validate, update_parameters_do_evaluate. intros Hv He. split; [by ok_inv|].
  case_match; ok_inv; repeat match goal with H : bool_decide _ = true |- _ => apply bool_decide_eq_true in H end.
  - repeat match goal with E : _ = None |- _ => rewrite E; clear E end. by split.
  - by split.
Qed.

Lemma params_ok_intervals p : params_ok p →
  0 < cp_block_interval p < cp_maintenance_interval p ∧ (cp_block_interval p | cp_maintenance_interval p).
Proof.
  intros [Hv _]. unfold chain_parameters_validate in Hv. ok_inv. b2p. split; [lia|]. apply Z.mod_divide; lia.
Qed.

(** C31. The chain parameters in force have always passed validation, and so
    have those that wait for the next maintenance: whatever the committee's
    approved change, the maintenance that puts it in force, the publisher fee
    limits that maintenance fills in and the longer listing lifetime at the
    hardfork do. In particular the interval between blocks is positive and
    divides the one between maintenances. *)
Theorem parameters_validated d d' : parameter_step d d' → parameters_wf d →
  parameters_wf d' ∧ 0 < cp_block_interval (parameters d') < cp_maintenance_interval (parameters d') ∧
  (cp_block_interval (parameters d') | cp_maintenance_interval (parameters d')).
Proof.
  intros Hs [Hp Hq]. enough (parameters_wf d') as H by (split; [done|exact (params_ok_intervals _ (proj1 H))]).
  destruct Hs as [skip_check required d op d' H|d d' H|timestamp n d d' H].
  - simpl in H. apply rbind_ok in H as ([] & Hv & H).
    apply start_evaluate_offices in H as ([] & d1 & d2 & He & E1 & [= <-] & E2). simpl in He.
    injection E1 as _ _ Eg _. injection E2 as _ _ Eg' _. unfold parameters_wf, parameters in *. rewrite Eg'. simpl.
    rewrite Eg. split; [done|]. intros p [= <-]. by eapply update_parameters_params_ok.
  - unfold update_global_parameters in H. case_in H; [done|]. apply rbind_ok in H as (fee & _ & [= <-]).
    unfold parameters_wf, parameters. simpl. split; [|done].
    assert (params_ok (default (set_account_basic_fee (λ _, fee) (gp_parameters (db_gpo d)))
                         (gp_pending_parameters (db_gpo d)))) as Hd.
    { destruct (gp_pending_parameters (db_gpo d)) as [q|] eqn:Eq; simpl; [by apply Hq|by apply params_ok_basic_fee]. }
    case_match; [by apply params_ok_default|done].
  - apply schedule_maintenance_parameters in H as [Eq [Ep|Ep]]; split; rewrite ?Ep, ?Eq; try done.
    by apply params_ok_lifetime.
Qed.
End parameters.

(** ** A worker stands for election, the committee changes the parameters *)

#[local] Existing Instance fc_reference.
#[local] Existing Instance fc_reference_laws.
#[local] Existing Instance boost_reference.

Definition sample_worker_op : worker_create_operation :=
  mkWorkerCreate (core_asset 0) bob 1570000000 1580000000 1000 "worker" "http" (vesting_balance_worker_initializer 30).

Definition enrolled_db : database :=
  get_ok (run_governance false (Ok 0) sample_db (create_worker sample_worker_op)) sample_db.

Example worker_enrolled : objs (db_workers enrolled_db) !! 0 =
  Some (mkWorker bob 1570000000 1580000000 1000 (vesting_balance_worker_type 0) "worker" "http"
          (vote_id worker 8) (vote_id worker 9) 0 0).
Proof. vm_compute. reflexivity. Qed.

Lemma sample_votes_wf : votes_wf sample_db.
Proof.
  unfold votes_wf. assert (vote_instances sample_db = [0]) as -> by (vm_compute; reflexivity).
  split_and!; [apply NoDup_singleton|repeat constructor; vm_compute; congruence|vm_compute; congruence].
Qed.

Lemma vote_ids_distinct_witness : votes_wf enrolled_db ∧ pays_wf enrolled_db ∧ next_vote enrolled_db <= 10.
Proof.
  destruct (vote_ids_distinct false (Ok 0) sample_db (create_worker sample_worker_op) enrolled_db) as (Hv & Hp & _ & Hn).
  - exact sample_votes_wf.
  - intros id w H. simpl in H. by rewrite lookup_empty in H.
  - vm_compute. reflexivity.
  - vm_compute. reflexivity.
  - split_and!; [exact Hv|exact Hp|exact Hn].
Defined.

(** The sample parameters, with publisher fee limits and longer proposals. *)
Definition sample_change : committee_member_update_global_parameters_operation :=
  mkUpdateParameters (core_asset 0)
    (set_maximum_listing_lifetime (λ _, 3000000) (default_publisher_fees sample_params)).

Definition changed_db : database :=
  get_ok (run_governance false (Ok 0) sample_db (change_parameters true sample_change)) sample_db.

Lemma parameters_validated_witness : parameters_wf changed_db ∧
  is_Some (gp_pending_parameters (db_gpo changed_db)).
Proof.
  split; [|vm_compute; eauto].
  apply (parameters_validated sample_db changed_db).
  - apply (committee_changes false (Ok 0) _ sample_change). vm_compute. reflexivity.
  - split; [|done]. split; [vm_compute; reflexivity|by split; intros [? [=]]].
Defined.
