(* ===== verification/AccountName.v ===== *)
(** * Account names ([is_valid_name] of [protocol/account.cpp])

    The test for names, position by position as the code does it, and the
    grammar of its comment; the theorem says that they agree. *)

From stdpp Require Import base list strings.
From Stdlib Require Import ZArith Lia Ascii.
From S2P Require Import Prelude Config AssetOps.

Local Open Scope Z_scope.

Definition let_dig (c : ascii) : bool := is_lower c || is_digit c.
Definition let_dig_hyp (c : ascii) : bool := let_dig c || Ascii.eqb c "-".

(** The character at a position. *)
Definition char_at (p : ascii → bool) (name : list ascii) (i : nat) : bool := from_option p false (name !! i).

(** [name.find_first_of( '.', begin )], the length when there is none. *)
Fixpoint undotted (l : list ascii) : nat :=
  match l with
  | [] => O
  | c :: l' => if is_dot c then O else S (undotted l')
  end.
Definition label_end (name : list ascii) (begin : nat) : nat := (begin + undotted (drop begin name))%nat.

Definition valid_label (name : list ascii) (begin end_ : nat) : bool :=
  (GRAPHENE_MIN_ACCOUNT_NAME_LENGTH <=? Z.of_nat (end_ - begin))
  && char_at is_lower name begin
  && char_at let_dig name (end_ - 1)
  && forallb (char_at let_dig_hyp name) (seq (begin + 1) (end_ - 1 - (begin + 1))).

Fixpoint valid_labels (fuel : nat) (name : list ascii) (begin : nat) : result bool :=
  match fuel with
  | O => Throw out_of_fuel
  | S fuel' =>
      let end_ := label_end name begin in
      if negb (valid_label name begin end_) then Ok false
      else if (end_ =? length name)%nat then Ok true
      else valid_labels fuel' name (end_ + 1)
  end.

(** There are not more labels than characters. *)
Definition is_valid_name (s : string) : result bool :=
  let name := String.list_ascii_of_string s in
  let len := Z.of_nat (length name) in
  if len <? GRAPHENE_MIN_ACCOUNT_NAME_LENGTH then Ok false
  else if GRAPHENE_MAX_ACCOUNT_NAME_LENGTH <? len then Ok false
  else valid_labels (S (length name)) name 0.

(** ** The grammar (RFC 1035, lower case) *)

Inductive ldh_str : list ascii → Prop :=
| ldh_one c : let_dig_hyp c = true → ldh_str [c]
| ldh_more c s : let_dig_hyp c = true → ldh_str s → ldh_str (c :: s).

Inductive label : list ascii → Prop :=
| label_letter c : is_lower c = true → label [c]
| label_short c e : is_lower c = true → let_dig e = true → label [c; e]
| label_long c s e : is_lower c = true → ldh_str s → let_dig e = true → label (c :: s ++ [e]).

Inductive subdomain : list ascii → Prop :=
| sub_label s : label s → subdomain s
| sub_more s t : subdomain s → label t → subdomain (s ++ "."%char :: t).

(** The same, label by label from the front. *)
Inductive labels : list ascii → Prop :=
| last_label s : label s → labels s
| first_label s t : label s → labels t → labels (s ++ "."%char :: t).

Lemma labels_app s t : labels s → labels t → labels (s ++ "."%char :: t).
Proof.
  induction 1 as [s Hs|s u Hs Hu IH]; intros Ht; [by constructor|].
  rewrite <- (assoc_L (++)). simpl. constructor; [done|by apply IH].
Qed.

Lemma subdomain_cons s t : label s → subdomain t → subdomain (s ++ "."%char :: t).
Proof.
  intros Hs. induction 1 as [t Ht|t u Ht IH Hu]; [constructor; [by constructor|done]|].
  rewrite app_comm_cons, (assoc_L (++)). by constructor.
Qed.

Lemma labels_subdomain s : labels s ↔ subdomain s.
Proof.
  split; induction 1; try (by constructor).
  - by apply subdomain_cons.
  - apply labels_app; [done|by constructor].
Qed.

(** ** A label *)

Lemma ldh_str_spec s : ldh_str s ↔ s ≠ [] ∧ Forall (λ c, let_dig_hyp c = true) s.
Proof.
  split.
  - induction 1 as [c Hc|c s Hc Hs [_ IH]]; (split; [done|]); by repeat constructor.
  - intros [Hne Hs]. induction Hs as [|c [|d s] Hc Hs IH]; [done|by constructor|].
    apply ldh_more; [done|]. by apply IH.
Qed.

Lemma let_dig_not_dot c : let_dig_hyp c = true → is_dot c = false.
Proof.
  intros H. apply not_true_is_false. intros E%Ascii.eqb_eq. subst c. vm_compute in H. discriminate H.
Qed.

Lemma label_undotted s : label s → Forall (λ c, is_dot c = false) s.
Proof.
  assert (∀ c, is_lower c = true → let_dig_hyp c = true) as Hl by (intros c E; unfold let_dig_hyp, let_dig; by rewrite E).
  assert (∀ c, let_dig c = true → let_dig_hyp c = true) as Hd by (intros c E; unfold let_dig_hyp; by rewrite E).
  intros Hs. apply (Forall_impl (λ c, let_dig_hyp c = true)); [|by intros; apply let_dig_not_dot].
  destruct Hs as [| |c s e Hc [_ Hs]%ldh_str_spec He]; repeat constructor; auto.
  apply Forall_app. split; [done|]. repeat constructor; auto.
Qed.

(** The tests of the code on a label by itself. *)
Lemma label_spec s : label s ↔
  s ≠ [] ∧ char_at is_lower s 0 = true ∧ char_at let_dig s (length s - 1) = true ∧
  ∀ i, (1 <= i < length s - 1)%nat → char_at let_dig_hyp s i = true.
Proof.
  split.
  - destruct 1 as [c Hc|c e Hc He|c s e Hc [_ Hs]%ldh_str_spec He]; split_and!; try done; simpl; try lia.
    + unfold char_at. simpl. unfold let_dig. by rewrite Hc.
    + unfold char_at. rewrite length_app. simpl. rewrite Nat.sub_0_r, Nat.add_1_r. simpl.
      by rewrite lookup_app_r, Nat.sub_diag by done.
    + intros [|i] Hi; [lia|]. rewrite length_app in Hi. simpl in Hi. unfold char_at. simpl.
      rewrite lookup_app_l by lia. destruct (s !! i) as [c'|] eqn:E; [|apply lookup_ge_None in E; lia].
      rewrite Forall_lookup in Hs. by apply (Hs i).
  - intros (Hne & H0 & Hl & Hm). destruct s as [|c s]; [done|]. unfold char_at in H0. simpl in H0.
    destruct s as [|e s _] using rev_ind; [by constructor|].
    unfold char_at in Hl. simpl in Hl. rewrite length_app, Nat.sub_0_r in Hl. simpl in Hl.
    rewrite Nat.add_1_r in Hl. simpl in Hl. rewrite lookup_app_r, Nat.sub_diag in Hl by done. simpl in Hl.
    destruct s as [|d s]; [by constructor|]. apply label_long; [done| |done]. apply ldh_str_spec. split; [done|].
    apply Forall_lookup. intros i x Hx. pose proof (lookup_lt_Some _ _ _ Hx).
    specialize (Hm (S i)). unfold char_at in Hm.
    change ((c :: (d :: s) ++ [e]) !! S i) with (((d :: s) ++ [e]) !! i) in Hm.
    rewrite lookup_app_l, Hx in Hm by done. apply Hm. simpl in *. rewrite length_app. simpl. lia.
Qed.

Lemma char_at_middle p pre s post i : (i < length s)%nat →
  char_at p (pre ++ s ++ post) (length pre + i) = char_at p s i.
Proof.
  intros Hi. unfold char_at. rewrite lookup_app_r by lia. replace (length pre + i - length pre)%nat with i by lia.
  by rewrite lookup_app_l by done.
Qed.

Lemma valid_label_spec pre s post :
  valid_label (pre ++ s ++ post) (length pre) (length pre + length s) = true ↔ label s.
Proof.
  rewrite label_spec. unfold valid_label. rewrite !andb_true_iff, forallb_forall.
  replace (length pre + length s - length pre)%nat with (length s) by lia.
  change GRAPHENE_MIN_ACCOUNT_NAME_LENGTH with 1. rewrite Z.leb_le. destruct s as [|c s]; [simpl; naive_solver lia|].
  replace (char_at is_lower (pre ++ (c :: s) ++ post) (length pre)) with (char_at is_lower (c :: s) 0)
    by (rewrite <- (char_at_middle _ pre _ post) by (simpl; lia); by rewrite Nat.add_0_r).
  replace (length pre + length (c :: s) - 1)%nat with (length pre + (length (c :: s) - 1))%nat by (simpl; lia).
  rewrite char_at_middle by (simpl; lia). split.
  - intros [[[_ H0] Hl] Hm]. split_and!; [done..|]. intros i Hi. rewrite <- (char_at_middle _ pre _ post) by lia.
    apply Hm, in_seq. lia.
  - intros (_ & H0 & Hl & Hm). split_and!; [simpl; lia|done..|]. intros i [Hi1 Hi2]%in_seq.
    replace i with (length pre + (i - length pre))%nat by lia. rewrite char_at_middle by lia. apply Hm. lia.
Qed.

(** ** All labels *)

Lemma undotted_app s t : Forall (λ c, is_dot c = false) s → undotted (s ++ t) = (length s + undotted t)%nat.
Proof. induction 1 as [|c s Hc Hs IH]; simpl; [done|]. rewrite Hc. lia. Qed.

(** The first label of a text ends at its first point. *)
Lemma undotted_split s : ∃ u t, s = u ++ t ∧ Forall (λ c, is_dot c = false) u ∧ undotted s = length u ∧
  (t = [] ∨ ∃ t', t = "."%char :: t').
Proof.
  induction s as [|c s (u & t & -> & Hu & E & Ht)]; simpl; [exists [], []; auto|].
  destruct (is_dot c) eqn:Ec.
  - apply Ascii.eqb_eq in Ec as ->. exists [], ("."%char :: u ++ t). simpl. split_and!; eauto.
  - exists (c :: u), t. simpl. rewrite E. split_and!; auto.
Qed.

Lemma labels_split u t : Forall (λ c, is_dot c = false) u → (t = [] ∨ ∃ t', t = "."%char :: t') →
  labels (u ++ t) ↔ label u ∧ (t = [] ∨ ∃ t', t = "."%char :: t' ∧ labels t').
Proof.
  intros Hu Ht. split.
  - intros H. inversion H as [s Hs E|s t2 Hs Ht2 E]; subst.
    + destruct Ht as [->|[t' ->]]; [rewrite app_nil_r in *; auto|].
      apply label_undotted, Forall_app in Hs as [_ Hs]. inversion Hs. done.
    + pose proof (label_undotted _ Hs) as Hd. destruct Ht as [->|[t' ->]].
      * rewrite app_nil_r in E. subst u. apply Forall_app in Hu as [_ Hu]. inversion Hu. done.
      * assert (length s = length u) as El.
        { pose proof (undotted_app s ("."%char :: t2) Hd) as E1. rewrite E, (undotted_app _ _ Hu) in E1.
          simpl in E1. lia. }
        apply app_inj_1 in E as [-> [= ->]]; [|done]. eauto.
  - intros [H [->|(t' & -> & H')]]; [rewrite app_nil_r; by constructor|by constructor].
Qed.

Lemma valid_labels_spec fuel pre s : (length s < fuel)%nat →
  ∃ b, valid_labels fuel (pre ++ s) (length pre) = Ok b ∧ (b = true ↔ labels s).
Proof.
  revert pre s. induction fuel as [|fuel IH]; intros pre s Hf; [lia|]. simpl. unfold label_end.
  rewrite drop_app_length. destruct (undotted_split s) as (u & t & -> & Hu & -> & Ht).
  setoid_rewrite (labels_split u t Hu Ht).
  destruct (valid_label (pre ++ u ++ t) (length pre) (length pre + length u)) eqn:Ev; simpl.
  2:{ exists false. split; [done|]. split; [done|]. intros [H _].
      apply (valid_label_spec pre u t) in H. by rewrite Ev in H. }
  apply valid_label_spec in Ev. rewrite !length_app. rewrite length_app in Hf. destruct Ht as [->|[t' ->]].
  - simpl. rewrite Nat.add_0_r, Nat.eqb_refl. exists true. split; [done|]. split; auto.
  - simpl in *. rewrite (proj2 (Nat.eqb_neq _ _)) by lia.
    destruct (IH (pre ++ u ++ ["."%char]) t') as (b & Hb & Hs); [lia|]. exists b.
    rewrite !length_app, <- !(assoc_L (++)) in Hb. simpl in Hb.
    replace (length pre + length u + 1)%nat with (length pre + (length u + 1))%nat by lia.
    split; [exact Hb|]. rewrite Hs. split; [intros H; split; [done|]; right; eauto|].
    intros [_ [[=]|(t2 & [= ->] & H)]]. done.
Qed.

(** C35. The test for account names always ends with an answer, and accepts
    exactly the names of the grammar: one or more labels with points between
    them, each a lower case letter, perhaps followed by letters, digits and
    hyphens that end with a letter or a digit; at most 63 characters. *)
Theorem is_valid_name_correct s :
  ∃ b, is_valid_name s = Ok b ∧
    (b = true ↔ subdomain (String.list_ascii_of_string s) ∧
                (1 <= length (String.list_ascii_of_string s) <= 63)%nat).
Proof.
  unfold is_valid_name. change GRAPHENE_MIN_ACCOUNT_NAME_LENGTH with 1. change GRAPHENE_MAX_ACCOUNT_NAME_LENGTH with 63.
  set (name := String.list_ascii_of_string s).
  destruct (Z.ltb_spec (Z.of_nat (length name)) 1); [exists false; split; [done|split; [done|lia]]|].
  destruct (Z.ltb_spec 63 (Z.of_nat (length name))); [exists false; split; [done|split; [done|lia]]|].
  destruct (valid_labels_spec (S (length name)) [] name) as (b & Hb & Hl); [lia|].
  exists b. split; [exact Hb|]. rewrite Hl, labels_subdomain. split; [|by intros [? _]]. split; [done|lia].
Qed.

Example names_accepted : Forall (λ s, is_valid_name s = Ok true)
  ["a"; "alice"; "alice-2.shop"; "x1"]%string.
Proof. repeat constructor. Qed.

Example names_refused : Forall (λ s, is_valid_name s = Ok false)
  [""; "Alice"; "1a"; "a."; ".a"; "a..b"; "a-"; "a-.b"; "a_b"]%string.
Proof. repeat constructor. Qed.
