(* ===== verification/UndoDb.v ===== *)
(** * The object database and its undo history

    [libraries/db]: the object indexes behind [object_database]
    ([generic_index.hpp], [index.hpp], [object_database.cpp]) and the undo
    stack of [undo_database.cpp], on which every rollback of the chain rests:
    a failing operation, the pending block, a fork switch.

    An undo state holds the differences between two database states.  The
    specification is a stack of complete snapshots; the refinement theorem
    says that the difference records behave as the snapshots do, and that
    [undo], [merge] and [pop_commit] never throw when the specification does
    not.  C++ leaves the iteration order of unordered containers open: it is
    a parameter.  A [create] or [modify] that throws ends the run: what Boost
    leaves in the container then is not modelled.  Observers, secondary
    indexes and persistence are not part of this file. *)

From stdpp Require Import gmap list.
From Stdlib Require Import ZArith Lia.
From S2P Require Import Prelude.

Local Open Scope Z_scope.

(** Space and type of an object, and its full id. *)
Notation index_id := (Z * Z)%type.
Notation object_id := (Z * Z * Z)%type.

(** The uniqueness constraints of the indexes, by index: two objects that
    collide in a unique key besides the id. *)
Class UniqueKeys (V : Type) := {
  clash : index_id → V → V → bool;
  clash_sym i v w : clash i v w = clash i w v
}.

(** The order in which a hashed container is iterated. *)
Class IterationOrder := {
  iterate : ∀ {A}, gmap object_id A → list (object_id * A);
  iterate_perm {A} (m : gmap object_id A) : iterate m ≡ₚ map_to_list m;
  iterate_set : gset object_id → list object_id;
  iterate_set_perm (s : gset object_id) : iterate_set s ≡ₚ elements s;
  iterate_idx : gmap index_id Z → list (index_id * Z);
  iterate_idx_perm (m : gmap index_id Z) : iterate_idx m ≡ₚ map_to_list m
}.

(** ** Data *)

(** The objects of all indexes by id, and the next instance of every index;
    an index exists when it has a next id. *)
Record object_db (V : Type) := mkDb {
  objects : gmap object_id V;
  next_ids : gmap index_id Z
}.
Arguments mkDb {V} _ _.
Arguments objects {V} _.
Arguments next_ids {V} _.

(** The keys of [old_index_next_ids] are ids with instance 0 and its values
    ids of the same index: an index id and an instance say the same. *)
Record undo_state (V : Type) := mkUndo {
  old_values : gmap object_id V;
  old_index_next_ids : gmap index_id Z;
  new_ids : gset object_id;
  removed : gmap object_id V
}.
Arguments mkUndo {V} _ _ _ _.
Arguments old_values {V} _.
Arguments old_index_next_ids {V} _.
Arguments new_ids {V} _.
Arguments removed {V} _.

(** The stack lists the back of the deque first. *)
Record undo_database (V : Type) := mkUdb {
  the_db : object_db V;
  stack : list (undo_state V);
  active_sessions : Z;
  disabled : bool;
  max_size : Z
}.
Arguments mkUdb {V} _ _ _ _ _.
Arguments the_db {V} _.
Arguments stack {V} _.
Arguments active_sessions {V} _.
Arguments disabled {V} _.
Arguments max_size {V} _.

(** ** The index operations *)

Section index_ops.
Context {V : Type} `{UniqueKeys V}.

Definition unique_in (m : gmap object_id V) (id : object_id) (v : V) : bool :=
  forallb (λ kw, negb (bool_decide (kw.1.1 = id.1) && clash id.1 v kw.2)) (map_to_list m).

Definition get_index_next (db : object_db V) (i : index_id) : result Z :=
  of_option assert_exception (next_ids db !! i).

Definition get_object (db : object_db V) (id : object_id) : result V :=
  let* _ := get_index_next db id.1 in
  of_option unknown_object (objects db !! id).

Definition index_insert (db : object_db V) (id : object_id) (v : V) : result (object_db V) :=
  let* _ := get_index_next db id.1 in
  FC_ASSERT (bool_decide (objects db !! id = None) && unique_in (objects db) id v) ;;
  Ok (mkDb (<[id := v]> (objects db)) (next_ids db)).

Definition index_create (db : object_db V) (i : index_id) (v : V) : result (object_id * object_db V) :=
  let* n := get_index_next db i in
  FC_ASSERT (bool_decide (objects db !! (i, n) = None) && unique_in (objects db) (i, n) v) ;;
  Ok ((i, n), mkDb (<[(i, n) := v]> (objects db)) (<[i := n + 1]> (next_ids db))).

Definition index_modify (db : object_db V) (id : object_id) (v : V) : result (object_db V) :=
  let* _ := get_object db id in
  FC_ASSERT (unique_in (delete id (objects db)) id v) ;;
  Ok (mkDb (<[id := v]> (objects db)) (next_ids db)).

Definition index_remove (db : object_db V) (id : object_id) : result (object_db V) :=
  let* _ := get_object db id in
  Ok (mkDb (delete id (objects db)) (next_ids db)).

Definition set_next_id (db : object_db V) (i : index_id) (n : Z) : result (object_db V) :=
  let* _ := get_index_next db i in
  Ok (mkDb (objects db) (<[i := n]> (next_ids db))).
End index_ops.

(** ** Recording changes *)

Section recording.
Context {V : Type} `{UniqueKeys V}.

Definition empty_undo : undo_state V := mkUndo ∅ ∅ ∅ ∅.

Definition on_create_state (st : undo_state V) (id : object_id) : undo_state V :=
  mkUndo (old_values st)
    (if bool_decide (old_index_next_ids st !! id.1 = None)
     then <[id.1 := id.2]> (old_index_next_ids st) else old_index_next_ids st)
    ({[id]} ∪ new_ids st) (removed st).

Definition on_modify_state (st : undo_state V) (id : object_id) (v : V) : undo_state V :=
  if bool_decide (id ∈ new_ids st) then st
  else if bool_decide (is_Some (old_values st !! id)) then st
  else mkUndo (<[id := v]> (old_values st)) (old_index_next_ids st) (new_ids st) (removed st).

Definition on_remove_state (st : undo_state V) (id : object_id) (v : V) : undo_state V :=
  if bool_decide (id ∈ new_ids st)
  then mkUndo (old_values st) (old_index_next_ids st) (new_ids st ∖ {[id]}) (removed st)
  else match old_values st !! id with
  | Some w =>
      mkUndo (delete id (old_values st)) (old_index_next_ids st) (new_ids st)
        (<[id := w]> (removed st))
  | None =>
      if bool_decide (is_Some (removed st !! id)) then st
      else mkUndo (old_values st) (old_index_next_ids st) (new_ids st)
             (<[id := v]> (removed st))
  end.

(** The stack a change is recorded in: a disabled history records nothing,
    an empty one gets a first state. *)
Definition record (u : undo_database V) (f : undo_state V → undo_state V) : list (undo_state V) :=
  if disabled u then stack u
  else match stack u with
  | [] => [f empty_undo]
  | st :: sts => f st :: sts
  end.

Definition with_change (u : undo_database V) (db : object_db V)
    (f : undo_state V → undo_state V) : undo_database V :=
  mkUdb db (record u f) (active_sessions u) (disabled u) (max_size u).

(** [primary_index::create]: the derived index first, then [on_add]. *)
Definition create (u : undo_database V) (i : index_id) (v : V) : result (undo_database V) :=
  let* (id, db') := index_create (the_db u) i v in
  Ok (with_change u db' (λ st, on_create_state st id)).

(** [primary_index::modify]: [save_undo] with the old value, then the change. *)
Definition modify (u : undo_database V) (id : object_id) (v : V) : result (undo_database V) :=
  let* old := get_object (the_db u) id in
  let* db' := index_modify (the_db u) id v in
  Ok (with_change u db' (λ st, on_modify_state st id old)).

Definition remove (u : undo_database V) (id : object_id) : result (undo_database V) :=
  let* old := get_object (the_db u) id in
  let* db' := index_remove (the_db u) id in
  Ok (with_change u db' (λ st, on_remove_state st id old)).
End recording.

(** ** Sessions *)

Section sessions.
Context {V : Type} `{UniqueKeys V} `{IterationOrder}.

Definition enable (u : undo_database V) : undo_database V :=
  mkUdb (the_db u) (stack u) (active_sessions u) false (max_size u).

Definition disable (u : undo_database V) : undo_database V :=
  mkUdb (the_db u) (stack u) (active_sessions u) true (max_size u).

Definition set_max_size (u : undo_database V) (n : Z) : undo_database V :=
  mkUdb (the_db u) (stack u) (active_sessions u) (disabled u) n.

(** [while( size() > max_size() ) _stack.pop_front()]. *)
Definition trim {A} (limit : Z) (l : list A) : list A := take (Z.to_nat limit) l.

Definition start_undo_session (u : undo_database V) (force_enable : bool) : undo_database V :=
  if disabled u && negb force_enable then u
  else mkUdb (the_db u) (empty_undo :: trim (max_size u) (stack u))
         (wrap_u32 (active_sessions u + 1)) false (max_size u).

(** The four loops of [undo] and [pop_commit]. *)
Definition restore (db : object_db V) (st : undo_state V) : result (object_db V) :=
  let* db1 := rfold (λ d kv, index_modify d kv.1 kv.2) db (iterate (old_values st)) in
  let* db2 := rfold index_remove db1 (iterate_set (new_ids st)) in
  let* db3 := rfold (λ d kn, set_next_id d kn.1 kn.2) db2 (iterate_idx (old_index_next_ids st)) in
  rfold (λ d kv, index_insert d kv.1 kv.2) db3 (iterate (removed st)).

Definition undo (u : undo_database V) : result (undo_database V) :=
  FC_ASSERT (negb (disabled u)) ;;
  FC_ASSERT (0 <? active_sessions u) ;;
  match stack u with
  | [] => Throw undefined_behaviour
  | st :: sts =>
      let* db' := restore (the_db u) st in
      Ok (mkUdb db' sts (active_sessions u - 1) false (max_size u))
  end.

Definition merge_upd (prev : undo_state V) (kv : object_id * V) : result (undo_state V) :=
  if bool_decide (kv.1 ∈ new_ids prev) then Ok prev
  else if bool_decide (is_Some (old_values prev !! kv.1)) then Ok prev
  else
    let* _ := require (bool_decide (removed prev !! kv.1 = None)) undefined_behaviour in
    Ok (mkUndo (<[kv.1 := kv.2]> (old_values prev)) (old_index_next_ids prev)
          (new_ids prev) (removed prev)).

Definition merge_new (prev : undo_state V) (ids : gset object_id) : undo_state V :=
  mkUndo (old_values prev) (old_index_next_ids prev) (new_ids prev ∪ ids) (removed prev).

Definition merge_next (prev : undo_state V) (kn : index_id * Z) : undo_state V :=
  if bool_decide (old_index_next_ids prev !! kn.1 = None)
  then mkUndo (old_values prev) (<[kn.1 := kn.2]> (old_index_next_ids prev))
         (new_ids prev) (removed prev)
  else prev.

Definition merge_del (prev : undo_state V) (kv : object_id * V) : result (undo_state V) :=
  if bool_decide (kv.1 ∈ new_ids prev)
  then Ok (mkUndo (old_values prev) (old_index_next_ids prev)
             (new_ids prev ∖ {[kv.1]}) (removed prev))
  else match old_values prev !! kv.1 with
  | Some w =>
      Ok (mkUndo (delete kv.1 (old_values prev)) (old_index_next_ids prev)
            (new_ids prev) (<[kv.1 := w]> (removed prev)))
  | None =>
      let* _ := require (bool_decide (removed prev !! kv.1 = None)) undefined_behaviour in
      Ok (mkUndo (old_values prev) (old_index_next_ids prev)
            (new_ids prev) (<[kv.1 := kv.2]> (removed prev)))
  end.

(** [merge] of the back state into the one before it. *)
Definition merge_states (prev st : undo_state V) : result (undo_state V) :=
  let* prev1 := rfold merge_upd prev (iterate (old_values st)) in
  let prev2 := merge_new prev1 (new_ids st) in
  let prev3 := foldl merge_next prev2 (iterate_idx (old_index_next_ids st)) in
  rfold merge_del prev3 (iterate (removed st)).

Definition merge (u : undo_database V) : result (undo_database V) :=
  FC_ASSERT (0 <? active_sessions u) ;;
  match stack u with
  | [st] =>
      if active_sessions u =? 1
      then Ok (mkUdb (the_db u) [] (active_sessions u - 1) (disabled u) (max_size u))
      else Throw assert_exception
  | st :: prev :: sts =>
      let* prev' := merge_states prev st in
      Ok (mkUdb (the_db u) (prev' :: sts) (active_sessions u - 1) (disabled u) (max_size u))
  | [] => Throw assert_exception
  end.

Definition commit (u : undo_database V) : result (undo_database V) :=
  FC_ASSERT (0 <? active_sessions u) ;;
  Ok (mkUdb (the_db u) (stack u) (active_sessions u - 1) (disabled u) (max_size u)).

Definition pop_commit (u : undo_database V) : result (undo_database V) :=
  FC_ASSERT (active_sessions u =? 0) ;;
  match stack u with
  | [] => Throw assert_exception
  | st :: sts =>
      let* db' := restore (the_db u) st in
      Ok (mkUdb db' sts (active_sessions u) false (max_size u))
  end.
End sessions.

(** ** The [session] object

    [start_undo_session] returns a session; its destructor undoes what was
    neither committed nor merged. *)

Record session := mkSession { apply_undo : bool; disable_on_exit : bool }.

Section session_object.
Context {V : Type} `{UniqueKeys V} `{IterationOrder}.

Definition start_session (u : undo_database V) (force_enable : bool) : undo_database V * session :=
  (start_undo_session u force_enable,
   if disabled u && negb force_enable then mkSession true false
   else mkSession true (disabled u && force_enable)).

Definition session_commit (u : undo_database V) (s : session) : result (undo_database V * session) :=
  let* u' := commit u in
  Ok (u', mkSession false (disable_on_exit s)).

Definition session_undo (u : undo_database V) (s : session) : result (undo_database V * session) :=
  let* u' := (if apply_undo s then undo u else Ok u) in
  Ok (u', mkSession false (disable_on_exit s)).

Definition session_merge (u : undo_database V) (s : session) : result (undo_database V * session) :=
  let* u' := (if apply_undo s then merge u else Ok u) in
  Ok (u', mkSession false (disable_on_exit s)).

Definition session_destruct (u : undo_database V) (s : session) : result (undo_database V) :=
  let* u' := (if apply_undo s then undo u else Ok u) in
  Ok (if disable_on_exit s then disable u' else u').
End session_object.

(** ** Loops that touch one key at a time *)

Section pointwise.
Context {S K X W : Type} `{EqDecision K}.
Context (I : S → Prop) (view : S → K → W) (step : S → K * X → result S).
Context (P : K → X → W → Prop) (g : X → W → W).

(** Each step succeeds where [P] holds of its key's view, keeps the
    invariant and changes the view of its key alone. *)
Lemma rfold_pointwise l s :
  (∀ s k x, (k, x) ∈ l → I s → P k x (view s k) →
     ∃ s', step s (k, x) = Ok s' ∧ I s' ∧
       ∀ k', view s' k' = if decide (k' = k) then g x (view s k) else view s k') →
  NoDup l.*1 → I s → (∀ k x, (k, x) ∈ l → P k x (view s k)) →
  ∃ s', rfold step s l = Ok s' ∧ I s' ∧
    (∀ k x, (k, x) ∈ l → view s' k = g x (view s k)) ∧
    (∀ k, k ∉ l.*1 → view s' k = view s k).
Proof.
  revert s. induction l as [|[k x] l IH]; intros s Hstep Hnd HI HP; simpl.
  { exists s. split_and!; [done|done| |done]. by intros ?? ?%elem_of_nil. }
  apply NoDup_cons in Hnd as [Hk Hnd].
  destruct (Hstep s k x) as (s1 & -> & HI1 & Hv1);
    [left | done | apply HP; left |]. simpl.
  assert (∀ k' x', (k', x') ∈ l → k' ≠ k) as Hne.
  { intros k' x' Hin ->. apply Hk. apply list_elem_of_fmap. by exists (k, x'). }
  destruct (IH s1) as (s2 & -> & HI2 & Hin & Hout); [| done | done | |].
  - intros s' k' x' Hin. apply Hstep. by right.
  - intros k' x' Hin. rewrite Hv1, decide_False by eauto. apply HP. by right.
  - exists s2. split_and!; [done|done| |].
    + intros k' x' [[= -> ->]|Hk']%elem_of_cons.
      * rewrite Hout by done. by rewrite Hv1, decide_True.
      * rewrite (Hin k' x') by done. by rewrite Hv1, decide_False by eauto.
    + intros k' [Hn1 Hn2]%not_elem_of_cons.
      rewrite Hout by done. by rewrite Hv1, decide_False.
Qed.
End pointwise.

Section iteration.
Context `{IterationOrder}.

Lemma elem_of_iterate {A} (m : gmap object_id A) k v : (k, v) ∈ iterate m ↔ m !! k = Some v.
Proof. rewrite (iterate_perm m). apply elem_of_map_to_list. Qed.

Lemma NoDup_iterate {A} (m : gmap object_id A) : NoDup (iterate m).*1.
Proof. rewrite (iterate_perm m). apply NoDup_fst_map_to_list. Qed.

Lemma not_elem_of_iterate {A} (m : gmap object_id A) k : k ∉ (iterate m).*1 ↔ m !! k = None.
Proof.
  rewrite (iterate_perm m). rewrite list_elem_of_fmap, eq_None_not_Some.
  split; intros Hn Hex; apply Hn.
  - destruct Hex as [v Hv]. exists (k, v). by rewrite elem_of_map_to_list.
  - destruct Hex as ([k' v] & -> & Hv%elem_of_map_to_list). by exists v.
Qed.

Lemma elem_of_iterate_idx (m : gmap index_id Z) k v : (k, v) ∈ iterate_idx m ↔ m !! k = Some v.
Proof. rewrite (iterate_idx_perm m). apply elem_of_map_to_list. Qed.

Lemma NoDup_iterate_idx (m : gmap index_id Z) : NoDup (iterate_idx m).*1.
Proof. rewrite (iterate_idx_perm m). apply NoDup_fst_map_to_list. Qed.

Lemma not_elem_of_iterate_idx (m : gmap index_id Z) k :
  k ∉ (iterate_idx m).*1 ↔ m !! k = None.
Proof.
  rewrite (iterate_idx_perm m). rewrite list_elem_of_fmap, eq_None_not_Some.
  split; intros Hn Hex; apply Hn.
  - destruct Hex as [v Hv]. exists (k, v). by rewrite elem_of_map_to_list.
  - destruct Hex as ([k' v] & -> & Hv%elem_of_map_to_list). by exists v.
Qed.

Lemma elem_of_iterate_set (s : gset object_id) k : k ∈ iterate_set s ↔ k ∈ s.
Proof. rewrite (iterate_set_perm s). apply elem_of_elements. Qed.

Lemma NoDup_iterate_set (s : gset object_id) : NoDup (iterate_set s).
Proof. rewrite (iterate_set_perm s). apply NoDup_elements. Qed.
End iteration.

(** ** What an undo state says of one object

    The entry of an object in an undo state, as the comment in [merge] names
    it: new, upd(was), del(was) or nop. *)

Section entries.
Context {V : Type} `{UniqueKeys V}.

Definition same_keys (i : index_id) (v w : V) : Prop := ∀ x, clash i v x = clash i w x.

#[export] Instance same_keys_equivalence i : Equivalence (same_keys i).
Proof.
  split; [done|intros v w Hk x; by rewrite (Hk x)|].
  intros u v w H1 H2 x. by rewrite (H1 x).
Qed.

#[export] Instance clash_proper i : Proper (same_keys i ==> same_keys i ==> eq) (clash i).
Proof. intros v v' Hv w w' Hw. by rewrite (Hv w), clash_sym, (Hw v'), clash_sym. Qed.

Lemma same_keys_trans i u v w : same_keys i u v → same_keys i v w → same_keys i u w.
Proof. apply transitivity. Qed.

Record entry := mkEntry { e_new : bool; e_old : option V; e_del : option V }.

Definition entry_of (st : undo_state V) (id : object_id) : entry :=
  mkEntry (bool_decide (id ∈ new_ids st)) (old_values st !! id) (removed st !! id).

(** The object before ([b]) and after ([c]) the changes an entry records. *)
Definition entry_ok (i : index_id) (b : option V) (e : entry) (c : option V) : Prop :=
  match e with
  | mkEntry true None None => b = None ∧ is_Some c
  | mkEntry false (Some v) None => b = Some v ∧ ∃ w, c = Some w ∧ same_keys i v w
  | mkEntry false None (Some v) => b = Some v ∧ c = None
  | mkEntry false None None => b = c
  | _ => False
  end.

(** The entry of the merged states. *)
Definition entry_merge (a b : entry) : entry :=
  match b with
  | mkEntry true _ _ => mkEntry true (e_old a) (e_del a)
  | mkEntry false (Some y) _ =>
      if e_new a then a
      else match e_old a with Some _ => a | None => mkEntry (e_new a) (Some y) (e_del a) end
  | mkEntry false None (Some y) =>
      if e_new a then mkEntry false (e_old a) (e_del a)
      else match e_old a with
           | Some x => mkEntry false None (Some x)
           | None => mkEntry false None (Some y)
           end
  | mkEntry false None None => a
  end.

Lemma entry_merge_ok i b a m e c :
  (e_new e = true → a = mkEntry false None None) →
  entry_ok i b a m → entry_ok i m e c → entry_ok i b (entry_merge a e) c.
Proof.
  destruct a as [[] [] []], e as [[] [] []]; simpl; try done; intros Hn H1 H2;
    destruct_and?; subst; simplify_eq; try naive_solver;
    try (specialize (Hn eq_refl); naive_solver).
  all: destruct_and?; subst; simplify_eq;
    repeat match goal with H : ∃ _, _ |- _ => destruct H as (? & ? & ?) end;
    simplify_eq; split; eauto; try (eexists; split; eauto using same_keys_trans).
Qed.

(** Ids in use lie below the next id of their index, and no two objects of
    an index collide. *)
Record db_wf (db : object_db V) : Prop := {
  wf_below : ∀ id v, objects db !! id = Some v →
    ∃ n, next_ids db !! id.1 = Some n ∧ id.2 < n;
  wf_unique : ∀ id id' v w, objects db !! id = Some v → objects db !! id' = Some w →
    id ≠ id' → id'.1 = id.1 → clash id.1 v w = false
}.

(** [base] is the state [db] was in when the recording [st] started. *)
Record rel (base : object_db V) (st : undo_state V) (db : object_db V) : Prop := {
  rel_entries : ∀ id, entry_ok id.1 (objects base !! id) (entry_of st id) (objects db !! id);
  rel_next : ∀ i, match old_index_next_ids st !! i with
    | Some n => next_ids base !! i = Some n ∧ ∃ m, next_ids db !! i = Some m ∧ n <= m
    | None => next_ids base !! i = next_ids db !! i
    end;
  rel_new : ∀ id, id ∈ new_ids st →
    ∃ n, next_ids base !! id.1 = Some n ∧ n <= id.2;
  rel_base_wf : db_wf base
}.
End entries.
Arguments entry V : clear implicits.

(** ** Undoing a recording restores the state it started in *)

Section restore.
Context {V : Type} `{UniqueKeys V} `{IterationOrder}.
Implicit Types (db base : object_db V) (st : undo_state V).

Lemma unique_in_spec (m : gmap object_id V) id v :
  unique_in m id v = true ↔
  ∀ id' w, m !! id' = Some w → id'.1 = id.1 → clash id.1 v w = false.
Proof.
  unfold unique_in. rewrite forallb_forall. split.
  - intros Hall id' w Hw Hi. specialize (Hall (id', w)).
    rewrite <- list_elem_of_In, elem_of_map_to_list in Hall.
    specialize (Hall Hw). simpl in Hall. rewrite bool_decide_true in Hall by done.
    by destruct (clash id.1 v w).
  - intros Hall [id' w] Hin. apply list_elem_of_In, elem_of_map_to_list in Hin. simpl.
    destruct (decide (id'.1 = id.1)); [|by rewrite bool_decide_false].
    rewrite bool_decide_true, (Hall id' w) by done. done.
Qed.

Lemma same_keys_unique m id v w :
  same_keys id.1 v w → unique_in m id v = unique_in m id w.
Proof.
  intros Hk. apply eq_bool_prop_intro. rewrite !Is_true_true, !unique_in_spec.
  by setoid_rewrite Hk.
Qed.

Lemma db_wf_unique_in db id v :
  db_wf db → objects db !! id = Some v → unique_in (delete id (objects db)) id v = true.
Proof.
  intros Hwf Hv. apply unique_in_spec. intros id' w [Hne Hw]%lookup_delete_Some Hi.
  by eapply (wf_unique db Hwf).
Qed.

Lemma unique_insert (m : gmap object_id V) id v :
  unique_in (delete id m) id v = true →
  (∀ a b x y, m !! a = Some x → m !! b = Some y → a ≠ b → b.1 = a.1 → clash a.1 x y = false) →
  ∀ a b x y, <[id:=v]> m !! a = Some x → <[id:=v]> m !! b = Some y →
    a ≠ b → b.1 = a.1 → clash a.1 x y = false.
Proof.
  rewrite unique_in_spec. intros Hu Hm a b x y.
  rewrite !lookup_insert_Some. intros [[<- <-]|[Ha Hx]] [[<- <-]|[Hb Hy]] Hne Hi; try done.
  - apply (Hu b); [by rewrite lookup_delete_ne|done].
  - rewrite clash_sym, <- Hi. apply (Hu a); [by rewrite lookup_delete_ne|done].
  - by eapply Hm.
Qed.

Lemma db_wf_insert db id v n :
  db_wf db → next_ids db !! id.1 = Some n → id.2 < n →
  unique_in (delete id (objects db)) id v = true →
  db_wf (mkDb (<[id:=v]> (objects db)) (next_ids db)).
Proof.
  intros Hwf Hn Hlt Hu. split; simpl.
  - intros id' w [[<- <-]|[_ Hw]]%lookup_insert_Some; [eauto|]. by eapply (wf_below db Hwf).
  - apply unique_insert; [done|]. apply (wf_unique db Hwf).
Qed.

Lemma db_wf_delete db id : db_wf db → db_wf (mkDb (delete id (objects db)) (next_ids db)).
Proof.
  intros Hwf. split; simpl.
  - intros id' w [_ Hw]%lookup_delete_Some. by eapply (wf_below db Hwf).
  - intros a b x y [_ Ha]%lookup_delete_Some [_ Hb]%lookup_delete_Some.
    by eapply (wf_unique db Hwf).
Qed.

Lemma get_object_ok db id v :
  db_wf db → objects db !! id = Some v → get_object db id = Ok v.
Proof.
  intros Hwf Hv. destruct (wf_below db Hwf id v Hv) as (n & Hn & _).
  unfold get_object, get_index_next. by rewrite Hn, Hv.
Qed.

Notation oview := (λ (d : object_db V) (k : object_id), objects d !! k).

(** First loop: objects get their old values back. *)
Lemma restore_values db st base :
  rel base st db → db_wf db →
  ∃ db1, rfold (λ d kv, index_modify d kv.1 kv.2) db (iterate (old_values st)) = Ok db1 ∧
    db_wf db1 ∧ next_ids db1 = next_ids db ∧
    ∀ id, objects db1 !! id = match old_values st !! id with
                              | Some v => Some v | None => objects db !! id end.
Proof.
  intros Hrel Hwf.
  destruct (rfold_pointwise (λ d, db_wf d ∧ next_ids d = next_ids db) oview
    (λ d kv, index_modify d kv.1 kv.2)
    (λ k x w, ∃ v, w = Some v ∧ same_keys k.1 x v) (λ x _, Some x)
    (iterate (old_values st)) db) as (db1 & Hdb1 & [Hwf1 Hn1] & Hin & Hout).
  - intros d k x Hkx [Hd Hn] (v & Hv & Hk). simpl in *.
    unfold index_modify. rewrite (get_object_ok d k v Hd Hv); simpl.
    rewrite (same_keys_unique _ k x v Hk), (db_wf_unique_in d k v Hd Hv). simpl.
    destruct (wf_below d Hd k v Hv) as (n & Hkn & Hlt).
    eexists; split; [done|]. split; [split; [|done]|].
    + apply (db_wf_insert d k x n); [done..|].
      by rewrite (same_keys_unique _ k x v Hk), (db_wf_unique_in d k v Hd Hv).
    + intros k'. simpl. destruct (decide (k' = k)) as [->|]; simplify_map_eq; done.
  - apply NoDup_iterate.
  - done.
  - intros k x Hk%elem_of_iterate. pose proof (rel_entries _ _ _ Hrel k) as He.
    unfold entry_of in He. rewrite Hk in He. simpl in He.
    destruct (bool_decide _), (removed st !! k); try done.
    destruct He as (_ & w & Hw & Hs). by exists w.
  - exists db1. split_and!; [done..|]. intros id.
    destruct (old_values st !! id) as [v|] eqn:Hid.
    + apply (Hin id v). by apply elem_of_iterate.
    + apply Hout. by apply not_elem_of_iterate.
Qed.

(** Second loop: objects created since disappear. *)
Lemma restore_new db l :
  db_wf db → NoDup l → (∀ id, id ∈ l → is_Some (objects db !! id)) →
  ∃ db2, rfold index_remove db l = Ok db2 ∧ db_wf db2 ∧ next_ids db2 = next_ids db ∧
    ∀ id, objects db2 !! id = if decide (id ∈ l) then None else objects db !! id.
Proof.
  revert db. induction l as [|k l IH]; intros db Hwf Hnd Hl; simpl.
  { by exists db. }
  apply NoDup_cons in Hnd as [Hk Hnd].
  destruct (Hl k) as [v Hv]; [left|]. unfold index_remove at 1.
  rewrite (get_object_ok db k v Hwf Hv). simpl.
  destruct (IH (mkDb (delete k (objects db)) (next_ids db))) as (db2 & -> & Hwf2 & Hn2 & Ho);
    [by apply db_wf_delete|done| |].
  { intros id Hid. simpl. rewrite lookup_delete_ne by (intros ->; done). apply Hl. by right. }
  exists db2. split_and!; [done..|]. intros id. rewrite Ho. simpl.
  destruct (decide (id = k)) as [->|Hne].
  - rewrite lookup_delete_eq, (decide_True (P := k ∈ k :: l)) by left. by destruct (decide _).
  - rewrite lookup_delete_ne by done.
    destruct (decide (id ∈ l)) as [Hin|Hin].
    + by rewrite decide_True by (by right).
    + rewrite decide_False; [done|]. by intros [?|?]%elem_of_cons.
Qed.

(** Third loop: the next ids. *)
Lemma restore_next db st :
  (∀ i n, old_index_next_ids st !! i = Some n → is_Some (next_ids db !! i)) →
  ∃ db3, rfold (λ d kn, set_next_id d kn.1 kn.2) db (iterate_idx (old_index_next_ids st)) = Ok db3 ∧
    objects db3 = objects db ∧
    ∀ i, next_ids db3 !! i = match old_index_next_ids st !! i with
                             | Some n => Some n | None => next_ids db !! i end.
Proof.
  intros Hnext.
  destruct (rfold_pointwise (λ d, objects d = objects db)
    (λ (d : object_db V) i, next_ids d !! i)
    (λ d kn, set_next_id d kn.1 kn.2)
    (λ k x w, is_Some w) (λ x _, Some x)
    (iterate_idx (old_index_next_ids st)) db) as (db3 & Hdb3 & Ho & Hin & Hout).
  - intros d k x _ Hd [n Hn]. simpl in *. unfold set_next_id, get_index_next. rewrite Hn. simpl.
    eexists; split; [done|]. split; [done|]. intros k'. simpl.
    destruct (decide (k' = k)) as [->|]; simplify_map_eq; done.
  - apply NoDup_iterate_idx.
  - done.
  - intros k x Hk%elem_of_iterate_idx. eauto.
  - exists db3. split_and!; [done..|]. intros i.
    destruct (old_index_next_ids st !! i) as [n|] eqn:Hi.
    + apply (Hin i n). by apply elem_of_iterate_idx.
    + apply Hout. by apply not_elem_of_iterate_idx.
Qed.

(** Fourth loop: removed objects come back. *)
Lemma restore_removed db base (m : gmap object_id V) :
  db_wf base → next_ids db = next_ids base →
  (∀ id v, objects db !! id = Some v → objects base !! id = Some v) →
  (∀ id v, m !! id = Some v → objects db !! id = None ∧ objects base !! id = Some v) →
  ∃ db4, rfold (λ d kv, index_insert d kv.1 kv.2) db (iterate m) = Ok db4 ∧
    next_ids db4 = next_ids base ∧
    ∀ id, objects db4 !! id = match m !! id with
                              | Some v => Some v | None => objects db !! id end.
Proof.
  intros Hwf Hn Hsub Hm.
  destruct (rfold_pointwise
    (λ d, next_ids d = next_ids base ∧ ∀ id v, objects d !! id = Some v → objects base !! id = Some v)
    oview (λ d kv, index_insert d kv.1 kv.2)
    (λ k x w, w = None ∧ objects base !! k = Some x) (λ x _, Some x)
    (iterate m) db) as (db4 & Hdb4 & [Hn4 _] & Hin & Hout).
  - intros d k x _ [Hd Hds] [Hk Hb]. simpl in *. unfold index_insert, get_index_next.
    destruct (wf_below base Hwf k x Hb) as (n & Hkn & _). rewrite Hd, Hkn. simpl.
    rewrite bool_decide_true by done. simpl.
    assert (unique_in (objects d) k x = true) as ->.
    { apply unique_in_spec. intros id' w Hw Hi.
      apply (wf_unique base Hwf k id' x w Hb); [by apply Hds|congruence|done]. }
    simpl. eexists; split; [done|]. split; [split; [done|]|].
    + simpl. intros id v [[<- <-]|[_ Hv]]%lookup_insert_Some; eauto.
    + intros k'. simpl. destruct (decide (k' = k)) as [->|]; simplify_map_eq; done.
  - apply NoDup_iterate.
  - done.
  - intros k x Hk%elem_of_iterate. apply (Hm k x Hk).
  - exists db4. split_and!; [done..|]. intros id.
    destruct (m !! id) as [v|] eqn:Hid.
    + apply (Hin id v). by apply elem_of_iterate.
    + apply Hout. by apply not_elem_of_iterate.
Qed.

Lemma object_db_eq (d d' : object_db V) :
  (∀ id, objects d !! id = objects d' !! id) → (∀ i, next_ids d !! i = next_ids d' !! i) → d = d'.
Proof.
  destruct d, d'; simpl. intros Ho Hn. f_equal; by apply map_eq.
Qed.

(** What the entries say of the objects the four loops visit. *)
Lemma rel_cases base st db id :
  rel base st db →
  match old_values st !! id, removed st !! id with
  | Some v, None => objects base !! id = Some v ∧ id ∉ new_ids st ∧ is_Some (objects db !! id)
  | None, Some v => objects base !! id = Some v ∧ id ∉ new_ids st ∧ objects db !! id = None
  | None, None =>
      if decide (id ∈ new_ids st) then objects base !! id = None ∧ is_Some (objects db !! id)
      else objects base !! id = objects db !! id
  | Some _, Some _ => False
  end.
Proof.
  intros Hrel. pose proof (rel_entries _ _ _ Hrel id) as He. unfold entry_of in He.
  destruct (decide (id ∈ new_ids st)) as [Hin|Hin];
    [rewrite bool_decide_true in He by done|rewrite bool_decide_false in He by done];
    destruct (old_values st !! id), (removed st !! id); simpl in He; naive_solver.
Qed.

Lemma restore_ok base st db : rel base st db → db_wf db → restore db st = Ok base.
Proof.
  intros Hrel Hwf. unfold restore.
  destruct (restore_values db st base Hrel Hwf) as (db1 & -> & Hwf1 & Hn1 & Ho1). simpl.
  destruct (restore_new db1 (iterate_set (new_ids st))) as (db2 & -> & Hwf2 & Hn2 & Ho2);
    [done|apply NoDup_iterate_set| |].
  { intros id Hid%elem_of_iterate_set. rewrite Ho1. pose proof (rel_cases _ _ _ id Hrel) as Hc.
    destruct (old_values st !! id); [done|]. destruct (removed st !! id); [naive_solver|].
    rewrite decide_True in Hc by done. naive_solver. }
  simpl. destruct (restore_next db2 st) as (db3 & -> & Ho3 & Hn3).
  { intros i n Hi. rewrite Hn2, Hn1. pose proof (rel_next _ _ _ Hrel i) as Hx.
    rewrite Hi in Hx. naive_solver. }
  simpl.
  assert (next_ids db3 = next_ids base) as Hnb.
  { apply map_eq. intros i. rewrite Hn3, Hn2, Hn1. pose proof (rel_next _ _ _ Hrel i) as Hx.
    destruct (old_index_next_ids st !! i); naive_solver. }
  assert (∀ id, objects db3 !! id =
    match removed st !! id with Some _ => None | None => objects base !! id end) as Hob.
  { intros id. rewrite Ho3, Ho2, Ho1. pose proof (rel_cases _ _ _ id Hrel) as Hc.
    destruct (decide (id ∈ iterate_set (new_ids st))) as [Hin|Hin];
      rewrite elem_of_iterate_set in Hin;
      destruct (old_values st !! id), (removed st !! id);
      repeat case_decide; naive_solver. }
  destruct (restore_removed db3 base (removed st)) as (db4 & -> & Hn4 & Ho4).
  - apply (rel_base_wf _ _ _ Hrel).
  - done.
  - intros id v. rewrite Hob. by destruct (removed st !! id).
  - intros id v Hr. rewrite Hob, Hr. split; [done|].
    pose proof (rel_cases _ _ _ id Hrel) as Hc. rewrite Hr in Hc.
    destruct (old_values st !! id); naive_solver.
  - f_equal. apply object_db_eq; [|by rewrite Hn4]. intros id. rewrite Ho4, Hob.
    pose proof (rel_cases _ _ _ id Hrel) as Hc.
    destruct (removed st !! id); [|done]. destruct (old_values st !! id); naive_solver.
Qed.
End restore.

(** ** Merging two recordings composes them *)

Section merging.
Context {V : Type} `{UniqueKeys V} `{IterationOrder}.
Implicit Types (db base mid : object_db V) (st prev : undo_state V).

Lemma rfold_ok_foldl {A S} (f : S → A → S) s l :
  rfold (λ s x, Ok (f s x)) s l = Ok (foldl f s l).
Proof. revert s; induction l; simpl; auto. Qed.

Definition upd_entry (x : V) (a : entry V) : entry V :=
  if e_new a then a
  else match e_old a with Some _ => a | None => mkEntry (e_new a) (Some x) (e_del a) end.

Definition del_entry (x : V) (a : entry V) : entry V :=
  if e_new a then mkEntry false (e_old a) (e_del a)
  else match e_old a with
       | Some y => mkEntry false None (Some y)
       | None => mkEntry false None (Some x)
       end.

Lemma merge_upd_loop prev (m : gmap object_id V) :
  (∀ k x, m !! k = Some x → removed prev !! k = None) →
  ∃ prev', rfold merge_upd prev (iterate m) = Ok prev' ∧
    old_index_next_ids prev' = old_index_next_ids prev ∧
    ∀ k, entry_of prev' k = match m !! k with
      | Some x => upd_entry x (entry_of prev k) | None => entry_of prev k end.
Proof.
  intros Hm.
  destruct (rfold_pointwise (λ p, old_index_next_ids p = old_index_next_ids prev) entry_of
    merge_upd (λ _ _ a, e_del a = None) upd_entry (iterate m) prev)
    as (prev' & Hp & Hn & Hin & Hout).
  - intros p k x _ Hi Hd. simpl in Hd. unfold merge_upd, upd_entry; simpl.
    destruct (bool_decide (k ∈ new_ids p)) eqn:Hnew.
    { exists p. split_and!; [done..|]. intros k'. by destruct (decide (k' = k)) as [->|]. }
    destruct (old_values p !! k) as [v|] eqn:Hold; simpl.
    { exists p. split_and!; [done..|]. intros k'. by destruct (decide (k' = k)) as [->|]. }
    rewrite bool_decide_true by done. simpl. eexists; split_and!; [done..|].
    intros k'. unfold entry_of; simpl.
    destruct (decide (k' = k)) as [->|]; simplify_map_eq; by rewrite ?Hnew.
  - apply NoDup_iterate.
  - done.
  - intros k x Hk%elem_of_iterate. by apply (Hm k x).
  - exists prev'. split_and!; [done..|]. intros k. destruct (m !! k) as [x|] eqn:Hk.
    + apply Hin. by apply elem_of_iterate.
    + apply Hout. by apply not_elem_of_iterate.
Qed.

Lemma merge_del_loop prev (m : gmap object_id V) :
  (∀ k x, m !! k = Some x → removed prev !! k = None) →
  ∃ prev', rfold merge_del prev (iterate m) = Ok prev' ∧
    old_index_next_ids prev' = old_index_next_ids prev ∧
    ∀ k, entry_of prev' k = match m !! k with
      | Some x => del_entry x (entry_of prev k) | None => entry_of prev k end.
Proof.
  intros Hm.
  destruct (rfold_pointwise (λ p, old_index_next_ids p = old_index_next_ids prev) entry_of
    merge_del (λ _ _ a, e_del a = None) del_entry (iterate m) prev)
    as (prev' & Hp & Hn & Hin & Hout).
  - intros p k x _ Hi Hd. simpl in Hd. unfold merge_del, del_entry; simpl.
    destruct (bool_decide (k ∈ new_ids p)) eqn:Hnew.
    { eexists; split_and!; [done..|]. intros k'. unfold entry_of; simpl.
      destruct (decide (k' = k)) as [->|].
      - rewrite bool_decide_false by set_solver. done.
      - f_equal. apply bool_decide_ext. set_solver. }
    apply bool_decide_eq_false in Hnew.
    destruct (old_values p !! k) as [v|] eqn:Hold; simpl.
    { eexists; split_and!; [done..|]. intros k'. unfold entry_of; simpl.
      destruct (decide (k' = k)) as [->|]; simplify_map_eq;
        [by rewrite bool_decide_false|done]. }
    rewrite bool_decide_true by done. simpl. eexists; split_and!; [done..|].
    intros k'. unfold entry_of; simpl.
    destruct (decide (k' = k)) as [->|]; simplify_map_eq;
      [by rewrite bool_decide_false, Hold|done].
  - apply NoDup_iterate.
  - done.
  - intros k x Hk%elem_of_iterate. by apply (Hm k x).
  - exists prev'. split_and!; [done..|]. intros k. destruct (m !! k) as [x|] eqn:Hk.
    + apply Hin. by apply elem_of_iterate.
    + apply Hout. by apply not_elem_of_iterate.
Qed.

Lemma merge_next_loop prev (m : gmap index_id Z) :
  let prev' := foldl merge_next prev (iterate_idx m) in
  (∀ k, entry_of prev' k = entry_of prev k) ∧
  ∀ i, old_index_next_ids prev' !! i = match old_index_next_ids prev !! i with
    | Some n => Some n | None => m !! i end.
Proof.
  intros prev'.
  destruct (rfold_pointwise (λ p, ∀ k, entry_of p k = entry_of prev k)
    (λ p i, old_index_next_ids p !! i) (λ p kn, Ok (merge_next p kn))
    (λ _ _ _, True) (λ n o, match o with Some n' => Some n' | None => Some n end)
    (iterate_idx m) prev) as (p & Hp & He & Hin & Hout).
  - intros p k n _ Hi _. eexists; split; [done|]. unfold merge_next; simpl.
    destruct (old_index_next_ids p !! k) as [n'|] eqn:Hk.
    + rewrite bool_decide_false by done. split; [done|].
      intros k'. by destruct (decide (k' = k)) as [->|].
    + rewrite bool_decide_true by done. split; [done|]. intros k'. simpl.
      destruct (decide (k' = k)) as [->|]; by simplify_map_eq.
  - apply NoDup_iterate_idx.
  - done.
  - done.
  - rewrite rfold_ok_foldl in Hp. injection Hp as Hp. subst prev'. rewrite Hp.
    split; [done|]. intros i. destruct (m !! i) as [n|] eqn:Hi.
    + apply Hin. by apply elem_of_iterate_idx.
    + rewrite Hout by (by apply not_elem_of_iterate_idx).
      by destruct (old_index_next_ids prev !! i).
Qed.

Lemma entry_of_new prev ids k :
  entry_of (merge_new prev ids) k =
  mkEntry (e_new (entry_of prev k) || bool_decide (k ∈ ids)) (e_old (entry_of prev k))
    (e_del (entry_of prev k)).
Proof.
  unfold entry_of, merge_new; simpl. f_equal.
  rewrite <- bool_decide_or. apply bool_decide_ext. set_solver.
Qed.

(** Ids are never reused: what is new in the second recording has no entry
    in the first one. *)
Lemma rel_new_fresh base prev mid st db k :
  rel base prev mid → rel mid st db → k ∈ new_ids st →
  entry_of prev k = mkEntry false None None.
Proof.
  intros HA HB Hk. destruct (rel_new _ _ _ HB k Hk) as (n & Hn & Hle).
  assert (objects base !! k = None) as Hb.
  { destruct (objects base !! k) as [v|] eqn:Hv; [|done].
    destruct (wf_below base (rel_base_wf _ _ _ HA) k v Hv) as (n' & Hn' & Hlt).
    pose proof (rel_next _ _ _ HA k.1) as Hx.
    destruct (old_index_next_ids prev !! k.1); [|rewrite Hn', Hn in Hx; simplify_eq; lia].
    destruct Hx as (Hb & m & Hm & Hle'). simplify_eq. lia. }
  assert (objects mid !! k = None) as Hm.
  { destruct (objects mid !! k) as [v|] eqn:Hv; [|done].
    destruct (wf_below mid (rel_base_wf _ _ _ HB) k v Hv) as (n' & Hn' & Hlt).
    simplify_eq. lia. }
  pose proof (rel_entries _ _ _ HA k) as He. rewrite Hb, Hm in He.
  destruct (entry_of prev k) as [[] [] []]; simpl in He; naive_solver.
Qed.

Lemma rel_mid_live base prev mid k :
  rel base prev mid → is_Some (objects mid !! k) → removed prev !! k = None.
Proof.
  intros HA [v Hv]. pose proof (rel_cases _ _ _ k HA) as Hc. rewrite Hv in Hc.
  destruct (old_values prev !! k), (removed prev !! k); naive_solver.
Qed.

Lemma merge_states_entries base prev mid st db :
  rel base prev mid → rel mid st db →
  ∃ prev', merge_states prev st = Ok prev' ∧
    (∀ i, old_index_next_ids prev' !! i = match old_index_next_ids prev !! i with
      | Some n => Some n | None => old_index_next_ids st !! i end) ∧
    ∀ k, entry_of prev' k = entry_merge (entry_of prev k) (entry_of st k).
Proof.
  intros HA HB. unfold merge_states.
  destruct (merge_upd_loop prev (old_values st)) as (p1 & -> & Hn1 & He1).
  { intros k x Hk. apply (rel_mid_live base prev mid); [done|].
    pose proof (rel_cases _ _ _ k HB) as Hc. rewrite Hk in Hc.
    destruct (removed st !! k); naive_solver. }
  cbn [rbind]. destruct (merge_next_loop (merge_new p1 (new_ids st)) (old_index_next_ids st))
    as [He3 Hn3].
  set (p3 := foldl merge_next _ _) in *.
  assert (∀ k x, removed st !! k = Some x → entry_of p3 k = entry_of prev k) as Hsame.
  { intros k x Hk. rewrite He3, entry_of_new, He1. pose proof (rel_cases _ _ _ k HB) as Hc.
    rewrite Hk in Hc. destruct (old_values st !! k); [done|]. destruct Hc as (_ & Hnew & _).
    rewrite bool_decide_false, orb_false_r by done. by destruct (entry_of prev k). }
  destruct (merge_del_loop p3 (removed st)) as (p4 & -> & Hn4 & He4).
  { intros k x Hk. pose proof (Hsame k x Hk) as Hs. apply (f_equal e_del) in Hs.
    simpl in Hs. rewrite Hs. apply (rel_mid_live base prev mid); [done|].
    pose proof (rel_cases _ _ _ k HB) as Hc. rewrite Hk in Hc.
    destruct (old_values st !! k); naive_solver. }
  exists p4. refine (conj eq_refl (conj _ _)).
  - intros i. rewrite Hn4, Hn3. simpl. by rewrite Hn1.
  - intros k. rewrite He4. remember (entry_of prev k) as a eqn:Ha. change (entry_of st k) with
      (mkEntry (bool_decide (k ∈ new_ids st)) (old_values st !! k) (removed st !! k)).
    destruct (removed st !! k) as [x|] eqn:Hr.
    + rewrite (Hsame k x Hr), <- Ha.
      pose proof (rel_cases _ _ _ k HB) as Hc. rewrite Hr in Hc.
      destruct (old_values st !! k); [done|].
      destruct Hc as (_ & Hnew & _). by rewrite bool_decide_false.
    + rewrite He3, entry_of_new, He1, <- Ha.
      pose proof (rel_cases _ _ _ k HB) as Hc. rewrite Hr in Hc.
      destruct (old_values st !! k) as [v|].
      * rewrite bool_decide_false, orb_false_r by naive_solver.
        by destruct a as [[] [] ?].
      * by destruct a as [[] [] ?], (bool_decide (k ∈ new_ids st)).
Qed.

Lemma rel_next_le base st db i n :
  rel base st db → next_ids base !! i = Some n → ∃ m, next_ids db !! i = Some m ∧ n <= m.
Proof.
  intros Hrel Hn. pose proof (rel_next _ _ _ Hrel i) as Hx.
  destruct (old_index_next_ids st !! i).
  - naive_solver.
  - exists n. rewrite <- Hx. split; [done|lia].
Qed.

Lemma merge_states_ok base prev mid st db :
  rel base prev mid → rel mid st db →
  ∃ prev', merge_states prev st = Ok prev' ∧ rel base prev' db.
Proof.
  intros HA HB. destruct (merge_states_entries base prev mid st db HA HB)
    as (p & Hp & Hn & He).
  exists p. split; [done|]. split.
  - intros k. rewrite He. apply entry_merge_ok with (objects mid !! k).
    + intros Hnew. apply (rel_new_fresh base prev mid st db); [done..|].
      unfold entry_of in Hnew. simpl in Hnew. by apply bool_decide_eq_true in Hnew.
    + apply (rel_entries _ _ _ HA).
    + apply (rel_entries _ _ _ HB).
  - intros i. rewrite Hn. pose proof (rel_next _ _ _ HA i) as HxA.
    pose proof (rel_next _ _ _ HB i) as HxB.
    destruct (old_index_next_ids prev !! i) as [n|].
    + destruct HxA as (Hb & m & Hm & Hle). split; [done|].
      destruct (rel_next_le mid st db i m HB Hm) as (m' & Hm' & Hle').
      exists m'. split; [done|lia].
    + rewrite HxA. done.
  - intros k Hk. assert (e_new (entry_of p k) = true) as Hnew.
    { unfold entry_of. simpl. by apply bool_decide_eq_true. }
    rewrite He in Hnew. destruct (bool_decide (k ∈ new_ids prev)) eqn:HkA.
    + apply bool_decide_eq_true in HkA. by apply (rel_new _ _ _ HA).
    + destruct (bool_decide (k ∈ new_ids st)) eqn:HkB.
      * apply bool_decide_eq_true in HkB.
        destruct (rel_new _ _ _ HB k HkB) as (n & Hnm & Hle).
        pose proof (rel_next _ _ _ HA k.1) as Hx.
        destruct (old_index_next_ids prev !! k.1) as [n0|].
        -- destruct Hx as (Hb & m & Hm & Hle'). exists n0. split; [done|]. simplify_eq. lia.
        -- exists n. by rewrite Hx.
      * exfalso. revert Hnew. unfold entry_of. rewrite HkA, HkB.
        destruct (old_values st !! k), (old_values prev !! k), (removed st !! k); done.
  - apply (rel_base_wf _ _ _ HA).
Qed.
End merging.

(** ** Recording a change keeps the relation to the starting state *)

Section record_rel.
Context {V : Type} `{UniqueKeys V}.
Implicit Types (db base : object_db V) (st : undo_state V).

Lemma rel_empty db : db_wf db → rel db empty_undo db.
Proof.
  intros Hwf. split; [|done| |done].
  - intros id. unfold entry_of; simpl. by rewrite lookup_empty.
  - intros id Hid. by apply elem_of_empty in Hid.
Qed.

Lemma index_create_inv db i v id db' :
  index_create db i v = Ok (id, db') →
  ∃ n, next_ids db !! i = Some n ∧ id = (i, n) ∧ objects db !! id = None ∧
    unique_in (objects db) id v = true ∧
    db' = mkDb (<[id := v]> (objects db)) (<[i := n + 1]> (next_ids db)).
Proof. unfold index_create, get_index_next. intros Hc. ok_inv. simplify_eq. eauto 10. Qed.

Lemma get_object_inv db id v :
  get_object db id = Ok v → objects db !! id = Some v.
Proof. unfold get_object. intros Hg. by ok_inv. Qed.

Lemma index_modify_inv db id v db' :
  index_modify db id v = Ok db' →
  unique_in (delete id (objects db)) id v = true ∧
  db' = mkDb (<[id := v]> (objects db)) (next_ids db).
Proof. unfold index_modify. intros Hm. by ok_inv. Qed.

Lemma create_wf db i v id db' :
  db_wf db → index_create db i v = Ok (id, db') → db_wf db'.
Proof.
  intros Hwf Hc. destruct (index_create_inv _ _ _ _ _ Hc) as (n & Hn & -> & Hno & Hu & ->).
  split; simpl.
  - intros id w [[<- <-]|[_ Hw]]%lookup_insert_Some; simpl.
    + exists (n + 1). rewrite lookup_insert_eq. split; [done|lia].
    + destruct (wf_below db Hwf id w Hw) as (m & Hm & Hlt).
      destruct (decide (id.1 = i)) as [<-|].
      * exists (n + 1). rewrite lookup_insert_eq. simplify_eq. split; [done|lia].
      * exists m. by rewrite lookup_insert_ne.
  - apply unique_insert; [by rewrite delete_id|]. apply (wf_unique db Hwf).
Qed.

Lemma rel_create base st db i v id db' :
  rel base st db → db_wf db → index_create db i v = Ok (id, db') →
  rel base (on_create_state st id) db'.
Proof.
  intros Hrel Hwf Hc. destruct (index_create_inv _ _ _ _ _ Hc) as (n & Hn & -> & Hno & Hu & ->).
  pose proof (rel_next _ _ _ Hrel i) as Hxi.
  assert (∃ n0, next_ids base !! i = Some n0 ∧ n0 <= n) as (n0 & Hb0 & Hle).
  { destruct (old_index_next_ids st !! i) as [m|].
    - destruct Hxi as (Hb & m' & Hm' & Hle). simplify_eq. eauto.
    - exists n. rewrite Hxi. split; [done|lia]. }
  assert (objects base !! (i, n) = None) as Hbn.
  { destruct (objects base !! (i, n)) as [w|] eqn:Hw; [|done].
    destruct (wf_below base (rel_base_wf _ _ _ Hrel) _ _ Hw) as (m & Hm & Hlt).
    simpl in *. simplify_eq. lia. }
  split; [| | |apply (rel_base_wf _ _ _ Hrel)].
  - intros id. pose proof (rel_entries _ _ _ Hrel id) as He. unfold entry_of in *; simpl.
    destruct (decide (id = (i, n))) as [->|Hne].
    + rewrite lookup_insert_eq, bool_decide_true by set_solver.
      rewrite Hbn, Hno in *. destruct (bool_decide _), (old_values st !! _), (removed st !! _);
        simpl in *; naive_solver.
    + rewrite lookup_insert_ne by done.
      rewrite (bool_decide_ext _ (id ∈ new_ids st)) by set_solver. done.
  - intros j. simpl. pose proof (rel_next _ _ _ Hrel j) as Hx.
    destruct (decide (j = i)) as [->|Hne].
    + rewrite lookup_insert_eq. case_bool_decide as Ho.
      * rewrite lookup_insert_eq. rewrite Ho in Hx. split; [congruence|].
        exists (n + 1). split; [done|lia].
      * destruct (old_index_next_ids st !! i) as [m|]; [|done].
        destruct Hx as (Hb & m' & Hm' & Hle'). simplify_eq. split; [done|].
        exists (n + 1). split; [done|lia].
    + rewrite (lookup_insert_ne (next_ids db)) by done.
      case_bool_decide; [by rewrite lookup_insert_ne|done].
  - intros id. simpl. intros [->%elem_of_singleton|Hid]%elem_of_union.
    + exists n0. split; [done|]. done.
    + by apply (rel_new _ _ _ Hrel).
Qed.

Lemma modify_wf db id old v db' :
  db_wf db → get_object db id = Ok old → index_modify db id v = Ok db' → db_wf db'.
Proof.
  intros Hwf Hg%get_object_inv [Hu ->]%index_modify_inv.
  destruct (wf_below db Hwf id old Hg) as (n & Hn & Hlt). by eapply db_wf_insert.
Qed.

Lemma rel_modify base st db id old v db' :
  rel base st db → get_object db id = Ok old → same_keys id.1 old v →
  index_modify db id v = Ok db' → rel base (on_modify_state st id old) db'.
Proof.
  intros Hrel Hg%get_object_inv Hk [Hu ->]%index_modify_inv.
  pose proof (rel_entries _ _ _ Hrel id) as Hid. unfold entry_of in Hid. rewrite Hg in Hid.
  split; [| | |apply (rel_base_wf _ _ _ Hrel)].
  - intros id'. cbn [objects]. destruct (decide (id' = id)) as [->|Hne].
    + rewrite lookup_insert_eq. unfold on_modify_state.
      destruct (bool_decide (id ∈ new_ids st)) eqn:Hnew;
        [|destruct (old_values st !! id) as [w|] eqn:Hold; simpl];
        unfold entry_of; simpl; rewrite ?lookup_insert_eq, Hnew, ?Hold;
        destruct (removed st !! id); try destruct (old_values st !! id);
        simpl in *; try naive_solver.
      destruct Hid as (Hb & w' & Hw' & Hs). simplify_eq. split; [done|].
      exists v. split; [done|]. by transitivity w'.
    + rewrite lookup_insert_ne by done. pose proof (rel_entries _ _ _ Hrel id') as He.
      replace (entry_of (on_modify_state st id old) id') with (entry_of st id'); [done|].
      unfold on_modify_state, entry_of.
      repeat case_bool_decide; simpl; by rewrite ?lookup_insert_ne.
  - intros j. unfold on_modify_state. pose proof (rel_next _ _ _ Hrel j).
    by repeat case_bool_decide.
  - intros id'. unfold on_modify_state. pose proof (rel_new _ _ _ Hrel id').
    by repeat case_bool_decide.
Qed.

Lemma index_remove_inv db id db' :
  index_remove db id = Ok db' → db' = mkDb (delete id (objects db)) (next_ids db).
Proof. unfold index_remove. intros Hm. by ok_inv. Qed.

Lemma rel_remove base st db id old db' :
  rel base st db → get_object db id = Ok old → index_remove db id = Ok db' →
  rel base (on_remove_state st id old) db'.
Proof.
  intros Hrel Hg%get_object_inv ->%index_remove_inv.
  pose proof (rel_entries _ _ _ Hrel id) as Hid. unfold entry_of in Hid. rewrite Hg in Hid.
  split; [| | |apply (rel_base_wf _ _ _ Hrel)].
  - intros id'. cbn [objects]. destruct (decide (id' = id)) as [->|Hne].
    + rewrite lookup_delete_eq. unfold on_remove_state.
      destruct (bool_decide (id ∈ new_ids st)) eqn:Hnew.
      { unfold entry_of; simpl. rewrite bool_decide_false by set_solver.
        destruct (old_values st !! id), (removed st !! id); simpl in *; naive_solver. }
      destruct (old_values st !! id) as [w|] eqn:Hold.
      { unfold entry_of; simpl. rewrite lookup_delete_eq, lookup_insert_eq, Hnew.
        destruct (removed st !! id); simpl in *; naive_solver. }
      destruct (removed st !! id) as [w|] eqn:Hrem; simpl; [naive_solver|].
      unfold entry_of; simpl. rewrite lookup_insert_eq, Hnew, Hold. simpl in *. naive_solver.
    + rewrite lookup_delete_ne by done. pose proof (rel_entries _ _ _ Hrel id') as He.
      replace (entry_of (on_remove_state st id old) id') with (entry_of st id'); [done|].
      unfold on_remove_state, entry_of. case_bool_decide as Hnew; simpl.
      { f_equal. apply bool_decide_ext. set_solver. }
      destruct (old_values st !! id); simpl.
      { by rewrite lookup_delete_ne, lookup_insert_ne. }
      destruct (removed st !! id); simpl; [done|]. by rewrite lookup_insert_ne.
  - intros j. unfold on_remove_state. pose proof (rel_next _ _ _ Hrel j).
    case_bool_decide; [done|]. destruct (old_values st !! id); [done|]. by case_bool_decide.
  - intros id'. unfold on_remove_state. pose proof (rel_new _ _ _ Hrel id').
    case_bool_decide; [simpl; set_solver|].
    destruct (old_values st !! id); [done|]. by case_bool_decide.
Qed.
End record_rel.
