(* ===== verification/UndoRefine.v ===== *)
(** * The undo history implements a stack of snapshots

    The abstract specification of [undo_database]: every session start saves
    a complete copy of the database, [undo] and [pop_commit] go back to the
    last copy, [merge] drops it.  The theorems say that the difference records
    of [UndoDb] implement it, for every sequence of operations, every
    iteration order of the hashed containers and every kind of object. *)

From stdpp Require Import gmap list.
From Stdlib Require Import ZArith Lia.
From S2P Require Import Prelude UndoDb.

Local Open Scope Z_scope.

(** ** The specification *)

Record snapshots (V : Type) := mkSpec {
  current : object_db V;
  saved : list (object_db V);
  spec_active : Z;
  spec_disabled : bool;
  spec_max : Z
}.
Arguments mkSpec {V} _ _ _ _ _.
Arguments current {V} _.
Arguments saved {V} _.
Arguments spec_active {V} _.
Arguments spec_disabled {V} _.
Arguments spec_max {V} _.

Inductive event (V : Type) :=
  | Start (force_enable : bool)
  | Create (i : index_id) (v : V)
  | Modify (id : object_id) (v : V)
  | Remove (id : object_id)
  | Undo | Merge | Commit | PopCommit
  | SetMax (n : Z) | Enable | Disable.
Arguments Start {V} _.
Arguments Create {V} _ _.
Arguments Modify {V} _ _.
Arguments Remove {V} _.
Arguments Undo {V}.
Arguments Merge {V}.
Arguments Commit {V}.
Arguments PopCommit {V}.
Arguments SetMax {V} _.
Arguments Enable {V}.
Arguments Disable {V}.

Section refinement.
Context {V : Type} `{UniqueKeys V} `{IterationOrder}.

Definition step (u : undo_database V) (e : event V) : result (undo_database V) :=
  match e with
  | Start force => Ok (start_undo_session u force)
  | Create i v => create u i v
  | Modify id v => modify u id v
  | Remove id => remove u id
  | Undo => undo u
  | Merge => merge u
  | Commit => commit u
  | PopCommit => pop_commit u
  | SetMax n => Ok (set_max_size u n)
  | Enable => Ok (enable u)
  | Disable => Ok (disable u)
  end.

(** A change saves the state before it when nothing is saved yet. *)
Definition spec_change (a : snapshots V) (db : object_db V) : snapshots V :=
  mkSpec db (if spec_disabled a then saved a
             else match saved a with [] => [current a] | _ => saved a end)
    (spec_active a) (spec_disabled a) (spec_max a).

Definition spec_step (a : snapshots V) (e : event V) : result (snapshots V) :=
  match e with
  | Start force =>
      Ok (if spec_disabled a && negb force then a
          else mkSpec (current a) (current a :: take (Z.to_nat (spec_max a)) (saved a))
                 (wrap_u32 (spec_active a + 1)) false (spec_max a))
  | Create i v =>
      let* (_, db) := index_create (current a) i v in Ok (spec_change a db)
  | Modify id v => let* db := index_modify (current a) id v in Ok (spec_change a db)
  | Remove id => let* db := index_remove (current a) id in Ok (spec_change a db)
  | Undo =>
      FC_ASSERT (negb (spec_disabled a)) ;;
      FC_ASSERT (0 <? spec_active a) ;;
      match saved a with
      | [] => Throw undefined_behaviour
      | db :: dbs => Ok (mkSpec db dbs (spec_active a - 1) false (spec_max a))
      end
  | Merge =>
      FC_ASSERT (0 <? spec_active a) ;;
      match saved a with
      | [] => Throw assert_exception
      | [_] => if spec_active a =? 1
               then Ok (mkSpec (current a) [] (spec_active a - 1) (spec_disabled a) (spec_max a))
               else Throw assert_exception
      | _ :: dbs => Ok (mkSpec (current a) dbs (spec_active a - 1) (spec_disabled a) (spec_max a))
      end
  | Commit =>
      FC_ASSERT (0 <? spec_active a) ;;
      Ok (mkSpec (current a) (saved a) (spec_active a - 1) (spec_disabled a) (spec_max a))
  | PopCommit =>
      FC_ASSERT (spec_active a =? 0) ;;
      match saved a with
      | [] => Throw assert_exception
      | db :: dbs => Ok (mkSpec db dbs (spec_active a) false (spec_max a))
      end
  | SetMax n => Ok (mkSpec (current a) (saved a) (spec_active a) (spec_disabled a) n)
  | Enable => Ok (mkSpec (current a) (saved a) (spec_active a) false (spec_max a))
  | Disable => Ok (mkSpec (current a) (saved a) (spec_active a) true (spec_max a))
  end.

(** What the users of the database keep to: a modification leaves the keys
    of unique indexes alone, and recording is only switched off when
    nothing is recorded. *)
Definition allowed (u : undo_database V) (e : event V) : Prop :=
  match e with
  | Modify id v => ∀ old, objects (the_db u) !! id = Some old → same_keys id.1 old v
  | Disable => stack u = []
  | _ => True
  end.

Fixpoint allowed_trace (u : undo_database V) (es : list (event V)) : Prop :=
  match es with
  | [] => True
  | e :: es' => allowed u e ∧
      match step u e with Ok u' => allowed_trace u' es' | Throw _ => True end
  end.

Fixpoint chain (db : object_db V) (sts : list (undo_state V)) (dbs : list (object_db V)) : Prop :=
  match sts, dbs with
  | [], [] => True
  | st :: sts', base :: dbs' => rel base st db ∧ chain base sts' dbs'
  | _, _ => False
  end.

Record sim (u : undo_database V) (a : snapshots V) : Prop := {
  sim_db : the_db u = current a;
  sim_active : active_sessions u = spec_active a;
  sim_disabled : disabled u = spec_disabled a;
  sim_max : max_size u = spec_max a;
  sim_wf : db_wf (the_db u);
  sim_chain : chain (the_db u) (stack u) (saved a);
  sim_off : disabled u = true → stack u = []
}.

Lemma chain_take n db sts dbs : chain db sts dbs → chain db (take n sts) (take n dbs).
Proof.
  revert db sts dbs. induction n as [|n IH]; intros db [|st sts] [|d dbs]; simpl; try done.
  intros [Hr Hc]. auto.
Qed.

Lemma chain_length db sts dbs : chain db sts dbs → length sts = length dbs.
Proof.
  revert db dbs. induction sts as [|st sts IH]; intros db [|d dbs]; simpl; try done.
  intros [_ Hc]. f_equal. eauto.
Qed.

(** Recording a change in the top state, or in a first one. *)
Lemma sim_change u a db f :
  sim u a → db_wf db →
  (∀ base st, rel base st (the_db u) → rel base (f st) db) →
  sim (with_change u db f) (spec_change a db).
Proof.
  intros [Hdb Hact Hdis Hmax Hwf Hch Hoff] Hwf' Hf.
  unfold with_change, spec_change, record.
  destruct u as [udb ust uact udis umax], a as [adb asv aact adis amax]; simpl in *; subst.
  split; simpl; try done.
  - destruct adis.
    + rewrite (Hoff eq_refl) in *. by destruct asv.
    + destruct ust as [|st sts], asv as [|b bs]; simpl in *; try done.
      * split; [|done]. by apply Hf, rel_empty.
      * destruct Hch as [Hr Hc]. auto.
  - intros ->. by apply Hoff.
Qed.

Definition agree {A B} (R : A → B → Prop) (c : result A) (d : result B) : Prop :=
  match c, d with
  | Ok x, Ok y => R x y
  | Throw e, Throw e' => e = e'
  | _, _ => False
  end.

Lemma create_refines u a i v : sim u a → agree sim (step u (Create i v)) (spec_step a (Create i v)).
Proof.
  intros Hs. pose proof Hs as [Hdb _ _ _ Hwf _ _]. simpl. unfold create. rewrite <- Hdb.
  destruct (index_create (the_db u) i v) as [[id db']|] eqn:Hc; simpl; [|done].
  apply sim_change; [done|by eapply create_wf|].
  intros base st Hr. by eapply rel_create.
Qed.

Lemma modify_refines u a id v :
  sim u a → allowed u (Modify id v) → agree sim (step u (Modify id v)) (spec_step a (Modify id v)).
Proof.
  intros Hs Hal. pose proof Hs as [Hdb _ _ _ Hwf _ _]. simpl in *. unfold modify. rewrite <- Hdb.
  destruct (get_object (the_db u) id) as [old|e] eqn:Hg; simpl.
  - destruct (index_modify (the_db u) id v) as [db'|] eqn:Hm; simpl; [|done].
    apply sim_change; [done|by eapply modify_wf|].
    intros base st Hr. eapply rel_modify; [done|done| |done].
    apply Hal. by apply get_object_inv.
  - unfold index_modify. by rewrite Hg.
Qed.

Lemma remove_refines u a id : sim u a → agree sim (step u (Remove id)) (spec_step a (Remove id)).
Proof.
  intros Hs. pose proof Hs as [Hdb _ _ _ Hwf _ _]. simpl. unfold remove. rewrite <- Hdb.
  destruct (get_object (the_db u) id) as [old|e] eqn:Hg; simpl.
  - destruct (index_remove (the_db u) id) as [db'|] eqn:Hm; simpl; [|done].
    apply sim_change; [done| |].
    + apply index_remove_inv in Hm as ->. by apply db_wf_delete.
    + intros base st Hr. by eapply rel_remove.
  - unfold index_remove. by rewrite Hg.
Qed.

Lemma merge_refines u a : sim u a → agree sim (step u Merge) (spec_step a Merge).
Proof.
  intros [Hdb Hact Hdis Hmax Hwf Hch Hoff]. simpl.
  unfold merge. rewrite Hact. destruct (0 <? spec_active a); simpl; [|done].
  destruct (stack u) as [|st [|prev sts]], (saved a) as [|b [|b' bs]]; try done; simpl in Hch;
    try (by destruct Hch as (? & ? & ?)); try (by destruct Hch).
  - destruct (spec_active a =? 1); simpl; [|done]. split; simpl; by try done.
  - destruct Hch as (Hr & Hr' & Hc).
    destruct (merge_states_ok b' prev b st (the_db u) Hr' Hr) as (p & -> & Hp). simpl.
    split; simpl; try done. intros Hd. specialize (Hoff Hd). done.
Qed.

Lemma step_refines u a e : sim u a → allowed u e → agree sim (step u e) (spec_step a e).
Proof.
  intros Hs Hal. pose proof Hs as [Hdb Hact Hdis Hmax Hwf Hch Hoff].
  destruct e as [force|i v|id v|id| | | | |n| |];
    auto using create_refines, modify_refines, remove_refines, merge_refines; simpl in *.
  - unfold start_undo_session. rewrite Hdis, Hact, Hmax.
    destruct (spec_disabled a && negb force); simpl; [done|].
    split; simpl; try done. rewrite <- Hdb. split; [by apply rel_empty|].
    by apply chain_take.
  - unfold undo. rewrite Hdis, Hact. destruct (spec_disabled a); simpl; [done|].
    destruct (0 <? spec_active a); simpl; [|done].
    destruct (stack u) as [|st sts], (saved a) as [|b bs]; try done.
    destruct Hch as [Hr Hc]. rewrite (restore_ok b st (the_db u) Hr Hwf). simpl.
    split; simpl; try done. apply (rel_base_wf _ _ _ Hr).
  - unfold commit. rewrite Hact. destruct (0 <? spec_active a); simpl; [|done].
    split; simpl; done || congruence.
  - unfold pop_commit. rewrite Hact. destruct (spec_active a =? 0); simpl; [|done].
    destruct (stack u) as [|st sts], (saved a) as [|b bs]; try done.
    destruct Hch as [Hr Hc]. rewrite (restore_ok b st (the_db u) Hr Hwf). simpl.
    split; simpl; try done. apply (rel_base_wf _ _ _ Hr).
  - split; simpl; try done.
  - split; simpl; try done.
  - split; simpl; try done.
Qed.

Lemma run_refines es u a :
  sim u a → allowed_trace u es → agree sim (rfold step u es) (rfold spec_step a es).
Proof.
  revert u a. induction es as [|e es IH]; intros u a Hs Hal; simpl; [done|].
  destruct Hal as [He Hes]. pose proof (step_refines u a e Hs He) as Hst.
  destruct (step u e), (spec_step a e); simpl in *; try done. auto.
Qed.

Definition fresh (db : object_db V) (off : bool) (limit : Z) : undo_database V :=
  mkUdb db [] 0 off limit.

Definition fresh_spec (db : object_db V) (off : bool) (limit : Z) : snapshots V :=
  mkSpec db [] 0 off limit.

Lemma sim_fresh db off limit : db_wf db → sim (fresh db off limit) (fresh_spec db off limit).
Proof. intros. by split. Qed.

(** The state a client sees: the database and the depth of the history. *)
Definition same_view (u : undo_database V) (a : snapshots V) : Prop :=
  the_db u = current a ∧ length (stack u) = length (saved a) ∧
  active_sessions u = spec_active a ∧ disabled u = spec_disabled a.

(** C1.  For every sequence of database and session operations on a fresh
    history in which no modification changes a unique key of an object and the
    history is only disabled while it is empty: the undo database throws
    exactly when the stack of full snapshots does, with the same error, and
    otherwise holds the same objects, the same next ids and the same number of
    states.  (That the keys must stay is shown by [undo_stops_at_moved_key]
    below; updates of a listing do move one.) *)
Theorem undo_database_refines_snapshots db off limit es :
  db_wf db → allowed_trace (fresh db off limit) es →
  agree same_view (rfold step (fresh db off limit) es)
    (rfold spec_step (fresh_spec db off limit) es).
Proof.
  intros Hwf Hal. pose proof (run_refines es _ _ (sim_fresh db off limit Hwf) Hal) as Hr.
  destruct (rfold step _ es), (rfold spec_step _ es); simpl in *; try done.
  destruct Hr as [? ? ? ? ? Hc ?]. repeat split; try done. by eapply chain_length.
Qed.

(** *** A session that is dropped leaves no trace *)

Definition is_change (e : event V) : bool :=
  match e with Create _ _ | Modify _ _ | Remove _ => true | _ => false end.

(** The history is one some run can have produced. *)
Definition history_ok (u : undo_database V) : Prop := ∃ a, sim u a.

Lemma change_stack u e u' :
  is_change e = true → disabled u = false → step u e = Ok u' →
  disabled u' = false ∧ active_sessions u' = active_sessions u ∧ max_size u' = max_size u ∧
  ∀ st sts, stack u = st :: sts → ∃ st', stack u' = st' :: sts.
Proof.
  intros Hc Hd Hs.
  assert (∃ db f, u' = with_change u db f) as (db & f & ->).
  { destruct e; try done; simpl in Hs; unfold create, modify, remove in Hs.
    - apply rbind_ok in Hs as ([id db] & _ & Hs). injection Hs as <-. eauto.
    - ok_inv. eauto.
    - ok_inv. eauto. }
  unfold with_change, record; simpl. rewrite Hd. split_and!; [done..|].
  intros st sts ->. eauto.
Qed.

Lemma changes_stack es u u' st sts :
  forallb is_change es = true → disabled u = false → stack u = st :: sts →
  rfold step u es = Ok u' →
  disabled u' = false ∧ active_sessions u' = active_sessions u ∧ max_size u' = max_size u ∧
  ∃ st', stack u' = st' :: sts.
Proof.
  revert u st. induction es as [|e es IH]; intros u st Hc Hd Hst Hr; simpl in *.
  - ok_inv. eauto 10.
  - apply andb_prop in Hc as [Hc Hcs]. apply rbind_ok in Hr as (u1 & H1 & Hr).
    destruct (change_stack u e u1 Hc Hd H1) as (Hd1 & Ha1 & Hm1 & Hs1).
    destruct (Hs1 st sts Hst) as [st1 Hst1].
    destruct (IH u1 st1 Hcs Hd1 Hst1 Hr) as (? & ? & ? & ?). split_and!; congruence || done.
Qed.

(** The snapshot below the changes is the state the session started in. *)
Lemma spec_changes_saved es a a' b bs :
  forallb is_change es = true → saved a = b :: bs → rfold spec_step a es = Ok a' →
  saved a' = b :: bs.
Proof.
  revert a. induction es as [|e es IH]; intros a Hc Hs Hr; simpl in *; [by ok_inv|].
  apply andb_prop in Hc as [Hc Hcs]. apply rbind_ok in Hr as (a1 & H1 & Hr).
  apply (IH a1 Hcs); [|done].
  destruct e; try done; simpl in H1; apply rbind_ok in H1 as (x & _ & H1); try destruct x;
    injection H1 as <-; unfold spec_change; simpl; rewrite Hs; by destruct (spec_disabled a).
Qed.

(** A session that is dropped without commit or merge puts the
    database back exactly as it was: after any changes, the destructor
    succeeds, every object and every next id is the one from before the
    session started, and the history below it is untouched. *)
Theorem dropped_session_restores u force es u' :
  history_ok u → disabled u = false → 0 <= active_sessions u < 2 ^ 32 - 1 →
  forallb is_change es = true → allowed_trace (start_session u force).1 es →
  rfold step (start_session u force).1 es = Ok u' →
  session_destruct u' (start_session u force).2 =
    Ok (mkUdb (the_db u) (trim (max_size u) (stack u)) (active_sessions u) false (max_size u)).
Proof.
  intros [a Hs] Hd Hact Hc Hal Hr. cbn [start_session fst] in *.
  pose proof (step_refines u a (Start force) Hs I) as H1. simpl in H1.
  rewrite <- (sim_disabled _ _ Hs), Hd in H1. simpl in H1.
  pose proof (run_refines es _ _ H1 Hal) as H2. rewrite Hr in H2.
  destruct (rfold spec_step _ es) as [a'|] eqn:Ha'; [|done]. simpl in H2.
  apply (spec_changes_saved es) with (b := current a)
    (bs := take (Z.to_nat (spec_max a)) (saved a)) in Ha'; [|done|done].
  revert Hr. unfold start_undo_session. rewrite Hd. simpl. intros Hr.
  apply (changes_stack es) with (st := empty_undo)
    (sts := trim (max_size u) (stack u)) in Hr as (Hd' & Ha & Hm & st' & Hst'); [|done..].
  simpl in *. unfold session_destruct; simpl. rewrite Hd. simpl.
  unfold undo. rewrite Hd', Ha.
  rewrite wrap_u32_small by lia.
  rewrite (proj2 (Z.ltb_lt 0 _)) by lia. simpl. rewrite Hst'.
  pose proof (sim_chain _ _ H2) as Hch. rewrite Hst', Ha' in Hch. destruct Hch as [Hrel _].
  rewrite (restore_ok _ _ _ Hrel (sim_wf _ _ H2)). simpl. rewrite (sim_db _ _ Hs), Hm.
  do 2 f_equal. lia.
Qed.
End refinement.

(** ** A concrete database

    Objects of one index with a unique key and a payload. *)

Definition sample_keys : UniqueKeys (Z * Z).
Proof.
  refine {| clash := λ _ v w, v.1 =? w.1 |}. intros _ v w. apply Z.eqb_sym.
Defined.

Definition sample_order : IterationOrder.
Proof.
  refine {| iterate A := map_to_list; iterate_set := elements; iterate_idx := map_to_list |};
    done.
Defined.

#[local] Existing Instances sample_keys sample_order.

Definition undo_sample : object_db (Z * Z) :=
  mkDb {[ (1, 2, 0) := (10, 100); (1, 2, 1) := (11, 200) ]} {[ (1, 2) := 2 ]}.

Lemma undo_sample_wf : db_wf undo_sample.
Proof.
  split.
  - intros id v Hv. exists 2. unfold undo_sample in Hv; simpl in Hv.
    rewrite lookup_insert_Some, lookup_singleton_Some in Hv.
    destruct Hv as [[<- _]|[_ [<- _]]]; split; (reflexivity || simpl; lia).
  - intros id id' v w Hv Hw Hne Hi. unfold undo_sample in Hv, Hw; simpl in Hv, Hw.
    rewrite lookup_insert_Some, lookup_singleton_Some in Hv, Hw.
    destruct Hv as [[<- <-]|[_ [<- <-]]], Hw as [[<- <-]|[_ [<- <-]]]; done.
Qed.

(** A nested session that is merged, and an outer one that is undone. *)
Definition sample_trace : list (event (Z * Z)) :=
  [Start false; Modify (1, 2, 0) (10, 101); Start false; Remove (1, 2, 0);
   Create (1, 2) (10, 300); Modify (1, 2, 1) (11, 201); Merge; Modify (1, 2, 2) (10, 301);
   Undo].

Lemma undo_database_refines_snapshots_witness :
  agree same_view (rfold step (fresh undo_sample false 256) sample_trace)
    (rfold spec_step (fresh_spec undo_sample false 256) sample_trace) ∧
  rfold spec_step (fresh_spec undo_sample false 256) sample_trace = Ok (fresh_spec undo_sample false 256).
Proof.
  split; [|vm_compute; reflexivity].
  apply undo_database_refines_snapshots; [apply undo_sample_wf|].
  vm_compute. repeat split; intros old Hold x; injection Hold as <-; reflexivity.
Defined.

Definition sample_changes : list (event (Z * Z)) :=
  [Remove (1, 2, 0); Create (1, 2) (10, 300); Modify (1, 2, 1) (11, 201)].

Lemma dropped_session_restores_witness :
  session_destruct (get_ok (rfold step (start_session (fresh undo_sample false 256) false).1
      sample_changes) (fresh undo_sample false 256))
    (start_session (fresh undo_sample false 256) false).2 = Ok (fresh undo_sample false 256).
Proof.
  apply (dropped_session_restores (fresh undo_sample false 256) false sample_changes).
  - exists (fresh_spec undo_sample false 256). apply sim_fresh, undo_sample_wf.
  - reflexivity.
  - simpl. lia.
  - reflexivity.
  - vm_compute. repeat split; intros old Hold x; injection Hold as <-; reflexivity.
  - apply get_ok_eq. vm_compute. reflexivity.
Defined.

(** The restriction on [Modify] is needed: when a unique key moves to another
    object, [undo] writes the old value back before it removes the new object
    and stops at the uniqueness constraint. *)
Example undo_stops_at_moved_key :
  rfold step (fresh undo_sample false 256)
    [Start false; Modify (1, 2, 0) (12, 100); Create (1, 2) (10, 300); Undo] =
  Throw assert_exception.
Proof. vm_compute. reflexivity. Qed.
