(* ===== verification/ForkDb.v ===== *)
(** * The fork database

    [chain/fork_database.cpp]: the recent blocks as a tree, from which
    [database::_push_block] takes the two branches of a fork switch.  The
    items are shared objects linked by weak pointers: an item has an address,
    a weak pointer is an address, and [lock] finds the object only while the
    index or the head still owns it.  The block digest of [fc] is a
    parameter; block numbers are kept at 32 bits. *)

From stdpp Require Import gmap list.
From Stdlib Require Import ZArith Lia.
From S2P Require Import Prelude.

Local Open Scope Z_scope.

(** ** Blocks and their ids *)

(** [body] stands for the header fields besides [previous], the signature and
    the transactions: they enter the digest only. *)
Record signed_block := mkBlock { previous : Z; body : Z }.

#[export] Instance signed_block_eq_dec : EqDecision signed_block.
Proof. solve_decision. Defined.

(** [fc::sha224::hash] of a signed header, as a big-endian number. *)
Class BlockDigest := { sha224 : signed_block → Z }.

(** The first four bytes of an id hold the block number, big-endian. *)
Definition num_from_id (id : Z) : Z := wrap_u32 (Z.shiftr id 128).

Definition block_num (b : signed_block) : Z := wrap_u32 (num_from_id (previous b) + 1).

Section ids.
Context `{BlockDigest}.

(** The number, then bytes 4 to 19 of the digest. *)
Definition block_id (b : signed_block) : Z :=
  block_num b * 2 ^ 128 + Z.shiftr (sha224 b) 64 mod 2 ^ 128.

(** Reading the number back from an id. *)
Lemma num_block_id b : num_from_id (block_id b) = block_num b.
Proof.
  unfold num_from_id, block_id.
  pose proof (wrap_u32_range (num_from_id (previous b) + 1)) as Hr.
  fold (block_num b) in Hr.
  pose proof (Z.mod_pos_bound (Z.shiftr (sha224 b) 64) (2 ^ 128) ltac:(lia)) as Hm.
  rewrite Z.shiftr_div_pow2 by lia.
  rewrite Z.div_add_l by lia. rewrite (Z.div_small _ (2 ^ 128)) by lia.
  rewrite wrap_u32_small; lia.
Qed.
End ids.

(** ** Items and the database *)

Record fork_item := mkItem {
  addr : Z;
  prev : option Z;
  num : Z;
  id : Z;
  data : signed_block
}.

#[export] Instance fork_item_eq_dec : EqDecision fork_item.
Proof. solve_decision. Defined.

Definition previous_id (it : fork_item) : Z := previous (data it).

(** [heap] is the next free address. *)
Record fork_database := mkForkDb {
  index : gmap Z fork_item;
  unlinked_index : gmap Z fork_item;
  head : option fork_item;
  max_size : Z;
  heap : Z
}.

Definition empty_fork_db : fork_database := mkForkDb ∅ ∅ None 1024 0.

Section fork_database.
Context `{BlockDigest}.

Definition new_item (f : fork_database) (b : signed_block) : fork_item :=
  mkItem (heap f) None (block_num b) (block_id b) b.

(** [weak_ptr::lock]. *)
Definition lock (f : fork_database) (p : option Z) : option fork_item :=
  match p with
  | None => None
  | Some a =>
      match list_find (λ kv, addr kv.2 = a) (map_to_list (index f)) with
      | Some (_, (_, it)) => Some it
      | None => match head f with
                | Some h => if addr h =? a then Some h else None
                | None => None
                end
      end
  end.

(** A hashed unique index keeps the old item when the id is taken. *)
Definition insert_item (m : gmap Z fork_item) (it : fork_item) : gmap Z fork_item :=
  match m !! id it with Some _ => m | None => <[id it := it]> m end.

(** Erasing from the front of the order by number while it is below [n]. *)
Definition erase_below (m : gmap Z fork_item) (n : Z) : gmap Z fork_item :=
  filter (λ kv, n <= num kv.2) m.

Definition erase_num (m : gmap Z fork_item) (n : Z) : gmap Z fork_item :=
  filter (λ kv, num kv.2 ≠ n) m.

Definition reset (f : fork_database) : fork_database :=
  mkForkDb ∅ (unlinked_index f) None (max_size f) (heap f).

(** [held] are the items that the caller keeps alive besides the index and the
    head: the branches of a fork switch. *)
Definition lock_held (held : list fork_item) (f : fork_database) (p : option Z) : option fork_item :=
  match lock f p with
  | Some it => Some it
  | None => a ← p; snd <$> list_find (λ it, addr it = a) held
  end.

Definition pop_block (held : list fork_item) (f : fork_database) : result fork_database :=
  match head f with
  | None => Throw assert_exception
  | Some h =>
      let* p := of_option assert_exception (lock_held held f (prev h)) in
      Ok (mkForkDb (index f) (unlinked_index f) (Some p) (max_size f) (heap f))
  end.

Definition start_block (f : fork_database) (b : signed_block) : fork_database :=
  let it := new_item f b in
  mkForkDb (insert_item (index f) it) (unlinked_index f) (Some it) (max_size f) (heap f + 1).

(** The private [_push_block], on a fresh item. *)
Definition push_item (f : fork_database) (item : fork_item) : result fork_database :=
  match head f with
  | None =>
      Ok (mkForkDb (insert_item (index f) item) (unlinked_index f) (Some item)
            (max_size f) (heap f + 1))
  | Some h =>
      FC_ASSERT (Z.max 0 (num h - max_size f) <? num item) ;;
      let* item' :=
        (if previous_id item =? 0 then Ok item
         else match index f !! previous_id item with
              | None => Throw unlinkable_block_exception
              | Some p => Ok (mkItem (addr item) (Some (addr p)) (num item) (id item) (data item))
              end) in
      let index1 := insert_item (index f) item' in
      if num h <? num item' then
        let min_num := num item' - Z.min (max_size f) (num item') in
        Ok (mkForkDb (erase_below index1 min_num)
              (erase_num (unlinked_index f) (wrap_u32 (num item' - max_size f)))
              (Some item') (max_size f) (heap f + 1))
      else Ok (mkForkDb index1 (unlinked_index f) (head f) (max_size f) (heap f + 1))
  end.

(** The item that fails to link is not cached: the handler rethrows before
    it would be. *)
Definition push_block (f : fork_database) (b : signed_block) : result fork_database :=
  push_item f (new_item f b).

Definition set_max_size (f : fork_database) (s : Z) : fork_database :=
  match head f with
  | None => mkForkDb (index f) (unlinked_index f) None s (heap f)
  | Some h =>
      let limit := Z.max 0 (num h - s) in
      mkForkDb (erase_below (index f) limit) (erase_below (unlinked_index f) limit)
        (Some h) s (heap f)
  end.

Definition fetch_block (f : fork_database) (i : Z) : option fork_item :=
  match index f !! i with
  | Some it => Some it
  | None => unlinked_index f !! i
  end.

Definition is_known_block (f : fork_database) (i : Z) : bool :=
  bool_decide (is_Some (index f !! i)) || bool_decide (is_Some (unlinked_index f !! i)).

Definition fetch_block_by_number (f : fork_database) (n : Z) : list fork_item :=
  (filter (λ kv, num kv.2 = n) (map_to_list (index f))).*2.

Definition set_head (f : fork_database) (h : option fork_item) : fork_database :=
  mkForkDb (index f) (unlinked_index f) h (max_size f) (heap f).

Definition remove (f : fork_database) (i : Z) : fork_database :=
  mkForkDb (delete i (index f)) (unlinked_index f) (head f) (max_size f) (heap f).

(** ** [fetch_branch_from]

    The first two loops bring one branch down to the number of the other;
    each pass goes to an item with a smaller number, so the number bounds
    the passes. *)

Fixpoint descend (f : fork_database) (fuel : nat) (it : fork_item) (target : Z)
    (acc : list fork_item) : result (list fork_item * fork_item) :=
  if target <? block_num (data it) then
    match fuel with
    | O => Throw out_of_fuel
    | S fuel' =>
        let* p := of_option assert_exception (lock f (prev it)) in
        descend f fuel' p target (acc ++ [it])
    end
  else Ok (acc, it).

Fixpoint descend_both (f : fork_database) (fuel : nat) (a b : fork_item)
    (accA accB : list fork_item) : result (list fork_item * list fork_item) :=
  if previous (data a) =? previous (data b) then Ok (accA ++ [a], accB ++ [b])
  else match fuel with
  | O => Throw out_of_fuel
  | S fuel' =>
      let* a' := of_option assert_exception (lock f (prev a)) in
      let* b' := of_option assert_exception (lock f (prev b)) in
      descend_both f fuel' a' b' (accA ++ [a]) (accB ++ [b])
  end.

Definition fetch_branch_from (f : fork_database) (first second : Z) :
    result (list fork_item * list fork_item) :=
  let* a := of_option assert_exception (index f !! first) in
  let* b := of_option assert_exception (index f !! second) in
  let fuel := Z.to_nat (Z.max (num a) (num b)) in
  let* (accA, a1) := descend f fuel a (block_num (data b)) [] in
  let* (accB, b1) := descend f fuel b (block_num (data a1)) [] in
  descend_both f fuel a1 b1 accA accB.
End fork_database.

(** ** The invariant of the tree *)

Section invariant.
Context `{BlockDigest}.
Implicit Types (f : fork_database) (it p x y : fork_item).

(** Owned by the index or by the head pointer. *)
Definition live f it : Prop := (∃ i, index f !! i = Some it) ∨ head f = Some it.

Record fork_wf f : Prop := {
  wf_item : ∀ it, live f it →
    num it = block_num (data it) ∧ id it = block_id (data it) ∧ 1 <= num it ∧ addr it < heap f;
  wf_key : ∀ i it, index f !! i = Some it → id it = i;
  wf_addr : ∀ x y, live f x → live f y → addr x = addr y → x = y;
  wf_prev : ∀ it a, live f it → prev it = Some a →
    a < heap f ∧ ∀ p, live f p → addr p = a → id p = previous_id it
}.

Lemma lock_some f a it :
  fork_wf f → lock f (Some a) = Some it ↔ live f it ∧ addr it = a.
Proof.
  intros Hwf. unfold lock. split.
  - destruct (list_find _ _) as [[n [i x]]|] eqn:Hf.
    + intros [= ->]. apply list_find_Some in Hf as (Hl & Ha & _). split; [|done].
      left. exists i. apply elem_of_map_to_list. by eapply list_elem_of_lookup_2.
    + destruct (head f) as [h|] eqn:Hh; [|done]. destruct (Z.eqb_spec (addr h) a); [|done].
      intros [= <-]. split; [by right|done].
  - intros [Hl Ha]. destruct (list_find _ _) as [[n [i x]]|] eqn:Hf.
    + apply list_find_Some in Hf as (Hx & Hax & _). f_equal.
      apply (wf_addr f Hwf); [|done|simpl in *; congruence].
      left. exists i. apply elem_of_map_to_list. by eapply list_elem_of_lookup_2.
    + destruct Hl as [[i Hi]|Hh].
      * apply list_find_None in Hf. rewrite Forall_forall in Hf.
        destruct (Hf (i, it)); [by apply elem_of_map_to_list|done].
      * rewrite Hh. by rewrite (proj2 (Z.eqb_eq _ _) Ha).
Qed.

Lemma lock_live f o p : fork_wf f → lock f o = Some p → live f p.
Proof. intros Hwf. destruct o; [|done]. intros Hl. by apply lock_some in Hl as [? _]. Qed.

(** A parent has the previous id and the previous number. *)
Lemma lock_parent f it p :
  fork_wf f → live f it → lock f (prev it) = Some p →
  live f p ∧ id p = previous_id it ∧ num p = num it - 1.
Proof.
  intros Hwf Hit Hl. destruct (prev it) as [a|] eqn:Hp; [|done].
  apply lock_some in Hl as [Hpl Ha]; [|done].
  destruct (wf_prev f Hwf it a Hit Hp) as [_ Hid]. specialize (Hid p Hpl Ha).
  split_and!; [done..|].
  destruct (wf_item f Hwf it Hit) as (Hn & _ & H1 & _).
  destruct (wf_item f Hwf p Hpl) as (Hpn & Hpi & Hp1 & _).
  assert (num_from_id (previous (data it)) = num p) as Hprev.
  { unfold previous_id in Hid. rewrite <- Hid, Hpi, num_block_id. done. }
  pose proof (wrap_u32_range (num_from_id (previous (data p)) + 1)) as Hr.
  unfold block_num in Hn, Hpn. rewrite Hprev in Hn. rewrite <- Hpn in Hr.
  destruct (decide (num p + 1 = 2 ^ 32)) as [He|].
  - rewrite He in Hn. change (wrap_u32 (2 ^ 32)) with 0 in Hn. lia.
  - rewrite wrap_u32_small in Hn by lia. lia.
Qed.

(** *** Every operation keeps it *)

Lemma live_shrink f f' :
  fork_wf f → heap f <= heap f' →
  (∀ i it, index f' !! i = Some it → index f !! i = Some it) →
  (∀ it, head f' = Some it → live f it) → fork_wf f'.
Proof.
  intros Hwf Hheap Hidx Hhead.
  assert (∀ it, live f' it → live f it) as Hl.
  { intros it [[i Hi]|Hh]; [left; eauto|by apply Hhead]. }
  split.
  - intros it Hit. destruct (wf_item f Hwf it (Hl it Hit)) as (? & ? & ? & ?).
    split_and!; try done. lia.
  - intros i it Hi. apply (wf_key f Hwf). by apply Hidx.
  - intros x y Hx Hy. apply (wf_addr f Hwf); auto.
  - intros it a Hit Ha. destruct (wf_prev f Hwf it a (Hl it Hit) Ha) as [Hlt Hp].
    split; [lia|]. intros p Hpl. apply Hp. auto.
Qed.

(** A fresh item: it starts with the next address and points to an older
    item, or to none. *)
Definition fresh_for f it : Prop :=
  addr it = heap f ∧ num it = block_num (data it) ∧ id it = block_id (data it) ∧
  1 <= num it ∧
  ∀ a, prev it = Some a → ∃ p, live f p ∧ addr p = a ∧ id p = previous_id it.

Lemma live_grow f f' it :
  fork_wf f → fresh_for f it → heap f' = heap f + 1 →
  (∀ i x, index f' !! i = Some x → index f !! i = Some x ∨ (i = id it ∧ x = it)) →
  (∀ x, head f' = Some x → live f x ∨ x = it) → fork_wf f'.
Proof.
  intros Hwf (Ha & Hn & Hid & H1 & Hprev) Hheap Hidx Hhead.
  assert (∀ x, live f' x → live f x ∨ x = it) as Hl.
  { intros x [[i Hi]|Hh]; [|by apply Hhead].
    destruct (Hidx i x Hi) as [?|[_ ?]]; [left; left; eauto|by right]. }
  assert (∀ x, live f x → addr x < heap f) as Hold.
  { intros x Hx. by destruct (wf_item f Hwf x Hx) as (_ & _ & _ & ?). }
  split.
  - intros x [Hx| ->]%Hl; [|split_and!; try done; lia].
    destruct (wf_item f Hwf x Hx) as (? & ? & ? & ?). split_and!; try done. lia.
  - intros i x Hi. destruct (Hidx i x Hi) as [?|[-> ->]]; [by apply (wf_key f Hwf)|done].
  - intros x y [Hx| ->]%Hl [Hy| ->]%Hl Hxy; [by apply (wf_addr f Hwf)| | |done].
    + specialize (Hold x Hx). lia.
    + specialize (Hold y Hy). lia.
  - intros x a [Hx| ->]%Hl Hxa.
    + destruct (wf_prev f Hwf x a Hx Hxa) as [Hlt Hp]. split; [lia|].
      intros p [Hpl| ->]%Hl Hpa; [by apply Hp|lia].
    + destruct (Hprev a Hxa) as (p & Hpl & Hpa & Hpid). split.
      { specialize (Hold p Hpl). lia. }
      intros q [Hq| ->]%Hl Hqa.
      * by rewrite (wf_addr f Hwf q p Hq Hpl) by congruence.
      * specialize (Hold p Hpl). lia.
Qed.

Lemma insert_item_some m it i x :
  insert_item m it !! i = Some x → m !! i = Some x ∨ (i = id it ∧ x = it).
Proof.
  unfold insert_item. destruct (m !! id it) eqn:Hm; [by left|].
  intros [[<- <-]|[_ Hx]]%lookup_insert_Some; [by right|by left].
Qed.

Lemma erase_below_some m n i x : erase_below m n !! i = Some x → m !! i = Some x.
Proof. by intros [Hx _]%map_lookup_filter_Some. Qed.

Lemma start_block_wf f b : fork_wf f → 1 <= block_num b → fork_wf (start_block f b).
Proof.
  intros Hwf Hb. apply (live_grow f _ (new_item f b)); [done| |done| |].
  - by split_and!.
  - intros i x. apply insert_item_some.
  - intros x [= <-]. by right.
Qed.

Lemma push_block_wf f b f' :
  fork_wf f → (head f = None → 1 <= block_num b) → push_block f b = Ok f' → fork_wf f'.
Proof.
  intros Hwf Hb. unfold push_block, push_item. destruct (head f) as [h|] eqn:Hh.
  - intros Hp. apply rbind_ok in Hp as ([] & Hn%require_ok & Hp).
    apply Z.ltb_lt in Hn. change (num (new_item f b)) with (block_num b) in Hn.
    assert (1 <= block_num b) as H1 by lia.
    apply rbind_ok in Hp as (it & Hit & Hp).
    assert (fresh_for f it ∧ id it = block_id b ∧ num it = block_num b) as (Hf & _ & _).
    { destruct (previous_id (new_item f b) =? 0).
      { injection Hit as <-. by split_and!. }
      destruct (index f !! previous_id (new_item f b)) as [p|] eqn:Hpi; [|done].
      injection Hit as <-. unfold fresh_for; split_and!; try done.
      intros a [= <-]. exists p. split_and!; [left; eauto|done|].
      by apply (wf_key f Hwf). }
    destruct (num h <? num it); injection Hp as <-.
    + apply (live_grow f _ it); [done|done|done| |].
      * intros i x Hx%erase_below_some. by apply insert_item_some.
      * intros x [= <-]. by right.
    + apply (live_grow f _ it); [done|done|done| |].
      * intros i x. apply insert_item_some.
      * intros x Hx. left. right. by rewrite Hh.
  - intros [= <-]. apply (live_grow f _ (new_item f b)); [done| |done| |].
    + split_and!; try done. by apply Hb.
    + intros i x. apply insert_item_some.
    + intros x [= <-]. by right.
Qed.

(** What is left of a database: no new items, and the head is one that was
    alive. *)
Definition shrinks f f' : Prop :=
  heap f <= heap f' ∧ (∀ i it, index f' !! i = Some it → index f !! i = Some it) ∧
  (∀ it, head f' = Some it → live f it).

Lemma shrinks_wf f f' : fork_wf f → shrinks f f' → fork_wf f'.
Proof. intros Hwf (? & ? & ?). by apply (live_shrink f). Qed.

Lemma shrinks_refl f : shrinks f f.
Proof. split_and!; [lia|done|by right]. Qed.

Lemma shrinks_live f f' it : shrinks f f' → live f' it → live f it.
Proof. intros (_ & Hi & Hh) [[i Hl]|Hl]; [left; eauto|by apply Hh]. Qed.

Lemma shrinks_trans f1 f2 f3 : shrinks f1 f2 → shrinks f2 f3 → shrinks f1 f3.
Proof.
  intros H12 (Hh & Hi & Hl). pose proof H12 as (Hh' & Hi' & Hl'). split_and!; [lia|auto|].
  intros it ?%Hl. by eapply shrinks_live.
Qed.

Lemma lock_held_live held f f0 o p : fork_wf f → shrinks f0 f → Forall (live f0) held →
  lock_held held f o = Some p → live f0 p.
Proof.
  intros Hwf Hs Hh. unfold lock_held. destruct (lock f o) as [x|] eqn:Hl.
  - intros [= <-]. eapply shrinks_live; [done|]. by eapply lock_live.
  - destruct o as [a|]; [|done]. simpl. destruct (list_find _ held) as [[k x]|] eqn:Hf; [|done].
    intros [= <-]. apply list_find_Some in Hf as (Hx & _). rewrite Forall_forall in Hh.
    apply Hh. by eapply list_elem_of_lookup_2.
Qed.

Lemma pop_block_shrinks held f f0 f' : fork_wf f → shrinks f0 f → Forall (live f0) held →
  pop_block held f = Ok f' → shrinks f0 f'.
Proof.
  intros Hwf Hs Hh. unfold pop_block. destruct (head f) as [h|] eqn:E; [|done].
  intros Hp. apply rbind_ok in Hp as (p & Hp & [= <-]).
  pose proof Hs as (? & ? & _). split_and!; [done..|]. intros it [= <-].
  destruct (lock_held held f (prev h)) as [x|] eqn:El; [|done]. injection Hp as <-.
  by eapply lock_held_live.
Qed.

Lemma pop_block_wf held f f' : fork_wf f → Forall (live f) held → pop_block held f = Ok f' → fork_wf f'.
Proof.
  intros Hwf Hh Hp. apply (shrinks_wf f); [done|]. eapply pop_block_shrinks; [exact Hwf|apply shrinks_refl|done..].
Qed.

Lemma set_max_size_shrinks f0 f s : shrinks f0 f → shrinks f0 (set_max_size f s).
Proof.
  intros (? & Hi & Hh). unfold set_max_size. destruct (head f) as [h|] eqn:E; split_and!; simpl; try done.
  intros i it ?%erase_below_some. by apply Hi.
Qed.

Lemma remove_shrinks f0 f i : shrinks f0 f → shrinks f0 (remove f i).
Proof. intros (? & Hi & Hh). split_and!; simpl; [done| |done]. intros j it [_ ?]%lookup_delete_Some. by apply Hi. Qed.

Lemma set_head_shrinks f0 f o : shrinks f0 f → (∀ it, o = Some it → live f0 it) → shrinks f0 (set_head f o).
Proof. intros (? & Hi & Hh) Ho. by split_and!. Qed.

(** The items of a database a block was pushed to. *)
Lemma push_block_live f b f' it : push_block f b = Ok f' → live f' it → live f it ∨ data it = b.
Proof.
  unfold push_block, push_item. destruct (head f) as [h|] eqn:Hh.
  - intros Hp. apply rbind_ok in Hp as ([] & _ & Hp). apply rbind_ok in Hp as (x & Hx & Hp).
    assert (data x = b) as Hd.
    { destruct (_ =? 0); [by injection Hx as <-|]. destruct (index f !! _); [|done]. by injection Hx as <-. }
    destruct (num h <? num x); injection Hp as <-; intros [[i Hi]|Hl]; simpl in *.
    + apply erase_below_some, insert_item_some in Hi as [?|[_ ->]]; [left; left; eauto|by right].
    + injection Hl as <-. by right.
    + apply insert_item_some in Hi as [?|[_ ->]]; [left; left; eauto|by right].
    + left. right. congruence.
  - intros [= <-] [[i Hi]|Hl]; simpl in *.
    + apply insert_item_some in Hi as [?|[_ ->]]; [left; left; eauto|by right].
    + injection Hl as <-. by right.
Qed.
End invariant.

(** ** Runs of the fork database *)

Section runs.
Context `{BlockDigest}.

(** The calls of [database]: [set_head] takes an item of the tree.  A block
    is only started with a number of its own, and so is the first pushed
    one; every later push is checked. *)
Inductive fork_step (f : fork_database) : fork_database → Prop :=
  | step_reset : fork_step f (reset f)
  | step_start b : 1 <= block_num b → fork_step f (start_block f b)
  | step_push b f' : (head f = None → 1 <= block_num b) →
      push_block f b = Ok f' → fork_step f f'
  | step_pop held f' : Forall (live f) held → pop_block held f = Ok f' → fork_step f f'
  | step_max s : fork_step f (set_max_size f s)
  | step_head i h : index f !! i = Some h → fork_step f (set_head f (Some h))
  | step_remove i : fork_step f (remove f i).

Inductive fork_reachable : fork_database → Prop :=
  | reach_empty : fork_reachable empty_fork_db
  | reach_step f f' : fork_reachable f → fork_step f f' → fork_reachable f'.

Lemma fork_step_wf f f' : fork_wf f → fork_step f f' → fork_wf f'.
Proof.
  intros Hwf Hs. destruct Hs as [|b Hb|b f' Hb Hp|held f' Hh Hp|s|i h Hi|i].
  - apply (live_shrink f); simpl; [done|lia|done|done].
  - by apply start_block_wf.
  - by eapply push_block_wf.
  - by eapply pop_block_wf.
  - unfold set_max_size. destruct (head f) as [h|] eqn:Hh;
      (apply (live_shrink f); simpl; [done|lia| |]); [|by intros ? [= <-]; right|done|done].
    intros i it. apply erase_below_some.
  - apply (live_shrink f); simpl; [done|lia|done|]. intros it [= <-]. left. eauto.
  - apply (live_shrink f); simpl; [done|lia| |by right].
    by intros j it [_ Hj]%lookup_delete_Some.
Qed.

Lemma fork_reachable_wf f : fork_reachable f → fork_wf f.
Proof.
  induction 1 as [|f f' _ IH Hs]; [|by eapply fork_step_wf].
  assert (∀ it, ¬ live empty_fork_db it) as Hno by (by intros it [[i Hi]|Hh]).
  split.
  - by intros it ?%Hno.
  - done.
  - by intros x y ?%Hno.
  - by intros it a ?%Hno.
Qed.
End runs.

(** ** The branches of a fork switch *)

Section branches.
Context `{BlockDigest}.
Implicit Types (f : fork_database) (a b c it x : fork_item).

(** [c] is reached from an item by its weak pointers. *)
Inductive reaches f : fork_item → fork_item → Prop :=
  | reaches_refl it : reaches f it it
  | reaches_step it p c : lock f (prev it) = Some p → reaches f p c → reaches f it c.

(** Each item of a branch is the child of the next one. *)
Fixpoint linked f (l : list fork_item) : Prop :=
  match l with
  | x :: ((y :: _) as l') => lock f (prev x) = Some y ∧ linked f l'
  | _ => True
  end.

Lemma linked_cons f x y l : linked f (x :: y :: l) ↔ lock f (prev x) = Some y ∧ linked f (y :: l).
Proof. done. Qed.

Lemma reaches_inv f it c :
  reaches f it c → it ≠ c → ∃ p, lock f (prev it) = Some p ∧ reaches f p c.
Proof. destruct 1; eauto. done. Qed.

Lemma reaches_num f it c : fork_wf f → live f it → reaches f it c → num c <= num it.
Proof.
  intros Hwf Hl Hr. induction Hr as [|it p c Hlk Hr IH]; [lia|].
  destruct (lock_parent f it p Hwf Hl Hlk) as (Hp & _ & Hn). specialize (IH Hp). lia.
Qed.

Lemma data_num f it : fork_wf f → live f it → block_num (data it) = num it.
Proof. intros Hwf Hl. by destruct (wf_item f Hwf it Hl) as (-> & _). Qed.

(** What a descent to [target] returns besides the part already collected. *)
Lemma descend_ok f c target fuel it acc :
  fork_wf f → live f it → reaches f it c → num c <= target → num it <= Z.of_nat fuel →
  ∃ l it', descend f fuel it target acc = Ok (acc ++ l, it') ∧
    hd_error (l ++ [it']) = Some it ∧ linked f (l ++ [it']) ∧
    live f it' ∧ reaches f it' c ∧ num it' = Z.min target (num it) ∧
    ∀ x, x ∈ l → target < num x <= num it.
Proof.
  intros Hwf. revert it acc. induction fuel as [|fuel IH]; intros it acc Hl Hr Hc Hfuel.
  { exfalso. destruct (wf_item f Hwf it Hl) as (_ & _ & ? & _). lia. }
  simpl. rewrite (data_num f it Hwf Hl). destruct (Z.ltb_spec target (num it)) as [Hlt|Hge].
  - destruct (reaches_inv f it c Hr) as (p & Hp & Hrp); [intros ->; lia|].
    destruct (lock_parent f it p Hwf Hl Hp) as (Hpl & _ & Hpn). rewrite Hp. simpl.
    destruct (IH p (acc ++ [it]) Hpl Hrp Hc ltac:(lia))
      as (l & it' & Hd & Hhd & Hlk & Hl' & Hr' & Hn' & Hin).
    exists (it :: l), it'. rewrite Hd, <- app_assoc. simpl. split_and!; try done.
    + destruct (l ++ [it']) as [|y r] eqn:He; [done|]. injection Hhd as ->.
      by apply linked_cons.
    + lia.
    + intros x [->|Hx]%elem_of_cons; [lia|]. specialize (Hin x Hx). lia.
  - exists [], it. rewrite app_nil_r. simpl. split_and!; try done; [lia|].
    by intros x ?%elem_of_nil.
Qed.

Lemma descend_both_ok f c fuel a b accA accB :
  fork_wf f → live f a → live f b → num a = num b → reaches f a c → reaches f b c →
  num a <= Z.of_nat fuel →
  ∃ lA lB a' b', descend_both f fuel a b accA accB = Ok (accA ++ lA ++ [a'], accB ++ lB ++ [b']) ∧
    hd_error (lA ++ [a']) = Some a ∧ hd_error (lB ++ [b']) = Some b ∧
    linked f (lA ++ [a']) ∧ linked f (lB ++ [b']) ∧
    previous (data a') = previous (data b') ∧
    (∀ x, x ∈ lA ++ [a'] → num x <= num a) ∧ (∀ x, x ∈ lB ++ [b'] → num x <= num b) ∧
    ∀ x, x ∈ lA ++ [a'] → x ∈ lB ++ [b'] → x = a' ∧ x = b'.
Proof.
  intros Hwf. revert a b accA accB.
  induction fuel as [|fuel IH]; intros a b accA accB Ha Hb Hn HrA HrB Hfuel.
  { exfalso. destruct (wf_item f Hwf a Ha) as (_ & _ & ? & _). lia. }
  simpl. destruct (Z.eqb_spec (previous (data a)) (previous (data b))) as [He|Hne].
  - exists [], [], a, b. simpl. split_and!; try done.
    + intros x ->%list_elem_of_singleton. lia.
    + intros x ->%list_elem_of_singleton. lia.
    + by intros x ->%list_elem_of_singleton ->%list_elem_of_singleton.
  - assert (a ≠ c ∧ b ≠ c) as [HaC HbC].
    { split; intros ->.
      - destruct (reaches_inv f b c HrB) as (p & Hp & Hrp); [congruence|].
        destruct (lock_parent f b p Hwf Hb Hp) as (Hpl & _ & Hpn).
        pose proof (reaches_num f p c Hwf Hpl Hrp). lia.
      - destruct (reaches_inv f a c HrA) as (p & Hp & Hrp); [congruence|].
        destruct (lock_parent f a p Hwf Ha Hp) as (Hpl & _ & Hpn).
        pose proof (reaches_num f p c Hwf Hpl Hrp). lia. }
    destruct (reaches_inv f a c HrA HaC) as (pa & Hpa & HrpA).
    destruct (reaches_inv f b c HrB HbC) as (pb & Hpb & HrpB).
    destruct (lock_parent f a pa Hwf Ha Hpa) as (Hla & _ & Hna).
    destruct (lock_parent f b pb Hwf Hb Hpb) as (Hlb & _ & Hnb).
    rewrite Hpa, Hpb. simpl.
    destruct (IH pa pb (accA ++ [a]) (accB ++ [b]) Hla Hlb ltac:(lia) HrpA HrpB ltac:(lia))
      as (lA & lB & a' & b' & Hd & HhA & HhB & HlA & HlB & Hp & HnA & HnB & Hdis).
    exists (a :: lA), (b :: lB), a', b'. rewrite Hd, <- !app_assoc. simpl. split_and!; try done.
    + destruct (lA ++ [a']); [done|]. injection HhA as ->. by apply linked_cons.
    + destruct (lB ++ [b']); [done|]. injection HhB as ->. by apply linked_cons.
    + intros x [->|Hx]%elem_of_cons; [lia|]. specialize (HnA x Hx). lia.
    + intros x [->|Hx]%elem_of_cons; [lia|]. specialize (HnB x Hx). lia.
    + intros x [->|Hx]%elem_of_cons [->|Hy]%elem_of_cons; [done| | |by apply Hdis].
      * specialize (HnB a Hy). lia.
      * specialize (HnA b Hx). lia.
Qed.

Lemma linked_app f l x r :
  linked f (l ++ [x]) → hd_error r = Some x → linked f r → linked f (l ++ r).
Proof.
  destruct r as [|y r]; [done|]. intros Hl [= ->] Hr. revert Hl.
  induction l as [|z l IH]; [done|]. destruct l as [|w l]; simpl in *.
  - intros [Hz _]. done.
  - intros [Hz Hl]. split; [done|]. by apply IH.
Qed.

Lemma hd_error_app (l : list fork_item) x r :
  hd_error r = Some x → hd_error (l ++ r) = hd_error (l ++ [x]).
Proof. destruct l; [|done]. simpl. done. Qed.

(** In every reachable fork database, for two known blocks with a
    common ancestor still in the tree, [fetch_branch_from] returns (no
    assertion fails, no loop runs on): the branches start with the two
    blocks, follow the parent links, end with blocks on the same previous
    block, and share no block but, at most, their last one. *)
Theorem fetch_branch_from_correct f first second a b c :
  fork_reachable f → index f !! first = Some a → index f !! second = Some b →
  reaches f a c → reaches f b c →
  ∃ brA brB x y, fetch_branch_from f first second = Ok (brA ++ [x], brB ++ [y]) ∧
    hd_error (brA ++ [x]) = Some a ∧ hd_error (brB ++ [y]) = Some b ∧
    linked f (brA ++ [x]) ∧ linked f (brB ++ [y]) ∧
    previous (data x) = previous (data y) ∧
    ∀ z, z ∈ brA ++ [x] → z ∈ brB ++ [y] → z = x ∧ z = y.
Proof.
  intros Hre Ha Hb HrA HrB. apply fork_reachable_wf in Hre as Hwf.
  assert (live f a ∧ live f b) as [Hla Hlb] by (split; left; eauto).
  unfold fetch_branch_from. rewrite Ha, Hb. simpl.
  rewrite (data_num f b Hwf Hlb).
  pose proof (reaches_num f b c Hwf Hlb HrB) as Hcb.
  pose proof (reaches_num f a c Hwf Hla HrA) as Hca.
  set (fuel := Z.to_nat (Z.max (num a) (num b))).
  destruct (descend_ok f c (num b) fuel a [] Hwf Hla HrA Hcb ltac:(lia))
    as (lA & a1 & -> & HhA & HkA & Hla1 & HrA1 & Hn1 & Hin1). simpl.
  rewrite (data_num f a1 Hwf Hla1).
  destruct (descend_ok f c (num a1) fuel b [] Hwf Hlb HrB) as
    (lB & b1 & -> & HhB & HkB & Hlb1 & HrB1 & Hn2 & Hin2); [lia|lia|]. simpl.
  destruct (descend_both_ok f c fuel a1 b1 lA lB Hwf Hla1 Hlb1 ltac:(lia) HrA1 HrB1 ltac:(lia))
    as (mA & mB & x & y & -> & HmA & HmB & HlA & HlB & Hp & HnA & HnB & Hdis).
  exists (lA ++ mA), (lB ++ mB), x, y. rewrite <- !app_assoc. split_and!; try done.
  - by rewrite (hd_error_app lA a1).
  - by rewrite (hd_error_app lB b1).
  - by apply linked_app with a1.
  - by apply linked_app with b1.
  - intros z [Hz|Hz]%elem_of_app [Hw|Hw]%elem_of_app; [| | |by apply Hdis].
    + specialize (Hin1 z Hz). specialize (Hin2 z Hw). lia.
    + specialize (Hin1 z Hz). specialize (HnB z Hw). lia.
    + specialize (HnA z Hz). specialize (Hin2 z Hw). lia.
Qed.

(** *** What is returned is a branch *)

(** Live items, each of which is on the next one. *)
Fixpoint is_branch f (l : list fork_item) : Prop :=
  match l with
  | [] => True
  | x :: l' => live f x ∧ is_branch f l' ∧
      ∀ y, hd_error l' = Some y → previous_id x = id y ∧ num x = num y + 1
  end.

Lemma is_branch_live f l it : is_branch f l → it ∈ l → live f it.
Proof.
  induction l as [|x l IH]; [by intros _ ?%elem_of_nil|].
  intros (Hx & Hl & _) [->|Hi]%elem_of_cons; [done|by apply IH].
Qed.

Lemma is_branch_app f l1 l2 : is_branch f (l1 ++ l2) → is_branch f l1 ∧ is_branch f l2.
Proof.
  induction l1 as [|x l1 IH]; [done|]. intros (Hx & [H1 H2]%IH & Hn). split; [|done].
  split_and!; [done..|]. intros y Hy. apply Hn. by destruct l1.
Qed.

Lemma is_branch_join f l1 l2 x y : is_branch f (l1 ++ [x]) → hd_error l2 = Some y → is_branch f l2 →
  previous_id x = id y → num x = num y + 1 → is_branch f (l1 ++ x :: l2).
Proof.
  intros H1 H2 H3 Hp Hn. induction l1 as [|z l1 IH]; simpl in *.
  - destruct H1 as (Hx & _). split_and!; [done..|]. intros y'. rewrite H2. by intros [= <-].
  - destruct H1 as (Hz & H1 & Hz'). split_and!; [done|by apply IH|]. intros y' Hy'. apply Hz'. by destruct l1.
Qed.

Lemma descend_inv f target fuel it acc r it' : fork_wf f → live f it → descend f fuel it target acc = Ok (r, it') →
  ∃ l, r = acc ++ l ∧ is_branch f (l ++ [it']) ∧ hd_error (l ++ [it']) = Some it.
Proof.
  intros Hwf. revert it acc. induction fuel as [|fuel IH]; intros it acc Hl Hd; simpl in Hd.
  { destruct (_ <? _); [done|]. injection Hd as <- <-. exists []. by rewrite app_nil_r. }
  destruct (_ <? _); [|injection Hd as <- <-; exists []; by rewrite app_nil_r].
  apply rbind_ok in Hd as (p & Hp & Hd). destruct (lock f (prev it)) as [p'|] eqn:E; [|done]. injection Hp as ->.
  destruct (lock_parent f it p Hwf Hl E) as (Hlp & Hid & Hn).
  destruct (IH _ _ Hlp Hd) as (l & -> & Hb & Hh). exists (it :: l). rewrite <- app_assoc. split_and!; [done| |done].
  cbn [app]. change (it :: l ++ [it']) with ([] ++ it :: (l ++ [it'])).
  eapply is_branch_join; [|exact Hh|exact Hb|done|lia]. by split_and!.
Qed.

Lemma descend_both_inv f fuel a b accA accB rA rB : fork_wf f → live f a → live f b →
  descend_both f fuel a b accA accB = Ok (rA, rB) →
  ∃ lA x lB y, rA = accA ++ lA ++ [x] ∧ rB = accB ++ lB ++ [y] ∧
    is_branch f (lA ++ [x]) ∧ hd_error (lA ++ [x]) = Some a ∧
    is_branch f (lB ++ [y]) ∧ hd_error (lB ++ [y]) = Some b ∧ previous (data x) = previous (data y).
Proof.
  intros Hwf. revert a b accA accB. induction fuel as [|fuel IH]; intros a b accA accB Ha Hb Hd; simpl in Hd;
    (destruct (Z.eqb_spec (previous (data a)) (previous (data b))) as [He|He];
     [injection Hd as <- <-; exists [], a, [], b; split_and!; done|]); [done|].
  apply rbind_ok in Hd as (a' & Ha' & Hd). destruct (lock f (prev a)) as [pa|] eqn:EA; [|done]. injection Ha' as ->.
  apply rbind_ok in Hd as (b' & Hb' & Hd). destruct (lock f (prev b)) as [pb|] eqn:EB; [|done]. injection Hb' as ->.
  destruct (lock_parent f a a' Hwf Ha EA) as (Hla & Hia & Hna).
  destruct (lock_parent f b b' Hwf Hb EB) as (Hlb & Hib & Hnb).
  destruct (IH _ _ _ _ Hla Hlb Hd) as (lA & x & lB & y & -> & -> & HA & HhA & HB & HhB & Hp).
  exists (a :: lA), x, (b :: lB), y. rewrite <- !app_assoc. split_and!; try done.
  - change (is_branch f ([] ++ a :: (lA ++ [x]))). eapply is_branch_join; [|exact HhA|exact HA|done|lia]. by split_and!.
  - change (is_branch f ([] ++ b :: (lB ++ [y]))). eapply is_branch_join; [|exact HhB|exact HB|done|lia]. by split_and!.
Qed.

Lemma branch_glue f l1 x l2 : is_branch f (l1 ++ [x]) → is_branch f l2 → hd_error l2 = Some x →
  is_branch f (l1 ++ l2) ∧ hd_error (l1 ++ l2) = hd_error (l1 ++ [x]).
Proof.
  intros H1 H2 Hh. split; [|by apply hd_error_app].
  destruct l2 as [|y l2]; [done|]. injection Hh as ->.
  induction l1 as [|z l1 IH]; [done|]. destruct H1 as (Hz & H1 & Hz'). split_and!; [done|by apply IH|].
  intros y' Hy'. apply Hz'. by destruct l1.
Qed.

(** The two branches start at the two blocks and end on the same block. *)
Lemma fetch_branch_inv f first second brA brB : fork_wf f → fetch_branch_from f first second = Ok (brA, brB) →
  ∃ lA x lB y, brA = lA ++ [x] ∧ brB = lB ++ [y] ∧ is_branch f brA ∧ is_branch f brB ∧
    id <$> hd_error brA = Some first ∧ id <$> hd_error brB = Some second ∧ previous (data x) = previous (data y).
Proof.
  intros Hwf Hd. unfold fetch_branch_from in Hd.
  apply rbind_ok in Hd as (a & Ha & Hd). destruct (index f !! first) as [a'|] eqn:EA; [|done]. injection Ha as ->.
  apply rbind_ok in Hd as (b & Hb & Hd). destruct (index f !! second) as [b'|] eqn:EB; [|done]. injection Hb as ->.
  assert (live f a ∧ live f b) as [Hla Hlb] by (split; left; eauto).
  cbv zeta in Hd. apply rbind_ok in Hd as ([accA a1] & HA & Hd). apply rbind_ok in Hd as ([accB b1] & HB & Hd).
  apply descend_inv in HA as (l1 & -> & B1 & H1); [|done..]. apply descend_inv in HB as (l2 & -> & B2 & H2); [|done..].
  assert (live f a1 ∧ live f b1) as [Hla1 Hlb1].
  { split; [eapply (is_branch_live f (l1 ++ [a1]))|eapply (is_branch_live f (l2 ++ [b1]))]; try done;
      apply elem_of_app; right; by apply list_elem_of_singleton. }
  apply descend_both_inv in Hd as (lA & x & lB & y & -> & -> & B3 & H3 & B4 & H4 & Hp); [|done..].
  destruct (branch_glue f l1 a1 (lA ++ [x]) B1 B3 H3) as [B5 H5].
  destruct (branch_glue f l2 b1 (lB ++ [y]) B2 B4 H4) as [B6 H6].
  exists (l1 ++ lA), x, (l2 ++ lB), y. simpl in *. rewrite <- !app_assoc. split_and!; try done.
  - rewrite H5, H1. simpl. f_equal. by apply (wf_key f Hwf).
  - rewrite H6, H2. simpl. f_equal. by apply (wf_key f Hwf).
Qed.

(** The block a branch stands on is none of its blocks. *)
Lemma branch_above f l x it : fork_wf f → is_branch f (l ++ [x]) → it ∈ l ++ [x] →
  block_id (data it) ≠ previous (data x).
Proof.
  intros Hwf Hb Hi.
  assert (∀ y, live f y → num_from_id (block_id (data y)) = num y ∧ num_from_id (previous (data y)) = num y - 1) as Hnum.
  { intros y Hy. destruct (wf_item f Hwf y Hy) as (Hn & _ & H1 & _). rewrite num_block_id. split; [done|].
    unfold block_num in Hn. pose proof (wrap_u32_range (Z.shiftr (previous (data y)) 128)) as Hr.
    fold (num_from_id (previous (data y))) in Hr. destruct (decide (num_from_id (previous (data y)) + 1 = 2 ^ 32)) as [He|].
    - rewrite He in Hn. change (wrap_u32 (2 ^ 32)) with 0 in Hn. lia.
    - rewrite wrap_u32_small in Hn by lia. lia. }
  assert (num x <= num it) as Hle.
  { clear Hnum. revert it Hi. induction l as [|z l IH]; intros it Hi.
    - apply list_elem_of_singleton in Hi as ->. lia.
    - destruct Hb as (Hz & Hb & Hz'). cbn [app] in Hi. apply elem_of_cons in Hi as [->|Hi]; [|by apply IH].
      destruct (l ++ [x]) as [|y r] eqn:E; [by destruct l|]. destruct (Hz' y eq_refl) as [_ Hn].
      enough (num x <= num y) by lia. apply IH; [done|left]. }
  destruct (Hnum it) as [H1 _]; [by eapply is_branch_live|].
  destruct (Hnum x) as [_ H2]; [eapply is_branch_live; [exact Hb|set_solver]|].
  intros He. rewrite He in H1. lia.
Qed.
End branches.

(** ** Pushing a block *)

Section pushing.
Context `{BlockDigest}.

Lemma insert_item_self m it : is_Some (insert_item m it !! id it).
Proof.
  unfold insert_item. destruct (m !! id it) eqn:Hm; [by rewrite Hm|].
  rewrite lookup_insert_eq. eauto.
Qed.

Lemma insert_item_keeps m it i x : m !! i = Some x → insert_item m it !! i = Some x.
Proof.
  unfold insert_item. intros Hx. destruct (m !! id it) eqn:Hm; [done|].
  rewrite lookup_insert_ne; [done|]. congruence.
Qed.

(** The lowest number the window keeps. *)
Definition window f : Z :=
  match head f with Some h => Z.max 0 (num h - max_size f) | None => 0 end.

(** What a longer chain leaves in the index. *)
Lemma erased_lookup (m : gmap Z fork_item) n k i x :
  erase_below m (n - Z.min k n) !! i = Some x ↔ m !! i = Some x ∧ n - k <= num x ∧ 0 <= num x.
Proof.
  unfold erase_below. rewrite map_lookup_filter_Some. simpl.
  split; intros [Hx Hnx]; (split; [done|lia]).
Qed.

Lemma insert_item_num f it y :
  fork_wf f → num it = block_num (data it) → id it = block_id (data it) →
  insert_item (index f) it !! id it = Some y → num y = num it.
Proof.
  intros Hwf Hn Hi Hy. destruct (insert_item_some _ _ _ _ Hy) as [Hold|[_ ->]]; [|done].
  destruct (wf_item f Hwf y) as (Hyn & Hyi & _); [left; eauto|].
  rewrite Hyn, <- num_block_id, <- Hyi, (wf_key f Hwf _ _ Hold), Hi, Hn. apply num_block_id.
Qed.

(** Pushing a block on a reachable fork database with a head: it is
    refused exactly when its number lies below the cached window or its
    parent is unknown; otherwise it becomes known, the head is the block
    with the higher number (the old head on a tie), the blocks inside the
    new window stay and, when the head moved, no other block is left. *)
Theorem push_block_correct f h b :
  fork_reachable f → head f = Some h → 0 <= max_size f →
  match push_block f b with
  | Throw e =>
      (e = assert_exception ∧ block_num b <= window f) ∨
      (e = unlinkable_block_exception ∧ previous b ≠ 0 ∧ index f !! previous b = None)
  | Ok f' =>
      window f < block_num b ∧ (previous b = 0 ∨ is_Some (index f !! previous b)) ∧
      is_known_block f' (block_id b) = true ∧
      (∃ h', head f' = Some h' ∧ num h' = Z.max (num h) (block_num b) ∧
         (block_num b <= num h → h' = h) ∧ (num h < block_num b → data h' = b)) ∧
      (∀ i x, index f !! i = Some x → window f' <= num x → index f' !! i = Some x) ∧
      (num h < block_num b → ∀ i x, index f' !! i = Some x → window f' <= num x)
  end.
Proof.
  intros Hre Hh Hm. apply fork_reachable_wf in Hre as Hwf.
  assert (window f = Z.max 0 (num h - max_size f)) as -> by (unfold window; by rewrite Hh).
  unfold push_block, push_item. rewrite Hh.
  change (num (new_item f b)) with (block_num b).
  change (previous_id (new_item f b)) with (previous b).
  destruct (Z.ltb_spec (Z.max 0 (num h - max_size f)) (block_num b)) as [Hw|Hw];
    cbn [rbind require]; [|by left].
  set (linkable := if previous b =? 0 then _ else _).
  assert (match linkable with
    | Ok it => (previous b = 0 ∨ is_Some (index f !! previous b)) ∧
               num it = block_num b ∧ id it = block_id b ∧ data it = b
    | Throw e => e = unlinkable_block_exception ∧ previous b ≠ 0 ∧ index f !! previous b = None
    end) as Hlink.
  { unfold linkable. destruct (Z.eqb_spec (previous b) 0); [by split_and!; [left|..]|].
    destruct (index f !! previous b) as [p|]; [|done]. split_and!; eauto. }
  destruct linkable as [it|e]; [|by right]. cbn [rbind].
  destruct Hlink as (Hlink & Hn & Hi & Hd). rewrite Hn.
  destruct (Z.ltb_spec (num h) (block_num b)) as [Hgt|Hle].
  - destruct (insert_item_self (index f) it) as [y Hy].
    assert (num y = block_num b) as Hny.
    { rewrite <- Hn. eapply insert_item_num; [done|by rewrite Hd|by rewrite Hd|done]. }
    rewrite Hi in Hy.
    split_and!; [done|done| | | |].
    + unfold is_known_block. rewrite bool_decide_true; [done|]. exists y. apply erased_lookup.
      split; [done|lia].
    + exists it. split_and!; try done; lia.
    + unfold window; simpl. rewrite Hn. intros i x Hx Hwx. apply erased_lookup.
      split; [by apply insert_item_keeps|lia].
    + unfold window; simpl. rewrite Hn. intros _ i x Hx%erased_lookup. lia.
  - split_and!; [done|done| | | |].
    + unfold is_known_block. rewrite bool_decide_true; [done|]. cbn [index]. rewrite <- Hi.
      apply insert_item_self.
    + exists h. split_and!; try done; lia.
    + intros i x Hx _. by apply insert_item_keeps.
    + lia.
Qed.
End pushing.

(** ** A concrete tree *)

Definition sample_digest : BlockDigest := {| sha224 b := Z.shiftl (body b) 64 |}.
#[local] Existing Instance sample_digest.

Definition block1 : signed_block := mkBlock 0 11.
Definition block2 : signed_block := mkBlock (block_id block1) 12.
Definition block3 : signed_block := mkBlock (block_id block2) 13.
Definition block2' : signed_block := mkBlock (block_id block1) 22.

Definition sample_forks : fork_database :=
  get_ok (rfold push_block empty_fork_db [block1; block2; block3; block2']) empty_fork_db.

Lemma sample_forks_reachable : fork_reachable sample_forks.
Proof.
  unfold sample_forks.
  set (f1 := get_ok (push_block empty_fork_db block1) empty_fork_db).
  set (f2 := get_ok (push_block f1 block2) empty_fork_db).
  set (f3 := get_ok (push_block f2 block3) empty_fork_db).
  set (f4 := get_ok (push_block f3 block2') empty_fork_db).
  replace (get_ok _ _) with f4 by (vm_compute; reflexivity).
  apply reach_step with f3; [apply reach_step with f2; [apply reach_step with f1;
    [apply reach_step with empty_fork_db; [apply reach_empty|]|]|]|].
  - apply step_push with block1; [intros _; vm_compute; discriminate|].
    apply get_ok_eq. vm_compute. reflexivity.
  - apply step_push with block2; [intros _; vm_compute; discriminate|].
    apply get_ok_eq. vm_compute. reflexivity.
  - apply step_push with block3; [intros _; vm_compute; discriminate|].
    apply get_ok_eq. vm_compute. reflexivity.
  - apply step_push with block2'; [intros _; vm_compute; discriminate|].
    apply get_ok_eq. vm_compute. reflexivity.
Qed.

Definition item_of (b : signed_block) : fork_item :=
  default (mkItem 0 None 0 0 b) (index sample_forks !! block_id b).

Lemma fetch_branch_from_correct_witness :
  ∃ brA brB x y, fetch_branch_from sample_forks (block_id block3) (block_id block2') =
      Ok (brA ++ [x], brB ++ [y]) ∧
    hd_error (brA ++ [x]) = Some (item_of block3) ∧
    hd_error (brB ++ [y]) = Some (item_of block2') ∧
    linked sample_forks (brA ++ [x]) ∧ linked sample_forks (brB ++ [y]) ∧
    previous (data x) = previous (data y) ∧
    ∀ z, z ∈ brA ++ [x] → z ∈ brB ++ [y] → z = x ∧ z = y.
Proof.
  apply (fetch_branch_from_correct sample_forks (block_id block3) (block_id block2')
    (item_of block3) (item_of block2') (item_of block1)).
  - apply sample_forks_reachable.
  - vm_compute. reflexivity.
  - vm_compute. reflexivity.
  - apply reaches_step with (item_of block2); [vm_compute; reflexivity|].
    apply reaches_step with (item_of block1); [vm_compute; reflexivity|]. apply reaches_refl.
  - apply reaches_step with (item_of block1); [vm_compute; reflexivity|]. apply reaches_refl.
Defined.

(** The branches of the example: blocks 3 and 2 against the other block 2. *)
Example sample_branches :
  fetch_branch_from sample_forks (block_id block3) (block_id block2') =
  Ok ([item_of block3; item_of block2], [item_of block2']).
Proof. vm_compute. reflexivity. Qed.

Lemma push_block_correct_witness :
  match push_block sample_forks (mkBlock (block_id block3) 14) with
  | Throw _ => False
  | Ok f' => ∃ h', head f' = Some h' ∧ num h' = 4
  end.
Proof.
  pose proof (push_block_correct sample_forks (item_of block3) (mkBlock (block_id block3) 14)
    sample_forks_reachable ltac:(vm_compute; reflexivity) ltac:(vm_compute; discriminate)) as H.
  destruct (push_block sample_forks (mkBlock (block_id block3) 14)) as [f'|e] eqn:E.
  - destruct H as (_ & _ & _ & (h' & Hh & Hn & _) & _). exists h'. split; [exact Hh|].
    rewrite Hn. vm_compute. reflexivity.
  - revert E. vm_compute. discriminate.
Defined.
