(* ===== verification/BlockStore.v ===== *)
(** * Block storage ([chain/block_database.cpp])

    The block log and its index file.  The log is the list of the blocks
    written so far, a position is a place in it; the index file is a list of
    entries by block number, which a write beyond its end fills up with empty
    entries.  The size of a serialised block is a parameter; unpacking the
    bytes of a written block gives that block back. *)

From stdpp Require Import gmap list.
From Stdlib Require Import ZArith Lia.
From S2P Require Import Prelude ForkDb.

Local Open Scope Z_scope.

Record index_entry := mkEntry {
  block_pos : nat;
  block_size : Z;
  entry_id : Z
}.
Definition empty_entry : index_entry := mkEntry 0 0 0.

Record block_database := mkStore {
  block_num_to_pos : list index_entry;
  blocks : list signed_block
}.
Definition empty_store : block_database := mkStore [] [].

(** Size of a packed block. *)
Class BlockPack := { pack_size : signed_block → Z; pack_size_pos : ∀ b, 0 < pack_size b }.

Section store.
Context `{BlockDigest} `{BlockPack}.

(** [seekp] past the end and [write]. *)
Definition write_entry (l : list index_entry) (n : nat) (e : index_entry) : list index_entry :=
  <[n := e]> (l ++ replicate (S n - length l) empty_entry).

Definition store (d : block_database) (i : Z) (b : signed_block) : block_database :=
  let i := if i =? 0 then block_id b else i in
  mkStore (write_entry (block_num_to_pos d) (Z.to_nat (num_from_id i))
             (mkEntry (length (blocks d)) (pack_size b) i))
    (blocks d ++ [b]).

Definition entry_at (d : block_database) (n : Z) : option index_entry :=
  block_num_to_pos d !! Z.to_nat n.

Definition store_remove (d : block_database) (i : Z) : result block_database :=
  let* e := of_option unknown_object (entry_at d (num_from_id i)) in
  Ok (if entry_id e =? i
      then mkStore (<[Z.to_nat (num_from_id i) := mkEntry (block_pos e) 0 (entry_id e)]>
                      (block_num_to_pos d)) (blocks d)
      else d).

Definition contains (d : block_database) (i : Z) : bool :=
  if i =? 0 then false
  else match entry_at d (num_from_id i) with
       | None => false
       | Some e => (entry_id e =? i) && (0 <? block_size e)
       end.

Definition fetch_block_id (d : block_database) (n : Z) : result Z :=
  let* e := of_option unknown_object (entry_at d n) in
  FC_ASSERT (negb (entry_id e =? 0)) ;;
  Ok (entry_id e).

(** The block of an entry; an entry without bytes does not unpack, and the
    block read must have the id of the entry. *)
Definition read_entry (d : block_database) (e : index_entry) : option signed_block :=
  if block_size e =? 0 then None
  else
    b ← blocks d !! block_pos e;
    if block_id b =? entry_id e then Some b else None.

Definition fetch_optional (d : block_database) (i : Z) : option signed_block :=
  e ← entry_at d (num_from_id i);
  if entry_id e =? i then read_entry d e else None.

Definition fetch_by_number (d : block_database) (n : Z) : option signed_block :=
  e ← entry_at d n; read_entry d e.

(** [last_index_entry]: from the end, entries that cannot be read are cut off
    the index file. *)
Fixpoint last_entry (d : block_database) (n : nat) : option index_entry * nat :=
  match n with
  | O => (None, O)
  | S n' =>
      match block_num_to_pos d !! n' with
      | Some e => if bool_decide (is_Some (read_entry d e)) then (Some e, n) else last_entry d n'
      | None => last_entry d n'
      end
  end.
Definition last_index_entry (d : block_database) : option index_entry * block_database :=
  let (e, n) := last_entry d (length (block_num_to_pos d)) in
  (e, mkStore (take n (block_num_to_pos d)) (blocks d)).

Definition last_id (d : block_database) : option Z * block_database :=
  let (e, d') := last_index_entry d in (entry_id <$> e, d').
Definition last_block (d : block_database) : option signed_block * block_database :=
  let (e, d') := last_index_entry d in
  (e ← e; fetch_by_number d' (num_from_id (entry_id e)), d').
End store.

(** ** What is stored is found again *)

Section properties.
Context `{BlockDigest} `{BlockPack}.

Lemma write_entry_lookup l n e m :
  write_entry l n e !! m =
    if decide (m = n) then Some e
    else if decide (m < length l)%nat then l !! m
    else if decide (m < n)%nat then Some empty_entry else None.
Proof.
  unfold write_entry. case_decide as E.
  { subst. apply list_lookup_insert_eq. rewrite length_app, length_replicate. lia. }
  rewrite list_lookup_insert_ne by done. case_decide.
  - by rewrite lookup_app_l.
  - rewrite lookup_app_r by lia. case_decide.
    + apply lookup_replicate. split; [done|lia].
    + apply lookup_replicate_None. lia.
Qed.

Lemma num_from_id_nonneg i : 0 <= num_from_id i.
Proof. unfold num_from_id. apply wrap_u32_range. Qed.

(** The log only grows. *)
Definition log_wf (d : block_database) : Prop :=
  Forall (λ e, (block_pos e < length (blocks d))%nat ∨ block_size e = 0) (block_num_to_pos d).

Lemma store_log_wf d i b : log_wf d → log_wf (store d i b).
Proof.
  unfold log_wf, store. cbv zeta. cbn [block_num_to_pos blocks]. intros Hd. apply Forall_lookup. intros m e.
  rewrite write_entry_lookup, length_app. cbn [length]. case_decide.
  { intros [= <-]. cbn [block_pos]. left. lia. }
  case_decide; [intros He|case_decide; [intros [= <-]; by right|done]].
  rewrite Forall_lookup in Hd. destruct (Hd m e He); [left; lia|by right].
Qed.

Lemma read_entry_store d i b e :
  (block_pos e < length (blocks d))%nat ∨ block_size e = 0 →
  read_entry (store d i b) e = read_entry d e.
Proof.
  intros He. unfold read_entry, store. cbv zeta. cbn [blocks]. destruct (Z.eqb_spec (block_size e) 0); [done|].
  rewrite lookup_app_l; [done|]. by destruct He.
Qed.

(** Storing a block under its own id: it is found by its id and by its
    number, and every other number is as before. *)
Lemma store_fetch d b :
  log_wf d → block_id b ≠ 0 →
  fetch_optional (store d (block_id b) b) (block_id b) = Some b ∧
  fetch_by_number (store d (block_id b) b) (num_from_id (block_id b)) = Some b ∧
  contains (store d (block_id b) b) (block_id b) = true ∧
  ∀ n, 0 <= n → n ≠ num_from_id (block_id b) →
    fetch_by_number (store d (block_id b) b) n = fetch_by_number d n.
Proof.
  intros Hd Hb. pose proof (num_from_id_nonneg (block_id b)) as Hn.
  set (i := block_id b) in *. set (e := mkEntry (length (blocks d)) (pack_size b) i).
  assert (entry_at (store d i b) (num_from_id i) = Some e) as He.
  { unfold entry_at, store. cbv zeta. cbn [block_num_to_pos]. rewrite (proj2 (Z.eqb_neq i 0)) by done.
    by rewrite write_entry_lookup, decide_True. }
  assert (read_entry (store d i b) e = Some b) as Hr.
  { unfold read_entry, store, e. cbv zeta. cbn [block_size block_pos entry_id blocks]. pose proof (pack_size_pos b).
    rewrite (proj2 (Z.eqb_neq (pack_size b) 0)) by lia.
    rewrite lookup_app_r, Nat.sub_diag by lia. cbn. by rewrite Z.eqb_refl. }
  split_and!.
  - unfold fetch_optional. rewrite He. cbn [mbind option_bind]. subst e. cbn [entry_id]. by rewrite Z.eqb_refl.
  - unfold fetch_by_number. by rewrite He.
  - unfold contains. rewrite (proj2 (Z.eqb_neq i 0)), He by done. subst e. cbn [entry_id block_size]. rewrite Z.eqb_refl.
    apply Z.ltb_lt, pack_size_pos.
  - intros n Hn0 Hne. unfold fetch_by_number, entry_at. unfold store at 2. cbv zeta.
    cbn [block_num_to_pos]. rewrite (proj2 (Z.eqb_neq i 0)) by done.
    rewrite write_entry_lookup, decide_False by lia.
    destruct (block_num_to_pos d !! Z.to_nat n) as [x|] eqn:E.
    + rewrite decide_True by (by eapply lookup_lt_Some). cbn [mbind option_bind]. apply read_entry_store.
      unfold log_wf in Hd. rewrite Forall_lookup in Hd. by eapply Hd.
    + rewrite decide_False by (by apply lookup_ge_None in E; lia).
      case_decide; [|done]. simpl. done.
Qed.
End properties.
