(* ===== verification/BlockChain.v ===== *)
(** * Pushing and popping blocks ([db_block.cpp], [db_with.hpp])

    How a node keeps its chain: the state of the head block with the undo
    history, the fork database, the block storage, and the pending
    transactions.  Applying a block or a transaction to the state is an
    interface; the undo history is the stack of the states before each block,
    which is what the undo database implements ([UndoRefine]), cut off at its
    old end when a session is opened and it is longer than its limit.  The
    limit, and that of the fork database, are set while a block is applied;
    this is not undone when the block fails.  An exception
    leaves the changes made to the fork database and the storage in place, so
    a step returns a node in every case. *)

From stdpp Require Import gmap list.
From Stdlib Require Import ZArith Lia.
From S2P Require Import Prelude ForkDb BlockStore.

Local Open Scope Z_scope.

(** ** The state of the chain, as block processing sees it *)

(** What an application does to the histories of the node: it opens an undo
    session inside [inner] others of its own (executed proposals, closed
    escrows, deleted listings), or it sets the maximum sizes of the undo
    history and of the fork database. *)
Inductive history_event :=
  | session_opened (inner : nat)
  | history_limited (n : Z).

(** The events are those up to where the application ends, also when it
    fails. *)
Class ChainState (S Tx : Type) := {
  head_block_id : S → Z;
  chain_apply_block : S → signed_block → result S;     (* [apply_block] *)
  chain_apply_transaction : S → Tx → result S;         (* [_apply_transaction] *)
  chain_block_history : S → signed_block → list history_event;
  chain_transaction_history : S → Tx → list history_event;
  is_known_transaction : S → Tx → bool;
  transactions : signed_block → list Tx
}.

(** An applied block builds on the head and becomes the head
    ([validate_block_header], [update_global_dynamic_data]). *)
Class ChainStateLaws (S Tx : Type) `{BlockDigest} `{!ChainState S Tx} : Prop :=
  chain_apply_head s b s' :
    chain_apply_block s b = Ok s' → head_block_id s = previous b ∧ head_block_id s' = block_id b.

Record node (S Tx : Type) := mkNode {
  nd_state : S;                      (* at the head block *)
  nd_undo : list S;                  (* before each block that can be undone *)
  nd_max_undo : Z;                   (* the [max_size] of the undo database *)
  nd_fork : fork_database;
  nd_store : block_database;
  nd_pending : option S;             (* [_pending_tx_session] *)
  nd_pending_tx : list Tx;
  nd_popped_tx : list Tx
}.
Arguments mkNode {S Tx}.
Arguments nd_state {S Tx}.
Arguments nd_undo {S Tx}.
Arguments nd_max_undo {S Tx}.
Arguments nd_fork {S Tx}.
Arguments nd_store {S Tx}.
Arguments nd_pending {S Tx}.
Arguments nd_pending_tx {S Tx}.
Arguments nd_popped_tx {S Tx}.

(** A step ends with a node, normally or with an exception. *)
Definition step (S Tx A : Type) : Type := node S Tx → node S Tx * result A.

Section chain.
Context `{BlockDigest} `{BlockPack} {S Tx : Type} `{!ChainState S Tx}.
Implicit Types (n : node S Tx).

Definition sret {A} (a : A) : step S Tx A := λ n, (n, Ok a).
Definition sthrow {A} (e : exn) : step S Tx A := λ n, (n, Throw e).
Definition sbind {A B} (c : step S Tx A) (k : A → step S Tx B) : step S Tx B := λ n,
  let '(n', r) := c n in
  match r with Ok a => k a n' | Throw e => (n', Throw e) end.

Notation "'do*' x ':=' c 'in' k" := (sbind c (fun x => k))
  (at level 10, x pattern, c at level 100, k at level 200).

Definition get : step S Tx (node S Tx) := λ n, (n, Ok n).
Definition set_fork (f : fork_database) : step S Tx unit := λ n,
  (mkNode (nd_state n) (nd_undo n) (nd_max_undo n) f (nd_store n) (nd_pending n) (nd_pending_tx n) (nd_popped_tx n), Ok tt).
Definition set_store (d : block_database) : step S Tx unit := λ n,
  (mkNode (nd_state n) (nd_undo n) (nd_max_undo n) (nd_fork n) d (nd_pending n) (nd_pending_tx n) (nd_popped_tx n), Ok tt).
Definition set_chain (s : S) (undo : list S) : step S Tx unit := λ n,
  (mkNode s undo (nd_max_undo n) (nd_fork n) (nd_store n) (nd_pending n) (nd_pending_tx n) (nd_popped_tx n), Ok tt).
Definition set_max_undo (m : Z) : step S Tx unit := λ n,
  (mkNode (nd_state n) (nd_undo n) m (nd_fork n) (nd_store n) (nd_pending n) (nd_pending_tx n) (nd_popped_tx n), Ok tt).
Definition set_pending (p : option S) (txs : list Tx) : step S Tx unit := λ n,
  (mkNode (nd_state n) (nd_undo n) (nd_max_undo n) (nd_fork n) (nd_store n) p txs (nd_popped_tx n), Ok tt).
Definition set_popped (txs : list Tx) : step S Tx unit := λ n,
  (mkNode (nd_state n) (nd_undo n) (nd_max_undo n) (nd_fork n) (nd_store n) (nd_pending n) (nd_pending_tx n) txs, Ok tt).
Definition lift {A} (r : result A) : step S Tx A := λ n, (n, r).

Fixpoint each {A} (f : A → step S Tx unit) (l : list A) : step S Tx unit :=
  match l with
  | [] => sret tt
  | x :: l' => do* _ := f x in each f l'
  end.

(** ** Sessions

    [start_undo_session] while [active] sessions are open: the stack holds the
    committed states and one of each open session; its front, the oldest
    state, is dropped while it is longer than the maximum.  Were the maximum
    less than the number of open sessions, the state of an open session would
    be dropped. *)
Definition open_session (active : nat) : step S Tx unit :=
  do* n := get in
  if Z.of_nat (length (nd_undo n) + active) <=? nd_max_undo n then sret tt
  else if nd_max_undo n <? Z.of_nat active then sthrow undefined_behaviour
  else set_chain (nd_state n) (take (Z.to_nat (nd_max_undo n) - active) (nd_undo n)).

Definition react (active : nat) (e : history_event) : step S Tx unit :=
  match e with
  | session_opened inner => open_session (active + inner)
  | history_limited m =>
      do* _ := set_max_undo m in
      do* n := get in
      set_fork (set_max_size (nd_fork n) m)
  end.

(** Without a pending state no session is open between two steps. *)
Definition active_sessions (n : node S Tx) : nat :=
  match nd_pending n with Some _ => 1 | None => 0 end.

(** ** Popping *)

Definition fetch_block_by_id (n : node S Tx) (i : Z) : option signed_block :=
  match fetch_block (nd_fork n) i with
  | Some it => Some (data it)
  | None => fetch_optional (nd_store n) i
  end.

(** [held] are the items of the fork database that the caller keeps alive. *)
Definition database_pop_block (held : list fork_item) : step S Tx unit :=
  do* n := get in
  do* _ := set_pending None (nd_pending_tx n) in
  do* b := lift (of_option thrown (fetch_block_by_id n (head_block_id (nd_state n)))) in
  do* f := lift (ForkDb.pop_block held (nd_fork n)) in
  do* _ := set_fork f in
  do* _ := match nd_undo n with
           | [] => sthrow undo_database_exception
           | s :: undo => set_chain s undo
           end in
  set_popped (transactions b ++ nd_popped_tx n).

(** [while( head_block_id() != target ) pop_block()]: every round takes a
    state off the undo history, or throws. *)
Fixpoint pop_until (held : list fork_item) (fuel : nat) (target : Z) : step S Tx unit :=
  do* n := get in
  if head_block_id (nd_state n) =? target then sret tt
  else match fuel with
  | O => sthrow undo_database_exception
  | Datatypes.S fuel' => do* _ := database_pop_block held in pop_until held fuel' target
  end.
Definition pop_to (held : list fork_item) (target : Z) : step S Tx unit :=
  do* n := get in pop_until held (Datatypes.S (length (nd_undo n))) target.

(** ** Pushing *)

(** A session around [apply_block]; on success the block is stored as [i] and
    the session is committed. *)
Definition apply_and_store (i : Z) (b : signed_block) : step S Tx unit :=
  do* n := get in
  do* _ := open_session (active_sessions n) in
  do* _ := each (react (Datatypes.S (active_sessions n))) (chain_block_history (nd_state n) b) in
  do* s := lift (chain_apply_block (nd_state n) b) in
  do* _ := set_store (store (nd_store n) i b) in
  do* n' := get in
  set_chain s (nd_state n :: nd_undo n').

(** The handler of a failed switch: [rest] are the blocks of the new fork from
    the failed one on, [old] the branch of the old head, newest first. *)
Definition restore_fork (held : list fork_item) (new_block : signed_block) (rest old : list fork_item) (target : Z)
    (e : exn) : step S Tx unit :=
  do* n := get in
  do* _ := set_fork (ForkDb.set_head (foldl (λ f it, ForkDb.remove f (block_id (data it))) (nd_fork n) rest)
                       (hd_error old)) in
  do* _ := pop_to held target in
  do* _ := each (λ it, apply_and_store (block_id new_block) (data it)) (rev old) in
  sthrow e.

(** The blocks of the new fork, oldest first. *)
Fixpoint switch_to (held : list fork_item) (new_block : signed_block) (blocks_ old : list fork_item) (target : Z)
    : step S Tx unit :=
  match blocks_ with
  | [] => sret tt
  | it :: blocks' => λ n,
      let '(n', r) := apply_and_store (id it) (data it) n in
      match r with
      | Ok _ => switch_to held new_block blocks' old target n'
      | Throw e =>
          if catchable e then restore_fork held new_block blocks_ old target e n' else (n', Throw e)
      end
  end.

(** [branch.back()->data.previous]. *)
Definition fork_target (branch : list fork_item) : result Z :=
  of_option undefined_behaviour ((λ it, previous (data it)) <$> last branch).

(** [_push_block], with the fork database in use: true when the node switched
    forks.  The two branches keep their items alive. *)
Definition push_block_inner (new_block : signed_block) : step S Tx bool :=
  do* n := get in
  do* f := lift (ForkDb.push_block (nd_fork n) new_block) in
  do* _ := set_fork f in
  do* new_head := lift (of_option undefined_behaviour (ForkDb.head f)) in
  if negb (previous (data new_head) =? head_block_id (nd_state n)) then
    if num_from_id (head_block_id (nd_state n)) <? block_num (data new_head) then
      do* (first, second) :=
        lift (fetch_branch_from f (block_id (data new_head)) (head_block_id (nd_state n))) in
      do* target := lift (fork_target second) in
      do* _ := pop_to (first ++ second) target in
      do* _ := switch_to (first ++ second) new_block (rev first) second target in
      sret true
    else sret false
  else λ n,
    let '(n', r) := apply_and_store (block_id new_block) new_block n in
    match r with
    | Ok _ => (n', Ok false)
    | Throw e =>
        if catchable e
        then (do* _ := set_fork (ForkDb.remove (nd_fork n') (block_id new_block)) in sthrow e) n'
        else (n', Throw e)
    end.

(** ** Pending transactions *)

(** [_push_transaction]: the session of the pending state, opened if there is
    none, and one for the transaction. *)
Definition push_transaction (trx : Tx) (push_to_back : bool) : step S Tx unit :=
  do* n := get in
  let s := default (nd_state n) (nd_pending n) in
  do* _ := match nd_pending n with Some _ => sret tt | None => open_session 0 end in
  do* _ := set_pending (Some s) (nd_pending_tx n) in
  do* _ := open_session 1 in
  do* _ := each (react 2) (chain_transaction_history s trx) in
  do* s' := lift (chain_apply_transaction s trx) in
  set_pending (Some s') (if push_to_back then nd_pending_tx n ++ [trx] else trx :: nd_pending_tx n).

(** A transaction is pushed again unless it is known; one that fails is
    dropped. *)
Definition push_again (trx : Tx) : step S Tx unit := λ n,
  if is_known_transaction (default (nd_state n) (nd_pending n)) trx then (n, Ok tt)
  else
    let '(n', r) := push_transaction trx true n in
    match r with
    | Ok _ => (n', Ok tt)
    | Throw e => if catchable e then (n', Ok tt) else (n', Throw e)
    end.

(** [without_pending_transactions] around [_push_block]: its destructor also
    runs when the block is refused. *)
Definition database_push_block (new_block : signed_block) : step S Tx bool := λ n,
  let pending := nd_pending_tx n in
  let '(n1, r) := (do* _ := set_pending None [] in push_block_inner new_block) n in
  let '(n2, r2) := (do* _ := each push_again (nd_popped_tx n1) in
                    do* _ := set_popped [] in
                    each push_again pending) n1 in
  (n2, match r2 with Ok _ => r | Throw e => Throw e end).
End chain.
