(* ===== verification/BlockChainTheorems.v ===== *)
(** * Pushing and popping blocks: what a node keeps

    The state of a node is always the result of applying a chain of blocks to
    the state it started from, and the undo history holds the newest of the
    states in between; a refused block leaves the state where it was, a fork
    switch leads to the head of the other branch, and one that fails leads
    back, unless a block cannot be taken back. *)

From stdpp Require Import gmap list.
From Stdlib Require Import ZArith Lia.
From S2P Require Import Prelude ForkDb BlockStore BlockChain.


Local Open Scope Z_scope.

Section props.
Context `{BlockDigest} `{BlockPack} {S Tx : Type} `{CS : !ChainState S Tx} {CL : ChainStateLaws S Tx}.
Implicit Types (n : node S Tx) (s : S) (undo full : list S) (bs : list signed_block).

(** ** Steps *)

Lemma sbind_ok {A B} (c : step S Tx A) (k : A → step S Tx B) n n' b :
  sbind c k n = (n', Ok b) ↔ ∃ n1 a, c n = (n1, Ok a) ∧ k a n1 = (n', Ok b).
Proof. unfold sbind. destruct (c n) as [n1 [a|e]]; naive_solver. Qed.

Lemma sbind_run {A B} (c : step S Tx A) (k : A → step S Tx B) n n' r :
  sbind c k n = (n', r) →
  (∃ n1 a, c n = (n1, Ok a) ∧ k a n1 = (n', r)) ∨ ∃ e, c n = (n', Throw e) ∧ r = Throw e.
Proof. unfold sbind. destruct (c n) as [n1 [a|e]]; [left; eauto|intros [= <- <-]; right; eauto]. Qed.

(** ** The chain behind a state *)

(** [undo] holds the states before the blocks [bs], newest first. *)
Fixpoint backed (s : S) (undo : list S) (bs : list signed_block) {struct bs} : Prop :=
  match bs, undo with
  | [], _ => True
  | b :: bs', s' :: undo' => chain_apply_block s' b = Ok s ∧ backed s' undo' bs'
  | _ :: _, [] => False
  end.

(** The state of a node comes from applying blocks. *)
Definition node_ok (n : node S Tx) : Prop :=
  ∃ bs, length bs = length (nd_undo n) ∧ backed (nd_state n) (nd_undo n) bs.

(** The node is at a state; its undo history is the newer part of all the
    states before. *)
Definition at_state (n : node S Tx) (s : S) (full : list S) : Prop :=
  nd_state n = s ∧ nd_undo n `prefix_of` full.

(** [k] states up the history. *)
Definition below (k : nat) (s : S) (undo : list S) (s0 : S) (undo0 : list S) : Prop :=
  ∃ up, length up = k ∧ s :: undo = up ++ s0 :: undo0.

Lemma below_next s s1 undo1 k s0 undo0 : below k s1 undo1 s0 undo0 → below (Datatypes.S k) s (s1 :: undo1) s0 undo0.
Proof. intros (up & Hl & E). exists (s :: up). split; [by simpl; rewrite Hl|]. simpl. by rewrite E. Qed.

Lemma below_inj k s undo s1 undo1 s2 undo2 :
  below k s undo s1 undo1 → below k s undo s2 undo2 → s1 = s2 ∧ undo1 = undo2.
Proof.
  intros (up1 & L1 & E1) (up2 & L2 & E2). rewrite E1 in E2. apply app_inj_1 in E2 as [_ E]; [|congruence].
  by injection E.
Qed.

Lemma backed_app s undo s0 undo0 bs bs0 :
  below (length bs) s undo s0 undo0 → backed s undo bs → backed s0 undo0 bs0 → backed s undo (bs ++ bs0).
Proof.
  revert s undo. induction bs as [|b bs IH]; intros s1 undo (up & Hl & E) Hb Hb0.
  { destruct up; [|done]. by injection E as -> ->. }
  simpl in *. destruct undo as [|s2 undo2]; [done|]. destruct Hb as [Ha Hb]. split; [done|].
  destruct up as [|x up]; [done|]. injection E as <- E. injection Hl as Hl.
  apply IH; [by exists up|done|done].
Qed.

(** ** What a step does to state and history

    A step that keeps the chain leads from a state with a history to such a
    state. *)

Definition trims {A} (c : step S Tx A) : Prop :=
  ∀ n s full, at_state n s full → at_state (c n).1 s full.

Lemma trims_bind {A B} (c : step S Tx A) (k : A → step S Tx B) :
  trims c → (∀ a, trims (k a)) → trims (sbind c k).
Proof.
  intros Hc Hk n s full Hn. unfold sbind. specialize (Hc n s full Hn).
  destruct (c n) as [n1 [a|e]]; [by apply Hk|done].
Qed.

Lemma trims_get {B} (k : node S Tx → step S Tx B) : (∀ n, trims (k n)) → trims (sbind get k).
Proof. intros Hk n s full Hn. by apply (Hk n n). Qed.

Lemma trims_frame {A} (c : step S Tx A) :
  (∀ n, nd_state (c n).1 = nd_state n ∧ nd_undo (c n).1 = nd_undo n) → trims c.
Proof. intros Hc n s full [E1 E2]. destruct (Hc n) as [F1 F2]. split; congruence. Qed.

Lemma each_trims {A} (f : A → step S Tx unit) l : (∀ x, trims (f x)) → trims (each f l).
Proof. intros Hf. induction l as [|x l IH]; [by apply trims_frame|]. by apply trims_bind. Qed.

Lemma open_session_trims k : trims (open_session k).
Proof.
  intros n s full [E1 E2]. unfold open_session, sbind. cbn [get]. case_match; [done|]. case_match; [done|].
  split; [done|]. simpl. etransitivity; [|exact E2]. apply prefix_take.
Qed.

Lemma react_trims k e : trims (react k e).
Proof. destruct e; [apply open_session_trims|]. by apply trims_frame. Qed.

(** Only a lost session makes opening one fail. *)
Lemma open_session_throws k n n' e : open_session k n = (n', Throw e) → catchable e = false.
Proof. unfold open_session, sbind. cbn [get]. case_match; [done|]. case_match; [|done]. by intros [= _ <-]. Qed.

Lemma each_react_throws k l n n' e : each (react k) l n = (n', Throw e) → catchable e = false.
Proof.
  revert n. induction l as [|x l IH]; intros n; [done|]. cbn [each].
  intros [(n1 & u & _ & Hr)|(e' & Hr & [= ->])]%sbind_run; [by eapply IH|].
  destruct x; [by eapply open_session_throws|done].
Qed.

Lemma apply_at i b n n' r s full : at_state n s full → apply_and_store i b n = (n', r) →
  match r with
  | Ok _ => chain_apply_block s b = Ok (nd_state n') ∧ at_state n' (nd_state n') (s :: full)
  | Throw e => at_state n' s full ∧ (catchable e = true → chain_apply_block s b = Throw e)
  end.
Proof.
  intros Hn Hr. pose proof (proj1 Hn) as Hs. unfold apply_and_store in Hr. unfold sbind at 1 in Hr. cbn [get] in Hr.
  pose proof (open_session_trims (active_sessions n) n s full Hn) as H1.
  apply sbind_run in Hr as [(n1 & u1 & Ho & Hr)|(e & Ho & ->)]; rewrite Ho in H1; cbn [fst] in H1;
    [|split; [done|]; apply open_session_throws in Ho; congruence].
  pose proof (each_trims (react (Datatypes.S (active_sessions n))) (chain_block_history (nd_state n) b)
    (react_trims _) n1 s full H1) as H2.
  apply sbind_run in Hr as [(n2 & u2 & He & Hr)|(e & He & ->)]; rewrite He in H2; cbn [fst] in H2;
    [|split; [done|]; apply each_react_throws in He; congruence].
  rewrite Hs in Hr. unfold lift, sbind at 1 in Hr.
  destruct (chain_apply_block s b) as [s'|e] eqn:Ea; [|by injection Hr as <- <-].
  unfold sbind in Hr. cbn in Hr. injection Hr as <- <-. split; [done|]. split; [done|].
  simpl. apply prefix_cons. apply H2.
Qed.

(** A block cannot be taken back: it is not to be found, or the fork database
    or the undo history do not reach back. *)
Definition cannot_pop (held : list fork_item) (n : node S Tx) : Prop :=
  fetch_block_by_id n (head_block_id (nd_state n)) = None ∨
  is_ok (ForkDb.pop_block held (nd_fork n)) = false ∨ nd_undo n = [].

Lemma pop_at held n n' r s full : at_state n s full → database_pop_block held n = (n', r) →
  match r with
  | Ok _ => ∃ s1 full1, full = s1 :: full1 ∧ at_state n' s1 full1
  | Throw e => at_state n' s full ∧ cannot_pop held n'
  end.
Proof.
  intros [Hs [more Hp]] Hr. unfold database_pop_block, sbind in Hr. cbn in Hr.
  destruct (fetch_block_by_id _ _) as [b|] eqn:Eb; cbn in Hr.
  2: { injection Hr as <- <-. split; [by split; [|exists more]|by left]. }
  destruct (ForkDb.pop_block held (nd_fork n)) as [f|e] eqn:Ef; cbn in Hr.
  2: { injection Hr as <- <-. split; [by split; [|exists more]|]. right. left. simpl. by rewrite Ef. }
  destruct (nd_undo n) as [|s1 undo1] eqn:Eu; cbn in Hr; injection Hr as <- <-.
  - split; [by split; [|exists more]|]. right. right. simpl. done.
  - subst full. exists s1, (undo1 ++ more). split; [done|]. split; [done|]. by exists more.
Qed.

(** *** Going back *)

(** A branch as the chain goes through it: each block is on the next one. *)
Fixpoint downward (l : list fork_item) : Prop :=
  match l with
  | x :: ((y :: _) as l') => previous (data x) = block_id (data y) ∧ downward l'
  | _ => True
  end.

Lemma downward_app l1 l2 : downward (l1 ++ l2) → downward l1 ∧ downward l2.
Proof.
  induction l1 as [|x l1 IH]; [done|]. destruct l1 as [|y l1]; simpl in *.
  - intros Hd. split; [done|]. destruct l2; [done|]. by destruct Hd.
  - intros [Hx Hd]. destruct (IH Hd). done.
Qed.

Lemma pop_until_at held target items fuel n n' r s full bs :
  at_state n s full → backed s full bs → length bs = length full →
  (∀ it, hd_error items = Some it → head_block_id s = block_id (data it)) →
  (items = [] → head_block_id s = target) →
  (∀ it, last items = Some it → previous (data it) = target) →
  downward items → (∀ it, it ∈ items → block_id (data it) ≠ target) →
  (∀ it b, it ∈ items → b ∈ bs → block_id (data it) = block_id b → data it = b) →
  (length (nd_undo n) < fuel)%nat → pop_until held fuel target n = (n', r) →
  match r with
  | Ok _ => head_block_id (nd_state n') = target ∧ backed s full (data <$> items) ∧
      ∃ full', below (length items) s full (nd_state n') full' ∧ at_state n' (nd_state n') full'
  | Throw e => cannot_pop held n'
  end.
Proof.
  revert n fuel s full bs. induction items as [|it items IH];
    intros n fuel s full bs Hn Hb Hl Hhd Hnil Hlast Hd Hne Hinj Hf Hr;
    (destruct fuel as [|fuel]; [lia|]); cbn [pop_until] in Hr; unfold sbind at 1 in Hr; cbn [get] in Hr.
  { destruct Hn as [Hs Hp]. rewrite Hs, Hnil, Z.eqb_refl in Hr by done. injection Hr as <- <-.
    rewrite Hs. split_and!; [by apply Hnil|done|]. exists full. split; [by exists []|done]. }
  pose proof (proj1 Hn) as Hs. rewrite (proj2 (Z.eqb_neq _ _)) in Hr.
  2: { rewrite Hs, (Hhd it eq_refl). apply Hne. left. }
  apply sbind_run in Hr as [(n1 & u & Hpop & Hr)|(e & Hpop & ->)];
    pose proof (pop_at _ _ _ _ _ _ Hn Hpop) as Hres; [|by destruct Hres].
  destruct Hres as (s1 & full1 & -> & Hn1). destruct bs as [|b bs]; [done|]. destruct Hb as [Ha Hb].
  destruct (chain_apply_head _ _ _ Ha) as [Hh1 Hh].
  assert (data it = b) as <-.
  { apply Hinj; [left|left|]. rewrite <- (Hhd it eq_refl). done. }
  assert (length (nd_undo n1) < fuel)%nat as Hf1.
  { assert (length (nd_undo n1) < length (nd_undo n))%nat; [|lia]. clear -Hpop.
    unfold database_pop_block, sbind in Hpop. cbn in Hpop.
    destruct (fetch_block_by_id _ _); cbn in Hpop; [|done]. destruct (ForkDb.pop_block _ _); cbn in Hpop; [|done].
    destruct (nd_undo n) as [|y undo] eqn:Eu; cbn in Hpop; [done|]. injection Hpop as <-. simpl. lia. }
  assert (match r with
    | Ok _ => head_block_id (nd_state n') = target ∧ backed s1 full1 (data <$> items) ∧
        ∃ full', below (length items) s1 full1 (nd_state n') full' ∧ at_state n' (nd_state n') full'
    | Throw e => cannot_pop held n' end) as Hres.
  { eapply (IH n1 fuel s1 full1 bs); try done.
    - by injection Hl.
    - intros y Hy. rewrite Hh1. destruct items as [|z items]; [done|]. injection Hy as ->. apply Hd.
    - intros ->. rewrite Hh1. by apply Hlast.
    - intros y Hy. apply Hlast. destruct items; [done|]. exact Hy.
    - destruct items; [done|]. apply Hd.
    - intros y Hy. apply Hne. by right.
    - intros y b' Hy Hb'. apply Hinj; by right. }
  destruct r; [|done]. destruct Hres as (? & ? & full' & Hbel & ?). split_and!; [done|done|].
  exists full'. split; [|done]. by apply below_next.
Qed.

Lemma pop_to_at held target items n n' r s full bs :
  at_state n s full → backed s full bs → length bs = length full →
  (∀ it, hd_error items = Some it → head_block_id s = block_id (data it)) →
  (items = [] → head_block_id s = target) →
  (∀ it, last items = Some it → previous (data it) = target) →
  downward items → (∀ it, it ∈ items → block_id (data it) ≠ target) →
  (∀ it b, it ∈ items → b ∈ bs → block_id (data it) = block_id b → data it = b) →
  pop_to held target n = (n', r) →
  match r with
  | Ok _ => head_block_id (nd_state n') = target ∧ backed s full (data <$> items) ∧
      ∃ full', below (length items) s full (nd_state n') full' ∧ at_state n' (nd_state n') full'
  | Throw e => cannot_pop held n'
  end.
Proof. intros. eapply (pop_until_at held target items (Datatypes.S (length (nd_undo n)))); try eassumption. lia. Qed.

(** *** Going forward *)

Lemma each_app {A} (f : A → step S Tx unit) l1 l2 n :
  each f (l1 ++ l2) n = sbind (each f l1) (λ _, each f l2) n.
Proof.
  revert n. induction l1 as [|x l1 IH]; intros n; simpl; [done|].
  unfold sbind at 1 2 3. destruct (f x n) as [n1 [u|e]]; [|done]. by rewrite IH.
Qed.

(** Applying the blocks between two states again leads from the one to the
    other. *)
Lemma replay items (nb : Z) s full s0 full0 n n' r :
  backed s full (data <$> items) → below (length items) s full s0 full0 → at_state n s0 full0 →
  each (λ it, apply_and_store nb (data it)) (rev items) n = (n', r) →
  match r with Ok _ => at_state n' s full | Throw e => catchable e = false end.
Proof.
  revert s full n' r. induction items as [|it items IH]; intros s full n' r Hb (up & Hl & E) Hn Hr.
  { destruct up; [|done]. injection E as -> ->. by injection Hr as <- <-. }
  simpl in Hb. destruct full as [|s1 full1]; [done|]. destruct Hb as [Ha Hb].
  destruct up as [|x up]; [done|]. injection E as <- E. injection Hl as Hl.
  simpl in Hr. rewrite each_app in Hr.
  assert (below (length items) s1 full1 s0 full0) as B by by exists up.
  apply sbind_run in Hr as [(n1 & u & Hr1 & Hr)|(e & Hr1 & ->)];
    apply (IH _ _ _ _ Hb B Hn) in Hr1; [|done].
  cbn [each] in Hr. apply sbind_run in Hr as [(n2 & u2 & Hr2 & Hr)|(e & Hr2 & ->)];
    pose proof (apply_at _ _ _ _ _ _ _ Hr1 Hr2) as Hres.
  - injection Hr as <- <-. destruct Hres as [Ha' Hn2]. rewrite Ha in Ha'. injection Ha' as Ha'.
    by rewrite <- Ha' in Hn2.
  - destruct Hres as [_ Hc]. destruct (catchable e); [|done]. by rewrite Hc in Ha.
Qed.

Section switch.
Context (held : list fork_item).

(** How far a switch gets: through all blocks, or to one that fails, where
    the handler takes over. *)
Lemma switch_to_inv nb l old target n n' r s0 full0 :
  at_state n s0 full0 → switch_to held nb l old target n = (n', r) →
  ∃ applied rest n1 s1 full1, l = applied ++ rest ∧ at_state n1 s1 full1 ∧
    backed s1 full1 (data <$> rev applied) ∧ below (length applied) s1 full1 s0 full0 ∧
    ((rest = [] ∧ n' = n1 ∧ r = Ok tt) ∨
     (rest ≠ [] ∧ ∃ e, restore_fork held nb rest old target e n1 = (n', r)) ∨
     (∃ e, catchable e = false ∧ r = Throw e)).
Proof.
  revert n s0 full0. induction l as [|it l IH]; intros n s0 full0 Hn Hrun; cbn [switch_to] in Hrun.
  { injection Hrun as <- <-. exists [], [], n, s0, full0. split_and!; [done..|by exists []|by left]. }
  destruct (apply_and_store (id it) (data it) n) as [n2 [u|e]] eqn:Ha;
    pose proof (apply_at _ _ _ _ _ _ _ Hn Ha) as Hres; cbn beta iota in Hres.
  - destruct Hres as [Hap Hn2].
    destruct (IH n2 _ _ Hn2 Hrun) as (applied & rest & n1 & s1 & full1 & -> & Hn1 & Hb & (up & Hup & Eup) & Hr).
    exists (it :: applied), rest, n1, s1, full1. split_and!; [done|done| | |done].
    + simpl. rewrite fmap_app. eapply backed_app; [|exact Hb|].
      * exists up. split; [by rewrite length_fmap, length_rev|exact Eup].
      * done.
    + exists (up ++ [nd_state n2]). split; [rewrite length_app; simpl; lia|].
      by rewrite Eup, <- app_assoc.
  - destruct Hres as [Hn2 _]. exists [], (it :: l), n2, s0, full0. split_and!; [done..|by exists []|].
    destruct (catchable e) eqn:Ec; [right; left; eauto|right; right; injection Hrun as <- <-; eauto].
Qed.

(** The handler of a failed switch leads back to the chain that was left, or a
    block of the new branch cannot be taken back. *)
Lemma restore_fork_at nb rest second applied target e n n' r s1 full1 s full s0 full0 bs :
  at_state n s1 full1 → backed s1 full1 (data <$> rev applied) → below (length applied) s1 full1 s0 full0 →
  backed s0 full0 bs → length bs = length full0 → head_block_id s0 = target →
  backed s full (data <$> second) → below (length second) s full s0 full0 →
  downward (rev applied) → (∀ it, last (rev applied) = Some it → previous (data it) = target) →
  (∀ it, it ∈ rev applied → block_id (data it) ≠ target) →
  (∀ it b, it ∈ rev applied → (b ∈ data <$> rev applied) ∨ b ∈ bs → block_id (data it) = block_id b → data it = b) →
  restore_fork held nb rest second target e n = (n', r) →
  match r with
  | Ok _ => False
  | Throw e' => catchable e' = false ∨ (at_state n' s full ∧ e' = e) ∨ cannot_pop held n'
  end.
Proof.
  intros Hn Hb1 B1 Hb0 Hl0 Hh0 Hb2 B2 Hd Hlast Hne Hinj Hrun.
  unfold restore_fork in Hrun. unfold sbind at 1 in Hrun. cbn [get] in Hrun.
  unfold sbind at 1 in Hrun. cbn [set_fork] in Hrun.
  set (n2 := mkNode _ _ _ _ _ _ _ _) in Hrun.
  assert (at_state n2 s1 full1) as Hn2 by exact Hn.
  assert (length (rev applied) = length applied) as Hrl by apply length_rev.
  assert (backed s1 full1 ((data <$> rev applied) ++ bs)) as Hb3.
  { eapply backed_app; [|done|exact Hb0]. by rewrite length_fmap, Hrl. }
  assert (length ((data <$> rev applied) ++ bs) = length full1) as Hl3.
  { rewrite length_app, length_fmap, Hrl. destruct B1 as (up & Hu & E).
    apply (f_equal length) in E. rewrite length_app in E. simpl in E. lia. }
  apply sbind_run in Hrun as [(n3 & u & Hp & Hrun)|(e' & Hp & ->)].
  - pose proof (pop_to_at held target (rev applied) n2 n3 (Ok u) s1 full1 _ Hn2 Hb3 Hl3) as Hres.
    destruct Hres as (_ & _ & full3 & B3 & Hn3); try done.
    { intros it Hi. destruct (rev applied) as [|x l]; [done|]. injection Hi as ->. simpl in Hb1.
      destruct full1 as [|s2 full2]; [done|]. destruct Hb1 as [Ha _]. by apply chain_apply_head in Ha as [_ ?]. }
    { intros E. rewrite E in Hrl. destruct applied; [|done]. destruct B1 as ([|? ?] & Hu & E1); [|done].
      injection E1 as -> ->. done. }
    { intros it b Hi [?|?]%elem_of_app; apply Hinj; eauto. }
    rewrite Hrl in B3. destruct (below_inj _ _ _ _ _ _ _ B1 B3) as [E1 E2]. rewrite <- E1, <- E2 in Hn3.
    apply sbind_run in Hrun as [(n4 & u4 & Hrep & Hrun)|(e4 & Hrep & ->)];
      pose proof (replay second (block_id nb) s full s0 full0 _ _ _ Hb2 B2 Hn3 Hrep) as Hres.
    + injection Hrun as <- <-. right. by left.
    + by left.
  - right. right.
    eapply (pop_to_at held target (rev applied) n2 n' (Throw e') s1 full1 _ Hn2 Hb3 Hl3); try done.
    { intros it Hi. destruct (rev applied) as [|x l]; [done|]. injection Hi as ->. simpl in Hb1.
      destruct full1 as [|s2 full2]; [done|]. destruct Hb1 as [Ha _]. by apply chain_apply_head in Ha as [_ ?]. }
    { intros E. rewrite E in Hrl. destruct applied; [|done]. destruct B1 as ([|? ?] & Hu & E1); [|done].
      injection E1 as -> ->. done. }
    { intros it b Hi [?|?]%elem_of_app; apply Hinj; eauto. }
Qed.
End switch.

(** ** The chain from the first state

    [base] is the state the node started from; some of the states since then
    are still on the undo history. *)
Definition chain_from (base : S) (n : node S Tx) : Prop :=
  ∃ bs full, nd_undo n `prefix_of` full ∧ length bs = length full ∧
    backed (nd_state n) full bs ∧ default (nd_state n) (list.last full) = base.

Lemma node_ok_chain n : node_ok n → chain_from (default (nd_state n) (list.last (nd_undo n))) n.
Proof. intros (bs & Hl & Hb). by exists bs, (nd_undo n). Qed.

Lemma backed_take s full bs k : backed s full bs → length bs = length full → backed s (take k full) (take k bs).
Proof.
  revert s full k. induction bs as [|b bs IH]; intros s [|s1 full] k Hb Hl; [by destruct k|done|done|].
  destruct k as [|k]; [done|]. destruct Hb as [Ha Hb]. split; [done|]. apply IH; [done|]. by injection Hl.
Qed.

Lemma chain_node_ok base n : chain_from base n → node_ok n.
Proof.
  intros (bs & full & [more ->] & Hl & Hb & _). exists (take (length (nd_undo n)) bs). split.
  - rewrite length_take, Hl, length_app. lia.
  - apply (backed_take _ _ _ (length (nd_undo n))) in Hb; [|done]. by rewrite take_app_length in Hb.
Qed.

(** A step that keeps it, however it ends. *)
Definition keeps_chain {A} (c : step S Tx A) : Prop := ∀ base n, chain_from base n → chain_from base (c n).1.

Lemma keeps_bind {A B} (c : step S Tx A) (k : A → step S Tx B) :
  keeps_chain c → (∀ a, keeps_chain (k a)) → keeps_chain (sbind c k).
Proof.
  intros Hc Hk base n Hn. unfold sbind. specialize (Hc base n Hn). destruct (c n) as [n1 [a|e]]; [by apply Hk|done].
Qed.

Lemma keeps_get {B} (k : node S Tx → step S Tx B) : (∀ n, keeps_chain (k n)) → keeps_chain (sbind get k).
Proof. intros Hk base n Hn. by apply (Hk n base n). Qed.

Lemma trims_keeps {A} (c : step S Tx A) : trims c → keeps_chain c.
Proof.
  intros Hc base n (bs & full & Hp & Hl & Hb & Hd). destruct (Hc n (nd_state n) full (conj eq_refl Hp)) as [E Hp'].
  exists bs, full. rewrite E. done.
Qed.

Lemma keeps_frame {A} (c : step S Tx A) :
  (∀ n, nd_state (c n).1 = nd_state n ∧ nd_undo (c n).1 = nd_undo n) → keeps_chain c.
Proof. intros Hc. by apply trims_keeps, trims_frame. Qed.

Lemma pop_keeps held : keeps_chain (database_pop_block held).
Proof.
  intros base n (bs & full & Hp & Hl & Hb & Hd). destruct (database_pop_block held n) as [n' r] eqn:E.
  pose proof (pop_at _ _ _ _ _ full (conj eq_refl Hp) E) as Hres. destruct r as [u|e].
  - destruct Hres as (s1 & full1 & -> & Es & Hp1). destruct bs as [|b bs]; [done|]. destruct Hb as [_ Hb].
    exists bs, full1. simpl. rewrite Es. split_and!; [done|by injection Hl|done|].
    rewrite <- Hd. destruct full1 as [|s2 full1]; [done|]. rewrite list.last_cons_cons.
    by destruct (list.last_is_Some (s2 :: full1)) as [_ [x ->]].
  - destruct Hres as [[Es Hp1] _]. exists bs, full. simpl. by rewrite Es.
Qed.

Lemma pop_until_keeps held fuel target : keeps_chain (pop_until held fuel target).
Proof.
  induction fuel as [|fuel IH]; apply keeps_get; intros n; case_match; [by apply keeps_frame..|].
  apply keeps_bind; [apply pop_keeps|done].
Qed.

Lemma apply_keeps i b : keeps_chain (apply_and_store i b).
Proof.
  intros base n (bs & full & Hp & Hl & Hb & Hd). destruct (apply_and_store i b n) as [n' r] eqn:E.
  pose proof (apply_at _ _ _ _ _ _ full (conj eq_refl Hp) E) as Hres. destruct r as [u|e].
  - destruct Hres as (Ha & _ & Hp1). exists (b :: bs), (nd_state n :: full). simpl.
    split_and!; [done|by rewrite Hl|done|done|]. rewrite <- Hd. destruct full as [|s2 full]; [done|].
    rewrite list.last_cons_cons. by destruct (list.last_is_Some (s2 :: full)) as [_ [x ->]].
  - destruct Hres as [[Es Hp1] _]. exists bs, full. simpl. by rewrite Es.
Qed.

Lemma each_keeps {A} (f : A → step S Tx unit) l : (∀ x, keeps_chain (f x)) → keeps_chain (each f l).
Proof.
  intros Hf. induction l as [|x l IH]; [by apply keeps_frame|]. apply keeps_bind; [apply Hf|done].
Qed.

Lemma pop_to_keeps held target : keeps_chain (pop_to held target).
Proof. apply keeps_get. intros n. by apply pop_until_keeps. Qed.

Lemma restore_keeps held nb rest old target e : keeps_chain (restore_fork held nb rest old target e).
Proof.
  apply keeps_get. intros n. apply keeps_bind; [by apply keeps_frame|]. intros _.
  apply keeps_bind; [apply pop_to_keeps|]. intros _.
  apply keeps_bind; [apply each_keeps; intros; apply apply_keeps|]. intros _. by apply keeps_frame.
Qed.

Lemma switch_keeps held nb l old target : keeps_chain (switch_to held nb l old target).
Proof.
  induction l as [|it l IH]; [by apply keeps_frame|]. intros base n Hn. cbn [switch_to].
  pose proof (apply_keeps (id it) (data it) base n Hn) as K1.
  destruct (apply_and_store _ _ n) as [n1 [u|e]]; [by apply IH|].
  destruct (catchable e); [by apply restore_keeps|done].
Qed.

Lemma push_inner_keeps b : keeps_chain (push_block_inner b).
Proof.
  apply keeps_get. intros n. apply keeps_bind; [by apply keeps_frame|].
  intros f. apply keeps_bind; [by apply keeps_frame|]. intros _.
  apply keeps_bind; [by apply keeps_frame|]. intros h.
  destruct (negb (previous (data h) =? head_block_id (nd_state n))).
  - destruct (_ <? _); [|by apply keeps_frame].
    apply keeps_bind; [by apply keeps_frame|]. intros [first second].
    apply keeps_bind; [by apply keeps_frame|]. intros target.
    apply keeps_bind; [apply pop_to_keeps|]. intros _.
    apply keeps_bind; [apply switch_keeps|]. intros _. by apply keeps_frame.
  - intros base n1 Hn1. pose proof (apply_keeps (block_id b) b base n1 Hn1) as K1.
    destruct (apply_and_store _ _ n1) as [n2 [u|e]]; [done|]. destruct (catchable e); [|done]. exact K1.
Qed.

Lemma push_transaction_trims tx k : trims (push_transaction tx k).
Proof.
  apply trims_get. intros n. apply trims_bind; [destruct (nd_pending n); [by apply trims_frame|apply open_session_trims]|].
  intros _. apply trims_bind; [by apply trims_frame|]. intros _. apply trims_bind; [apply open_session_trims|]. intros _.
  apply trims_bind; [apply each_trims, react_trims|]. intros _.
  apply trims_bind; [by apply trims_frame|]. intros s'. by apply trims_frame.
Qed.

Lemma push_again_trims tx : trims (push_again tx).
Proof.
  intros n s full Hn. unfold push_again. case_match; [done|].
  pose proof (push_transaction_trims tx true n s full Hn) as K1.
  destruct (push_transaction tx true n) as [n' [u|e]]; [done|]. by destruct (catchable e).
Qed.

Lemma restore_pending_trims popped pending :
  trims (sbind (each push_again popped) (λ _, sbind (set_popped []) (λ _, each push_again pending))).
Proof.
  apply trims_bind; [apply each_trims, push_again_trims|]. intros _.
  apply trims_bind; [by apply trims_frame|]. intros _. apply each_trims, push_again_trims.
Qed.

Lemma database_push_chain b : keeps_chain (database_push_block b).
Proof.
  intros base n Hn. unfold database_push_block.
  assert (keeps_chain (sbind (set_pending None []) (λ _, push_block_inner b))) as K1.
  { apply keeps_bind; [by apply keeps_frame|]. intros _. apply push_inner_keeps. }
  specialize (K1 base n Hn). destruct (sbind _ _ n) as [n1 r]. cbn [fst] in K1.
  pose proof (trims_keeps _ (restore_pending_trims (nd_popped_tx n1) (nd_pending_tx n)) base n1 K1) as K2.
  by destruct (sbind _ _ n1) as [n2 r2].
Qed.

Lemma database_push_keeps b n : node_ok n → node_ok (database_push_block b n).1.
Proof. intros Hn%node_ok_chain. by eapply chain_node_ok, database_push_chain. Qed.

(** ** The fork database stays well formed *)

(** A step that only takes items out of the database [f0]. *)
Definition shrinking (f0 : fork_database) {A} (c : step S Tx A) : Prop :=
  ∀ n, shrinks f0 (nd_fork n) → shrinks f0 (nd_fork (c n).1).

Section shrinking.
Context (f0 : fork_database) (f0_wf : fork_wf f0).

Lemma shrinking_bind {A B} (c : step S Tx A) (k : A → step S Tx B) :
  shrinking f0 c → (∀ a, shrinking f0 (k a)) → shrinking f0 (sbind c k).
Proof.
  intros Hc Hk n Hn. unfold sbind. specialize (Hc n Hn). destruct (c n) as [n1 [a|e]]; [by apply Hk|done].
Qed.

Lemma shrinking_get {B} (k : node S Tx → step S Tx B) : (∀ n, shrinking f0 (k n)) → shrinking f0 (sbind get k).
Proof. intros Hk n Hn. by apply (Hk n n). Qed.

Lemma shrinking_frame {A} (c : step S Tx A) : (∀ n, nd_fork (c n).1 = nd_fork n) → shrinking f0 c.
Proof. intros Hc n Hn. by rewrite Hc. Qed.

Lemma shrinking_each {A} (f : A → step S Tx unit) l : (∀ x, shrinking f0 (f x)) → shrinking f0 (each f l).
Proof. intros Hf. induction l as [|x l IH]; [by apply shrinking_frame|]. by apply shrinking_bind. Qed.

Lemma open_session_fork k n : nd_fork (open_session k n).1 = nd_fork n.
Proof. unfold open_session, sbind. cbn [get]. case_match; [done|]. by case_match. Qed.

Lemma react_shrinks k e : shrinking f0 (react k e).
Proof.
  destruct e as [inner|m]; [apply shrinking_frame, open_session_fork|]. intros n Hn. by apply set_max_size_shrinks.
Qed.

Lemma apply_shrinks i b : shrinking f0 (apply_and_store i b).
Proof.
  apply shrinking_get. intros n. apply shrinking_bind; [apply shrinking_frame, open_session_fork|]. intros _.
  apply shrinking_bind; [apply shrinking_each, react_shrinks|]. intros _.
  apply shrinking_bind; [by apply shrinking_frame|]. intros s. apply shrinking_bind; [by apply shrinking_frame|].
  intros _. apply shrinking_get. intros n'. by apply shrinking_frame.
Qed.

Lemma pop_shrinks held : Forall (live f0) held → shrinking f0 (database_pop_block held).
Proof.
  intros Hh n Hn. unfold database_pop_block, sbind. cbn. destruct (fetch_block_by_id _ _); cbn; [|done].
  destruct (ForkDb.pop_block held (nd_fork n)) as [f|e] eqn:Ef; cbn; [|done].
  assert (shrinks f0 f) by (eapply pop_block_shrinks; [by eapply shrinks_wf|done..]).
  by destruct (nd_undo n).
Qed.

Lemma pop_to_shrinks held target : Forall (live f0) held → shrinking f0 (pop_to held target).
Proof.
  intros Hh. apply shrinking_get. intros n. generalize (Datatypes.S (length (nd_undo n))). clear n. intros fuel.
  induction fuel as [|fuel IH]; apply shrinking_get; intros n1; case_match; [by apply shrinking_frame..|].
  apply shrinking_bind; [by apply pop_shrinks|done].
Qed.

Lemma restore_shrinks held nb rest old target e : Forall (live f0) held → Forall (live f0) old →
  shrinking f0 (restore_fork held nb rest old target e).
Proof.
  intros Hh Ho n Hn. unfold restore_fork. unfold sbind at 1. cbn [get].
  assert (shrinking f0 (sbind (pop_to held target) (λ _, sbind (each (λ it, apply_and_store (block_id nb) (data it)) (rev old))
    (λ _, sthrow (A:=unit) e)))) as Hrest.
  { apply shrinking_bind; [by apply pop_to_shrinks|]. intros _.
    apply shrinking_bind; [apply shrinking_each; intros; apply apply_shrinks|]. intros _. by apply shrinking_frame. }
  unfold sbind at 1. cbn [set_fork]. apply Hrest. cbn [nd_fork]. apply set_head_shrinks.
  - revert Hn. generalize (nd_fork n). induction rest as [|it rest IH]; intros f Hf; [done|]. by apply IH, remove_shrinks.
  - intros it Hi. destruct old as [|x old]; [done|]. injection Hi as <-. by apply Forall_cons in Ho as [? _].
Qed.

Lemma switch_shrinks held nb l old target : Forall (live f0) held → Forall (live f0) old →
  shrinking f0 (switch_to held nb l old target).
Proof.
  intros Hh Ho. induction l as [|it l IH]; [by apply shrinking_frame|]. intros n Hn. cbn [switch_to].
  pose proof (apply_shrinks (id it) (data it) n Hn) as K1.
  destruct (apply_and_store _ _ n) as [n1 [u|e]]; [by apply IH|].
  destruct (catchable e); [by apply restore_shrinks|done].
Qed.
End shrinking.

Lemma is_branch_forall f l : is_branch f l → Forall (live f) l.
Proof. intros Hb. apply Forall_forall. intros it. by apply is_branch_live. Qed.

Lemma push_inner_fork b n : fork_wf (nd_fork n) → 1 <= block_num b → fork_wf (nd_fork (push_block_inner b n).1).
Proof.
  intros Hwf Hb. unfold push_block_inner. unfold sbind at 1. cbn [get]. unfold sbind at 1, lift.
  destruct (ForkDb.push_block (nd_fork n) b) as [f|e] eqn:Ef; [|done].
  assert (fork_wf f) as Hf by by eapply push_block_wf.
  unfold sbind at 1. cbn [set_fork]. apply (shrinks_wf f); [done|].
  match goal with |- shrinks f (nd_fork (?c ?m).1) => enough (shrinking f c) as Hc by (apply Hc, shrinks_refl) end.
  apply shrinking_bind; [by apply shrinking_frame|]. intros h.
  destruct (negb (previous (data h) =? head_block_id (nd_state n))).
  - destruct (_ <? _); [|by apply shrinking_frame].
    intros n1 Hn1. unfold sbind at 1.
    destruct (fetch_branch_from f (block_id (data h)) (head_block_id (nd_state n))) as [[first second]|e] eqn:E; [|done].
    apply fetch_branch_inv in E as (lA & x & lB & y & _ & _ & B1%is_branch_forall & B2%is_branch_forall & _); [|done].
    assert (Forall (live f) (first ++ second)) as Hh by by apply Forall_app.
    revert n1 Hn1. change (shrinking f (sbind (lift (fork_target second)) (λ target, sbind (pop_to (first ++ second) target)
      (λ _, sbind (switch_to (first ++ second) b (rev first) second target) (λ _, sret true))))).
    apply shrinking_bind; [by apply shrinking_frame|]. intros target.
    apply shrinking_bind; [by apply pop_to_shrinks|]. intros _.
    apply shrinking_bind; [by apply switch_shrinks|]. intros _. by apply shrinking_frame.
  - intros n1 Hn1. pose proof (apply_shrinks f (block_id b) b n1 Hn1) as K1.
    destruct (apply_and_store _ _ n1) as [n2 [u|e]]; [done|]. destruct (catchable e); [|done].
    by apply remove_shrinks.
Qed.

(** ** A switch of forks *)

(** The blocks a node knows when [b] arrives: the block, those of its chain
    and those of the fork database. *)
Definition known_block (n : node S Tx) (b : signed_block) bs (x : signed_block) : Prop :=
  x = b ∨ x ∈ bs ∨ ∃ it, live (nd_fork n) it ∧ data it = x.

Definition distinct_ids (n : node S Tx) (b : signed_block) bs : Prop :=
  ∀ x y, known_block n b bs x → known_block n b bs y → block_id x = block_id y → x = y.

Lemma branch_downward f l : fork_wf f → is_branch f l → downward l.
Proof.
  intros Hwf. induction l as [|x l IH]; [done|]. intros (Hx & Hl & Hn). destruct l as [|y l]; [done|].
  split; [|by apply IH]. destruct (Hn y eq_refl) as [Hp _]. destruct Hl as (Hy & _).
  destruct (wf_item f Hwf y Hy) as (_ & <- & _). done.
Qed.

Lemma backed_head s full bs b : hd_error bs = Some b → backed s full bs → head_block_id s = block_id b.
Proof.
  destruct bs as [|b' bs]; [done|]. intros [= ->]. destruct full as [|s1 full]; [done|].
  intros [Ha _]. by apply chain_apply_head in Ha as [_ ?].
Qed.

Lemma backed_below k s full bs s0 full0 :
  backed s full bs → length bs = length full → below k s full s0 full0 →
  ∃ bs0, length bs0 = length full0 ∧ backed s0 full0 bs0 ∧ ∀ b, b ∈ bs0 → b ∈ bs.
Proof.
  revert s full bs. induction k as [|k IH]; intros s full bs Hb Hl (up & Hu & E).
  { destruct up; [|done]. injection E as -> ->. by exists bs. }
  destruct up as [|x up]; [done|]. injection E as <- E. injection Hu as Hu.
  destruct full as [|s1 full]; [by destruct up|]. destruct bs as [|b bs]; [done|]. destruct Hb as [_ Hb].
  destruct (IH s1 full bs Hb) as (bs0 & ? & ? & Hin); [by injection Hl|by exists up|].
  exists bs0. split_and!; [done|done|]. intros c Hc. right. by apply Hin.
Qed.

(** The way to the common ancestor and back up the other branch. *)
Lemma switch_run b n bs f lA x lB y target n1 n' r :
  fork_wf f → is_branch f (lA ++ [x]) → is_branch f (lB ++ [y]) →
  previous (data x) = target → previous (data y) = target →
  head_block_id (nd_state n) = block_id (data (default y (hd_error (lB ++ [y])))) →
  backed (nd_state n) (nd_undo n) bs → length bs = length (nd_undo n) →
  (∀ it c, it ∈ lB ++ [y] ∨ it ∈ lA ++ [x] → c ∈ bs ∨ c ∈ data <$> (lA ++ [x]) → block_id (data it) = block_id c → data it = c) →
  at_state n1 (nd_state n) (nd_undo n) →
  sbind (pop_to ((lA ++ [x]) ++ (lB ++ [y])) target) (λ _,
    sbind (switch_to ((lA ++ [x]) ++ (lB ++ [y])) b (rev (lA ++ [x])) (lB ++ [y]) target) (λ _, sret true)) n1 = (n', r) →
  match r with
  | Ok z => z = true ∧ ∃ s0 undo0 full', backed (nd_state n) (nd_undo n) (data <$> (lB ++ [y])) ∧
      below (length (lB ++ [y])) (nd_state n) (nd_undo n) s0 undo0 ∧
      backed (nd_state n') full' (data <$> (lA ++ [x])) ∧
      below (length (lA ++ [x])) (nd_state n') full' s0 undo0 ∧ nd_undo n' `prefix_of` full'
  | Throw e => catchable e = true →
      at_state n' (nd_state n) (nd_undo n) ∨ cannot_pop ((lA ++ [x]) ++ (lB ++ [y])) n'
  end.
Proof.
  intros Hwf BA BB HpA HpB Hhead Hbk Hlen Hinj Hn1 Hrun.
  set (held := (lA ++ [x]) ++ (lB ++ [y])) in *.
  assert (∀ l z it, l ++ [z] = lA ++ [x] ∨ l ++ [z] = lB ++ [y] → it ∈ l ++ [z] → block_id (data it) ≠ target) as Hne.
  { intros l z it [E|E] Hi; pose proof E as [_ Ez]%app_inj_tail; rewrite E in Hi.
    - rewrite <- HpA. by eapply branch_above.
    - rewrite <- HpB. by eapply branch_above. }
  apply sbind_run in Hrun as [(n2 & u & Hp & Hrun)|(e & Hp & ->)];
    (eapply (pop_to_at held target (lB ++ [y]) n1 _ _ (nd_state n) (nd_undo n) bs) in Hp;
      [|done|done|done|intros it Hi; rewrite Hi in Hhead; done|by destruct lB
       |intros it; rewrite last_snoc; by intros [= <-]|by eapply branch_downward
       |intros it; apply (Hne lB y); by right|intros it c Hi Hc; apply Hinj; by left]); [|by right].
  destruct Hp as (Hh0 & Hb2 & undo0 & B2 & Hn2).
  destruct (backed_below _ _ _ _ _ _ Hbk Hlen B2) as (bs0 & Hl0 & Hb0 & Hin0).
  apply sbind_run in Hrun as [(n3 & u3 & Hsw & Hrun)|(e & Hsw & ->)];
    destruct (switch_to_inv _ _ _ _ _ _ _ _ _ _ Hn2 Hsw)
      as (applied & rest & n4 & s1 & full1 & Hrev & Hn4 & Hb4 & B4 & [(-> & -> & Er)|[[Hrest [e0 Hres]]|(e0 & He & Er)]]);
    try done.
  - injection Hrun as <- <-. split; [done|]. rewrite app_nil_r in Hrev. subst applied.
    rewrite rev_involutive in Hb4. rewrite length_rev in B4. destruct Hn4 as [-> Hp4].
    by exists (nd_state n2), undo0, full1.
  - exfalso. assert (lA ++ [x] = rev rest ++ rev applied) as EA.
    { by rewrite <- (rev_involutive (lA ++ [x])), Hrev, rev_app_distr. }
    eapply (restore_fork_at held b rest (lB ++ [y]) applied target e0 n4 n3 (Ok u3)) in Hres; try done.
    + rewrite EA in BA. apply is_branch_app in BA as [_ BA]. by eapply branch_downward.
    + intros it Hi. rewrite <- HpA. destruct (rev applied) as [|z l]; [done|].
      assert (list.last (lA ++ [x]) = Some it) as E by (rewrite EA; rewrite last_app; by rewrite Hi).
      rewrite last_snoc in E. by injection E as ->.
    + intros it Hi. apply (Hne lA x); [by left|]. rewrite EA. apply elem_of_app. by right.
    + intros it c Hi Hc. apply Hinj; [right; rewrite EA; apply elem_of_app; by right|].
      destruct Hc as [Hc|Hc]; [right|left; by apply Hin0]. rewrite EA, fmap_app. apply elem_of_app. by right.
  - assert (lA ++ [x] = rev rest ++ rev applied) as EA.
    { by rewrite <- (rev_involutive (lA ++ [x])), Hrev, rev_app_distr. }
    eapply (restore_fork_at held b rest (lB ++ [y]) applied target e0 n4 n' (Throw e)) in Hres; try done.
    + intros Hc. destruct Hres as [?|[[? _]|?]]; [congruence|by left|by right].
    + rewrite EA in BA. apply is_branch_app in BA as [_ BA]. by eapply branch_downward.
    + intros it Hi. rewrite <- HpA. destruct (rev applied) as [|z l]; [done|].
      assert (list.last (lA ++ [x]) = Some it) as E by (rewrite EA; rewrite last_app; by rewrite Hi).
      rewrite last_snoc in E. by injection E as ->.
    + intros it Hi. apply (Hne lA x); [by left|]. rewrite EA. apply elem_of_app. by right.
    + intros it c Hi Hc. apply Hinj; [right; rewrite EA; apply elem_of_app; by right|].
      destruct Hc as [Hc|Hc]; [right|left; by apply Hin0]. rewrite EA, fmap_app. apply elem_of_app. by right.
  - injection Er as ->. intros Hc. congruence.
Qed.

(** Whatever happens when a block is pushed (it extends the head, the
    node switches forks, the block or a switch fails, pending transactions
    are pushed again), the state of the node stays the result of applying a
    chain of blocks, with the state before each of the newest of them on the
    undo history. *)
Theorem push_block_keeps_chain b n : node_ok n → node_ok (database_push_block b n).1.
Proof. apply database_push_keeps. Qed.

(** C6.  Pushing a block is atomic on the chain.  The node's state comes from
    applying the blocks [bs], its fork database is well formed, and different
    blocks that it knows have different ids.  If [_push_block] throws, also
    when a fork switch fails half way, the state is the one from before and
    the undo history has at most lost its oldest states; the only exception is
    a switch in which a block could not be taken back, because it was not to
    be found or because the fork database or the undo history -- which are cut
    off behind the last irreversible block -- do not reach far enough.  If it
    reports no switch, nothing happened to the chain or the block was applied
    to the head.  If it reports one, the blocks of the old branch above the
    common ancestor are replaced by exactly those of the new branch, and the
    undo history holds the newest of the states on the way. *)
Theorem push_block_atomic b n bs n' r :
  backed (nd_state n) (nd_undo n) bs → length bs = length (nd_undo n) →
  fork_wf (nd_fork n) → 1 <= block_num b → distinct_ids n b bs →
  push_block_inner b n = (n', r) →
  match r with
  | Throw e => catchable e = true →
      (nd_state n' = nd_state n ∧ nd_undo n' `prefix_of` nd_undo n) ∨
      (∃ f h first second, ForkDb.push_block (nd_fork n) b = Ok f ∧ ForkDb.head f = Some h ∧
         fetch_branch_from f (block_id (data h)) (head_block_id (nd_state n)) = Ok (first, second) ∧
         cannot_pop (first ++ second) n' ∧ node_ok n')
  | Ok false =>
      (nd_state n' = nd_state n ∧ nd_undo n' = nd_undo n) ∨
      (chain_apply_block (nd_state n) b = Ok (nd_state n') ∧ nd_undo n' `prefix_of` nd_state n :: nd_undo n)
  | Ok true => ∃ f h first second s0 undo0 full', ForkDb.push_block (nd_fork n) b = Ok f ∧
      ForkDb.head f = Some h ∧
      fetch_branch_from f (block_id (data h)) (head_block_id (nd_state n)) = Ok (first, second) ∧
      backed (nd_state n) (nd_undo n) (data <$> second) ∧
      below (length second) (nd_state n) (nd_undo n) s0 undo0 ∧
      backed (nd_state n') full' (data <$> first) ∧
      below (length first) (nd_state n') full' s0 undo0 ∧ nd_undo n' `prefix_of` full'
  end.
Proof.
  intros Hbk Hlen Hwf Hnum Hids Hrun.
  assert (node_ok n') as Hok.
  { assert (n' = (push_block_inner b n).1) as -> by by rewrite Hrun.
    eapply chain_node_ok, push_inner_keeps, node_ok_chain. by exists bs. }
  unfold push_block_inner in Hrun. unfold sbind at 1 in Hrun. cbn [get] in Hrun.
  apply sbind_run in Hrun as [(n1 & f & Hf & Hrun)|(e & Hf & ->)]; unfold lift in Hf.
  2: { injection Hf as <- ?. intros _. by left. }
  injection Hf as <- Ef. apply sbind_run in Hrun as [(n2 & u & Hs & Hrun)|(e & Hs & ->)]; [|done].
  injection Hs as <- _. set (n2 := mkNode _ _ _ _ _ _ _ _) in Hrun.
  assert (at_state n2 (nd_state n) (nd_undo n)) as Hn2 by done.
  apply sbind_run in Hrun as [(n3 & h & Hh & Hrun)|(e & Hh & ->)]; unfold lift in Hh; injection Hh as <- Eh;
    (destruct (ForkDb.head f) as [h'|] eqn:Eh'; [|done || (injection Eh as <-; done)]); [|done].
  injection Eh as ->. assert (fork_wf f) as Hwff by by eapply push_block_wf.
  destruct (negb _).
  - destruct (_ <? _); [|injection Hrun as <- <-; by left].
    apply sbind_run in Hrun as [(n4 & [first second] & Hbr & Hrun)|(e & Hbr & ->)]; unfold lift in Hbr;
      [|injection Hbr as <- ?; intros _; by left].
    injection Hbr as <- Ebr. pose proof Ebr as Hinv.
    apply fetch_branch_inv in Hinv as (lA & x & lB & y & EA & EB & BA & BB & HhA & HhB & Hprev); [|done].
    subst first second.
    apply sbind_run in Hrun as [(n5 & target & Ht & Hrun)|(e & Ht & ->)]; unfold lift, fork_target in Ht;
      rewrite last_snoc in Ht; [|done].
    injection Ht as <- <-.
    assert (∀ it, live f it → known_block n b bs (data it)) as Hlive.
    { intros it Hit. destruct (push_block_live _ _ _ _ Ef Hit) as [?| ->]; [right; right; eauto|by left]. }
    pose proof (switch_run b n bs f lA x lB y (previous (data y)) n2 n' r) as Hres.
    assert (match r with
      | Ok z => z = true ∧ ∃ s0 undo0 full', backed (nd_state n) (nd_undo n) (data <$> (lB ++ [y])) ∧
          below (length (lB ++ [y])) (nd_state n) (nd_undo n) s0 undo0 ∧
          backed (nd_state n') full' (data <$> (lA ++ [x])) ∧
          below (length (lA ++ [x])) (nd_state n') full' s0 undo0 ∧ nd_undo n' `prefix_of` full'
      | Throw e => catchable e = true →
          at_state n' (nd_state n) (nd_undo n) ∨ cannot_pop ((lA ++ [x]) ++ (lB ++ [y])) n' end) as Hfin.
    { apply Hres; try done.
      - destruct (hd_error (lB ++ [y])) as [z|] eqn:Ez; [|done]. injection HhB as HhB. rewrite <- HhB. simpl.
        apply (wf_item f Hwff). eapply is_branch_live; [exact BB|]. destruct (lB ++ [y]); [done|].
        injection Ez as ->. left.
      - intros it c Hit Hc. apply Hids.
        + apply Hlive. destruct Hit; eapply is_branch_live; [exact BB|done|exact BA|done].
        + destruct Hc as [Hc|(z & -> & Hz)%list_elem_of_fmap]; [right; by left|].
          apply Hlive. eapply is_branch_live; [exact BA|done]. }
    destruct r as [z|e].
    + destruct Hfin as (-> & s0 & undo0 & full' & Hfin). by exists f, h, (lA ++ [x]), (lB ++ [y]), s0, undo0, full'.
    + intros Hc. destruct (Hfin Hc) as [?|Hp]; [by left|right]. by exists f, h, (lA ++ [x]), (lB ++ [y]).
  - destruct (apply_and_store (block_id b) b n2) as [n4 [u4|e]] eqn:Ea;
      pose proof (apply_at _ _ _ _ _ _ _ Hn2 Ea) as Hres.
    + injection Hrun as <- <-. right. by destruct Hres as (? & _ & ?).
    + destruct (catchable e) eqn:Ec; [|injection Hrun as <- <-; congruence].
      cbn in Hrun. injection Hrun as <- <-. intros _. left. apply Hres.
Qed.

(** Pushing keeps the fork database well formed, as the theorem needs it. *)
Theorem push_block_keeps_fork b n :
  fork_wf (nd_fork n) → 1 <= block_num b → fork_wf (nd_fork (push_block_inner b n).1).
Proof. apply push_inner_fork. Qed.
End props.

(** ** A small chain

    The state is the list of the ids of the applied blocks; a block with a
    body of 90 or more is invalid. *)

#[local] Existing Instance sample_digest.

Definition unit_pack : BlockPack := {| pack_size _ := 1; pack_size_pos _ := eq_refl |}.
#[local] Existing Instance unit_pack.

Definition id_chain : ChainState (list Z) Z := {|
  head_block_id s := default 0 (hd_error s);
  chain_apply_block s b :=
    FC_ASSERT ((previous b =? default 0 (hd_error s)) && (body b <? 90)) ;; Ok (block_id b :: s);
  chain_apply_transaction s _ := Ok s;
  chain_block_history _ _ := [history_limited 3];
  chain_transaction_history _ _ := [];
  is_known_transaction _ _ := false;
  transactions _ := []
|}.
#[local] Existing Instance id_chain.

Lemma id_chain_laws : ChainStateLaws (list Z) Z.
Proof.
  intros s b s' Hs. unfold chain_apply_block in Hs; simpl in Hs.
  apply rbind_ok in Hs as (u & Hu%require_ok & [= <-]). apply andb_true_iff in Hu as [Hu _].
  apply Z.eqb_eq in Hu. done.
Qed.
#[local] Existing Instance id_chain_laws.

Definition genesis_node : node (list Z) Z := mkNode [] [] 10 empty_fork_db empty_store None [] [].
Definition push_all (l : list signed_block) : node (list Z) Z :=
  foldl (λ n b, (database_push_block b n).1) genesis_node l.

Lemma push_block_keeps_chain_witness : node_ok (database_push_block block1 genesis_node).1.
Proof.
  apply (push_block_keeps_chain block1 genesis_node). exists []. split; [reflexivity|exact I].
Defined.

(** A branch at block 1 whose second block is invalid. *)
Definition bad3 : signed_block := mkBlock (block_id block2') 99.
Definition forked_node : node (list Z) Z := push_all [block1; block2; block2'].

Definition forked_db : fork_database := get_ok (ForkDb.push_block (nd_fork forked_node) bad3) empty_fork_db.
Definition forked_branches : list fork_item * list fork_item :=
  get_ok (fetch_branch_from forked_db (block_id bad3) (block_id block2)) ([], []).

Definition good3 : signed_block := mkBlock (block_id block2') 33.

Lemma forked_reachable : fork_reachable (nd_fork forked_node).
Proof.
  set (f1 := get_ok (ForkDb.push_block empty_fork_db block1) empty_fork_db).
  set (f2 := get_ok (ForkDb.push_block (set_max_size f1 3) block2) empty_fork_db).
  set (f3 := get_ok (ForkDb.push_block (set_max_size f2 3) block2') empty_fork_db).
  replace (nd_fork forked_node) with f3 by (vm_compute; reflexivity).
  eapply reach_step; [eapply reach_step; [eapply reach_step; [eapply reach_step;
    [eapply reach_step; [apply reach_empty|]|]|]|]|].
  - apply (step_push _ block1 f1); [intros _; vm_compute; discriminate|]. apply get_ok_eq. vm_compute. reflexivity.
  - apply (step_max _ 3).
  - apply (step_push _ block2 f2); [intros _; vm_compute; discriminate|]. apply get_ok_eq. vm_compute. reflexivity.
  - apply (step_max _ 3).
  - apply (step_push _ block2' f3); [intros _; vm_compute; discriminate|]. apply get_ok_eq. vm_compute. reflexivity.
Qed.

Definition all_data (f : fork_database) : list signed_block :=
  (λ kv, data kv.2) <$> map_to_list (index f) ++ ((λ it, (0, it)) <$> option_list (ForkDb.head f)).

Lemma live_data f it : live f it → data it ∈ all_data f.
Proof.
  intros Hit. apply list_elem_of_fmap. destruct Hit as [[i Hi]|Hh].
  - exists (i, it). split; [done|]. apply elem_of_app. left. by apply elem_of_map_to_list.
  - exists (0, it). split; [done|]. apply elem_of_app. right. rewrite Hh. left.
Qed.

Lemma distinct_ids_test {S} `{!ChainState S Z} (n : node S Z) b bs :
  (let l := b :: bs ++ all_data (nd_fork n) in
   forallb (λ x, forallb (λ y, negb (block_id x =? block_id y) || bool_decide (x = y)) l) l) = true →
  distinct_ids n b bs.
Proof.
  set (l := b :: bs ++ all_data (nd_fork n)). cbv zeta. intros Hall x y Hx Hy E.
  assert (∀ z, known_block n b bs z → In z l) as Hin.
  { intros z Hz. apply list_elem_of_In. unfold l. destruct Hz as [->|[Hz|(it & Hit & <-)]]; [left|right..];
      apply elem_of_app; [by left|right; by apply live_data]. }
  rewrite forallb_forall in Hall. specialize (Hall x (Hin x Hx)).
  rewrite forallb_forall in Hall. specialize (Hall y (Hin y Hy)).
  rewrite E, Z.eqb_refl in Hall. by apply bool_decide_eq_true in Hall.
Qed.

(** The longer branch takes over. *)
Lemma push_block_atomic_witness :
  let n' := (push_block_inner good3 forked_node).1 in
  ∃ s0 undo0 full', below 1 (nd_state forked_node) (nd_undo forked_node) s0 undo0 ∧
    below 2 (nd_state n') full' s0 undo0 ∧ nd_undo n' `prefix_of` full'.
Proof.
  intros n'. pose proof (push_block_atomic good3 forked_node [block2; block1] n' (Ok true)) as Hat.
  destruct Hat as (f & h & first & second & s0 & undo0 & full' & Hf & Hh & Hbr & _ & B2 & _ & B1 & Hp).
  - vm_compute. split_and!; reflexivity.
  - vm_compute. reflexivity.
  - apply fork_reachable_wf, forked_reachable.
  - vm_compute. discriminate.
  - apply distinct_ids_test. vm_compute. reflexivity.
  - vm_compute. reflexivity.
  - exists s0, undo0, full'.
    assert (f = get_ok (ForkDb.push_block (nd_fork forked_node) good3) empty_fork_db) as -> by (unfold get_ok; by rewrite Hf).
    assert (h = default (mkItem 0 None 0 0 block1) (ForkDb.head (get_ok (ForkDb.push_block (nd_fork forked_node) good3) empty_fork_db)))
      as -> by by rewrite Hh.
    vm_compute in Hbr. injection Hbr as <- <-. split; [exact B2|split; [exact B1|exact Hp]].
Defined.

(** The undo history is cut off at its old end. *)
Example history_cut_off :
  let n := push_all [block1; block2; block3; mkBlock (block_id block3) 14; mkBlock (block_id (mkBlock (block_id block3) 14)) 15] in
  (length (nd_state n), length (nd_undo n)) = (5%nat, 4%nat).
Proof. vm_compute. reflexivity. Qed.

(** After a fork switch that failed, the block storage no longer has the
    chain of the node: the blocks of the failed branch were stored over it,
    and the restored blocks are all stored under the id of the new block.
    Here the node is on block 2, and the storage gives out the block of the
    other branch for its number; the head of the fork database is not the
    head of the chain either. *)
Theorem failed_switch_storage :
  let n := (database_push_block bad3 forked_node).1 in
  nd_state n = [block_id block2; block_id block1] ∧
  fetch_by_number (nd_store n) 2 = Some block2' ∧ fetch_optional (nd_store n) (block_id block2) = None ∧
  (data <$> ForkDb.head (nd_fork n)) = Some block1.
Proof. vm_compute. done. Qed.

(** After an invalid block on top of the head, a valid block of another
    branch is refused and forgotten: the fork database keeps the invalid
    block as its head, so [_push_block] takes the other block for one that
    extends the chain.  Without the invalid block in between it is accepted
    into the fork database. *)
Theorem invalid_block_hides_fork :
  let n := push_all [block1; block2] in
  let n' := (database_push_block (mkBlock (block_id block2) 98) n).1 in
  (database_push_block block2' n).2 = Ok false ∧
  is_known_block (nd_fork (database_push_block block2' n).1) (block_id block2') = true ∧
  (database_push_block block2' n').2 = Throw assert_exception ∧
  is_known_block (nd_fork (database_push_block block2' n').1) (block_id block2') = false.
Proof. vm_compute. done. Qed.
