(* ===== verification/BlockProduction.v ===== *)
(** * Producing a block ([db_block.cpp], [_generate_block])

    The pending transactions a witness puts into its block.  What an operation
    is, applying a transaction and the size of its packed form are
    parameters; signing is left out. *)

From stdpp Require Import gmap list.
From Stdlib Require Import ZArith Lia.
From S2P Require Import Prelude.

Local Open Scope Z_scope.

Section production.
Context {S Tx Op : Type}.
Context (operations : Tx → list Op) (is_bonus : Op → bool).   (* witness or founder bonus *)
Context (apply_transaction : S → Tx → result (Tx * S)).       (* with the processed transaction *)
Context (tx_size : Tx → Z).

(** The inner loop on the operations of [_pending_tx[i]]: when a bonus
    operation is met the transaction is erased, and [continue] goes on with
    the operations of the erased transaction. *)
Fixpoint scan_operations (ops : list Op) : result bool :=
  match ops with
  | [] => Ok false
  | op :: ops' =>
      if is_bonus op then
        match ops' with [] => Ok true | _ :: _ => Throw undefined_behaviour end
      else scan_operations ops'
  end.

(** The outer loop, from the last pending transaction to the first. *)
Fixpoint remove_bonus_transactions (pending : list Tx) : result (list Tx) :=
  match pending with
  | [] => Ok []
  | tx :: pending' =>
      let* rest := remove_bonus_transactions pending' in
      let* erased := scan_operations (operations tx) in
      Ok (if erased then rest else tx :: rest)
  end.

(** The transactions that fit and apply; the others are postponed or
    skipped. *)
Fixpoint fill_block (maximum_block_size : Z) (pending : list Tx) (total_block_size : Z) (s : S)
    (block : list Tx) : result (list Tx * Z * S) :=
  match pending with
  | [] => Ok (block, total_block_size, s)
  | tx :: pending' =>
      if maximum_block_size <=? total_block_size + tx_size tx
      then fill_block maximum_block_size pending' total_block_size s block
      else match apply_transaction s tx with
      | Ok (ptx, s') =>
          fill_block maximum_block_size pending' (total_block_size + tx_size ptx) s' (block ++ [ptx])
      | Throw e =>
          if catchable e then fill_block maximum_block_size pending' total_block_size s block
          else Throw e
      end
  end.

(** The transactions of the new block, and its size. *)
Definition generate_transactions (maximum_block_size header_size : Z) (pending : list Tx) (s : S)
    : result (list Tx) :=
  let* pending := remove_bonus_transactions pending in
  let* (block, size, _) := fill_block maximum_block_size pending header_size s [] in
  FC_ASSERT (size <=? maximum_block_size) ;;
  Ok block.

(** ** Properties *)

Lemma fill_block_ok limit pending size s block block' size' s' :
  fill_block limit pending size s block = Ok (block', size', s') →
  ∃ added, block' = block ++ added ∧ size' = size + foldr (λ tx acc, tx_size tx + acc) 0 added ∧
    ∃ txs, txs `sublist_of` pending ∧
      Forall2 (λ tx ptx, ∃ s1 s2, apply_transaction s1 tx = Ok (ptx, s2)) txs added ∧
      rfold (λ s tx, let* (_, s') := apply_transaction s tx in Ok s') s txs = Ok s'.
Proof.
  revert size s block. induction pending as [|tx pending IH]; intros size s block H; simpl in H.
  { injection H as <- <- <-. exists []. rewrite app_nil_r. split_and!; [done|simpl; lia|].
    exists []. split_and!; [done|constructor|done]. }
  destruct (_ <=? _).
  { apply IH in H as (added & ? & ? & txs & ? & ? & ?). exists added. split_and!; [done..|].
    exists txs. split_and!; [by apply sublist_cons|done|done]. }
  destruct (apply_transaction s tx) as [[ptx s1]|e] eqn:Ea.
  - apply IH in H as (added & -> & -> & txs & Hsub & Hf & Hr). exists (ptx :: added).
    rewrite <- app_assoc. split_and!; [done|simpl; lia|]. exists (tx :: txs).
    split_and!; [by apply sublist_skip|constructor; eauto|]. simpl. by rewrite Ea.
  - destruct (catchable e); [|done]. apply IH in H as (added & ? & ? & txs & ? & ? & ?).
    exists added. split_and!; [done..|]. exists txs. split_and!; [by apply sublist_cons|done|done].
Qed.

Lemma scan_operations_single ops :
  (length ops <= 1)%nat → scan_operations ops = Ok (existsb is_bonus ops).
Proof.
  destruct ops as [|op [|]]; simpl; intros Hl; [done| |lia]. by destruct (is_bonus op).
Qed.

Lemma scan_operations_plain ops : existsb is_bonus ops = false → scan_operations ops = Ok false.
Proof. induction ops as [|op ops IH]; simpl; [done|]. by intros [-> ?%IH]%orb_false_iff. Qed.

Lemma remove_bonus_ok pending :
  (∀ tx, tx ∈ pending → (length (operations tx) <= 1)%nat ∨ existsb is_bonus (operations tx) = false) →
  remove_bonus_transactions pending = Ok (List.filter (λ tx, negb (existsb is_bonus (operations tx))) pending).
Proof.
  induction pending as [|tx pending IH]; intros Hp; simpl; [done|].
  rewrite IH by (intros; apply Hp; set_solver). cbn [rbind].
  assert (scan_operations (operations tx) = Ok (existsb is_bonus (operations tx))) as ->.
  { destruct (Hp tx) as [Hl|Hb]; [set_solver|by apply scan_operations_single|].
    rewrite Hb. by apply scan_operations_plain. }
  cbn [rbind]. by destruct (existsb is_bonus (operations tx)).
Qed.

(** The block a witness produces from its pending transactions: when
    bonus operations stand alone in their transactions, none of those
    transactions is in the block; the block consists of the results of a
    subsequence of the other pending transactions, which apply one after the
    other from the head state; and its size is within the limit. *)
Theorem generated_block_applies limit header pending s block :
  (∀ tx, tx ∈ pending → (length (operations tx) <= 1)%nat ∨ existsb is_bonus (operations tx) = false) →
  generate_transactions limit header pending s = Ok block →
  header + foldr (λ tx acc, tx_size tx + acc) 0 block <= limit ∧
  ∃ txs s', txs `sublist_of` List.filter (λ tx, negb (existsb is_bonus (operations tx))) pending ∧
    Forall2 (λ tx ptx, ∃ s1 s2, apply_transaction s1 tx = Ok (ptx, s2)) txs block ∧
    rfold (λ s tx, let* (_, s') := apply_transaction s tx in Ok s') s txs = Ok s'.
Proof.
  intros Hp H. unfold generate_transactions in H. rewrite remove_bonus_ok in H by done. cbn [rbind] in H.
  apply rbind_ok in H as ([[b size] s'] & Hf & H). apply rbind_ok in H as (u & Hle%require_ok & [= <-]).
  apply fill_block_ok in Hf as (added & -> & -> & txs & Hsub & Hf & Hr). simpl.
  split; [apply Z.leb_le in Hle; lia|]. by exists txs, s'.
Qed.
End production.

(** A toy ledger: transactions are lists of numbers added to the state,
    numbers of 100 or more are bonus operations, a negative sum fails. *)
Definition toy_apply (s : Z) (tx : list Z) : result (list Z * Z) :=
  FC_ASSERT (0 <=? s + foldr Z.add 0 tx) ;; Ok (tx, s + foldr Z.add 0 tx).
Definition toy_bonus (op : Z) : bool := 100 <=? op.

Lemma generated_block_applies_witness : 1 + 2 <= 4.
Proof.
  apply (generated_block_applies id toy_bonus toy_apply (λ tx, Z.of_nat (length tx)) 4 1
    [[5]; [-9]; [100]; [1]] 0 [[5]; [1]]).
  - intros tx Htx. left. repeat (apply elem_of_cons in Htx as [->|Htx]; [simpl; lia|]).
    apply elem_of_nil in Htx. destruct Htx.
  - vm_compute. reflexivity.
Defined.

(** A pending transaction with an operation after a bonus operation
    makes the witness read operations of the transaction it just erased. *)
Theorem erased_transaction_read :
  generate_transactions id toy_bonus toy_apply (λ tx, Z.of_nat (length tx)) 4 1 [[5]; [100; 1]] 0
  = Throw undefined_behaviour.
Proof. vm_compute. reflexivity. Qed.
