(* ===== verification/AuthorityTheorems.v ===== *)
(** * Transaction authorities: soundness and completeness

    The check of a transaction's signatures against a declarative account of
    what an authority asks for: [verify_authority] accepts only what the
    signatures justify, accepts everything they justify within the recursion
    limit, and refuses superfluous signatures; minimising a set of signatures
    keeps it valid. *)

From stdpp Require Import gmap list.
From Stdlib Require Import ZArith Lia.
From S2P Require Import Prelude Config Authority.


Local Open Scope Z_scope.

(** ** The specification *)

(** The weight of the entries that satisfy [P]. *)
Fixpoint weight_in (P : Z → bool) (l : list (Z * Z)) : Z :=
  match l with
  | [] => 0
  | (x, w) :: l' => (if P x then w else 0) + weight_in P l'
  end.

(** Weights and thresholds are unsigned. *)
Definition authority_wf (a : authority) : Prop :=
  Forall (λ kw, 0 <= kw.2) (account_auths a) ∧ Forall (λ kw, 0 <= kw.2) (key_auths a) ∧
  Forall (λ kw, 0 <= kw.2) (address_auths a).

Lemma weight_in_nonneg P l : Forall (λ kw : Z * Z, 0 <= kw.2) l → 0 <= weight_in P l.
Proof. induction 1 as [|[x w] l Hw _ IH]; simpl in *; [lia|]. case_match; lia. Qed.

Lemma weight_in_mono (P Q : Z → bool) l :
  Forall (λ kw : Z * Z, 0 <= kw.2) l → (∀ x, P x = true → Q x = true) → weight_in P l <= weight_in Q l.
Proof.
  intros Hl Himp. induction Hl as [|[x w] l Hw _ IH]; simpl in *; [lia|].
  destruct (P x) eqn:E; [rewrite (Himp _ E); lia|]. case_match; lia.
Qed.

Section spec.
Context (key_addresses : Z → list Z).
Context (get_active : Z → result (option authority)).
Context (signers : gset Z).       (* the keys that signed or can sign *)
Context (pre : gset Z).           (* accounts whose approval is given *)

Definition address_signed (a : Z) : bool :=
  existsb (λ k, bool_decide (a ∈ key_addresses k)) (flat_elements signers).

(** The signatures satisfy [a] with at most [n] levels of accounts. *)
Fixpoint satisfied (n : nat) (a : authority) : bool :=
  weight_threshold a <=?
    weight_in (λ k, bool_decide (k ∈ signers)) (key_auths a)
    + weight_in address_signed (address_auths a)
    + weight_in (λ x, bool_decide (x ∈ pre) ||
        match n with
        | O => false
        | S n' => match get_active x with Ok (Some b) => satisfied n' b | _ => false end
        end) (account_auths a).

Definition account_ok (n : nat) (x : Z) : bool :=
  bool_decide (x ∈ pre) ||
  match n with
  | O => false
  | S n' => match get_active x with Ok (Some b) => satisfied n' b | _ => false end
  end.

Lemma satisfied_unfold n a :
  satisfied n a = (weight_threshold a <=?
    weight_in (λ k, bool_decide (k ∈ signers)) (key_auths a)
    + weight_in address_signed (address_auths a) + weight_in (account_ok n) (account_auths a)).
Proof. by destruct n. Qed.

Hypothesis active_wf : ∀ x b, get_active x = Ok (Some b) → authority_wf b.

Lemma satisfied_mono n m a :
  (n <= m)%nat → authority_wf a → satisfied n a = true → satisfied m a = true.
Proof.
  revert m a. induction n as [|n IH]; intros m a Hnm Hwf; rewrite !satisfied_unfold, !Z.leb_le;
    (intros H; etrans; [exact H|]); apply Z.add_le_mono_l, weight_in_mono; try apply Hwf;
    intros x; unfold account_ok; simpl; (destruct (bool_decide (x ∈ pre)); [done|]); simpl; [done|].
  destruct m as [|m]; [lia|]. destruct (get_active x) as [[b|]|] eqn:E; try done.
  apply IH; [lia|by eapply active_wf].
Qed.

Lemma account_ok_mono n m x : (n <= m)%nat → account_ok n x = true → account_ok m x = true.
Proof.
  unfold account_ok. intros Hnm. destruct (bool_decide (x ∈ pre)); [done|]; simpl.
  destruct n as [|n]; [done|]. destruct m as [|m]; [lia|].
  destruct (get_active x) as [[b|]|] eqn:E; try done.
  apply satisfied_mono; [lia|by eapply active_wf].
Qed.

(** An authority that is impossible is never satisfied. *)
Lemma total_auths_ge l acc P :
  Forall (λ kw : Z * Z, 0 <= kw.2) l → 0 <= acc →
  acc + weight_in (λ _, true) l < 2 ^ 64 → acc + weight_in P l <= total_auths l acc
  ∧ total_auths l acc = acc + weight_in (λ _, true) l.
Proof.
  intros Hl. revert acc. induction Hl as [|[x w] l Hw Hl IH]; simpl in *; intros acc Ha Hb; [lia|].
  pose proof (weight_in_nonneg (λ _, true) l Hl).
  destruct (IH (wrap_u64 (acc + w))) as [H1 H2].
  - rewrite wrap_u64_small; lia.
  - rewrite wrap_u64_small; lia.
  - rewrite wrap_u64_small in H1, H2 by lia. unfold total_auths in *; simpl.
    rewrite wrap_u64_small by lia. case_match; lia.
Qed.
End spec.

(** ** The loops *)

Section weigh.
Context (I : sign_state → Prop).

(** What [weigh] has added up is backed by entries that hold. *)
Lemma weigh_sound (P : nat → Z → bool) test thr items total s reached total' s' :
  (∀ n m x, (n <= m)%nat → P n x = true → P m x = true) →
  (∀ s x ok s1, x ∈ items.*1 → I s → test s x = Ok (ok, s1) →
     I s1 ∧ (ok = true → ∃ n, P n x = true)) →
  Forall (λ kw : Z * Z, 0 <= kw.2) items → 0 <= total → I s →
  weigh test thr items total s = Ok (reached, total', s') →
  I s' ∧ 0 <= total' ∧ (reached = true → thr <= total') ∧
  ∃ n, total' <= total + weight_in (P n) items.
Proof.
  intros Hmono Htest Hw. revert total s. induction Hw as [|[x w] l Hw Hl IH]; intros total s Ht HI H.
  { injection H as <- <- <-. split_and!; [done|done|done|]. exists 0%nat. simpl. lia. }
  cbn [weigh] in H. apply rbind_ok in H as ([ok s1] & H1 & H). simpl in Hw.
  destruct (Htest s x ok s1) as [HI1 Hok]; [simpl; set_solver|done|done|].
  assert (∀ P, 0 <= weight_in P l) as Hpos by (intros; by apply weight_in_nonneg).
  destruct ok.
  - destruct (Hok eq_refl) as [n0 Hn0].
    pose proof (wrap_u32_range (total + w)) as Hr.
    assert (wrap_u32 (total + w) <= total + w) as Hle by (apply Z.mod_le; lia).
    destruct (Z.leb_spec thr (wrap_u32 (total + w))).
    + injection H as <- <- <-. split_and!; [done|lia|lia|]. exists n0. simpl. rewrite Hn0.
      specialize (Hpos (P n0)). lia.
    + apply IH in H as (? & ? & ? & n & Hn); [|intros; eapply Htest; eauto; simpl; set_solver|lia|done].
      split_and!; [done..|]. exists (n0 `max` n)%nat. simpl.
      rewrite (Hmono n0 (n0 `max` n)%nat x) by (lia || done).
      assert (weight_in (P n) l <= weight_in (P (n0 `max` n)%nat) l); [|lia].
      apply weight_in_mono; [done|]. intros y. apply Hmono. lia.
  - apply IH in H as (? & ? & ? & n & Hn); [|intros; eapply Htest; eauto; simpl; set_solver|lia|done].
    split_and!; [done..|]. exists n. simpl. case_match; lia.
Qed.

(** [weigh] reaches the threshold when the entries that hold carry enough
    weight. *)
Lemma weigh_complete (P : Z → bool) test thr items total s :
  (∀ s x, x ∈ items.*1 → I s → ∃ ok s1, test s x = Ok (ok, s1) ∧ I s1 ∧ (P x = true → ok = true)) →
  Forall (λ kw : Z * Z, 0 <= kw.2) items → 0 <= total →
  total + weight_in (λ _, true) items < 2 ^ 32 → I s →
  ∃ reached total' s', weigh test thr items total s = Ok (reached, total', s') ∧ I s' ∧
    (reached = false → total + weight_in P items <= total' ∧
       total' <= total + weight_in (λ _, true) items).
Proof.
  intros Htest Hw. revert total s. induction Hw as [|[x w] l Hw Hl IH]; intros total s Ht Hb HI.
  { exists false, total, s. split_and!; [done|done|simpl; lia]. }
  simpl in Hb, Hw. pose proof (weight_in_nonneg (λ _, true) l Hl) as Hpos.
  destruct (Htest s x) as (ok & s1 & H1 & HI1 & Hok); [simpl; set_solver|done|].
  assert (∀ s x, x ∈ l.*1 → I s → ∃ ok s1, test s x = Ok (ok, s1) ∧ I s1 ∧ (P x = true → ok = true)) as Ht'.
  { intros. apply Htest; [simpl; set_solver|done]. }
  cbn [weigh]. rewrite H1. cbn [rbind]. destruct ok.
  - rewrite wrap_u32_small by lia. destruct (thr <=? total + w).
    + by exists true, (total + w), s1.
    + destruct (IH Ht' (total + w) s1) as (r & t' & s' & E & HI' & Hr); [lia|lia|done|].
      exists r, t', s'. split_and!; [done|done|]. intros Hf. destruct (Hr Hf). simpl. case_match; lia.
  - destruct (IH Ht' total s1) as (r & t' & s' & E & HI' & Hr); [lia|lia|done|].
    exists r, t', s'. split_and!; [done|done|]. intros Hf. destruct (Hr Hf). simpl.
    destruct (P x); [by discriminate Hok|lia].
Qed.
End weigh.

(** ** The check *)

(** The authorities a check can visit, starting from [root]. *)
Inductive reachable (get_active : Z → result (option authority)) (root : authority → Prop)
    : authority → Prop :=
  | reach_root a : root a → reachable get_active root a
  | reach_account a x b :
      reachable get_active root a → x ∈ (account_auths a).*1 → get_active x = Ok (Some b) →
      reachable get_active root b.

Section check.
Context (key_addresses : Z → list Z).
Context (get_active : Z → result (option authority)).
Context (available_keys sigs pre : gset Z).
Context (root : authority → Prop).
Hypothesis active_wf : ∀ x b, get_active x = Ok (Some b) → authority_wf b.

Notation signers := (sigs ∪ available_keys).
Notation satisfied_by := (satisfied key_addresses get_active signers pre).
Notation reach := (reachable get_active root).

(** Authority [b] names key [k]. *)
Definition names (b : authority) (k : Z) : Prop :=
  k ∈ (key_auths b).*1 ∨ ∃ a, a ∈ (address_auths b).*1 ∧ a ∈ key_addresses k.

(** What holds of a [sign_state] throughout a check. *)
Record state_ok (s : sign_state) : Prop := {
  so_sigs : sigs ⊆ dom (provided_signatures s);
  so_signers : dom (provided_signatures s) ⊆ signers;
  so_tables : ∀ t a k, address_sigs s = Some t → t.1 !! a = Some k ∨ t.2 !! a = Some k →
    k ∈ signers ∧ a ∈ key_addresses k;
  so_pre : pre ⊆ approved_by s;
  so_approved : ∀ x, x ∈ approved_by s → x ∈ pre ∨ ∃ n b, get_active x = Ok (Some b) ∧
    satisfied_by n b = true;
  so_used : ∀ k, provided_signatures s !! k = Some true → ∃ b, reach b ∧ names b k
}.

Lemma use_key_ok s k :
  state_ok s → k ∈ signers → (∃ b, reach b ∧ names b k) → state_ok (use_key k s).
Proof.
  intros [H1 H2 H3 H4 H5 H6] Hk Hn. split; simpl; try done.
  - rewrite dom_insert. set_solver.
  - rewrite dom_insert. set_solver.
  - intros j. rewrite lookup_insert_Some. intros [[<- _]|[_ Hj]]; [done|by apply H6].
Qed.

Lemma signed_by_ok s k :
  state_ok s → (∃ b, reach b ∧ names b k) →
  state_ok (signed_by available_keys s k).2 ∧
  (signed_by available_keys s k).1 = bool_decide (k ∈ signers).
Proof.
  intros Hs Hn. pose proof Hs as [H1 H2 _ _ _ _]. unfold signed_by.
  destruct (provided_signatures s !! k) as [b|] eqn:E; simpl.
  - assert (k ∈ signers) as Hk by (apply H2; by eapply elem_of_dom_2).
    split; [by apply use_key_ok|]. by rewrite bool_decide_true.
  - apply not_elem_of_dom in E. case_bool_decide as Ha; simpl.
    + assert (k ∈ signers) by set_solver. split; [by apply use_key_ok|]. by rewrite bool_decide_true.
    + split; [done|]. rewrite bool_decide_false; [done|]. set_solver.
Qed.

Lemma addresses_of_ok keys a k :
  addresses_of key_addresses keys !! a = Some k → k ∈ keys ∧ a ∈ key_addresses k.
Proof.
  unfold addresses_of.
  assert (∀ (ks : list Z) (m : gmap Z Z), (∀ k, k ∈ ks → k ∈ keys) →
    (∀ a k, m !! a = Some k → k ∈ keys ∧ a ∈ key_addresses k) →
    ∀ a k, foldl (λ m k, foldl (λ m a, <[a:=k]> m) m (key_addresses k)) m ks !! a = Some k →
      k ∈ keys ∧ a ∈ key_addresses k) as Hgen.
  { induction ks as [|k0 ks IH]; intros m Hks Hm; [done|]. simpl. apply IH; [set_solver|].
    assert (∀ (l : list Z) (m : gmap Z Z), (∀ a, a ∈ l → a ∈ key_addresses k0) →
      (∀ a k, m !! a = Some k → k ∈ keys ∧ a ∈ key_addresses k) →
      ∀ a k, foldl (λ m a, <[a:=k0]> m) m l !! a = Some k → k ∈ keys ∧ a ∈ key_addresses k) as Hin.
    { induction l as [|a0 l IHl]; intros m' Hl Hm'; [done|]. simpl. apply IHl; [set_solver|].
      intros a' k'. rewrite lookup_insert_Some. intros [[<- <-]|[_ ?]]; [|by apply Hm']. set_solver. }
    by apply Hin. }
  apply Hgen; [|done]. intros k'. by rewrite elem_of_flat_elements.
Qed.

Lemma address_signed_intro a k :
  k ∈ signers → a ∈ key_addresses k → address_signed key_addresses signers a = true.
Proof.
  intros Hk Ha. apply existsb_exists. exists k. split; [|by apply bool_decide_eq_true].
  by apply list_elem_of_In, elem_of_flat_elements.
Qed.

Lemma signed_by_address_ok s a ok s' b :
  state_ok s → reach b → a ∈ (address_auths b).*1 →
  signed_by_address key_addresses available_keys s a = Ok (ok, s') →
  state_ok s' ∧ (ok = true → address_signed key_addresses signers a = true).
Proof.
  intros Hs Hb Ha. pose proof Hs as [H1 H2 H3 H4 H5 H6]. unfold signed_by_address.
  set (t := match address_sigs s with Some t => t | None => _ end).
  assert (∀ a k, t.1 !! a = Some k ∨ t.2 !! a = Some k → k ∈ signers ∧ a ∈ key_addresses k) as Ht.
  { subst t. destruct (address_sigs s) as [t|] eqn:E; [intros; by eapply H3|].
    simpl. intros a' k [[? ?]%addresses_of_ok|[? ?]%addresses_of_ok]; set_solver. }
  set (s1 := mkSign _ (Some t) _).
  assert (state_ok s1) as Hs1 by (split; simpl; try done; intros t' a' k [= <-]; apply Ht).
  assert (∀ k, k ∈ signers → a ∈ key_addresses k → state_ok (use_key k s1)) as Huse.
  { intros k Hk Hak. apply use_key_ok; [done..|]. exists b. split; [done|]. right. eauto. }
  destruct (t.2 !! a) as [k|] eqn:E2.
  { intros [= <- <-]. destruct (Ht a k) as [? ?]; [by right|]. split; [by apply Huse|].
    intros _. by eapply address_signed_intro. }
  destruct (t.1 !! a) as [k|] eqn:E1; [|done]. destruct (Ht a k) as [? ?]; [by left|].
  case_bool_decide; intros [= <- <-]; [|done]. split; [by apply Huse|].
  intros _. by eapply address_signed_intro.
Qed.

Lemma approve_ok s x n b :
  state_ok s → get_active x = Ok (Some b) → satisfied_by n b = true → state_ok (approve x s).
Proof.
  intros [H1 H2 H3 H4 H5 H6] Hb Hn. split; simpl; try done; [set_solver|].
  intros y. rewrite elem_of_union, elem_of_singleton. intros [Hy| ->]; [by apply H5|right; eauto].
Qed.

(** The account loop's test. *)
Definition account_test (levels : nat) (s : sign_state) (a : Z) : result (bool * sign_state) :=
  if bool_decide (a ∈ approved_by s) then Ok (true, s)
  else match levels with
  | O => Ok (false, s)
  | S levels' =>
      let* b := get_active a in
      let* (ok, s) := check_authority key_addresses get_active available_keys levels' b s in
      Ok (ok, if ok then approve a s else s)
  end.

Lemma check_authority_unfold levels auth s :
  check_authority key_addresses get_active available_keys levels (Some auth) s =
    let threshold := weight_threshold auth in
    let* (reached, total_weight, s) :=
      weigh (λ s k, Ok (signed_by available_keys s k)) threshold (key_auths auth) 0 s in
    if (reached : bool) then Ok (true, s)
    else
      let* (reached, total_weight, s) :=
        weigh (signed_by_address key_addresses available_keys) threshold (address_auths auth)
          total_weight s in
      if (reached : bool) then Ok (true, s)
      else
        let* (reached, total_weight, s) :=
          weigh (account_test levels) threshold (account_auths auth) total_weight s in
        if (reached : bool) then Ok (true, s) else Ok (threshold <=? total_weight, s).
Proof. by destruct levels. Qed.

(** One level of the check, for an account test that is justified. *)
Lemma check_level_sound levels a s ok s' :
  (∀ s x ok s1, x ∈ (account_auths a).*1 → state_ok s → account_test levels s x = Ok (ok, s1) →
     state_ok s1 ∧ (ok = true → ∃ n, account_ok key_addresses get_active signers pre n x = true)) →
  reach a → authority_wf a → state_ok s →
  check_authority key_addresses get_active available_keys levels (Some a) s = Ok (ok, s') →
  state_ok s' ∧ (ok = true → ∃ n, satisfied_by n a = true).
Proof.
  intros Htest Hr (Wa & Wk & Wd) Hs H. rewrite check_authority_unfold in H. cbv zeta in H.
  set (K := weight_in (λ k, bool_decide (k ∈ signers)) (key_auths a)).
  set (D := weight_in (address_signed key_addresses signers) (address_auths a)).
  assert (0 <= D) as PD by (by apply weight_in_nonneg).
  assert (∀ n, 0 <= weight_in (account_ok key_addresses get_active signers pre n) (account_auths a)) as PA
    by (intros; by apply weight_in_nonneg).
  assert (∀ n t, t <= K + D + weight_in (account_ok key_addresses get_active signers pre n) (account_auths a) →
    weight_threshold a <= t → ∃ n, satisfied_by n a = true) as Hsat.
  { intros n t Ht Hthr. exists n. rewrite satisfied_unfold. apply Z.leb_le. fold K D. lia. }
  apply rbind_ok in H as ([[r1 t1] s1] & H1 & H).
  eapply (weigh_sound state_ok (λ _ k, bool_decide (k ∈ signers))) in H1
    as (Hs1 & T1 & R1 & n1 & B1); [|done| |exact Wk|lia|exact Hs].
  2:{ intros s0 k ok0 s2 Hk Hs0 [= E]. destruct (signed_by_ok s0 k Hs0) as [G1 G2].
      { exists a. split; [done|by left]. }
      rewrite E in G1, G2; simpl in G1, G2. split; [done|]. intros ->. by exists 0%nat. }
  fold K in B1. destruct r1.
  { injection H as <- <-. split; [done|]. intros _. apply (Hsat 0%nat t1); [|auto].
    specialize (PA 0%nat). lia. }
  apply rbind_ok in H as ([[r2 t2] s2] & H2 & H).
  eapply (weigh_sound state_ok (λ _, address_signed key_addresses signers)) in H2
    as (Hs2 & T2 & R2 & n2 & B2); [|done| |exact Wd|lia|exact Hs1].
  2:{ intros s0 k ok0 s3 Hk Hs0 H0. eapply signed_by_address_ok in H0 as [? ?]; [|done..].
      split; [done|]. intros. exists 0%nat. auto. }
  fold D in B2. destruct r2.
  { injection H as <- <-. split; [done|]. intros _. apply (Hsat 0%nat t2); [|auto].
    specialize (PA 0%nat). lia. }
  apply rbind_ok in H as ([[r3 t3] s3] & H3 & H).
  eapply (weigh_sound state_ok (account_ok key_addresses get_active signers pre)) in H3
    as (Hs3 & T3 & R3 & n3 & B3); [|by intros; eapply account_ok_mono|exact Htest|exact Wa|lia|exact Hs2].
  destruct r3; injection H as <- <-; (split; [done|]).
  - intros _. apply (Hsat n3 t3); [lia|auto].
  - intros Hthr%Z.leb_le. apply (Hsat n3 t3); lia.
Qed.

(** A check that says yes is justified. *)
Lemma check_authority_sound levels a s ok s' :
  reach a → authority_wf a → state_ok s →
  check_authority key_addresses get_active available_keys levels (Some a) s = Ok (ok, s') →
  state_ok s' ∧ (ok = true → ∃ n, satisfied_by n a = true).
Proof.
  revert a s ok s'. induction levels as [|levels IH]; intros a s ok s' Hr Hwf Hs;
    apply check_level_sound; try done; clear s ok s' Hs.
  all: intros s x ok s1 Hx Hs H; unfold account_test in H; case_bool_decide as Happ.
  1,3: injection H as <- <-; split; [done|]; intros _;
    destruct (so_approved _ Hs x Happ) as [Hp|(n & b & Hb & Hn)];
    [exists 0%nat; unfold account_ok; by rewrite bool_decide_true
    |exists (S n); unfold account_ok; rewrite Hb, Hn; apply orb_true_r].
  { by injection H as <- <-. }
  apply rbind_ok in H as ([b|] & Hb & H); [|simpl in H; destruct levels; by injection H as <- <-].
  apply rbind_ok in H as ([ok5 s5] & H5 & H).
  eapply IH in H5 as [Hs5 Hn5]; [|by eapply reach_account|by eapply active_wf|done].
  destruct ok5; injection H as <- <-; [|done]. destruct (Hn5 eq_refl) as [n Hn].
  split; [by eapply approve_ok|]. intros _. exists (S n). unfold account_ok. rewrite Hb, Hn.
  apply orb_true_r.
Qed.

(** ** Completeness *)

(** The checks on [a] neither overflow nor meet an address or an unknown
    account. *)
Definition plain (a : authority) : Prop :=
  authority_wf a ∧ address_auths a = [] ∧
  weight_in (λ _, true) (key_auths a) + weight_in (λ _, true) (account_auths a) < 2 ^ 32 ∧
  ∀ x, x ∈ (account_auths a).*1 → ∃ o, get_active x = Ok o.

Lemma check_level_complete levels a s :
  (∀ s x, x ∈ (account_auths a).*1 → state_ok s → ∃ ok s1, account_test levels s x = Ok (ok, s1) ∧
     state_ok s1 ∧ (account_ok key_addresses get_active signers pre levels x = true → ok = true)) →
  reach a → plain a → state_ok s →
  ∃ ok s', check_authority key_addresses get_active available_keys levels (Some a) s = Ok (ok, s') ∧
    state_ok s' ∧ (satisfied_by levels a = true → ok = true).
Proof.
  intros Htest Hr ((Wa & Wk & Wd) & Hnoaddr & Hsmall & _) Hs. rewrite check_authority_unfold. cbv zeta.
  pose proof (weight_in_nonneg (λ _, true) _ Wa) as Pa.
  destruct (weigh_complete state_ok (λ k, bool_decide (k ∈ signers)) (λ s k, Ok (signed_by available_keys s k))
    (weight_threshold a) (key_auths a) 0 s) as (r1 & t1 & s1 & E1 & Hs1 & B1); [|done|lia|lia|done|].
  { intros s0 k Hk Hs0. destruct (signed_by_ok s0 k Hs0) as [G1 G2]; [exists a; split; [done|by left]|].
    destruct (signed_by available_keys s0 k) as [ok s2]. exists ok, s2. simpl in *. by rewrite G2. }
  rewrite E1. cbn [rbind]. destruct r1; [by exists true, s1|]. destruct (B1 eq_refl) as [L1 U1].
  rewrite Hnoaddr. cbn [weigh rbind].
  pose proof (weight_in_nonneg (λ k, bool_decide (k ∈ signers)) _ Wk) as Pk.
  destruct (weigh_complete state_ok (account_ok key_addresses get_active signers pre levels) (account_test levels)
    (weight_threshold a) (account_auths a) t1 s1) as (r2 & t2 & s2 & E2 & Hs2 & B2); [done|done|lia|lia|done|].
  rewrite E2. cbn [rbind]. destruct r2; [by exists true, s2|]. destruct (B2 eq_refl) as [L2 U2].
  exists (weight_threshold a <=? t2), s2. split_and!; [done|done|].
  rewrite satisfied_unfold, Hnoaddr, !Z.leb_le. simpl. lia.
Qed.

(** What the signatures satisfy within the recursion limit is accepted, and
    the check always comes to an end. *)
Lemma check_authority_complete levels a s :
  (∀ b, reach b → plain b) → reach a → state_ok s →
  ∃ ok s', check_authority key_addresses get_active available_keys levels (Some a) s = Ok (ok, s') ∧
    state_ok s' ∧ (satisfied_by levels a = true → ok = true).
Proof.
  intros Hplain. revert a s. induction levels as [|levels IH]; intros a s Hr Hs;
    apply check_level_complete; auto; clear s Hs.
  all: intros s x Hx Hs; unfold account_test, account_ok; case_bool_decide as Happ;
    [by exists true, s|].
  all: assert (x ∉ pre) as Hpre by (intros Hp; apply Happ; by apply so_pre in Hs; set_solver).
  all: rewrite bool_decide_false by done; simpl.
  { by exists false, s. }
  destruct (Hplain a Hr) as (_ & _ & _ & Hact). destruct (Hact x Hx) as [[b|] Hb]; rewrite Hb; cbn [rbind].
  - destruct (IH b s) as (ok & s1 & E & Hs1 & Hok); [by eapply reach_account|done|].
    rewrite E. cbn [rbind]. exists ok, (if ok then approve x s1 else s1). split_and!; [done| |done].
    destruct ok; [|done]. apply check_authority_sound in E as [_ Hn]; [|by eapply reach_account|by eapply active_wf|done].
    destruct (Hn eq_refl) as [n Hn']. by eapply approve_ok.
  - exists false, s. split_and!; [|done|done]. by destruct levels.
Qed.

Lemma new_state_ok :
  GRAPHENE_TEMP_ACCOUNT ∈ pre → state_ok (mkSign (gset_to_gmap false sigs) None pre).
Proof.
  intros Hpre. split; simpl; rewrite ?dom_gset_to_gmap; try set_solver.
  intros k. rewrite lookup_gset_to_gmap_Some. intros [_ ?]. done.
Qed.
End check.

(** ** [verify_authority] *)

(** A loop whose every step keeps [I] and establishes [Q] for its element. *)
Lemma rfold_all {A S} (I : S → Prop) (Q : A → Prop) (f : S → A → result S) l s s' :
  (∀ s x s1, x ∈ l → I s → f s x = Ok s1 → I s1 ∧ Q x) → I s → rfold f s l = Ok s' →
  I s' ∧ ∀ x, x ∈ l → Q x.
Proof.
  revert s. induction l as [|x l IH]; intros s Hf HI H; simpl in H.
  { injection H as <-. split; [done|set_solver]. }
  apply rbind_ok in H as (s1 & H1 & H). destruct (Hf s x s1) as [HI1 HQ]; [set_solver|done|done|].
  apply IH in H as [HI' HQ']; [|intros; eapply Hf; eauto; set_solver|done]. split; [done|set_solver].
Qed.

(** A loop whose steps all succeed. *)
Lemma rfold_satisfied {A S} (I : S → Prop) (f : S → A → result S) l s :
  (∀ s x, x ∈ l → I s → ∃ s1, f s x = Ok s1 ∧ I s1) → I s → ∃ s', rfold f s l = Ok s' ∧ I s'.
Proof.
  revert s. induction l as [|x l IH]; intros s Hf HI; simpl; [by exists s|].
  destruct (Hf s x) as (s1 & E & HI1); [set_solver|done|]. rewrite E. apply IH; [|done].
  intros. apply Hf; [set_solver|done].
Qed.

Section verify.
Context (key_addresses : Z → list Z).
Context (get_active get_owner : Z → result (option authority)).
Hypothesis active_wf : ∀ x b, get_active x = Ok (Some b) → authority_wf b.
Hypothesis owner_wf : ∀ x b, get_owner x = Ok (Some b) → authority_wf b.

(** The authorities [verify_authority] starts from. *)
Definition root_of (r : required_auths) (b : authority) : Prop :=
  b ∈ req_other r ∨
  ∃ id, (id ∈ req_active r ∨ id ∈ req_owner r) ∧ (get_active id = Ok (Some b) ∨ get_owner id = Ok (Some b)).

Section fixed.
Context (r : required_auths) (sigs pre : gset Z).
Notation ok := (state_ok key_addresses get_active ∅ sigs pre (root_of r)).
Notation sat := (satisfied key_addresses get_active (sigs ∪ ∅) pre).

Lemma verify_other_sound levels s a s' :
  a ∈ req_other r → authority_wf a → ok s →
  verify_other key_addresses get_active levels s a = Ok s' → ok s' ∧ ∃ n, sat n a = true.
Proof.
  intros Ha Hwf Hs H. unfold verify_other in H. apply rbind_ok in H as ([b s1] & H1 & H).
  apply rbind_ok in H as (u & ->%require_ok & [= <-]).
  eapply check_authority_sound in H1 as [? Hn]; [|done| |done|done]; [by auto|].
  apply reach_root. by left.
Qed.

(** The check on the active or owner authority of a required account. *)
Lemma check_required_sound levels id o s b s' :
  id ∈ req_active r ∨ id ∈ req_owner r → get_active id = Ok o ∨ get_owner id = Ok o → ok s →
  check_authority key_addresses get_active ∅ levels o s = Ok (b, s') →
  ok s' ∧ (b = true → ∃ n a, o = Some a ∧ sat n a = true).
Proof.
  intros Hid Ho Hs H. destruct o as [a|].
  - eapply check_authority_sound in H as [? Hn]; [|done| | |done].
    + split; [done|]. intros [n ?]%Hn. eauto.
    + apply reach_root. right. eauto.
    + destruct Ho as [?|?]; [by eapply active_wf|by eapply owner_wf].
  - assert (b = false ∧ s' = s) as [-> ->] by (destruct levels; simpl in H; split; congruence). done.
Qed.

Lemma verify_active_sound levels s id s' :
  id ∈ req_active r → ok s → verify_active key_addresses get_active get_owner levels s id = Ok s' →
  ok s' ∧ (id ∈ pre ∨ ∃ n b, (get_active id = Ok (Some b) ∨ get_owner id = Ok (Some b)) ∧ sat n b = true).
Proof.
  intros Hid Hs H. unfold verify_active, check_account in H. apply rbind_ok in H as ([b1 s1] & H1 & H).
  case_bool_decide as Happ.
  { injection H1 as <- <-. injection H as <-. split; [done|].
    destruct (so_approved _ _ _ _ _ _ _ Hs id Happ) as [|(n & b & ? & ?)]; [by left|right; eauto]. }
  apply rbind_ok in H1 as (o1 & Ho1 & H1). eapply check_required_sound in H1 as [Hs1 Hn1]; [|eauto..].
  destruct b1; [injection H as <-; split; [done|]; right; destruct Hn1 as (n & a & -> & ?); eauto|].
  apply rbind_ok in H as (o2 & Ho2 & H). apply rbind_ok in H as ([b2 s2] & H2 & H).
  eapply check_required_sound in H2 as [Hs2 Hn2]; [|eauto..].
  destruct b2; [injection H as <-; split; [done|]; right; destruct Hn2 as (n & a & -> & ?); eauto|].
  by ok_inv.
Qed.

Lemma verify_owner_sound levels own s id s' :
  id ∈ req_owner r → ok s → verify_owner key_addresses get_active get_owner levels own s id = Ok s' →
  ok s' ∧ (id ∈ own ∨ ∃ n b, get_owner id = Ok (Some b) ∧ sat n b = true).
Proof.
  intros Hid Hs H. unfold verify_owner in H. case_bool_decide; [injection H as <-; auto|].
  apply rbind_ok in H as (o & Ho & H). apply rbind_ok in H as ([b s2] & H2 & H).
  eapply check_required_sound in H2 as [Hs2 Hn2]; [|eauto..].
  destruct b; [injection H as <-; split; [done|]; right; destruct Hn2 as (n & a & -> & ?); eauto|].
  by ok_inv.
Qed.

(** The same checks always succeed on what is satisfied within the limit. *)
Hypothesis plain_reach : ∀ b, reachable get_active (root_of r) b → plain get_active b.

Lemma verify_other_complete levels s a :
  a ∈ req_other r → ok s → sat levels a = true →
  ∃ s', verify_other key_addresses get_active levels s a = Ok s' ∧ ok s'.
Proof.
  intros Ha Hs Hsat. unfold verify_other.
  edestruct (check_authority_complete key_addresses get_active ∅ sigs pre (root_of r) active_wf levels a s)
    as (b & s1 & E & Hs1 & Hb); [done|apply reach_root; by left|done|].
  rewrite E, (Hb Hsat). by exists s1.
Qed.

Lemma check_required_complete levels id a s :
  id ∈ req_active r ∨ id ∈ req_owner r → get_active id = Ok (Some a) ∨ get_owner id = Ok (Some a) → ok s →
  ∃ b s', check_authority key_addresses get_active ∅ levels (Some a) s = Ok (b, s') ∧ ok s' ∧
    (sat levels a = true → b = true).
Proof.
  intros Hid Ha Hs. apply check_authority_complete; [done|done| |done]. apply reach_root. right. eauto.
Qed.

Lemma verify_active_complete levels s id a o :
  id ∈ req_active r → ok s → get_active id = Ok (Some a) → get_owner id = Ok (Some o) →
  id ∈ pre ∨ sat levels a = true ∨ sat levels o = true →
  ∃ s', verify_active key_addresses get_active get_owner levels s id = Ok s' ∧ ok s'.
Proof.
  intros Hid Hs Ha Ho Hsat. unfold verify_active, check_account.
  case_bool_decide as Happ; [by exists s|]. rewrite Ha. cbn [rbind].
  destruct (check_required_complete levels id a s) as (b1 & s1 & -> & Hs1 & Hb1); [auto..|]. cbn [rbind].
  destruct b1; [by exists s1|]. rewrite Ho. cbn [rbind].
  destruct (check_required_complete levels id o s1) as (b2 & s2 & -> & Hs2 & Hb2); [auto..|]. cbn [rbind].
  destruct b2; [by exists s2|]. exfalso. destruct Hsat as [Hp|[Hx|Hx]].
  - apply Happ. by apply (so_pre _ _ _ _ _ _ _ Hs).
  - by specialize (Hb1 Hx).
  - by specialize (Hb2 Hx).
Qed.

Lemma verify_owner_complete levels own s id o :
  id ∈ req_owner r → ok s → get_owner id = Ok (Some o) → id ∈ own ∨ sat levels o = true →
  ∃ s', verify_owner key_addresses get_active get_owner levels own s id = Ok s' ∧ ok s'.
Proof.
  intros Hid Hs Ho Hsat. unfold verify_owner. case_bool_decide; [by exists s|]. rewrite Ho. cbn [rbind].
  destruct (check_required_complete levels id o s) as (b & s2 & -> & Hs2 & Hb); [auto..|]. cbn [rbind].
  destruct b; [by exists s2|]. destruct Hsat as [|Hx]; [done|]. by specialize (Hb Hx).
Qed.
End fixed.
End verify.

(** The approvals given from outside. *)
Definition given (active_approvals owner_approvals : gset Z) : gset Z :=
  {[ GRAPHENE_TEMP_ACCOUNT ]} ∪ active_approvals ∪ owner_approvals.

Lemma unused_none s k b :
  (remove_unused_signatures s).1 = false → provided_signatures s !! k = Some b → b = true.
Proof.
  unfold remove_unused_signatures; simpl. intros H%negb_false_iff%bool_decide_eq_true Hk.
  rewrite <- H in Hk. by apply map_lookup_filter_Some in Hk as [_ ?].
Qed.

Section verified.
Context (key_addresses : Z → list Z).
Context (get_active get_owner : Z → result (option authority)).

(** The signatures and approvals justify what the operations require: each
    account whose active authority is needed gave its approval or has an
    active or owner authority that the signatures satisfy (through finitely
    many levels of accounts), likewise for the owner authorities and the
    further authorities. *)
Definition authorised (r : required_auths) (sigs act own : gset Z) : Prop :=
  let pre := given act own in
  (∀ id, id ∈ req_active r → id ∈ pre ∨
     ∃ n b, (get_active id = Ok (Some b) ∨ get_owner id = Ok (Some b)) ∧
       satisfied key_addresses get_active sigs pre n b = true) ∧
  (∀ id, id ∈ req_owner r → id ∈ own ∨
     ∃ n b, get_owner id = Ok (Some b) ∧ satisfied key_addresses get_active sigs pre n b = true) ∧
  (∀ a, a ∈ req_other r → ∃ n, satisfied key_addresses get_active sigs pre n a = true).

Lemma verify_authority_ok ops sigs depth allow_committee act own :
  let r := foldl join_required no_required ops in
  (∀ x b, get_active x = Ok (Some b) → authority_wf b) →
  (∀ x b, get_owner x = Ok (Some b) → authority_wf b) →
  (∀ a, a ∈ req_other r → authority_wf a) →
  verify_authority key_addresses get_active get_owner ops sigs depth allow_committee act own = Ok tt →
  authorised r sigs act own ∧
  (allow_committee = true ∨ GRAPHENE_COMMITTEE_ACCOUNT ∉ req_active r) ∧
  (∀ k, k ∈ sigs → ∃ b, reachable get_active (root_of get_active get_owner r) b ∧ names key_addresses b k).
Proof.
  intros r Hact Hown Hoth H. unfold authorised. set (pre := given act own). unfold verify_authority in H. fold r in H.
  apply rbind_ok in H as (u & Hcom & H). cbn [provided_signatures address_sigs approved_by new_sign_state] in H.
  fold (given act own) in H. fold pre in H.
  assert (state_ok key_addresses get_active ∅ sigs pre (root_of get_active get_owner r)
    (mkSign (gset_to_gmap false sigs) None pre)) as Hs0 by (apply new_state_ok; unfold pre, given; set_solver).
  apply rbind_ok in H as (s1 & H1 & H). apply rbind_ok in H as (s2 & H2 & H).
  apply rbind_ok in H as (s3 & H3 & H). apply require_ok, negb_true_iff in H.
  eapply rfold_all in H1 as [Hs1 Q1]; [|intros ??? Hx ? Hv; eapply (verify_other_sound key_addresses get_active get_owner Hact); [exact Hx|by apply Hoth|done|exact Hv]|exact Hs0].
  eapply rfold_all in H2 as [Hs2 Q2]; [|intros ??? Hx ? Hv; eapply (verify_active_sound key_addresses get_active get_owner Hact Hown); [by apply elem_of_flat_elements|done|exact Hv]|exact Hs1].
  eapply rfold_all in H3 as [Hs3 Q3]; [|intros ??? Hx ? Hv; eapply (verify_owner_sound key_addresses get_active get_owner Hact Hown); [by apply elem_of_flat_elements|done|exact Hv]|exact Hs2].
  cbv beta in *. rewrite (right_id_L ∅ (∪)) in Q1, Q2, Q3. split_and!.
  - intros id Hid. apply Q2. by apply elem_of_flat_elements.
  - intros id Hid. apply Q3. by apply elem_of_flat_elements.
  - exact Q1.
  - destruct allow_committee; [by left|right]. by apply require_ok, bool_decide_eq_true in Hcom.
  - intros k Hk. destruct Hs3 as [Hd _ _ _ _ Hu]. apply Hd, elem_of_dom in Hk as [b Hk].
    apply Hu. by rewrite <- (unused_none _ _ _ H Hk).
Qed.
End verified.


Section theorems.
Context (key_addresses : Z → list Z).
Context (get_active get_owner : Z → result (option authority)).

(** C7.  Every accepted transaction is authorised.  If [verify_authority]
    succeeds, then each account whose active authority is needed gave its
    approval or has an active or owner authority that the signatures satisfy
    (through finitely many levels of accounts), likewise for the owner
    authorities and the further authorities; the committee account is not
    among them unless that was allowed; and every signature is by a key that
    one of the authorities reached by the check names. *)
Theorem verify_authority_sound ops sigs depth allow_committee act own :
  let r := foldl join_required no_required ops in
  (∀ x b, get_active x = Ok (Some b) → authority_wf b) →
  (∀ x b, get_owner x = Ok (Some b) → authority_wf b) →
  (∀ a, a ∈ req_other r → authority_wf a) →
  verify_authority key_addresses get_active get_owner ops sigs depth allow_committee act own = Ok tt →
  authorised key_addresses get_active get_owner r sigs act own ∧
  (allow_committee = true ∨ GRAPHENE_COMMITTEE_ACCOUNT ∉ req_active r) ∧
  (∀ k, k ∈ sigs → ∃ b, reachable get_active (root_of get_active get_owner r) b ∧ names key_addresses b k).
Proof. intros r. apply verify_authority_ok. Qed.


Lemma minimize_loop_ok ops depth l s s' :
  NoDup l → (∀ k, k ∈ l → k ∈ s) →
  verify_authority key_addresses get_active get_owner ops s depth false ∅ ∅ = Ok tt →
  rfold (minimize_step key_addresses get_active get_owner ops depth) s l = Ok s' →
  s' ⊆ s ∧ verify_authority key_addresses get_active get_owner ops s' depth false ∅ ∅ = Ok tt.
Proof.
  intros Hnd. revert s. induction Hnd as [|k l Hk _ IH]; intros s Hl Hv H; simpl in H.
  { injection H as <-. done. }
  apply rbind_ok in H as (s1 & H1 & H). unfold minimize_step in H1.
  destruct (verify_authority _ _ _ _ (s ∖ {[k]}) _ _ _ _) as [[]|e] eqn:E.
  - injection H1 as <-. apply IH in H as [? ?]; [split; [set_solver|done]|set_solver|done].
  - destruct (missing_auth e); [|done]. injection H1 as <-.
    assert (s ∖ {[k]} ∪ {[k]} = s) as Es.
    { rewrite (comm_L (∪)). symmetry. apply union_difference_singleton_L, Hl. set_solver. }
    rewrite Es in H. apply IH in H; [done|set_solver|done].
Qed.

(** Minimising the signatures: from a set of signatures that authorises
    the transaction, [minimize_required_signatures] removes keys one by one
    and ends with a subset that still authorises it, all of it keys the
    caller has. *)
Theorem minimize_keeps_valid ops signatures available_keys depth s s' :
  get_required_signatures key_addresses get_active get_owner ops signatures available_keys depth = Ok s →
  verify_authority key_addresses get_active get_owner ops s depth false ∅ ∅ = Ok tt →
  minimize_required_signatures key_addresses get_active get_owner ops signatures available_keys depth = Ok s' →
  s' ⊆ s ∧ s' ⊆ available_keys ∧
  verify_authority key_addresses get_active get_owner ops s' depth false ∅ ∅ = Ok tt.
Proof.
  intros Hs Hv H. unfold minimize_required_signatures in H. rewrite Hs in H. cbn [rbind] in H.
  apply minimize_loop_ok in H as [Hsub Hv']; [|apply NoDup_flat_elements| |done].
  2:{ intros k. by rewrite elem_of_flat_elements. }
  split_and!; [done| |done]. etrans; [exact Hsub|].
  unfold get_required_signatures in Hs. ok_inv. set_solver.
Qed.
End theorems.

(** ** Examples

    Account 20 needs two of the keys 1, 2 and 3, or the approval of account
    21, which key 4 controls through account 22.  Account 23 has an address of
    old times. *)
Definition sample_active (x : Z) : result (option authority) :=
  if x =? 20 then Ok (Some (mkAuthority 2 [(21, 2)] [(1, 1); (2, 1); (3, 1)] []))
  else if x =? 21 then Ok (Some (mkAuthority 1 [(22, 1)] [] []))
  else if x =? 22 then Ok (Some (mkAuthority 1 [] [(4, 1)] []))
  else if x =? 23 then Ok (Some (mkAuthority 1 [] [] [(900, 1)]))
  else Throw unknown_object.
Definition sample_addresses (k : Z) : list Z := [100 * k; 100 * k + 1].
Definition sample_ops : list required_auths := [mkRequired {[ 20 ]} ∅ []].

Lemma sample_active_wf x b : sample_active x = Ok (Some b) → authority_wf b.
Proof.
  unfold sample_active. repeat case_match; intros Hb; try discriminate; injection Hb as <-;
    repeat split; simpl; repeat (constructor; simpl; try lia).
Qed.

Lemma sample_required :
  req_active (foldl join_required no_required sample_ops) = {[ 20 ]} ∧
  req_owner (foldl join_required no_required sample_ops) = ∅ ∧
  req_other (foldl join_required no_required sample_ops) = [].
Proof. vm_compute. done. Qed.

(** Key 4 signs for account 20 through two other accounts. *)
Lemma verify_authority_sound_witness :
  ∃ n b, satisfied sample_addresses sample_active {[ 4 ]} (given ∅ ∅) n b = true ∧
    sample_active 20 = Ok (Some b).
Proof.
  destruct (verify_authority_sound sample_addresses sample_active sample_active sample_ops {[ 4 ]} 2 false ∅ ∅)
    as ((H & _) & _).
  - exact sample_active_wf.
  - exact sample_active_wf.
  - vm_compute. intros a Ha. inversion Ha.
  - vm_compute. reflexivity.
  - destruct (H 20) as [Hin|(n & b & Hb & Hn)].
    + rewrite (proj1 sample_required). apply elem_of_singleton. reflexivity.
    + exfalso. revert Hin. unfold given, GRAPHENE_TEMP_ACCOUNT. set_solver.
    + exists n, b. split; [exact Hn|]. destruct Hb; assumption.
Defined.

Lemma sample_reach b :
  reachable sample_active (root_of sample_active sample_active (foldl join_required no_required sample_ops)) b →
  sample_active 20 = Ok (Some b) ∨ sample_active 21 = Ok (Some b) ∨ sample_active 22 = Ok (Some b).
Proof.
  induction 1 as [a Ha|a x b _ IH Hx Hb].
  - destruct Ha as [Ha|(id & Hid & Ha)]; [by inversion Ha|]. left.
    destruct sample_required as (E1 & E2 & _). rewrite E1, E2 in Hid.
    assert (id = 20) as -> by set_solver. tauto.
  - destruct IH as [E|[E|E]]; injection E as <-; simpl in Hx.
    + assert (x = 21) as -> by set_solver. auto.
    + assert (x = 22) as -> by set_solver. auto.
    + set_solver.
Qed.


(** With keys 1, 2 and 4 at hand, keys 1 and 2 are the ones to sign with. *)
Lemma minimize_keeps_valid_witness : ({[ 1; 2 ]} : gset Z) ⊆ {[ 1; 2; 4 ]}.
Proof.
  apply (minimize_keeps_valid sample_addresses sample_active sample_active sample_ops [] {[ 1; 2; 4 ]} 2
           {[ 1; 2 ]} {[ 1; 2 ]}); vm_compute; reflexivity.
Defined.

(** An authority with an address for which no key is known makes the
    check dereference the end iterator of a map, instead of counting the
    address as not signed: account 23 cannot be checked at all without the
    right key. *)
Theorem unknown_address_undefined :
  verify_authority sample_addresses sample_active sample_active [mkRequired {[ 23 ]} ∅ []] ∅ 2 false ∅ ∅
    = Throw undefined_behaviour ∧
  verify_authority sample_addresses sample_active sample_active [mkRequired {[ 23 ]} ∅ []] {[ 9 ]} 2 false ∅ ∅
    = Ok tt.
Proof. split; vm_compute; reflexivity. Qed.
