(* ===== verification/Proposal.v ===== *)
(** * Proposed transactions ([proposal_object.cpp], [proposal_evaluator.cpp])

    Transactions that collect approvals on the chain and are executed once
    they are authorised: creation, approval, veto, execution
    ([push_proposal]) and expiry ([clear_expired_proposals]).  The state and
    the operations a proposal may contain are an interface, so that proposals
    can be about proposals too. *)

From stdpp Require Import gmap list.
From Stdlib Require Import ZArith Lia.
From S2P Require Import Prelude Config Authority Database Listing.

Local Open Scope Z_scope.

Record proposal_object (Op : Type) := mkProposal {
  po_expiration_time : Z;
  po_review_period_time : option Z;
  po_operations : list Op;                   (* of the proposed transaction *)
  po_required_active_approvals : gset Z;
  po_available_active_approvals : gset Z;
  po_required_owner_approvals : gset Z;
  po_available_owner_approvals : gset Z;
  po_available_key_approvals : gset Z
}.
Arguments mkProposal {Op}.
Arguments po_expiration_time {Op}.
Arguments po_review_period_time {Op}.
Arguments po_operations {Op}.
Arguments po_required_active_approvals {Op}.
Arguments po_available_active_approvals {Op}.
Arguments po_required_owner_approvals {Op}.
Arguments po_available_owner_approvals {Op}.
Arguments po_available_key_approvals {Op}.

(** What proposals need of the chain: its state, and the dispatch of the
    operations to their [validate], [hf_429_visitor] and evaluator. *)
Class ProposalState (S Op : Type) := {
  host_time : S → Z;
  host_maximum_proposal_lifetime : S → Z;
  host_committee_review_period : S → Z;
  host_max_authority_depth : S → Z;
  host_active : S → Z → result (option authority);
  host_owner : S → Z → result (option authority);
  host_key_addresses : Z → list Z;
  host_proposals : S → table (proposal_object Op);
  host_set_proposals : table (proposal_object Op) → S → S;
  operation_required : Op → required_auths
}.

Class ProposalHost (S Op : Type) `{!ProposalState S Op} := {
  operation_validate : Op → result unit;
  operation_hf_429 : Op → result unit;
  apply_operation : S → Op → result S
}.

Record proposal_create_operation (Op : Type) := mkProposalCreate {
  pc_fee_paying_account : Z;
  pc_proposed_ops : list Op;
  pc_expiration_time : Z;
  pc_review_period_seconds : option Z
}.
Arguments mkProposalCreate {Op}.
Arguments pc_fee_paying_account {Op}.
Arguments pc_proposed_ops {Op}.
Arguments pc_expiration_time {Op}.
Arguments pc_review_period_seconds {Op}.

Record proposal_update_operation := mkProposalUpdate {
  pu_fee_paying_account : Z;
  pu_fee_amount : Z;
  pu_proposal : Z;
  pu_active_approvals_to_add : gset Z;
  pu_active_approvals_to_remove : gset Z;
  pu_owner_approvals_to_add : gset Z;
  pu_owner_approvals_to_remove : gset Z;
  pu_key_approvals_to_add : gset Z;
  pu_key_approvals_to_remove : gset Z
}.

Record proposal_delete_operation := mkProposalDelete {
  pd_fee_amount : Z;
  pd_fee_paying_account : Z;
  pd_using_owner_authority : bool;
  pd_proposal : Z
}.

Definition proposal_update_validate (o : proposal_update_operation) : result unit :=
  FC_ASSERT (0 <=? pu_fee_amount o) ;;
  FC_ASSERT (negb (bool_decide (pu_active_approvals_to_add o = ∅)
                   && bool_decide (pu_active_approvals_to_remove o = ∅)
                   && bool_decide (pu_owner_approvals_to_add o = ∅)
                   && bool_decide (pu_owner_approvals_to_remove o = ∅)
                   && bool_decide (pu_key_approvals_to_add o = ∅)
                   && bool_decide (pu_key_approvals_to_remove o = ∅))) ;;
  FC_ASSERT (bool_decide (pu_active_approvals_to_add o ## pu_active_approvals_to_remove o)) ;;
  FC_ASSERT (bool_decide (pu_owner_approvals_to_add o ## pu_owner_approvals_to_remove o)) ;;
  require (bool_decide (pu_key_approvals_to_add o ## pu_key_approvals_to_remove o)) assert_exception.

(** The authorities an update needs: the accounts it names, and all its keys.
    The key authority is added even when there are no keys. *)
Definition proposal_update_required (o : proposal_update_operation) : required_auths :=
  let keys := flat_elements (pu_key_approvals_to_add o ∪ pu_key_approvals_to_remove o) in
  mkRequired ({[ pu_fee_paying_account o ]} ∪ pu_active_approvals_to_add o ∪ pu_active_approvals_to_remove o)
    (pu_owner_approvals_to_add o ∪ pu_owner_approvals_to_remove o)
    [mkAuthority (Z.of_nat (length keys)) [] (map (λ k, (k, 1)) keys) []].

(** A create or delete operation needs its fee payer. *)
Definition proposal_create_required {Op} (o : proposal_create_operation Op) : required_auths :=
  mkRequired {[ pc_fee_paying_account o ]} ∅ [].
Definition proposal_delete_required (o : proposal_delete_operation) : required_auths :=
  mkRequired {[ pd_fee_paying_account o ]} ∅ [].

Definition proposal_delete_validate (o : proposal_delete_operation) : result unit :=
  require (0 <=? pd_fee_amount o) assert_exception.

Section proposals.
Context {S Op : Type} `{PS : !ProposalState S Op} {PH : ProposalHost S Op}.

Definition proposals_required (ops : list Op) : required_auths :=
  foldl join_required no_required (map operation_required ops).

Definition validate_all (ops : list Op) : result unit :=
  rfold (λ _ op, operation_validate op) tt ops.

Definition proposal_create_validate (o : proposal_create_operation Op) : result unit :=
  FC_ASSERT (bool_decide (pc_proposed_ops o ≠ [])) ;;
  validate_all (pc_proposed_ops o).

Definition proposal_create_do_evaluate (s : S) (o : proposal_create_operation Op) : result unit :=
  FC_ASSERT (host_time s <? pc_expiration_time o) ;;
  FC_ASSERT (pc_expiration_time o <=? wrap_u32 (host_time s + host_maximum_proposal_lifetime s)) ;;
  FC_ASSERT (match pc_review_period_seconds o with
             | None => true
             | Some r => r <? pc_expiration_time o - host_time s
             end) ;;
  let r := proposals_required (pc_proposed_ops o) in
  let auths := req_active r ∪ req_owner r in
  FC_ASSERT (bool_decide (req_other r = [])) ;;
  let* _ :=
    if bool_decide (GRAPHENE_COMMITTEE_ACCOUNT ∈ auths) then
      match pc_review_period_seconds o with
      | None => Throw proposal_create_review_period_required
      | Some p => require (host_committee_review_period s <=? p) proposal_create_review_period_insufficient
      end
    else Ok tt in
  FC_ASSERT (bool_decide (pc_proposed_ops o ≠ [])) ;;
  let* _ := validate_all (pc_proposed_ops o) in
  if host_time s <=? HARDFORK_CORE_429_TIME
  then rfold (λ _ op, operation_hf_429 op) tt (pc_proposed_ops o) else Ok tt.

(** The object a create operation makes. *)
Definition proposal_of (o : proposal_create_operation Op) : proposal_object Op :=
  let r := proposals_required (pc_proposed_ops o) in
  mkProposal (pc_expiration_time o)
    ((λ p, wrap_u32 (pc_expiration_time o - p)) <$> pc_review_period_seconds o)
    (pc_proposed_ops o) (req_active r ∖ req_owner r) ∅ (req_owner r) ∅ ∅.

Definition proposal_create_do_apply (s : S) (o : proposal_create_operation Op) : result (Z * S) :=
  let* (id, t) := index_create no_clash (host_proposals s) (proposal_of o) in
  Ok (id, host_set_proposals t s).

Definition find_proposal (s : S) (id : Z) : option (proposal_object Op) := objs (host_proposals s) !! id.

Definition is_authorized_to_execute (s : S) (p : proposal_object Op) : result bool :=
  try_catch
    (let* _ := verify_authority host_key_addresses (host_active s) (host_owner s)
                 (map operation_required (po_operations p)) (po_available_key_approvals p)
                 (host_max_authority_depth s) true
                 (po_available_active_approvals p) (po_available_owner_approvals p) in
     Ok true)
    (Ok false).

(** The loop of [push_proposal] reads the operations through a reference to
    the proposal, which must outlive each of them. *)
Fixpoint push_operations (id : Z) (ops : list Op) (s : S) : result S :=
  match ops with
  | [] => Ok s
  | op :: ops' =>
      let* s := apply_operation s op in
      match find_proposal s id with
      | None => Throw undefined_behaviour
      | Some _ => push_operations id ops' s
      end
  end.

Definition remove_proposal (s : S) (id : Z) : result S :=
  let* t := index_remove (host_proposals s) id in Ok (host_set_proposals t s).

Definition push_proposal (s : S) (id : Z) : result S :=
  let* p := of_option undefined_behaviour (find_proposal s id) in
  let* s := push_operations id (po_operations p) s in
  remove_proposal s id.

Definition proposal_update_do_evaluate (s : S) (o : proposal_update_operation) : result Z :=
  let* p := index_get (host_proposals s) (pu_proposal o) in
  let* _ :=
    if match po_review_period_time p with Some t => t <=? host_time s | None => false end
    then require (bool_decide (pu_active_approvals_to_add o = ∅)
                  && bool_decide (pu_owner_approvals_to_add o = ∅)) assert_exception
    else Ok tt in
  FC_ASSERT (bool_decide (pu_active_approvals_to_remove o ⊆ po_available_active_approvals p)) ;;
  FC_ASSERT (bool_decide (pu_owner_approvals_to_remove o ⊆ po_available_owner_approvals p)) ;;
  Ok (pu_proposal o).

Definition with_approvals (o : proposal_update_operation) (p : proposal_object Op) : proposal_object Op :=
  mkProposal (po_expiration_time p) (po_review_period_time p) (po_operations p)
    (po_required_active_approvals p)
    ((po_available_active_approvals p ∪ pu_active_approvals_to_add o) ∖ pu_active_approvals_to_remove o)
    (po_required_owner_approvals p)
    ((po_available_owner_approvals p ∪ pu_owner_approvals_to_add o) ∖ pu_owner_approvals_to_remove o)
    ((po_available_key_approvals p ∪ pu_key_approvals_to_add o) ∖ pu_key_approvals_to_remove o).

Definition proposal_update_do_apply (s : S) (o : proposal_update_operation) (id : Z) : result S :=
  let* t := index_modify no_clash (host_proposals s) id (λ p, Ok (with_approvals o p)) in
  let s := host_set_proposals t s in
  let* p := of_option undefined_behaviour (find_proposal s id) in
  match po_review_period_time p with
  | Some _ => Ok s
  | None =>
      let* ok := is_authorized_to_execute s p in
      if ok then try_catch (push_proposal s id) (Ok s) else Ok s
  end.

Definition proposal_delete_do_evaluate (s : S) (o : proposal_delete_operation) : result Z :=
  let* p := index_get (host_proposals s) (pd_proposal o) in
  let required_approvals := if pd_using_owner_authority o
                            then po_required_owner_approvals p else po_required_active_approvals p in
  FC_ASSERT (bool_decide (pd_fee_paying_account o ∈ required_approvals)) ;;
  Ok (pd_proposal o).

Definition proposal_delete_do_apply (s : S) (id : Z) : result S := remove_proposal s id.

(** ** Expiry *)

(** The [try] block of the loop: the new state when the proposal was
    executed. *)
Definition try_execute (s : S) (id : Z) (p : proposal_object Op) : result (option S) :=
  try_catch
    (let* ok := is_authorized_to_execute s p in
     if ok then let* s' := push_proposal s id in Ok (Some s') else Ok None)
    (Ok None).

Fixpoint clear_expired_proposals (fuel : nat) (s : S) : result S :=
  match first_by po_expiration_time (objs (host_proposals s)) with
  | None => Ok s
  | Some (id, p) =>
      if po_expiration_time p <=? host_time s then
        match fuel with
        | O => Throw out_of_fuel
        | Datatypes.S fuel' =>
            let* executed := try_execute s id p in
            let* s' := match executed with Some s' => Ok s' | None => remove_proposal s id end in
            clear_expired_proposals fuel' s'
        end
      else Ok s
  end.
End proposals.
