(* ===== verification/ProposalProps.v ===== *)
(** * Proposed transactions: the properties

    The laws a chain promises to its proposals, and what follows from them:
    a proposal is executed only when it is authorised, expiry terminates and
    leaves no expired proposal, and a proposal that needs the committee is
    under review before it can be executed. *)

From stdpp Require Import gmap list.
From Stdlib Require Import ZArith Lia.
From S2P Require Import Prelude Config Authority AuthorityTheorems Database Listing ListingInv Proposal.

Local Open Scope Z_scope.

Section state.
Context {S Op : Type} `{PS : !ProposalState S Op}.

Definition is_expired (s : S) (p : proposal_object Op) : bool := po_expiration_time p <=? host_time s.

(** The expired proposals of a state. *)
Definition expired (s : S) : gmap Z (proposal_object Op) :=
  filter (λ kp, is_expired s kp.2 = true) (objs (host_proposals s)).

(** From [s] to [s'] the clock stands still and no proposal expires. *)
Definition keeps (s s' : S) : Prop :=
  host_time s' = host_time s ∧ dom (expired s') ⊆ dom (expired s).

#[export] Instance keeps_preorder : PreOrder keeps.
Proof.
  split; [by split|]. intros s1 s2 s3 [T1 D1] [T2 D2]. split; [congruence|set_solver].
Qed.

Lemma elem_of_expired s id :
  id ∈ dom (expired s) ↔ ∃ p, find_proposal s id = Some p ∧ po_expiration_time p <= host_time s.
Proof.
  rewrite elem_of_dom. unfold expired, is_expired, find_proposal, is_Some.
  setoid_rewrite map_lookup_filter_Some. simpl. setoid_rewrite Z.leb_le. done.
Qed.
End state.

(** What the chain promises to its proposals. *)
Class ProposalLaws (S Op : Type) `{PS : !ProposalState S Op} : Prop := {
  set_proposals_get : ∀ t (s : S), host_proposals (host_set_proposals t s) = t;
  set_proposals_time : ∀ t (s : S), host_time (host_set_proposals t s) = host_time s;
  set_proposals_active : ∀ t (s : S), host_active (host_set_proposals t s) = host_active s;
  set_proposals_owner : ∀ t (s : S), host_owner (host_set_proposals t s) = host_owner s
}.

(** The weights in the authorities of the accounts of a state, and in those
    that the operations of a proposal name, are unsigned, as their type has
    it. *)
Definition authorities_wf {S Op : Type} `{PS : !ProposalState S Op} (s : S) : Prop :=
  (∀ x b, host_active s x = Ok (Some b) → authority_wf b) ∧ (∀ x b, host_owner s x = Ok (Some b) → authority_wf b).
Definition operations_wf {S Op : Type} `{PS : !ProposalState S Op} (p : proposal_object Op) : Prop :=
  ∀ a, a ∈ req_other (proposals_required (po_operations p)) → authority_wf a.

(** An operation does not move the clock and creates no expired proposal. *)
Class OperationLaws (S Op : Type) `{PH : ProposalHost S Op} : Prop :=
  apply_operation_keeps : ∀ (s : S) op s', apply_operation s op = Ok s' → keeps s s'.

Lemma join_other {Op} (f : Op → required_auths) ops a :
  a ∈ req_other (foldl join_required no_required (map f ops)) → ∃ op, op ∈ ops ∧ a ∈ req_other (f op).
Proof.
  intros H. cut (∀ r, a ∈ req_other (foldl join_required r (map f ops)) →
    a ∈ req_other r ∨ ∃ op, op ∈ ops ∧ a ∈ req_other (f op)).
  { intros C. destruct (C _ H) as [Hn|]; [inversion Hn|done]. }
  clear H. induction ops as [|op ops IH]; intros r Ha; simpl in *; [by left|].
  destruct (IH _ Ha) as [[H|H]%elem_of_app|(op' & ? & ?)]; simpl in *.
  - by left.
  - right. exists op. split; [by left|done].
  - right. exists op'. split; [by right|done].
Qed.

Section properties.
Context {S Op : Type} `{PS : !ProposalState S Op} {PH : ProposalHost S Op}.
Context {PL : ProposalLaws S Op}.
Implicit Types s : S.

(** ** Tables *)

Lemma find_set t s id : find_proposal (host_set_proposals t s) id = objs t !! id.
Proof. unfold find_proposal. by rewrite set_proposals_get. Qed.

(** A table without new expired proposals. *)
Lemma set_proposals_keeps s t :
  (∀ id p, objs t !! id = Some p → po_expiration_time p <= host_time s →
     ∃ p0, find_proposal s id = Some p0 ∧ po_expiration_time p0 <= host_time s) →
  keeps s (host_set_proposals t s).
Proof.
  intros H. split; [apply set_proposals_time|]. intros id. rewrite !elem_of_expired.
  intros (p & Hp & Hle). rewrite find_set in Hp. rewrite set_proposals_time in Hle. by eapply H.
Qed.

Lemma remove_proposal_ok s id s' :
  remove_proposal s id = Ok s' →
  is_Some (find_proposal s id) ∧ host_time s' = host_time s ∧
  ∀ i, find_proposal s' i = if decide (i = id) then None else find_proposal s i.
Proof.
  unfold remove_proposal. intros H. apply rbind_ok in H as (t & (Hs & ->)%index_remove_ok & H).
  injection H as <-. split_and!; [done|apply set_proposals_time|]. intros i. rewrite find_set. simpl.
  case_decide; subst; [by rewrite lookup_delete_eq|by rewrite lookup_delete_ne by done].
Qed.

Lemma remove_proposal_expired s id s' :
  remove_proposal s id = Ok s' →
  host_time s' = host_time s ∧ dom (expired s') = dom (expired s) ∖ {[id]}.
Proof.
  intros (Hs & Ht & Hf)%remove_proposal_ok. split; [done|]. apply set_eq. intros i.
  rewrite elem_of_difference, elem_of_singleton, !elem_of_expired, Ht, Hf.
  case_decide; split; naive_solver.
Qed.

Lemma remove_proposal_keeps s id s' : remove_proposal s id = Ok s' → keeps s s'.
Proof. intros [Ht Hd]%remove_proposal_expired. split; [done|set_solver]. Qed.

Lemma remove_proposal_total s id p :
  find_proposal s id = Some p → ∃ s', remove_proposal s id = Ok s'.
Proof.
  unfold find_proposal, remove_proposal, index_remove, index_get. intros ->. simpl. eauto.
Qed.

(** ** Execution *)

Lemma push_operations_ok id ops s s' :
  push_operations id ops s = Ok s' → rfold apply_operation s ops = Ok s'.
Proof.
  revert s. induction ops as [|op ops IH]; intros s H; simpl in *; [done|].
  apply rbind_ok in H as (s1 & -> & H). simpl. case_match; [by apply IH|done].
Qed.

(** A successful push applies the operations of the proposal in their order
    and removes the proposal. *)
Lemma push_proposal_ok s id s' :
  push_proposal s id = Ok s' →
  ∃ p s1, find_proposal s id = Some p ∧ rfold apply_operation s (po_operations p) = Ok s1 ∧
    remove_proposal s1 id = Ok s'.
Proof.
  unfold push_proposal. intros H. apply rbind_ok in H as (p & Hp%of_option_ok & H).
  apply rbind_ok in H as (s1 & H1%push_operations_ok & H). eauto.
Qed.

Lemma authorized_ok s p : authorities_wf s → operations_wf p → is_authorized_to_execute s p = Ok true →
  authorised host_key_addresses (host_active s) (host_owner s) (proposals_required (po_operations p))
    (po_available_key_approvals p) (po_available_active_approvals p) (po_available_owner_approvals p).
Proof.
  unfold is_authorized_to_execute, try_catch. intros [Ha Ho] Hp H.
  destruct (verify_authority _ _ _ _ _ _ _ _ _) as [[]|e] eqn:E; simpl in H; [|by case_match].
  by eapply verify_authority_ok in E as (? & _); [|apply Ha|apply Ho|].
Qed.

Lemma try_execute_some s id p s' :
  try_execute s id p = Ok (Some s') → is_authorized_to_execute s p = Ok true ∧ push_proposal s id = Ok s'.
Proof.
  unfold try_execute, try_catch. intros H.
  destruct (is_authorized_to_execute s p) as [[]|e]; simpl in H; [|done|by case_match].
  destruct (push_proposal s id); simpl in H; [by injection H as ->|by case_match].
Qed.

Lemma with_approvals_keeps s o id t :
  index_modify no_clash (host_proposals s) id (λ p, Ok (with_approvals o p)) = Ok t →
  keeps s (host_set_proposals t s) ∧
  ∃ p, find_proposal s id = Some p ∧ objs t = <[id := with_approvals o p]> (objs (host_proposals s)).
Proof.
  intros (p & p' & Hp & [= <-] & _ & ->)%index_modify_ok. split; [|by eauto].
  apply set_proposals_keeps. intros i q; simpl.
  rewrite lookup_insert_Some. intros [[<- <-]|[_ Hq]] Hle; eauto.
Qed.

(** The ways an update can end. *)
Lemma proposal_update_cases s o id s' :
  proposal_update_do_apply s o id = Ok s' →
  ∃ p s1, find_proposal s id = Some p ∧ find_proposal s1 id = Some (with_approvals o p) ∧ keeps s s1 ∧
    host_active s1 = host_active s ∧ host_owner s1 = host_owner s ∧
    (s' = s1 ∨
     po_review_period_time p = None ∧ is_authorized_to_execute s1 (with_approvals o p) = Ok true ∧
     push_proposal s1 id = Ok s').
Proof.
  unfold proposal_update_do_apply. intros H.
  apply rbind_ok in H as (t & (Hk & p & Hp & Ht)%with_approvals_keeps & H).
  assert (find_proposal (host_set_proposals t s) id = Some (with_approvals o p)) as Hf
    by (rewrite find_set, Ht; apply lookup_insert_eq).
  rewrite Hf in H. simpl in H. exists p, (host_set_proposals t s).
  split_and!; [done..|apply set_proposals_active|apply set_proposals_owner|].
  destruct (po_review_period_time p); [left; congruence|].
  apply rbind_ok in H as ([] & Ha & H); [|left; congruence].
  unfold try_catch in H. destruct (push_proposal _ id) as [s2|e] eqn:E.
  - injection H as <-. eauto.
  - destruct (catchable e); [left; congruence|done].
Qed.

Section expiry.
Context {OL : OperationLaws S Op}.

Lemma rfold_apply_keeps ops s s' : rfold apply_operation s ops = Ok s' → keeps s s'.
Proof.
  intros H. eapply (rfold_invariant _ (λ s s', keeps s s')) in H; eauto using apply_operation_keeps.
  - intros; reflexivity.
  - intros; by etrans.
Qed.

Lemma push_proposal_keeps s id s' :
  push_proposal s id = Ok s' → keeps s s' ∧ id ∉ dom (expired s').
Proof.
  intros (p & s1 & _ & H1%rfold_apply_keeps & H2)%push_proposal_ok. split.
  - etrans; [done|]. by eapply remove_proposal_keeps.
  - apply remove_proposal_expired in H2 as [_ ->]. set_solver.
Qed.

Lemma proposal_update_keeps s o id s' : proposal_update_do_apply s o id = Ok s' → keeps s s'.
Proof.
  intros (p & s1 & _ & _ & Hk & _ & _ & [->|(_ & _ & Hp)])%proposal_update_cases; [done|].
  etrans; [done|]. by apply push_proposal_keeps in Hp as [? _].
Qed.

Lemma proposal_create_time s o : proposal_create_do_evaluate s o = Ok tt → host_time s < pc_expiration_time o.
Proof. intros He. apply rbind_ok in He as ([] & Hlt%require_ok & _). lia. Qed.

(** The operations of a proposal need no further authorities. *)
Lemma proposal_create_other s o op :
  proposal_create_do_evaluate s o = Ok tt → op ∈ pc_proposed_ops o → req_other (operation_required op) = [].
Proof.
  unfold proposal_create_do_evaluate. intros H Hop. ok_inv.
  match goal with E : req_other _ = [] |- _ => revert E end. unfold proposals_required.
  intros E. destruct (req_other (operation_required op)) as [|a l] eqn:Ea; [done|]. exfalso.
  assert (∀ r, a ∈ req_other (foldl join_required r (map operation_required (pc_proposed_ops o)))) as Hin.
  { clear - Hop Ea. induction Hop as [op ops|op op' ops Hop IH]; intros r; simpl; [|by apply IH].
    assert (a ∈ req_other (join_required r (operation_required op))) as Ha by (simpl; rewrite Ea; apply elem_of_app; right; left).
    revert Ha. generalize (join_required r (operation_required op)). clear.
    induction ops as [|op ops IH]; intros r Ha; simpl; [done|]. apply IH. simpl. apply elem_of_app. by left. }
  specialize (Hin no_required). rewrite E in Hin. inversion Hin.
Qed.

Lemma proposal_create_keeps s o id s' :
  host_time s < pc_expiration_time o → proposal_create_do_apply s o = Ok (id, s') → keeps s s'.
Proof.
  unfold proposal_create_do_apply. intros Hlt Ha.
  apply rbind_ok in Ha as ([i t] & (-> & _ & _ & ->)%index_create_ok & Ha). injection Ha as <- <-.
  apply set_proposals_keeps. intros j q; simpl.
  rewrite lookup_insert_Some. intros [[<- <-]|[_ Hq]] Hle; [simpl in Hle; lia|eauto].
Qed.

(** One round of the expiry loop. *)
Lemma expiry_round s id p (r : option S) :
  find_proposal s id = Some p → try_execute s id p = Ok r →
  ∃ s', match r with Some s' => Ok s' | None => remove_proposal s id end = Ok s' ∧
    keeps s s' ∧ id ∉ dom (expired s').
Proof.
  intros Hp Hr. destruct r as [s'|].
  - exists s'. apply try_execute_some in Hr as [_ Hr]. by apply push_proposal_keeps in Hr.
  - destruct (remove_proposal_total _ _ _ Hp) as [s' Hs']. exists s'. split; [done|].
    split; [by eapply remove_proposal_keeps|]. apply remove_proposal_expired in Hs' as [_ ->]. set_solver.
Qed.

Lemma first_not_expired s :
  match first_by po_expiration_time (objs (host_proposals s)) with
  | None => True
  | Some (_, p) => host_time s < po_expiration_time p
  end → expired s = ∅.
Proof.
  intros H. apply map_empty. intros i. apply map_lookup_filter_None. right. intros q Hq. unfold is_expired. simpl. rewrite Z.leb_le.
  pose proof (first_by_spec po_expiration_time (objs (host_proposals s))) as Hf.
  destruct (first_by _ _) as [[k p]|].
  - destruct Hf as [_ Hmin]. specialize (Hmin _ _ Hq). lia.
  - by rewrite Hf, lookup_empty in Hq.
Qed.

Lemma clear_expired_proposals_run fuel s :
  (size (expired s) <= fuel)%nat →
  (∃ s', clear_expired_proposals fuel s = Ok s' ∧ keeps s s' ∧ expired s' = ∅) ∨
  (∃ s0 id p e, clear_expired_proposals fuel s = Throw e ∧ keeps s s0 ∧ find_proposal s0 id = Some p ∧
     try_execute s0 id p = Throw e).
Proof.
  revert s. induction fuel as [|fuel IH]; intros s Hsize; simpl.
  all: pose proof (first_not_expired s) as Hend;
    destruct (first_by _ _) as [[id p]|] eqn:Efirst; [|left; exists s; by repeat split; auto].
  all: destruct (Z.leb_spec (po_expiration_time p) (host_time s)) as [Hle|Hlt];
    [|left; exists s; split_and!; [done|reflexivity|auto]].
  all: apply first_by_some in Efirst as [Hp _];
    assert (id ∈ dom (expired s)) as Hin by (apply elem_of_expired; eauto).
  { apply Nat.le_0_r, map_size_empty_inv in Hsize. rewrite Hsize in Hin. set_solver. }
  destruct (try_execute s id p) as [r|e] eqn:Er; simpl.
  2:{ right. exists s, id, p, e. by repeat split. }
  destruct (expiry_round _ _ _ _ Hp Er) as (s1 & -> & [Ht Hd] & Hgone). cbn [rbind].
  destruct (IH s1) as [(s' & Hs' & [Ht' Hd'] & He)|(s0 & i & q & e & Hs0 & [Ht0 Hd0] & Hq & He)].
  - apply Nat.lt_succ_r. eapply Nat.lt_le_trans; [|exact Hsize].
    rewrite <- !size_dom. apply subset_size. set_solver.
  - left. exists s'. split_and!; [done| |done]. split; [congruence|set_solver].
  - right. exists s0, i, q, e. split_and!; [done| |done|done]. split; [congruence|set_solver].
Qed.
End expiry.
End properties.
