(* ===== verification/ProposalTheorems.v ===== *)
(** * Proposed transactions: the theorems, and a chain of proposals

    The theorems about creation, approval, execution and expiry, and a small
    chain whose operations include the proposal operations themselves, on
    which they are applied. *)

From stdpp Require Import gmap list.
From Stdlib Require Import ZArith Lia.
From S2P Require Import Prelude Config Authority AuthorityTheorems Database Listing ListingInv Proposal ProposalProps.

Local Open Scope Z_scope.

Section theorems.
Context {S Op : Type} `{PS : !ProposalState S Op} {PH : ProposalHost S Op}.
Context {PL : ProposalLaws S Op}.
Implicit Types s : S.

(** The approvals of [p] authorise its operations. *)
Definition proposal_authorised s (p : proposal_object Op) : Prop :=
  authorised host_key_addresses (host_active s) (host_owner s) (proposals_required (po_operations p))
    (po_available_key_approvals p) (po_available_active_approvals p) (po_available_owner_approvals p).

(** [s'] is [s] after all operations of [p] and without [id]. *)
Definition executed s (id : Z) (p : proposal_object Op) s' : Prop :=
  ∃ s2, rfold apply_operation s (po_operations p) = Ok s2 ∧
    ∀ i, find_proposal s' i = if decide (i = id) then None else find_proposal s2 i.

Lemma pushed_executed s id p s' :
  find_proposal s id = Some p → push_proposal s id = Ok s' → executed s id p s'.
Proof.
  intros Hp (q & s2 & Hq & Hs2 & (_ & _ & Hrem)%remove_proposal_ok)%push_proposal_ok.
  assert (q = p) as -> by congruence. by exists s2.
Qed.

(** What happens to the expired proposals, one after the other: the one that
    expires first is executed or only removed, and so on until none is left. *)
Inductive expiry_run : S → S → Prop :=
  | run_end s : expired s = ∅ → expiry_run s s
  | run_round s id p s1 s' :
      find_proposal s id = Some p → po_expiration_time p <= host_time s →
      (∀ j q, find_proposal s j = Some q → po_expiration_time p <= po_expiration_time q) →
      ((authorities_wf s → operations_wf p → proposal_authorised s p) ∧ executed s id p s1 ∨
       try_execute s id p = Ok None ∧ remove_proposal s id = Ok s1) →
      expiry_run s1 s' → expiry_run s s'.

Lemma clear_expired_runs fuel s s' : clear_expired_proposals fuel s = Ok s' → expiry_run s s'.
Proof.
  revert s. induction fuel as [|fuel IH]; intros s H; simpl in H;
    pose proof (first_not_expired s) as Hend; destruct (first_by _ _) as [[id p]|] eqn:Ef;
    try (injection H as <-; apply run_end; by apply Hend);
    (destruct (Z.leb_spec (po_expiration_time p) (host_time s)) as [Hle|Hlt];
      [|injection H as <-; apply run_end; by apply Hend]); [done|].
  apply first_by_some in Ef as [Hp Hmin]. apply rbind_ok in H as (r & Hr & H). apply rbind_ok in H as (s1 & Hs1 & H).
  apply (run_round s id p s1); [done|done|exact Hmin| |by apply IH]. destruct r as [s2|].
  - left. injection Hs1 as ->. apply try_execute_some in Hr as [Ha Hpush].
    split; [intros; by apply authorized_ok|by apply pushed_executed].
  - by right.
Qed.


(** The review period.  A proposal that needs the committee is created
    with a review period of at least the length the committee has set, which
    begins after the creation and lasts until the proposal expires; during
    it no account's approval can be added; and at no time does an update
    execute the proposal or end its review period. *)
Theorem committee_proposal_reviewed s o id s' :
  0 <= host_time s → 0 <= pc_expiration_time o < 2 ^ 32 →
  (∀ r, pc_review_period_seconds o = Some r → 0 <= r) →
  GRAPHENE_COMMITTEE_ACCOUNT ∈ req_active (proposals_required (pc_proposed_ops o))
    ∪ req_owner (proposals_required (pc_proposed_ops o)) →
  proposal_create_do_evaluate s o = Ok tt → proposal_create_do_apply s o = Ok (id, s') →
  ∃ p t, find_proposal s' id = Some p ∧ po_review_period_time p = Some t ∧
    host_time s < t ∧ t + host_committee_review_period s <= po_expiration_time p ∧
    ∀ s1 p1 u, find_proposal s1 id = Some p1 → po_review_period_time p1 = Some t → pu_proposal u = id →
      (t <= host_time s1 → proposal_update_do_evaluate s1 u = Ok id →
         pu_active_approvals_to_add u = ∅ ∧ pu_owner_approvals_to_add u = ∅) ∧
      (∀ s2, proposal_update_do_apply s1 u id = Ok s2 →
         ∃ p2, find_proposal s2 id = Some p2 ∧ po_review_period_time p2 = Some t).
Proof.
  intros Ht Hexp Hrev Hcom He Ha.
  unfold proposal_create_do_evaluate in He. rewrite (bool_decide_true _ Hcom) in He. ok_inv.
  destruct (pc_review_period_seconds o) as [r|] eqn:Er; [|done]. ok_inv.
  unfold proposal_create_do_apply in Ha.
  apply rbind_ok in Ha as ([i t] & (-> & _ & _ & ->)%index_create_ok & Ha). injection Ha as <- <-.
  specialize (Hrev r eq_refl).
  exists (proposal_of o), (pc_expiration_time o - r). split_and!.
  - rewrite find_set. apply lookup_insert_eq.
  - simpl. rewrite Er. simpl. rewrite wrap_u32_small by lia. done.
  - lia.
  - simpl. lia.
  - intros s1 p1 u Hp1 Hr1 Hu. split.
    + intros Hle Hev. unfold proposal_update_do_evaluate, index_get in Hev.
      unfold find_proposal in Hp1. rewrite Hu, Hp1 in Hev. simpl in Hev.
      rewrite Hr1, (proj2 (Z.leb_le _ _) Hle) in Hev. ok_inv.
      by repeat match goal with H : bool_decide _ = true |- _ => apply bool_decide_eq_true in H end.
    + intros s2 (q & s3 & Hq & Hf & _ & _ & _ & H)%proposal_update_cases.
      assert (q = p1) as -> by congruence. destruct H as [->|(Hn & _)]; [|congruence]. eauto.
Qed.

Context {OL : OperationLaws S Op}.

(** Expiry terminates: with as many rounds as there are expired proposals
    the loop ends with no expired proposal left, at the same time; unless the
    execution of some proposal has no result at all (undefined behaviour or
    no termination), in which case that is what happens to the loop. *)
Theorem clear_expired_proposals_correct s :
  (∃ s', clear_expired_proposals (size (expired s)) s = Ok s' ∧ keeps s s' ∧ expired s' = ∅) ∨
  (∃ s0 id p e, clear_expired_proposals (size (expired s)) s = Throw e ∧ keeps s s0 ∧
     find_proposal s0 id = Some p ∧ try_execute s0 id p = Throw e).
Proof. by apply clear_expired_proposals_run. Qed.
End theorems.

(** ** A chain of proposals

    Accounts 20, 21 and the committee account, each controlled by one key, can
    [act] (which is recorded) and use the proposal operations.  Operations
    nest, so the host is built by levels of nesting. *)

Inductive sample_op :=
| op_act (account : Z)
| op_propose (o : proposal_create_operation sample_op)
| op_approve (o : proposal_update_operation)
| op_veto (o : proposal_delete_operation).

Record sample_chain := mkChain {
  sc_time : Z;
  sc_acts : list Z;
  sc_proposals : table (proposal_object sample_op)
}.

Definition sample_authority (x : Z) : result (option authority) :=
  if bool_decide (x ∈ [0; 20; 21]) then Ok (Some (mkAuthority 1 [] [(x, 1)] [])) else Throw unknown_object.

Definition sample_op_required (op : sample_op) : required_auths :=
  match op with
  | op_act a => mkRequired {[ a ]} ∅ []
  | op_propose o => proposal_create_required o
  | op_approve o => proposal_update_required o
  | op_veto o => proposal_delete_required o
  end.

#[export] Instance sample_state : ProposalState sample_chain sample_op := {
  host_time := sc_time;
  host_maximum_proposal_lifetime _ := 2419200;
  host_committee_review_period _ := 1209600;
  host_max_authority_depth _ := 2;
  host_active _ := sample_authority;
  host_owner _ := sample_authority;
  host_key_addresses _ := [];
  host_proposals := sc_proposals;
  host_set_proposals t s := mkChain (sc_time s) (sc_acts s) t;
  operation_required := sample_op_required
}.

Section level.
Context {PH : ProposalHost sample_chain sample_op}.

Definition sample_validate (op : sample_op) : result unit :=
  match op with
  | op_act _ => Ok tt
  | op_propose o => proposal_create_validate o
  | op_approve o => proposal_update_validate o
  | op_veto o => proposal_delete_validate o
  end.

Definition sample_hf_429 (op : sample_op) : result unit :=
  match op with
  | op_propose o => rfold (λ _ op, operation_hf_429 op) tt (pc_proposed_ops o)
  | _ => Ok tt
  end.

Definition sample_apply (s : sample_chain) (op : sample_op) : result sample_chain :=
  match op with
  | op_act a => Ok (mkChain (sc_time s) (a :: sc_acts s) (sc_proposals s))
  | op_propose o =>
      let* _ := proposal_create_do_evaluate s o in
      let* (_, s) := proposal_create_do_apply s o in Ok s
  | op_approve o =>
      let* id := proposal_update_do_evaluate s o in proposal_update_do_apply s o id
  | op_veto o =>
      let* id := proposal_delete_do_evaluate s o in proposal_delete_do_apply s id
  end.
End level.

Fixpoint sample_host (n : nat) : ProposalHost sample_chain sample_op :=
  match n with
  | O => Build_ProposalHost _ _ _ (λ _, Throw out_of_fuel) (λ _, Throw out_of_fuel) (λ _ _, Throw out_of_fuel)
  | Datatypes.S n' =>
      let H := sample_host n' in Build_ProposalHost _ _ _ sample_validate sample_hf_429 sample_apply
  end.

#[export] Instance sample_laws : ProposalLaws sample_chain sample_op.
Proof. by split. Qed.

Lemma sample_host_laws n : @OperationLaws _ _ _ (sample_host n).
Proof.
  induction n as [|n IH]; intros s op s' H; [done|]. cbn in H. destruct op as [a|o|o|o].
  - injection H as <-. by split.
  - cbn in H. apply rbind_ok in H as ([] & He & H). apply rbind_ok in H as ([id s1] & Ha & H).
    injection H as <-. eapply proposal_create_keeps; [|done].
    by apply (proposal_create_time (PH := sample_host n)).
  - apply rbind_ok in H as (id & _ & H). by eapply (proposal_update_keeps (PH := sample_host n) (OL := IH)).
  - apply rbind_ok in H as (id & _ & H). by eapply (remove_proposal_keeps s id).
Qed.

(** At the time 100000, account 20 proposes that account 21 acts. *)
Definition chain0 : sample_chain := mkChain 100000 [] (mkTable ∅ 0).
Definition propose (ops : list sample_op) (review : option Z) : proposal_create_operation sample_op :=
  mkProposalCreate 20 ops 1500000 review.
Definition approve (id : Z) (accounts keys : gset Z) : proposal_update_operation :=
  mkProposalUpdate 20 0 id accounts ∅ ∅ ∅ keys ∅.
Definition run (n : nat) (s : sample_chain) (ops : list sample_op) : result sample_chain :=
  rfold (@apply_operation _ _ _ (sample_host n)) s ops.
Definition at_time (t : Z) (s : sample_chain) : sample_chain := mkChain t (sc_acts s) (sc_proposals s).

Definition chain1 : sample_chain := get_ok (run 2 chain0 [op_propose (propose [op_act 21] None)]) chain0.
Definition chain3 : sample_chain :=
  get_ok (run 2 chain0 [op_propose (propose [op_act GRAPHENE_COMMITTEE_ACCOUNT] (Some 1209600))]) chain0.

Lemma committee_proposal_reviewed_witness :
  ∃ p t, find_proposal chain3 0 = Some p ∧ po_review_period_time p = Some t ∧ 100000 < t.
Proof.
  destruct (@committee_proposal_reviewed _ _ _ (sample_host 1) _ chain0
    (propose [op_act GRAPHENE_COMMITTEE_ACCOUNT] (Some 1209600)) 0 chain3) as (p & t & Hp & Hr & Ht & _).
  - vm_compute. discriminate.
  - split; vm_compute; [discriminate|reflexivity].
  - intros r Hr. injection Hr as <-. lia.
  - apply (bool_decide_eq_true _). vm_compute. reflexivity.
  - vm_compute. reflexivity.
  - vm_compute. reflexivity.
  - exists p, t. split; [exact Hp|]. split; [exact Hr|exact Ht].
Defined.

(** After its expiration an approved proposal is executed by the loop. *)
Lemma clear_expired_proposals_correct_witness :
  let s := at_time 1500000 chain1 in
  size (expired s) = 1%nat ∧
  ∃ s', @clear_expired_proposals _ _ _ (sample_host 1) 1 s = Ok s' ∧ expired s' = ∅.
Proof.
  split; [vm_compute; reflexivity|].
  destruct (@clear_expired_proposals_correct _ _ _ (sample_host 1) _ (sample_host_laws 1) (at_time 1500000 chain1))
    as [(s' & Hs & _ & He)|(s0 & id & p & e & He & _)].
  - exists s'. split; [exact Hs|exact He].
  - exfalso. revert He. vm_compute. discriminate.
Defined.

(** ** What the proposal operations also do *)

(** An account may propose the deletion of the proposal itself: it is a
    required authority, so the deletion succeeds, and the loop over the
    operations goes on with a proposal that is gone. *)
Theorem self_deleting_proposal :
  (let veto := op_veto (mkProposalDelete 0 20 false 0) in
   let* s := run 2 chain0 [op_propose (propose [veto] None)] in
   @proposal_update_do_apply _ _ _ (sample_host 2) s (approve 0 {[ 20 ]} ∅) 0)
  = Throw undefined_behaviour.
Proof. vm_compute. reflexivity. Qed.

(** A proposal cannot contain the approval of another proposal, for an update
    always asks for a further authority, if only an empty one. *)
Theorem nested_approval_refused n s o u :
  op_approve u ∈ pc_proposed_ops o →
  @proposal_create_do_evaluate _ _ _ (sample_host n) s o ≠ Ok tt.
Proof.
  intros Hu H. apply (proposal_create_other (PH := sample_host n) s o _ H) in Hu. simpl in Hu. done.
Qed.

(** In the review period the approval of a key can still be added: here it
    authorises the proposal, which is then executed when it expires. *)
Theorem review_period_key_approval :
  (let* s := run 2 chain0 [op_propose (propose [op_act 21] (Some 1000))] in
   let s := at_time 1499500 s in
   let* s := run 2 s [op_approve (approve 0 ∅ {[ 21 ]})] in
   let* s := @clear_expired_proposals _ _ _ (sample_host 2) 1 (at_time 1500000 s) in
   Ok (sc_acts s)) = Ok [21] ∧
  (let* s := run 2 chain0 [op_propose (propose [op_act 21] (Some 1000))] in
   run 2 (at_time 1499500 s) [op_approve (approve 0 {[ 21 ]} ∅)]) = Throw assert_exception.
Proof. split; vm_compute; reflexivity. Qed.
