(* ===== verification/SecondaryIndex.v ===== *)
(** * Secondary indexes ([db/index.hpp], [primary_index])

    A primary index tells its secondary indexes about every object that is
    created, modified or removed.  The class [SecondaryIndex] is that
    interface, [IndexLaws] what makes an index reflect its table; an index
    with the laws stays in step with every change made through the primary
    index.  The indexes of escrows by account and of proposals by account,
    and the one call that does not tell them. *)

From stdpp Require Import gmap strings list relations.
From Stdlib Require Import ZArith Lia.
From S2P Require Import Prelude Config Authority Asset VestingBalance Objects Database Proposal.

Local Open Scope Z_scope.

(** ** The interface *)

Class SecondaryIndex (V X : Type) := {
  no_entries : X;
  object_inserted : Z → V → X → X;
  object_removed : Z → V → X → X;
  about_to_modify : Z → V → X → X;
  object_modified : Z → V → X → X
}.

(** [clash] is the table's uniqueness test, [created] what new objects are
    like and [kept] what no modification changes. *)
Class IndexLaws {V X : Type} (SI : SecondaryIndex V X) (clash : V → V → bool) (created : V → Prop)
    (kept : V → V → Prop) (reflects : gmap Z V → X → Prop) : Prop := {
  reflects_nothing : reflects ∅ no_entries;
  reflects_inserted m x id v : m !! id = None → clashes clash m v = false → created v →
    reflects m x → reflects (<[id := v]> m) (object_inserted id v x);
  reflects_removed m x id v : m !! id = Some v → reflects m x → reflects (delete id m) (object_removed id v x);
  reflects_modified m x id v v' : m !! id = Some v → clashes clash (delete id m) v' = false → kept v v' →
    reflects m x → reflects (<[id := v']> m) (object_modified id v' (about_to_modify id v x))
}.

(** Several indexes of one table, in the order they were added. *)
#[export] Instance both_indexes {V X Y} (SX : SecondaryIndex V X) (SY : SecondaryIndex V Y) :
    SecondaryIndex V (X * Y) := {
  no_entries := (no_entries, no_entries);
  object_inserted id v x := (object_inserted id v x.1, object_inserted id v x.2);
  object_removed id v x := (object_removed id v x.1, object_removed id v x.2);
  about_to_modify id v x := (about_to_modify id v x.1, about_to_modify id v x.2);
  object_modified id v x := (object_modified id v x.1, object_modified id v x.2)
}.

#[export] Instance both_laws {V X Y} (SX : SecondaryIndex V X) (SY : SecondaryIndex V Y) clash created kept R S :
  IndexLaws SX clash created kept R → IndexLaws SY clash created kept S →
  IndexLaws (both_indexes SX SY) clash created kept (λ m x, R m x.1 ∧ S m x.2).
Proof.
  intros LX LY. split; simpl.
  - split; apply reflects_nothing.
  - intros m x id v Hid Hc Hn [HX HY]. split; by apply reflects_inserted.
  - intros m x id v Hid [HX HY]. split; by apply reflects_removed.
  - intros m x id v v' Hid Hc Hk [HX HY]. split; by apply reflects_modified.
Qed.

Section primary.
Context {V X : Type} (SI : SecondaryIndex V X) (clash : V → V → bool).

(** A table with its secondary indexes. *)
Definition primary_index : Type := table V * X.

Definition primary_create (p : primary_index) (v : V) : result (Z * primary_index) :=
  let* (id, t) := index_create clash p.1 v in
  Ok (id, (t, object_inserted id v p.2)).

(** The secondary indexes see the object before it goes. *)
Definition primary_remove (p : primary_index) (id : Z) : result primary_index :=
  let* v := index_get p.1 id in
  let x := object_removed id v p.2 in
  let* t := index_remove p.1 id in
  Ok (t, x).

Definition primary_modify (p : primary_index) (id : Z) (f : V → result V) : result primary_index :=
  let* v := index_get p.1 id in
  let x := about_to_modify id v p.2 in
  let* t := index_modify clash p.1 id f in
  let* v' := index_get t id in
  Ok (t, object_modified id v' x).

(** [insert], which puts back what an undone session removed, is that of the
    table: the class does not override it. *)
Definition primary_insert (p : primary_index) (id : Z) (v : V) : result primary_index :=
  FC_ASSERT (bool_decide (objs p.1 !! id = None) && negb (clashes clash (objs p.1) v)) ;;
  Ok (mkTable (<[id := v]> (objs p.1)) (next_id p.1), p.2).

Context (created : V → Prop) (kept : V → V → Prop) (reflects : gmap Z V → X → Prop).
Context {L : IndexLaws SI clash created kept reflects}.

(** The changes of the running chain. *)
Inductive primary_step : primary_index → primary_index → Prop :=
| creates p v id p' : created v → primary_create p v = Ok (id, p') → primary_step p p'
| removes p id p' : primary_remove p id = Ok p' → primary_step p p'
| modifies p id f p' : (∀ v v', objs p.1 !! id = Some v → f v = Ok v' → kept v v') →
    primary_modify p id f = Ok p' → primary_step p p'.

Lemma primary_step_reflects p p' : primary_step p p' → reflects (objs p.1) p.2 → reflects (objs p'.1) p'.2.
Proof.
  intros [[t x] v id q Hv H|[t x] id q H|[t x] id f q Hk H] Hr; simpl in *.
  - unfold primary_create in H. simpl in H. apply rbind_ok in H as ([i t'] & H & [= <- <-]).
    apply index_create_ok in H as (-> & Hn & Hc & ->). by apply (reflects_inserted (IndexLaws := L)).
  - unfold primary_remove, index_get in H. simpl in H. apply rbind_ok in H as (v & Hv%of_option_ok & H).
    apply rbind_ok in H as (t' & [_ ->]%index_remove_ok & [= <-]). by apply (reflects_removed (IndexLaws := L)).
  - unfold primary_modify, index_get in H. simpl in H. apply rbind_ok in H as (v & Hv%of_option_ok & H).
    apply rbind_ok in H as (t' & (w & w' & Hw & Hf & Hc & ->)%index_modify_ok & H).
    apply rbind_ok in H as (v' & Hv'%of_option_ok & [= <-]). simpl in *.
    rewrite lookup_insert_eq in Hv'. simplify_eq. apply (reflects_modified (IndexLaws := L)); [done..|by apply Hk|done].
Qed.

(** Every table that the chain makes is reflected. *)
Lemma primary_steps_reflect n p : rtc primary_step (mkTable ∅ n, no_entries) p → reflects (objs p.1) p.2.
Proof.
  intros H. assert (reflects (objs (mkTable (V := V) ∅ n)) no_entries) as H0 by apply (reflects_nothing (IndexLaws := L)).
  change (reflects (objs (mkTable (V := V) ∅ n, no_entries (SecondaryIndex := SI)).1)
                   (mkTable (V := V) ∅ n, no_entries (SecondaryIndex := SI)).2) in H0.
  revert H0. induction H as [p|p q r Hs _ IH]; [done|]. intros H0. by apply IH, (primary_step_reflects p).
Qed.
End primary.

(** ** Objects by account

    Maps from a key to the set of the objects that concern it. *)

Notation memberships := (gmap Z (gset Z)).

(** [m[item].insert( id )] and [m[item].erase( id )]. *)
Definition add_member (id : Z) (m : memberships) (item : Z) : memberships :=
  <[item := {[id]} ∪ default ∅ (m !! item)]> m.
Definition remove_member (id : Z) (m : memberships) (item : Z) : memberships :=
  <[item := default ∅ (m !! item) ∖ {[id]}]> m.

(** The same, where empty sets are taken out and missing ones not made. *)
Definition drop_member (id : Z) (m : memberships) (item : Z) : memberships :=
  match m !! item with
  | None => m
  | Some s => let s := s ∖ {[id]} in if bool_decide (s = ∅) then delete item m else <[item := s]> m
  end.

Definition members_at (m : memberships) (k : Z) : gset Z := default ∅ (m !! k).
Definition no_empty_sets (m : memberships) : Prop := ∀ k, m !! k ≠ Some ∅.

Lemma add_all_at id l m k : members_at (foldl (add_member id) m l) k =
  if decide (k ∈ l) then {[id]} ∪ members_at m k else members_at m k.
Proof.
  revert m. induction l as [|i l IH]; intros m; cbn [foldl]; [by rewrite decide_False by (by apply not_elem_of_nil)|].
  rewrite IH. unfold members_at, add_member. destruct (decide (k = i)) as [->|Hk].
  - rewrite lookup_insert_eq, (decide_True (P := i ∈ i :: l)) by left. simpl. case_decide; set_solver.
  - rewrite lookup_insert_ne by done. do 2 case_decide; set_solver.
Qed.

Lemma remove_all_at id l m k : members_at (foldl (remove_member id) m l) k =
  if decide (k ∈ l) then members_at m k ∖ {[id]} else members_at m k.
Proof.
  revert m. induction l as [|i l IH]; intros m; cbn [foldl]; [by rewrite decide_False by (by apply not_elem_of_nil)|].
  rewrite IH. unfold members_at, remove_member. destruct (decide (k = i)) as [->|Hk].
  - rewrite lookup_insert_eq, (decide_True (P := i ∈ i :: l)) by left. simpl. case_decide; set_solver.
  - rewrite lookup_insert_ne by done. do 2 case_decide; set_solver.
Qed.

Lemma drop_member_at id m i k : members_at (drop_member id m i) k =
  if decide (k = i) then members_at m k ∖ {[id]} else members_at m k.
Proof.
  unfold members_at, drop_member. destruct (m !! i) as [s|] eqn:Hi.
  - case_bool_decide as Hs; (destruct (decide (k = i)) as [->|Hk]; [rewrite Hi; simpl|]).
    + rewrite lookup_delete_eq. simpl. by rewrite Hs.
    + by rewrite lookup_delete_ne by done.
    + by rewrite lookup_insert_eq.
    + by rewrite lookup_insert_ne by done.
  - case_decide as Hk; [|done]. rewrite Hk, Hi. simpl. set_solver.
Qed.

Lemma drop_all_at id l m k : members_at (foldl (drop_member id) m l) k =
  if decide (k ∈ l) then members_at m k ∖ {[id]} else members_at m k.
Proof.
  revert m. induction l as [|i l IH]; intros m; cbn [foldl]; [by rewrite decide_False by (by apply not_elem_of_nil)|].
  rewrite IH, drop_member_at. destruct (decide (k = i)) as [->|Hk].
  - rewrite (decide_True (P := i ∈ i :: l)) by left. case_decide; set_solver.
  - do 2 case_decide; set_solver.
Qed.

Lemma add_all_no_empty id l m : no_empty_sets m → no_empty_sets (foldl (add_member id) m l).
Proof.
  revert m. induction l as [|i l IH]; intros m Hm; simpl; [done|]. apply IH. intros k. unfold add_member.
  rewrite lookup_insert_Some. intros [[_ E]|[_ E]]; [set_solver|by apply (Hm k)].
Qed.

Lemma drop_all_no_empty id l m : no_empty_sets m → no_empty_sets (foldl (drop_member id) m l).
Proof.
  revert m. induction l as [|i l IH]; intros m Hm; simpl; [done|]. apply IH. intros k. unfold drop_member.
  destruct (m !! i) as [s|] eqn:Hi; [|apply Hm]. case_bool_decide as Hs.
  - rewrite lookup_delete_Some. intros [_ E]. by apply (Hm k).
  - rewrite lookup_insert_Some. intros [[_ E]|[_ E]]; [by simplify_eq|by apply (Hm k)].
Qed.

(** The objects of a table that concern [k]. *)
Section entries.
Context {V : Type} (f : V → gset Z).

Definition entries (m : gmap Z V) (k : Z) : gset Z := dom (filter (λ kv, k ∈ f kv.2) m).

Lemma elem_of_entries m k id : id ∈ entries m k ↔ ∃ v, m !! id = Some v ∧ k ∈ f v.
Proof. unfold entries. rewrite elem_of_dom. unfold is_Some. setoid_rewrite map_lookup_filter_Some. done. Qed.

Lemma entries_insert m k id v : m !! id = None →
  entries (<[id := v]> m) k = if decide (k ∈ f v) then {[id]} ∪ entries m k else entries m k.
Proof.
  intros Hid. apply set_eq. intros i. rewrite elem_of_entries. setoid_rewrite lookup_insert_Some. case_decide as Hk.
  - rewrite elem_of_union, elem_of_singleton, elem_of_entries. naive_solver.
  - rewrite elem_of_entries. naive_solver.
Qed.

Lemma entries_delete m k id v : m !! id = Some v →
  entries (delete id m) k = if decide (k ∈ f v) then entries m k ∖ {[id]} else entries m k.
Proof.
  intros Hid. apply set_eq. intros i. rewrite elem_of_entries. setoid_rewrite lookup_delete_Some. case_decide as Hk.
  - rewrite elem_of_difference, elem_of_singleton, elem_of_entries. naive_solver.
  - rewrite elem_of_entries. naive_solver.
Qed.

Lemma entries_same m k id v v' : m !! id = Some v → f v' = f v → entries (<[id := v']> m) k = entries m k.
Proof.
  intros Hid E. apply set_eq. intros i. rewrite !elem_of_entries. setoid_rewrite lookup_insert_Some. split.
  - intros (w & [[<- <-]|[_ Hw]] & Hk); [rewrite E in Hk|]; eauto.
  - intros (w & Hw & Hk). destruct (decide (id = i)) as [->|Hi]; [|by eauto 10].
    rewrite Hid in Hw. injection Hw as <-. exists v'. rewrite E. auto.
Qed.

(** What an index by account holds. *)
Definition by_key (m : gmap Z V) (x : memberships) : Prop := ∀ k, members_at x k = entries m k.
Definition by_key_exactly (m : gmap Z V) (x : memberships) : Prop := by_key m x ∧ no_empty_sets x.

Lemma by_key_exactly_nothing : by_key_exactly ∅ ∅.
Proof.
  split; intros k; [|by rewrite lookup_empty]. unfold members_at, entries. rewrite lookup_empty. simpl.
  by rewrite map_filter_empty, dom_empty_L.
Qed.

Lemma by_key_add m x id v l : m !! id = None → (∀ k, k ∈ l ↔ k ∈ f v) → by_key m x →
  by_key (<[id := v]> m) (foldl (add_member id) x l).
Proof.
  intros Hid Hl Hx k. rewrite add_all_at, entries_insert, Hx by done.
  destruct (decide (k ∈ l)) as [H|H]; rewrite Hl in H; by case_decide.
Qed.

Lemma by_key_remove m x id v l : m !! id = Some v → (∀ k, k ∈ l ↔ k ∈ f v) → by_key m x →
  by_key (delete id m) (foldl (remove_member id) x l).
Proof.
  intros Hid Hl Hx k. rewrite remove_all_at, (entries_delete _ _ _ v), Hx by done.
  destruct (decide (k ∈ l)) as [H|H]; rewrite Hl in H; by case_decide.
Qed.

(** Removal may name more keys than the object was under. *)
Lemma by_key_drop m x id v l : m !! id = Some v → (∀ k, k ∈ f v → k ∈ l) → by_key m x →
  by_key (delete id m) (foldl (drop_member id) x l).
Proof.
  intros Hid Hl Hx k. rewrite drop_all_at, (entries_delete _ _ _ v), Hx by done.
  destruct (decide (k ∈ l)) as [H|H]; case_decide as Hf; try done; [|by apply Hl in Hf].
  apply set_eq. intros i. rewrite elem_of_difference, elem_of_singleton, elem_of_entries. naive_solver.
Qed.

Lemma by_key_same m x id v v' : m !! id = Some v → f v' = f v → by_key m x → by_key (<[id := v']> m) x.
Proof. intros Hid E Hx k. by rewrite (entries_same _ _ _ v), Hx. Qed.
End entries.

Lemma by_key_exactly_add {V} (f : V → gset Z) m x id v l : m !! id = None → (∀ k, k ∈ l ↔ k ∈ f v) →
  by_key_exactly f m x → by_key_exactly f (<[id := v]> m) (foldl (add_member id) x l).
Proof. intros Hid Hl [Hx He]. split; [by apply by_key_add|by apply add_all_no_empty]. Qed.

Lemma by_key_exactly_drop {V} (f : V → gset Z) m x id v l : m !! id = Some v → (∀ k, k ∈ f v → k ∈ l) →
  by_key_exactly f m x → by_key_exactly f (delete id m) (foldl (drop_member id) x l).
Proof. intros Hid Hl [Hx He]. split; [by apply (by_key_drop f _ _ _ v)|by apply drop_all_no_empty]. Qed.

Lemma by_key_exactly_same {V} (f : V → gset Z) m x id v v' : m !! id = Some v → f v' = f v →
  by_key_exactly f m x → by_key_exactly f (<[id := v']> m) x.
Proof. intros Hid E [Hx He]. split; [by apply (by_key_same f _ _ _ v)|done]. Qed.

(** ** Escrows by account ([escrow_account_index]) *)

Definition escrow_accounts (e : escrow_object) : list Z := [eo_buyer e; eo_seller e; eo_escrow e].

#[export] Instance escrow_account_index : SecondaryIndex escrow_object memberships := {
  no_entries := ∅;
  object_inserted id e x := foldl (add_member id) x (escrow_accounts e);
  object_removed id e x := foldl (drop_member id) x (escrow_accounts e);
  about_to_modify id e x := x;
  object_modified id e x := x
}.

Definition escrow_concerns (e : escrow_object) : gset Z := list_to_set (escrow_accounts e).

#[export] Instance escrow_account_laws : IndexLaws escrow_account_index no_clash (λ _, True)
  (λ e e', escrow_accounts e' = escrow_accounts e) (by_key_exactly escrow_concerns).
Proof.
  assert (∀ e k, k ∈ escrow_accounts e ↔ k ∈ escrow_concerns e) as Hl by (intros; unfold escrow_concerns; by rewrite elem_of_list_to_set).
  split; simpl.
  - apply by_key_exactly_nothing.
  - intros m x id e Hid _ _. exact (by_key_exactly_add _ m x id e (escrow_accounts e) Hid (Hl e)).
  - intros m x id e Hid. exact (by_key_exactly_drop _ m x id e (escrow_accounts e) Hid (λ k, proj2 (Hl e k))).
  - intros m x id e e' Hid _ E. apply (by_key_exactly_same _ _ _ _ e); [done|]. unfold escrow_concerns. by rewrite E.
Qed.

(** ** Proposals by account ([required_approval_index]) *)

Section approvals.
Context {Op : Type}.

Definition approval_accounts (p : proposal_object Op) : list Z :=
  flat_elements (po_required_active_approvals p) ++ flat_elements (po_required_owner_approvals p)
  ++ flat_elements (po_available_active_approvals p) ++ flat_elements (po_available_owner_approvals p).

#[export] Instance required_approval_index : SecondaryIndex (proposal_object Op) memberships := {
  no_entries := ∅;
  object_inserted id p x := foldl (add_member id) x (approval_accounts p);
  object_removed id p x := foldl (drop_member id) x (approval_accounts p);
  about_to_modify id p x := x;
  object_modified id p x := x
}.

Definition required_approvals (p : proposal_object Op) : gset Z :=
  po_required_active_approvals p ∪ po_required_owner_approvals p.

(** A new proposal has no approvals yet; the required ones never change. *)
Definition not_approved (p : proposal_object Op) : Prop :=
  po_available_active_approvals p = ∅ ∧ po_available_owner_approvals p = ∅.

#[export] Instance required_approval_laws : IndexLaws required_approval_index no_clash not_approved
  (λ p p', required_approvals p' = required_approvals p) (by_key_exactly required_approvals).
Proof.
  split; simpl.
  - apply by_key_exactly_nothing.
  - intros m x id p Hid _ [Ha Ho]. apply by_key_exactly_add; [done|]. intros k. unfold approval_accounts, required_approvals.
    rewrite Ha, Ho, !elem_of_app, !elem_of_flat_elements. set_solver.
  - intros m x id p Hid. apply (by_key_exactly_drop _ _ _ _ p); [done|]. intros k.
    unfold approval_accounts, required_approvals. rewrite !elem_of_app, !elem_of_flat_elements. set_solver.
  - intros m x id p p' Hid _ E. by apply (by_key_exactly_same _ _ _ _ p).
Qed.
End approvals.

(** Through everything that the running chain does to the table of
    escrows, the index by account holds exactly the open escrows in which an
    account is buyer, seller or agent, and no empty sets. *)
Theorem escrows_by_account n p :
  rtc (primary_step escrow_account_index no_clash (λ _, True) (λ e e', escrow_accounts e' = escrow_accounts e))
    (mkTable ∅ n, ∅) p →
  (∀ k id, id ∈ members_at p.2 k ↔ ∃ e, objs p.1 !! id = Some e ∧ k ∈ escrow_accounts e) ∧ ∀ k, p.2 !! k ≠ Some ∅.
Proof.
  intros H. apply (primary_steps_reflect escrow_account_index no_clash _ _ (by_key_exactly escrow_concerns)) in H as [Hb He].
  split; [|exact He]. intros k id. rewrite Hb, elem_of_entries. unfold escrow_concerns.
  by setoid_rewrite elem_of_list_to_set.
Qed.

(** Undoing a session in which an escrow was removed brings back the
    table, but not the index: [primary_index] passes [insert] on without
    telling its secondary indexes, so the escrow is open again and none of
    its three parties finds it by account. *)
Theorem undone_removal_not_indexed t x id e p :
  by_key_exactly escrow_concerns (objs t) x → objs t !! id = Some e →
  primary_remove escrow_account_index (t, x) id = Ok p →
  ∃ q, primary_insert no_clash p id e = Ok q ∧ objs q.1 = objs t ∧
    ∀ k, id ∉ members_at q.2 k.
Proof.
  intros Hx Hid H. unfold primary_remove, index_get, index_remove in H. simpl in H. unfold index_get in H. rewrite Hid in H.
  simpl in H. injection H as <-. unfold primary_insert. simpl. rewrite lookup_delete_eq, bool_decide_true by done.
  assert (clashes no_clash (delete id (objs t)) e = false) as ->.
  { apply not_true_is_false. intros (v & _ & E)%existsb_exists. done. }
  simpl. eexists. split; [done|]. simpl. split; [by apply insert_delete_id|]. intros k.
  assert (by_key_exactly escrow_concerns (delete id (objs t)) (object_removed id e x)) as [Hb _].
  { by apply (reflects_removed (IndexLaws := escrow_account_laws)). }
  simpl in Hb. rewrite Hb, elem_of_entries. intros (v & Hv & _). by rewrite lookup_delete_eq in Hv.
Qed.

Definition an_escrow : escrow_object := mkEscrow 1570002000 20 21 22 (core_asset 5000) false None None no_ob_fee.

Lemma escrows_by_account_witness : ∀ k, k ∈ [20; 21; 22] →
  1 ∈ members_at (add_member 1 (add_member 1 (add_member 1 ∅ 20) 21) 22) k.
Proof.
  intros k Hk.
  apply (escrows_by_account 1 (mkTable {[ 1 := an_escrow ]} 2, add_member 1 (add_member 1 (add_member 1 ∅ 20) 21) 22)).
  - eapply rtc_once, (creates _ _ _ _ _ an_escrow 1); [done|reflexivity].
  - exists an_escrow. split; [reflexivity|exact Hk].
Defined.

Lemma undone_removal_not_indexed_witness : ∃ p q,
  primary_remove escrow_account_index
    (mkTable {[ 1 := an_escrow ]} 2, add_member 1 (add_member 1 (add_member 1 ∅ 20) 21) 22) 1 = Ok p ∧
  primary_insert no_clash p 1 an_escrow = Ok q ∧ objs q.1 = {[ 1 := an_escrow ]} ∧ 1 ∉ members_at q.2 20.
Proof.
  assert (by_key_exactly escrow_concerns {[ 1 := an_escrow ]} (add_member 1 (add_member 1 (add_member 1 ∅ 20) 21) 22)) as Hx.
  { apply (reflects_inserted (IndexLaws := escrow_account_laws) ∅ ∅ 1 an_escrow); [done..|]. apply by_key_exactly_nothing. }
  destruct (undone_removal_not_indexed (mkTable {[ 1 := an_escrow ]} 2) _ 1 an_escrow _ Hx eq_refl eq_refl)
    as (q & Hq & Ht & Hk). eexists _, q. split; [reflexivity|]. split; [exact Hq|]. split; [exact Ht|apply Hk].
Defined.
