(* ===== verification/AccountIndexes.v ===== *)
(** * Secondary indexes of the accounts ([account_object.cpp])

    Which accounts an account, a key or an address can sign for, whom an
    account has referred, and the escrow agents by name with their paged
    search: the indexes reflect the account table at all times. *)

From stdpp Require Import gmap strings list relations.
From Stdlib Require Import ZArith Lia Sorted.
From S2P Require Import Prelude Config Authority Asset VestingBalance Objects Database SecondaryIndex.

Local Open Scope Z_scope.

(** [address( public_key_type )]. *)
Class KeyAddress := key_address : Z → Z.

(** The unique index [by_name]; nothing renames an account. *)
Definition account_clash (a b : account_object) : bool := bool_decide (ao_name a = ao_name b).
Definition same_name (a a' : account_object) : Prop := ao_name a' = ao_name a.

(** ** [account_member_index] *)

Definition add_members (id : Z) (items : gset Z) (m : memberships) : memberships :=
  foldl (add_member id) m (flat_elements items).
Definition remove_members (id : Z) (items : gset Z) (m : memberships) : memberships :=
  foldl (remove_member id) m (flat_elements items).
Definition change_members (id : Z) (before after : gset Z) (m : memberships) : memberships :=
  add_members id (after ∖ before) (remove_members id (before ∖ after) m).

Record account_member_index := mkMembers {
  account_to_account_memberships : memberships;
  account_to_key_memberships : memberships;
  account_to_address_memberships : memberships;
  before_account_members : gset Z;
  before_key_members : gset Z;
  before_address_members : gset Z
}.

Section members.
Context {KA : KeyAddress}.

Definition get_account_members (a : account_object) : gset Z :=
  list_to_set (account_auths (ao_owner a)).*1 ∪ list_to_set (account_auths (ao_active a)).*1.
Definition get_key_members (a : account_object) : gset Z :=
  list_to_set (key_auths (ao_owner a)).*1 ∪ list_to_set (key_auths (ao_active a)).*1 ∪ {[ao_memo_key a]}.
Definition get_address_members (a : account_object) : gset Z :=
  list_to_set (address_auths (ao_owner a)).*1 ∪ list_to_set (address_auths (ao_active a)).*1
  ∪ {[key_address (ao_memo_key a)]}.

#[export] Instance account_member_index_hooks : SecondaryIndex account_object account_member_index := {
  no_entries := mkMembers ∅ ∅ ∅ ∅ ∅ ∅;
  object_inserted id a x :=
    mkMembers (add_members id (get_account_members a) (account_to_account_memberships x))
      (add_members id (get_key_members a) (account_to_key_memberships x))
      (add_members id (get_address_members a) (account_to_address_memberships x))
      (before_account_members x) (before_key_members x) (before_address_members x);
  object_removed id a x :=
    mkMembers (remove_members id (get_account_members a) (account_to_account_memberships x))
      (remove_members id (get_key_members a) (account_to_key_memberships x))
      (remove_members id (get_address_members a) (account_to_address_memberships x))
      (before_account_members x) (before_key_members x) (before_address_members x);
  about_to_modify _ a x :=
    mkMembers (account_to_account_memberships x) (account_to_key_memberships x) (account_to_address_memberships x)
      (get_account_members a) (get_key_members a) (get_address_members a);
  object_modified id a x :=
    mkMembers
      (change_members id (before_account_members x) (get_account_members a) (account_to_account_memberships x))
      (change_members id (before_key_members x) (get_key_members a) (account_to_key_memberships x))
      (change_members id (before_address_members x) (get_address_members a) (account_to_address_memberships x))
      (before_account_members x) (before_key_members x) (before_address_members x)
}.
End members.

(** ** [account_referrer_index] *)

#[export] Instance account_referrer_index : SecondaryIndex account_object memberships := {
  no_entries := ∅;
  object_inserted id a m := add_member id m (ao_referrer a);
  object_removed id a m := drop_member id m (ao_referrer a);
  about_to_modify id a m := drop_member id m (ao_referrer a);
  object_modified id a m := add_member id m (ao_referrer a)
}.

(** ** [account_escrow_index] *)

Definition account_object_name : Type := Z * string.

(** [std::lower_bound] on the sorted names. *)
Fixpoint lower_bound (l : list account_object_name) (name : string) : nat :=
  match l with
  | [] => O
  | x :: l' => if String.ltb x.2 name then S (lower_bound l' name) else O
  end.

Definition insert_keeping_sorted (l : list account_object_name) (x : account_object_name) : list account_object_name :=
  let i := lower_bound l x.2 in take i l ++ x :: drop i l.

Definition escrow_inserted (l : list account_object_name) (id : Z) (a : account_object) : list account_object_name :=
  if ao_is_an_escrow a then insert_keeping_sorted l (id, ao_name a) else l.

Definition escrow_removed (l : list account_object_name) (id : Z) (a : account_object) : list account_object_name :=
  let i := lower_bound l (ao_name a) in
  match l !! i with
  | Some x => if x.1 =? id then delete i l else l
  | None => l
  end.

Definition escrow_modified (l : list account_object_name) (id : Z) (a : account_object) : list account_object_name :=
  if ao_is_an_escrow a then
    let i := lower_bound l (ao_name a) in
    match l !! i with
    | Some x => if x.1 =? id then <[i := (id, ao_name a)]> l else take i l ++ (id, ao_name a) :: drop i l
    | None => take i l ++ (id, ao_name a) :: drop i l
    end
  else escrow_removed l id a.

#[export] Instance account_escrow_index : SecondaryIndex account_object (list account_object_name) := {
  no_entries := [];
  object_inserted id a l := escrow_inserted l id a;
  object_removed id a l := escrow_removed l id a;
  about_to_modify id a l := l;
  object_modified id a l := escrow_modified l id a
}.

(** The entries from an iterator on, while they start with the term. *)
Fixpoint page (limit : nat) (search_term : string) (l : list account_object_name) : list account_object_name :=
  match limit, l with
  | S limit', x :: l' => if String.prefix search_term x.2 then x :: page limit' search_term l' else []
  | _, _ => []
  end.

Definition filter_by_name (current_escrows : list account_object_name) (start limit : nat) (search_term : string)
    : list account_object_name :=
  let i := lower_bound current_escrows search_term in
  if (length current_escrows <=? i + start)%nat then []
  else page limit search_term (drop (i + start) current_escrows).

(** ** The order of names *)

Lemma ascii_compare_lt_trans a b c : Ascii.compare a b = Lt → Ascii.compare b c = Lt → Ascii.compare a c = Lt.
Proof. unfold Ascii.compare. rewrite !N.compare_lt_iff. lia. Qed.

Lemma string_compare_lt_trans s t u :
  String.compare s t = Lt → String.compare t u = Lt → String.compare s u = Lt.
Proof.
  revert t u. induction s as [|a s IH]; intros [|b t] [|c u]; simpl; try done.
  destruct (Ascii.compare a b) eqn:E1, (Ascii.compare b c) eqn:E2; try done; intros H1 H2.
  - apply Ascii.compare_eq_iff in E1 as ->. rewrite E2. by apply (IH t).
  - apply Ascii.compare_eq_iff in E1 as ->. by rewrite E2.
  - apply Ascii.compare_eq_iff in E2 as ->. by rewrite E1.
  - by rewrite (ascii_compare_lt_trans a b c).
Qed.

Lemma ltb_lt s t : String.ltb s t = true ↔ String.compare s t = Lt.
Proof. unfold String.ltb. by destruct (String.compare s t). Qed.

Lemma ltb_trans s t u : String.ltb s t = true → String.ltb t u = true → String.ltb s u = true.
Proof. rewrite !ltb_lt. apply string_compare_lt_trans. Qed.

Lemma ltb_irrefl s : String.ltb s s = false.
Proof.
  apply not_true_is_false. rewrite ltb_lt. intros H. pose proof (String.compare_antisym s s) as E.
  rewrite H in E. done.
Qed.

Lemma ltb_total s t : String.ltb s t = false → s = t ∨ String.ltb t s = true.
Proof.
  unfold String.ltb. rewrite (String.compare_antisym t s). destruct (String.compare s t) eqn:E; simpl; [|done|by right].
  left. by apply String.compare_eq_iff.
Qed.

(** What starts with a text is not before it, and what is between the text
    and something that starts with it starts with it too. *)
Lemma prefix_not_before t s : String.prefix t s = true → String.ltb s t = false.
Proof.
  revert s. induction t as [|c t IH]; intros [|a s]; simpl; try done.
  destruct (Ascii.ascii_dec c a) as [->|]; [|done]. intros H%IH. unfold String.ltb in *. simpl.
  assert (Ascii.compare a a = Eq) as -> by (unfold Ascii.compare; apply N.compare_refl). done.
Qed.

Lemma prefix_between t s u :
  String.ltb s t = false → String.ltb s u = true → String.prefix t u = true → String.prefix t s = true.
Proof.
  unfold String.ltb. revert s u. induction t as [|c t IH]; intros [|a s] [|b u]; simpl; try done.
  destruct (Ascii.ascii_dec c b) as [->|]; [|done]. intros H1 H2 H3.
  destruct (Ascii.compare a b) eqn:E; [|done|done]. apply Ascii.compare_eq_iff in E as ->.
  destruct (Ascii.ascii_dec b b); [|done]. by apply (IH _ u).
Qed.

(** ** The escrow agents in order *)

Definition name_before (x y : account_object_name) : Prop := String.ltb x.2 y.2 = true.

(** [lower_bound] parts a sorted list: what is before the name, and the rest. *)
Lemma lower_bound_split l name : StronglySorted name_before l →
  ∃ l1 l2, l = l1 ++ l2 ∧ length l1 = lower_bound l name ∧
    Forall (λ x, String.ltb x.2 name = true) l1 ∧ Forall (λ x, String.ltb x.2 name = false) l2.
Proof.
  induction 1 as [|x l Hs (l1 & l2 & -> & E & H1 & H2) Hx]; simpl; [by exists [], []|].
  destruct (String.ltb x.2 name) eqn:Ex.
  - exists (x :: l1), l2. simpl. rewrite E. split_and!; [done..|by constructor|done].
  - exists [], (x :: l1 ++ l2). split_and!; [done..|]. constructor; [done|].
    eapply Forall_impl; [exact Hx|]. intros y Hy. apply not_true_is_false. intros Hlt.
    by rewrite (ltb_trans _ _ _ Hy Hlt) in Ex.
Qed.

Lemma sorted_middle l1 x l2 : StronglySorted name_before (l1 ++ l2) →
  Forall (λ y, name_before y x) l1 → Forall (λ y, name_before x y) l2 → StronglySorted name_before (l1 ++ x :: l2).
Proof.
  induction l1 as [|y l1 IH]; simpl; intros Hs H1 H2; [by constructor|].
  apply StronglySorted_inv in Hs as [Hs Hy]. apply Forall_cons in H1 as [H H1].
  constructor; [by apply IH|]. apply Forall_app in Hy as [Hy1 Hy2]. apply Forall_app. split; [done|]. by constructor.
Qed.

Lemma sorted_without l1 x l2 : StronglySorted name_before (l1 ++ x :: l2) → StronglySorted name_before (l1 ++ l2).
Proof.
  induction l1 as [|y l1 IH]; simpl; intros Hs; apply StronglySorted_inv in Hs as [Hs Hy]; [done|].
  constructor; [by apply IH|]. apply Forall_app in Hy as [Hy1 Hy2]. apply Forall_cons in Hy2 as [_ Hy2]. by apply Forall_app.
Qed.

Lemma strongly_sorted_last l1 x l2 : StronglySorted name_before (l1 ++ x :: l2) → Forall (name_before x) l2.
Proof. induction l1 as [|y l1 IH]; simpl; intros [Hs Hy]%StronglySorted_inv; auto. Qed.

(** A name of the list is where [lower_bound] points. *)
Lemma lower_bound_found l x l2 l1 : StronglySorted name_before l → l = l1 ++ l2 →
  Forall (λ y, String.ltb y.2 x.2 = true) l1 → Forall (λ y, String.ltb y.2 x.2 = false) l2 → x ∈ l →
  ∃ l3, l2 = x :: l3.
Proof.
  intros Hs -> H1 H2 Hx. apply elem_of_app in Hx as [Hx|Hx].
  { rewrite Forall_forall in H1. specialize (H1 _ Hx). by rewrite ltb_irrefl in H1. }
  destruct l2 as [|y l3]; [by apply not_elem_of_nil in Hx|]. apply elem_of_cons in Hx as [->|Hx]; [by eexists|].
  assert (StronglySorted name_before (y :: l3)) as Hs'.
  { clear H1. induction l1 as [|z l1 IH]; simpl in *; [done|]. apply IH. by apply StronglySorted_inv in Hs as [? _]. }
  apply StronglySorted_inv in Hs' as [_ Hy]. rewrite Forall_forall in Hy. specialize (Hy _ Hx).
  apply Forall_cons in H2 as [H2 _]. unfold name_before in Hy. by rewrite Hy in H2.
Qed.

Definition names_distinct (m : gmap Z account_object) : Prop :=
  ∀ i j a b, m !! i = Some a → m !! j = Some b → ao_name a = ao_name b → i = j.

Definition is_escrow_entry (m : gmap Z account_object) (x : account_object_name) : Prop :=
  ∃ a, m !! x.1 = Some a ∧ ao_is_an_escrow a = true ∧ ao_name a = x.2.

Definition lists_escrows (m : gmap Z account_object) (l : list account_object_name) : Prop :=
  names_distinct m ∧ StronglySorted name_before l ∧ ∀ x, x ∈ l ↔ is_escrow_entry m x.

Lemma clash_free_name m a i b : clashes account_clash m a = false → m !! i = Some b → ao_name a ≠ ao_name b.
Proof. intros Hc Hb E. pose proof (clashes_false _ _ _ Hc i b Hb) as H. unfold account_clash in H. by ok_inv. Qed.

(** What is put in where [lower_bound] points, under a name of its own. *)
Lemma inserted_sorted l x : StronglySorted name_before l → (∀ y, y ∈ l → y.2 ≠ x.2) →
  StronglySorted name_before (insert_keeping_sorted l x) ∧ ∀ y, y ∈ insert_keeping_sorted l x ↔ y = x ∨ y ∈ l.
Proof.
  intros Hs Hne. unfold insert_keeping_sorted.
  destruct (lower_bound_split l x.2 Hs) as (l1 & l2 & -> & E & H1 & H2).
  rewrite <- E, take_app_length, drop_app_length. split; [|set_solver].
  apply sorted_middle; [done|done|]. apply Forall_forall. intros y Hy. rewrite Forall_forall in H2.
  destruct (ltb_total y.2 x.2) as [Ex|Hlt]; [by apply H2| |exact Hlt]. exfalso. apply (Hne y); [set_solver|done].
Qed.

(** The entry of an account, where the code looks for it. *)
Lemma found_entry m l id a : lists_escrows m l → m !! id = Some a →
  match l !! lower_bound l (ao_name a) with
  | Some x => if x.1 =? id then x = (id, ao_name a) ∧ ao_is_an_escrow a = true else ao_is_an_escrow a = false
  | None => ao_is_an_escrow a = false
  end.
Proof.
  intros (Hd & Hs & Hl) Ha. destruct (lower_bound_split l (ao_name a) Hs) as (l1 & l2 & -> & E & H1 & H2).
  assert (ao_is_an_escrow a = true → ∃ l3, l2 = (id, ao_name a) :: l3) as Hf.
  { intros He. apply (lower_bound_found (l1 ++ l2) (id, ao_name a) l2 l1); try done. apply Hl. by exists a. }
  rewrite <- E, lookup_app_r, Nat.sub_diag by done.
  destruct (ao_is_an_escrow a) eqn:He; [destruct (Hf eq_refl) as [l3 ->]; simpl; by rewrite Z.eqb_refl|].
  destruct l2 as [|x l2]; simpl; [done|]. case_match eqn:Ex; [|done]. apply Z.eqb_eq in Ex. exfalso.
  assert (x ∈ l1 ++ x :: l2) as (b & Hb & Hbe & _)%Hl by set_solver. rewrite Ex, Ha in Hb. injection Hb as <-. by rewrite He in Hbe.
Qed.

Lemma removed_entry m l id a : lists_escrows m l → m !! id = Some a →
  StronglySorted name_before (escrow_removed l id a) ∧
  ∀ x, x ∈ escrow_removed l id a ↔ x ∈ l ∧ x.1 ≠ id.
Proof.
  intros H Ha. pose proof (found_entry m l id a H Ha) as Hf. destruct H as (Hd & Hs & Hl). unfold escrow_removed.
  assert (ao_is_an_escrow a = false → ∀ x, x ∈ l → x.1 ≠ id) as Hno.
  { intros He x (b & Hb & Hbe & _)%Hl E. rewrite E, Ha in Hb. injection Hb as <-. by rewrite He in Hbe. }
  destruct (l !! lower_bound l (ao_name a)) as [x|] eqn:Hx; [destruct (x.1 =? id) eqn:E|].
  2,3: split; [done|]; intros y; split; [intros Hy; split; [done|by apply (Hno Hf)]|by intros [? _]].
  destruct Hf as [-> He]. destruct (lower_bound_split l (ao_name a) Hs) as (l1 & l2 & -> & El & H1 & H2).
  rewrite <- El in *. rewrite lookup_app_r, Nat.sub_diag in Hx by done. destruct l2 as [|y l2]; [done|].
  injection Hx as ->. rewrite delete_middle. split; [by eapply sorted_without|]. intros x.
  assert (∀ y, y ∈ l1 ++ l2 → y.1 ≠ id) as Hu.
  { intros y Hy Ey. assert (y ∈ l1 ++ (id, ao_name a) :: l2) as (b & Hb & _ & Hn)%Hl by set_solver.
    rewrite Ey, Ha in Hb. injection Hb as <-. apply elem_of_app in Hy as [Hy|Hy].
    - rewrite Forall_forall in H1. specialize (H1 _ Hy). by rewrite Hn, ltb_irrefl in H1.
    - apply strongly_sorted_last in Hs. rewrite Forall_forall in Hs. specialize (Hs _ Hy).
      unfold name_before in Hs. simpl in Hs. by rewrite Hn, ltb_irrefl in Hs. }
  split; [intros Hx; split; [set_solver|by apply Hu]|]. intros [Hx Hne]. rewrite !elem_of_app, elem_of_cons in *. naive_solver.
Qed.

Lemma lower_bound_app l1 l2 name : Forall (λ x, String.ltb x.2 name = true) l1 →
  Forall (λ x, String.ltb x.2 name = false) l2 → lower_bound (l1 ++ l2) name = length l1.
Proof.
  intros H1 H2. induction H1 as [|x l1 Hx H1 IH]; simpl; [|by rewrite Hx, IH].
  destruct H2 as [|x l2 Hx H2]; simpl; [done|by rewrite Hx].
Qed.

(** To modify an entry is to take it out and put it in again. *)
Lemma modified_is_reinserted m l id a a' : lists_escrows m l → m !! id = Some a → same_name a a' →
  escrow_modified l id a' = escrow_inserted (escrow_removed l id a) id a'.
Proof.
  intros H Ha Hn. pose proof (found_entry m l id a H Ha) as Hf. destruct H as (Hd & Hs & Hl).
  unfold escrow_modified, escrow_inserted, escrow_removed, insert_keeping_sorted. rewrite Hn. simpl.
  destruct (l !! lower_bound l (ao_name a)) as [x|] eqn:Hx; [|done].
  destruct (x.1 =? id) eqn:E; [|done]. destruct (ao_is_an_escrow a'); [|done]. destruct Hf as [-> He].
  rewrite list_insert_id by done. destruct (lower_bound_split l (ao_name a) Hs) as (l1 & l2 & -> & El & H1 & H2).
  rewrite <- El in *. rewrite lookup_app_r, Nat.sub_diag in Hx by done. destruct l2 as [|y l2]; [done|].
  injection Hx as ->. apply Forall_cons in H2 as [_ H2].
  by rewrite delete_middle, lower_bound_app, take_app_length, drop_app_length.
Qed.

#[export] Instance account_escrow_laws :
  IndexLaws account_escrow_index account_clash (λ _, True) same_name lists_escrows.
Proof.
  assert (∀ m id a, m !! id = None → clashes account_clash m a = false → names_distinct m → names_distinct (<[id := a]> m)) as Hnew.
  { intros m id a Hid Hc Hd i j b c. rewrite !lookup_insert_Some.
    intros [[<- <-]|[Hi Hb]] [[<- <-]|[Hj Hc']] E; [done| | |by eapply Hd].
    - by apply (clash_free_name _ _ _ _ Hc) in Hc'.
    - symmetry in E. by apply (clash_free_name _ _ _ _ Hc) in Hb. }
  assert (∀ m id a l, m !! id = None → clashes account_clash m a = false → lists_escrows m l →
    lists_escrows (<[id := a]> m) (escrow_inserted l id a)) as Hins.
  { intros m id a l Hid Hc (Hd & Hs & Hl). split; [by apply Hnew|]. unfold escrow_inserted.
    assert (∀ x, is_escrow_entry (<[id := a]> m) x ↔ (ao_is_an_escrow a = true ∧ x = (id, ao_name a)) ∨ is_escrow_entry m x) as He.
    { intros [i n]. unfold is_escrow_entry. simpl. setoid_rewrite lookup_insert_Some. naive_solver. }
    destruct (ao_is_an_escrow a).
    - destruct (inserted_sorted l (id, ao_name a) Hs) as [Hs' Hx].
      { intros y (b & Hb & _ & <-)%Hl E. by apply (clash_free_name _ _ _ _ Hc Hb). }
      split; [done|]. intros x. rewrite Hx, He, Hl. naive_solver.
    - split; [done|]. intros x. rewrite He, Hl. naive_solver. }
  assert (∀ m l id a, m !! id = Some a → lists_escrows m l → lists_escrows (delete id m) (escrow_removed l id a)) as Hrem.
  { intros m l id a Ha H. destruct (removed_entry m l id a H Ha) as [Hs' Hx]. destruct H as (Hd & Hs & Hl).
    split; [intros i j b c [_ Hb]%lookup_delete_Some [_ Hc]%lookup_delete_Some; by apply Hd|]. split; [done|].
    intros x. rewrite Hx, Hl. unfold is_escrow_entry. setoid_rewrite lookup_delete_Some. naive_solver. }
  split; simpl.
  - split; [intros ? ? ? ?; by rewrite lookup_empty|]. split; [constructor|]. intros x. split; [by intros ?%not_elem_of_nil|].
    intros (a & Ha & _). by rewrite lookup_empty in Ha.
  - intros m l id a Hid Hc _. by apply Hins.
  - exact Hrem.
  - intros m l id a a' Ha Hc Hn H. rewrite (modified_is_reinserted m l id a a' H Ha Hn), <- insert_delete_eq.
    apply Hins; [apply lookup_delete_eq|done|]. by apply Hrem.
Qed.

(** ** The other two *)

Lemma by_key_change (f : account_object → gset Z) m x id a a' : m !! id = Some a → by_key f m x →
  by_key f (<[id := a']> m) (change_members id (f a) (f a') x).
Proof.
  intros Ha Hx k. unfold change_members, add_members, remove_members. rewrite add_all_at, remove_all_at, Hx.
  rewrite <- (insert_delete_eq m id a'), entries_insert by apply lookup_delete_eq.
  rewrite (entries_delete f m k id a Ha).
  assert (id ∈ entries f m k ↔ k ∈ f a) as He.
  { rewrite elem_of_entries. rewrite Ha. naive_solver. }
  destruct (decide (k ∈ flat_elements (f a' ∖ f a))) as [H1|H1];
    destruct (decide (k ∈ flat_elements (f a ∖ f a'))) as [H2|H2];
    rewrite elem_of_flat_elements, elem_of_difference in H1, H2;
    destruct (decide (k ∈ f a)) as [Hk|Hk], (decide (k ∈ f a')) as [Hk'|Hk']; try tauto; try done.
  apply set_eq. intros i. destruct (decide (i = id)) as [->|Hi]; set_solver.
Qed.

Section member_laws.
Context {KA : KeyAddress}.

Definition lists_members (m : gmap Z account_object) (x : account_member_index) : Prop :=
  by_key get_account_members m (account_to_account_memberships x) ∧
  by_key get_key_members m (account_to_key_memberships x) ∧
  by_key get_address_members m (account_to_address_memberships x).

#[export] Instance account_member_laws :
  IndexLaws account_member_index_hooks account_clash (λ _, True) same_name lists_members.
Proof.
  split; unfold lists_members; simpl.
  - split_and!; apply by_key_exactly_nothing.
  - intros m x id a Hid _ _ (H1 & H2 & H3).
    split_and!; (apply by_key_add; [done|intros k; apply elem_of_flat_elements|done]).
  - intros m x id a Ha (H1 & H2 & H3).
    split_and!; (apply (by_key_remove _ _ _ _ a); [done|intros k; apply elem_of_flat_elements|done]).
  - intros m x id a a' Ha _ _ (H1 & H2 & H3). split_and!; by apply by_key_change.
Qed.
End member_laws.

Definition referrer_of (a : account_object) : gset Z := {[ao_referrer a]}.

#[export] Instance account_referrer_laws :
  IndexLaws account_referrer_index account_clash (λ _, True) same_name (by_key_exactly referrer_of).
Proof.
  assert (∀ a k, k ∈ [ao_referrer a] ↔ k ∈ referrer_of a) as Hl.
  { intros a k. unfold referrer_of. by rewrite list_elem_of_singleton, elem_of_singleton. }
  assert (∀ m x id a, m !! id = None → by_key_exactly referrer_of m x →
            by_key_exactly referrer_of (<[id := a]> m) (add_member id x (ao_referrer a))) as Hadd.
  { intros m x id a Hid. exact (by_key_exactly_add _ m x id a [ao_referrer a] Hid (Hl a)). }
  assert (∀ m x id a, m !! id = Some a → by_key_exactly referrer_of m x →
            by_key_exactly referrer_of (delete id m) (drop_member id x (ao_referrer a))) as Hdrop.
  { intros m x id a Ha. exact (by_key_exactly_drop _ m x id a [ao_referrer a] Ha (λ k, proj2 (Hl a k))). }
  split; simpl.
  - apply by_key_exactly_nothing.
  - intros m x id a Hid _ _. by apply Hadd.
  - exact Hdrop.
  - intros m x id a a' Ha _ _ Hx. rewrite <- insert_delete_eq. apply Hadd; [apply lookup_delete_eq|by apply Hdrop].
Qed.

(** ** The account table *)

Section accounts.
Context {KA : KeyAddress}.

(** In the order in which [initialize_indexes] adds them. *)
Definition account_indexes := both_indexes account_member_index_hooks (both_indexes account_referrer_index account_escrow_index).

Definition account_step := primary_step account_indexes account_clash (λ _, True) same_name.

(** C34. Through everything that the running chain does to the table of
    accounts its secondary indexes say what a search of the table would say:
    the accounts for which an account, a key or an address can sign, those
    whom an account referred, and the escrow agents, each once and in the
    order of their names. *)
Theorem account_indexes_in_step n t x y l :
  rtc account_step (mkTable ∅ n, no_entries (SecondaryIndex := account_indexes)) (t, (x, (y, l))) →
  (∀ k id, id ∈ members_at (account_to_account_memberships x) k ↔
     ∃ a, objs t !! id = Some a ∧ k ∈ get_account_members a) ∧
  (∀ k id, id ∈ members_at (account_to_key_memberships x) k ↔
     ∃ a, objs t !! id = Some a ∧ k ∈ get_key_members a) ∧
  (∀ k id, id ∈ members_at (account_to_address_memberships x) k ↔
     ∃ a, objs t !! id = Some a ∧ k ∈ get_address_members a) ∧
  (∀ k, members_at y k = dom (filter (λ kv, ao_referrer kv.2 = k) (objs t))) ∧
  StronglySorted (λ e e', String.ltb e.2 e'.2 = true) l ∧
  (∀ id name, (id, name) ∈ l ↔ ∃ a, objs t !! id = Some a ∧ ao_is_an_escrow a = true ∧ ao_name a = name).
Proof.
  intros H. pose proof (primary_steps_reflect account_indexes account_clash (λ _, True) same_name _ n _ H)
    as ((H1 & H2 & H3) & (H4 & _) & _ & Hs & Hl).
  split_and!; [..|exact Hs|intros id name; apply Hl].
  1-3: intros k id; rewrite ?H1, ?H2, ?H3; apply elem_of_entries.
  intros k. rewrite H4. unfold entries, referrer_of. f_equal. apply map_filter_ext. intros i a _.
  simpl. rewrite elem_of_singleton. naive_solver.
Qed.
End accounts.

(** ** The search for escrow agents *)

Definition starts_with (term : string) (x : account_object_name) : Prop := String.prefix term x.2 = true.
#[local] Instance starts_with_dec term x : Decision (starts_with term x).
Proof. unfold starts_with. apply _. Defined.

Lemma filter_no_match {A} (P : A → Prop) `{∀ x, Decision (P x)} l : Forall (λ x, ¬ P x) l → filter P l = [].
Proof. induction 1 as [|x l Hx Hl IH]; [done|]. by rewrite filter_cons_False. Qed.

(** After the first that does not start with the term none does. *)
Lemma no_more_with term x l : String.ltb x.2 term = false → Forall (name_before x) l → ¬ starts_with term x →
  filter (starts_with term) l = [].
Proof.
  intros Ht Hx E. apply filter_no_match. eapply Forall_impl; [exact Hx|]. intros y Hy Hp. apply E.
  by apply (prefix_between term x.2 y.2).
Qed.

Lemma page_spec limit term l : StronglySorted name_before l → Forall (λ x, String.ltb x.2 term = false) l →
  page limit term l = take limit (filter (starts_with term) l).
Proof.
  intros Hs Hl. revert limit. induction Hs as [|x l Hs IH Hx]; intros [|limit]; try done.
  apply Forall_cons in Hl as [Ht Hl]. rewrite filter_cons. cbn [page]. case_decide as E; unfold starts_with in E.
  - rewrite E. cbn [take]. by rewrite IH.
  - rewrite (no_more_with term x l Ht Hx E), take_nil. by destruct (String.prefix term x.2).
Qed.

(** The entries with the prefix are the first ones that are not before it. *)
Lemma filter_drop_prefix term l i : StronglySorted name_before l → Forall (λ x, String.ltb x.2 term = false) l →
  filter (starts_with term) (drop i l) = drop i (filter (starts_with term) l).
Proof.
  intros Hs Hl. revert i. induction Hs as [|x l Hs IH Hx]; intros [|i]; try done.
  apply Forall_cons in Hl as [Ht Hl]. cbn [drop]. rewrite filter_cons, IH by done. case_decide as E; [done|].
  by rewrite (no_more_with term x l Ht Hx E), !drop_nil.
Qed.

(** The paged search gives, of all escrow agents whose name starts with
    the term, in the order of names, the [limit] ones after the first
    [start]: nothing is missed between pages and nothing shown twice. *)
Theorem filter_by_name_correct l start limit term :
  StronglySorted (λ x y : account_object_name, String.ltb x.2 y.2 = true) l →
  filter_by_name l start limit term =
  take limit (drop start (filter (starts_with term) l)).
Proof.
  intros Hs. change (StronglySorted name_before l) in Hs. unfold filter_by_name.
  destruct (lower_bound_split l term Hs) as (l1 & l2 & -> & <- & H1 & H2).
  assert (StronglySorted name_before l2) as Hs2.
  { clear -Hs. induction l1 as [|x l1 IH]; simpl in Hs; [done|]. apply StronglySorted_inv in Hs as [Hs _]. auto. }
  rewrite filter_app. assert (filter (starts_with term) l1 = []) as ->.
  { apply filter_no_match. eapply Forall_impl; [exact H1|]. intros x Hx Hp%prefix_not_before. by rewrite Hx in Hp. }
  rewrite app_nil_l, <- filter_drop_prefix by done. rewrite length_app. destruct (Nat.leb_spec (length l1 + length l2) (length l1 + start)).
  - rewrite (drop_ge l2) by lia. by rewrite filter_nil, take_nil.
  - rewrite drop_app_add. apply page_spec.
    + clear -Hs2. revert start. induction Hs2 as [|x l Hs IH Hx]; intros [|start]; simpl; try constructor; auto.
    + by apply Forall_drop.
Qed.

(** ** Two agents *)

#[local] Instance hashed_key : KeyAddress := λ k, k + 1000.

Definition agent (name : string) (id : Z) : account_object := set_is_an_escrow (λ _, true) (default_account name id).
Definition agents : primary_index (V := account_object) :=
  get_ok (let* (_, p) := primary_create account_indexes account_clash
                           (mkTable ∅ 20, no_entries (SecondaryIndex := account_indexes)) (agent "bob" 20) in
          let* (_, p) := primary_create account_indexes account_clash p (agent "ann" 21) in
          Ok p) (mkTable ∅ 20, no_entries (SecondaryIndex := account_indexes)).

Example agents_listed : agents.2.2.2 = [(21, "ann"); (20, "bob")]%string.
Proof. vm_compute. reflexivity. Qed.

Lemma account_indexes_in_step_witness : agents.2.2.2 = [(21, "ann"); (20, "bob")]%string ∧
  StronglySorted (λ e e', String.ltb e.2 e'.2 = true) agents.2.2.2.
Proof.
  split; [vm_compute; reflexivity|].
  assert (rtc account_step (mkTable ∅ 20, no_entries (SecondaryIndex := account_indexes)) agents) as H.
  { set (p1 := (mkTable {[ 20 := agent "bob" 20 ]} 21,
                object_inserted (SecondaryIndex := account_indexes) 20 (agent "bob" 20) no_entries)).
    apply (rtc_l _ _ p1).
    - apply (creates _ _ _ _ _ (agent "bob" 20) 20); [done|vm_compute; reflexivity].
    - apply rtc_once, (creates _ _ _ _ _ (agent "ann" 21) 21); [done|vm_compute; reflexivity]. }
  exact (proj1 (proj2 (proj2 (proj2 (proj2
    (account_indexes_in_step 20 agents.1 agents.2.1 agents.2.2.1 agents.2.2.2 H)))))).
Defined.

Lemma filter_by_name_correct_witness :
  filter_by_name [(21, "ann"); (22, "anna"); (20, "bob")]%string 1 5 "an" = [(22, "anna")]%string.
Proof. rewrite filter_by_name_correct; [vm_compute; reflexivity|]. repeat constructor. Defined.
