(* ===== verification/Accounts.v ===== *)
(** * Account operations ([account_evaluator.cpp], [protocol/account.cpp],
    [special_authority.cpp], [buyback.cpp])

    Registering an account, changing it, and the white- and blacklisting of
    one account by another. *)

From stdpp Require Import gmap strings list.
From Stdlib Require Import ZArith Lia.
From S2P Require Import Prelude Fc Config Authority Asset Objects Database Balances Fees Exchange WithdrawPermission AccountName AccountIndexes.

Local Open Scope Z_scope.

(** ** The operations ([protocol/account.hpp]) *)

Record account_options := mkAccountOptions {
  opt_memo_key : Z;
  opt_voting_account : Z;
  opt_num_witness : Z;
  opt_num_committee : Z;
  opt_votes : gset Z
}.

(** [protocol/buyback.hpp]. *)
Record buyback_account_options := mkBuybackOptions {
  bb_asset_to_buy : Z;
  bb_asset_to_buy_issuer : Z;
  bb_markets : gset Z
}.

Record account_create_operation := mkAccountCreate {
  acc_fee : asset;
  acc_registrar : Z;
  acc_referrer : Z;
  acc_referrer_percent : Z;
  acc_name : string;
  acc_owner : authority;
  acc_active : authority;
  acc_drive_id : string;
  acc_mac_address : string;
  acc_btc_address : string;
  acc_eth_address : string;
  acc_options : account_options;
  acc_null_ext : bool;
  acc_owner_special_authority : option special_authority;
  acc_active_special_authority : option special_authority;
  acc_buyback_options : option buyback_account_options
}.

Record account_update_operation := mkAccountUpdate {
  acu_fee : asset;
  acu_account : Z;
  acu_owner : option authority;
  acu_active : option authority;
  acu_is_a_publisher : option bool;
  acu_publisher_ip : option string;
  acu_is_an_escrow : option bool;
  acu_escrow_fee : option Z;
  acu_escrows : option (gset Z);
  acu_implicit_escrow_options : option escrow_options;
  acu_is_referrer : option bool;
  acu_publisher_fee : option Z;
  acu_btc_address : option string;
  acu_eth_address : option string;
  acu_new_options : option account_options;
  acu_null_ext : bool;
  acu_owner_special_authority : option special_authority;
  acu_active_special_authority : option special_authority
}.

Record account_whitelist_operation := mkAccountWhitelist {
  acw_fee : asset;
  acw_authorizing_account : Z;
  acw_account_to_list : Z;
  acw_new_listing : Z
}.

Definition white_listed : Z := 1.
Definition black_listed : Z := 2.

(** [fc::ip::address]: what a text is read as (the default address for one
    that is none), and whether an address is public. *)
Class FcIp := { ip_address : string → option Z; is_public_address : Z → bool }.

(** ** Validation *)

(** What is left of the witnesses and committee members asked for. *)
Definition count_vote (needed : Z * Z) (id : Z) : Z * Z :=
  let (needed_witnesses, needed_committee) := needed in
  if (vote_kind id =? vote_type_number witness) && negb (needed_witnesses =? 0)
  then (needed_witnesses - 1, needed_committee)
  else if (vote_kind id =? vote_type_number committee) && negb (needed_committee =? 0)
  then (needed_witnesses, needed_committee - 1)
  else needed.

Definition account_options_validate (o : account_options) : result unit :=
  let (needed_witnesses, needed_committee) :=
    foldl count_vote (opt_num_witness o, opt_num_committee o) (flat_elements (opt_votes o)) in
  require ((needed_witnesses =? 0) && (needed_committee =? 0)) assert_exception.

Definition validate_special_authority (a : special_authority) : result unit :=
  match a with
  | no_special_authority => Ok tt
  | top_holders_special_authority _ num_top_holders => require (0 <? num_top_holders) assert_exception
  end.

Definition validate_optional {A} (f : A → result unit) (o : option A) : result unit :=
  match o with Some a => f a | None => Ok tt end.

Definition authority_validate (a : authority) : result unit :=
  FC_ASSERT (negb (num_auths a =? 0)) ;;
  FC_ASSERT (Z.of_nat (length (address_auths a)) =? 0) ;;
  require (negb (is_impossible a)) assert_exception.

#[export] Instance authority_eq_dec : EqDecision authority.
Proof. solve_decision. Defined.

Definition buyback_options_validate (op : account_create_operation) (b : buyback_account_options) : result unit :=
  FC_ASSERT (negb (bool_decide (is_Some (acc_owner_special_authority op)))) ;;
  FC_ASSERT (negb (bool_decide (is_Some (acc_active_special_authority op)))) ;;
  FC_ASSERT (bool_decide (acc_owner op = null_authority)) ;;
  FC_ASSERT (bool_decide (acc_active op = null_authority)) ;;
  FC_ASSERT (0 <? Z.of_nat (size (bb_markets b))) ;;
  require (negb (bool_decide (bb_asset_to_buy b ∈ bb_markets b))) assert_exception.

(** The code looks at the sizes of both authorities before the possibility of
    either; all these tests fail in the same way. *)
Definition account_create_validate (op : account_create_operation) : result unit :=
  FC_ASSERT (0 <=? amount (acc_fee op)) ;;
  let* name_ok := is_valid_name (acc_name op) in
  FC_ASSERT name_ok ;;
  FC_ASSERT (acc_referrer_percent op <=? GRAPHENE_100_PERCENT) ;;
  let* _ := authority_validate (acc_owner op) in
  let* _ := authority_validate (acc_active op) in
  let* _ := account_options_validate (acc_options op) in
  let* _ := validate_optional validate_special_authority (acc_owner_special_authority op) in
  let* _ := validate_optional validate_special_authority (acc_active_special_authority op) in
  validate_optional (buyback_options_validate op) (acc_buyback_options op).

Definition is_some {A} (o : option A) : bool := match o with Some _ => true | None => false end.

Definition account_update_has_action (op : account_update_operation) : bool :=
  is_some (acu_owner op) || is_some (acu_active op) || is_some (acu_new_options op)
  || is_some (acu_owner_special_authority op) || is_some (acu_active_special_authority op)
  || is_some (acu_escrows op) || is_some (acu_escrow_fee op) || is_some (acu_is_a_publisher op)
  || is_some (acu_publisher_ip op) || is_some (acu_is_an_escrow op) || is_some (acu_implicit_escrow_options op)
  || is_some (acu_is_referrer op) || is_some (acu_publisher_fee op) || is_some (acu_btc_address op)
  || is_some (acu_eth_address op).

Definition below_100_percent (fee : Z) : result unit := require (fee <? GRAPHENE_100_PERCENT) assert_exception.

Section validation.
Context {FI : FcIp}.

(** A text that is no address is taken for a domain name. *)
Definition publisher_ip_validate (ip : string) : result unit :=
  if bool_decide (ip = "") then Ok tt
  else
    let addr := default 0 (ip_address ip) in
    if addr =? 0 then Ok tt else require (is_public_address addr) assert_exception.

Definition account_update_validate (op : account_update_operation) : result unit :=
  FC_ASSERT (negb (acu_account op =? GRAPHENE_TEMP_ACCOUNT)) ;;
  FC_ASSERT (0 <=? amount (acu_fee op)) ;;
  FC_ASSERT (negb (acu_account op =? 0)) ;;
  FC_ASSERT (account_update_has_action op) ;;
  let* _ := validate_optional authority_validate (acu_owner op) in
  let* _ := validate_optional authority_validate (acu_active op) in
  let* _ := validate_optional account_options_validate (acu_new_options op) in
  let* _ := validate_optional validate_special_authority (acu_owner_special_authority op) in
  let* _ := validate_optional validate_special_authority (acu_active_special_authority op) in
  let* _ := validate_optional below_100_percent (acu_escrow_fee op) in
  let* _ := validate_optional publisher_ip_validate (acu_publisher_ip op) in
  validate_optional below_100_percent (acu_publisher_fee op).
End validation.

Definition account_whitelist_validate (op : account_whitelist_operation) : result unit :=
  FC_ASSERT (0 <=? amount (acw_fee op)) ;; require (acw_new_listing op <? 4) assert_exception.

(** ** What depends on the state *)

Definition verify_authority_accounts (d : database) (a : authority) : result unit :=
  GRAPHENE_ASSERT (num_auths a <=? cp_maximum_authority_membership (parameters d))
    else internal_verify_auth_max_auth_exceeded ;;
  require (forallb (λ kw, account_exists d kw.1) (account_auths a)) internal_verify_auth_account_not_found.

(** [GRAPHENE_RECODE_EXC( cause, effect )]. *)
Definition recode {A} (cause effect : exn) (r : result A) : result A :=
  match r with Throw e => if bool_decide (e = cause) then Throw effect else r | Ok _ => r end.

(** The indexes by vote id compare the instances. *)
Definition has_vote {V} (vote : V → Z) (m : gmap Z V) (id : Z) : bool :=
  existsb (λ kv, vote_instance (vote kv.2) =? vote_instance id) (map_to_list m).

Definition votes_for_candidates (d : database) (id : Z) : result unit :=
  if vote_kind id =? vote_type_number committee then
    require (has_vote cm_vote_id (objs (db_committee_members d)) id) assert_exception
  else if vote_kind id =? vote_type_number witness then
    require (has_vote wo_vote_id (db_witnesses d) id) assert_exception
  else if vote_kind id =? vote_type_number worker then
    require (has_vote wk_vote_for (objs (db_workers d)) id) assert_exception
  else Throw thrown.

Definition is_worker_vote (id : Z) : bool := vote_kind id =? vote_type_number worker.

Definition verify_account_votes (d : database) (o : account_options) : result unit :=
  let votes := flat_elements (opt_votes o) in
  let max_vote_id := gp_next_available_vote_id (db_gpo d) in
  FC_ASSERT (forallb (λ id, vote_instance id <? max_vote_id) votes) ;;
  let* _ :=
    if existsb is_worker_vote votes && (HARDFORK_607_TIME <=? head_block_time d) then
      require (forallb (λ id, negb (is_worker_vote id && has_vote wk_vote_against (objs (db_workers d)) id)) votes)
        assert_exception
    else Ok tt in
  if HARDFORK_CORE_143_TIME <=? head_block_time d
  then rfold (λ _ id, votes_for_candidates d id) tt votes
  else Ok tt.

Definition evaluate_special_authority (d : database) (a : special_authority) : result unit :=
  match a with
  | no_special_authority => Ok tt
  | top_holders_special_authority aid _ => let* _ := get_asset_object d aid in Ok tt
  end.

Definition evaluate_buyback_account_options (d : database) (b : buyback_account_options) : result unit :=
  FC_ASSERT (HARDFORK_538_TIME <=? head_block_time d) ;;
  let* a := get_asset_object d (bb_asset_to_buy b) in
  GRAPHENE_ASSERT (as_issuer a =? bb_asset_to_buy_issuer b) else account_create_buyback_incorrect_issuer ;;
  GRAPHENE_ASSERT (negb (is_some (as_buyback_account a))) else account_create_buyback_already_exists ;;
  require (Z.of_nat (size (bb_markets b)) <? GRAPHENE_DEFAULT_MAX_BUYBACK_MARKETS) account_create_buyback_too_many_markets.

Definition name_taken (d : database) (name : string) : bool :=
  existsb (λ kv, bool_decide (ao_name kv.2 = name)) (map_to_list (objs (db_accounts d))).

(** The unique index [by_account] of the special authorities and [by_asset]
    of the buyback programmes. *)
Definition same_id (a b : Z) : bool := a =? b.

(** ** The evaluators *)

Section evaluators.
Context {FC : FcArith} {FS : FcString}.

(** Both authorities, with the operation's own exceptions. *)
Definition verify_authorities (d : database) (max_exceeded not_found : exn) (owner active : option authority)
    : result unit :=
  recode internal_verify_auth_account_not_found not_found
    (recode internal_verify_auth_max_auth_exceeded max_exceeded
      (let* _ := validate_optional (verify_authority_accounts d) owner in
       validate_optional (verify_authority_accounts d) active)).

(** The extensions that the hardforks brought. *)
Definition special_authorities_allowed (d : database) (null_ext : bool) (owner active : option special_authority)
    : result unit :=
  let* _ :=
    if head_block_time d <? HARDFORK_516_TIME then
      FC_ASSERT (negb (is_some owner)) ;; require (negb (is_some active)) assert_exception
    else Ok tt in
  if head_block_time d <? HARDFORK_599_TIME then
    FC_ASSERT (negb null_ext) ;;
    FC_ASSERT (negb (is_some owner)) ;; require (negb (is_some active)) assert_exception
  else Ok tt.

Definition account_create_do_evaluate (d : database) (op : account_create_operation) : result unit :=
  let* _ := special_authorities_allowed d (acc_null_ext op) (acc_owner_special_authority op)
              (acc_active_special_authority op) in
  FC_ASSERT ((HARDFORK_599_TIME <=? head_block_time d) || negb (is_some (acc_buyback_options op))) ;;
  FC_ASSERT (account_exists d (opt_voting_account (acc_options op))) ;;
  let* _ := verify_authorities d account_create_max_auth_exceeded account_create_auth_account_not_found
              (Some (acc_owner op)) (Some (acc_active op)) in
  let* _ := validate_optional (evaluate_special_authority d) (acc_owner_special_authority op) in
  let* _ := validate_optional (evaluate_special_authority d) (acc_active_special_authority op) in
  let* _ := validate_optional (evaluate_buyback_account_options d) (acc_buyback_options op) in
  let* _ := verify_account_votes d (acc_options op) in
  let* _ :=
    if bool_decide (acc_name op = "") then Ok tt
    else
      FC_ASSERT (negb (name_taken d (acc_name op))) ;;
      require (negb (bool_decide (to_lower (acc_name op) ∈ rn_names (reserved_names d)))) assert_exception in
  let* referrer := get_account d (acc_referrer op) in
  require (ao_is_referrer referrer) assert_exception.

(** Percentages that were meant as whole ones, before the hardfork. *)
Definition referrer_percent_of (d : database) (op : account_create_operation) : Z :=
  let p := acc_referrer_percent op in
  if (head_block_time d <=? HARDFORK_453_TIME) && negb (acc_referrer op =? acc_registrar op)
     && negb (p =? 0) && (p <=? 256)
  then Z.min (wrap_u16 (p * 100)) GRAPHENE_100_PERCENT else p.

Definition new_account (d : database) (op : account_create_operation) (stats : Z) : account_object :=
  let o := acc_options op in
  let agents_accepted := HARDFORK_OM_702_TIME <? head_block_time d in
  mkAccount (acc_name op) (acc_registrar op) (acc_referrer op) (cp_network_percent_of_fee (parameters d))
    (referrer_percent_of d op) (opt_votes o) stats ∅ ∅ None None None None None
    ((λ b, bb_markets b ∪ {[bb_asset_to_buy b]}) <$> acc_buyback_options op)
    (acc_drive_id op) (acc_mac_address op) false false false (GRAPHENE_1_PERCENT / 2) ∅ ∅
    (mkEscrowOptions agents_accepted agents_accepted agents_accepted) 0 false true (GRAPHENE_1_PERCENT / 4)
    0 0 0 false (acc_owner op) (acc_active op) (opt_memo_key o) (opt_voting_account o)
    (opt_num_witness o) (opt_num_committee o) ∅ ∅
    (default no_special_authority (acc_owner_special_authority op))
    (default no_special_authority (acc_active_special_authority op))
    0 "" (acc_btc_address op) (acc_eth_address op) 0 0 0 0 GRAPHENE_100_PERCENT.

Definition create_statistics (owner : Z) (d : database) : result (Z * database) :=
  let id := gv_next_statistics (db_governance d) in
  FC_ASSERT (bool_decide (db_statistics d !! id = None)) ;;
  Ok (id, set_next_statistics (λ n, n + 1) (set_statistics (<[id := default_stats owner]>) d)).

(** The statistics object is made while the account is. *)
Definition create_account (op : account_create_operation) (d : database) : result (Z * database) :=
  let* (stats, d1) := create_statistics (next_id (db_accounts d)) d in
  let* (id, t) := index_create account_clash (db_accounts d1) (new_account d op stats) in
  Ok (id, set_accounts (λ _, t) d1).

(** [x <<= n] on [uint64_t]. *)
Definition shift_left_u64 (x n : Z) : result Z :=
  if 64 <=? n then Throw undefined_behaviour else Ok (wrap_u64 (Z.shiftl x n)).

(** Every so many accounts the next ones get dearer. *)
Definition count_registration (d : database) : result database :=
  let* d := modify_dgpo d (λ g, Ok (set_accounts_registered (λ n, wrap_u32 (n + 1)) g)) in
  let p := parameters d in
  if cp_accounts_per_fee_scale p =? 0 then Throw undefined_behaviour
  else if dg_accounts_registered_this_interval (db_dgpo d) mod cp_accounts_per_fee_scale p =? 0 then
    let* fee := shift_left_u64 (cp_account_basic_fee p) (cp_account_fee_scale_bitshifts p) in
    Ok (set_gpo (set_parameters (set_account_basic_fee (λ _, fee))) d)
  else Ok d.

Definition create_special_authority (account : Z) (d : database) : result database :=
  let* (_, t) := index_create same_id (db_special_authorities d) account in
  Ok (set_special_authorities (λ _, t) d).

Definition start_buyback (account : Z) (b : buyback_account_options) (d : database) : result database :=
  let* (_, t) := index_create same_id (db_buybacks d) (bb_asset_to_buy b) in
  let d := set_buybacks (λ _, t) d in
  let* a := get_asset_object d (bb_asset_to_buy b) in
  Ok (set_assets (<[bb_asset_to_buy b := set_buyback_account (λ _, Some account) a]>) d).

Definition account_create_do_apply (d : database) (op : account_create_operation) : result (Z * database) :=
  let* (id, d) := create_account op d in
  let* d := count_registration d in
  let* d :=
    if is_some (acc_owner_special_authority op) || is_some (acc_active_special_authority op)
    then create_special_authority id d else Ok d in
  let* d := match acc_buyback_options op with Some b => start_buyback id b d | None => Ok d end in
  Ok (id, d).

(** A publisher must have an address of its own, and only publishers do. *)
Definition publisher_update_ok (d : database) (a : account_object) (op : account_update_operation) : result unit :=
  FC_ASSERT (if default false (acu_is_a_publisher op)
             then negb (bool_decide (default (ao_publisher_ip a) (acu_publisher_ip op) = "")) else true) ;;
  match acu_publisher_ip op with
  | None => Ok tt
  | Some ip =>
      let will_be_publisher := default (ao_is_a_publisher a) (acu_is_a_publisher op) in
      if bool_decide (ip = "") then require (negb will_be_publisher) assert_exception
      else
        FC_ASSERT will_be_publisher ;;
        require (negb (existsb (λ kv, bool_decide (ao_publisher_ip kv.2 = ip)) (map_to_list (objs (db_accounts d)))))
          assert_exception
  end.

Definition account_update_do_evaluate (d : database) (op : account_update_operation) : result unit :=
  let* _ := special_authorities_allowed d (acu_null_ext op) (acu_owner_special_authority op)
              (acu_active_special_authority op) in
  let* _ := verify_authorities d account_update_max_auth_exceeded account_update_auth_account_not_found
              (acu_owner op) (acu_active op) in
  let* _ := validate_optional (evaluate_special_authority d) (acu_owner_special_authority op) in
  let* _ := validate_optional (evaluate_special_authority d) (acu_active_special_authority op) in
  let* a := get_account d (acu_account op) in
  let* _ := validate_optional (verify_account_votes d) (acu_new_options op) in
  publisher_update_ok d a op.

Definition special_authority_eqb_no (a : special_authority) : bool :=
  match a with no_special_authority => true | _ => false end.
Definition has_special_authority (a : account_object) : bool :=
  negb (special_authority_eqb_no (ao_owner_special_authority a))
  || negb (special_authority_eqb_no (ao_active_special_authority a)).

Definition set_options (o : account_options) (a : account_object) : account_object :=
  set_memo_key (λ _, opt_memo_key o) (set_voting_account (λ _, opt_voting_account o)
    (set_num_witness (λ _, opt_num_witness o) (set_num_committee (λ _, opt_num_committee o)
      (set_votes (λ _, opt_votes o) a)))).

(** [if( o.x ) a.x = *o.x]. *)
Definition assign {A} (set : (A → A) → account_object → account_object) (o : option A) (a : account_object)
    : account_object := match o with Some x => set (λ _, x) a | None => a end.

(** A new authority ends the control by the top holders. *)
Definition assign_authority {A} (set : (A → A) → account_object → account_object) (o : option A)
    (a : account_object) : account_object :=
  match o with Some x => set_top_n_control_flags (λ _, 0) (set (λ _, x) a) | None => a end.

Definition update_authorities (op : account_update_operation) (a : account_object) : account_object :=
  let a := assign_authority set_owner (acu_owner op) a in
  let a := assign_authority set_active (acu_active op) a in
  let a := match acu_new_options op with Some o => set_options o a | None => a end in
  let a := assign_authority set_owner_special_authority (acu_owner_special_authority op) a in
  assign_authority set_active_special_authority (acu_active_special_authority op) a.

(** An account that is no publisher any more loses its address. *)
Definition assign_publisher_ip (o : option string) (a : account_object) : account_object :=
  if ao_is_a_publisher a then assign set_publisher_ip o a else set_publisher_ip (λ _, "") a.

Definition updated_account (op : account_update_operation) (a : account_object) : account_object :=
  let a := update_authorities op a in
  let a := assign set_is_a_publisher (acu_is_a_publisher op) a in
  let a := assign set_is_an_escrow (acu_is_an_escrow op) a in
  let a := assign set_escrow_fee (acu_escrow_fee op) a in
  let a := assign set_account_escrows (acu_escrows op) a in
  let a := assign_publisher_ip (acu_publisher_ip op) a in
  let a := assign set_implicit_escrow_options (acu_implicit_escrow_options op) a in
  let a := assign set_is_referrer (acu_is_referrer op) a in
  let a := assign set_btc_address (acu_btc_address op) a in
  let a := assign set_eth_address (acu_eth_address op) a in
  assign set_account_publisher_fee (acu_publisher_fee op) a.

Definition remove_special_authority (account : Z) (d : database) : result database :=
  match List.find (λ kv, kv.2 =? account) (map_to_list (objs (db_special_authorities d))) with
  | Some (id, _) =>
      let* t := index_remove (db_special_authorities d) id in
      Ok (set_special_authorities (λ _, t) d)
  | None => Throw undefined_behaviour
  end.

Definition account_update_do_apply (d : database) (op : account_update_operation) : result database :=
  let* before := get_account d (acu_account op) in
  let* d := modify_account d (acu_account op) (updated_account op) in
  let* after := get_account d (acu_account op) in
  match has_special_authority before, has_special_authority after with
  | true, false => remove_special_authority (acu_account op) d
  | false, true => create_special_authority (acu_account op) d
  | _, _ => Ok d
  end.

Definition account_whitelist_do_evaluate (d : database) (op : account_whitelist_operation) : result unit :=
  let* _ := get_account d (acw_account_to_list op) in Ok tt.

(** [insert] or [erase], as the bit of the listing says. *)
Definition list_if (bit new_listing x : Z) (s : gset Z) : gset Z :=
  if Z.land new_listing bit =? 0 then s ∖ {[x]} else s ∪ {[x]}.

Definition account_whitelist_do_apply (d : database) (op : account_whitelist_operation) : result database :=
  let listing := acw_new_listing op in
  let by_ := acw_authorizing_account op in
  let listed := acw_account_to_list op in
  let* d := modify_account d listed
    (λ a, set_blacklisting_accounts (list_if black_listed listing by_)
            (set_whitelisting_accounts (list_if white_listed listing by_) a)) in
  modify_account d by_
    (λ a, set_blacklisted_accounts (list_if black_listed listing listed)
            (set_whitelisted_accounts (list_if white_listed listing listed) a)).

#[export] Instance account_create_evaluator : Evaluator account_create_operation := {
  ev_state := unit; op_fee_payer := acc_registrar; op_fee := acc_fee;
  do_evaluate := account_create_do_evaluate;
  do_apply := λ d op _, let* (_, d) := account_create_do_apply d op in Ok d
}.

#[export] Instance account_update_evaluator : Evaluator account_update_operation := {
  ev_state := unit; op_fee_payer := acu_account; op_fee := acu_fee;
  do_evaluate := account_update_do_evaluate;
  do_apply := λ d op _, account_update_do_apply d op
}.

#[export] Instance account_whitelist_evaluator : Evaluator account_whitelist_operation := {
  ev_state := unit; op_fee_payer := acw_authorizing_account; op_fee := acw_fee;
  do_evaluate := account_whitelist_do_evaluate;
  do_apply := λ d op _, account_whitelist_do_apply d op
}.
End evaluators.
