(* ===== verification/AccountProps.v ===== *)
(** * What the account operations guarantee

    The accounts stay well formed: unique valid names, publishers with
    addresses of their own, listings known on both sides, special authorities
    registered; votes are for candidates that exist; the fee for registration
    comes back to where it was. *)

From stdpp Require Import gmap strings list.
From Stdlib Require Import ZArith Lia.
From S2P Require Import Prelude Fc Config Authority Asset Objects Database Sample Balances Fees Exchange Elections Maintenance WithdrawPermission AccountName AccountIndexes Accounts.

Local Open Scope Z_scope.

(** ** What a well-formed account table is *)

Definition account_map := gmap Z account_object.

(** Names are valid and only used once. *)
Definition names_wf (m : gmap Z account_object) : Prop :=
  names_distinct m ∧ ∀ i a, m !! i = Some a → is_valid_name (ao_name a) = Ok true.

(** Publishers, and nobody else, have addresses, each its own. *)
Definition publishers_wf (m : gmap Z account_object) : Prop :=
  (∀ i a, m !! i = Some a → (ao_is_a_publisher a = true ↔ ao_publisher_ip a ≠ "")) ∧
  (∀ i j a b, m !! i = Some a → m !! j = Some b → ao_publisher_ip a = ao_publisher_ip b →
     ao_publisher_ip a ≠ "" → i = j).

(** What agents and publishers take is less than all. *)
Definition percentages_wf (m : gmap Z account_object) : Prop :=
  ∀ i a, m !! i = Some a → ao_escrow_fee a < GRAPHENE_100_PERCENT ∧ ao_publisher_fee a < GRAPHENE_100_PERCENT.

(** Those that share in the fees of an account exist. *)
Definition sponsors_wf (m : gmap Z account_object) : Prop :=
  ∀ i a, m !! i = Some a → is_Some (m !! ao_registrar a) ∧ is_Some (m !! ao_referrer a).

(** [i] is in the list [f] of [j] just when [j] is in the list [g] of [i]. *)
Definition listed (f : account_object → gset Z) (m : gmap Z account_object) (j i : Z) : Prop :=
  ∃ a, m !! j = Some a ∧ i ∈ f a.
Definition mirrored (f g : account_object → gset Z) (m : gmap Z account_object) : Prop :=
  ∀ i j, listed f m j i ↔ listed g m i j.
Definition listings_wf (m : gmap Z account_object) : Prop :=
  mirrored ao_whitelisting_accounts ao_whitelisted_accounts m ∧
  mirrored ao_blacklisting_accounts ao_blacklisted_accounts m.

(** Accounts with a special authority are found through the index of those. *)
Definition specials_wf (m : gmap Z account_object) (s : gmap Z Z) : Prop :=
  ∀ i a, m !! i = Some a → has_special_authority a = true → ∃ k, s !! k = Some i.

Definition statistics_wf (m : gmap Z account_object) (s : gset Z) : Prop :=
  ∀ i a, m !! i = Some a → ao_statistics a ∈ s.

Record accounts_wf (d : database) : Prop := mkAccountsWf {
  wf_names : names_wf (objs (db_accounts d));
  wf_publishers : publishers_wf (objs (db_accounts d));
  wf_percentages : percentages_wf (objs (db_accounts d));
  wf_sponsors : sponsors_wf (objs (db_accounts d));
  wf_listings : listings_wf (objs (db_accounts d));
  wf_specials : specials_wf (objs (db_accounts d)) (objs (db_special_authorities d));
  wf_statistics : statistics_wf (objs (db_accounts d)) (dom (db_statistics d))
}.

(** ** A new account *)

Lemma names_wf_new m id a : m !! id = None → clashes account_clash m a = false →
  is_valid_name (ao_name a) = Ok true → names_wf m → names_wf (<[id := a]> m).
Proof.
  intros Hid Hc Ha [Hd Hv]. split.
  - intros i j b c. rewrite !lookup_insert_Some. intros [[<- <-]|[Hi Hb]] [[<- <-]|[Hj Hc']] E; [done| | |by eapply Hd].
    + by apply (clash_free_name _ _ _ _ Hc) in Hc'.
    + symmetry in E. by apply (clash_free_name _ _ _ _ Hc) in Hb.
  - intros i b. rewrite lookup_insert_Some. intros [[_ <-]|[_ Hb]]; [done|by eapply Hv].
Qed.

Lemma publishers_wf_new m id a : ao_is_a_publisher a = false → ao_publisher_ip a = "" → m !! id = None →
  publishers_wf m → publishers_wf (<[id := a]> m).
Proof.
  intros Hp Hip Hid [H1 H2]. split.
  - intros i b. rewrite lookup_insert_Some. intros [[_ <-]|[_ Hb]]; [rewrite Hp, Hip; naive_solver|by eapply H1].
  - intros i j b c. rewrite !lookup_insert_Some. intros [[_ <-]|[_ Hb]] [[_ <-]|[_ Hc]] E Hne; [by rewrite Hip in Hne..| |].
    + by rewrite E, Hip in Hne.
    + by eapply H2.
Qed.

Lemma sponsors_wf_new m id a : is_Some (m !! ao_registrar a) → is_Some (m !! ao_referrer a) → m !! id = None →
  sponsors_wf m → sponsors_wf (<[id := a]> m).
Proof.
  intros Hr Hf Hid H i b. rewrite !(lookup_insert_is_Some' m). rewrite lookup_insert_Some.
  intros [[_ <-]|[_ Hb]]; [auto|]. apply H in Hb as []. auto.
Qed.

Lemma listed_new f m id a j i : f a = ∅ → m !! id = None → listed f (<[id := a]> m) j i ↔ listed f m j i.
Proof.
  intros Hf Hid. unfold listed. setoid_rewrite lookup_insert_Some. split.
  - intros (b & [[_ <-]|[_ Hb]] & Hi); [rewrite Hf in Hi; set_solver|eauto].
  - intros (b & Hb & Hi). exists b. split; [|done]. right. split; [|done]. intros ->. by rewrite Hid in Hb.
Qed.

Lemma mirrored_new f g m id a : f a = ∅ → g a = ∅ → m !! id = None → mirrored f g m → mirrored f g (<[id := a]> m).
Proof. intros Hf Hg Hid H i j. by rewrite !listed_new. Qed.

(** ** A changed account *)

Lemma names_wf_same m id a a' : m !! id = Some a → ao_name a' = ao_name a → names_wf m → names_wf (<[id := a']> m).
Proof.
  intros Ha E [Hd Hv]. split.
  - intros i j b c. rewrite !lookup_insert_Some. intros [[<- <-]|[Hi Hb]] [[<- <-]|[Hj Hc]] En; [done| | |by eapply Hd].
    + rewrite E in En. by eapply Hd.
    + rewrite E in En. by eapply Hd.
  - intros i b. rewrite lookup_insert_Some. intros [[_ <-]|[_ Hb]]; [rewrite E; by eapply Hv|by eapply Hv].
Qed.

Lemma sponsors_wf_same m id a a' : m !! id = Some a → ao_registrar a' = ao_registrar a →
  ao_referrer a' = ao_referrer a → sponsors_wf m → sponsors_wf (<[id := a']> m).
Proof.
  intros Ha Er Ef H i b. rewrite !(lookup_insert_is_Some' m). rewrite lookup_insert_Some.
  intros [[_ <-]|[_ Hb]]; [rewrite Er, Ef; apply H in Ha as []; auto|apply H in Hb as []; auto].
Qed.

Lemma listed_put f m id a' j i : listed f (<[id := a']> m) j i ↔ if decide (j = id) then i ∈ f a' else listed f m j i.
Proof.
  unfold listed. setoid_rewrite lookup_insert_Some. case_decide as E; naive_solver.
Qed.

Lemma listed_at f m id a i : m !! id = Some a → listed f m id i ↔ i ∈ f a.
Proof. intros Ha. unfold listed. rewrite Ha. naive_solver. Qed.

Lemma listed_same f m id a a' j i : m !! id = Some a → f a' = f a → listed f (<[id := a']> m) j i ↔ listed f m j i.
Proof. intros Ha E. rewrite listed_put. case_decide as Ej; [subst j; by rewrite (listed_at f m id a), E|done]. Qed.

(** One account enters another in its list, or strikes it off. *)
Lemma mirrored_list f g bit listing m l b al ab al' ab' :
  m !! l = Some al → f al' = list_if bit listing b (f al) → g al' = g al →
  <[l := al']> m !! b = Some ab → g ab' = list_if bit listing l (g ab) → f ab' = f ab →
  mirrored f g m → mirrored f g (<[b := ab']> (<[l := al']> m)).
Proof.
  intros Hl Hf Hg Hb Hg' Hf' H i j. rewrite (listed_same f _ b ab ab') by done.
  assert (∀ k, k ∈ g ab ↔ listed g m b k) as Hab.
  { intros k. rewrite <- (listed_same g m l al al' b k Hl Hg). symmetry. by apply listed_at. }
  assert (∀ x y s, y ∈ list_if bit listing x s ↔ (y = x ∧ Z.land listing bit ≠ 0) ∨ (y ≠ x ∧ y ∈ s)) as Hi.
  { intros x y s. unfold list_if. destruct (Z.eqb_spec (Z.land listing bit) 0); destruct (decide (y = x)); set_solver. }
  rewrite (listed_put f m l al'), (listed_put g _ b ab').
  specialize (H i j). pose proof (listed_at f m l al i Hl) as Hal.
  pose proof (listed_same g m l al al' i j Hl Hg) as Hs.
  destruct (decide (j = l)) as [->|Hj], (decide (i = b)) as [->|Hib]; rewrite ?Hf, ?Hg', ?Hi, ?Hs, ?Hab; naive_solver.
Qed.

(** Publishers after a change that [publisher_update_ok] let through. *)
Lemma publishers_wf_update (d : database) id a a' op :
  objs (db_accounts d) !! id = Some a → publisher_update_ok d a op = Ok tt →
  ao_is_a_publisher a' = default (ao_is_a_publisher a) (acu_is_a_publisher op) →
  ao_publisher_ip a' = (if ao_is_a_publisher a' then default (ao_publisher_ip a) (acu_publisher_ip op) else "") →
  publishers_wf (objs (db_accounts d)) → publishers_wf (<[id := a']> (objs (db_accounts d))).
Proof.
  intros Ha Hu Ep Ei [H1 H2]. unfold publisher_update_ok in Hu.
  apply rbind_ok in Hu as (u & Hf%require_ok & Hu). pose proof (H1 _ _ Ha) as Hold.
  assert ((ao_is_a_publisher a' = true ↔ ao_publisher_ip a' ≠ "") ∧
          (ao_publisher_ip a' ≠ "" → ao_publisher_ip a' = ao_publisher_ip a ∨
             ∀ i b, objs (db_accounts d) !! i = Some b → ao_publisher_ip b ≠ ao_publisher_ip a')) as [Hiff Hnew].
  { rewrite Ei. destruct (ao_is_a_publisher a') eqn:Ea'; [|naive_solver].
    destruct (acu_publisher_ip op) as [ip|] eqn:Eip; simpl in *.
    - destruct (bool_decide_reflect (ip = "")) as [->|Hip]; [by ok_inv; rewrite <- Ep in Hu|]. ok_inv.
      split; [naive_solver|]. intros _. right. intros i b Hb E.
      apply not_true_iff_false in Hu. apply Hu. apply existsb_exists. exists (i, b). simpl.
      split; [by apply list_elem_of_In, elem_of_map_to_list|by apply bool_decide_eq_true].
    - split; [|auto]. split; [|done]. intros _. destruct (acu_is_a_publisher op) as [p|] eqn:Eop; simpl in *.
      + subst p. by ok_inv.
      + apply Hold. by rewrite <- Ep. }
  split.
  - intros i b. rewrite lookup_insert_Some. intros [[_ <-]|[_ Hb]]; [done|by eapply H1].
  - intros i j b c. rewrite !lookup_insert_Some. intros [[<- <-]|[Hi Hb]] [[<- <-]|[Hj Hc]] E Hne; [done| | |by eapply H2].
    + destruct (Hnew Hne) as [Eo|Hno]; [|by destruct (Hno _ _ Hc)]. eapply H2; [done..| |]; congruence.
    + rewrite E in Hne. destruct (Hnew Hne) as [Eo|Hno]; [|by destruct (Hno _ _ Hb)]. eapply H2; [done..| |]; congruence.
Qed.

Section operations.
Context {FC : FcArith} {FCL : FcArithLaws FC} {BA : BoostArith} {FS : FcString} {FI : FcIp}.

Inductive account_operation :=
| create_op (op : account_create_operation)
| update_op (op : account_update_operation)
| whitelist_op (op : account_whitelist_operation).

(** A validated operation, applied through the fee framework. *)
Definition run_account_operation (skip_check : bool) (required : result Z) (d : database) (o : account_operation)
    : result database :=
  match o with
  | create_op op =>
      let* _ := account_create_validate op in start_evaluate false skip_check required d op
  | update_op op =>
      let* _ := account_update_validate op in start_evaluate false skip_check required d op
  | whitelist_op op =>
      let* _ := account_whitelist_validate op in start_evaluate false skip_check required d op
  end.

(** ** What the fees leave alone *)

Definition registry (d : database) := (db_accounts d, db_governance d, dom (db_statistics d)).

Lemma accounts_wf_registry d d' : registry d' = registry d → accounts_wf d → accounts_wf d'.
Proof.
  unfold registry. intros [= Ea Eg Es] [H1 H2 H3 H4 H5 H6 H7]. unfold db_special_authorities in H6.
  split; unfold db_special_authorities; rewrite ?Ea, ?Eg, ?Es; done.
Qed.

Lemma modify_statistics_registry d id f d' : modify_statistics d id f = Ok d' → registry d' = registry d.
Proof.
  unfold modify_statistics, get_statistics. intros H. ok_inv. unfold registry. simpl.
  rewrite dom_insert_L. apply elem_of_dom_2 in Hx. f_equal. set_solver.
Qed.

Lemma start_evaluate_registry {Op} {E : Evaluator Op} skip_check required d (op : Op) d' :
  start_evaluate false skip_check required d op = Ok d' →
  is_Some (objs (db_accounts d) !! op_fee_payer op) ∧
  ∃ st d1 d2, do_evaluate d op = Ok st ∧ registry d1 = registry d ∧ do_apply d1 op st = Ok d2 ∧
    registry d' = registry d2.
Proof.
  intros (g & st & d0 & d1 & d2 & Hg & Hst & Hc & Hp & Ha & [m ->]%adjust_balance_frame)%start_evaluate_stages.
  split.
  - unfold prepare_fee, get_account, index_get in Hg. apply rbind_ok in Hg as (? & _ & Hg).
    apply rbind_ok in Hg as (a & Ha'%of_option_ok & _). eauto.
  - exists st, d1, d2. split_and!; [done| |done|done].
    unfold convert_fee, pay_fee, modify_asset_dyn in *. apply modify_statistics_registry in Hp. rewrite Hp.
    case_in Hc; ok_inv; done.
Qed.
(** ** What each operation does *)

Lemma create_account_ok op d id d' : create_account op d = Ok (id, d') →
  ∃ stats, id = next_id (db_accounts d) ∧ objs (db_accounts d) !! id = None ∧
    db_statistics d !! stats = None ∧ clashes account_clash (objs (db_accounts d)) (new_account d op stats) = false ∧
    d' = set_accounts (λ t, mkTable (<[id := new_account d op stats]> (objs t)) (id + 1))
           (set_next_statistics (λ n, n + 1) (set_statistics (<[stats := default_stats id]>) d)) ∧
    stats = gv_next_statistics (db_governance d).
Proof.
  intros H. unfold create_account, create_statistics in H.
  apply rbind_ok in H as ([stats d1] & Hs & H). apply rbind_ok in Hs as (u & Hf%require_ok & [= <- <-]).
  apply bool_decide_eq_true in Hf. apply rbind_ok in H as ([i t] & (-> & Hn & Hc & ->)%index_create_ok & [= <- <-]).
  exists (gv_next_statistics (db_governance d)). simpl in *. done.
Qed.

(** Only counters and the fee change. *)
Lemma count_registration_ok d d' : count_registration d = Ok d' →
  ∃ f g, d' = set_gpo f (set_dgpo g d) ∧ dg_witness_budget (db_dgpo d') = dg_witness_budget (db_dgpo d).
Proof.
  assert (∀ e, set_gpo (λ g, g) e = e) as Hid by (by intros []).
  unfold count_registration, modify_dgpo. intros H. cbn [rbind] in H. case_in H; [done|]. case_in H.
  - apply rbind_ok in H as (fee & _ & [= <-]). by eexists _, (λ _, _).
  - injection H as <-. exists (λ g, g). eexists (λ _, _). split; [symmetry; apply Hid|reflexivity].
Qed.

(** The index of special authorities after a registration. *)
Definition registered (new : bool) (id : Z) (s s' : gmap Z Z) : Prop :=
  if new then ∃ k, s !! k = None ∧ (∀ j, s !! j ≠ Some id) ∧ s' = <[k := id]> s else s' = s.

Lemma create_special_authority_ok id d d' : create_special_authority id d = Ok d' →
  registered true id (objs (db_special_authorities d)) (objs (db_special_authorities d')) ∧
  ∃ f, d' = set_special_authorities f d.
Proof.
  unfold create_special_authority. intros H.
  apply rbind_ok in H as ([k t] & (-> & Hk & Hc & ->)%index_create_ok & [= <-]). split; [|eauto].
  eexists. split_and!; [done| |reflexivity]. intros j Hj.
  pose proof (clashes_false _ _ _ Hc j id Hj) as E. unfold same_id in E. by rewrite Z.eqb_refl in E.
Qed.

Lemma start_buyback_ok id b d d' : start_buyback id b d = Ok d' →
  ∃ f a, db_assets d !! bb_asset_to_buy b = Some a ∧
    d' = set_assets (<[bb_asset_to_buy b := set_buyback_account (λ _, Some id) a]>) (set_buybacks f d).
Proof.
  unfold start_buyback, get_asset_object. intros H. apply rbind_ok in H as ([k t] & _ & H).
  apply rbind_ok in H as (a & Ha%of_option_ok & [= <-]). eexists (λ _, t), a. done.
Qed.

Definition with_special_authority (op : account_create_operation) : bool :=
  is_some (acc_owner_special_authority op) || is_some (acc_active_special_authority op).

Lemma account_create_effect d op id d' : account_create_do_apply d op = Ok (id, d') →
  ∃ stats, id = next_id (db_accounts d) ∧ objs (db_accounts d) !! id = None ∧
    clashes account_clash (objs (db_accounts d)) (new_account d op stats) = false ∧
    objs (db_accounts d') = <[id := new_account d op stats]> (objs (db_accounts d)) ∧
    db_statistics d !! stats = None ∧ db_statistics d' = <[stats := default_stats id]> (db_statistics d) ∧
    registered (with_special_authority op) id (objs (db_special_authorities d)) (objs (db_special_authorities d')).
Proof.
  intros H. unfold account_create_do_apply in H. apply rbind_ok in H as ([i d1] & H1 & H).
  apply create_account_ok in H1 as (stats & Ei & Hn & Hs & Hc & -> & _).
  apply rbind_ok in H as (d2 & H2 & H). apply count_registration_ok in H2 as (f & g & -> & _).
  apply rbind_ok in H as (d3 & H3 & H). apply rbind_ok in H as (d4 & H4 & [= <- <-]).
  exists stats. split; [done|]. split; [done|]. split; [done|].
  fold (with_special_authority op) in H3.
  assert (db_accounts d4 = db_accounts d3 ∧ db_statistics d4 = db_statistics d3 ∧
          db_special_authorities d4 = db_special_authorities d3) as (-> & -> & ->).
  { destruct (acc_buyback_options op) as [b|]; [apply start_buyback_ok in H4 as (f' & a & _ & ->)|injection H4 as <-]; done. }
  destruct (with_special_authority op); [apply create_special_authority_ok in H3 as [Hr [f' ->]]|injection H3 as <-]; done.
Qed.

(** Who takes whose place in the index. *)
Lemma specials_wf_registered m s s' new id a : m !! id = None → (has_special_authority a = true → new = true) →
  registered new id s s' → specials_wf m s → specials_wf (<[id := a]> m) s'.
Proof.
  intros Hid Hn Hr H i b. rewrite lookup_insert_Some. intros [[<- <-]|[Hi Hb]] Hsp.
  - rewrite (Hn Hsp) in Hr. destruct Hr as (k & Hk & _ & ->). exists k. apply lookup_insert_eq.
  - destruct (H _ _ Hb Hsp) as [k Hk]. exists k. destruct new; [|by rewrite Hr].
    destruct Hr as (j & Hj & _ & ->). rewrite lookup_insert_ne by congruence. done.
Qed.

Lemma account_create_preserves d0 d op id d' : registry d = registry d0 →
  is_valid_name (acc_name op) = Ok true → is_Some (objs (db_accounts d0) !! acc_registrar op) →
  account_create_do_evaluate d0 op = Ok tt → account_create_do_apply d op = Ok (id, d') →
  accounts_wf d → accounts_wf d'.
Proof.
  intros [= Ea Eg Es] Hname Hreg He Ha Hwf. apply account_create_effect in Ha as (stats & -> & Hn & Hc & Eo & Hs & Est & Hr).
  assert (is_Some (objs (db_accounts d) !! acc_referrer op)) as Href.
  { unfold account_create_do_evaluate in He. do 9 (apply rbind_ok in He as (? & _ & He)).
    apply rbind_ok in He as (a & Ha%of_option_ok & _). rewrite Ea. eauto. }
  destruct Hwf. split; rewrite ?Eo.
  - by apply names_wf_new.
  - by apply publishers_wf_new.
  - intros i b. rewrite lookup_insert_Some. intros [[_ <-]|[_ Hb]]; [done|by eapply wf_percentages0].
  - apply sponsors_wf_new; [by rewrite Ea|done..].
  - destruct wf_listings0. split; by apply mirrored_new.
  - eapply specials_wf_registered; [done| |done|done]. unfold has_special_authority, with_special_authority. simpl.
    by destruct (acc_owner_special_authority op), (acc_active_special_authority op).
  - rewrite Est, dom_insert_L. intros i b. rewrite lookup_insert_Some. intros [[_ <-]|[_ Hb]]; simpl; [set_solver|].
    apply elem_of_union_r. by eapply wf_statistics0.
Qed.
(** *** Changes *)

(** The steps of the update one by one: a field that a step is not about, and
    the one that it is about. *)
Section steps.
Context {A B : Type} (p : account_object → B) (set : (A → A) → account_object → account_object).

Lemma assign_other o a : (∀ f a, p (set f a) = p a) → p (assign set o a) = p a.
Proof. intros H. destruct o; [apply H|done]. Qed.

Lemma assign_authority_other o a : (∀ f a, p (set f a) = p a) → (∀ f a, p (set_top_n_control_flags f a) = p a) →
  p (assign_authority set o a) = p a.
Proof. intros H H'. destruct o; simpl; [by rewrite H', H|done]. Qed.

Lemma set_options_other (o : option account_options) a :
  (∀ x y z u v a, p (set_memo_key x (set_voting_account y (set_num_witness z (set_num_committee u (set_votes v a))))) = p a) →
  p (match o with Some o => set_options o a | None => a end) = p a.
Proof. intros H. destruct o; [apply H|done]. Qed.

Lemma assign_publisher_ip_other o a : (∀ f a, p (set_publisher_ip f a) = p a) → p (assign_publisher_ip o a) = p a.
Proof. intros H. unfold assign_publisher_ip. destruct (ao_is_a_publisher a); [destruct o; [apply H|done]|apply H]. Qed.
End steps.

Lemma assign_this {A} (p : account_object → A) set o a : (∀ f a, p (set f a) = f (p a)) →
  p (assign set o a) = default (p a) o.
Proof. intros H. by destruct o; simpl; rewrite ?H. Qed.

Lemma assign_authority_this {A} (p : account_object → A) set o a : (∀ f a, p (set f a) = f (p a)) →
  (∀ f a, p (set_top_n_control_flags f a) = p a) → p (assign_authority set o a) = default (p a) o.
Proof. intros H H'. by destruct o; simpl; rewrite ?H', ?H. Qed.

Ltac pass_steps p :=
  unfold updated_account, update_authorities;
  repeat first [rewrite (assign_other p) by reflexivity | rewrite (assign_publisher_ip_other p) by reflexivity
               | rewrite (assign_authority_other p) by reflexivity | rewrite (set_options_other p) by reflexivity].

(** What no update changes. *)
Lemma updated_same op a :
  ao_name (updated_account op a) = ao_name a ∧ ao_registrar (updated_account op a) = ao_registrar a ∧
  ao_referrer (updated_account op a) = ao_referrer a ∧ ao_statistics (updated_account op a) = ao_statistics a ∧
  ao_whitelisting_accounts (updated_account op a) = ao_whitelisting_accounts a ∧
  ao_whitelisted_accounts (updated_account op a) = ao_whitelisted_accounts a ∧
  ao_blacklisting_accounts (updated_account op a) = ao_blacklisting_accounts a ∧
  ao_blacklisted_accounts (updated_account op a) = ao_blacklisted_accounts a.
Proof.
  split_and!; [pass_steps ao_name|pass_steps ao_registrar|pass_steps ao_referrer|pass_steps ao_statistics
    |pass_steps ao_whitelisting_accounts|pass_steps ao_whitelisted_accounts|pass_steps ao_blacklisting_accounts
    |pass_steps ao_blacklisted_accounts]; reflexivity.
Qed.

(** The fields that the operation gives are taken over, the others stay. *)
Lemma updated_fields op a (a' := updated_account op a) :
  ao_is_a_publisher a' = default (ao_is_a_publisher a) (acu_is_a_publisher op) ∧
  ao_publisher_ip a' = (if ao_is_a_publisher a' then default (ao_publisher_ip a) (acu_publisher_ip op) else "") ∧
  ao_escrow_fee a' = default (ao_escrow_fee a) (acu_escrow_fee op) ∧
  ao_publisher_fee a' = default (ao_publisher_fee a) (acu_publisher_fee op) ∧
  ao_owner_special_authority a' = default (ao_owner_special_authority a) (acu_owner_special_authority op) ∧
  ao_active_special_authority a' = default (ao_active_special_authority a) (acu_active_special_authority op).
Proof.
  assert (ao_is_a_publisher a' = default (ao_is_a_publisher a) (acu_is_a_publisher op)) as Ep.
  { subst a'. pass_steps ao_is_a_publisher. rewrite (assign_this ao_is_a_publisher) by reflexivity.
    by pass_steps ao_is_a_publisher. }
  split; [exact Ep|]. split.
  { rewrite Ep. subst a'. unfold updated_account. do 5 rewrite (assign_other ao_publisher_ip) by reflexivity.
    unfold assign_publisher_ip. do 3 rewrite (assign_other ao_is_a_publisher) by reflexivity.
    rewrite (assign_this ao_is_a_publisher) by reflexivity. pass_steps ao_is_a_publisher. case_match; [|reflexivity].
    rewrite (assign_this ao_publisher_ip) by reflexivity. by pass_steps ao_publisher_ip. }
  subst a'. split_and!.
  - pass_steps ao_escrow_fee. rewrite (assign_this ao_escrow_fee) by reflexivity. by pass_steps ao_escrow_fee.
  - pass_steps ao_publisher_fee. rewrite (assign_this ao_publisher_fee) by reflexivity. by pass_steps ao_publisher_fee.
  - pass_steps ao_owner_special_authority. rewrite (assign_authority_this ao_owner_special_authority) by reflexivity.
    by pass_steps ao_owner_special_authority.
  - pass_steps ao_active_special_authority. rewrite (assign_authority_this ao_active_special_authority) by reflexivity.
    by pass_steps ao_active_special_authority.
Qed.
Lemma modify_account_ok d id f d' : modify_account d id f = Ok d' →
  ∃ a, objs (db_accounts d) !! id = Some a ∧
    d' = set_accounts (λ t, mkTable (<[id := f a]> (objs t)) (next_id t)) d.
Proof. unfold modify_account, get_account, index_get. intros H. ok_inv. eauto. Qed.

(** The index of special authorities follows the account. *)
Definition reregistered (before after : bool) (id : Z) (s s' : gmap Z Z) : Prop :=
  match before, after with
  | true, false => ∃ k, s !! k = Some id ∧ s' = delete k s
  | false, true => registered true id s s'
  | _, _ => s' = s
  end.

Lemma account_update_effect d op d' : account_update_do_apply d op = Ok d' →
  ∃ a, objs (db_accounts d) !! acu_account op = Some a ∧
    db_accounts d' = mkTable (<[acu_account op := updated_account op a]> (objs (db_accounts d))) (next_id (db_accounts d)) ∧
    db_statistics d' = db_statistics d ∧
    reregistered (has_special_authority a) (has_special_authority (updated_account op a)) (acu_account op)
      (objs (db_special_authorities d)) (objs (db_special_authorities d')).
Proof.
  intros H. unfold account_update_do_apply in H. apply rbind_ok in H as (a & Ha%of_option_ok & H).
  apply rbind_ok in H as (d1 & (b & Hb & ->)%modify_account_ok & H). rewrite Ha in Hb. injection Hb as <-.
  apply rbind_ok in H as (c & Hc%of_option_ok & H). simpl in Hc. rewrite lookup_insert_eq in Hc. injection Hc as <-.
  exists a. split; [done|]. unfold reregistered.
  destruct (has_special_authority a), (has_special_authority (updated_account op a)).
  - by injection H as <-.
  - unfold remove_special_authority in H. case_match eqn:Ef; [|done]. destruct p as [k v].
    apply find_some in Ef as [Hk%list_elem_of_In%elem_of_map_to_list Ev%Z.eqb_eq]. simpl in Ev. subst v.
    apply rbind_ok in H as (t & [_ ->]%index_remove_ok & [= <-]). split_and!; [done..|]. exists k. by split.
  - apply create_special_authority_ok in H as [Hr [f ->]]. by split_and!.
  - by injection H as <-.
Qed.

Lemma specials_wf_update m s s' id a a' : m !! id = Some a → specials_wf m s →
  reregistered (has_special_authority a) (has_special_authority a') id s s' → specials_wf (<[id := a']> m) s'.
Proof.
  intros Ha H Hr i b. rewrite lookup_insert_Some. intros [[<- <-]|[Hi Hb]] Hsp.
  - rewrite Hsp in Hr. destruct (has_special_authority a) eqn:E; simpl in Hr.
    + rewrite Hr. by apply (H id a).
    + destruct Hr as (k & _ & _ & ->). exists k. apply lookup_insert_eq.
  - destruct (H _ _ Hb Hsp) as [k Hk]. exists k. unfold reregistered in Hr. repeat case_match; try by rewrite Hr.
    + destruct Hr as (j & Hj & ->). rewrite lookup_delete_ne; [done|]. intros ->. congruence.
    + destruct Hr as (j & Hj & _ & ->). rewrite lookup_insert_ne by congruence. done.
Qed.

Lemma below_100_percent_ok o x : validate_optional below_100_percent o = Ok tt → x < GRAPHENE_100_PERCENT →
  default x o < GRAPHENE_100_PERCENT.
Proof. destruct o; simpl; [|done]. unfold below_100_percent. intros H _. ok_inv. lia. Qed.

Lemma account_update_preserves d0 d op d' : registry d = registry d0 → account_update_validate op = Ok tt →
  account_update_do_evaluate d0 op = Ok tt → account_update_do_apply d op = Ok d' → accounts_wf d → accounts_wf d'.
Proof.
  intros [= Ea Eg Es] Hv He Hap Hwf. apply account_update_effect in Hap as (a & Ha & Eo & Est & Hr).
  destruct (updated_same op a) as (En & Er & Ef & Estat & E1 & E2 & E3 & E4).
  destruct (updated_fields op a) as (Ep & Ei & Eef & Epf & _).
  assert (publisher_update_ok d a op = Ok tt) as Hp.
  { unfold account_update_do_evaluate in He. do 4 (apply rbind_ok in He as (? & _ & He)).
    apply rbind_ok in He as (b & Hb%of_option_ok & He). apply rbind_ok in He as (? & _ & He).
    rewrite <- Ea, Ha in Hb. injection Hb as <-. unfold publisher_update_ok in *. by rewrite Ea. }
  destruct Hwf. split; rewrite ?Eo; simpl.
  - by eapply names_wf_same.
  - by eapply publishers_wf_update.
  - intros i b. rewrite lookup_insert_Some. intros [[_ <-]|[_ Hb]]; [|by eapply wf_percentages0].
    rewrite Eef, Epf. apply wf_percentages0 in Ha as [? ?]. unfold account_update_validate in Hv. ok_inv.
    split; by apply below_100_percent_ok.
  - by eapply sponsors_wf_same.
  - destruct wf_listings0 as [H1 H2]. split; intros i j; rewrite !(listed_same _ _ _ a); auto.
  - by eapply specials_wf_update.
  - rewrite Est. intros i b. rewrite lookup_insert_Some. intros [[_ <-]|[_ Hb]]; [rewrite Estat|]; by eapply wf_statistics0.
Qed.

(** *** Listings *)

(** All of it but the listings, which depends on these fields. *)
Definition base_fields (a : account_object) :=
  (ao_name a, ao_is_a_publisher a, ao_publisher_ip a, ao_escrow_fee a, ao_publisher_fee a,
   (ao_registrar a, ao_referrer a, has_special_authority a, ao_statistics a)).

Definition base_wf (m : gmap Z account_object) (s : gmap Z Z) (st : gset Z) : Prop :=
  names_wf m ∧ publishers_wf m ∧ percentages_wf m ∧ sponsors_wf m ∧ specials_wf m s ∧ statistics_wf m st.

Lemma base_wf_same m s st id a a' : m !! id = Some a → base_fields a' = base_fields a → base_wf m s st →
  base_wf (<[id := a']> m) s st.
Proof.
  unfold base_fields. intros Ha [= En Ep Ei Ee Ef Er Eref Esp Est] (H1 & [H2 H2'] & H3 & H4 & H5 & H6).
  assert (∀ i b, <[id := a']> m !! i = Some b → ∃ c, m !! i = Some c ∧ base_fields b = base_fields c) as Hm.
  { intros i b. rewrite lookup_insert_Some. intros [[<- <-]|[_ Hb]]; [exists a|by exists b].
    split; [done|]. unfold base_fields. congruence. }
  split_and!; [by eapply names_wf_same|split| |by eapply sponsors_wf_same| |].
  - intros i b (c & Hc & [= _ E1 E2 _ _ _ _ _ _])%Hm. rewrite E1, E2. by eapply H2.
  - intros i j b c (b' & Hb & [= _ _ E1 _ _ _ _ _ _])%Hm (c' & Hc & [= _ _ E2 _ _ _ _ _ _])%Hm.
    rewrite E1, E2. by apply H2'.
  - intros i b (c & Hc & [= _ _ _ E1 E2 _ _ _ _])%Hm. rewrite E1, E2. by eapply H3.
  - intros i b (c & Hc & [= _ _ _ _ _ _ _ E1 _])%Hm. rewrite E1. by eapply H5.
  - intros i b (c & Hc & [= _ _ _ _ _ _ _ _ E1])%Hm. rewrite E1. by eapply H6.
Qed.

Lemma account_whitelist_preserves d op d' : account_whitelist_do_apply d op = Ok d' → accounts_wf d → accounts_wf d'.
Proof.
  intros H [H1 H2 H3 H4 [HL1 HL2] H5 H6]. unfold account_whitelist_do_apply in H.
  apply rbind_ok in H as (d1 & (a & Ha & ->)%modify_account_ok & (b & Hb & ->)%modify_account_ok). simpl in Hb.
  set (a' := set_blacklisting_accounts _ _) in *. set (b' := set_blacklisted_accounts _ _).
  set (m := objs (db_accounts d)) in *.
  assert (base_wf (<[acw_authorizing_account op := b']> (<[acw_account_to_list op := a']> m))
            (objs (db_special_authorities d)) (dom (db_statistics d))) as (B1 & B2 & B3 & B4 & B5 & B6).
  { eapply base_wf_same; [exact Hb|done|]. by eapply base_wf_same. }
  assert (listings_wf (<[acw_authorizing_account op := b']> (<[acw_account_to_list op := a']> m))) as BL.
  { split; by eapply (mirrored_list _ _ _ (acw_new_listing op) _ (acw_account_to_list op) (acw_authorizing_account op) a b). }
  by split.
Qed.

(** C25. The accounts stay well formed through every successful account
    operation. Names are valid and unique; publishers, and nobody else, have
    an address, and no two the same; agents and publishers ask for less than
    everything; registrar and referrer of an account exist; who is on whose
    white- or blacklist is recorded on both sides; and every account with a
    special authority is in the index through which maintenance finds it. *)
Theorem account_operation_preserves skip_check required d o d' :
  accounts_wf d → run_account_operation skip_check required d o = Ok d' → accounts_wf d'.
Proof.
  intros Hwf H. destruct o as [op|op|op]; simpl in H; apply rbind_ok in H as ([] & Hv & H);
    apply start_evaluate_registry in H as (Hpay & [] & d1 & d2 & He & E1 & Ha & E2);
    (apply (accounts_wf_registry d2); [done|]); apply (accounts_wf_registry d d1 E1) in Hwf; simpl in *.
  - apply rbind_ok in Ha as ([id d3] & Ha & [= <-]). apply (account_create_preserves d d1 op id d3); try done.
    unfold account_create_validate in Hv. apply rbind_ok in Hv as (? & _ & Hv).
    apply rbind_ok in Hv as (b & Hb & Hv). apply rbind_ok in Hv as (? & ->%require_ok & _). done.
  - by apply (account_update_preserves d d1 op d2).
  - by apply (account_whitelist_preserves d1 op d2).
Qed.
End operations.
