(* ===== verification/AccountTheorems.v ===== *)
(** * Accounts, votes, proxies and the price of registration

    Votes that the operations let through are for candidates that exist; a
    proxy that does not exist stops maintenance; the fee for registration
    returns to where it was; and the operations conserve all assets. *)

From stdpp Require Import gmap strings list.
From Stdlib Require Import ZArith Lia.
From S2P Require Import Prelude Fc Config Authority Asset Objects Database Sample Balances Fees Exchange Elections Maintenance WithdrawPermission AccountName AccountIndexes Accounts AccountProps.

Local Open Scope Z_scope.

(** ** Votes *)

Lemma has_vote_ok {V} (vote : V → Z) m id : has_vote vote m id = true ↔
  ∃ k v, m !! k = Some v ∧ vote_instance (vote v) = vote_instance id.
Proof.
  unfold has_vote. rewrite existsb_exists. split.
  - intros ([k v] & Hk%list_elem_of_In%elem_of_map_to_list & E%Z.eqb_eq). eauto.
  - intros (k & v & Hk & E). exists (k, v). split; [by apply list_elem_of_In, elem_of_map_to_list|by apply Z.eqb_eq].
Qed.

(** A candidate for which a vote id is. *)
Definition candidate_for (d : database) (id : Z) : Prop :=
  (vote_kind id = vote_type_number committee ∧
     ∃ k c, objs (db_committee_members d) !! k = Some c ∧ vote_instance (cm_vote_id c) = vote_instance id) ∨
  (vote_kind id = vote_type_number witness ∧
     ∃ k w, db_witnesses d !! k = Some w ∧ vote_instance (wo_vote_id w) = vote_instance id) ∨
  (vote_kind id = vote_type_number worker ∧
     ∃ k w, objs (db_workers d) !! k = Some w ∧ vote_instance (wk_vote_for w) = vote_instance id).

Lemma votes_for_candidates_ok d id : votes_for_candidates d id = Ok tt → candidate_for d id.
Proof.
  unfold votes_for_candidates, candidate_for. intros H.
  destruct (Z.eqb_spec (vote_kind id) (vote_type_number committee)); [left; by ok_inv; apply has_vote_ok in H|].
  destruct (Z.eqb_spec (vote_kind id) (vote_type_number witness)); [right; left; by ok_inv; apply has_vote_ok in H|].
  destruct (Z.eqb_spec (vote_kind id) (vote_type_number worker)); [right; right; by ok_inv; apply has_vote_ok in H|done].
Qed.

(** The votes that an account may set (since the hardforks) are all for
    committee members, witnesses and workers who stand for election, never
    against a worker, and all within the tally of the next maintenance. *)
Theorem account_votes_valid d o id :
  verify_account_votes d o = Ok tt →
  HARDFORK_607_TIME <= head_block_time d → HARDFORK_CORE_143_TIME <= head_block_time d → id ∈ opt_votes o →
  vote_instance id < gp_next_available_vote_id (db_gpo d) ∧ candidate_for d id ∧
  (vote_kind id = vote_type_number worker →
   ∀ k w, objs (db_workers d) !! k = Some w → vote_instance (wk_vote_against w) ≠ vote_instance id).
Proof.
  intros H H607 H143 Hid%elem_of_flat_elements. unfold verify_account_votes in H.
  rewrite (proj2 (Z.leb_le _ _) H607), (proj2 (Z.leb_le _ _) H143), andb_true_r in H.
  apply rbind_ok in H as (? & Hm%require_ok & H). apply rbind_ok in H as (? & Hw & H%rfold_each).
  rewrite forallb_forall in Hm. rewrite Forall_forall in H. pose proof Hid as Hin%list_elem_of_In.
  split; [by apply Z.ltb_lt, Hm|]. split; [by apply votes_for_candidates_ok, H|]. intros Hk k w Hkw E.
  assert (is_worker_vote id = true) as Hkind by (by apply Z.eqb_eq).
  assert (existsb is_worker_vote (flat_elements (opt_votes o)) = true) as Ex by (apply existsb_exists; by exists id).
  rewrite Ex in Hw. apply require_ok in Hw. rewrite forallb_forall in Hw. specialize (Hw _ Hin).
  rewrite Hkind in Hw. simpl in Hw. apply negb_true_iff, not_true_iff_false in Hw. apply Hw, has_vote_ok. eauto.
Qed.

Section properties.
Context {FC : FcArith} {FCL : FcArithLaws FC} {BA : BoostArith} {FS : FcString} {FI : FcIp}.

(** ** Proxies *)

(** When an account has left its votes to an account that does not
    exist, no tally is possible: the maintenance, and with it every block
    that comes after its time, fails. [account_update] does not look whether
    the new proxy exists. *)
Theorem unknown_proxy_stops_maintenance d id a :
  objs (db_accounts d) !! id = Some a → ao_voting_account a ≠ GRAPHENE_PROXY_TO_SELF_ACCOUNT →
  objs (db_accounts d) !! ao_voting_account a = None →
  ∀ withdraw_fee r, perform_account_maintenance d ≠ Ok r ∧
    ∀ d', accounts_and_votes withdraw_fee d ≠ Ok d'.
Proof.
  intros Ha Hp Hn withdraw_fee.
  assert (∀ r, perform_account_maintenance d ≠ Ok r) as H.
  { intros [d' t] H. unfold perform_account_maintenance in H.
    apply account_maintenance_ballots in H as (ballots & Hb & _).
    assert (id ∈ accounts_by_name d) as Hid by (rewrite accounts_by_name_perm; apply elem_of_ids_of; eauto).
    apply list_elem_of_lookup in Hid as [i Hi]. eapply Forall2_lookup_l in Hb as (b & _ & Ho & _); [|exact Hi].
    unfold opinion_of, opinions in Ho. rewrite lookup_fmap, Ha in Ho. simpl in Ho.
    rewrite (proj2 (Z.eqb_neq _ _) Hp), lookup_fmap, Hn in Ho. done. }
  intros r. split; [apply H|]. intros d' Hd. unfold accounts_and_votes in Hd.
  apply rbind_ok in Hd as (r' & Hr & _). by apply H in Hr.
Qed.

(** ** The fee for registration *)

Definition basic_fee (d : database) : Z := cp_account_basic_fee (parameters d).
Definition registered_count (d : database) : Z := dg_accounts_registered_this_interval (db_dgpo d).

(** The settings of the fee, which registrations do not touch. *)
Definition fee_settings (d : database) :=
  (cp_accounts_per_fee_scale (parameters d), cp_account_fee_scale_bitshifts (parameters d), gp_pending_parameters (db_gpo d)).

Lemma count_registration_exact d d' : count_registration d = Ok d' →
  cp_accounts_per_fee_scale (parameters d) ≠ 0 ∧ fee_settings d' = fee_settings d ∧
  registered_count d' = wrap_u32 (registered_count d + 1) ∧
  basic_fee d' = (if registered_count d' mod cp_accounts_per_fee_scale (parameters d) =? 0
                  then wrap_u64 (Z.shiftl (basic_fee d) (cp_account_fee_scale_bitshifts (parameters d)))
                  else basic_fee d).
Proof.
  unfold count_registration, modify_dgpo. cbn [rbind]. intros H.
  destruct (Z.eqb_spec (cp_accounts_per_fee_scale (parameters (set_dgpo (λ _,
    set_accounts_registered (λ n, wrap_u32 (n + 1)) (db_dgpo d)) d))) 0) as [|Hne]; [done|]. split; [exact Hne|].
  unfold registered_count, basic_fee, fee_settings, parameters in *. simpl in *.
  destruct (wrap_u32 _ mod _ =? 0) eqn:E.
  - apply rbind_ok in H as (fee & Hf & [= <-]). unfold shift_left_u64 in Hf. case_in Hf; [done|]. injection Hf as <-.
    simpl. by rewrite E.
  - injection H as <-. simpl. by rewrite E.
Qed.

Lemma registration_counts d op id d' : account_create_do_apply d op = Ok (id, d') →
  ∃ d1 d2, db_gpo d1 = db_gpo d ∧ db_dgpo d1 = db_dgpo d ∧ count_registration d1 = Ok d2 ∧
    db_gpo d' = db_gpo d2 ∧ db_dgpo d' = db_dgpo d2.
Proof.
  intros H. unfold account_create_do_apply in H. apply rbind_ok in H as ([i d1] & H1 & H).
  apply create_account_ok in H1 as (stats & _ & _ & _ & _ & -> & _).
  apply rbind_ok in H as (d2 & H2 & H). apply rbind_ok in H as (d3 & H3 & H).
  apply rbind_ok in H as (d4 & H4 & [= _ <-]). eexists _, d2. split; [|split; [|split; [exact H2|]]]; [done..|].
  assert (db_gpo d3 = db_gpo d2 ∧ db_dgpo d3 = db_dgpo d2) as [<- <-].
  { case_in H3; [apply create_special_authority_ok in H3 as [_ [f ->]]|injection H3 as <-]; done. }
  destruct (acc_buyback_options op); [apply start_buyback_ok in H4 as (f & a & _ & ->)|injection H4 as <-]; done.
Qed.

(** Registrations one after the other. *)
Inductive registrations : nat → database → database → Prop :=
| no_registration d : registrations O d d
| next_registration n d op id d1 d2 :
    registrations n d d1 → account_create_do_apply d1 op = Ok (id, d2) → registrations (S n) d d2.

Lemma div_succ n m : 0 < m → (n + 1) / m = n / m + if (n + 1) mod m =? 0 then 1 else 0.
Proof.
  intros Hm. pose proof (Z.div_mod n m ltac:(lia)) as E1. pose proof (Z.div_mod (n + 1) m ltac:(lia)) as E2.
  pose proof (Z.mod_pos_bound n m Hm) as B1. pose proof (Z.mod_pos_bound (n + 1) m Hm) as B2.
  destruct (Z.eqb_spec ((n + 1) mod m) 0) as [E|E]; nia.
Qed.

Lemma registrations_fee n d d' scale shifts :
  cp_accounts_per_fee_scale (parameters d) = scale → cp_account_fee_scale_bitshifts (parameters d) = shifts →
  registrations n d d' → registered_count d = 0 → 0 < scale → 0 <= shifts → 0 < basic_fee d → Z.of_nat n < 2 ^ 32 →
  basic_fee d * 2 ^ (shifts * (Z.of_nat n / scale)) < 2 ^ 64 →
  fee_settings d' = fee_settings d ∧ registered_count d' = Z.of_nat n ∧
  basic_fee d' = basic_fee d * 2 ^ (shifts * (Z.of_nat n / scale)).
Proof.
  intros Escale Eshifts Hr H0 Hs Hsh Hf. induction Hr as [d|n d op id d1 d2 Hr IH Hc]; intros Hn Hb.
  { simpl. rewrite Z.div_0_l, Z.mul_0_r, Z.mul_1_r by lia. auto. }
  assert (Z.of_nat n / scale <= Z.of_nat (S n) / scale) as Hle by (apply Z.div_le_mono; lia).
  destruct IH as (E1 & E2 & E3); [done..|lia| |].
  { eapply Z.le_lt_trans; [|exact Hb]. apply Z.mul_le_mono_nonneg_l; [lia|]. apply Z.pow_le_mono_r; [lia|]. by apply Z.mul_le_mono_nonneg_l. }
  apply registration_counts in Hc as (e1 & e2 & Eg & Ed & (_ & F1 & F2 & F3)%count_registration_exact & Eg' & Ed').
  unfold fee_settings, registered_count, basic_fee, parameters in *. rewrite Eg', Ed'. rewrite Eg, Ed in *.
  injection E1 as Es Esh Ep. rewrite Escale in Es. rewrite Eshifts in Esh. rewrite Es, Esh, Ep in F1.
  split; [by rewrite F1, Escale, Eshifts|].
  rewrite E2, wrap_u32_small in F2 by lia. split; [lia|]. rewrite F3, F2, Es, Esh. clear F1 F2 F3.
  replace (Z.of_nat (S n)) with (Z.of_nat n + 1) in Hb |- * by lia.
  rewrite (div_succ _ scale Hs) in Hb |- *.
  destruct ((Z.of_nat n + 1) mod scale =? 0); [|by rewrite Z.add_0_r].
  assert (0 <= Z.of_nat n / scale) as Hq by (apply Z.div_pos; lia).
  rewrite Z.mul_add_distr_l, Z.mul_1_r, Z.pow_add_r in Hb |- * by nia.
  rewrite E3, Z.shiftl_mul_pow2 by lia. rewrite wrap_u64_small; [lia|].
  pose proof (Z.pow_pos_nonneg 2 (shifts * (Z.of_nat n / scale)) ltac:(lia) ltac:(nia)).
  pose proof (Z.pow_pos_nonneg 2 shifts ltac:(lia) Hsh). nia.
Qed.

(** However many accounts are registered in an interval: each step of
    the scale multiplies the fee for registration, and the next maintenance
    takes exactly all steps back, as long as the fee stays within 64 bits. *)
Theorem registration_fee_restored n d d' (scale := cp_accounts_per_fee_scale (parameters d))
    (shifts := cp_account_fee_scale_bitshifts (parameters d)) :
  registrations n d d' → registered_count d = 0 → gp_pending_parameters (db_gpo d) = None →
  0 < scale → 0 <= shifts → 0 < basic_fee d → Z.of_nat n < 2 ^ 32 →
  basic_fee d * 2 ^ (shifts * (Z.of_nat n / scale)) < 2 ^ 64 →
  basic_fee d' = basic_fee d * 2 ^ (shifts * (Z.of_nat n / scale)) ∧
  ∃ d'', update_global_parameters d' = Ok d'' ∧ basic_fee d'' = basic_fee d.
Proof.
  intros Hr H0 Hp Hs Hsh Hf Hn Hb. destruct (registrations_fee n d d' scale shifts eq_refl eq_refl Hr H0 Hs Hsh Hf Hn Hb) as (E1 & E2 & E3).
  split; [exact E3|]. set (k := shifts * (Z.of_nat n / scale)) in *.
  assert (0 <= k) as Hk by (apply Z.mul_nonneg_nonneg; [lia|apply Z.div_pos; lia]).
  assert (k < 64) as Hk'.
  { apply (Z.pow_lt_mono_r_iff 2); [lia..|]. pose proof (Z.pow_pos_nonneg 2 k ltac:(lia) Hk). nia. }
  unfold fee_settings, registered_count, basic_fee, parameters in *. injection E1 as Es Esh Ep.
  unfold update_global_parameters. rewrite Es, Esh, Ep, E2, Hp.
  fold scale shifts. rewrite (proj2 (Z.eqb_neq _ _)) by lia. fold k. rewrite wrap_u32_small by lia.
  unfold shift_right_u64. rewrite (proj2 (Z.leb_gt _ _)) by lia. simpl. eexists. split; [reflexivity|]. simpl.
  assert (Z.shiftr (cp_account_basic_fee (gp_parameters (db_gpo d'))) k = cp_account_basic_fee (gp_parameters (db_gpo d))) as E.
  { rewrite E3, Z.shiftr_div_pow2, Z.div_mul by lia. done. }
  by case_match; simpl; rewrite E.
Qed.
End properties.

(** ** Conservation *)

Section conservation.
Context {FC : FcArith} {FCL : FcArithLaws FC} {BA : BoostArith} {FS : FcString}.

Lemma moves_new_statistics d id owner : db_statistics d !! id = None →
  conserves d (set_statistics (<[id := default_stats owner]>) d).
Proof.
  intros Hid. apply moves_intro; [done..|]. intros aid.
  unfold imbalance, held, held_market, held_fees, current_supply. simpl. rewrite msum_insert_new by done. simpl. case_match; lia.
Qed.

Lemma moves_next_statistics d f : conserves d (set_next_statistics f d).
Proof. apply moves_intro; [done..|]. intros. unfold imbalance, held, held_market, held_fees, current_supply. simpl. case_match; lia. Qed.

(** A change of an asset other than of its dynamic data. *)
Lemma moves_change_asset d aid a a' : db_assets d !! aid = Some a →
  as_dynamic_asset_data_id a' = as_dynamic_asset_data_id a → conserves d (set_assets (<[aid := a']>) d).
Proof.
  intros Ha Hd (W1 & (z & Hz & Ez) & W3 & W4).
  assert (∀ i b, <[aid := a']> (db_assets d) !! i = Some b →
    ∃ c, db_assets d !! i = Some c ∧ as_dynamic_asset_data_id b = as_dynamic_asset_data_id c) as Hl.
  { intros i b [[<- <-]|[_ Hi]]%lookup_insert_Some; [by exists a|by exists b]. }
  split; [split_and!; [|exists (if decide (aid = core_id) then a' else z)|done|done]; simpl|].
  - intros i j x y (x' & ? & Ex)%Hl (y' & ? & Ey)%Hl E. rewrite Ex, Ey in E. by eapply W1.
  - case_decide as E; [subst; rewrite lookup_insert_eq, Hd|by rewrite lookup_insert_ne].
    split; [done|]. rewrite Ha in Hz. by injection Hz as ->.
  - intros i. assert (∀ dyn, dyn_of i (<[aid := a']> (db_assets d)) dyn = dyn_of i (db_assets d) dyn) as E.
    { intros dyn. unfold dyn_of. destruct (decide (aid = i)) as [->|];
        [by rewrite lookup_insert_eq, Ha; simpl; rewrite Hd|by rewrite lookup_insert_ne]. }
    unfold imbalance, held, held_market, issuer_held, current_supply; simpl. rewrite !E. lia.
Qed.

Lemma count_registration_moves d d' : count_registration d = Ok d' → conserves d d'.
Proof.
  intros (f & g & -> & Eb)%count_registration_ok. apply moves_intro; [done..|]. intros aid.
  change (set_dgpo g d) with (set_dgpo (λ _, g (db_dgpo d)) d). rewrite imbalance_set_gpo, imbalance_set_dgpo.
  simpl in Eb. rewrite Eb, Z.sub_diag. unfold amount_of. simpl. case_match; lia.
Qed.

Lemma account_create_moves d op id d' : account_create_do_apply d op = Ok (id, d') → conserves d d'.
Proof.
  intros H. unfold account_create_do_apply in H. apply rbind_ok in H as ([i d1] & H1 & H).
  apply create_account_ok in H1 as (stats & _ & _ & Hs & _ & -> & _).
  apply rbind_ok in H as (d2 & H2 & H). apply count_registration_moves in H2.
  apply rbind_ok in H as (d3 & H3 & H). apply rbind_ok in H as (d4 & H4 & [= _ <-]).
  eapply moves_conserves_l; [by apply (moves_new_statistics _ stats i)|].
  eapply moves_conserves_l; [apply (moves_next_statistics _ (λ n, n + 1))|].
  eapply moves_conserves_l; [apply moves_set_accounts|]. eapply moves_conserves_l; [exact H2|].
  eapply (moves_conserves_l _ d3).
  { case_in H3; [apply create_special_authority_ok in H3 as [_ [f' ->]]|injection H3 as <-; apply moves_refl].
    apply moves_set_governance. }
  destruct (acc_buyback_options op) as [b|]; [|injection H4 as <-; apply moves_refl].
  apply start_buyback_ok in H4 as (f' & a & Ha & ->).
  eapply moves_conserves_l; [apply moves_set_governance|]. by apply (moves_change_asset _ _ a).
Qed.

#[export] Instance account_create_conserves : EvaluatorConserves account_create_operation.
Proof.
  intros d0 d op st d' _ H. simpl in H. apply rbind_ok in H as ([id d1] & H & [= <-]). by eapply account_create_moves.
Qed.

#[export] Instance account_update_conserves : EvaluatorConserves account_update_operation.
Proof.
  intros d0 d op st d' _ H. simpl in H. unfold account_update_do_apply in H.
  apply rbind_ok in H as (a & _ & H). apply rbind_ok in H as (d1 & H1%moves_modify_account & H).
  apply rbind_ok in H as (b & _ & H). eapply moves_conserves_l; [exact H1|].
  repeat case_match; try (injection H as <-; apply moves_refl).
  - unfold remove_special_authority in H. repeat case_match; [|done]. apply rbind_ok in H as (t & _ & [= <-]).
    apply moves_set_governance.
  - apply create_special_authority_ok in H as [_ [f ->]]. apply moves_set_governance.
Qed.

#[export] Instance account_whitelist_conserves : EvaluatorConserves account_whitelist_operation.
Proof.
  intros d0 d op st d' _ H. simpl in H. unfold account_whitelist_do_apply in H.
  apply rbind_ok in H as (d1 & H1%moves_modify_account & H2%moves_modify_account).
  by eapply moves_conserves_l.
Qed.
End conservation.

(** ** Alice registers Dora *)

#[local] Instance same_case : FcString := {| to_lower s := s |}.
#[local] Instance no_ip : FcIp := {| ip_address _ := None; is_public_address _ := false |}.
#[local] Existing Instance fc_reference.
#[local] Existing Instance fc_reference_laws.
#[local] Existing Instance boost_reference.

Definition account_db : database :=
  set_statistics (<[5 := default_stats 5]>)
    (set_accounts (λ _, mkTable (list_to_map
       [(0, default_account "committee-account" 0); (5, default_account "proxy-to-self" 5);
        (alice, default_account "alice" alice)]) 30) sample_db).

Lemma account_db_wf : accounts_wf account_db.
Proof.
  assert (∀ i a, objs (db_accounts account_db) !! i = Some a → ∃ n, a = default_account n i ∧
    (i = 0 ∧ n = "committee-account" ∨ i = 5 ∧ n = "proxy-to-self" ∨ i = alice ∧ n = "alice")) as H.
  { intros i a Ha. unfold account_db in Ha. simpl in Ha. rewrite !lookup_insert_Some, lookup_empty in Ha.
    destruct Ha as [[<- <-]|[_ [[<- <-]|[_ [[<- <-]|[_ [=]]]]]]]; eexists; (split; [reflexivity|]); auto. }
  assert (∀ f g, (∀ n i, f (default_account n i) = ∅) → (∀ n i, g (default_account n i) = ∅) →
            mirrored f g (objs (db_accounts account_db))) as Hm.
  { intros f g Hf Hg i j. split; intros (a & (n & -> & _)%H & Hi); [rewrite Hf in Hi|rewrite Hg in Hi]; set_solver. }
  split.
  - split.
    + intros i j a b (n & -> & Hn)%H (k & -> & Hk)%H E. simpl in E. subst k. by intuition subst.
    + intros i a (n & -> & Hn)%H. simpl. by intuition subst.
  - split; [intros i a (n & -> & _)%H; simpl; by split|intros i j a b (n & -> & _)%H _ _ E; done].
  - by intros i a (n & -> & _)%H.
  - intros i a (n & -> & _)%H. simpl. split; vm_compute; eauto.
  - split; by apply Hm.
  - intros i a (n & -> & _)%H. done.
  - intros i a (n & -> & Hn)%H. simpl. apply elem_of_dom. intuition subst; vm_compute; eauto.
Qed.

Definition dora_op : account_create_operation :=
  mkAccountCreate (core_asset 0) alice alice 5000 "dora" (mkAuthority 1 [(alice, 1)] [] []) (mkAuthority 1 [(alice, 1)] [] [])
    "" "" "" "" (mkAccountOptions 7 5 1 0 {[vote_id witness 0]}) false None None None.

Definition dora_db : database := get_ok (run_account_operation false (Ok 0) account_db (create_op dora_op)) account_db.

Example dora_registered : ao_name <$> objs (db_accounts dora_db) !! 30 = Some "dora"%string ∧
  dg_accounts_registered_this_interval (db_dgpo dora_db) = 1.
Proof. split; vm_compute; reflexivity. Qed.

Lemma account_operation_preserves_witness : accounts_wf dora_db.
Proof.
  apply (account_operation_preserves false (Ok 0) account_db (create_op dora_op)); [exact account_db_wf|].
  vm_compute. reflexivity.
Defined.

Lemma account_votes_valid_witness : candidate_for account_db (vote_id witness 0).
Proof.
  apply (account_votes_valid account_db (acc_options dora_op) (vote_id witness 0));
    [vm_compute; reflexivity|vm_compute; congruence..|vm_compute; reflexivity].
Defined.

(** Alice then follows an account that does not exist. *)
Definition follow_nobody : account_update_operation :=
  mkAccountUpdate (core_asset 0) alice None None None None None None None None None None None None
    (Some (mkAccountOptions 7 999 0 0 ∅)) false None None.

Definition stuck_db : database :=
  get_ok (run_account_operation false (Ok 0) account_db (update_op follow_nobody)) account_db.

Lemma unknown_proxy_stops_maintenance_witness :
  is_ok (run_account_operation false (Ok 0) account_db (update_op follow_nobody)) = true ∧
  ∀ r, perform_account_maintenance stuck_db ≠ Ok r.
Proof.
  split; [vm_compute; reflexivity|]. intros r.
  apply (unknown_proxy_stops_maintenance stuck_db alice (set_options (mkAccountOptions 7 999 0 0 ∅) (default_account "alice" alice)));
    [vm_compute; reflexivity|done|vm_compute; reflexivity|exact (Ok 0)].
Defined.

(** A thousandth registration, after 999 others. *)
Definition busy_db (registered shifts : Z) : database :=
  set_gpo (set_parameters (λ p, mkParams (cp_block_interval p) (cp_maintenance_interval p) (cp_maintenance_skip_slots p)
      (cp_reserve_percent_of_fee p) (cp_network_percent_of_fee p) (cp_cashback_vesting_period_seconds p)
      (cp_cashback_vesting_threshold p) (cp_witness_pay_per_block p) (cp_witness_pay_vesting_seconds p)
      (cp_maximum_escrow_lifetime p) (cp_maximum_listing_lifetime p) (cp_listing_ban_threshold p)
      (cp_maximum_listing_priority_fee p) (cp_publisher_fee_min p) (cp_publisher_fee_max p)
      (cp_committee_proposal_review_period p) (cp_maximum_transaction_size p) (cp_maximum_block_size p)
      (cp_maximum_time_until_expiration p) (cp_maximum_proposal_lifetime p) (cp_maximum_asset_whitelist_authorities p)
      (cp_maximum_asset_feed_publishers p) (cp_maximum_authority_membership p) (cp_allow_non_member_whitelists p)
      (cp_worker_budget_per_day p) (cp_max_predicate_opcode p) (cp_fee_liquidation_threshold p) 1 shifts
      (cp_max_authority_depth p) (cp_witness_count_term p) (cp_committee_count p) (cp_account_basic_fee p)
      (cp_pop_weights p) (cp_null_ext p)))
    (set_dgpo (set_accounts_registered (λ _, registered)) account_db).

Lemma registration_fee_restored_witness : ∃ d' d'',
  registrations 1 (busy_db 0 4) d' ∧ basic_fee d' = 16 * 500000 ∧
  update_global_parameters d' = Ok d'' ∧ basic_fee d'' = 500000.
Proof.
  set (d' := (get_ok (account_create_do_apply (busy_db 0 4) dora_op) (0, account_db)).2).
  assert (registrations 1 (busy_db 0 4) d') as Hr.
  { eapply (next_registration 0 _ dora_op 30); [constructor|vm_compute; reflexivity]. }
  destruct (registration_fee_restored 1 (busy_db 0 4) d' Hr) as (Hf & d'' & Hu & Hb);
    [reflexivity|reflexivity|vm_compute; congruence|vm_compute; congruence|vm_compute; congruence|vm_compute; congruence|vm_compute; congruence|].
  exists d', d''. split; [exact Hr|]. split; [rewrite Hf; vm_compute; reflexivity|]. split; [exact Hu|].
  rewrite Hb. vm_compute. reflexivity.
Defined.

(** Beyond 64 bits it does not come back: twelve steps in one interval leave
    a fee of less than a third for good. *)
Definition steps (n : nat) (d : database) : database := Nat.iter n (λ d, get_ok (count_registration d) d) d.

Example registration_fee_lost :
  basic_fee (busy_db 0 4) = 500000 ∧
  basic_fee (get_ok (update_global_parameters (steps 12 (busy_db 0 4))) account_db) ≠ 500000.
Proof. split; [vm_compute; reflexivity|vm_compute; congruence]. Qed.
