(* ===== verification/Confidential.v ===== *)
(** * Confidential transfers ([confidential_evaluator.cpp],
    [protocol/confidential.cpp])

    Amounts that only their owners know: an amount moves from an account
    behind commitments, between commitments, and back to an account.  The
    chain knows the total of each asset behind commitments and relies on the
    library for the sums. *)

From stdpp Require Import gmap strings list.
From Stdlib Require Import ZArith Znumtheory Lia.
From S2P Require Import Prelude Fc Config Authority Asset Objects Database Sample Balances Fees Fba WithdrawPermission Accounts.

Local Open Scope Z_scope.

(** ** Commitments ([fc::ecc]) *)

(** [blind], which throws for a number that is no blinding factor,
    [verify_sum( ins, outs, excess )] and the upper bound that
    [range_get_info] reads from the header of a range proof. *)
Class Pedersen := {
  blind : Z → Z → result Z;
  verify_sum : list Z → list Z → Z → bool;
  range_max_value : Z → result Z
}.

(** Commitments are points of a cyclic group of prime order: every point is a
    multiple of the generator, by its logarithm.  A commitment to [v] with the
    factor [b] is [b] times the generator and [v] times a second one, whose
    logarithm nobody should know; so the same commitment can be opened to any
    value by whoever knows it.  Sums of commitments are sums of points. *)
Class PedersenLaws (P : Pedersen) := {
  group_order : Z;
  log_of : Z → Z;
  second_generator : Z;
  group_order_prime : prime group_order;
  log_blind b v c : 0 <= v < 2 ^ 64 → blind b v = Ok c → log_of c mod group_order = (b + second_generator * v) mod group_order;
  verify_sum_logs ins outs e : verify_sum ins outs e = true →
    foldr Z.add 0 (log_of <$> ins) mod group_order =
    (foldr Z.add 0 (log_of <$> outs) + second_generator * e) mod group_order
}.

(** ** The operations *)

Record blind_input := mkBlindInput { bi_commitment : Z; bi_owner : authority }.
Record blind_output := mkBlindOutput {
  bout_commitment : Z;
  bout_range_proof : Z;
  bout_owner : authority
}.

Record transfer_to_blind_operation := mkToBlind {
  tb_fee : asset;
  tb_amount : asset;
  tb_from : Z;
  tb_blinding_factor : Z;
  tb_outputs : list blind_output
}.

Record transfer_from_blind_operation := mkFromBlind {
  fb_fee : asset;
  fb_amount : asset;
  fb_to : Z;
  fb_blinding_factor : Z;
  fb_inputs : list blind_input
}.

Record blind_transfer_operation := mkBlindTransfer {
  bt_fee : asset;
  bt_inputs : list blind_input;
  bt_outputs : list blind_output
}.

(** The comparison of every commitment with the one before it. *)
Fixpoint sorted_commitments (l : list Z) : bool :=
  match l with
  | x :: (y :: _) as l' => (x <? y) && sorted_commitments l'
  | _ => true
  end.

Section validation.
Context {P : Pedersen}.

(** Asked for when there is more than one output. *)
Definition range_proofs_validate (outputs : list blind_output) : result unit :=
  if (1 <? Z.of_nat (length outputs)) then
    rfold (λ _ out, let* m := range_max_value (bout_range_proof out) in
                    require (m <=? GRAPHENE_MAX_SHARE_SUPPLY) assert_exception) tt outputs
  else Ok tt.

Definition outputs_validate (outputs : list blind_output) : result unit :=
  FC_ASSERT (sorted_commitments (bout_commitment <$> outputs)) ;;
  require (forallb (λ out, negb (is_impossible (bout_owner out))) outputs) assert_exception.

Definition transfer_to_blind_validate (op : transfer_to_blind_operation) : result unit :=
  let out := bout_commitment <$> tb_outputs op in
  FC_ASSERT (0 <=? amount (tb_fee op)) ;;
  FC_ASSERT (0 <? amount (tb_amount op)) ;;
  let* _ := outputs_validate (tb_outputs op) in
  FC_ASSERT (negb (bool_decide (out = []))) ;;
  let* public_c := blind (tb_blinding_factor op) (wrap_u64 (amount (tb_amount op))) in
  FC_ASSERT (verify_sum [public_c] out 0) ;;
  range_proofs_validate (tb_outputs op).

(** The public amount is a plain sum of two [int64_t]. *)
Definition transfer_from_blind_validate (op : transfer_from_blind_operation) : result unit :=
  let ins := bi_commitment <$> fb_inputs op in
  FC_ASSERT (0 <? amount (fb_amount op)) ;;
  FC_ASSERT (0 <=? amount (fb_fee op)) ;;
  FC_ASSERT (negb (bool_decide (ins = []))) ;;
  FC_ASSERT (asset_id (fb_amount op) =? asset_id (fb_fee op)) ;;
  let net_public := amount (fb_fee op) + amount (fb_amount op) in
  let* _ := if in_int64 net_public then Ok tt else Throw undefined_behaviour in
  let* public_c := blind (fb_blinding_factor op) (wrap_u64 net_public) in
  FC_ASSERT (sorted_commitments ins) ;;
  require (verify_sum ins [public_c] 0) assert_exception.

(** The fee may be any number here; [prepare_fee] refuses negative ones. *)
Definition blind_transfer_validate (op : blind_transfer_operation) : result unit :=
  let ins := bi_commitment <$> bt_inputs op in
  let out := bout_commitment <$> bt_outputs op in
  FC_ASSERT (sorted_commitments ins) ;;
  let* _ := outputs_validate (bt_outputs op) in
  FC_ASSERT (negb (bool_decide (ins = []))) ;;
  FC_ASSERT (verify_sum ins out (amount (bt_fee op))) ;;
  range_proofs_validate (bt_outputs op).
End validation.

(** ** Blinded balances *)

(** The unique index [by_commitment]. *)
Definition commitment_clash (a b : blinded_balance_object) : bool := bb_commitment a =? bb_commitment b.

Definition db_blinded_balances (d : database) := gv_blinded_balances (db_governance d).

Definition find_commitment (d : database) (c : Z) : option (Z * blinded_balance_object) :=
  List.find (λ kv, bb_commitment kv.2 =? c) (map_to_list (objs (db_blinded_balances d))).

Definition create_blinded (aid : Z) (d : database) (out : blind_output) : result database :=
  let* (_, t) := index_create commitment_clash (db_blinded_balances d)
                   (mkBlinded (bout_commitment out) aid (bout_owner out)) in
  Ok (set_blinded_balances (λ _, t) d).

Definition remove_blinded (e : exn) (d : database) (i : blind_input) : result database :=
  let* (id, _) := of_option e (find_commitment d (bi_commitment i)) in
  let* t := index_remove (db_blinded_balances d) id in
  Ok (set_blinded_balances (λ _, t) d).

(** The input names a known commitment in the asset, with its owner. *)
Definition input_ok (unknown : exn) (d : database) (aid : Z) (i : blind_input) : result unit :=
  let* (_, b) := of_option unknown (find_commitment d (bi_commitment i)) in
  FC_ASSERT (bb_asset_id b =? aid) ;;
  require (bool_decide (bb_owner b = bi_owner i)) assert_exception.

Definition inputs_ok (unknown : exn) (d : database) (aid : Z) (l : list blind_input) : result unit :=
  rfold (λ _ i, input_ok unknown d aid i) tt l.

(** The accounts in the owners of the outputs exist. *)
Definition owners_exist (d : database) (outputs : list blind_output) : result unit :=
  rfold (λ _ out, rfold (λ _ kw, let* _ := get_account d kw.1 in Ok tt) tt
                    (account_auths (bout_owner out))) tt outputs.

Section evaluators.
Context {FC : FcArith}.

Definition set_confidential_supply : (Z → Z) → asset_dynamic_data_object → asset_dynamic_data_object :=
  ltac:(field_setter dyn_eta dd_confidential_supply).

Definition change_confidential_supply (d : database) (aid : Z) (f : Z → result Z) : result database :=
  let* a := get_asset_object d aid in
  modify_asset_dyn d (as_dynamic_asset_data_id a) (λ s,
    let* c := f (dd_confidential_supply s) in
    FC_ASSERT (0 <=? c) ;;
    Ok (set_confidential_supply (λ _, c) s)).

Definition transfer_to_blind_do_evaluate (d : database) (op : transfer_to_blind_operation) : result unit :=
  let* a := get_asset_object d (asset_id (tb_amount op)) in
  FC_ASSERT (Z.land (as_flags a) disable_confidential =? 0) ;;
  FC_ASSERT (negb (is_transfer_restricted a)) ;;
  FC_ASSERT (Z.land (as_flags a) white_list =? 0) ;;
  owners_exist d (tb_outputs op).

Definition transfer_to_blind_do_apply (d : database) (op : transfer_to_blind_operation) : result database :=
  let* n := asset_neg (tb_amount op) in
  let* d := adjust_balance d (tb_from op) n in
  let* d := change_confidential_supply d (asset_id (tb_amount op))
              (λ c, safe_add c (amount (tb_amount op))) in
  rfold (create_blinded (asset_id (tb_amount op))) d (tb_outputs op).

Definition transfer_from_blind_do_evaluate (d : database) (op : transfer_from_blind_operation) : result unit :=
  let* _ := get_asset_object d (asset_id (fb_fee op)) in
  inputs_ok assert_exception d (asset_id (fb_fee op)) (fb_inputs op).

(** The fee is paid into the temporary account, from which it is taken. *)
Definition transfer_from_blind_do_apply (d : database) (op : transfer_from_blind_operation) : result database :=
  let* d := adjust_balance d GRAPHENE_TEMP_ACCOUNT (fb_fee op) in
  let* d := adjust_balance d (fb_to op) (fb_amount op) in
  let* d := rfold (remove_blinded assert_exception) d (fb_inputs op) in
  change_confidential_supply d (asset_id (fb_amount op))
    (λ c, let* paid := safe_add (amount (fb_amount op)) (amount (fb_fee op)) in safe_sub c paid).

Definition blind_transfer_do_evaluate (d : database) (op : blind_transfer_operation) : result unit :=
  let* _ := get_asset_object d (asset_id (bt_fee op)) in
  let* _ := owners_exist d (bt_outputs op) in
  inputs_ok blind_transfer_unknown_commitment d (asset_id (bt_fee op)) (bt_inputs op).

Definition blind_transfer_do_apply (d : database) (op : blind_transfer_operation) : result database :=
  let* d := adjust_balance d GRAPHENE_TEMP_ACCOUNT (bt_fee op) in
  let* d := rfold (remove_blinded blind_transfer_unknown_commitment) d (bt_inputs op) in
  let* d := rfold (create_blinded (asset_id (bt_fee op))) d (bt_outputs op) in
  change_confidential_supply d (asset_id (bt_fee op)) (λ c, safe_sub c (amount (bt_fee op))).

#[export] Instance transfer_to_blind_evaluator : Evaluator transfer_to_blind_operation := {
  ev_state := unit; op_fee_payer := tb_from; op_fee := tb_fee;
  do_evaluate := transfer_to_blind_do_evaluate;
  do_apply := λ d op _, transfer_to_blind_do_apply d op
}.

#[export] Instance transfer_from_blind_evaluator : Evaluator transfer_from_blind_operation := {
  ev_state := unit; op_fee_payer := λ _, GRAPHENE_TEMP_ACCOUNT; op_fee := fb_fee;
  do_evaluate := transfer_from_blind_do_evaluate;
  do_apply := λ d op _, transfer_from_blind_do_apply d op
}.

#[export] Instance blind_transfer_evaluator : Evaluator blind_transfer_operation := {
  ev_state := unit; op_fee_payer := λ _, GRAPHENE_TEMP_ACCOUNT; op_fee := bt_fee;
  do_evaluate := blind_transfer_do_evaluate;
  do_apply := λ d op _, blind_transfer_do_apply d op
}.

(** ** Their fees *)

(** Once the accumulator is configured the fee goes there. *)
Definition pay_fba_fee (fba_id : Z) (skip_fee : bool) (g : generic_evaluator) (d : database) : result database :=
  let* fba := of_option unknown_object (db_fbas d !! fba_id) in
  let* configured := is_configured d fba in
  if configured then
    let* x := safe_add (fba_accumulated_fba_fees fba) (core_fee_paid g) in
    modify_fba d fba_id (set_accumulated_fba_fees x)
  else pay_fee skip_fee g d.

(** The three [pay_fee] overrides. *)
Definition confidential_pay_fee (fba_id : Z) (skip_fee : bool) (g : generic_evaluator) (d : database)
    : result database :=
  if HARDFORK_563_TIME <=? head_block_time d then pay_fba_fee fba_id skip_fee g d else pay_fee skip_fee g d.
End evaluators.

(** [evaluate] and [apply] with the overridden [pay_fee]. *)
Definition confidential_start `{FcArith} `{BoostArith} {Op} {E : Evaluator Op} (fba_id : Z)
    (skip_fee skip_check : bool) (required_fee : result Z) (d : database) (op : Op) : result database :=
  let* (g, st) := evaluate skip_check required_fee d op in
  let* d := convert_fee skip_fee g d in
  let* d := confidential_pay_fee fba_id skip_fee g d in
  let* d := do_apply d op st in
  let* n := asset_neg (fee_from_account g) in
  adjust_balance d (op_fee_payer op) n.

(** ** All three, with their validation and fees *)

Inductive confidential_operation :=
| op_to_blind (op : transfer_to_blind_operation)
| op_from_blind (op : transfer_from_blind_operation)
| op_blind (op : blind_transfer_operation).

Definition run_confidential `{FcArith} `{BoostArith} `{Pedersen} (required : result Z) (d : database)
    (o : confidential_operation) : result database :=
  match o with
  | op_to_blind op =>
      let* _ := transfer_to_blind_validate op in
      confidential_start fba_accumulator_id_transfer_to_blind false false required d op
  | op_from_blind op =>
      let* _ := transfer_from_blind_validate op in
      confidential_start fba_accumulator_id_transfer_from_blind false false required d op
  | op_blind op =>
      let* _ := blind_transfer_validate op in
      confidential_start fba_accumulator_id_blind_transfer false false required d op
  end.

(** ** Conservation *)

Section conservation.
Context {FC : FcArith} {FCL : FcArithLaws FC} {BA : BoostArith}.

Lemma change_confidential_ok d aid f d' : change_confidential_supply d aid f = Ok d' →
  ∃ a s c, db_assets d !! aid = Some a ∧ db_asset_dyn d !! as_dynamic_asset_data_id a = Some s ∧
    f (dd_confidential_supply s) = Ok c ∧ 0 <= c ∧
    d' = set_asset_dyn (<[as_dynamic_asset_data_id a := set_confidential_supply (λ _, c) s]>) d ∧
    moves d d' (λ i, amount_of i (mkAsset (c - dd_confidential_supply s) aid)).
Proof.
  unfold change_confidential_supply, get_asset_object. intros H.
  apply rbind_ok in H as (a & Ha%of_option_ok & H). exists a.
  apply (moves_modify_asset_dyn _ _ _ _ _ Ha) in H as (s & s' & Hs & Hf & -> & M).
  apply rbind_ok in Hf as (c & Hc & Hf). apply rbind_ok in Hf as ([] & Hle%require_ok%Z.leb_le & [= <-]).
  exists s, c. split_and!; try done. eapply moves_ext; [exact M|]. delta_solve.
Qed.

Lemma create_blinded_moves aid d out d' : create_blinded aid d out = Ok d' → conserves d d'.
Proof. intros H. unfold create_blinded in H. apply rbind_ok in H as ([id t] & _ & [= <-]). apply moves_set_governance. Qed.

Lemma remove_blinded_moves e d i d' : remove_blinded e d i = Ok d' → conserves d d'.
Proof.
  intros H. unfold remove_blinded in H. apply rbind_ok in H as ([id b] & _ & H).
  apply rbind_ok in H as (t & _ & [= <-]). apply moves_set_governance.
Qed.

Lemma rfold_conserves {A} (f : database → A → result database) l d d' :
  (∀ d x d', f d x = Ok d' → conserves d d') → rfold f d l = Ok d' → conserves d d'.
Proof.
  intros Hf H. apply (rfold_invariant _ conserves) in H; [done|apply moves_refl| |eauto].
  intros a b c H1 H2. by eapply moves_conserves_l.
Qed.

#[export] Instance transfer_to_blind_conserves : EvaluatorConserves transfer_to_blind_operation.
Proof.
  intros d0 d op st d' _ H. simpl in H. unfold transfer_to_blind_do_apply in H.
  apply rbind_ok in H as (n & ->%asset_neg_ok & H). apply rbind_ok in H as (d1 & M1%adjust_balance_moves & H).
  apply rbind_ok in H as (d2 & (a & s & c & _ & _ & Hc & _ & _ & M2)%change_confidential_ok & H).
  apply rfold_conserves in H; [|apply create_blinded_moves]. apply safe_add_ok in Hc as [-> _].
  eapply moves_ext; [eapply moves_trans; [exact M1|eapply moves_conserves_r; [exact M2|exact H]]|]. delta_solve.
Qed.

(** The amounts and the fee are in the same asset, as validation sees to. *)
Lemma transfer_from_blind_moves d op d' : asset_id (fb_amount op) = asset_id (fb_fee op) →
  transfer_from_blind_do_apply d op = Ok d' → conserves d d'.
Proof.
  intros E H. unfold transfer_from_blind_do_apply in H.
  apply rbind_ok in H as (d1 & M1%adjust_balance_moves & H). apply rbind_ok in H as (d2 & M2%adjust_balance_moves & H).
  apply rbind_ok in H as (d3 & H3 & H). apply rfold_conserves in H3; [|apply remove_blinded_moves].
  apply change_confidential_ok in H as (a & s & c & _ & _ & Hc & _ & _ & M4).
  apply rbind_ok in Hc as (x & [-> _]%safe_add_ok & [-> _]%safe_sub_ok).
  eapply moves_ext; [eapply moves_trans; [exact M1|eapply moves_trans; [exact M2|eapply moves_conserves_l; [exact H3|exact M4]]]|].
  intros aid. unfold amount_of. simpl. rewrite E. repeat case_match; lia.
Qed.

#[export] Instance blind_transfer_conserves : EvaluatorConserves blind_transfer_operation.
Proof.
  intros d0 d op st d' _ H. simpl in H. unfold blind_transfer_do_apply in H.
  apply rbind_ok in H as (d1 & M1%adjust_balance_moves & H).
  apply rbind_ok in H as (d2 & H2 & H). apply rfold_conserves in H2; [|apply remove_blinded_moves].
  apply rbind_ok in H as (d3 & H3 & H). apply rfold_conserves in H3; [|apply create_blinded_moves].
  apply change_confidential_ok in H as (a & s & c & _ & _ & [-> _]%safe_sub_ok & _ & _ & M4).
  eapply moves_ext; [eapply moves_trans; [exact M1|eapply moves_conserves_l; [exact H2|eapply moves_conserves_l; [exact H3|exact M4]]]|].
  delta_solve.
Qed.

(** Wherever the fee goes, it is there. *)
Lemma pay_fee_moves g d d' : pay_fee false g d = Ok d' → moves d d' (core_delta (core_fee_paid g)).
Proof.
  intros H. unfold pay_fee in H. apply moves_modify_statistics in H as (s & s' & _ & Hs & _ & M).
  apply statistics_pay_fee_ok in Hs. eapply moves_ext; [exact M|]. intros aid. f_equal. lia.
Qed.

Lemma confidential_pay_fee_moves fba g d d' : confidential_pay_fee fba false g d = Ok d' →
  moves d d' (core_delta (core_fee_paid g)).
Proof.
  unfold confidential_pay_fee. intros H. case_in H; [|by apply pay_fee_moves].
  unfold pay_fba_fee in H. apply rbind_ok in H as (f & Hf%of_option_ok & H). apply rbind_ok in H as (c & _ & H).
  destruct c; [|by apply pay_fee_moves].
  apply rbind_ok in H as (x & [-> _]%safe_add_ok & H). unfold modify_fba in H. rewrite Hf in H. injection H as <-.
  apply moves_intro; [done..|]. intros aid. rewrite imbalance_set_fbas. f_equal. f_equal.
  unfold held_fbas. rewrite msum_insert, Hf. simpl. lia.
Qed.

Lemma fee_conversion_moves d0 d d1 payer fee g :
  prepare_fee d0 payer fee = Ok g → db_assets d = db_assets d0 → convert_fee false g d = Ok d1 →
  moves d d1 (λ aid, amount_of aid fee - core_delta (core_fee_paid g) aid).
Proof.
  intros (<- & Hi & _ & (fa & Hfa & Hdyn) & Hcore)%prepare_fee_ok Ea Hc.
  unfold convert_fee in Hc. rewrite Hi in Hc. rewrite <- Ea in Hfa.
  destruct (Z.eqb_spec (asset_id (fee_from_account g)) core_id) as [E|E]; simpl in Hc.
  - injection Hc as <-. eapply moves_ext; [apply moves_refl|]. intros aid. rewrite (Hcore E).
    unfold core_delta, amount_of, core_asset. cbn [asset_id amount]. rewrite E. lia.
  - rewrite Hdyn in Hc. eapply moves_modify_asset_dyn in Hc as (s & s' & _ & Hs & _ & M); [|done].
    apply rbind_ok in Hs as (x & [-> _]%safe_add_ok & Hs). apply rbind_ok in Hs as (y & [-> _]%safe_sub_ok & [= <-]).
    eapply moves_ext; [exact M|]. delta_solve.
Qed.

Lemma confidential_start_ok {Op} {E : Evaluator Op} fba required d (op : Op) d' :
  confidential_start fba false false required d op = Ok d' →
  ∃ g st d0 d1 d2, prepare_fee d (op_fee_payer op) (op_fee op) = Ok g ∧
    do_evaluate d op = Ok st ∧ convert_fee false g d = Ok d0 ∧ confidential_pay_fee fba false g d0 = Ok d1 ∧
    do_apply d1 op st = Ok d2 ∧
    adjust_balance d2 (op_fee_payer op) (mkAsset (- amount (op_fee op)) (asset_id (op_fee op))) = Ok d'.
Proof.
  unfold confidential_start, evaluate. intros H. apply rbind_ok in H as ([g st] & Hev & H).
  apply rbind_ok in Hev as (g' & Hprep & Hev). apply rbind_ok in Hev as (u & _ & Hev).
  apply rbind_ok in Hev as (st' & Hst & Hev). injection Hev as -> ->.
  apply rbind_ok in H as (d0 & Hc & H). apply rbind_ok in H as (d1 & Hp & H).
  apply rbind_ok in H as (d2 & Ha & H). apply rbind_ok in H as (n & Hn & H).
  apply asset_neg_ok in Hn as ->. pose proof (prepare_fee_ok _ _ _ _ Hprep) as (Hf & _). rewrite Hf in H.
  by exists g, st, d0, d1, d2.
Qed.

Lemma confidential_start_conserves {Op} {E : Evaluator Op} fba required d (op : Op) d' :
  (∀ st d1 d2, do_evaluate d op = Ok st → do_apply d1 op st = Ok d2 → conserves d1 d2) →
  confidential_start fba false false required d op = Ok d' → conserves d d'.
Proof.
  intros Hop (g & st & d0 & d1 & d2 & Hg & He & Hc & Hp%confidential_pay_fee_moves & Ha & Hd%adjust_balance_moves)%confidential_start_ok.
  apply (fee_conversion_moves _ _ _ _ _ _ Hg eq_refl) in Hc. apply (Hop _ _ _ He) in Ha.
  eapply moves_ext; [eapply moves_trans; [exact Hc|eapply moves_trans; [exact Hp|eapply moves_conserves_l; [exact Ha|exact Hd]]]|].
  intros aid. simpl. unfold amount_of. simpl. repeat case_match; lia.
Qed.
End conservation.

(** ** What is behind the commitments *)

Section backing.
Context {FC : FcArith} {FCL : FcArithLaws FC} {BA : BoostArith} {P : Pedersen} {PL : PedersenLaws P}.

Definition sum_of (l : list Z) : Z := foldr Z.add 0 (log_of <$> l).

Lemma sum_of_cons c l : sum_of (c :: l) = log_of c + sum_of l.
Proof. done. Qed.

Definition blinded_in (aid : Z) (b : blinded_balance_object) : Z :=
  if bb_asset_id b =? aid then log_of (bb_commitment b) else 0.
Definition blinded_total (aid : Z) (m : gmap Z blinded_balance_object) : Z := msum (λ _, blinded_in aid) m.

Definition commitments_unique (m : gmap Z blinded_balance_object) : Prop :=
  ∀ i j a b, m !! i = Some a → m !! j = Some b → bb_commitment a = bb_commitment b → i = j.

(** The commitments in an asset add up to one commitment to the recorded
    supply; [factors] is its blinding factor, the sum of those that were
    published. *)
Definition confidential_backed (factors : Z → Z) (d : database) : Prop :=
  commitments_unique (objs (db_blinded_balances d)) ∧
  ∀ aid s, dyn_of aid (db_assets d) (db_asset_dyn d) = Some s →
    blinded_total aid (objs (db_blinded_balances d)) mod group_order =
    (factors aid + second_generator * dd_confidential_supply s) mod group_order.

(** The blinding factor that an operation publishes. *)
Definition published (o : confidential_operation) (aid : Z) : Z :=
  match o with
  | op_to_blind op => if asset_id (tb_amount op) =? aid then tb_blinding_factor op else 0
  | op_from_blind op => if asset_id (fb_amount op) =? aid then - fb_blinding_factor op else 0
  | op_blind _ => 0
  end.

(** The owners of the commitments in [aid] tell factors and values. *)
Definition opened_by (openings : Z → Z * Z) (aid : Z) (d : database) : Prop :=
  ∀ id b, objs (db_blinded_balances d) !! id = Some b → bb_asset_id b = aid →
    0 <= (openings id).2 < 2 ^ 64 ∧ blind (openings id).1 (openings id).2 = Ok (bb_commitment b).
Definition opened_total (f : Z → Z) (aid : Z) (d : database) : Z :=
  msum (λ id b, if bb_asset_id b =? aid then f id else 0) (objs (db_blinded_balances d)).

Lemma find_commitment_some d c id b : find_commitment d c = Some (id, b) →
  objs (db_blinded_balances d) !! id = Some b ∧ bb_commitment b = c.
Proof.
  unfold find_commitment. intros [Hin Hc]%List.find_some. simpl in Hc. apply Z.eqb_eq in Hc.
  split; [|done]. apply elem_of_map_to_list. by apply list_elem_of_In.
Qed.

(** New blinded balances of [aid] for the commitments [l]. *)
Definition blinded_more (aid : Z) (l : list Z) (d d' : database) : Prop :=
  (∃ t, d' = set_blinded_balances (λ _, t) d) ∧
  (commitments_unique (objs (db_blinded_balances d)) → commitments_unique (objs (db_blinded_balances d'))) ∧
  ∀ i, blinded_total i (objs (db_blinded_balances d')) =
       blinded_total i (objs (db_blinded_balances d)) + (if aid =? i then sum_of l else 0).

Lemma blinded_same d d' l aid : d' = d → sum_of l = 0 → blinded_more aid l d d'.
Proof.
  intros -> Hl. split; [|split; [done|]].
  - exists (db_blinded_balances d). destruct d as []. unfold set_blinded_balances, set_governance, db_blinded_balances. simpl. by destruct db_governance.
  - intros i. rewrite Hl. case_match; lia.
Qed.

Lemma create_blinded_ok aid d out d' : create_blinded aid d out = Ok d' → blinded_more aid [bout_commitment out] d d'.
Proof.
  intros H. unfold create_blinded in H. apply rbind_ok in H as ([id t] & H & [= <-]).
  apply index_create_ok in H as (_ & Hid & Hc & ->).
  split; [eauto|]. cbn. split.
  - intros Hu i j a b. rewrite !lookup_insert_Some. intros [[<- <-]|[Hi Ha]] [[<- <-]|[Hj Hb]] E; [done| | |by eapply Hu].
    + apply (clashes_false _ _ _ Hc) in Hb. unfold commitment_clash in Hb. apply Z.eqb_neq in Hb. simpl in *. congruence.
    + apply (clashes_false _ _ _ Hc) in Ha. unfold commitment_clash in Ha. apply Z.eqb_neq in Ha. simpl in *. congruence.
  - intros i. unfold blinded_total. rewrite msum_insert_new by done. unfold blinded_in, sum_of. simpl.
    case_match; lia.
Qed.

Lemma blinded_more_trans aid l l' d d1 d2 :
  blinded_more aid l d d1 → blinded_more aid l' d1 d2 → blinded_more aid (l ++ l') d d2.
Proof.
  intros ([t ->] & U1 & T1) ([t' ->] & U2 & T2). split; [eauto|]. split; [auto|].
  intros i. rewrite T2, T1. unfold sum_of. rewrite fmap_app, foldr_app. case_match; [|lia].
  clear. induction (log_of <$> l) as [|x m IH]; simpl; lia.
Qed.

Lemma create_outputs_ok aid outs d d' : rfold (create_blinded aid) d outs = Ok d' →
  blinded_more aid (bout_commitment <$> outs) d d'.
Proof.
  revert d. induction outs as [|out outs IH]; intros d H; simpl in H.
  - injection H as <-. by apply blinded_same.
  - apply rbind_ok in H as (d1 & H1%create_blinded_ok & H). rewrite fmap_cons.
    exact (blinded_more_trans _ [_] _ _ _ _ H1 (IH _ H)).
Qed.

(** The balance of [c], if there is one, is in [aid]. *)
Definition committed_in (aid : Z) (m : gmap Z blinded_balance_object) (c : Z) : Prop :=
  ∀ id b, m !! id = Some b → bb_commitment b = c → bb_asset_id b = aid.

Lemma inputs_committed e d aid l : commitments_unique (objs (db_blinded_balances d)) →
  inputs_ok e d aid l = Ok tt → Forall (committed_in aid (objs (db_blinded_balances d))) (bi_commitment <$> l).
Proof.
  intros Hu H. apply rfold_each in H. induction H as [|i l Hi _ IH]; [constructor|]. rewrite fmap_cons.
  constructor; [|exact IH]. unfold input_ok in Hi. apply rbind_ok in Hi as ([id b] & Hf%of_option_ok & Hi).
  apply find_commitment_some in Hf as [Hb Ec]. apply rbind_ok in Hi as ([] & Ha%require_ok%Z.eqb_eq & _).
  intros id' b' Hb' Ec'. assert (id' = id) as -> by (eapply Hu; [done..|by rewrite Ec, Ec']).
  rewrite Hb in Hb'. by injection Hb' as <-.
Qed.

(** The same, less. *)
Definition blinded_less (aid : Z) (l : list Z) (d d' : database) : Prop :=
  (∃ t, d' = set_blinded_balances (λ _, t) d) ∧
  objs (db_blinded_balances d') ⊆ objs (db_blinded_balances d) ∧
  ∀ i, blinded_total i (objs (db_blinded_balances d')) =
       blinded_total i (objs (db_blinded_balances d)) - (if aid =? i then sum_of l else 0).

Lemma remove_blinded_ok e aid d i d' : committed_in aid (objs (db_blinded_balances d)) (bi_commitment i) →
  remove_blinded e d i = Ok d' → blinded_less aid [bi_commitment i] d d'.
Proof.
  intros Hin H. unfold remove_blinded in H. apply rbind_ok in H as ([id b] & Hf%of_option_ok & H).
  apply find_commitment_some in Hf as [Hb Ec]. apply rbind_ok in H as (t & Ht & [= <-]).
  apply index_remove_ok in Ht as [_ ->]. split; [eauto|]. cbn. split; [apply delete_subseteq|].
  intros j. unfold blinded_total. rewrite (msum_delete _ _ _ _ Hb).
  specialize (Hin _ _ Hb Ec). unfold blinded_in at 2, sum_of. rewrite Hin, Ec. simpl. case_match; lia.
Qed.

Lemma committed_in_subseteq aid m m' c : m' ⊆ m → committed_in aid m c → committed_in aid m' c.
Proof. intros Hs H id b Hb. apply H with id. by eapply lookup_weaken. Qed.

Lemma remove_inputs_ok e aid l d d' : Forall (committed_in aid (objs (db_blinded_balances d))) (bi_commitment <$> l) →
  rfold (remove_blinded e) d l = Ok d' → blinded_less aid (bi_commitment <$> l) d d'.
Proof.
  revert d. induction l as [|i l IH]; intros d Hin H; simpl in H.
  - injection H as <-. destruct (blinded_same d d [] aid eq_refl eq_refl) as (Ht & _ & E).
    split; [done|]. split; [done|]. intros j. rewrite E. unfold sum_of. simpl. case_match; lia.
  - rewrite fmap_cons in Hin. apply Forall_cons in Hin as [Hi Hl]. apply rbind_ok in H as (d1 & H1 & H).
    apply (remove_blinded_ok _ _ _ _ _ Hi) in H1 as ([t ->] & Hs & E1).
    apply IH in H as ([t' ->] & Hs' & E2).
    + split; [eauto|]. split; [by etrans|]. intros j. rewrite E2, E1, fmap_cons, !sum_of_cons. unfold sum_of at 1. simpl.
      case_match; lia.
    + eapply Forall_impl; [exact Hl|]. intros c Hc. by eapply committed_in_subseteq.
Qed.

(** What balances and fees leave as it was. *)
Definition same_confidential (d d' : database) : Prop :=
  db_blinded_balances d' = db_blinded_balances d ∧ db_assets d' = db_assets d ∧
  ∀ i, dd_confidential_supply <$> db_asset_dyn d' !! i = dd_confidential_supply <$> db_asset_dyn d !! i.

Lemma same_confidential_trans d1 d2 d3 : same_confidential d1 d2 → same_confidential d2 d3 → same_confidential d1 d3.
Proof. intros (A1 & B1 & C1) (A2 & B2 & C2). split_and!; [congruence..|]. intros i. by rewrite C2, C1. Qed.

Lemma adjust_balance_confidential d acct delta d' : adjust_balance d acct delta = Ok d' → same_confidential d d'.
Proof. by intros [m ->]%adjust_balance_frame. Qed.

Lemma convert_fee_confidential g d d' : convert_fee false g d = Ok d' → same_confidential d d'.
Proof.
  unfold convert_fee, modify_asset_dyn. intros H. case_in H; [|by injection H as <-].
  apply rbind_ok in H as (s & Hs%of_option_ok & H). apply rbind_ok in H as (s' & Hs' & [= <-]).
  apply rbind_ok in Hs' as (x & _ & Hs'). apply rbind_ok in Hs' as (y & _ & [= <-]).
  split; [done|]. split; [done|]. intros i. cbn.
  destruct (decide (fee_asset_dyn_data g = i)) as [<-|]; [by rewrite lookup_insert_eq, Hs|by rewrite lookup_insert_ne].
Qed.

Lemma pay_fee_confidential fba g d d' : confidential_pay_fee fba false g d = Ok d' → same_confidential d d'.
Proof.
  assert (∀ d', pay_fee false g d = Ok d' → same_confidential d d') as Hp.
  { intros e H. unfold pay_fee, modify_statistics in H. by ok_inv. }
  unfold confidential_pay_fee. intros H. case_in H; [|by apply Hp].
  unfold pay_fba_fee, modify_fba in H. apply rbind_ok in H as (f & _ & H). apply rbind_ok in H as ([] & _ & H); [|by apply Hp].
  by ok_inv.
Qed.

Lemma backed_same B d d' : same_confidential d d' → confidential_backed B d → confidential_backed B d'.
Proof.
  intros (Eb & Ea & Es) [Hu Ht]. unfold confidential_backed. rewrite Eb. split; [done|]. intros aid s.
  unfold dyn_of. rewrite Ea. destruct (db_assets d !! aid) as [a|] eqn:Ha; simpl; [|done]. intros Hs.
  pose proof (Es (as_dynamic_asset_data_id a)) as E. rewrite Hs in E. simpl in E. symmetry in E.
  apply fmap_Some in E as (s0 & Hs0 & ->). apply Ht. unfold dyn_of. by rewrite Ha.
Qed.

(** The commitments of [aid] change by a commitment to the change of the
    supply. *)
Lemma backed_step B d d' aid a s c delta factor :
  assets_wf d → confidential_backed B d → db_assets d !! aid = Some a →
  db_asset_dyn d !! as_dynamic_asset_data_id a = Some s → c = dd_confidential_supply s + delta →
  db_assets d' = db_assets d →
  db_asset_dyn d' = <[as_dynamic_asset_data_id a := set_confidential_supply (λ _, c) s]> (db_asset_dyn d) →
  commitments_unique (objs (db_blinded_balances d')) →
  (∀ i, blinded_total i (objs (db_blinded_balances d')) mod group_order =
     (blinded_total i (objs (db_blinded_balances d)) +
      if aid =? i then factor + second_generator * delta else 0) mod group_order) →
  confidential_backed (λ i, B i + if aid =? i then factor else 0) d'.
Proof.
  intros (W & _) [_ Ht] Ha Hs -> Ea Ed Hu Hd. split; [exact Hu|].
  intros i s'. unfold dyn_of. rewrite Ea, Ed, Hd. intros Hs'.
  destruct (db_assets d !! i) as [b|] eqn:Hb; [|done]. simpl in Hs'.
  destruct (Z.eqb_spec aid i) as [->|Hne].
  - rewrite Ha in Hb. injection Hb as <-. rewrite lookup_insert_eq in Hs'. injection Hs' as <-. simpl.
    rewrite <- Zplus_mod_idemp_l, (Ht i s), Zplus_mod_idemp_l; [f_equal; ring|]. unfold dyn_of. by rewrite Ha.
  - rewrite lookup_insert_ne in Hs' by (intros E; apply Hne; by eapply W). rewrite !Z.add_0_r. apply Ht.
    unfold dyn_of. by rewrite Hb.
Qed.

Lemma backed_ext B B' d : (∀ i, B' i = B i) → confidential_backed B d → confidential_backed B' d.
Proof. intros E [Hu Ht]. split; [done|]. intros aid s Hs. rewrite E. by apply Ht. Qed.

Lemma mod_add_l a b c : a mod group_order = b mod group_order → (c + a) mod group_order = (c + b) mod group_order.
Proof. intros E. by rewrite <- Zplus_mod_idemp_r, E, Zplus_mod_idemp_r. Qed.

(** What validation says of the points. *)
Lemma to_blind_values op : transfer_to_blind_validate op = Ok tt → amount (tb_amount op) < 2 ^ 64 →
  sum_of (bout_commitment <$> tb_outputs op) mod group_order =
  (tb_blinding_factor op + second_generator * amount (tb_amount op)) mod group_order.
Proof.
  unfold transfer_to_blind_validate. cbn zeta. intros Hv Hx. apply rbind_ok in Hv as ([] & _ & Hv).
  apply rbind_ok in Hv as ([] & Hpos%require_ok%Z.ltb_lt & Hv).
  apply rbind_ok in Hv as ([] & _ & Hv). apply rbind_ok in Hv as ([] & _ & Hv).
  apply rbind_ok in Hv as (c & Hc & Hv). apply rbind_ok in Hv as ([] & E%require_ok%verify_sum_logs & _).
  fold (sum_of (bout_commitment <$> tb_outputs op)) in E. rewrite Z.mul_0_r, Z.add_0_r in E. rewrite <- E. simpl.
  rewrite wrap_u64_small in Hc by lia. rewrite Z.add_0_r. apply log_blind; [lia|done].
Qed.

Lemma from_blind_values op : transfer_from_blind_validate op = Ok tt →
  asset_id (fb_amount op) = asset_id (fb_fee op) ∧
  sum_of (bi_commitment <$> fb_inputs op) mod group_order =
  (fb_blinding_factor op + second_generator * (amount (fb_amount op) + amount (fb_fee op))) mod group_order.
Proof.
  unfold transfer_from_blind_validate. cbn zeta. intros Hv. apply rbind_ok in Hv as ([] & Ha1%require_ok%Z.ltb_lt & Hv).
  apply rbind_ok in Hv as ([] & Ha2%require_ok%Z.leb_le & Hv). apply rbind_ok in Hv as ([] & _ & Hv).
  apply rbind_ok in Hv as ([] & Eaid%require_ok%Z.eqb_eq & Hv). apply rbind_ok in Hv as ([] & Hr & Hv).
  apply rbind_ok in Hv as (c & Hc & Hv). apply rbind_ok in Hv as ([] & _ & E%require_ok%verify_sum_logs). split; [done|].
  fold (sum_of (bi_commitment <$> fb_inputs op)) in E. rewrite Z.mul_0_r, Z.add_0_r in E. simpl in E. rewrite E.
  case_in Hr; [|done]. unfold in_int64 in *. b2p.
  rewrite wrap_u64_small in Hc by lia. rewrite Z.add_0_r. apply log_blind in Hc; [|lia].
  rewrite Hc. f_equal. ring.
Qed.

Lemma blind_values op : blind_transfer_validate op = Ok tt →
  sum_of (bi_commitment <$> bt_inputs op) mod group_order =
  (sum_of (bout_commitment <$> bt_outputs op) + second_generator * amount (bt_fee op)) mod group_order.
Proof.
  unfold blind_transfer_validate. cbn zeta. intros Hv. apply rbind_ok in Hv as ([] & _ & Hv).
  apply rbind_ok in Hv as ([] & _ & Hv). apply rbind_ok in Hv as ([] & _ & Hv).
  by apply rbind_ok in Hv as ([] & E%require_ok%verify_sum_logs & _).
Qed.

Lemma transfer_to_blind_backed B d op d' : assets_wf d → confidential_backed B d → transfer_to_blind_validate op = Ok tt →
  transfer_to_blind_do_apply d op = Ok d' → confidential_backed (λ i, B i + published (op_to_blind op) i) d'.
Proof.
  intros Hwf Hb Hv H. unfold transfer_to_blind_do_apply in H. apply rbind_ok in H as (n & Hn & H).
  apply rbind_ok in H as (d1 & H1 & H). pose proof (adjust_balance_confidential _ _ _ _ H1) as S1.
  destruct (adjust_balance_moves _ _ _ _ H1 Hwf) as [W1 _]. apply (backed_same _ _ _ S1) in Hb.
  apply rbind_ok in H as (d2 & (a & s & c & Ha & Hs & [-> _]%safe_add_ok & _ & -> & _)%change_confidential_ok & H).
  apply create_outputs_ok in H as ([t ->] & U & T).
  eapply (backed_step B d1 _ _ _ _ _ _ _ W1 Hb Ha Hs); [reflexivity|done|done|exact (U (proj1 Hb))|].
  intros i. rewrite T. apply mod_add_l. destruct (_ =? i); [|done].
  apply to_blind_values; [done|]. unfold asset_neg in Hn. apply rbind_ok in Hn as (x & [_ Hx]%safe_neg_ok & _). lia.
Qed.

Lemma mod_opp a b : a mod group_order = b mod group_order → (- a) mod group_order = (- b) mod group_order.
Proof. intros E. rewrite <- !Z.sub_0_l, <- Zminus_mod_idemp_r, E, Zminus_mod_idemp_r. done. Qed.

Lemma transfer_from_blind_backed B d0 d op d' : assets_wf d → confidential_backed B d →
  transfer_from_blind_validate op = Ok tt → transfer_from_blind_do_evaluate d0 op = Ok tt →
  db_blinded_balances d = db_blinded_balances d0 → transfer_from_blind_do_apply d op = Ok d' →
  confidential_backed (λ i, B i + published (op_from_blind op) i) d'.
Proof.
  intros Hwf Hb [Eaid Ev]%from_blind_values He Eb H. unfold transfer_from_blind_do_apply in H.
  apply rbind_ok in H as (d1 & H1 & H). pose proof (adjust_balance_confidential _ _ _ _ H1) as S1.
  destruct (adjust_balance_moves _ _ _ _ H1 Hwf) as [W1 _].
  apply rbind_ok in H as (d2 & H2 & H). pose proof (adjust_balance_confidential _ _ _ _ H2) as S2.
  destruct (adjust_balance_moves _ _ _ _ H2 W1) as [W2 _]. pose proof (same_confidential_trans _ _ _ S1 S2) as S.
  apply (backed_same _ _ _ S) in Hb. destruct S as (E2 & _ & _).
  apply rbind_ok in H as (d3 & H3 & H). apply rbind_ok in He as (? & _ & He).
  apply remove_inputs_ok with (aid := asset_id (fb_fee op)) in H3 as ([t ->] & Hs & T);
    [|rewrite E2, Eb; apply inputs_committed with assert_exception; [rewrite <- Eb, <- E2; apply Hb|done]].
  apply change_confidential_ok in H as (a & s & c & Ha & Hd & Hc & _ & -> & _).
  apply rbind_ok in Hc as (paid & [-> _]%safe_add_ok & [-> _]%safe_sub_ok).
  eapply (backed_step B d2 _ _ _ _ _ (- (amount (fb_amount op) + amount (fb_fee op))) (- fb_blinding_factor op) W2 Hb Ha Hd);
    [reflexivity|done|reflexivity| |].
  - intros i j y z Hy Hz. eapply Hb; eapply lookup_weaken; eauto.
  - intros i. cbn in T |- *. rewrite T, Eaid, <- Z.add_opp_r. apply mod_add_l. destruct (_ =? i); [|done].
    apply mod_opp in Ev. rewrite Ev. f_equal. ring.
Qed.

Lemma blind_transfer_backed B d0 d op d' : assets_wf d → confidential_backed B d →
  blind_transfer_validate op = Ok tt → blind_transfer_do_evaluate d0 op = Ok tt →
  db_blinded_balances d = db_blinded_balances d0 → blind_transfer_do_apply d op = Ok d' →
  confidential_backed (λ i, B i + published (op_blind op) i) d'.
Proof.
  intros Hwf Hb Ev%blind_values He Eb H. unfold blind_transfer_do_apply in H.
  apply rbind_ok in H as (d1 & H1 & H). pose proof (adjust_balance_confidential _ _ _ _ H1) as S1.
  destruct (adjust_balance_moves _ _ _ _ H1 Hwf) as [W1 _]. apply (backed_same _ _ _ S1) in Hb.
  destruct S1 as (E1 & _ & _). apply rbind_ok in He as (? & _ & He). apply rbind_ok in He as (? & _ & He).
  apply rbind_ok in H as (d2 & H2 & H). apply rbind_ok in H as (d3 & H3 & H).
  apply remove_inputs_ok with (aid := asset_id (bt_fee op)) in H2 as ([t ->] & Hs & T);
    [|rewrite E1, Eb; eapply inputs_committed; [rewrite <- Eb, <- E1; apply Hb|exact He]].
  apply create_outputs_ok in H3 as ([t' ->] & U & T').
  apply change_confidential_ok in H as (a & s & c & Ha & Hd & [-> _]%safe_sub_ok & _ & -> & _).
  eapply backed_ext; [|eapply (backed_step B d1 _ _ _ _ _ (- amount (bt_fee op)) 0 W1 Hb Ha Hd); [reflexivity|done|reflexivity| |]].
  - intros i. simpl. case_match; lia.
  - apply U. intros i j y z Hy Hz. eapply Hb; eapply lookup_weaken; eauto.
  - intros i. cbn in T, T' |- *. rewrite T', T, <- Z.add_opp_r, <- Z.add_assoc. apply mod_add_l. destruct (_ =? i); [|done].
    rewrite <- Zplus_mod_idemp_l, (mod_opp _ _ Ev), Zplus_mod_idemp_l. f_equal. ring.
Qed.

(** Openings of all commitments in an asset add up to an opening of the sum. *)
Lemma opened_log openings aid d : opened_by openings aid d →
  blinded_total aid (objs (db_blinded_balances d)) mod group_order =
  (opened_total (λ id, (openings id).1) aid d + second_generator * opened_total (λ id, (openings id).2) aid d) mod group_order.
Proof.
  unfold opened_by, blinded_total, opened_total. generalize (objs (db_blinded_balances d)). intros m.
  induction m as [|id b m Hid IH] using map_ind; intros Ho; [by rewrite !msum_empty, Z.mul_0_r|].
  rewrite !msum_insert_new by done. unfold blinded_in at 1.
  assert (∀ i c, m !! i = Some c → bb_asset_id c = aid → 0 <= (openings i).2 < 2 ^ 64 ∧
    blind (openings i).1 (openings i).2 = Ok (bb_commitment c)) as Hm.
  { intros i c Hi. apply Ho. rewrite lookup_insert_ne; [done|]. congruence. }
  specialize (IH Hm). destruct (Z.eqb_spec (bb_asset_id b) aid) as [E|E].
  - destruct (Ho id b) as [Hr Hb]; [apply lookup_insert_eq|done|]. apply log_blind in Hb; [|done].
    rewrite Zplus_mod, Hb, IH, <- Zplus_mod. f_equal. ring.
  - rewrite !Z.add_0_l. exact IH.
Qed.

(** Two openings of the sum with different values give the logarithm of the
    second generator away. *)
Lemma generator_found a v b s : (a + second_generator * v) mod group_order = (b + second_generator * s) mod group_order →
  0 <= v < group_order → 0 <= s < group_order → v ≠ s →
  ∃ k, (k * (v - s)) mod group_order = 1 ∧ second_generator mod group_order = (k * (b - a)) mod group_order.
Proof.
  intros E Hv Hs Hne. pose proof group_order_prime as Hp. pose proof (prime_ge_2 _ Hp) as H2.
  assert (rel_prime (v - s) group_order) as Hrel.
  { apply rel_prime_sym, prime_rel_prime; [done|]. intros [q Hq]. assert (q = 0) as -> by nia. lia. }
  apply rel_prime_bezout in Hrel as [k m Hk]. exists k.
  assert ((k * (v - s)) mod group_order = 1) as Hk1.
  { replace (k * (v - s)) with (1 + (- m) * group_order) by lia. rewrite Z_mod_plus_full. apply Z.mod_small. lia. }
  split; [done|]. apply Z.cong_iff_0 in E. apply Z.cong_iff_0.
  apply Z.mod_divide in E; [|lia]. destruct E as [q Hq]. apply Z.mod_divide; [lia|].
  exists (second_generator * m + k * q).
  replace (second_generator - k * (b - a)) with
    (second_generator * (1 - (k * (v - s) + m * group_order)) + k * (a + second_generator * v - (b + second_generator * s))
     + second_generator * m * group_order) by ring.
  rewrite Hk, Hq. ring.
Qed.

(** C36. Confidential transfers.  Every operation of the three that is
    accepted, with its fee, keeps the books: no asset is created or
    destroyed, no commitment exists twice, and for each asset the commitments
    add up to a commitment to exactly the recorded confidential supply, whose
    blinding factor is the sum of those published on the way in less those on
    the way out.  So if the owners open all commitments in an asset, to values
    that together are below the order of the group, the values add up to the
    recorded supply -- or the openings give away the logarithm of the second
    generator, on whose secrecy the commitments rest. *)
Theorem confidential_operation_sound required d o d' factors :
  assets_wf d → confidential_backed factors d → run_confidential required d o = Ok d' →
  assets_wf d' ∧ confidential_backed (λ aid, factors aid + published o aid) d' ∧
  (∀ aid, imbalance aid d' = imbalance aid d) ∧
  ∀ aid s openings, dyn_of aid (db_assets d') (db_asset_dyn d') = Some s →
    0 <= dd_confidential_supply s < group_order → opened_by openings aid d' →
    let v := opened_total (λ id, (openings id).2) aid d' in
    0 <= v < group_order →
    v = dd_confidential_supply s ∨
    ∃ k, (k * (v - dd_confidential_supply s)) mod group_order = 1 ∧
      second_generator mod group_order =
        (k * (factors aid + published o aid - opened_total (λ id, (openings id).1) aid d')) mod group_order.
Proof.
  intros Hwf Hb H. enough (conserves d d' ∧ confidential_backed (λ aid, factors aid + published o aid) d') as [M Hb'].
  { destruct (M Hwf) as [Hwf' E]. split_and!; [done..|intros aid; rewrite E; lia|].
    intros aid s openings Hs Hsup Ho v Hv. destruct (decide (v = dd_confidential_supply s)); [by left|right].
    apply generator_found; [|done..]. rewrite <- opened_log by done. by apply Hb'. }
  assert (∀ fba g d1 d2, convert_fee false g d = Ok d1 → confidential_pay_fee fba false g d1 = Ok d2 →
    same_confidential d d2) as Hfee.
  { intros fba g d1 d2 Hc Hp. eapply same_confidential_trans; [by eapply convert_fee_confidential|by eapply pay_fee_confidential]. }
  assert (∀ fba g d1 d2 payer fee, prepare_fee d payer fee = Ok g → convert_fee false g d = Ok d1 →
    confidential_pay_fee fba false g d1 = Ok d2 → assets_wf d2) as Hw.
  { intros fba g d1 d2 payer fee Hg Hc Hp. destruct (fee_conversion_moves _ _ _ _ _ _ Hg eq_refl Hc Hwf) as [W _].
    by destruct (confidential_pay_fee_moves _ _ _ _ Hp W) as [W' _]. }
  destruct o as [op|op|op]; simpl in H; apply rbind_ok in H as ([] & Hv & H); split.
  - refine (confidential_start_conserves (Op := transfer_to_blind_operation) _ _ _ _ _ _ H). intros st d1 d2 He Ha. exact (transfer_to_blind_conserves _ _ _ _ _ He Ha).
  - apply confidential_start_ok in H as (g & [] & d1 & d2 & d3 & Hg & He & Hc & Hp & Ha & Hd).
    eapply backed_same; [by eapply adjust_balance_confidential|]. eapply transfer_to_blind_backed; [by eapply Hw| |exact Hv|exact Ha].
    eapply backed_same; [by eapply Hfee|done].
  - refine (confidential_start_conserves (Op := transfer_from_blind_operation) _ _ _ _ _ _ H). intros st d1 d2 He Ha.
    eapply transfer_from_blind_moves; [|exact Ha]. by apply from_blind_values.
  - apply confidential_start_ok in H as (g & [] & d1 & d2 & d3 & Hg & He & Hc & Hp & Ha & Hd).
    eapply backed_same; [by eapply adjust_balance_confidential|].
    eapply transfer_from_blind_backed; [by eapply Hw| |exact Hv|exact He|by eapply Hfee|exact Ha].
    eapply backed_same; [by eapply Hfee|done].
  - refine (confidential_start_conserves (Op := blind_transfer_operation) _ _ _ _ _ _ H). intros st d1 d2 He Ha. exact (blind_transfer_conserves _ _ _ _ _ He Ha).
  - apply confidential_start_ok in H as (g & [] & d1 & d2 & d3 & Hg & He & Hc & Hp & Ha & Hd).
    eapply backed_same; [by eapply adjust_balance_confidential|].
    eapply blind_transfer_backed; [by eapply Hw| |exact Hv|exact He|by eapply Hfee|exact Ha].
    eapply backed_same; [by eapply Hfee|done].
Qed.
End backing.

(** ** A small group

    The numbers modulo a small prime, with 1 and 7 as the generators. *)

Definition sample_order : Z := 10007.
Definition sum_by (l : list Z) : Z := foldr Z.add 0 l.

#[local] Instance small_commitments : Pedersen := {
  blind b v := Ok ((b + 7 * v) mod sample_order);
  verify_sum ins outs e := sum_by ins mod sample_order =? (sum_by outs + 7 * e) mod sample_order;
  range_max_value p := Ok p
}.

Lemma sample_order_prime : prime sample_order.
Proof.
  assert (forallb (λ k, Z.gcd (Z.of_nat k) sample_order =? 1) (seq 1 (Z.to_nat (sample_order - 1))) = true) as Hall
    by (vm_compute; reflexivity).
  rewrite forallb_forall in Hall. apply prime_intro; [reflexivity|]. intros n Hn.
  apply Zgcd_1_rel_prime, Z.eqb_eq. rewrite <- (Z2Nat.id n) by lia. apply Hall, in_seq. unfold sample_order in *. lia.
Qed.

#[local] Instance small_commitments_laws : PedersenLaws small_commitments.
Proof.
  refine {| group_order := sample_order; log_of c := c; second_generator := 7; group_order_prime := sample_order_prime |}.
  - intros b v c _ Hc. simpl in Hc. injection Hc as <-. by rewrite Zmod_mod.
  - intros ins outs e Hs. simpl in Hs. apply Z.eqb_eq in Hs. unfold sum_by in Hs. by rewrite !list_fmap_id.
Defined.

#[local] Existing Instance fc_reference.
#[local] Existing Instance fc_reference_laws.
#[local] Existing Instance boost_reference.

(** The ledger with the temporary account and the accumulators of fees. *)
Definition blind_db : database :=
  set_accounts (λ t, mkTable (<[GRAPHENE_TEMP_ACCOUNT := default_account "temp-account" 4]> (objs t)) (next_id t))
    (set_statistics (<[4 := default_stats 4]>)
      (set_fbas (λ _, list_to_map [(0, mkFba 0 None); (1, mkFba 0 None); (2, mkFba 0 None)]) sample_db)).

Lemma blind_db_wf : assets_wf blind_db.
Proof. exact sample_db_wf. Qed.

Lemma blind_db_backed : confidential_backed (λ _, 0) blind_db.
Proof.
  split.
  - intros i j a b Ha. unfold db_blinded_balances in Ha. simpl in Ha. by rewrite lookup_empty in Ha.
  - intros aid s Hs. unfold blinded_total. cbn. rewrite msum_empty.
    unfold dyn_of in Hs. destruct (db_assets blind_db !! aid) as [a|] eqn:Ha; [|done]. simpl in Hs, Ha.
    rewrite !lookup_insert_Some, lookup_empty in Ha.
    destruct Ha as [[<- <-]|[_ [[<- <-]|[_ [=]]]]]; simpl in Hs; injection Hs as <-; done.
Qed.

Definition hide (who value blinding : Z) (outs : list (Z * Z)) : transfer_to_blind_operation :=
  mkToBlind (core_asset 0) (core_asset value) who blinding
    ((λ bv, mkBlindOutput (get_ok (blind bv.1 bv.2) 0) GRAPHENE_MAX_SHARE_SUPPLY (mkAuthority 1 [(who, 1)] [] [])) <$> outs).
Definition reveal (who value blinding : Z) (ins : list (Z * Z)) : transfer_from_blind_operation :=
  mkFromBlind (core_asset 0) (core_asset value) who blinding
    ((λ bv, mkBlindInput (get_ok (blind bv.1 bv.2) 0) (mkAuthority 1 [(who, 1)] [] [])) <$> ins).

(** Alice hides 1000. *)
Definition hidden_db : database :=
  get_ok (run_confidential (Ok 0) blind_db (op_to_blind (hide alice 1000 7 [(7, 1000)]))) blind_db.

(** Alice opens her commitment to what the chain recorded. *)
Lemma confidential_operation_sound_witness :
  imbalance 0 hidden_db = 0 ∧ confidential_backed (λ aid, 0 + (if 0 =? aid then 7 else 0)) hidden_db ∧
  (opened_total (λ _, 1000) 0 hidden_db = 1000 ∨
   ∃ k, (k * (1000 - 1000)) mod sample_order = 1).
Proof.
  destruct (confidential_operation_sound (Ok 0) blind_db (op_to_blind (hide alice 1000 7 [(7, 1000)])) hidden_db (λ _, 0))
    as (_ & Hb & E & Ho); [exact blind_db_wf|exact blind_db_backed|vm_compute; reflexivity|].
  split; [rewrite E; vm_compute; reflexivity|]. split; [exact Hb|].
  set (s := default (mkDynData 0 0 0 0) (db_asset_dyn hidden_db !! 0)).
  destruct (Ho 0 s (λ _, (7, 1000))) as [Hv|(k & Hk & _)].
  - vm_compute. reflexivity.
  - vm_compute. split; [discriminate|reflexivity].
  - intros id b Hb' _. split; [simpl; lia|].
    assert (map_Forall (λ _ b, bb_commitment b = 7007) (objs (db_blinded_balances hidden_db))) as Hall
      by (apply (bool_decide_unpack _); vm_compute; exact I).
    rewrite (Hall id b Hb'). reflexivity.
  - vm_compute. split; [discriminate|reflexivity].
  - left. exact Hv.
  - right. exists k. exact Hk.
Defined.

(** Only the header of a range proof is read, the proof is never verified.
    So Bob can hide 1 as 1001 and -1000, reveal the 1001, and leave Alice
    with a commitment that nothing is behind. *)
Definition bobs_outputs : list (Z * Z) := [(4, -1000); (3, 1001)].
Definition robbed_db : database :=
  get_ok (let* d := run_confidential (Ok 0) hidden_db (op_to_blind (hide bob 1 7 bobs_outputs)) in
          run_confidential (Ok 0) d (op_from_blind (reveal bob 1001 3 [(3, 1001)]))) hidden_db.

Example range_proofs_not_verified :
  amount (get_balance hidden_db bob core_id) = 2000 ∧ amount (get_balance robbed_db bob core_id) = 3000 ∧
  dd_confidential_supply <$> db_asset_dyn robbed_db !! 0 = Some 0 ∧
  is_ok (run_confidential (Ok 0) hidden_db (op_from_blind (reveal alice 1000 7 [(7, 1000)]))) = true ∧
  run_confidential (Ok 0) robbed_db (op_from_blind (reveal alice 1000 7 [(7, 1000)])) = Throw assert_exception.
Proof. split_and!; vm_compute; reflexivity. Qed.
