(* ===== verification/SmallOps.v ===== *)
(** * Small operations

    Verification of accounts, reserved names, custom operations, assertions,
    and the claims of genesis balances ([omnibazaar/verification_evaluator.cpp],
    [omnibazaar/reserved_names.cpp], [reserved_names_evaluator.cpp],
    [protocol/custom.cpp], [assert_evaluator.cpp], [protocol/assert.cpp],
    [balance_evaluator.cpp], [protocol/operations.cpp]). *)

From stdpp Require Import gmap strings list.
From Stdlib Require Import ZArith Lia.
From S2P Require Import Prelude Fc Config Authority Asset VestingBalance Objects Database Sample Balances Fees Exchange AssetOps ForkDb Maintenance WithdrawPermission Governance GovernanceProps AccountName.

Local Open Scope Z_scope.

(** ** Verification *)

Record verification_operation := mkVerification {
  ve_fee : asset;
  ve_account : Z;
  ve_status : bool
}.

Definition verification_validate (op : verification_operation) : result unit :=
  require (0 <=? amount (ve_fee op)) assert_exception.

Definition verification_do_evaluate (d : database) (op : verification_operation) : result unit :=
  let* a := get_account d (ve_account op) in
  require (negb (eqb (ve_status op) (ao_verified a))) assert_exception.

Definition verification_do_apply (d : database) (op : verification_operation) : result database :=
  modify_account d (ve_account op) (set_verified (λ _, ve_status op)).

#[export] Instance verification_evaluator : Evaluator verification_operation := {
  ev_state := unit; op_fee_payer := λ _, OMNIBAZAAR_KYC_ACCOUNT; op_fee := ve_fee;
  do_evaluate := verification_do_evaluate;
  do_apply := λ d op _, verification_do_apply d op
}.

(** ** Reserved names *)

Record reserved_names_update_operation := mkReservedNamesUpdate {
  rnu_fee : asset;
  rnu_names_to_add : gset string;
  rnu_names_to_delete : gset string
}.

Section reserved_names.
Context {FS : FcString}.

(** [util::to_lower] on a set. *)
Definition set_to_lower (s : gset string) : gset string := set_map to_lower s.

Definition reserved_names_update_validate (op : reserved_names_update_operation) : result unit :=
  FC_ASSERT (0 <=? amount (rnu_fee op)) ;;
  require (bool_decide (set_to_lower (rnu_names_to_add op) ∩ set_to_lower (rnu_names_to_delete op) = ∅))
    assert_exception.

Definition reserved_names_update_do_evaluate (is_proposed_trx : bool) (d : database)
    (op : reserved_names_update_operation) : result unit :=
  FC_ASSERT is_proposed_trx ;;
  let r := reserved_names d in
  FC_ASSERT (bool_decide (size (rnu_names_to_delete op) ≤ size (rn_names r))%nat) ;;
  require (bool_decide (set_to_lower (rnu_names_to_delete op) ∖ rn_names r = ∅)) assert_exception.

Definition reserved_names_update_do_apply (d : database) (op : reserved_names_update_operation) : database :=
  set_reserved_names (λ r, mkReservedNames (rn_names r) (rnu_names_to_add op) (rnu_names_to_delete op)) d.

(** [trx_state->_is_proposed_trx] is a parameter of this evaluator. *)
Definition reserved_names_update_evaluator (is_proposed_trx : bool) : Evaluator reserved_names_update_operation := {|
  ev_state := unit; op_fee_payer := λ _, GRAPHENE_COMMITTEE_ACCOUNT; op_fee := rnu_fee;
  do_evaluate := reserved_names_update_do_evaluate is_proposed_trx;
  do_apply := λ d op _, Ok (reserved_names_update_do_apply d op)
|}.
End reserved_names.

(** ** Custom operations *)

Record custom_operation := mkCustom {
  cust_fee : asset;
  cust_payer : Z;
  cust_required_auths : gset Z;
  cust_id : Z;
  cust_data : list Z
}.

Definition custom_validate (op : custom_operation) : result unit :=
  require (0 <? amount (cust_fee op)) assert_exception.

#[export] Instance custom_evaluator : Evaluator custom_operation := {
  ev_state := unit; op_fee_payer := cust_payer; op_fee := cust_fee;
  do_evaluate := λ _ _, Ok tt;
  do_apply := λ d _ _, Ok d
}.

(** ** Assertions *)

Inductive predicate :=
| account_name_eq_lit_predicate (account_id : Z) (name : string)
| asset_symbol_eq_lit_predicate (asset_id : Z) (symbol : string)
| block_id_predicate (id : Z).

Record assert_operation := mkAssert {
  at_fee : asset;
  at_fee_paying_account : Z;
  at_predicates : list predicate;
  at_required_auths : gset Z
}.

Definition predicate_which (p : predicate) : Z :=
  match p with
  | account_name_eq_lit_predicate _ _ => 0
  | asset_symbol_eq_lit_predicate _ _ => 1
  | block_id_predicate _ => 2
  end.

(** The visitor calls [validate] of each predicate and drops its answer; it
    matters only that the test for names ends. *)
Definition predicate_validate (p : predicate) : result bool :=
  match p with
  | account_name_eq_lit_predicate _ name => is_valid_name name
  | asset_symbol_eq_lit_predicate _ symbol => Ok (is_valid_symbol symbol)
  | block_id_predicate _ => Ok true
  end.

Definition assert_validate (op : assert_operation) : result unit :=
  FC_ASSERT (0 <=? amount (at_fee op)) ;;
  rfold (λ _ p, let* _ := predicate_validate p in Ok tt) tt (at_predicates op).

(** [block_id_of] is the table of block summaries. *)
Definition evaluate_predicate (block_id_of : Z → result Z) (d : database) (p : predicate) : result unit :=
  match p with
  | account_name_eq_lit_predicate id name =>
      let* a := get_account d id in require (bool_decide (ao_name a = name)) assert_exception
  | asset_symbol_eq_lit_predicate id symbol =>
      let* a := get_asset_object d id in require (bool_decide (as_symbol a = symbol)) assert_exception
  | block_id_predicate id =>
      let* i := block_id_of (Z.land (num_from_id id) 65535) in require (i =? id) assert_exception
  end.

Definition assert_do_evaluate (skip_assert_evaluation : bool) (block_id_of : Z → result Z) (d : database)
    (op : assert_operation) : result unit :=
  if skip_assert_evaluation then Ok tt
  else rfold (λ _ p, FC_ASSERT (predicate_which p <? cp_max_predicate_opcode (parameters d)) ;;
                     evaluate_predicate block_id_of d p) tt (at_predicates op).

Definition assert_evaluator (skip_assert_evaluation : bool) (block_id_of : Z → result Z) : Evaluator assert_operation := {|
  ev_state := unit; op_fee_payer := at_fee_paying_account; op_fee := at_fee;
  do_evaluate := assert_do_evaluate skip_assert_evaluation block_id_of;
  do_apply := λ d _ _, Ok d
|}.

(** ** Genesis balances *)

Record balance_claim_operation := mkBalanceClaim {
  bc_fee : asset;
  bc_deposit_to_account : Z;
  bc_balance_to_claim : Z;
  bc_balance_owner_key : Z;
  bc_total_claimed : asset
}.

(** The key that stands for [public_key_type()]. *)
Definition no_key : Z := 0.

Definition balance_claim_validate (op : balance_claim_operation) : result unit :=
  FC_ASSERT (asset_eqb (bc_fee op) (core_asset 0)) ;;
  require (negb (bc_balance_owner_key op =? no_key)) assert_exception.

Definition is_vesting_balance (b : balance_object) : bool :=
  match bo_vesting_policy b with Some _ => true | None => false end.

Section balance_claim.
Context {FC : FcArith}.
(** The addresses of a key: its own and the four of the older kind. *)
Context (key_addresses : Z → list Z) (skip_signatures : bool).

Definition one_day_seconds : Z := 86400.

(** Without checks of signatures the assertion on the asset is left out. *)
Definition balance_claim_do_evaluate (d : database) (op : balance_claim_operation) : result Z :=
  let* b := index_get (db_genesis_balances d) (bc_balance_to_claim op) in
  GRAPHENE_ASSERT (bool_decide (bo_owner b ∈ key_addresses (bc_balance_owner_key op)))
    else balance_claim_owner_mismatch ;;
  FC_ASSERT (skip_signatures || (asset_id (bc_total_claimed op) =? asset_id (bo_balance b))) ;;
  match bo_vesting_policy b with
  | Some p =>
      let* allowed := linear_is_withdraw_allowed p (mkCtx (bo_balance b) (head_block_time d) (bc_total_claimed op)) in
      GRAPHENE_ASSERT allowed else balance_claim_invalid_claim_amount ;;
      GRAPHENE_ASSERT (one_day_seconds <=? head_block_time d - bo_last_claim_date b)
        else balance_claim_claimed_too_often ;;
      Ok (bc_balance_to_claim op)
  | None =>
      FC_ASSERT (asset_eqb (bc_total_claimed op) (bo_balance b)) ;;
      Ok (bc_balance_to_claim op)
  end.

Definition balance_claim_do_apply (d : database) (op : balance_claim_operation) (id : Z) : result database :=
  let* b := index_get (db_genesis_balances d) id in
  let* part := if is_vesting_balance b then asset_ltb (bc_total_claimed op) (bo_balance b) else Ok false in
  let* t :=
    if part then
      index_modify no_clash (db_genesis_balances d) id (λ b,
        let* rest := asset_sub (bo_balance b) (bc_total_claimed op) in
        Ok (mkBalanceObject (bo_owner b) rest (bo_vesting_policy b) (head_block_time d)))
    else index_remove (db_genesis_balances d) id in
  adjust_balance (set_genesis_balances (λ _, t) d) (bc_deposit_to_account op) (bc_total_claimed op).

Definition balance_claim_evaluator : Evaluator balance_claim_operation := {|
  ev_state := Z; op_fee_payer := bc_deposit_to_account; op_fee := bc_fee;
  do_evaluate := balance_claim_do_evaluate;
  do_apply := balance_claim_do_apply
|}.
End balance_claim.

(** ** Conservation *)

Section conservation.
Context {FC : FcArith} {FCL : FcArithLaws FC} {BA : BoostArith}.

#[export] Instance verification_conserves : EvaluatorConserves verification_operation.
Proof. intros d0 d op st d' _ H. simpl in H. by apply moves_modify_account in H. Qed.

#[export] Instance custom_conserves : EvaluatorConserves custom_operation.
Proof. intros d0 d op st d' _ [= <-]. apply moves_refl. Qed.

#[export] Instance reserved_names_update_conserves `{FcString} proposed :
  EvaluatorConserves (E := reserved_names_update_evaluator proposed) reserved_names_update_operation.
Proof. intros d0 d op st d' _ [= <-]. apply moves_set_governance. Qed.

#[export] Instance assert_conserves skip ids : EvaluatorConserves (E := assert_evaluator skip ids) assert_operation.
Proof. intros d0 d op st d' _ [= <-]. apply moves_refl. Qed.

#[export] Instance committee_member_create_conserves : EvaluatorConserves committee_member_create_operation.
Proof.
  intros d0 d op st d' _ H. simpl in H. apply drop_id_ok in H as [id H]. unfold committee_member_create_do_apply in H.
  simpl in H. apply rbind_ok in H as ([i t] & _ & [= _ <-]).
  apply moves_intro; [done..|]. intros aid. by rewrite Z.add_0_r.
Qed.

#[export] Instance committee_member_update_conserves : EvaluatorConserves committee_member_update_operation.
Proof.
  intros d0 d op st d' _ H. simpl in H. unfold committee_member_update_do_apply in H.
  apply rbind_ok in H as (t & _ & [= <-]). apply moves_set_governance.
Qed.

#[export] Instance update_parameters_conserves proposed :
  EvaluatorConserves (E := update_parameters_evaluator proposed) committee_member_update_global_parameters_operation.
Proof.
  intros d0 d op st d' _ [= <-]. apply moves_intro; [done..|]. intros aid. rewrite imbalance_set_gpo. lia.
Qed.

#[export] Instance witness_create_conserves : EvaluatorConserves witness_create_operation.
Proof.
  intros d0 d op st d' _ H. simpl in H. apply drop_id_ok in H as [id H]. unfold witness_create_do_apply, create_witness in H.
  simpl in H. apply rbind_ok in H as ([] & _ & [= _ <-]).
  apply moves_intro; [done..|]. intros aid. by rewrite Z.add_0_r.
Qed.

#[export] Instance witness_update_conserves : EvaluatorConserves witness_update_operation.
Proof. intros d0 d op st d' _ H. simpl in H. by apply moves_modify_witness in H. Qed.

Lemma init_worker_moves d owner i k d' : init_worker d owner i = Ok (k, d') → conserves d d'.
Proof.
  unfold init_worker. intros H. destruct i; try (injection H as <- <-; apply moves_refl).
  apply rbind_ok in H as ([id t] & Hc & [= <- <-]). apply index_create_vesting_moves in Hc.
  eapply moves_ext; [exact Hc|]. delta_solve.
Qed.

#[export] Instance worker_create_conserves : EvaluatorConserves worker_create_operation.
Proof.
  intros d0 d op st d' _ H. simpl in H. apply drop_id_ok in H as [id H]. unfold worker_create_do_apply in H. simpl in H.
  apply rbind_ok in H as ([kind d1] & H1%init_worker_moves & H). apply rbind_ok in H as ([i t] & _ & [= _ <-]).
  eapply moves_conserves_r; [|apply moves_set_governance]. eapply moves_conserves_l; [|exact H1].
  apply moves_intro; [done..|]. intros aid. by rewrite !imbalance_set_gpo, Z.add_0_r.
Qed.
End conservation.

(** ** Reserved names *)

Section reserved.
Context {FS : FcString}.

(** The committee's list of reserved names: an accepted change takes
    effect at the next maintenance and is exact.  All added names are
    reserved, in lower case, whatever the case they were given in; the
    deleted ones, which all were on the list, no longer are; no other name
    comes or goes; nothing is left to do at the maintenance after. *)
Theorem reserved_names_updated d op d' :
  reserved_names_update_validate op = Ok tt → reserved_names_update_do_evaluate true d op = Ok tt →
  d' = update_reserved_names (reserved_names_update_do_apply d op) →
  (∀ n, n ∈ rnu_names_to_add op → to_lower n ∈ rn_names (reserved_names d')) ∧
  (∀ n, n ∈ rnu_names_to_delete op →
     to_lower n ∈ rn_names (reserved_names d) ∧ to_lower n ∉ rn_names (reserved_names d')) ∧
  (∀ n, (∀ m, m ∈ rnu_names_to_add op → to_lower m ≠ n) → (∀ m, m ∈ rnu_names_to_delete op → to_lower m ≠ n) →
     n ∈ rn_names (reserved_names d') ↔ n ∈ rn_names (reserved_names d)) ∧
  update_reserved_names d' = d'.
Proof.
  unfold reserved_names_update_validate, reserved_names_update_do_evaluate, set_to_lower. intros Hv He ->.
  apply rbind_ok in Hv as (? & _ & Hd%require_ok%bool_decide_eq_true). apply rbind_ok in He as (? & _ & He).
  apply rbind_ok in He as (? & _ & Hs%require_ok%bool_decide_eq_true).
  set (names := rn_names (reserved_names d)) in *.
  assert (rn_names (reserved_names (update_reserved_names (reserved_names_update_do_apply d op))) =
    (names ∪ set_map to_lower (rnu_names_to_add op)) ∖ set_map to_lower (rnu_names_to_delete op)) as -> by done.
  split_and!.
  - intros n Hn. apply elem_of_difference. split; [apply elem_of_union; right; by apply elem_of_map_2|].
    intros Hx. assert (to_lower n ∈ (∅ : gset string)) as []%elem_of_empty.
    rewrite <- Hd. apply elem_of_intersection. split; [by apply elem_of_map_2|exact Hx].
  - intros n Hn. apply (elem_of_map_2 (D := gset string) to_lower) in Hn. split; [|set_solver].
    destruct (decide (to_lower n ∈ names)) as [|Hno]; [done|]. set_solver.
  - intros n Ha Hdel. rewrite elem_of_difference, elem_of_union.
    assert (n ∉ (set_map to_lower (rnu_names_to_add op) : gset string)) by (intros (m & -> & Hm)%elem_of_map; by eapply Ha).
    assert (n ∉ (set_map to_lower (rnu_names_to_delete op) : gset string)) by (intros (m & -> & Hm)%elem_of_map; by eapply Hdel).
    tauto.
  - unfold update_reserved_names, reserved_names_update_do_apply, set_reserved_names, set_governance. simpl.
    f_equal. f_equal. unfold merge_reserved_names. simpl. f_equal. set_solver.
Qed.
End reserved.

(** ** Genesis balances *)

Section claims.
Context {FC : FcArith} {FCL : FcArithLaws FC} {BA : BoostArith} (key_addresses : Z → list Z).

Definition genesis_objects (d : database) : gmap Z balance_object := objs (db_genesis_balances d).

(** No more was withdrawn from a vesting balance than had vested. *)
Definition genesis_wf (d : database) : Prop :=
  ∀ id b p, genesis_objects d !! id = Some b → bo_vesting_policy b = Some p →
    linear_wf p (amount (bo_balance b)) (head_block_time d).

(** What can be claimed. *)
Definition claimable (b : balance_object) (now : Z) : Z :=
  match bo_vesting_policy b with
  | None => amount (bo_balance b)
  | Some p => linear_vested p now - (begin_balance p - amount (bo_balance b))
  end.

Lemma claim_evaluate_ok d op id : genesis_wf d → balance_claim_do_evaluate key_addresses false d op = Ok id →
  id = bc_balance_to_claim op ∧ ∃ b, genesis_objects d !! id = Some b ∧
    bo_owner b ∈ key_addresses (bc_balance_owner_key op) ∧ asset_id (bc_total_claimed op) = asset_id (bo_balance b) ∧
    amount (bc_total_claimed op) <= claimable b (head_block_time d) <= amount (bo_balance b) ∧
    (bo_vesting_policy b = None → amount (bc_total_claimed op) = amount (bo_balance b)) ∧
    (is_Some (bo_vesting_policy b) → one_day_seconds <= head_block_time d - bo_last_claim_date b).
Proof.
  intros Hwf H. unfold balance_claim_do_evaluate in H. apply rbind_ok in H as (b & Hb%of_option_ok & H).
  apply rbind_ok in H as ([] & Ho%require_ok%bool_decide_eq_true & H).
  apply rbind_ok in H as ([] & Ha%require_ok%Z.eqb_eq & H). unfold claimable.
  destruct (bo_vesting_policy b) as [p|] eqn:Hp.
  - apply rbind_ok in H as (allowed & Hal & H). apply rbind_ok in H as ([] & ->%require_ok & H).
    apply rbind_ok in H as ([] & Hday%require_ok%Z.leb_le & [= <-]). split; [done|]. exists b. rewrite Hp.
    pose proof (Hwf _ _ _ Hb Hp) as W. pose proof (linear_vested_range _ _ _ W) as R.
    unfold linear_is_withdraw_allowed in Hal. simpl in Hal. rewrite (proj2 (Z.eqb_eq _ _) Ha), linear_allowed_eq in Hal by done.
    simpl in Hal. unfold asset_leb, asset_ltb, asset_eqb in Hal. simpl in Hal. rewrite (proj2 (Z.eqb_eq _ _) Ha) in Hal. simpl in Hal.
    split_and!; [done..| | |done|done]; [|lia]. case_in Hal; b2p; [lia|]. injection Hal as Hlt%Z.ltb_lt. lia.
  - apply rbind_ok in H as ([] & He%require_ok & [= <-]). split; [done|]. exists b. rewrite Hp.
    unfold asset_eqb in He. apply andb_prop in He as [_ He%Z.eqb_eq]. split_and!; try done; lia.
Qed.

(** What is left of a balance. *)
Definition after_claim (b : balance_object) (claimed now : Z) : option balance_object :=
  if is_vesting_balance b && (claimed <? amount (bo_balance b))
  then Some (mkBalanceObject (bo_owner b) (mkAsset (amount (bo_balance b) - claimed) (asset_id (bo_balance b)))
               (bo_vesting_policy b) now)
  else None.

Lemma held_genesis_update aid m id b (o : option balance_object) : m !! id = Some b →
  held_genesis aid (partial_alter (λ _, o) id m) =
  held_genesis aid m - amount_of aid (bo_balance b) + from_option (λ c, amount_of aid (bo_balance c)) 0 o.
Proof.
  intros Hb. unfold held_genesis. destruct o as [c|].
  - change (partial_alter (λ _, Some c) id m) with (<[id := c]> m). rewrite msum_insert, Hb. simpl. lia.
  - change (partial_alter (λ _, None) id m) with (delete id m). rewrite (msum_delete _ _ _ _ Hb). simpl. lia.
Qed.

Lemma claim_apply_ok d op id d' b : genesis_objects d !! id = Some b →
  asset_id (bc_total_claimed op) = asset_id (bo_balance b) → amount (bc_total_claimed op) <= amount (bo_balance b) →
  (bo_vesting_policy b = None → amount (bc_total_claimed op) = amount (bo_balance b)) →
  balance_claim_do_apply d op id = Ok d' →
  conserves d d' ∧ head_block_time d' = head_block_time d ∧
  genesis_objects d' = partial_alter (λ _, after_claim b (amount (bc_total_claimed op)) (head_block_time d)) id (genesis_objects d) ∧
  ∀ o i, amount (get_balance d' o i) = amount (get_balance d o i) +
    (if decide (o = bc_deposit_to_account op ∧ i = asset_id (bc_total_claimed op)) then amount (bc_total_claimed op) else 0).
Proof.
  intros Hb Ha Hle Hnone H. unfold balance_claim_do_apply, index_get in H. unfold genesis_objects in *. rewrite Hb in H. simpl in H.
  apply rbind_ok in H as (part & Hp & H). apply rbind_ok in H as (t & Ht & H).
  assert (part = is_vesting_balance b && (amount (bc_total_claimed op) <? amount (bo_balance b))) as ->.
  { destruct (is_vesting_balance b); [|by injection Hp as <-]. unfold asset_ltb in Hp.
    apply rbind_ok in Hp as (? & _ & [= <-]). done. }
  set (now := head_block_time d) in *. set (rest := after_claim b (amount (bc_total_claimed op)) now).
  assert (objs t = partial_alter (λ _, rest) id (objs (db_genesis_balances d))) as Et.
  { unfold rest, after_claim. case_in Ht.
    - apply index_modify_ok in Ht as (c & c' & Hc & Hf & _ & ->). rewrite Hb in Hc. injection Hc as <-.
      apply rbind_ok in Hf as (x & Hx & [= <-]). unfold asset_sub in Hx. apply rbind_ok in Hx as (? & _ & Hx).
      apply rbind_ok in Hx as (y & [-> _]%safe_sub_ok & [= <-]). done.
    - by apply index_remove_ok in Ht as [_ ->]. }
  pose proof (adjust_balance_get _ _ _ _ H) as [_ G]. pose proof (adjust_balance_frame _ _ _ _ H) as [m Em].
  apply adjust_balance_moves in H. split; [|split; [by rewrite Em|split; [rewrite Em; exact Et|exact G]]].
  eapply moves_ext; [eapply moves_trans; [|exact H]|].
  - apply (moves_intro _ _ (λ aid, - amount_of aid (bc_total_claimed op))); [done..|]. intros aid.
    rewrite imbalance_set_genesis_balances, Et, (held_genesis_update _ _ _ _ _ Hb). unfold rest, after_claim, amount_of. unfold is_vesting_balance in *. rewrite Ha.
    destruct (bo_vesting_policy b) as [p|]; simpl; [|rewrite Hnone by done; destruct (_ =? aid); lia].
    destruct (Z.ltb_spec (amount (bc_total_claimed op)) (amount (bo_balance b))); simpl; destruct (_ =? aid); lia.
  - intros aid. simpl. lia.
Qed.

(** C40. Claims of genesis balances.  Only the key behind the owner's address
    claims a balance; a plain one in whole, one that vests at most once a day
    and never more than has vested; the claimed amount, and nothing else,
    arrives at the account; no coin is lost or made, and the rest of the
    balance stays claimable under the same terms (validation does not refuse
    a negative claim, which only pays in). *)
Theorem balance_claim_correct required d op d' : genesis_wf d → balance_claim_validate op = Ok tt →
  start_evaluate (E := balance_claim_evaluator key_addresses false) false false required d op = Ok d' →
  conserves d d' ∧ (0 <= amount (bc_total_claimed op) → genesis_wf d') ∧ ∃ b,
    genesis_objects d !! bc_balance_to_claim op = Some b ∧ bo_owner b ∈ key_addresses (bc_balance_owner_key op) ∧
    asset_id (bc_total_claimed op) = asset_id (bo_balance b) ∧
    amount (bc_total_claimed op) <= claimable b (head_block_time d) ∧
    (bo_vesting_policy b = None → bc_total_claimed op = bo_balance b) ∧
    (is_Some (bo_vesting_policy b) → one_day_seconds <= head_block_time d - bo_last_claim_date b) ∧
    genesis_objects d' = partial_alter (λ _, after_claim b (amount (bc_total_claimed op)) (head_block_time d))
                           (bc_balance_to_claim op) (genesis_objects d) ∧
    ∀ o i, amount (get_balance d' o i) = amount (get_balance d o i) +
      (if decide (o = bc_deposit_to_account op ∧ i = asset_id (bc_total_claimed op)) then amount (bc_total_claimed op) else 0).
Proof.
  intros Hwf Hv H. unfold balance_claim_validate in Hv. apply rbind_ok in Hv as ([] & Hfee%require_ok & _).
  unfold asset_eqb in Hfee. simpl in Hfee. apply andb_prop in Hfee as [Hf1%Z.eqb_eq Hf2%Z.eqb_eq].
  apply start_evaluate_stages in H as (g & id & d0 & d1 & d2 & Hg & He & Hc & Hp & Ha & H).
  cbn [op_fee_payer op_fee do_evaluate do_apply ev_state balance_claim_evaluator] in Hg, He, Ha, H.
  pose proof (fee_payment_moves _ _ _ _ _ _ _ Hg eq_refl Hc Hp) as M1.
  pose proof (fee_payment_ledger _ _ _ _ _ Hc Hp) as L1.
  assert (db_genesis_balances d1 = db_genesis_balances d) as Eg.
  { unfold convert_fee, pay_fee, modify_asset_dyn, modify_statistics in *. case_in Hc; ok_inv; done. }
  assert (head_block_time d1 = head_block_time d) as Et by (unfold head_block_time; by destruct L1 as (_ & _ & _ & _ & -> & _)).
  apply claim_evaluate_ok in He as (-> & b & Hb & Ho & Hid & [Hle1 Hle2] & Hnone & Hday); [|done].
  assert (d' = d2) as ->. { unfold adjust_balance in H. rewrite Hf2 in H. by injection H as <-. }
  unfold genesis_objects in Hb. rewrite <- Eg in Hb.
  apply (claim_apply_ok _ _ _ _ b Hb Hid) in Ha as (M2 & Et2 & Eobj & G); [|lia|done]. rewrite Et in *.
  unfold genesis_objects in Eobj. rewrite Eg in Hb, Eobj. split; [|split].
  - eapply moves_conserves_r; [|exact M2]. eapply moves_ext; [exact M1|]. unfold amount_of. intros aid. rewrite Hf2. case_match; lia.
  - intros Hpos i c p. unfold genesis_objects. rewrite Eobj, Et2. destruct (decide (i = bc_balance_to_claim op)) as [->|].
    + rewrite lookup_partial_alter_eq. unfold after_claim. case_match eqn:Hcase; [|done]. intros [= <-] Hpol. simpl in *.
      pose proof (Hwf _ _ _ Hb Hpol) as W. unfold claimable in *. rewrite Hpol in *.
      apply andb_prop in Hcase as [_ Hlt%Z.ltb_lt]. destruct W as (W1 & W2 & W3 & W4 & W5 & W6). split_and!; try done; lia.
    + rewrite lookup_partial_alter_ne by done. apply Hwf.
  - exists b. split_and!; try done.
    + intros E. specialize (Hnone E). destruct (bc_total_claimed op), (bo_balance b). simpl in *. congruence.
    + intros o i. rewrite G. f_equal. f_equal. by apply same_ledger_balance.
Qed.
End claims.

(** ** Runs *)

#[local] Existing Instance fc_reference.
#[local] Existing Instance fc_reference_laws.
#[local] Existing Instance boost_reference.
#[local] Instance lower_abc : FcString := {| to_lower s := if decide (s = "Shop") then "shop" else s |}.

Definition reserve_shop : reserved_names_update_operation :=
  mkReservedNamesUpdate (core_asset 0) {["Shop"%string]} {["bank"%string]}.
Definition bank_db : database :=
  set_reserved_names (λ _, mkReservedNames {["bank"%string; "mint"%string]} ∅ ∅) sample_db.

Lemma reserved_names_updated_witness :
  let d' := update_reserved_names (reserved_names_update_do_apply bank_db reserve_shop) in
  "shop"%string ∈ rn_names (reserved_names d') ∧ "bank"%string ∉ rn_names (reserved_names d') ∧
  "mint"%string ∈ rn_names (reserved_names d').
Proof.
  destruct (reserved_names_updated (FS := lower_abc) bank_db reserve_shop _ ltac:(vm_compute; reflexivity) ltac:(vm_compute; reflexivity) eq_refl)
    as (Ha & Hd & Hs & _).
  split_and!.
  - change (to_lower "Shop" ∈ rn_names (reserved_names (update_reserved_names (reserved_names_update_do_apply bank_db reserve_shop)))).
    apply Ha. vm_compute. reflexivity.
  - change (to_lower "bank" ∉ rn_names (reserved_names (update_reserved_names (reserved_names_update_do_apply bank_db reserve_shop)))).
    apply Hd. vm_compute. reflexivity.
  - apply Hs; [intros m Hm|intros m Hm|vm_compute; reflexivity]; cbn in Hm; apply elem_of_singleton in Hm as ->; vm_compute; congruence.
Defined.

(** A genesis balance of 1000 that vests over 1000 days, after 500 of them. *)
Definition genesis_policy : linear_vesting_policy := mkLinear (1570000000 - 500 * 86400) 0 (1000 * 86400) 1000.
Definition genesis_db : database :=
  set_genesis_balances (λ _, mkTable {[ 0 := mkBalanceObject 77 (core_asset 1000) (Some genesis_policy) 0 ]} 1) sample_db.
Definition addresses_of_key (k : Z) : list Z := [k + 70; k + 71].
Definition claim (n : Z) : balance_claim_operation := mkBalanceClaim (core_asset 0) alice 0 7 (core_asset n).
Definition run_claim (n : Z) : result database :=
  start_evaluate (E := balance_claim_evaluator addresses_of_key false) false false (Ok 0) genesis_db (claim n).

Lemma genesis_db_wf : genesis_wf genesis_db.
Proof.
  intros id b p. unfold genesis_objects, genesis_db. cbn.
  intros [<- <-]%lookup_singleton_Some [= <-]. split_and!; vm_compute; congruence.
Qed.

Lemma balance_claim_correct_witness : ∃ d', run_claim 400 = Ok d' ∧ genesis_wf d' ∧
  amount (get_balance d' alice core_id) = amount (get_balance sample_db alice core_id) + 400.
Proof.
  eexists (get_ok (run_claim 400) sample_db). assert (run_claim 400 = Ok (get_ok (run_claim 400) sample_db)) as E by (vm_compute; reflexivity).
  destruct (balance_claim_correct addresses_of_key (Ok 0) genesis_db (claim 400) _ genesis_db_wf ltac:(vm_compute; reflexivity) E)
    as (_ & Hw & b & _ & _ & _ & _ & _ & _ & _ & G).
  split; [exact E|]. split; [by apply Hw|]. rewrite G. vm_compute. reflexivity.
Defined.

(** No more than the vested half; a negative claim pays in. *)
Example claim_limits : run_claim 501 = Throw balance_claim_invalid_claim_amount ∧ is_ok (run_claim (-5)) = true.
Proof. split; vm_compute; reflexivity. Qed.
