(* ===== verification/Operations.v ===== *)
(** * The operations of a transaction ([protocol/operations.hpp],
    [protocol/operations.cpp], [db_notify.cpp])

    The union of all the operations with what is done with any of them before
    it is applied: validation, the authorities it needs, the visitor of
    hardfork 429, and the accounts it concerns. *)

From stdpp Require Import gmap strings list.
From Stdlib Require Import ZArith Lia.
From S2P Require Import Prelude Fc Config Authority Asset Objects Database Balances Fees ObFee Exchange Transfer Listing Escrow Bonus VestingEval MarketEval AssetOps AssetEval WithdrawPermission Governance Accounts Proposal Confidential SmallOps.

Local Open Scope Z_scope.

(** ** The union *)

(** Operations that only record what the chain did by itself. *)
Record fill_order_operation := mkFillOrder {
  fo_order_id : Z; fo_account_id : Z; fo_pays : asset; fo_receives : asset; fo_fee : asset;
  fo_fill_price : price; fo_is_maker : bool
}.
Record execute_bid_operation := mkExecuteBid {
  xb_bidder : Z; xb_debt : asset; xb_collateral : asset; xb_fee : asset
}.
Record fba_distribute_operation := mkFbaDistribute {
  fd_fee : asset; fd_account_id : Z; fd_fba_id : Z; fd_amount : Z
}.
Record asset_settle_cancel_operation := mkSettleCancel {
  asc_fee : asset; asc_settlement : Z; asc_account : Z; asc_amount : asset
}.

Record account_transfer_operation := mkAccountTransfer {
  atr_fee : asset; atr_account_id : Z; atr_new_owner : Z
}.

Record multisig_transfer_operation := mkMultisig {
  ms_transfer : transfer_operation;
  ms_signatories : gset Z
}.

(** The kinds in the order of their tags.  The records of the operations of
    proposals leave the asset of the fee out, or the fee. *)
Inductive operation :=
| op_transfer (op : transfer_operation)                                          (* 0 *)
| op_limit_order_create (op : limit_order_create_operation)
| op_limit_order_cancel (op : limit_order_cancel_operation)
| op_call_order_update (op : call_order_update_operation)
| op_fill_order (op : fill_order_operation)
| op_account_create (op : account_create_operation)
| op_account_update (op : account_update_operation)
| op_account_whitelist (op : account_whitelist_operation)
| op_account_transfer (op : account_transfer_operation)
| op_asset_create (op : asset_create_operation)
| op_asset_update (op : asset_update_operation)                                  (* 10 *)
| op_asset_update_bitasset (op : asset_update_bitasset_operation)
| op_asset_update_feed_producers (op : asset_update_feed_producers_operation)
| op_asset_issue (op : asset_issue_operation)
| op_asset_reserve (op : asset_reserve_operation)
| op_asset_fund_fee_pool (op : asset_fund_fee_pool_operation)
| op_asset_settle (op : asset_settle_operation)
| op_asset_global_settle (op : asset_global_settle_operation)
| op_asset_publish_feed (op : asset_publish_feed_operation)
| op_witness_create (op : witness_create_operation)
| op_witness_update (op : witness_update_operation)                              (* 20 *)
| op_proposal_create (fee : asset) (op : proposal_create_operation operation)
| op_proposal_update (fee_asset : Z) (op : proposal_update_operation)
| op_proposal_delete (fee_asset : Z) (op : proposal_delete_operation)
| op_withdraw_permission_create (op : withdraw_permission_create_operation)
| op_withdraw_permission_update (op : withdraw_permission_update_operation)
| op_withdraw_permission_claim (op : withdraw_permission_claim_operation)
| op_withdraw_permission_delete (op : withdraw_permission_delete_operation)
| op_committee_member_create (op : committee_member_create_operation)
| op_committee_member_update (op : committee_member_update_operation)
| op_committee_member_update_global_parameters                                   (* 30 *)
    (op : committee_member_update_global_parameters_operation)
| op_vesting_balance_create (op : vesting_balance_create_operation)
| op_vesting_balance_withdraw (op : vesting_balance_withdraw_operation)
| op_worker_create (op : worker_create_operation)
| op_custom (op : custom_operation)
| op_assert (op : assert_operation)
| op_balance_claim (op : balance_claim_operation)
| op_override_transfer (op : override_transfer_operation)
| op_transfer_to_blind (op : transfer_to_blind_operation)
| op_blind_transfer (op : blind_transfer_operation)
| op_transfer_from_blind (op : transfer_from_blind_operation)                    (* 40 *)
| op_asset_settle_cancel (op : asset_settle_cancel_operation)
| op_asset_claim_fees (op : asset_claim_fees_operation)
| op_fba_distribute (op : fba_distribute_operation)
| op_bid_collateral (op : bid_collateral_operation)
| op_execute_bid (op : execute_bid_operation)
| op_welcome_bonus (op : welcome_bonus_operation)
| op_referral_bonus (op : referral_bonus_operation)
| op_sale_bonus (op : sale_bonus_operation)
| op_founder_bonus (op : founder_bonus_operation)
| op_witness_bonus (op : witness_bonus_operation)                                (* 50 *)
| op_escrow_create (op : escrow_create_operation)
| op_escrow_release (op : escrow_release_operation)
| op_escrow_return (op : escrow_return_operation)
| op_multisig_transfer (op : multisig_transfer_operation)
| op_listing_create (op : listing_create_operation)
| op_listing_update (op : listing_update_operation)
| op_listing_delete (op : listing_delete_operation)
| op_listing_report (op : listing_report_operation)
| op_escrow_extend (op : escrow_extend_operation)
| op_verification (op : verification_operation)                                  (* 60 *)
| op_exchange_create (op : exchange_create_operation)
| op_exchange_complete (op : exchange_complete_operation)
| op_reserved_names_update (op : reserved_names_update_operation).

(** [fee_payer] and the member [fee]. *)
Definition fee_payer (o : operation) : Z :=
  match o with
  | op_transfer op => tr_from op
  | op_limit_order_create op => MarketEval.lc_seller op
  | op_limit_order_cancel op => lx_fee_paying_account op
  | op_call_order_update op => cu_funding_account op
  | op_fill_order op => fo_account_id op
  | op_account_create op => acc_registrar op
  | op_account_update op => acu_account op
  | op_account_whitelist op => acw_authorizing_account op
  | op_account_transfer op => atr_account_id op
  | op_asset_create op => ac_issuer op
  | op_asset_update op => au_issuer op
  | op_asset_update_bitasset op => aub_issuer op
  | op_asset_update_feed_producers op => aup_issuer op
  | op_asset_issue op => ai_issuer op
  | op_asset_reserve op => ar_payer op
  | op_asset_fund_fee_pool op => afp_from_account op
  | op_asset_settle op => ase_account op
  | op_asset_global_settle op => ags_issuer op
  | op_asset_publish_feed op => apf_publisher op
  | op_witness_create op => wc_witness_account op
  | op_witness_update op => wu_witness_account op
  | op_proposal_create _ op => pc_fee_paying_account op
  | op_proposal_update _ op => pu_fee_paying_account op
  | op_proposal_delete _ op => pd_fee_paying_account op
  | op_withdraw_permission_create op => wpc_withdraw_from_account op
  | op_withdraw_permission_update op => wpu_withdraw_from_account op
  | op_withdraw_permission_claim op => wpl_withdraw_to_account op
  | op_withdraw_permission_delete op => wpd_withdraw_from_account op
  | op_committee_member_create op => cc_committee_member_account op
  | op_committee_member_update op => cu_committee_member_account op
  | op_committee_member_update_global_parameters _ => GRAPHENE_COMMITTEE_ACCOUNT
  | op_vesting_balance_create op => vc_creator op
  | op_vesting_balance_withdraw op => vw_owner op
  | op_worker_create op => wkc_owner op
  | op_custom op => cust_payer op
  | op_assert op => at_fee_paying_account op
  | op_balance_claim op => bc_deposit_to_account op
  | op_override_transfer op => ov_issuer op
  | op_transfer_to_blind op => tb_from op
  | op_blind_transfer _ => GRAPHENE_TEMP_ACCOUNT
  | op_transfer_from_blind _ => GRAPHENE_TEMP_ACCOUNT
  | op_asset_settle_cancel op => asc_account op
  | op_asset_claim_fees op => acf_issuer op
  | op_fba_distribute op => fd_account_id op
  | op_bid_collateral op => bc_bidder op
  | op_execute_bid op => xb_bidder op
  | op_welcome_bonus _ => OMNIBAZAAR_WELCOME_ACCOUNT
  | op_referral_bonus op => rb_referred_account op
  | op_sale_bonus op => sb_payer op
  | op_founder_bonus op => fb_payer op
  | op_witness_bonus op => nb_payer op
  | op_escrow_create op => ec_buyer op
  | op_escrow_release op => er_fee_paying_account (release_op op)
  | op_escrow_return op => er_fee_paying_account (return_op op)
  | op_multisig_transfer op => tr_from (ms_transfer op)
  | op_listing_create op => Listing.lc_seller op
  | op_listing_update op => lu_seller op
  | op_listing_delete op => ld_seller op
  | op_listing_report op => lr_reporting_account op
  | op_escrow_extend op => ex_fee_paying_account op
  | op_verification _ => OMNIBAZAAR_KYC_ACCOUNT
  | op_exchange_create _ => OMNIBAZAAR_EXCHANGE_ACCOUNT
  | op_exchange_complete _ => OMNIBAZAAR_EXCHANGE_ACCOUNT
  | op_reserved_names_update _ => GRAPHENE_COMMITTEE_ACCOUNT
  end.

Definition operation_fee (o : operation) : asset :=
  match o with
  | op_transfer op => tr_fee op
  | op_limit_order_create op => MarketEval.lc_fee op
  | op_limit_order_cancel op => lx_fee op
  | op_call_order_update op => MarketEval.cu_fee op
  | op_fill_order op => fo_fee op
  | op_account_create op => acc_fee op
  | op_account_update op => acu_fee op
  | op_account_whitelist op => acw_fee op
  | op_account_transfer op => atr_fee op
  | op_asset_create op => ac_fee op
  | op_asset_update op => au_fee op
  | op_asset_update_bitasset op => aub_fee op
  | op_asset_update_feed_producers op => aup_fee op
  | op_asset_issue op => ai_fee op
  | op_asset_reserve op => ar_fee op
  | op_asset_fund_fee_pool op => afp_fee op
  | op_asset_settle op => ase_fee op
  | op_asset_global_settle op => ags_fee op
  | op_asset_publish_feed op => apf_fee op
  | op_witness_create op => wc_fee op
  | op_witness_update op => wu_fee op
  | op_proposal_create fee _ => fee
  | op_proposal_update fee_asset op => mkAsset (pu_fee_amount op) fee_asset
  | op_proposal_delete fee_asset op => mkAsset (pd_fee_amount op) fee_asset
  | op_withdraw_permission_create op => wpc_fee op
  | op_withdraw_permission_update op => wpu_fee op
  | op_withdraw_permission_claim op => wpl_fee op
  | op_withdraw_permission_delete op => wpd_fee op
  | op_committee_member_create op => cc_fee op
  | op_committee_member_update op => Governance.cu_fee op
  | op_committee_member_update_global_parameters op => gpu_fee op
  | op_vesting_balance_create op => vc_fee op
  | op_vesting_balance_withdraw op => vw_fee op
  | op_worker_create op => wkc_fee op
  | op_custom op => cust_fee op
  | op_assert op => at_fee op
  | op_balance_claim op => SmallOps.bc_fee op
  | op_override_transfer op => ov_fee op
  | op_transfer_to_blind op => tb_fee op
  | op_blind_transfer op => bt_fee op
  | op_transfer_from_blind op => Confidential.fb_fee op
  | op_asset_settle_cancel op => asc_fee op
  | op_asset_claim_fees op => acf_fee op
  | op_fba_distribute op => fd_fee op
  | op_bid_collateral op => MarketEval.bc_fee op
  | op_execute_bid op => xb_fee op
  | op_welcome_bonus op => wb_fee op
  | op_referral_bonus op => rb_fee op
  | op_sale_bonus op => sb_fee op
  | op_founder_bonus op => Bonus.fb_fee op
  | op_witness_bonus op => nb_fee op
  | op_escrow_create op => ec_fee op
  | op_escrow_release op => er_fee (release_op op)
  | op_escrow_return op => er_fee (return_op op)
  | op_multisig_transfer op => tr_fee (ms_transfer op)
  | op_listing_create op => Listing.lc_fee op
  | op_listing_update op => lu_fee op
  | op_listing_delete op => ld_fee op
  | op_listing_report op => lr_fee op
  | op_escrow_extend op => ex_fee op
  | op_verification op => ve_fee op
  | op_exchange_create op => xc_fee op
  | op_exchange_complete op => xf_fee op
  | op_reserved_names_update op => rnu_fee op
  end.

(** ** Validation *)

Section validation.
Context {FC : FcArith} {BA : BoostArith} {FS : FcString} {IP : FcIp} {P : Pedersen}.

Fixpoint operation_validate (o : operation) : result unit :=
  match o with
  | op_transfer op => transfer_validate op
  | op_limit_order_create op => limit_order_create_validate op
  | op_limit_order_cancel op => limit_order_cancel_validate op
  | op_call_order_update op => call_order_update_validate op
  | op_fill_order _ => Throw assert_exception
  | op_account_create op => account_create_validate op
  | op_account_update op => account_update_validate op
  | op_account_whitelist op => account_whitelist_validate op
  | op_account_transfer op => require (0 <=? amount (atr_fee op)) assert_exception
  | op_asset_create op => asset_create_validate op
  | op_asset_update op => asset_update_validate op
  | op_asset_update_bitasset op => asset_update_bitasset_validate op
  | op_asset_update_feed_producers op => asset_update_feed_producers_validate op
  | op_asset_issue op => asset_issue_validate op
  | op_asset_reserve op => asset_reserve_validate op
  | op_asset_fund_fee_pool op => asset_fund_fee_pool_validate op
  | op_asset_settle op => asset_settle_validate op
  | op_asset_global_settle op => asset_global_settle_validate op
  | op_asset_publish_feed op => asset_publish_feed_validate op
  | op_witness_create op => witness_create_validate op
  | op_witness_update op => witness_update_validate op
  | op_proposal_create _ op => 
      FC_ASSERT (bool_decide (pc_proposed_ops op ≠ [])) ;;
      rfold (λ _ op, operation_validate op) tt (pc_proposed_ops op)
  | op_proposal_update _ op => proposal_update_validate op
  | op_proposal_delete _ op => proposal_delete_validate op
  | op_withdraw_permission_create op => permit_create_validate op
  | op_withdraw_permission_update op => permit_update_validate op
  | op_withdraw_permission_claim op => permit_claim_validate op
  | op_withdraw_permission_delete op => permit_delete_validate op
  | op_committee_member_create op => committee_member_create_validate op
  | op_committee_member_update op => committee_member_update_validate op
  | op_committee_member_update_global_parameters op => update_parameters_validate op
  | op_vesting_balance_create op => vesting_create_validate op
  | op_vesting_balance_withdraw op => vesting_withdraw_validate op
  | op_worker_create op => worker_create_validate op
  | op_custom op => custom_validate op
  | op_assert op => assert_validate op
  | op_balance_claim op => balance_claim_validate op
  | op_override_transfer op => override_transfer_validate op
  | op_transfer_to_blind op => transfer_to_blind_validate op
  | op_blind_transfer op => blind_transfer_validate op
  | op_transfer_from_blind op => transfer_from_blind_validate op
  | op_asset_settle_cancel op => require (0 <? amount (asc_amount op)) assert_exception
  | op_asset_claim_fees op => asset_claim_fees_validate op
  | op_fba_distribute _ => Throw assert_exception
  | op_bid_collateral op => bid_collateral_validate op
  | op_execute_bid _ => Throw assert_exception
  | op_welcome_bonus op => bonus_fee_validate (wb_fee op)
  | op_referral_bonus op => referral_bonus_validate op
  | op_sale_bonus op => sale_bonus_validate op
  | op_founder_bonus op => bonus_fee_validate (Bonus.fb_fee op)
  | op_witness_bonus op => bonus_fee_validate (nb_fee op)
  | op_escrow_create op => escrow_create_validate op
  | op_escrow_release op => escrow_close_validate (release_op op)
  | op_escrow_return op => escrow_close_validate (return_op op)
  | op_multisig_transfer op => let* _ := transfer_validate (ms_transfer op) in require (negb (bool_decide (ms_signatories op = ∅))) assert_exception
  | op_listing_create op => listing_create_validate op
  | op_listing_update op => listing_update_validate op
  | op_listing_delete op => listing_delete_validate op
  | op_listing_report op => listing_report_validate op
  | op_escrow_extend op => escrow_extend_validate op
  | op_verification op => verification_validate op
  | op_exchange_create op => exchange_create_validate op
  | op_exchange_complete op => exchange_complete_validate op
  | op_reserved_names_update op => reserved_names_update_validate op
  end.
End validation.

(** [hf_429_visitor]: what was not allowed before the hardfork. *)
Fixpoint hf_429_visit (o : operation) : result unit :=
  match o with
  | op_bid_collateral _ => Throw assert_exception
  | op_asset_create op => require (asset_id (ac_fee op) =? core_id) assert_exception
  | op_proposal_create _ op => rfold (λ _ op, hf_429_visit op) tt (pc_proposed_ops op)
  | _ => Ok tt
  end.

(** ** The authorities an operation needs *)

(** [authority( 1, a, 1, ... )] of accounts. *)
Definition any_of (accounts : list Z) : authority :=
  mkAuthority 1 (foldl (λ l a, flat_put a 1 l) [] accounts) [] [].

Definition is_owner_update (op : account_update_operation) : bool :=
  match acu_owner op, acu_owner_special_authority op with None, None => false | _, _ => true end.

(** What [get_required_active_authorities], [get_required_owner_authorities]
    and [get_required_authorities] of an operation add to its fee payer. *)
Definition own_required (o : operation) : required_auths :=
  match o with
  | op_account_create op =>
      mkRequired ({[ acc_registrar op ]} ∪
                  from_option (λ b, {[ bb_asset_to_buy_issuer b ]}) ∅ (acc_buyback_options op)) ∅ []
  | op_account_update op =>
      if is_owner_update op then mkRequired ∅ {[ acu_account op ]} []
      else mkRequired {[ acu_account op ]} ∅ []
  | op_proposal_update _ op => proposal_update_required op
  | op_balance_claim op => mkRequired ∅ ∅ [mkAuthority 1 [] [(bc_balance_owner_key op, 1)] []]
  | op_blind_transfer op => mkRequired ∅ ∅ (bi_owner <$> bt_inputs op)
  | op_transfer_from_blind op => mkRequired ∅ ∅ (bi_owner <$> fb_inputs op)
  | op_escrow_create op => mkRequired {[ ec_buyer op ]} ∅ [any_of [ec_buyer op]]
  | op_escrow_release op =>
      mkRequired ∅ ∅ [any_of [er_buyer_account (release_op op); er_escrow_account (release_op op)]]
  | op_escrow_return op =>
      mkRequired ∅ ∅ [any_of [er_seller_account (return_op op); er_escrow_account (return_op op)]]
  | op_escrow_extend op => mkRequired (escrow_extend_required_active op) ∅ []
  | op_multisig_transfer op => mkRequired (ms_signatories op) ∅ []
  | _ => no_required
  end.

(** [operation_get_required_authorities]. *)
Definition get_required_authorities (o : operation) : required_auths :=
  join_required (mkRequired {[ fee_payer o ]} ∅ []) (own_required o).

(** ** The accounts an operation concerns *)

(** [add_authority_accounts]. *)
Definition authority_accounts (a : authority) : gset Z := list_to_set (fst <$> account_auths a).
Definition inputs_accounts (l : list blind_input) : gset Z := ⋃ ((λ i, authority_accounts (bi_owner i)) <$> l).
Definition outputs_accounts (l : list blind_output) : gset Z := ⋃ ((λ o, authority_accounts (bout_owner o)) <$> l).
Definition close_accounts (op : escrow_close_operation) : gset Z :=
  {[ er_fee_paying_account op; er_seller_account op; er_buyer_account op; er_escrow_account op ]}.

(** The accounts that must approve the operations of a proposal. *)
Definition proposed_accounts (ops : list operation) : gset Z :=
  let r := foldl join_required no_required (get_required_authorities <$> ops) in
  req_active r ∪ req_owner r ∪ ⋃ (authority_accounts <$> req_other r).

(** [get_impacted_account_visitor]. *)
Definition operation_get_impacted_accounts (d : database) (o : operation) : gset Z :=
  match o with
  | op_transfer op => {[ tr_to op ]}
  | op_limit_order_create _ => ∅
  | op_limit_order_cancel op => {[ lx_fee_paying_account op ]}
  | op_call_order_update _ => ∅
  | op_fill_order op => {[ fo_account_id op ]}
  | op_account_create op => {[ acc_registrar op; acc_referrer op ]} ∪ authority_accounts (acc_owner op) ∪ authority_accounts (acc_active op)
  | op_account_update op => {[ acu_account op ]} ∪ from_option authority_accounts ∅ (acu_owner op) ∪ from_option authority_accounts ∅ (acu_active op)
  | op_account_whitelist op => {[ acw_account_to_list op ]}
  | op_account_transfer op => {[ atr_new_owner op ]}
  | op_asset_create _ => ∅
  | op_asset_update op => from_option (λ a, {[ a ]}) ∅ (au_new_issuer op)
  | op_asset_update_bitasset _ => ∅
  | op_asset_update_feed_producers _ => ∅
  | op_asset_issue op => {[ ai_issue_to_account op ]}
  | op_asset_reserve _ => ∅
  | op_asset_fund_fee_pool _ => ∅
  | op_asset_settle _ => ∅
  | op_asset_global_settle _ => ∅
  | op_asset_publish_feed _ => ∅
  | op_witness_create op => {[ wc_witness_account op ]}
  | op_witness_update op => {[ wu_witness_account op ]}
  | op_proposal_create _ op => proposed_accounts (pc_proposed_ops op)
  | op_proposal_update _ _ => ∅
  | op_proposal_delete _ _ => ∅
  | op_withdraw_permission_create op => {[ wpc_authorized_account op ]}
  | op_withdraw_permission_update op => {[ wpu_authorized_account op ]}
  | op_withdraw_permission_claim op => {[ wpl_withdraw_from_account op ]}
  | op_withdraw_permission_delete op => {[ wpd_authorized_account op ]}
  | op_committee_member_create op => {[ cc_committee_member_account op ]}
  | op_committee_member_update op => {[ cu_committee_member_account op ]}
  | op_committee_member_update_global_parameters _ => ∅
  | op_vesting_balance_create op => {[ vc_owner op ]}
  | op_vesting_balance_withdraw _ => ∅
  | op_worker_create _ => ∅
  | op_custom _ => ∅
  | op_assert _ => ∅
  | op_balance_claim _ => ∅
  | op_override_transfer op => {[ ov_to op; ov_from op; ov_issuer op ]}
  | op_transfer_to_blind op => {[ tb_from op ]} ∪ outputs_accounts (tb_outputs op)
  | op_blind_transfer op => inputs_accounts (bt_inputs op) ∪ outputs_accounts (bt_outputs op)
  | op_transfer_from_blind op => {[ fb_to op ]} ∪ inputs_accounts (fb_inputs op)
  | op_asset_settle_cancel op => {[ asc_account op ]}
  | op_asset_claim_fees _ => ∅
  | op_fba_distribute op => {[ fd_account_id op ]}
  | op_bid_collateral op => {[ bc_bidder op ]}
  | op_execute_bid op => {[ xb_bidder op ]}
  | op_welcome_bonus op => {[ wb_receiver op ]}
  | op_referral_bonus op => {[ rb_referred_account op; rb_referrer_account op ]}
  | op_sale_bonus op => {[ sb_payer op; sb_seller op; sb_buyer op ]}
  | op_founder_bonus op => {[ fb_payer op; get_founder_account d ]}
  | op_witness_bonus op => {[ nb_payer op; nb_receiver op ]}
  | op_escrow_create op => {[ ec_buyer op; ec_seller op; ec_escrow op ]}
  | op_escrow_release op => close_accounts (release_op op)
  | op_escrow_return op => close_accounts (return_op op)
  | op_multisig_transfer op => {[ tr_to (ms_transfer op) ]} ∪ ms_signatories op
  | op_listing_create op => {[ Listing.lc_seller op; lc_publisher op ]}
  | op_listing_update op => {[ lu_seller op ]} ∪ from_option (λ a, {[ a ]}) ∅ (lu_publisher op)
  | op_listing_delete op => {[ ld_seller op ]}
  | op_listing_report op => {[ lr_reporting_account op ]}
  | op_escrow_extend op => {[ ex_fee_paying_account op; ex_seller_account op; ex_buyer_account op; ex_escrow_account op ]}
  | op_verification op => {[ OMNIBAZAAR_KYC_ACCOUNT; ve_account op ]}
  | op_exchange_create op => {[ OMNIBAZAAR_EXCHANGE_ACCOUNT; xc_sender op ]}
  | op_exchange_complete op => {[ OMNIBAZAAR_EXCHANGE_ACCOUNT; xf_receiver op ]}
  | op_reserved_names_update _ => ∅
  end.
