(* ===== verification/FeeSchedule.v ===== *)
(** * What the operations cost ([fee_schedule.hpp], [fee_schedule.cpp], and
    [fee_parameters_type] and [calculate_fee] of the operations)

    The parameters of the fees by kind of operation with their defaults, what
    every operation asks for them, and the fee the schedule as a whole comes
    to.  Scaling and the conversion to another currency are in [Fees]. *)

From stdpp Require Import gmap strings list.
From Stdlib Require Import ZArith Lia.
From S2P Require Import Prelude Fc Config Authority Asset Objects Database Balances Fees Transfer Listing Escrow Bonus MarketEval AssetOps WithdrawPermission Governance Accounts Proposal Confidential SmallOps Exchange Operations.

Local Open Scope Z_scope.

(** The tag of an operation. *)
Definition which (o : operation) : Z :=
  match o with
  | op_transfer _ => 0
  | op_limit_order_create _ => 1
  | op_limit_order_cancel _ => 2
  | op_call_order_update _ => 3
  | op_fill_order _ => 4
  | op_account_create _ => 5
  | op_account_update _ => 6
  | op_account_whitelist _ => 7
  | op_account_transfer _ => 8
  | op_asset_create _ => 9
  | op_asset_update _ => 10
  | op_asset_update_bitasset _ => 11
  | op_asset_update_feed_producers _ => 12
  | op_asset_issue _ => 13
  | op_asset_reserve _ => 14
  | op_asset_fund_fee_pool _ => 15
  | op_asset_settle _ => 16
  | op_asset_global_settle _ => 17
  | op_asset_publish_feed _ => 18
  | op_witness_create _ => 19
  | op_witness_update _ => 20
  | op_proposal_create _ _ => 21
  | op_proposal_update _ _ => 22
  | op_proposal_delete _ _ => 23
  | op_withdraw_permission_create _ => 24
  | op_withdraw_permission_update _ => 25
  | op_withdraw_permission_claim _ => 26
  | op_withdraw_permission_delete _ => 27
  | op_committee_member_create _ => 28
  | op_committee_member_update _ => 29
  | op_committee_member_update_global_parameters _ => 30
  | op_vesting_balance_create _ => 31
  | op_vesting_balance_withdraw _ => 32
  | op_worker_create _ => 33
  | op_custom _ => 34
  | op_assert _ => 35
  | op_balance_claim _ => 36
  | op_override_transfer _ => 37
  | op_transfer_to_blind _ => 38
  | op_blind_transfer _ => 39
  | op_transfer_from_blind _ => 40
  | op_asset_settle_cancel _ => 41
  | op_asset_claim_fees _ => 42
  | op_fba_distribute _ => 43
  | op_bid_collateral _ => 44
  | op_execute_bid _ => 45
  | op_welcome_bonus _ => 46
  | op_referral_bonus _ => 47
  | op_sale_bonus _ => 48
  | op_founder_bonus _ => 49
  | op_witness_bonus _ => 50
  | op_escrow_create _ => 51
  | op_escrow_release _ => 52
  | op_escrow_return _ => 53
  | op_multisig_transfer _ => 54
  | op_listing_create _ => 55
  | op_listing_update _ => 56
  | op_listing_delete _ => 57
  | op_listing_report _ => 58
  | op_escrow_extend _ => 59
  | op_verification _ => 60
  | op_exchange_create _ => 61
  | op_exchange_complete _ => 62
  | op_reserved_names_update _ => 63
  end.

(** ** Parameters *)

(** The members of the several types of parameters: [fee] or [basic_fee] or
    [long_symbol], [price_per_kbyte] or [price_per_output], and the prices of
    short symbols. *)
Record fee_parameters := mkFeeParameters {
  fp_fee : Z;
  fp_price : Z;
  fp_symbol3 : Z;
  fp_symbol4 : Z
}.

Definition flat (fee : Z) : fee_parameters := mkFeeParameters fee 0 0 0.
Definition priced (fee price : Z) : fee_parameters := mkFeeParameters fee price 0 0.

(** The parameters without a value of their own.  The tags are those of
    [Operations.operation]. *)
Definition default_parameters (tag : Z) : fee_parameters :=
  let unit := GRAPHENE_BLOCKCHAIN_PRECISION in
  match tag with
  | 0 | 54 => priced (20 * unit) (10 * unit)
  | 1 | 40 => flat (5 * unit)
  | 3 | 14 | 20 | 29 | 42 | 44 | 55 | 56 => flat (20 * unit)
  | 5 => priced unit unit
  | 6 | 13 => priced (20 * unit) unit
  | 7 => flat 300000
  | 8 | 11 | 12 | 17 => flat (500 * unit)
  | 9 => mkFeeParameters (5000 * unit) 10 (500000 * unit) (300000 * unit)
  | 10 => priced (500 * unit) 10
  | 15 | 18 | 23 | 24 | 25 | 30 | 31 | 35 | 58 | 63 => flat unit
  | 16 => flat (100 * unit)
  | 19 | 28 | 33 => flat (5000 * unit)
  | 21 | 22 | 26 | 37 | 51 => priced (20 * unit) 10
  | 34 | 59 => priced unit 10
  | 38 | 39 => priced (5 * unit) (5 * unit)
  | 52 | 53 => priced 0 10
  | _ => flat 0
  end.

(** A set ordered by the tags. *)
Record fee_schedule := mkSchedule { parameters_of : gmap Z fee_parameters; schedule_scale : Z }.

Definition get_default : fee_schedule :=
  mkSchedule (list_to_map ((λ i, (Z.of_nat i, default_parameters (Z.of_nat i))) <$> seq 0 64)) GRAPHENE_100_PERCENT.

Definition zero_all_fees : fee_schedule :=
  mkSchedule ((λ _, mkFeeParameters 0 0 0 0) <$> parameters_of get_default) 0.

(** [fee_helper<Operation>::cget]: a bid without parameters costs what the
    update of a margin position does. *)
Definition cget (s : fee_schedule) (o : operation) : result fee_parameters :=
  match o, parameters_of s !! which o with
  | _, Some k => Ok k
  | op_bid_collateral _, None => of_option assert_exception (parameters_of s !! 3)
  | _, None => Throw assert_exception
  end.

(** ** The fee of an operation *)

(** [fc::raw::pack_size] of an operation, of a text, and of the memo of an
    operation, which is optional. *)
Class PackSizes := {
  packed_operation : operation → Z;
  packed_string : string → Z;
  packed_memo : operation → Z;
  has_memo : operation → bool
}.

Section fees.
Context {FC : FcArith} {BA : BoostArith} {PS : PackSizes}.

Definition calculate_data_fee (bytes price_per_kbyte : Z) : result Z :=
  let* r := u128_div (u128_mul bytes price_per_kbyte) 1024 in
  FC_ASSERT (r <=? GRAPHENE_MAX_SHARE_SUPPLY) ;;
  u128_to_uint64 r.

(** The sum of a fee and the data fee as [uint64_t], made a [share_type]. *)
Definition plus_data (fee bytes price : Z) : result Z :=
  let* x := calculate_data_fee bytes price in Ok (wrap_i64 (wrap_u64 (fee + x))).

(** The same with [share_type] from the start. *)
Definition plus_data_safe (fee : Z) (charged : bool) (bytes price : Z) : result Z :=
  if charged then let* x := calculate_data_fee bytes price in safe_add (wrap_i64 fee) (wrap_i64 x)
  else Ok (wrap_i64 fee).

Definition symbol_fee (k : fee_parameters) (symbol : string) : Z :=
  match String.length symbol with
  | 3%nat => fp_symbol3 k
  | 4%nat => fp_symbol4 k
  | _ => fp_fee k
  end.

(** [calculate_fee] of the operation.  Purchases have no fee. *)
Definition own_fee (k : fee_parameters) (o : operation) : result Z :=
  let whole := plus_data (fp_fee k) (packed_operation o) (fp_price k) in
  let memo fee := plus_data_safe fee (has_memo o) (packed_memo o) (fp_price k) in
  let purchase listing := memo (if bool_decide (is_Some listing) then 0 else fp_fee k) in
  match o with
  | op_fill_order _ | op_asset_settle_cancel _ | op_balance_claim _ | op_fba_distribute _ | op_execute_bid _ => Ok 0
  | op_transfer op => purchase (tr_listing op)
  | op_multisig_transfer op => purchase (tr_listing (ms_transfer op))
  | op_escrow_create op => purchase (ec_listing op)
  | op_account_create _ | op_asset_update _ | op_custom _ | op_proposal_create _ _ | op_proposal_update _ _ => whole
  | op_account_update op =>
      plus_data_safe (fp_fee k) (bool_decide (is_Some (acu_new_options op))) (packed_operation o) (fp_price k)
  | op_assert op => Ok (wrap_i64 (wrap_u64 (fp_fee k * Z.of_nat (length (at_predicates op)))))
  | op_asset_issue _ => plus_data (fp_fee k) (packed_memo o) (fp_price k)
  | op_asset_create op => plus_data (symbol_fee k (ac_symbol op)) (packed_operation o) (fp_price k)
  | op_transfer_to_blind op =>
      Ok (wrap_i64 (wrap_u64 (fp_fee k + Z.of_nat (length (tb_outputs op)) * fp_price k)))
  | op_blind_transfer op =>
      Ok (wrap_i64 (wrap_u64 (fp_fee k + Z.of_nat (length (bt_outputs op)) * fp_price k)))
  | op_override_transfer _ | op_withdraw_permission_claim _ | op_escrow_release _ | op_escrow_return _
  | op_escrow_extend _ => memo (fp_fee k)
  | op_exchange_create op =>
      plus_data (fp_fee k) (packed_string (xc_coin_name op) + packed_string (xc_tx_id op)) (fp_price k)
  | _ => Ok (wrap_i64 (fp_fee k))
  end.

(** [calc_fee_visitor]: after a failed assertion the fee is computed again,
    with the default parameters when the schedule has none. *)
Definition calc_fee (s : fee_schedule) (o : operation) : result Z :=
  let again := own_fee (default (default_parameters (which o)) (parameters_of s !! which o)) o in
  let* x :=
    match (let* k := cget s o in own_fee k o) with
    | Throw assert_exception => again
    | r => r
    end in
  Ok (wrap_u64 x).

(** [price::unit_price()]. *)
Definition unit_price : price := mkPrice (mkAsset 1 core_id) (mkAsset 1 core_id).

(** [fee_schedule::calculate_fee], and [calculate_fee_for_operation]. *)
Definition schedule_fee (s : fee_schedule) (rate : price) (o : operation) : result asset :=
  let* base_value := calc_fee s o in calculate_fee base_value (schedule_scale s) rate.

Definition required_fee (s : fee_schedule) (o : operation) : result Z :=
  let* f := schedule_fee s unit_price o in Ok (amount f).
End fees.

(** ** The fees asked for *)

Section properties.
Context {FC : FcArith} {FCL : FcArithLaws FC} {BA : BoostArith} {BAL : BoostArithLaws BA} {PS : PackSizes}.

Lemma unit_price_mul x : amount_ok x → asset_mul_price (core_asset x) unit_price = converted x core_id.
Proof.
  intros Hx. unfold asset_mul_price, converted, amount_ok in *. cbn.
  rewrite bu128_mul_spec, bu128_div_spec, Z.mul_1_r, Z.div_1_r by lia. by destruct (x <=? _).
Qed.

(** At the unit price nothing is rounded. *)
Lemma calculate_fee_unit base_value scale : 0 <= base_value < 2 ^ 64 → 0 <= scale < 2 ^ 32 →
  calculate_fee base_value scale unit_price = converted (base_value * scale / GRAPHENE_100_PERCENT) core_id.
Proof.
  intros Hb Hs. unfold calculate_fee. rewrite u128_mul_small by (unfold u128_mod; nia).
  rewrite u128_div_ok by done. cbn [rbind]. set (x := base_value * scale / _).
  assert (0 <= x) by (apply Z.div_pos; [nia|done]). unfold converted.
  destruct (Z.leb_spec x GRAPHENE_MAX_SHARE_SUPPLY) as [Hmax|]; [|done].
  cbn [rbind require]. unfold GRAPHENE_MAX_SHARE_SUPPLY in Hmax.
  rewrite u128_to_uint64_spec, (proj2 (Z.ltb_lt _ _)) by lia. cbn [rbind].
  rewrite wrap_i64_small by lia. fold (core_asset x). rewrite unit_price_mul by (unfold amount_ok; lia).
  unfold converted, GRAPHENE_MAX_SHARE_SUPPLY. rewrite (proj2 (Z.leb_le _ _)) by lia. cbn [rbind].
  unfold raise_fuel, raise_fee. fold (core_asset x). rewrite unit_price_mul by (unfold amount_ok; lia).
  unfold converted, GRAPHENE_MAX_SHARE_SUPPLY. rewrite (proj2 (Z.leb_le _ _)) by lia. cbn [rbind].
  rewrite asset_ltb_core. cbn [rbind amount]. rewrite Z.ltb_irrefl. cbn [amount core_asset rbind].
  by rewrite (proj2 (Z.leb_le _ _)) by lia.
Qed.

Lemma free_data_fee bytes : calculate_data_fee bytes 0 = Ok 0.
Proof.
  unfold calculate_data_fee. rewrite u128_mul_spec, Z.mul_0_r, Z.mod_0_l, u128_div_ok by (unfold u128_mod; lia).
  cbn [rbind]. rewrite Z.div_0_l by lia. cbn [rbind require Z.leb GRAPHENE_MAX_SHARE_SUPPLY Z.compare].
  by rewrite u128_to_uint64_spec.
Qed.

Lemma free_own_fee o : own_fee (mkFeeParameters 0 0 0 0) o = Ok 0.
Proof.
  unfold own_fee, plus_data_safe, plus_data, symbol_fee. cbn [fp_fee fp_price fp_symbol3 fp_symbol4].
  destruct o; rewrite ?free_data_fee; cbn [rbind]; rewrite ?safe_add_spec; repeat case_match; try done;
    rewrite ?Z.mul_0_r, ?Z.mul_0_l; done.
Qed.

Lemma which_range o : 0 <= which o < 64.
Proof. destruct o; simpl; lia. Qed.

Lemma default_lookup o : parameters_of get_default !! which o = Some (default_parameters (which o)).
Proof. destruct o; vm_compute; reflexivity. Qed.

Lemma plus_data_range fee bytes price f : plus_data fee bytes price = Ok f → - 2 ^ 63 <= f < 2 ^ 63.
Proof. intros H. apply rbind_ok in H as (x & _ & [= <-]). apply wrap_i64_range. Qed.

Lemma plus_data_safe_range fee b bytes price f : plus_data_safe fee b bytes price = Ok f → - 2 ^ 63 <= f < 2 ^ 63.
Proof.
  unfold plus_data_safe. intros H. case_in H; [|injection H as <-; apply wrap_i64_range].
  apply rbind_ok in H as (x & _ & [-> ?]%safe_add_ok). done.
Qed.

Lemma own_fee_range k o f : own_fee k o = Ok f → - 2 ^ 63 <= f < 2 ^ 63.
Proof.
  unfold own_fee. destruct o; intros H;
    try (by eapply plus_data_range); try (by eapply plus_data_safe_range);
    injection H as <-; apply wrap_i64_range || lia.
Qed.

(** The parameters that apply to an operation: its own, where the schedule has
    them; for a bid on a settled asset without parameters of its own those of
    the update of a margin position; else the defaults. *)
Definition charged_parameters (s : fee_schedule) (o : operation) : fee_parameters :=
  match parameters_of s !! which o, o with
  | Some k, _ => k
  | None, op_bid_collateral _ => default (default_parameters (which o)) (parameters_of s !! 3)
  | None, _ => default_parameters (which o)
  end.

(** A purchase of something listed. *)
Definition is_purchase (o : operation) : bool :=
  match o with
  | op_transfer t => bool_decide (is_Some (tr_listing t))
  | op_multisig_transfer t => bool_decide (is_Some (tr_listing (ms_transfer t)))
  | op_escrow_create t => bool_decide (is_Some (ec_listing t))
  | _ => false
  end.

(** The schedule computes the operation's own fee from these parameters. *)
Lemma calc_fee_charged s o : calc_fee s o = (let* f := own_fee (charged_parameters s o) o in Ok (wrap_u64 f)).
Proof.
  unfold calc_fee, cget, charged_parameters.
  destruct (parameters_of s !! which o) as [k|] eqn:E; destruct (parameters_of s !! 3) as [k'|] eqn:E3;
    destruct o; rewrite ?E, ?E3; cbn [rbind default from_option of_option id];
    repeat match goal with |- context [own_fee ?k ?o] => destruct (own_fee k o) as [?|[]] eqn:? end;
    cbn [rbind]; first [congruence|cbn in *; discriminate].
Qed.

Lemma calc_fee_known s o f : own_fee (charged_parameters s o) o = Ok f → 0 <= f → calc_fee s o = Ok f.
Proof.
  intros Hf Hp. rewrite calc_fee_charged, Hf. cbn [rbind].
  pose proof (own_fee_range _ _ _ Hf). by rewrite wrap_u64_small by lia.
Qed.

Lemma free_purchase k o : is_purchase o = true → has_memo o = false → own_fee k o = Ok 0.
Proof.
  intros Hp Hm. unfold is_purchase in Hp. unfold own_fee, plus_data_safe. rewrite Hm. destruct o; try done; by rewrite Hp.
Qed.

Lemma calc_fee_range s o f : calc_fee s o = Ok f → 0 <= f < 2 ^ 64.
Proof. intros H. apply rbind_ok in H as (x & _ & [= <-]). apply wrap_u64_range. Qed.

Lemma required_fee_scaled s o f : 0 <= schedule_scale s < 2 ^ 32 → calc_fee s o = Ok f →
  required_fee s o = (let r := f * schedule_scale s / GRAPHENE_100_PERCENT in
    if r <=? GRAPHENE_MAX_SHARE_SUPPLY then Ok r else Throw assert_exception).
Proof.
  intros Hs Hf. pose proof (calc_fee_range _ _ _ Hf). unfold required_fee, schedule_fee. rewrite Hf. cbn [rbind].
  rewrite calculate_fee_unit by done. unfold converted. cbv zeta. by case_match.
Qed.

(** C38. What an operation must pay.  Its own fee is computed from the
    parameters the schedule has for it, for a bid on a settled asset else from
    those of the update of a margin position, else from the defaults; what it
    must pay is this fee times the scale in hundredths of a percent, rounded
    down, unless that exceeds the maximum supply or the fee cannot be computed,
    and then the computation fails.  A purchase without a memo, by transfer,
    multisig transfer or escrow, is free under every schedule; and once all
    fees are zeroed no operation, of whatever kind and size, costs anything. *)
Theorem schedule_fees_correct s o : 0 <= schedule_scale s < 2 ^ 32 →
  (∀ f, own_fee (charged_parameters s o) o = Ok f → 0 <= f →
     required_fee s o = (let r := f * schedule_scale s / GRAPHENE_100_PERCENT in
       if r <=? GRAPHENE_MAX_SHARE_SUPPLY then Ok r else Throw assert_exception)) ∧
  (∀ e, own_fee (charged_parameters s o) o = Throw e → required_fee s o = Throw e) ∧
  (is_purchase o = true → has_memo o = false → required_fee s o = Ok 0) ∧
  required_fee zero_all_fees o = Ok 0.
Proof.
  intros Hs. split_and!.
  - intros f Hf Hp. apply required_fee_scaled; [done|by apply calc_fee_known].
  - intros e He. unfold required_fee, schedule_fee. by rewrite calc_fee_charged, He.
  - intros Hp Hm. erewrite required_fee_scaled; [|done|by apply calc_fee_known; [apply free_purchase|]]. done.
  - erewrite required_fee_scaled; [|vm_compute; split; [discriminate|reflexivity]|].
    2:{ apply calc_fee_known; [|reflexivity]. assert (charged_parameters zero_all_fees o = mkFeeParameters 0 0 0 0) as ->.
        { unfold charged_parameters, zero_all_fees. cbn [parameters_of]. by rewrite lookup_fmap, default_lookup. }
        apply free_own_fee. }
    done.
Qed.
End properties.

(** ** A sample *)

#[local] Existing Instance fc_reference.
#[local] Existing Instance boost_reference.
#[local] Existing Instance fc_reference_laws.
#[local] Existing Instance boost_reference_laws.

(** Operations of two kilobytes without a memo. *)
#[local] Instance two_kilobytes : PackSizes := {|
  packed_operation _ := 2048; packed_string s := Z.of_nat (String.length s); packed_memo _ := 1; has_memo _ := false |}.

Definition sample_custom : operation := op_custom (mkCustom (core_asset 100020) 20 ∅ 0 []).

(** A schedule that only knows the update of a margin position, at twice the
    scale. *)
Definition margin_only : fee_schedule := mkSchedule {[ 3 := flat 700 ]} (2 * GRAPHENE_100_PERCENT).
Definition sample_bid : operation := op_bid_collateral (mkBidCollateral (core_asset 0) 20 (core_asset 5) (mkAsset 7 2)).

(** By the default schedule and by the default parameters: one coin, and 20
    units for the data.  A bid costs what the update of a position does. *)
Lemma schedule_fees_correct_witness :
  required_fee get_default sample_custom = Ok 100020 ∧ required_fee margin_only sample_custom = Ok 200040 ∧
  required_fee margin_only sample_bid = Ok 1400 ∧ required_fee zero_all_fees sample_custom = Ok 0.
Proof.
  assert (0 <= schedule_scale get_default < 2 ^ 32 ∧ 0 <= schedule_scale margin_only < 2 ^ 32) as [Hd Hm]
    by (split; vm_compute; split; [discriminate|reflexivity|discriminate|reflexivity]).
  destruct (schedule_fees_correct get_default sample_custom Hd) as (H1 & _ & _ & Hz).
  destruct (schedule_fees_correct margin_only sample_custom Hm) as (H2 & _).
  destruct (schedule_fees_correct margin_only sample_bid Hm) as (H3 & _).
  rewrite (H1 100020), (H2 100020), (H3 700); [|vm_compute; reflexivity|lia|vm_compute; reflexivity|lia|vm_compute; reflexivity|lia].
  split; [reflexivity|]. split; [reflexivity|]. split; [reflexivity|exact Hz].
Defined.
