(* ===== verification/ChainState.v ===== *)
(** * Transactions on the whole state ([db_block.cpp], [evaluator.cpp],
    [protocol/transaction.cpp], [db_init.cpp])

    The state of the chain -- the database with the proposals, the
    transactions that are remembered and the ids of the recent blocks -- and
    the application of an operation of any kind ([apply_operation] with the
    evaluators that [initialize_evaluators] registers) and of a transaction
    ([_apply_transaction]). *)

From stdpp Require Import gmap strings list.
From Stdlib Require Import ZArith Lia.
From S2P Require Import Prelude Fc Config Authority Asset VestingBalance Objects Database Balances Fees ObFee Fba Exchange Transfer Listing Escrow Bonus VestingEval MarketEval PriceFeeds AssetOps AssetEval WithdrawPermission Governance Accounts ForkDb Proposal Confidential SmallOps Operations FeeSchedule.

Local Open Scope Z_scope.

(** ** Transactions *)

(** Of the signatures only the keys they recover to for this chain. *)
Record transaction := mkTransaction {
  tx_ref_block_num : Z;
  tx_ref_block_prefix : Z;
  tx_expiration : Z;
  tx_operations : list operation;
  tx_signature_keys : list Z
}.

(** The first bytes of the SHA-256 of a packed transaction. *)
Class TransactionDigest := { tx_id : transaction → Z }.

Record transaction_object := mkTxObject { to_trx : transaction; to_trx_id : Z }.

(** The unique index [by_trx_id]. *)
Definition transaction_clash (a b : transaction_object) : bool := to_trx_id a =? to_trx_id b.

(** [skip_flags] of [database.hpp], as far as they matter here. *)
Record skip_flags := mkSkip {
  skip_witness_signature : bool;
  skip_transaction_signatures : bool;
  skip_transaction_dupe_check : bool;
  skip_tapos_check : bool;
  skip_authority_check : bool;
  skip_merkle_check : bool;
  skip_assert_evaluation : bool;
  skip_undo_history_check : bool;
  skip_witness_schedule_check : bool
}.
Definition skip_nothing : skip_flags := mkSkip false false false false false false false false false.
Definition skip_everything : skip_flags := mkSkip true true true true true true true true true.

(** ** The state *)

(** [cs_head_block_id] is a member of the [dynamic_global_property_object];
    of the block summaries, created at the start with the id 0, those with
    another id. *)
Record chain_state := mkChainState {
  cs_db : database;
  cs_proposals : table (proposal_object operation);
  cs_transactions : table transaction_object;
  cs_head_block_id : Z;
  cs_block_summaries : gmap Z Z
}.

Definition set_cs_db (d : database) (s : chain_state) : chain_state :=
  mkChainState d (cs_proposals s) (cs_transactions s) (cs_head_block_id s) (cs_block_summaries s).
Definition set_cs_proposals (t : table (proposal_object operation)) (s : chain_state) : chain_state :=
  mkChainState (cs_db s) t (cs_transactions s) (cs_head_block_id s) (cs_block_summaries s).
Definition set_cs_transactions (t : table transaction_object) (s : chain_state) : chain_state :=
  mkChainState (cs_db s) (cs_proposals s) t (cs_head_block_id s) (cs_block_summaries s).

Definition block_summary (s : chain_state) (n : Z) : Z := default 0 (cs_block_summaries s !! n).

Definition on_db (f : database → result database) (s : chain_state) : result chain_state :=
  let* d := f (cs_db s) in Ok (set_cs_db d s).

Section chain.
Context {FC : FcArith} {BA : BoostArith} {NE : NthElement} {FS : FcString} {IP : FcIp} {P : Pedersen} {PS : PackSizes}.
(** The addresses of a key, and the fee schedule in the chain parameters. *)
Context (key_addresses : Z → list Z) (current_fees : chain_parameters → fee_schedule).

Definition current_fee (s : chain_state) (o : operation) : result Z :=
  required_fee (current_fees (parameters (cs_db s))) o.

#[export] Instance chain_proposals : ProposalState chain_state operation := {
  host_time s := head_block_time (cs_db s);
  host_maximum_proposal_lifetime s := cp_maximum_proposal_lifetime (parameters (cs_db s));
  host_committee_review_period s := cp_committee_proposal_review_period (parameters (cs_db s));
  host_max_authority_depth s := cp_max_authority_depth (parameters (cs_db s));
  host_active s a := let* x := get_account (cs_db s) a in Ok (Some (ao_active x));
  host_owner s a := let* x := get_account (cs_db s) a in Ok (Some (ao_owner x));
  host_key_addresses := key_addresses;
  host_proposals := cs_proposals;
  host_set_proposals := set_cs_proposals;
  operation_required := get_required_authorities
}.

(** ** Operations *)

(** [evaluate] and [apply] of an evaluator that works on the proposals. *)
Definition proposal_start {A} (s : chain_state) (o : operation) (do_evaluate : chain_state → result A)
    (do_apply : chain_state → A → result chain_state) : result chain_state :=
  let* g := prepare_fee (cs_db s) (fee_payer o) (operation_fee o) in
  let* r := current_fee s o in
  GRAPHENE_ASSERT (r <=? core_fee_paid g) else insufficient_fee ;;
  let* st := do_evaluate s in
  let* d := convert_fee false g (cs_db s) in
  let* d := pay_fee false g d in
  let* s := do_apply (set_cs_db d s) st in
  let* n := asset_neg (fee_from_account g) in
  on_db (λ d, adjust_balance d (fee_payer o) n) s.

Definition no_flags_start {Op} {E : Evaluator Op} (s : chain_state) (o : operation) (op : Op) : result chain_state :=
  on_db (λ d, start_evaluate false false (current_fee s o) d op) s.

Section level.
Context {PH : ProposalHost chain_state operation}.

Definition proposal_operation_apply (s : chain_state) (o : operation) : result chain_state :=
  match o with
  | op_proposal_create _ op =>
      proposal_start s o (λ s, proposal_create_do_evaluate s op)
        (λ s _, let* (_, s) := proposal_create_do_apply s op in Ok s)
  | op_proposal_update _ op =>
      proposal_start s o (λ s, proposal_update_do_evaluate s op) (λ s id, proposal_update_do_apply s op id)
  | op_proposal_delete _ op =>
      proposal_start s o (λ s, proposal_delete_do_evaluate s op) (λ s id, proposal_delete_do_apply s id)
  | _ => Throw undefined_behaviour
  end.
End level.

(** The evaluators, those of proposals apart.  The evaluator of transfers with
    several signatories, derived from the one of transfers, takes a transfer
    out of the union, which is not what is in it; and where no evaluator is
    registered the call goes through a null pointer. *)
Definition evaluator_apply (flags : skip_flags) (is_proposed_trx : bool) (s : chain_state) (o : operation)
    : result chain_state :=
  let r := current_fee s o in
  let on E := on_db E s in
  match o with
  | op_transfer op => no_flags_start s o op
  | op_limit_order_cancel op => no_flags_start s o op
  | op_call_order_update op => no_flags_start s o op
  | op_account_create op => no_flags_start s o op
  | op_account_update op => no_flags_start s o op
  | op_account_whitelist op => no_flags_start s o op
  | op_asset_update op => no_flags_start s o op
  | op_asset_update_bitasset op => no_flags_start s o op
  | op_asset_update_feed_producers op => no_flags_start s o op
  | op_asset_issue op => no_flags_start s o op
  | op_asset_reserve op => no_flags_start s o op
  | op_asset_fund_fee_pool op => no_flags_start s o op
  | op_asset_settle op => no_flags_start s o op
  | op_asset_global_settle op => no_flags_start s o op
  | op_asset_publish_feed op => no_flags_start s o op
  | op_witness_create op => no_flags_start s o op
  | op_witness_update op => no_flags_start s o op
  | op_withdraw_permission_create op => no_flags_start s o op
  | op_withdraw_permission_update op => no_flags_start s o op
  | op_withdraw_permission_claim op => no_flags_start s o op
  | op_withdraw_permission_delete op => no_flags_start s o op
  | op_committee_member_create op => no_flags_start s o op
  | op_committee_member_update op => no_flags_start s o op
  | op_vesting_balance_create op => no_flags_start s o op
  | op_vesting_balance_withdraw op => no_flags_start s o op
  | op_worker_create op => no_flags_start s o op
  | op_custom op => no_flags_start s o op
  | op_override_transfer op => no_flags_start s o op
  | op_asset_claim_fees op => no_flags_start s o op
  | op_bid_collateral op => no_flags_start s o op
  | op_welcome_bonus op => no_flags_start s o op
  | op_referral_bonus op => no_flags_start s o op
  | op_sale_bonus op => no_flags_start s o op
  | op_founder_bonus op => no_flags_start s o op
  | op_witness_bonus op => no_flags_start s o op
  | op_escrow_create op => no_flags_start s o op
  | op_escrow_release op => no_flags_start s o op
  | op_escrow_return op => no_flags_start s o op
  | op_listing_create op => no_flags_start s o op
  | op_listing_update op => no_flags_start s o op
  | op_listing_delete op => no_flags_start s o op
  | op_listing_report op => no_flags_start s o op
  | op_escrow_extend op => no_flags_start s o op
  | op_verification op => no_flags_start s o op
  | op_exchange_create op => no_flags_start s o op
  | op_exchange_complete op => no_flags_start s o op
  | op_limit_order_create op => on (λ d, let* (_, d) := limit_order_create_start false false r d op in Ok d)
  | op_asset_create op => on (λ d, let* (_, d) := asset_create_start false false r d op in Ok d)
  | op_transfer_to_blind op => on (λ d, confidential_start fba_accumulator_id_transfer_to_blind false false r d op)
  | op_blind_transfer op => on (λ d, confidential_start fba_accumulator_id_blind_transfer false false r d op)
  | op_transfer_from_blind op => on (λ d, confidential_start fba_accumulator_id_transfer_from_blind false false r d op)
  | op_committee_member_update_global_parameters op =>
      on (λ d, start_evaluate (E := update_parameters_evaluator is_proposed_trx) false false r d op)
  | op_reserved_names_update op =>
      on (λ d, start_evaluate (E := reserved_names_update_evaluator is_proposed_trx) false false r d op)
  | op_assert op =>
      on (λ d, start_evaluate (E := assert_evaluator (skip_assert_evaluation flags) (λ n, Ok (block_summary s n)))
                 false false r d op)
  | op_balance_claim op =>
      on (λ d, start_evaluate (E := balance_claim_evaluator key_addresses (skip_transaction_signatures flags))
                 false false r d op)
  | op_multisig_transfer _ => Throw assert_exception
  | op_fill_order _ | op_account_transfer _ | op_asset_settle_cancel _ | op_fba_distribute _ | op_execute_bid _ =>
      Throw undefined_behaviour
  | op_proposal_create _ _ | op_proposal_update _ _ | op_proposal_delete _ _ => Throw undefined_behaviour
  end.

(** [apply_operation].  A proposal that is approved applies its operations,
    which are not approvals themselves: two levels are enough. *)
Fixpoint apply_level (flags : skip_flags) (n : nat) (is_proposed_trx : bool) (s : chain_state) (o : operation)
    : result chain_state :=
  match n with
  | O => Throw out_of_fuel
  | S n' =>
      let H := Build_ProposalHost _ _ _ operation_validate hf_429_visit (apply_level flags n' true) in
      match o with
      | op_proposal_create _ _ | op_proposal_update _ _ | op_proposal_delete _ _ =>
          proposal_operation_apply (PH := H) s o
      | _ => evaluator_apply flags is_proposed_trx s o
      end
  end.

Definition proposal_host (flags : skip_flags) (n : nat) : ProposalHost chain_state operation :=
  Build_ProposalHost _ _ _ operation_validate hf_429_visit (apply_level flags n true).

Definition levels : nat := 2.

(** ** Transactions *)

Definition transaction_validate (trx : transaction) : result unit :=
  FC_ASSERT (bool_decide (tx_operations trx ≠ [])) ;;
  rfold (λ _ o, operation_validate o) tt (tx_operations trx).

Definition transaction_required (trx : transaction) : list required_auths :=
  get_required_authorities <$> tx_operations trx.

(** [signed_transaction::verify_authority]. *)
Definition transaction_verify_authority (s : chain_state) (trx : transaction) : result unit :=
  let* sigs := get_signature_keys (tx_signature_keys trx) in
  verify_authority key_addresses (host_active s) (host_owner s) (transaction_required trx) sigs
    (host_max_authority_depth s) false ∅ ∅.

(** The second word of an id as it lies in memory. *)
Definition byte_swap (x : Z) : Z :=
  Z.land x 255 * 2 ^ 24 + Z.land (Z.shiftr x 8) 255 * 2 ^ 16 + Z.land (Z.shiftr x 16) 255 * 2 ^ 8
  + Z.land (Z.shiftr x 24) 255.
Definition ref_prefix (id : Z) : Z := byte_swap (wrap_u32 (Z.shiftr id 96)).

Definition check_times (flags : skip_flags) (s : chain_state) (trx : transaction) : result unit :=
  if 0 <? head_block_num (cs_db s) then
    FC_ASSERT (skip_tapos_check flags
               || (tx_ref_block_prefix trx =? ref_prefix (block_summary s (tx_ref_block_num trx)))) ;;
    let now := head_block_time (cs_db s) in
    FC_ASSERT (tx_expiration trx <=? time_add now (cp_maximum_time_until_expiration (parameters (cs_db s)))) ;;
    require (now <=? tx_expiration trx) assert_exception
  else Ok tt.

Definition temp_account_empty (d : database) : bool :=
  bool_decide (map_Forall (λ k b, k.1 = GRAPHENE_TEMP_ACCOUNT → b = 0) (db_balances d)).

(** [_apply_transaction]; the results of the operations are left out. *)
Definition apply_transaction `{!TransactionDigest} (flags : skip_flags) (s : chain_state) (trx : transaction)
    : result chain_state :=
  let* _ := transaction_validate trx in
  let object := mkTxObject trx (tx_id trx) in
  FC_ASSERT (skip_transaction_dupe_check flags
             || negb (clashes transaction_clash (objs (cs_transactions s)) object)) ;;
  let* _ := if skip_transaction_signatures flags || skip_authority_check flags then Ok tt
            else transaction_verify_authority s trx in
  let* _ := check_times flags s trx in
  let* s :=
    if skip_transaction_dupe_check flags then Ok s
    else let* (_, t) := index_create transaction_clash (cs_transactions s) object in Ok (set_cs_transactions t s) in
  let* s := rfold (apply_level flags levels false) s (tx_operations trx) in
  FC_ASSERT (temp_account_empty (cs_db s)) ;;
  Ok s.
End chain.
