(* ===== verification/ChainProps.v ===== *)
(** * Operations and transactions on the whole state: the properties

    No operation changes the number or the time of the head block: only
    [update_global_dynamic_data] does; the proofs walk through the code of
    each evaluator.  Then: what operations of the whole state leave alone, the
    laws that proposals ask of the chain, and the levels of nesting. *)

From stdpp Require Import gmap strings list.
From Stdlib Require Import ZArith Lia.
From S2P Require Import Prelude Fc Config Authority Asset VestingBalance Objects Database Balances Fees ObFee Fba Exchange Reputation Transfer Listing Escrow Bonus VestingEval Market MarketEval PriceFeeds AssetOps AssetEval WithdrawPermission Governance Accounts ForkDb Proposal ProposalProps Confidential SmallOps Operations FeeSchedule ChainState AuthorityTheorems.


Local Open Scope Z_scope.

Definition clock (d : database) : Z * Z := (head_block_num d, head_block_time d).

(** Results that contain the next database. *)
Class HasDb (A : Type) := the_db : A → database.
#[export] Instance db_has_db : HasDb database := λ d, d.
#[export] Instance pair_has_db {A B} `{HasDb B} : HasDb (A * B) := λ p, the_db p.2.

Definition same_clock {A} `{HasDb A} (d : database) (c : result A) : Prop :=
  ∀ a, c = Ok a → clock (the_db a) = clock d.

Lemma same_clock_ok {A} `{HasDb A} d (a : A) : clock (the_db a) = clock d → same_clock d (Ok a).
Proof. by intros H1 ? [= <-]. Qed.
Lemma same_clock_throw {A} `{HasDb A} d e : same_clock d (Throw e : result A).
Proof. done. Qed.
Lemma same_clock_from {A} `{HasDb A} d d1 (c : result A) : clock d1 = clock d → same_clock d1 c → same_clock d c.
Proof. intros E H1 a Ha. rewrite <- E. by apply H1. Qed.
Lemma same_clock_db {A B} `{HasDb A} `{HasDb B} d (c : result A) (k : A → result B) :
  same_clock d c → (∀ a, clock (the_db a) = clock d → same_clock d (k a)) → same_clock d (rbind c k).
Proof. intros Hc Hk b Hb. apply rbind_ok in Hb as (a & Ha & Hb). eapply Hk; eauto. Qed.
Lemma same_clock_any {A B} `{HasDb B} d (c : result A) (k : A → result B) :
  (∀ a, same_clock d (k a)) → same_clock d (rbind c k).
Proof. intros Hk b Hb. apply rbind_ok in Hb as (a & _ & Hb). eapply Hk; eauto. Qed.
Lemma same_clock_try {A} `{HasDb A} d (c h : result A) :
  same_clock d c → same_clock d h → same_clock d (try_catch c h).
Proof. unfold try_catch. intros Hc Hh. destruct c as [a|e]; [done|]. by destruct (catchable e). Qed.
Lemma same_clock_fold {A} (f : database → A → result database) l d :
  (∀ d x, same_clock d (f d x)) → same_clock d (rfold f d l).
Proof.
  intros Hf. revert d. induction l as [|x l IH]; intros d; simpl; [by apply same_clock_ok|].
  eapply same_clock_db; [apply Hf|]. intros d1 E. by eapply same_clock_from.
Qed.

Create HintDb clock discriminated.

(** Goes through a definition, with what is known of the functions it calls;
    what is not known is unfolded. *)
Ltac clock_head c := match c with ?f _ => clock_head f | ?f => f end.
Ltac clock_same :=
  match goal with
  | |- clock (the_db ?a) = _ => cbn; first [reflexivity | assumption | congruence | repeat case_match; assumption]
  | |- clock _ = clock _ => first [reflexivity | assumption | congruence]
  end.
Ltac clock_step known :=
  match goal with
  | |- same_clock _ (Throw _) => apply same_clock_throw
  | |- same_clock _ (Ok _) => apply same_clock_ok; clock_same
  | |- same_clock _ (try_catch _ _) => apply same_clock_try
  | |- same_clock _ (rfold _ ?d1 _) => apply (same_clock_from _ d1); [clock_same|apply same_clock_fold; intros ? ?]
  | |- same_clock _ (rbind _ _) =>
      first [ eapply same_clock_db; [solve [known]|intros ? ?]
            | apply same_clock_any; intros ? ]
  | |- same_clock _ (match ?x with _ => _ end) => destruct x
  | |- same_clock _ _ => solve [eapply same_clock_from; cycle 1; [auto with nocore clock|clock_same]]
  | |- same_clock _ ?c => let h := clock_head c in progress unfold h
  end.
Ltac clock_tac := repeat (intros; cbv beta zeta; clock_step clock_tac).

Section primitives.
Context {FC : FcArith} {BA : BoostArith}.

Lemma clock_adjust_balance d a x : same_clock d (adjust_balance d a x).
Proof. clock_tac. Qed.
Lemma clock_modify_account d a f : same_clock d (modify_account d a f).
Proof. clock_tac. Qed.
Lemma clock_modify_statistics d a f : same_clock d (modify_statistics d a f).
Proof. clock_tac. Qed.
Lemma clock_modify_asset_dyn d a f : same_clock d (modify_asset_dyn d a f).
Proof. clock_tac. Qed.
#[local] Hint Resolve clock_adjust_balance clock_modify_account clock_modify_statistics clock_modify_asset_dyn : clock.
Lemma clock_modify_asset d a f : same_clock d (modify_asset d a f).
Proof. clock_tac. Qed.
Lemma clock_modify_bitasset d a f : same_clock d (modify_bitasset d a f).
Proof. clock_tac. Qed.
Lemma clock_modify_dgpo d f : (∀ g g', f g = Ok g' → dg_head_block_number g' = dg_head_block_number g ∧ dg_time g' = dg_time g) →
  same_clock d (modify_dgpo d f).
Proof.
  intros Hf d' H. apply rbind_ok in H as (g & [E1 E2]%Hf & [= <-]). unfold clock, head_block_num, head_block_time.
  simpl. congruence.
Qed.
Lemma clock_convert_fee b g d : same_clock d (convert_fee b g d).
Proof. clock_tac. Qed.
Lemma clock_pay_fee b g d : same_clock d (pay_fee b g d).
Proof. clock_tac. Qed.
Lemma clock_deposit_cashback d a x b t : same_clock d (deposit_cashback d a x b t).
Proof. clock_tac. Qed.
#[local] Hint Resolve clock_modify_asset clock_modify_bitasset clock_convert_fee clock_pay_fee clock_deposit_cashback : clock.
Lemma clock_deposit_fee d a x t : same_clock d (deposit_fee d a x t).
Proof. clock_tac. Qed.
End primitives.
#[export] Hint Resolve clock_adjust_balance clock_modify_account clock_modify_statistics clock_modify_asset_dyn
  clock_modify_asset clock_modify_bitasset clock_convert_fee clock_pay_fee clock_deposit_cashback clock_deposit_fee : clock.

(** ** The market *)

Section market.
Context {FC : FcArith} {BA : BoostArith} {NE : NthElement}.

Lemma clock_pay_market_fees d x : same_clock d (pay_market_fees d x).
Proof. clock_tac. Qed.
#[local] Hint Resolve clock_pay_market_fees : clock.
Lemma clock_cancel_limit_order d id : same_clock d (cancel_limit_order d id).
Proof. clock_tac. Qed.
Lemma clock_cancel_settlement d id : same_clock d (cancel_settlement d id).
Proof. clock_tac. Qed.
Lemma clock_cancel_bid d id : same_clock d (cancel_bid d id).
Proof. clock_tac. Qed.
#[local] Hint Resolve clock_cancel_limit_order clock_cancel_settlement clock_cancel_bid : clock.
Lemma clock_fill_limit_order d id p r b : same_clock d (fill_limit_order d id p r b).
Proof. clock_tac. Qed.
Lemma clock_fill_call_order d id p r : same_clock d (fill_call_order d id p r).
Proof. clock_tac. Qed.
Lemma clock_fill_settlement d id p r : same_clock d (fill_settlement d id p r).
Proof. clock_tac. Qed.
#[local] Hint Resolve clock_fill_limit_order clock_fill_call_order clock_fill_settlement : clock.
Lemma clock_match_limit_orders d u c p : same_clock d (match_limit_orders d u c p).
Proof. clock_tac. Qed.
Lemma clock_match_settlement d c s p m : same_clock d (match_settlement d c s p m).
Proof. clock_tac. Qed.
#[local] Hint Resolve clock_match_limit_orders clock_match_settlement : clock.

Lemma clock_close_positions calls p g d : same_clock d (close_positions calls p g d).
Proof. revert g d. induction calls; intros g d; simpl; clock_tac. Qed.
#[local] Hint Resolve clock_close_positions : clock.
Lemma clock_globally_settle d aid p : same_clock d (globally_settle_asset d aid p).
Proof. clock_tac. Qed.
#[local] Hint Resolve clock_globally_settle : clock.
Lemma clock_check_for_blackswan d aid b : same_clock d (check_for_blackswan d aid b).
Proof. clock_tac. Qed.
#[local] Hint Resolve clock_check_for_blackswan : clock.
Lemma clock_call_round aid b c l f m d r : call_round aid b c l f m d = Ok r → clock (match r with Stop _ d | Next _ _ d => d end) = clock d.
Proof.
  set (db := λ r, match r with Stop _ d | Next _ _ d => d end).
  assert (@same_clock _ db d (call_round aid b c l f m d)) as H; [|apply H]. unfold call_round. clock_tac.
Qed.

Lemma clock_call_loop aid b calls limits f m d : same_clock d (call_loop aid b calls limits f m d).
Proof.
  revert limits f m d. induction calls as [|ci calls IHc]; intros limits; induction limits as [|li limits IHl];
    intros f m d; cbn [call_loop]; (eapply same_clock_db; [apply clock_check_for_blackswan|intros [swan d1] E1]);
    (destruct swan; [apply same_clock_ok; exact E1|]); try (apply same_clock_ok; exact E1).
  intros r H. apply rbind_ok in H as (x & Hx%clock_call_round & H). destruct x as [b1 d2|[] fl d2].
  - injection H as <-. cbn in *. congruence.
  - apply IHc in H. cbn in *. congruence.
  - destruct fl; [|done]. apply IHl in H. cbn in *. congruence.
Qed.
#[local] Hint Resolve clock_call_loop : clock.
Lemma clock_check_call_orders d aid b : same_clock d (check_call_orders d aid b).
Proof. clock_tac. Qed.
#[local] Hint Resolve clock_check_call_orders : clock.
Lemma clock_match_loop o old d : same_clock d (match_loop o old d).
Proof. revert d. induction old; intros d; simpl; clock_tac. Qed.
#[local] Hint Resolve clock_match_loop : clock.
Lemma clock_apply_order d o b : same_clock d (apply_order d o b).
Proof. clock_tac. Qed.
Lemma clock_cancel_bids_and_revive_mpa d aid : same_clock d (cancel_bids_and_revive_mpa d aid).
Proof. clock_tac. Qed.
#[local] Hint Resolve clock_apply_order clock_cancel_bids_and_revive_mpa : clock.
Lemma clock_execute_bid d b x y f : same_clock d (execute_bid d b x y f).
Proof. clock_tac. Qed.
#[local] Hint Resolve clock_execute_bid : clock.
Lemma clock_revive_bitasset d aid : same_clock d (revive_bitasset d aid).
Proof. clock_tac. Qed.
End market.
#[export] Hint Resolve clock_pay_market_fees clock_cancel_limit_order clock_cancel_settlement clock_cancel_bid
  clock_match_limit_orders clock_match_settlement clock_globally_settle clock_check_call_orders clock_apply_order
  clock_cancel_bids_and_revive_mpa clock_execute_bid clock_revive_bitasset : clock.

(** ** The evaluators *)

Lemma clock_start {FC : FcArith} {BA : BoostArith} {Op} {E : Evaluator Op} sf sc r d (op : Op) :
  (∀ d st, same_clock d (do_apply d op st)) → same_clock d (start_evaluate sf sc r d op).
Proof. intros H. unfold start_evaluate, apply. clock_tac. Qed.

Ltac evaluator_cbn := cbn [do_apply
  transfer_evaluator override_transfer_evaluator asset_issue_evaluator asset_reserve_evaluator
    asset_fund_fee_pool_evaluator asset_claim_fees_evaluator asset_update_evaluator
    asset_update_bitasset_evaluator asset_update_feed_producers_evaluator asset_publish_feed_evaluator
    asset_global_settle_evaluator asset_settle_evaluator welcome_bonus_evaluator referral_bonus_evaluator
    sale_bonus_evaluator witness_bonus_evaluator founder_bonus_evaluator transfer_to_blind_evaluator
    transfer_from_blind_evaluator blind_transfer_evaluator escrow_create_evaluator escrow_release_evaluator
    escrow_return_evaluator escrow_extend_evaluator exchange_create_evaluator exchange_complete_evaluator
    committee_member_create_evaluator committee_member_update_evaluator update_parameters_evaluator
    witness_create_evaluator witness_update_evaluator worker_create_evaluator listing_create_evaluator
    listing_update_evaluator listing_delete_evaluator listing_report_evaluator limit_order_cancel_evaluator
    call_order_update_evaluator bid_collateral_evaluator verification_evaluator
    reserved_names_update_evaluator custom_evaluator assert_evaluator balance_claim_evaluator
    vesting_create_evaluator vesting_withdraw_evaluator permit_create_evaluator permit_update_evaluator
    permit_claim_evaluator permit_delete_evaluator account_create_evaluator account_update_evaluator
    account_whitelist_evaluator].

Section evaluators.
Context {FC : FcArith} {BA : BoostArith} {NE : NthElement} {FS : FcString} {IP : FcIp} {P : Pedersen} {PS : PackSizes}.
Context (key_addresses : Z → list Z) (current_fees : chain_parameters → fee_schedule).

Lemma clock_limit_order_create sf sc r d op : same_clock d (limit_order_create_start sf sc r d op).
Proof. clock_tac. Qed.
Lemma clock_asset_create sf sc r d op : same_clock d (asset_create_start sf sc r d op).
Proof. clock_tac. Qed.
Lemma clock_confidential {Op} {E : Evaluator Op} i sf sc r d (op : Op) :
  (∀ d st, same_clock d (do_apply d op st)) → same_clock d (confidential_start i sf sc r d op).
Proof. intros H. unfold confidential_start. clock_tac. Qed.

Lemma clock_on_db f s s' : same_clock (cs_db s) (f (cs_db s)) → on_db f s = Ok s' → clock (cs_db s') = clock (cs_db s).
Proof. intros Hf H. apply rbind_ok in H as (d & Hd & [= <-]). by apply Hf. Qed.
#[local] Hint Resolve clock_limit_order_create clock_asset_create : clock.

#[local] Hint Extern 1 (same_clock _ (modify_dgpo _ _)) =>
  apply clock_modify_dgpo; intros; ok_inv; split; reflexivity : clock.
Lemma clock_count_registration d : same_clock d (count_registration d).
Proof. clock_tac. Qed.
#[local] Hint Resolve clock_count_registration : clock.
Lemma clock_account_create d op : same_clock d (account_create_do_apply d op).
Proof. clock_tac. Qed.
Lemma clock_committee_create d op : same_clock d (committee_member_create_do_apply d op).
Proof. unfold committee_member_create_do_apply, get_next_vote_id. clock_tac. Qed.
Lemma clock_witness_create d op : same_clock d (witness_create_do_apply d op).
Proof. unfold witness_create_do_apply, get_next_vote_id. clock_tac. Qed.
Lemma clock_worker_create d op : same_clock d (worker_create_do_apply d op).
Proof. unfold worker_create_do_apply, get_next_vote_id. clock_tac. Qed.
#[local] Hint Resolve clock_account_create clock_committee_create clock_witness_create clock_worker_create : clock.

Lemma clock_evaluator_apply flags b s o s' :
  evaluator_apply key_addresses current_fees flags b s o = Ok s' → clock (cs_db s') = clock (cs_db s).
Proof.
  unfold evaluator_apply, no_flags_start. destruct o; intros H; try done; revert H; apply clock_on_db;
    first [apply clock_start; intros d st; evaluator_cbn; clear
          |apply clock_confidential; intros d st; evaluator_cbn; clear|idtac]; try solve [clock_tac].
Qed.
End evaluators.


Section chain.
Context {FC : FcArith} {BA : BoostArith} {NE : NthElement} {FS : FcString} {IP : FcIp} {P : Pedersen} {PS : PackSizes}.
Context (key_addresses : Z → list Z) (current_fees : chain_parameters → fee_schedule).

Notation chain_state_of := (chain_proposals key_addresses).
Notation apply_level := (apply_level key_addresses current_fees).
Notation evaluator_apply := (evaluator_apply key_addresses current_fees).
Notation proposal_start := (proposal_start current_fees).
Notation host flags n := (proposal_host key_addresses current_fees flags n).

Notation keeps := (@keeps _ _ chain_state_of).

#[export] Instance chain_laws : @ProposalLaws _ _ chain_state_of.
Proof. by split. Qed.

(** ** What operations leave alone *)

(** The clock, the head block, and what is remembered of blocks and
    transactions. *)
Definition frame (s s' : chain_state) : Prop :=
  clock (cs_db s') = clock (cs_db s) ∧ cs_transactions s' = cs_transactions s ∧
  cs_head_block_id s' = cs_head_block_id s ∧ cs_block_summaries s' = cs_block_summaries s.

#[export] Instance frame_preorder : PreOrder frame.
Proof.
  split; [by split|]. intros s1 s2 s3 (A1 & B1 & C1 & D1) (A2 & B2 & C2 & D2). split_and!; congruence.
Qed.

Lemma frame_db s d : clock d = clock (cs_db s) → frame s (set_cs_db d s).
Proof. by split. Qed.

Lemma frame_on_db f s s' : same_clock (cs_db s) (f (cs_db s)) → on_db f s = Ok s' →
  frame s s' ∧ cs_proposals s' = cs_proposals s.
Proof. intros Hf H. apply rbind_ok in H as (d & Hd%Hf & [= <-]). split; [by apply frame_db|done]. Qed.

Lemma evaluator_apply_db flags b s o s' : evaluator_apply flags b s o = Ok s' → ∃ d, s' = set_cs_db d s.
Proof.
  unfold ChainState.evaluator_apply, no_flags_start, on_db.
  destruct o; intros H; try done; apply rbind_ok in H as (d & _ & [= <-]); by exists d.
Qed.

Lemma evaluator_apply_frame flags b s o s' : evaluator_apply flags b s o = Ok s' →
  frame s s' ∧ cs_proposals s' = cs_proposals s.
Proof.
  intros H. pose proof H as Hc%clock_evaluator_apply. apply evaluator_apply_db in H as [d ->].
  split; [by apply frame_db|done].
Qed.

(** A relation that the writes to the proposals and the operations of a
    proposal respect is respected by the proposal operations. *)
Lemma proposal_update_related (R : chain_state → chain_state → Prop) flags n s o id s' : PreOrder R →
  (∀ t s, R s (set_cs_proposals t s)) → (∀ s o s', apply_level flags n true s o = Ok s' → R s s') →
  proposal_update_do_apply (PH := host flags n) s o id = Ok s' → R s s'.
Proof.
  intros HR Ht Ho H. unfold proposal_update_do_apply in H. apply rbind_ok in H as (t & _ & H).
  apply rbind_ok in H as (p & _ & H). etrans; [by apply (Ht t)|]. case_in H; [by injection H as <-|].
  apply rbind_ok in H as ([] & _ & H); [|by injection H as <-]. unfold try_catch in H.
  destruct (push_proposal _ _) as [s2|e] eqn:E; [|by case_in H; [injection H as <-|]].
  injection H as <-. apply push_proposal_ok in E as (q & s1 & _ & H1 & H2).
  apply rbind_ok in H2 as (t2 & _ & [= <-]). etrans; [|by apply Ht].
  apply (rfold_invariant _ R) in H1; [done| | |]; [intros; reflexivity|intros; by etrans|]. intros a x b _. apply Ho.
Qed.

Lemma proposal_start_related {A} (R : chain_state → chain_state → Prop) s o (ev : chain_state → result A) ap s' :
  PreOrder R → (∀ s d, clock d = clock (cs_db s) → R s (set_cs_db d s)) →
  (∀ st s1 s2, ev s = Ok st → clock (cs_db s1) = clock (cs_db s) → cs_proposals s1 = cs_proposals s →
     ap s1 st = Ok s2 → R s1 s2) →
  proposal_start s o ev ap = Ok s' → R s s'.
Proof.
  intros HR Hdb Hap H. apply rbind_ok in H as (g & _ & H). apply rbind_ok in H as (r & _ & H).
  apply rbind_ok in H as (u & _ & H). apply rbind_ok in H as (st & Hst & H).
  apply rbind_ok in H as (d1 & H1%clock_convert_fee & H). apply rbind_ok in H as (d2 & H2%clock_pay_fee & H).
  apply rbind_ok in H as (s3 & H3 & H). apply rbind_ok in H as (n & _ & H).
  apply rbind_ok in H as (d4 & H4%clock_adjust_balance & [= <-]).
  unfold the_db, db_has_db in *. etrans; [apply (Hdb s d2); congruence|]. etrans; [|by apply Hdb].
  eapply Hap in H3; [done|done|cbn; congruence|done].
Qed.

Lemma apply_level_frame flags n proposed s o s' : apply_level flags n proposed s o = Ok s' → frame s s'.
Proof.
  revert proposed s o s'. induction n as [|n IH]; intros proposed s o s' H; [done|]. cbn in H.
  destruct o; try (by apply evaluator_apply_frame in H as [? _]); (eapply (proposal_start_related frame) in H; [done|apply _|apply frame_db|]).
  - intros [] s1 s2 _ _ _ Ha. apply rbind_ok in Ha as ([i s3] & Ha & [= <-]).
    by apply rbind_ok in Ha as ([j t] & _ & [= _ <-]).
  - intros id s1 s2 _ _ _ Ha. eapply (proposal_update_related frame) in Ha; [done|apply _|done|]. intros. by eapply IH.
  - intros id s1 s2 _ _ _ Ha. by apply rbind_ok in Ha as (t & _ & [= <-]).
Qed.

Lemma keeps_db s d : clock d = clock (cs_db s) → keeps s (set_cs_db d s).
Proof.
  intros [= _ Ht]. split; [done|]. intros id. rewrite !elem_of_expired. cbn.
  by rewrite Ht.
Qed.

(** No operation moves the clock or adds an expired proposal. *)
#[export] Instance host_operation_laws flags n : @OperationLaws _ _ _ (host flags n).
Proof.
  unfold OperationLaws. cbn. generalize true. induction n as [|n IH]; intros proposed s o s' H; [done|]. cbn in H.
  assert (@OperationLaws _ _ _ (host flags n)) as OL by (intros ? ? ?; apply IH).
  destruct o; try (apply evaluator_apply_db in H as Hd; destruct Hd as [d ->];
    apply evaluator_apply_frame in H as [[Hc _] _]; by apply keeps_db);
    (eapply (proposal_start_related keeps) in H; [done|apply _|apply keeps_db|]).
  - intros [] s1 s2 He [= _ Ht] _ Ha. apply rbind_ok in Ha as ([i s3] & Ha & [= <-]).
    apply (proposal_create_time (PH := host flags n)) in He. eapply proposal_create_keeps; [|exact Ha].
    cbn in *. congruence.
  - intros id s1 s2 _ _ _ Ha. by eapply (proposal_update_keeps (PH := host flags n)).
  - intros id s1 s2 _ _ _ Ha. by eapply (remove_proposal_keeps s1 id).
Qed.

(** ** The levels of nesting *)

Definition approves (o : operation) : bool := match o with op_proposal_update _ _ => true | _ => false end.

(** No proposal contains the approval of a proposal. *)
Definition plain_operations (ops : list operation) : Prop := Forall (λ o, approves o = false) ops.
Definition proposals_plain (s : chain_state) : Prop :=
  map_Forall (λ _ p, plain_operations (po_operations p)) (objs (cs_proposals s)).

Lemma one_level flags n proposed s o : approves o = false →
  apply_level flags (S n) proposed s o = apply_level flags 1 proposed s o.
Proof. by destruct o. Qed.

Lemma push_operations_levels flags n id ops s : plain_operations ops →
  push_operations (PH := host flags (S n)) id ops s = push_operations (PH := host flags 1) id ops s.
Proof.
  intros Hops. revert s. induction Hops as [|o ops Ho _ IH]; intros s; [done|].
  cbn [push_operations apply_operation proposal_host]. rewrite (one_level flags n) by done.
  destruct (apply_level flags 1 true s o); [|done]. cbn [rbind]. by rewrite IH.
Qed.

Lemma proposal_update_hosts {S Op} `{PS' : !ProposalState S Op} (H1 H2 : ProposalHost S Op) (s : S) o id :
  (∀ t p, index_modify no_clash (host_proposals s) id (λ p, Ok (with_approvals o p)) = Ok t →
     find_proposal (host_set_proposals t s) id = Some p →
     push_operations (PH := H1) id (po_operations p) (host_set_proposals t s) =
     push_operations (PH := H2) id (po_operations p) (host_set_proposals t s)) →
  proposal_update_do_apply (PH := H1) s o id = proposal_update_do_apply (PH := H2) s o id.
Proof.
  intros H. unfold proposal_update_do_apply, push_proposal.
  destruct (index_modify _ _ _ _) as [t|e]; [|done]. cbn [rbind]. specialize (H t).
  destruct (find_proposal _ _) as [p|]; [|done]. cbn [of_option rbind]. by rewrite (H p).
Qed.

Lemma proposal_update_levels flags n s o id : proposals_plain s →
  proposal_update_do_apply (PH := host flags (S n)) s o id = proposal_update_do_apply (PH := host flags 1) s o id.
Proof.
  intros Hs. apply proposal_update_hosts. intros t q E Hq.
  apply index_modify_ok in E as (p & p' & Hp & [= <-] & _ & ->).
  unfold find_proposal in Hq. cbn in Hq. rewrite lookup_insert_eq in Hq. injection Hq as <-.
  apply push_operations_levels. exact (Hs _ _ Hp).
Qed.

Lemma proposal_start_ext {A} s o (ev : chain_state → result A) ap ap' :
  (∀ s1 st, cs_proposals s1 = cs_proposals s → ap s1 st = ap' s1 st) →
  proposal_start s o ev ap = proposal_start s o ev ap'.
Proof.
  intros H. unfold ChainState.proposal_start. destruct (prepare_fee _ _ _); [|done]. cbn [rbind].
  destruct (current_fee _ _ _); [|done]. cbn [rbind]. destruct (require _ _); [|done]. cbn [rbind].
  destruct (ev s); [|done]. cbn [rbind]. destruct (convert_fee _ _ _); [|done]. cbn [rbind].
  destruct (pay_fee _ _ _); [|done]. cbn [rbind]. by rewrite H.
Qed.

Lemma update_level flags n proposed s fee o :
  apply_level flags (S n) proposed s (op_proposal_update fee o) =
  proposal_start s (op_proposal_update fee o) (λ s, proposal_update_do_evaluate (PS := chain_state_of) s o)
    (λ s id, proposal_update_do_apply (PH := host flags n) s o id).
Proof. done. Qed.

(** Two levels are enough: with more of them every operation does the same. *)
Lemma two_levels flags n proposed s o : proposals_plain s →
  apply_level flags (levels + n) proposed s o = apply_level flags levels proposed s o.
Proof.
  intros Hs. unfold levels. cbn [Nat.add].
  destruct (approves o) eqn:Ho; [|by rewrite (one_level flags (S n)), (one_level flags 1)].
  destruct o; try discriminate Ho.
  rewrite !update_level. apply proposal_start_ext. intros s1 id E.
  apply proposal_update_levels. unfold proposals_plain. by rewrite E.
Qed.

Definition stays_plain (s s' : chain_state) : Prop := proposals_plain s → proposals_plain s'.

#[export] Instance stays_plain_preorder : PreOrder stays_plain.
Proof. split; [intros s H; exact H|]. intros s1 s2 s3 H1 H2 H. by apply H2, H1. Qed.

Lemma remove_plain s id s' : remove_proposal (PS := chain_state_of) s id = Ok s' → stays_plain s s'.
Proof.
  intros H Hs. apply rbind_ok in H as (t & (_ & ->)%index_remove_ok & [= <-]).
  intros i p Hp. cbn [objs cs_proposals set_cs_proposals] in Hp. apply lookup_delete_Some in Hp as [_ Hp]. by eapply Hs.
Qed.

Lemma update_plain flags n s o id s' : (∀ s o s', apply_level flags n true s o = Ok s' → stays_plain s s') →
  proposal_update_do_apply (PH := host flags n) s o id = Ok s' → stays_plain s s'.
Proof.
  intros Ho H Hs. apply rbind_ok in H as (t & Ht & H).
  apply index_modify_ok in Ht as (p & p' & Hp & [= <-] & _ & ->).
  assert (proposals_plain (set_cs_proposals (mkTable (<[id:=with_approvals o p]> (objs (cs_proposals s)))
            (next_id (cs_proposals s))) s)) as H0.
  { intros i q Hk. cbn [objs cs_proposals set_cs_proposals] in Hk. apply lookup_insert_Some in Hk as [[<- <-]|[_ Hq]]; [exact (Hs _ _ Hp)|by eapply Hs]. }
  apply rbind_ok in H as (q & _ & H). case_in H; [by injection H as <-|].
  apply rbind_ok in H as ([] & _ & H); [|by injection H as <-]. unfold try_catch in H.
  destruct (push_proposal _ _) as [s2|e] eqn:E; [|by case_in H; [injection H as <-|]].
  injection H as <-. apply push_proposal_ok in E as (r & s1 & _ & H1 & H2).
  apply (remove_plain _ _ _ H2). clear H2. revert H0.
  apply (rfold_invariant _ stays_plain) in H1; [done| | |]; [intros; reflexivity|intros; by etrans|].
  intros a x b _. apply Ho.
Qed.

Lemma create_plain {PH : ProposalHost chain_state operation} s0 s o i s' : proposal_create_do_evaluate (PS := chain_state_of) (PH := PH) s0 o = Ok tt →
  proposal_create_do_apply (PS := chain_state_of) s o = Ok (i, s') → stays_plain s s'.
Proof.
  intros He Ha Hs. apply rbind_ok in Ha as ([j t] & (-> & _ & _ & ->)%index_create_ok & [= <- <-]).
  intros k q Hk. cbn [objs cs_proposals set_cs_proposals host_set_proposals host_proposals chain_proposals] in Hk. apply lookup_insert_Some in Hk as [[<- <-]|[_ Hq]]; [|by eapply Hs].
  apply Forall_forall. intros op Hop. eapply proposal_create_other in He; [|by apply Hop].
  destruct op; done.
Qed.

(** No operation makes an approval part of a proposal. *)
Lemma apply_level_plain flags n proposed s o s' : apply_level flags n proposed s o = Ok s' → stays_plain s s'.
Proof.
  revert proposed s o s'. induction n as [|n IH]; intros proposed s o s' H; [done|]. cbn in H.
  destruct o; try (apply evaluator_apply_frame in H as [_ Hp]; unfold stays_plain, proposals_plain; by rewrite Hp);
    (eapply (proposal_start_related stays_plain) in H; [done|apply _|by intros ? ? _ ?|]).
  - intros [] s1 s2 He Hc _ Ha. apply rbind_ok in Ha as ([i s3] & Ha & [= <-]).
    by eapply create_plain.
  - intros id s1 s2 _ _ _ Ha. eapply update_plain; [|exact Ha]. intros. by eapply IH.
  - intros id s1 s2 _ _ _ Ha. by eapply (remove_plain s1 id).
Qed.
End chain.
