(* ===== verification/TransactionTheorems.v ===== *)
(** * Transactions: the theorems

    What an accepted transaction says -- it is authorised, in time and new --,
    how deep operations nest, and what happens to an operation without an
    evaluator. *)

From stdpp Require Import gmap strings list.
From Stdlib Require Import ZArith Lia.
From S2P Require Import Prelude Fc Config Authority AuthorityTheorems Asset VestingBalance Objects Database Sample Balances Fees ObFee Exchange Transfer PriceFeeds PriceFeedProps Accounts ForkDb Proposal ProposalProps ProposalTheorems Confidential SmallOps Operations FeeSchedule ChainState ChainProps.

Local Open Scope Z_scope.

Section transactions.
Context {FC : FcArith} {BA : BoostArith} {NE : NthElement} {FS : FcString} {IP : FcIp} {P : Pedersen} {PS : PackSizes}.
Context {TD : TransactionDigest}.
Context (key_addresses : Z → list Z) (current_fees : chain_parameters → fee_schedule).

Notation chain := (chain_proposals key_addresses).
Notation apply_level := (apply_level key_addresses current_fees).
Notation apply_transaction := (apply_transaction key_addresses current_fees).

(** What the operations of a transaction need together. *)
Definition trx_required (trx : transaction) : required_auths :=
  foldl join_required no_required (transaction_required trx).

(** The authorities of the accounts and those in the operations are in the
    range of their types. *)
Definition accounts_authority_wf (d : database) : Prop :=
  ∀ x a, objs (db_accounts d) !! x = Some a → authority_wf (ao_active a) ∧ authority_wf (ao_owner a).
Definition trx_authority_wf (trx : transaction) : Prop :=
  ∀ a, a ∈ req_other (trx_required trx) → authority_wf a.

Lemma signature_keys_ok l s : get_signature_keys l = Ok s → NoDup l ∧ s = list_to_set l.
Proof.
  unfold get_signature_keys. assert (∀ t : gset Z,
    rfold (λ s k, GRAPHENE_ASSERT (bool_decide (k ∉ s)) else tx_duplicate_sig ;; Ok (s ∪ {[ k ]})) t l = Ok s →
    (∀ k, k ∈ l → k ∉ t) ∧ NoDup l ∧ s = t ∪ list_to_set l) as Hg.
  { induction l as [|k l IH]; intros t H; simpl in H.
    - injection H as <-. split_and!; [intros ? Hk; inversion Hk|constructor|set_solver].
    - ok_inv. apply IH in H as (Hl & Hn & ->). split_and!; [|constructor; [|done]|set_solver].
      + intros j [->|Hj]%elem_of_cons; [done|]. specialize (Hl _ Hj). set_solver.
      + intros Hk. specialize (Hl _ Hk). set_solver. }
  intros (_ & Hn & ->)%Hg. split; [done|set_solver].
Qed.

Lemma verify_ok s trx : accounts_authority_wf (cs_db s) → trx_authority_wf trx →
  transaction_verify_authority key_addresses s trx = Ok tt →
  NoDup (tx_signature_keys trx) ∧
  authorised key_addresses (@host_active _ _ chain s) (@host_owner _ _ chain s) (trx_required trx)
    (list_to_set (tx_signature_keys trx)) ∅ ∅ ∧
  GRAPHENE_COMMITTEE_ACCOUNT ∉ req_active (trx_required trx).
Proof.
  intros Hacc Htrx H. apply rbind_ok in H as (sigs & [Hn ->]%signature_keys_ok & H).
  apply verify_authority_ok in H as (Ha & [|Hc] & _); [done|done| | |exact Htrx];
    intros x b Hb; apply rbind_ok in Hb as (a & Hx%of_option_ok & [= <-]); by apply Hacc in Hx as [].
Qed.

Lemma check_times_ok flags s trx : check_times flags s trx = Ok tt → 0 < head_block_num (cs_db s) →
  (skip_tapos_check flags = false → tx_ref_block_prefix trx = ref_prefix (block_summary s (tx_ref_block_num trx))) ∧
  head_block_time (cs_db s) <= tx_expiration trx <=
    time_add (head_block_time (cs_db s)) (cp_maximum_time_until_expiration (parameters (cs_db s))).
Proof.
  unfold check_times. intros H Hn. destruct (Z.ltb_spec 0 (head_block_num (cs_db s))) as [_|]; [|lia].
  apply rbind_ok in H as (u & Hp%require_ok & H). apply rbind_ok in H as (v & Ht%require_ok & H%require_ok).
  split; [|lia]. intros Hs. rewrite Hs in Hp. simpl in Hp. lia.
Qed.

(** The stages of [_apply_transaction]. *)
Lemma apply_transaction_ok flags s trx s' : skip_transaction_dupe_check flags = false →
  apply_transaction flags s trx = Ok s' →
  transaction_validate trx = Ok tt ∧ clashes transaction_clash (objs (cs_transactions s)) (mkTxObject trx (tx_id trx)) = false ∧
  (skip_transaction_signatures flags || skip_authority_check flags = true ∨
   transaction_verify_authority key_addresses s trx = Ok tt) ∧
  check_times flags s trx = Ok tt ∧
  objs (cs_transactions s') =
    <[next_id (cs_transactions s) := mkTxObject trx (tx_id trx)]> (objs (cs_transactions s)) ∧
  objs (cs_transactions s) !! next_id (cs_transactions s) = None ∧
  clock (cs_db s') = clock (cs_db s) ∧ cs_head_block_id s' = cs_head_block_id s ∧
  cs_block_summaries s' = cs_block_summaries s ∧ temp_account_empty (cs_db s') = true.
Proof.
  intros Hd H. unfold ChainState.apply_transaction in H. rewrite Hd in H.
  apply rbind_ok in H as ([] & Hv & H). apply rbind_ok in H as (u & Hc%require_ok & H).
  apply rbind_ok in H as ([] & Ha & H). apply rbind_ok in H as ([] & Ht & H).
  apply rbind_ok in H as (s1 & Hs1 & H). apply rbind_ok in Hs1 as ([i t] & Hi & [= <-]).
  apply index_create_ok in Hi as (-> & Hn & _ & ->).
  apply rbind_ok in H as (s2 & Hops & H). apply rbind_ok in H as (u2 & Htemp%require_ok & [= <-]).
  eapply (rfold_invariant _ frame) in Hops as (F1 & F2 & F3 & F4);
    [|intros; reflexivity|intros; by etrans|intros ? ? ? _; apply apply_level_frame].
  cbn in F1, F2, F3, F4. rewrite F2. split_and!; try done.
  - by apply negb_true_iff in Hc.
  - destruct (skip_transaction_signatures flags || _); [by left|by right].
Qed.

(** C3. An accepted transaction is authorised, in time and new.  When
    [_apply_transaction] succeeds with all its checks, the transaction has
    operations and each of them is valid; no two signatures are by the same
    key; the signatures satisfy every authority the operations require, and
    the committee's is not among them; after the first block it refers to a
    recent block and expires between the time of the head and the longest
    time allowed after it; no remembered transaction has its id; it is
    remembered, with all others; and nothing is left on the temporary
    account. *)
Theorem accepted_transaction s trx s' : accounts_authority_wf (cs_db s) → trx_authority_wf trx →
  apply_transaction skip_nothing s trx = Ok s' →
  transaction_validate trx = Ok tt ∧ NoDup (tx_signature_keys trx) ∧
  authorised key_addresses (@host_active _ _ chain s) (@host_owner _ _ chain s) (trx_required trx)
    (list_to_set (tx_signature_keys trx)) ∅ ∅ ∧
  GRAPHENE_COMMITTEE_ACCOUNT ∉ req_active (trx_required trx) ∧
  (0 < head_block_num (cs_db s) →
     tx_ref_block_prefix trx = ref_prefix (block_summary s (tx_ref_block_num trx)) ∧
     head_block_time (cs_db s) <= tx_expiration trx <=
       time_add (head_block_time (cs_db s)) (cp_maximum_time_until_expiration (parameters (cs_db s)))) ∧
  (∀ i o, objs (cs_transactions s) !! i = Some o → to_trx_id o ≠ tx_id trx) ∧
  (∃ i, objs (cs_transactions s) !! i = None ∧
     objs (cs_transactions s') = <[i := mkTxObject trx (tx_id trx)]> (objs (cs_transactions s))) ∧
  ∀ a, default 0 (db_balances (cs_db s') !! (GRAPHENE_TEMP_ACCOUNT, a)) = 0.
Proof.
  intros Hacc Htrx H.
  apply apply_transaction_ok in H as (Hv & Hc & [?|Ha] & Ht & Ho & Hn & _ & _ & _ & Htemp); [done| |done].
  apply verify_ok in Ha as (H1 & H2 & H3); [|done..]. split_and!; try done.
  - intros Hpos. eapply check_times_ok in Ht as [Hp ?]; [|done]. auto.
  - intros i o Hi. eapply clashes_false in Hc; [|done]. unfold transaction_clash in Hc. simpl in Hc. lia.
  - by eexists.
  - intros a. unfold temp_account_empty in Htemp. apply bool_decide_eq_true in Htemp.
    destruct (db_balances _ !! _) as [b|] eqn:E; [|done]. simpl. by apply (Htemp _ _ E).
Qed.

(** Operations nest at most two levels deep.  A proposal in the tables
    never contains the approval of a proposal, which every operation
    preserves; and from such a state every operation that has two levels of
    nesting does exactly what it does with more of them, so the recursion from
    an approval into the operations it releases always ends. *)
Theorem nesting_ends flags n proposed s o : proposals_plain s →
  apply_level flags (levels + n) proposed s o = apply_level flags levels proposed s o ∧
  ∀ s', apply_level flags levels proposed s o = Ok s' → proposals_plain s'.
Proof. intros Hs. split; [by apply two_levels|]. intros s' H. by eapply apply_level_plain in H; apply H. Qed.

(** An operation without an evaluator.  The transfer of an account passes
    its validation with any fee that is not negative, and no evaluator is
    registered for it; a transaction that starts with one and passes every
    check calls through a null pointer. *)
Theorem account_transfer_undefined flags s trx op ops :
  tx_operations trx = op_account_transfer op :: ops → transaction_validate trx = Ok tt →
  clashes transaction_clash (objs (cs_transactions s)) (mkTxObject trx (tx_id trx)) = false →
  objs (cs_transactions s) !! next_id (cs_transactions s) = None →
  transaction_verify_authority key_addresses s trx = Ok tt → check_times flags s trx = Ok tt →
  apply_transaction flags s trx = Throw undefined_behaviour ∧ catchable undefined_behaviour = false.
Proof.
  intros Hops Hv Hc Hn Ha Ht. split; [|done]. unfold ChainState.apply_transaction. rewrite Hv. cbn [rbind].
  rewrite Hc, orb_true_r. cbn [rbind require]. rewrite Ha.
  assert ((if skip_transaction_signatures flags || skip_authority_check flags then Ok tt else Ok tt) = Ok tt) as ->
    by (by destruct (_ || _)). cbn [rbind]. rewrite Ht. cbn [rbind]. rewrite Hops.
  destruct (skip_transaction_dupe_check flags); [done|].
  unfold index_create. rewrite Hc, bool_decide_eq_true_2 by done. done.
Qed.
End transactions.

(** ** A sample *)

#[local] Existing Instance fc_reference.
#[local] Existing Instance boost_reference.
#[local] Existing Instance nth_reference.
#[local] Instance same_case : FcString := {| to_lower s := s |}.
#[local] Instance no_ip : FcIp := {| ip_address _ := None; is_public_address _ := false |}.
#[local] Instance no_commitments : Pedersen := {| blind b v := Ok v; verify_sum _ _ _ := false; range_max_value _ := Throw thrown |}.
#[local] Instance no_sizes : PackSizes := {|
  packed_operation _ := 0; packed_string _ := 0; packed_memo _ := 0; has_memo _ := false |}.
#[local] Instance expiration_digest : TransactionDigest := {| tx_id t := tx_expiration t |}.

(** Alice signs with key 4; there are no fees. *)
Definition keyed_db : database :=
  set_accounts (λ t, mkTable (alter (set_active (λ _, mkAuthority 1 [] [(4, 1)] [])) alice (objs t)) (next_id t)) sample_db.
Definition sample_chain_state : chain_state :=
  mkChainState keyed_db (mkTable ∅ 0) (mkTable ∅ 0) (100 * 2 ^ 128) {[ 7 := 7 * 2 ^ 128 + 5 * 2 ^ 96 ]}.
Definition no_addresses (k : Z) : list Z := [].
Definition no_fees (p : chain_parameters) : fee_schedule := zero_all_fees.

Definition sample_payment : operation :=
  op_transfer (mkTransfer (core_asset 0) no_ob_fee alice bob (core_asset 10) 5 None None).
Definition signed_trx (ops : list operation) : transaction :=
  mkTransaction 7 (5 * 2 ^ 24) 1570000100 ops [4].
Definition paid_state : chain_state :=
  get_ok (apply_transaction no_addresses no_fees skip_nothing sample_chain_state (signed_trx [sample_payment])) sample_chain_state.

Lemma payment_accepted :
  apply_transaction no_addresses no_fees skip_nothing sample_chain_state (signed_trx [sample_payment]) = Ok paid_state.
Proof. apply get_ok_eq. vm_compute. reflexivity. Qed.

(** Neither another key nor a second time. *)
Example payment_refused :
  is_ok (apply_transaction no_addresses no_fees skip_nothing sample_chain_state
    (mkTransaction 7 (5 * 2 ^ 24) 1570000100 [sample_payment] [5])) = false ∧
  is_ok (apply_transaction no_addresses no_fees skip_nothing paid_state (signed_trx [sample_payment])) = false.
Proof. vm_compute. done. Qed.

Lemma keyed_db_wf : accounts_authority_wf keyed_db.
Proof.
  assert (map_Forall (λ _ a, authority_wf (ao_active a) ∧ authority_wf (ao_owner a)) (objs (db_accounts keyed_db))) as H;
    [|exact H].
  unfold authority_wf. apply (bool_decide_eq_true_1 _). vm_compute. reflexivity.
Qed.

Lemma accepted_transaction_witness :
  authorised no_addresses (@host_active _ _ (chain_proposals no_addresses) sample_chain_state)
    (@host_owner _ _ (chain_proposals no_addresses) sample_chain_state)
    (trx_required (signed_trx [sample_payment])) {[ 4 ]} ∅ ∅.
Proof.
  destruct (accepted_transaction no_addresses no_fees sample_chain_state (signed_trx [sample_payment]) paid_state)
    as (_ & _ & H & _).
  - exact keyed_db_wf.
  - intros a Ha. vm_compute in Ha. inversion Ha.
  - exact payment_accepted.
  - exact H.
Defined.

(** Bob has proposed the payment; Alice approves, and it is executed. *)
Definition sample_proposal : proposal_object operation :=
  proposal_of (PS := chain_proposals no_addresses) (mkProposalCreate bob [sample_payment] 1570000500 None).
Definition proposed_state : chain_state := set_cs_proposals (mkTable {[ 0 := sample_proposal ]} 1) sample_chain_state.
Definition alice_approves : proposal_update_operation := mkProposalUpdate alice 0 0 {[ alice ]} ∅ ∅ ∅ ∅ ∅.
Definition approved_state : chain_state :=
  get_ok (@proposal_update_do_apply _ _ (chain_proposals no_addresses) (proposal_host no_addresses no_fees skip_nothing 1)
    proposed_state alice_approves 0) proposed_state.


Lemma nesting_ends_witness :
  apply_level no_addresses no_fees skip_nothing (levels + 5) false sample_chain_state sample_payment =
  apply_level no_addresses no_fees skip_nothing levels false sample_chain_state sample_payment.
Proof.
  destruct (nesting_ends no_addresses no_fees skip_nothing 5 false sample_chain_state sample_payment) as [H _].
  - apply map_Forall_empty.
  - exact H.
Defined.

Definition sample_account_transfer : account_transfer_operation := mkAccountTransfer (core_asset 0) alice bob.

Lemma account_transfer_undefined_witness :
  apply_transaction no_addresses no_fees skip_nothing sample_chain_state
    (signed_trx [op_account_transfer sample_account_transfer]) = Throw undefined_behaviour.
Proof.
  apply (account_transfer_undefined no_addresses no_fees skip_nothing sample_chain_state
    (signed_trx [op_account_transfer sample_account_transfer]) sample_account_transfer []); vm_compute; reflexivity.
Defined.
