(* ===== verification/BlockApply.v ===== *)
(** * Applying a block ([db_block.cpp], [db_update.cpp], [protocol/block.cpp])

    [apply_block] on the whole state: the header against the head and the
    schedule of the witnesses, the transactions and their Merkle root, the
    limits on bonus operations, and the updates after every block.  The
    changes that a debugging session adds to a block, and the signals to
    observers, are left out. *)

From stdpp Require Import gmap strings list.
From Stdlib Require Import ZArith Lia.
From S2P Require Import Prelude Fc Config Authority Asset VestingBalance Objects Database Balances Fees ObFee Fba Exchange Transfer Bonus Escrow Listing VestingEval MarketEval PriceFeeds AssetOps AssetEval Governance Accounts Upkeep WithdrawPermission WitnessSchedule Maintenance ForkDb Proposal Confidential SmallOps Operations FeeSchedule ChainState.

Local Open Scope Z_scope.

(** ** Blocks *)

(** The digest of a transaction in a block covers its results, which are not
    in [transaction]. *)
Record processed_transaction := mkProcessed { pt_trx : transaction; merkle_digest : Z }.

(** What a block holds besides the id of the previous one; of the signature,
    the key it recovers to, which may fail. *)
Record block_content := mkContent {
  bc_timestamp : Z;
  bc_witness : Z;
  bc_transaction_merkle_root : Z;
  bc_signee : result Z;
  bc_transactions : list processed_transaction
}.

Class BlockContents := { content : signed_block → block_content }.

(** [digest_type::hash] of a pair of digests and [checksum_type::hash]. *)
Class MerkleHash := { hash_pair : Z → Z → Z; hash_checksum : Z → Z }.

Section merkle.
Context {MH : MerkleHash}.

(** One round of the loop: the pairs, and what is left over. *)
Fixpoint merkle_round (ids : list Z) : list Z :=
  match ids with
  | a :: b :: ids' => hash_pair a b :: merkle_round ids'
  | _ => ids
  end.

Fixpoint merkle_loop (fuel : nat) (ids : list Z) : result Z :=
  match ids with
  | [] => Throw undefined_behaviour
  | [x] => Ok x
  | _ => match fuel with
         | O => Throw out_of_fuel
         | S fuel' => merkle_loop fuel' (merkle_round ids)
         end
  end.

Definition calculate_merkle_root (ids : list Z) : result Z :=
  match ids with
  | [] => Ok 0
  | _ => let* x := merkle_loop (length ids) ids in Ok (hash_checksum x)
  end.
End merkle.

(** ** The state *)

Definition set_cs_head_block_id (i : Z) (s : chain_state) : chain_state :=
  mkChainState (cs_db s) (cs_proposals s) (cs_transactions s) i (cs_block_summaries s).
Definition set_cs_block_summaries (m : gmap Z Z) (s : chain_state) : chain_state :=
  mkChainState (cs_db s) (cs_proposals s) (cs_transactions s) (cs_head_block_id s) m.

Definition set_dynamic_flags : (Z → Z) → _ → _ := ltac:(field_setter dgpo_eta dg_dynamic_flags).

Definition update_maintenance_flag (new_maintenance_flag : bool) (d : database) : result database :=
  modify_dgpo d (λ g, Ok (set_dynamic_flags (λ f,
    Z.lor (Z.land f (Z.lnot maintenance_flag)) (if new_maintenance_flag then maintenance_flag else 0)) g)).

(** The transactions that are remembered, by expiration; [fuel] bounds the
    loop. *)
Fixpoint clear_expired_transactions (fuel : nat) (s : chain_state) : result chain_state :=
  match first_by (λ o, tx_expiration (to_trx o)) (objs (cs_transactions s)) with
  | None => Ok s
  | Some (id, o) =>
      if tx_expiration (to_trx o) <? head_block_time (cs_db s) then
        match fuel with
        | O => Throw out_of_fuel
        | S fuel' =>
            let* t := index_remove (cs_transactions s) id in
            clear_expired_transactions fuel' (set_cs_transactions t s)
        end
      else Ok s
  end.

Section chain.
Context {FC : FcArith} {BA : BoostArith} {NE : NthElement} {FS : FcString} {IP : FcIp} {P : Pedersen} {PS : PackSizes}.
Context {BD : BlockDigest} {BC : BlockContents} {MH : MerkleHash} {TD : TransactionDigest}.
Context (key_addresses : Z → list Z) (current_fees : chain_parameters → fee_schedule).
(** The trusted ids of some blocks. *)
Context (checkpoints : gmap Z Z).

Notation current_fee := (current_fee current_fees).

Definition block_header (b : signed_block) : block_info :=
  WitnessSchedule.mkBlock (block_num b) (bc_timestamp (content b)) (bc_witness (content b)).

(** ** The header *)

(** The result is the witness that signed. *)
Definition validate_block_header (flags : skip_flags) (s : chain_state) (b : signed_block) : result Z :=
  let d := cs_db s in
  let c := content b in
  FC_ASSERT (cs_head_block_id s =? previous b) ;;
  FC_ASSERT (head_block_time d <? bc_timestamp c) ;;
  let* w := get_witness d (bc_witness c) in
  let* _ :=
    if skip_witness_signature flags then Ok tt
    else let* k := bc_signee c in require (k =? wo_signing_key w) assert_exception in
  let* _ :=
    if skip_witness_schedule_check flags then Ok tt
    else
      let* slot_num := get_slot_at_time d (bc_timestamp c) in
      FC_ASSERT (0 <? slot_num) ;;
      let* scheduled_witness := get_scheduled_witness d slot_num in
      require (bc_witness c =? scheduled_witness) assert_exception in
  Ok (bc_witness c).

(** ** The bonus operations of a block *)

Definition block_operations (b : signed_block) : list operation :=
  bc_transactions (content b) ≫= λ t, tx_operations (pt_trx t).

Definition witness_bonuses (l : list operation) : list witness_bonus_operation :=
  omap (λ o, match o with op_witness_bonus op => Some op | _ => None end) l.
Definition founder_bonuses (l : list operation) : list founder_bonus_operation :=
  omap (λ o, match o with op_founder_bonus op => Some op | _ => None end) l.

(** Both checks read the state after the transactions. *)
Definition check_bonuses (signing_witness : Z) (b : signed_block) (d : database) : result unit :=
  let* w := get_witness d signing_witness in
  let wit_ops := witness_bonuses (block_operations b) in
  FC_ASSERT (if dg_witness_bonus (db_dgpo d) <? OMNIBAZAAR_WITNESS_BONUS_TOTAL_COINS
             then forallb (λ op, nb_receiver op =? wo_witness_account w) wit_ops && (length wit_ops <=? 1)%nat
             else true) ;;
  require (if dg_founder_bonus (db_dgpo d) <? OMNIBAZAAR_FOUNDER_BONUS_COINS_LIMIT
           then (length (founder_bonuses (block_operations b)) <=? 1)%nat else true) assert_exception.

(** ** The updates after the transactions *)

(** The fees of the operations that the chain itself applies: those of a
    withdrawal, a deletion and a cancellation do not depend on what is
    withdrawn, deleted or cancelled. *)
Definition withdraw_fee (s : chain_state) : result Z :=
  current_fee s (op_vesting_balance_withdraw (mkVestingWithdraw (core_asset 0) 0 0 (core_asset 0))).
Definition delete_fee (s : chain_state) : result Z :=
  current_fee s (op_listing_delete (mkListingDelete (core_asset 0) 0 0)).
Definition cancel_fee (s : chain_state) : result asset :=
  schedule_fee (current_fees (parameters (cs_db s))) unit_price
    (op_limit_order_cancel (mkLimitCancel (core_asset 0) 0 0)).
Definition closing_fee (s : chain_state) (release : bool) (op : escrow_close_operation) : result Z :=
  current_fee s (if release then op_escrow_release (mkRelease op) else op_escrow_return (mkReturn op)).

Definition create_block_summary (b : signed_block) (s : chain_state) : chain_state :=
  set_cs_block_summaries (<[Z.land (block_num b) 65535 := block_id b]> (cs_block_summaries s)) s.

(** The head of the chain moves to the block.  The maximum size that
    [update_global_dynamic_data] gives the undo history and the fork database
    is [history_limit] below: both belong to the node, not to the state. *)
Definition advance (last_checkpoint : option Z) (flags : skip_flags) (b : signed_block) (signing_witness : Z)
    (s : chain_state) : result chain_state :=
  let h := block_header b in
  let* (d, _) := update_global_dynamic_data (skip_undo_history_check flags) last_checkpoint (cs_db s) h in
  let* d := update_signing_witness d signing_witness h in
  let* d := update_last_irreversible_block d in
  Ok (set_cs_head_block_id (block_id b) (set_cs_db d s)).

(** What has expired goes.  A loop whose number of rounds is not the size of
    its table never ends. *)
Definition clear_expired (flags : skip_flags) (s : chain_state) : result chain_state :=
  let* s := clear_expired_transactions (size (objs (cs_transactions s))) s in
  let* s := clear_expired_proposals (PS := chain_proposals key_addresses)
              (PH := proposal_host key_addresses current_fees flags levels) (size (objs (cs_proposals s))) s in
  let* s := on_db (clear_expired_orders (cancel_fee s)) s in
  let* s := on_db (λ d, clear_expired_escrows (size (objs (db_escrows d))) (closing_fee s) d) s in
  let* s := on_db (λ d, clear_expired_listings (size (objs (db_listings d))) (delete_fee s) d) s in
  let* s := on_db update_expired_feeds s in
  on_db (λ d, update_withdraw_permissions (size (objs (db_withdraw_permissions d))) d) s.

Definition maintenance_needed (s : chain_state) (b : signed_block) : bool :=
  dg_next_maintenance_time (db_dgpo (cs_db s)) <=? bc_timestamp (content b).

Definition after_transactions (last_checkpoint : option Z) (flags : skip_flags) (maint_needed : bool)
    (b : signed_block) (signing_witness : Z) (s : chain_state) : result chain_state :=
  let* s := advance last_checkpoint flags b signing_witness s in
  let* s := if maint_needed
            then on_db (perform_chain_maintenance (withdraw_fee s) (bc_timestamp (content b)) (block_num b)) s
            else Ok s in
  let* s := clear_expired flags (create_block_summary b s) in
  let* s := on_db (update_maintenance_flag maint_needed) s in
  on_db update_witness_schedule s.

(** ** The block *)

Definition apply_transactions (flags : skip_flags) (s : chain_state) (l : list processed_transaction)
    : result chain_state :=
  rfold (λ s t, apply_transaction key_addresses current_fees flags s (pt_trx t)) s l.

(** The first part of [_apply_block]: the state after the transactions, and
    the witness that signed. *)
Definition checked_transactions (flags : skip_flags) (s : chain_state) (b : signed_block) : result (chain_state * Z) :=
  let c := content b in
  let* root := calculate_merkle_root (merkle_digest <$> bc_transactions c) in
  FC_ASSERT (skip_merkle_check flags || (bc_transaction_merkle_root c =? root)) ;;
  let* signing_witness := validate_block_header flags s b in
  let* s := apply_transactions flags s (bc_transactions c) in
  let* _ := check_bonuses signing_witness b (cs_db s) in
  Ok (s, signing_witness).

(** [_apply_block]. *)
Definition apply_block_inner (last_checkpoint : option Z) (flags : skip_flags) (s : chain_state) (b : signed_block)
    : result chain_state :=
  let* (s1, signing_witness) := checked_transactions flags s b in
  after_transactions last_checkpoint flags (maintenance_needed s b) b signing_witness s1.

Definition last_checkpoint : option (Z * Z) :=
  n ← last (in_order (dom checkpoints));
  i ← checkpoints !! n;
  Some (n, i).

(** A checkpoint without an id at the end turns the others off. *)
Definition block_flags (flags : skip_flags) (b : signed_block) : result skip_flags :=
  match last_checkpoint with
  | Some (n, i) =>
      if i =? 0 then Ok flags
      else
        FC_ASSERT (bool_decide (default (block_id b) (checkpoints !! block_num b) = block_id b)) ;;
        Ok (if block_num b <=? n then skip_everything else flags)
  | None => Ok flags
  end.

Definition apply_block (flags : skip_flags) (s : chain_state) (b : signed_block) : result chain_state :=
  let* flags := block_flags flags b in
  apply_block_inner (fst <$> last_checkpoint) flags s b.

(** The maximum size that the histories of the node get while the block is
    applied, if the application gets that far. *)
Definition history_limit (flags : skip_flags) (s : chain_state) (b : signed_block) : option Z :=
  let r :=
    let* flags := block_flags flags b in
    let* (s1, _) := checked_transactions flags s b in
    let* (_, limit) := update_global_dynamic_data (skip_undo_history_check flags) (fst <$> last_checkpoint)
                         (cs_db s1) (block_header b) in
    Ok limit in
  match r with Ok limit => Some limit | Throw _ => None end.
End chain.
