(* ===== verification/BlockProps.v ===== *)
(** * Applying a block: the properties

    Neither chain maintenance nor what is done after every block moves the
    clock; only [update_global_dynamic_data] does.  Every applied block extends
    the head, moves the clock to its own time and forgets exactly the
    transactions that have expired. *)

From stdpp Require Import gmap strings list.
From Stdlib Require Import ZArith Lia.
From S2P Require Import Prelude Fc Config Authority Asset VestingBalance Objects Database Balances Fees ObFee Fba Exchange Transfer Bonus Escrow Listing VestingEval Market MarketEval PriceFeeds AssetOps AssetEval Upkeep VoteCount PopScores Elections Budget WithdrawPermission WitnessSchedule Maintenance ChainProps ListingInv Governance Accounts ForkDb Proposal ProposalProps Confidential SmallOps Operations FeeSchedule ChainState TransactionTheorems BlockApply.


Local Open Scope Z_scope.

(** Also results that contain the next database on the left. *)
#[export] Instance fst_has_db {A B} `{HasDb A} : HasDb (A * B) | 10 := λ p, the_db p.1.

Lemma same_clock_fold_state {A X} `{HasDb A} (f : A → X → result A) l a :
  (∀ a x, same_clock (the_db a) (f a x)) → same_clock (the_db a) (rfold f a l).
Proof.
  intros Hf. revert a. induction l as [|x l IH]; intros a; simpl; [by apply same_clock_ok|].
  eapply same_clock_db; [apply Hf|]. intros a1 E. by eapply same_clock_from.
Qed.

#[local] Hint Extern 1 (same_clock _ (modify_dgpo _ _)) =>
  apply clock_modify_dgpo; intros; ok_inv; split; reflexivity : clock.

Section upkeep.
Context {FC : FcArith} {BA : BoostArith} {NE : NthElement}.

Lemma clock_limit_order_cancel sf sc r d (op : limit_order_cancel_operation) :
  same_clock d (start_evaluate sf sc r d op).
Proof. apply clock_start. intros d1 st. evaluator_cbn. clock_tac. Qed.
Lemma clock_withdraw sf sc r d (op : vesting_balance_withdraw_operation) :
  same_clock d (start_evaluate sf sc r d op).
Proof. apply clock_start. intros d1 st. evaluator_cbn. clock_tac. Qed.
Lemma clock_release sf sc r d (op : escrow_release_operation) : same_clock d (start_evaluate sf sc r d op).
Proof. apply clock_start. intros d1 st. evaluator_cbn. clock_tac. Qed.
Lemma clock_return sf sc r d (op : escrow_return_operation) : same_clock d (start_evaluate sf sc r d op).
Proof. apply clock_start. intros d1 st. evaluator_cbn. clock_tac. Qed.
Lemma clock_listing_delete sf sc r d (op : listing_delete_operation) : same_clock d (start_evaluate sf sc r d op).
Proof. apply clock_start. intros d1 st. evaluator_cbn. clock_tac. Qed.
#[local] Hint Resolve clock_limit_order_cancel clock_withdraw clock_release clock_return clock_listing_delete : clock.

Lemma clock_clear_limit_orders fuel f d : same_clock d (clear_expired_limit_orders fuel f d).
Proof. revert d. induction fuel; intros d; simpl; clock_tac. Qed.
#[local] Hint Resolve clock_clear_limit_orders : clock.
Lemma clock_settle_order fuel id mia aid p m x d : same_clock d (settle_order fuel id mia aid p m x d).
Proof.
  revert x d. induction fuel as [|fuel IH]; intros x d; cbn [settle_order]; [clock_tac|].
  apply same_clock_any; intros []; [|clock_tac]. destruct (objs _ !! id) as [o|]; [|clock_tac].
  do 3 (apply same_clock_any; intros ?). destruct (_ =? 0); [clock_tac|].
  destruct (match_settlement _ _ _ _ _) as [[y d1]|e] eqn:E.
  - apply clock_match_settlement in E. apply same_clock_any; intros z. by eapply same_clock_from.
  - destruct e; clock_tac.
Qed.
#[local] Hint Resolve clock_settle_order : clock.
Lemma clock_settle_due_order d id a x m : same_clock d (settle_due_order d id a x m).
Proof. clock_tac. Qed.
#[local] Hint Resolve clock_settle_due_order : clock.
Lemma clock_settle_due fuel x m d : same_clock d (settle_due fuel x m d).
Proof. revert x m d. induction fuel; intros x m d; simpl; clock_tac. Qed.
#[local] Hint Resolve clock_settle_due : clock.
Lemma clock_clear_expired_orders f d : same_clock d (clear_expired_orders f d).
Proof. clock_tac. Qed.
Lemma clock_clear_escrows fuel r d : same_clock d (clear_expired_escrows fuel r d).
Proof. revert d. induction fuel; intros d; simpl; clock_tac. Qed.
Lemma clock_clear_listings fuel r d : same_clock d (clear_expired_listings fuel r d).
Proof. revert d. induction fuel; intros d; simpl; clock_tac. Qed.
Lemma clock_update_expired_feeds d : same_clock d (update_expired_feeds d).
Proof. clock_tac. Qed.
Lemma clock_withdraw_permissions fuel d : same_clock d (update_withdraw_permissions fuel d).
Proof. revert d. induction fuel; intros d; simpl; clock_tac. Qed.
End upkeep.

#[export] Hint Resolve clock_limit_order_cancel clock_withdraw clock_clear_expired_orders clock_clear_escrows
  clock_clear_listings clock_update_expired_feeds clock_withdraw_permissions : clock.

Section maintenance.
Context {FC : FcArith} {BA : BoostArith} {NE : NthElement} {FS : FcString}.

Lemma clock_distribute_fba d : same_clock d (distribute_fba_balances d).
Proof. clock_tac. Qed.

Lemma same_clock_half {A} `{HasDb A} d (c : result A) : same_clock d c → same_clock d (half_done c).
Proof. intros Hc. unfold half_done. by destruct c. Qed.

Lemma clock_sell_holding x a l d y : same_clock d (sell_holding x a l d y).
Proof.
  unfold sell_holding. destruct (db_balances d !! _) as [n|]; [|clock_tac].
  do 3 (case_match; [clock_tac|]). destruct (evaluate_order _ _) as [u|e]; [|clock_tac].
  apply same_clock_half. eapply same_clock_db; [apply clock_limit_order_create|intros [i d1] E]. clock_tac.
Qed.
#[local] Hint Resolve clock_distribute_fba clock_sell_holding : clock.
Lemma clock_buyback_orders d : same_clock d (create_buyback_orders d).
Proof. clock_tac. Qed.

Lemma clock_account_maintenance d : same_clock d (perform_account_maintenance d).
Proof.
  refine (same_clock_fold_state account_maintenance (accounts_by_name d) (d, new_tally d) _).
  intros [d1 t] id. unfold account_maintenance. clock_tac.
Qed.
Lemma clock_top_n d : same_clock d (update_top_n_authorities d).
Proof. clock_tac. Qed.
Lemma clock_scores b d : same_clock d (update_account_scores b d).
Proof. clock_tac. Qed.
Lemma clock_active_witnesses b d : same_clock d (update_active_witnesses b d).
Proof. clock_tac. Qed.
Lemma clock_active_committee b d : same_clock d (update_active_committee_members b d).
Proof. clock_tac. Qed.
Lemma clock_worker_votes b d : same_clock d (update_worker_votes b d).
Proof. clock_tac. Qed.
Lemma clock_vested_balances f d : same_clock d (update_vested_balances f d).
Proof. clock_tac. Qed.
#[local] Hint Resolve clock_buyback_orders clock_account_maintenance clock_top_n clock_scores clock_active_witnesses
  clock_active_committee clock_worker_votes clock_vested_balances : clock.
Lemma clock_accounts_and_votes f d : same_clock d (accounts_and_votes f d).
Proof. clock_tac. Qed.
Lemma clock_global_parameters d : same_clock d (update_global_parameters d).
Proof. clock_tac. Qed.
Lemma clock_schedule_maintenance t n d : same_clock d (schedule_maintenance t n d).
Proof.
  unfold schedule_maintenance. apply same_clock_any; intros next.
  eapply same_clock_db; [clock_tac|intros d1 E]. destruct (_ && _); clock_tac.
Qed.

(** The bids on a settled asset. *)
Lemma clock_take_over bad s id : same_clock s.1.1 (take_over bad s id).
Proof. destruct s as [[d c] f]. cbn [fst]. clock_tac. Qed.
Lemma clock_take_over_all bad l s : same_clock s.1.1 (rfold (take_over bad) s l).
Proof. exact (same_clock_fold_state (take_over bad) l s (clock_take_over bad)). Qed.
Lemma clock_process_bids d bad : same_clock d (process_bids d bad).
Proof.
  unfold process_bids. do 3 (case_match; [clock_tac|]). do 4 (apply same_clock_any; intros ?).
  apply same_clock_any; intros [c l]. case_match; [clock_tac|].
  eapply same_clock_db; [exact (clock_take_over_all bad l (d, _, _))|]. intros [[d1 x] y] E. clock_tac.
Qed.
#[local] Hint Resolve clock_process_bids : clock.
Lemma clock_bitasset_maintenance d id : same_clock d (bitasset_maintenance d id).
Proof. clock_tac. Qed.

(** Paying the workers. *)
Lemma clock_pay_next_worker s iw : same_clock s.1 (pay_next_worker s iw).
Proof. destruct s as [d x]. cbn [fst]. clock_tac. Qed.
Lemma clock_pay_workers d x : same_clock d (pay_workers d x).
Proof.
  refine (same_clock_fold_state pay_next_worker _ (d, x) clock_pay_next_worker).
Qed.
#[local] Hint Resolve clock_pay_workers clock_accounts_and_votes clock_global_parameters clock_schedule_maintenance
  clock_bitasset_maintenance : clock.
Lemma clock_process_budget d : same_clock d (process_budget d).
Proof. clock_tac. Qed.
#[local] Hint Resolve clock_process_budget : clock.
Lemma clock_chain_maintenance f t n d : same_clock d (perform_chain_maintenance f t n d).
Proof. clock_tac. Qed.
End maintenance.


(** ** Expired transactions *)

(** The objects of the table that are left have not expired. *)
Definition unexpired (now : Z) (m : gmap Z transaction_object) : gmap Z transaction_object :=
  filter (λ io, now <= tx_expiration (to_trx io.2)) m.

Lemma unexpired_all now m :
  (∀ i o, m !! i = Some o → now <= tx_expiration (to_trx o)) → unexpired now m = m.
Proof. intros H. apply map_filter_id. intros i o Hi. by eapply H. Qed.

Lemma unexpired_delete now m i o : m !! i = Some o → tx_expiration (to_trx o) < now →
  unexpired now (delete i m) = unexpired now m.
Proof.
  intros Hi Ho. unfold unexpired. rewrite map_filter_delete. apply delete_id, map_lookup_filter_None.
  right. intros p Hp. assert (p = o) as -> by congruence. simpl. lia.
Qed.

Lemma clear_expired_transactions_run fuel s : (size (objs (cs_transactions s)) <= fuel)%nat →
  ∃ t, clear_expired_transactions fuel s = Ok (set_cs_transactions t s) ∧
    objs t = unexpired (head_block_time (cs_db s)) (objs (cs_transactions s)).
Proof.
  revert s. induction fuel as [|fuel IH]; intros s Hsz; cbn [clear_expired_transactions];
    (destruct (first_by _ (objs (cs_transactions s))) as [[i o]|] eqn:E;
     [apply first_by_some in E as [Hi Hmin]
     |apply first_by_none in E; exists (cs_transactions s); split; [by destruct s|];
      unfold unexpired; by rewrite E, map_filter_empty]);
    (destruct (Z.ltb_spec (tx_expiration (to_trx o)) (head_block_time (cs_db s))) as [Hlt|Hge];
     [|exists (cs_transactions s); split; [by destruct s|]; symmetry; apply unexpired_all;
       intros j p Hj; apply Hmin in Hj; lia]).
  - assert (objs (cs_transactions s) = ∅) as E0 by (apply map_size_empty_inv; lia).
    by rewrite E0, lookup_empty in Hi.
  - unfold index_remove, index_get. rewrite Hi. cbn [of_option rbind].
    destruct (IH (set_cs_transactions (mkTable (delete i (objs (cs_transactions s)))
      (next_id (cs_transactions s))) s)) as (t & Hr & Ht).
    { simpl. rewrite map_size_delete_Some by eauto. lia. }
    exists t. split; [exact Hr|]. rewrite Ht. simpl. by apply unexpired_delete with (o := o).
Qed.

Section chain.
Context {FC : FcArith} {BA : BoostArith} {NE : NthElement} {FS : FcString} {IP : FcIp} {P : Pedersen} {PS : PackSizes}.
Context {BD : BlockDigest} {BC : BlockContents} {MH : MerkleHash} {TD : TransactionDigest}.
Context (key_addresses : Z → list Z) (current_fees : chain_parameters → fee_schedule).

Notation chain := (chain_proposals key_addresses).
Notation host flags n := (proposal_host key_addresses current_fees flags n).

(** ** Expired proposals *)

Lemma push_proposal_frame flags n s id s' :
  push_proposal (PS := chain) (PH := host flags n) s id = Ok s' → frame s s'.
Proof.
  intros H. apply push_proposal_ok in H as (p & s1 & _ & H1 & H2).
  apply rbind_ok in H2 as (t & _ & [= <-]).
  eapply (rfold_invariant _ frame) in H1; [by etrans; [exact H1|]|intros; reflexivity|intros; by etrans|].
  intros a x b _. apply apply_level_frame.
Qed.

Lemma clear_expired_proposals_frame flags n fuel s s' :
  clear_expired_proposals (PS := chain) (PH := host flags n) fuel s = Ok s' → frame s s'.
Proof.
  revert s. induction fuel as [|fuel IH]; intros s H; cbn [clear_expired_proposals] in H;
    (destruct (first_by _ _) as [[id p]|]; [|by injection H as <-]);
    (destruct (_ <=? _); [|by injection H as <-]); [done|].
  apply rbind_ok in H as (r & Hr & H). apply rbind_ok in H as (s1 & H1 & H%IH). etrans; [|exact H].
  destruct r as [s2|].
  - injection H1 as <-. apply try_execute_some in Hr as [_ Hr]. by eapply push_proposal_frame.
  - by apply rbind_ok in H1 as (t & _ & [= <-]).
Qed.

(** ** The updates after the transactions *)

Lemma frame_db_step f s s' : (∀ d, same_clock d (f d)) → on_db f s = Ok s' → frame s s'.
Proof. intros Hf H. by apply frame_on_db in H as [H _]. Qed.

(** Like [frame], but expired transactions are forgotten. *)
Definition ages (s s' : chain_state) : Prop :=
  clock (cs_db s') = clock (cs_db s) ∧ cs_head_block_id s' = cs_head_block_id s ∧
  cs_block_summaries s' = cs_block_summaries s ∧
  objs (cs_transactions s') = unexpired (head_block_time (cs_db s)) (objs (cs_transactions s)).

Lemma clear_expired_ok flags s s' : clear_expired key_addresses current_fees flags s = Ok s' → ages s s'.
Proof.
  intros H. apply rbind_ok in H as (s1 & H1 & H).
  destruct (clear_expired_transactions_run _ s (le_n _)) as (t & Ht & Hu). rewrite Ht in H1. injection H1 as <-.
  assert (frame (set_cs_transactions t s) s') as (F1 & F2 & F3 & F4); [|by unfold ages; rewrite F2].
  apply rbind_ok in H as (s2 & H2%clear_expired_proposals_frame & H). etrans; [exact H2|].
  apply rbind_ok in H as (s3 & H3%frame_db_step & H); [etrans; [exact H3|]|intros; apply clock_clear_expired_orders].
  apply rbind_ok in H as (s4 & H4%frame_db_step & H); [etrans; [exact H4|]|intros; apply clock_clear_escrows].
  apply rbind_ok in H as (s5 & H5%frame_db_step & H); [etrans; [exact H5|]|intros; apply clock_clear_listings].
  apply rbind_ok in H as (s6 & H6%frame_db_step & H); [etrans; [exact H6|]|intros; apply clock_update_expired_feeds].
  apply frame_db_step in H; [exact H|intros; apply clock_withdraw_permissions].
Qed.

#[local] Hint Extern 1 (same_clock _ (modify_dgpo _ _)) =>
  apply clock_modify_dgpo; intros; ok_inv; split; reflexivity : clock.

Lemma clock_signing_witness d w h : same_clock d (update_signing_witness d w h).
Proof. clock_tac. Qed.
Lemma clock_irreversible d : same_clock d (update_last_irreversible_block d).
Proof. clock_tac. Qed.
Lemma clock_maintenance_flag b d : same_clock d (update_maintenance_flag b d).
Proof. clock_tac. Qed.
Lemma clock_witness_schedule d : same_clock d (update_witness_schedule d).
Proof. clock_tac. Qed.

Lemma global_data_clock skip c d h d' n :
  update_global_dynamic_data skip c d h = Ok (d', n) → clock d' = (bi_num h, bi_timestamp h).
Proof.
  intros H. apply rbind_ok in H as (slot & _ & H). apply rbind_ok in H as (d1 & _ & H).
  apply rbind_ok in H as (d2 & H2 & H). apply rbind_ok in H as (u & _ & [= <- _]).
  unfold modify_dgpo in H2. cbn [rbind] in H2. by injection H2 as <-.
Qed.

Lemma advance_ok lc flags b w s s' : advance lc flags b w s = Ok s' →
  clock (cs_db s') = (block_num b, bc_timestamp (content b)) ∧ cs_head_block_id s' = block_id b ∧
  cs_transactions s' = cs_transactions s ∧ cs_block_summaries s' = cs_block_summaries s.
Proof.
  intros H. apply rbind_ok in H as ([d n] & H1%global_data_clock & H).
  apply rbind_ok in H as (d1 & H2%clock_signing_witness & H).
  apply rbind_ok in H as (d2 & H3%clock_irreversible & [= <-]).
  split_and!; [|done..]. unfold the_db, db_has_db in *. cbn in *. congruence.
Qed.

(** What [_apply_block] does to the part of the state that this file is
    about, from the state [s] after the transactions. *)
Lemma after_transactions_ok lc flags m b w s s' :
  after_transactions key_addresses current_fees lc flags m b w s = Ok s' →
  clock (cs_db s') = (block_num b, bc_timestamp (content b)) ∧ cs_head_block_id s' = block_id b ∧
  cs_block_summaries s' = <[Z.land (block_num b) 65535 := block_id b]> (cs_block_summaries s) ∧
  objs (cs_transactions s') = unexpired (bc_timestamp (content b)) (objs (cs_transactions s)).
Proof.
  intros H. apply rbind_ok in H as (s1 & (A1 & A2 & A3 & A4)%advance_ok & H).
  apply rbind_ok in H as (s2 & H2 & H). apply rbind_ok in H as (s3 & (C1 & C2 & C3 & C4)%clear_expired_ok & H).
  apply rbind_ok in H as (s4 & H4%frame_db_step & H); [|intros; apply clock_maintenance_flag].
  apply frame_db_step in H; [|intros; apply clock_witness_schedule].
  assert (frame s1 s2) as (F1 & F2 & F3 & F4).
  { destruct m; [|by injection H2 as <-]. eapply frame_db_step; [|exact H2].
    intros d. apply clock_chain_maintenance. }
  assert (frame s3 s') as (G1 & G2 & G3 & G4) by (by etrans).
  cbn in C1, C2, C3, C4. split_and!; [congruence..|].
  rewrite G2, C4, F2, A3. f_equal. unfold clock in *. congruence.
Qed.
End chain.
