(* ===== verification/BlockTheorems.v ===== *)
(** * Applying blocks: the theorems

    What an applied block says, that no transaction is applied twice on a
    chain -- whatever forks the node went through --, and what the Merkle root
    is worth. *)

From stdpp Require Import gmap strings list countable.
From Stdlib Require Import ZArith Lia.
From S2P Require Import Prelude Fc Config Authority Asset VestingBalance Objects Database Sample Balances Fees ObFee Fba Exchange Transfer Bonus Escrow Listing VestingEval Market MarketEval PriceFeeds PriceFeedProps AssetOps AssetEval Governance Accounts Upkeep WithdrawPermission WitnessSchedule Maintenance ForkDb BlockStore BlockChain BlockChainTheorems Proposal Confidential SmallOps Operations FeeSchedule ChainState ChainProps TransactionTheorems BlockApply BlockProps.

Local Open Scope Z_scope.

(** ** The Merkle root *)

Section merkle.
Context {MH : MerkleHash}.

Lemma merkle_round_length l : (2 * length (merkle_round l) = length l + length l mod 2)%nat.
Proof.
  assert (∀ n l, (length l <= n)%nat → (2 * length (merkle_round l) = length l + length l mod 2)%nat) as H; [|by eapply H].
  clear l. intros n. induction n as [|n IH]; intros l Hl; (destruct l as [|a [|b l]]; [reflexivity|reflexivity|]); [simpl in Hl; lia|].
  cbn [merkle_round length] in *. specialize (IH l ltac:(lia)).
  replace (S (S (length l))) with (length l + 1 * 2)%nat by lia. rewrite Nat.Div0.mod_add. lia.
Qed.

Lemma merkle_round_shrinks l : (2 <= length l)%nat → (0 < length (merkle_round l) < length l)%nat.
Proof.
  intros H. pose proof (merkle_round_length l). pose proof (Nat.mod_upper_bound (length l) 2 ltac:(lia)). lia.
Qed.

Lemma merkle_loop_total fuel l : l ≠ [] → (length l <= fuel)%nat → ∃ x, merkle_loop fuel l = Ok x.
Proof.
  revert l. induction fuel as [|fuel IH]; intros l Hne Hl; [destruct l; simpl in Hl; (done || lia)|].
  destruct l as [|a [|b l]]; [done|by exists a|]. cbn [merkle_loop].
  destruct (merkle_round_shrinks (a :: b :: l)) as [H1 H2]; [simpl; lia|].
  apply IH; [|simpl in *; lia]. intros E. rewrite E in H1. simpl in H1. lia.
Qed.

Section binding.
Context (hash_pair_inj : ∀ a b c d, hash_pair a b = hash_pair c d → a = c ∧ b = d).

Lemma merkle_round_inj l l' : length l = length l' → merkle_round l = merkle_round l' → l = l'.
Proof.
  assert (∀ n l l', (length l <= n)%nat → length l = length l' → merkle_round l = merkle_round l' → l = l') as H;
    [|by eapply H].
  clear l l'. intros n. induction n as [|n IH]; intros l l' Hn Hl E; [destruct l, l'; simpl in *; (done || lia)|].
  destruct l as [|a [|b l]], l' as [|a' [|b' l']]; try done.
  cbn [merkle_round length] in *. injection E as Hp E. apply hash_pair_inj in Hp as [-> ->].
  f_equal. f_equal. apply IH; [lia|lia|done].
Qed.

Lemma merkle_loop_inj fuel l l' x : length l = length l' →
  merkle_loop fuel l = Ok x → merkle_loop fuel l' = Ok x → l = l'.
Proof.
  revert l l'. induction fuel as [|fuel IH]; intros l l' Hl H H';
    destruct l as [|a [|b l]], l' as [|a' [|b' l']]; try done; cbn in H, H'; try congruence.
  apply merkle_round_inj; [done|]. eapply IH; [|exact H|exact H'].
  pose proof (merkle_round_length (a :: b :: l)) as E1. pose proof (merkle_round_length (a' :: b' :: l')) as E2.
  rewrite Hl in E1. lia.
Qed.
End binding.

(** C37. The Merkle root of a block.  It is computed for every list of digests
    (the loop ends); if the hash of a pair of digests and the final hash have
    no collisions, two lists of the same length with the same root are equal,
    so a block with the root in its header is bound to its transactions; but
    the length is not bound: the hash of a pair in the place of the pair gives
    the same root. *)
Theorem merkle_root_binds :
  (∀ a b c d, hash_pair a b = hash_pair c d → a = c ∧ b = d) →
  (∀ x y, hash_checksum x = hash_checksum y → x = y) →
  (∀ l, ∃ r, calculate_merkle_root l = Ok r) ∧
  (∀ l l' r, length l = length l' → calculate_merkle_root l = Ok r → calculate_merkle_root l' = Ok r → l = l') ∧
  (∀ a b, calculate_merkle_root [hash_pair a b] = calculate_merkle_root [a; b]).
Proof.
  intros Hp Hc. split_and!; [| |done].
  - intros l. unfold calculate_merkle_root. destruct l as [|a l]; [by eexists|].
    destruct (merkle_loop_total (length (a :: l)) (a :: l)) as [x Hx]; [done|done|].
    rewrite Hx. by eexists.
  - intros l l' r Hl H H'. destruct l as [|a l], l' as [|a' l']; [done..|].
    apply rbind_ok in H as (x & Hx & [= <-]). apply rbind_ok in H' as (y & Hy & [= ->%Hc]).
    rewrite <- Hl in Hy. by eapply merkle_loop_inj.
Qed.
End merkle.

Section blocks.
Context {FC : FcArith} {BA : BoostArith} {NE : NthElement} {FS : FcString} {IP : FcIp} {P : Pedersen} {PS : PackSizes}.
Context {BD : BlockDigest} {BC : BlockContents} {MH : MerkleHash} {TD : TransactionDigest}.
Context (key_addresses : Z → list Z) (current_fees : chain_parameters → fee_schedule).

Notation apply_block := (apply_block key_addresses current_fees).
Notation apply_transaction := (apply_transaction key_addresses current_fees).

(** ** One block *)

Definition block_transactions (b : signed_block) : list transaction := pt_trx <$> bc_transactions (content b).

Lemma apply_inner_ok lc flags s b s' : apply_block_inner key_addresses current_fees lc flags s b = Ok s' →
  (∃ r, calculate_merkle_root (merkle_digest <$> bc_transactions (content b)) = Ok r ∧
     (skip_merkle_check flags = true ∨ bc_transaction_merkle_root (content b) = r)) ∧
  validate_block_header flags s b = Ok (bc_witness (content b)) ∧
  ∃ s1, rfold (apply_transaction flags) s (block_transactions b) = Ok s1 ∧
    check_bonuses (bc_witness (content b)) b (cs_db s1) = Ok tt ∧
    after_transactions key_addresses current_fees lc flags (maintenance_needed s b) b (bc_witness (content b)) s1 = Ok s'.
Proof.
  intros H. apply rbind_ok in H as ([s1 w0] & H & Hafter). apply rbind_ok in H as (r & Hr & H).
  apply rbind_ok in H as (u & Hm%require_ok & H). apply rbind_ok in H as (w & Hw & H). assert (w = bc_witness (content b)) as ->.
  { unfold validate_block_header in Hw. ok_inv. done. }
  apply rbind_ok in H as (s1' & H1 & H). apply rbind_ok in H as ([] & Hb & [= -> <-]). split_and!; [|done|].
  - exists r. split; [done|]. apply orb_true_iff in Hm as [?|?]; [by left|right; lia].
  - exists s1. split_and!; [|done..]. unfold block_transactions. unfold apply_transactions in H1.
    revert H1. clear. generalize (bc_transactions (content b)). intros l. revert s.
    induction l as [|t l IH]; intros s H; simpl in *; [done|].
    apply rbind_ok in H as (s2 & -> & H). by apply IH.
Qed.

Lemma no_checkpoint_flags flags b : block_flags ∅ flags b = Ok flags.
Proof. unfold block_flags, last_checkpoint. by rewrite dom_empty_L. Qed.

Lemma header_ok flags s b w : validate_block_header flags s b = Ok w →
  cs_head_block_id s = previous b ∧ head_block_time (cs_db s) < bc_timestamp (content b).
Proof.
  intros H. apply rbind_ok in H as (u & H1%require_ok & H). apply rbind_ok in H as (v & H2%require_ok & _). lia.
Qed.

Lemma apply_block_ok checkpoints flags s b s' : apply_block checkpoints flags s b = Ok s' →
  cs_head_block_id s = previous b ∧ head_block_time (cs_db s) < bc_timestamp (content b) ∧
  clock (cs_db s') = (block_num b, bc_timestamp (content b)) ∧ cs_head_block_id s' = block_id b.
Proof.
  intros H. apply rbind_ok in H as (f & _ & H).
  apply apply_inner_ok in H as (_ & [Hp Ht]%header_ok & s1 & _ & _ & (Hc & Hi & _)%after_transactions_ok). done.
Qed.

(** C4. An applied block extends the head and is by the witness whose turn it
    is.  When [apply_block] succeeds without checkpoints and with all checks,
    the block refers to the head and is later; its Merkle root is that of its
    transactions; the signature is by the key of the witness it names, who is
    scheduled for the slot of its time; as long as a bonus fund lasts it
    contains at most one operation for it, and a witness bonus goes to that
    witness; and in the new state the head has the id, number, time and
    summary of the block, and every transaction that was remembered, those of
    the block included, still is as long as it has not expired. *)
Theorem applied_block_extends s b s' : apply_block ∅ skip_nothing s b = Ok s' →
  cs_head_block_id s = previous b ∧ head_block_time (cs_db s) < bc_timestamp (content b) ∧
  calculate_merkle_root (merkle_digest <$> bc_transactions (content b)) = Ok (bc_transaction_merkle_root (content b)) ∧
  (∃ w slot, get_witness (cs_db s) (bc_witness (content b)) = Ok w ∧ bc_signee (content b) = Ok (wo_signing_key w) ∧
     get_slot_at_time (cs_db s) (bc_timestamp (content b)) = Ok slot ∧ 0 < slot ∧
     get_scheduled_witness (cs_db s) slot = Ok (bc_witness (content b))) ∧
  (∃ s1 w, rfold (apply_transaction skip_nothing) s (block_transactions b) = Ok s1 ∧
     get_witness (cs_db s1) (bc_witness (content b)) = Ok w ∧
     (dg_witness_bonus (db_dgpo (cs_db s1)) < OMNIBAZAAR_WITNESS_BONUS_TOTAL_COINS →
        (length (witness_bonuses (block_operations b)) <= 1)%nat ∧
        ∀ op, op ∈ witness_bonuses (block_operations b) → nb_receiver op = wo_witness_account w) ∧
     (dg_founder_bonus (db_dgpo (cs_db s1)) < OMNIBAZAAR_FOUNDER_BONUS_COINS_LIMIT →
        (length (founder_bonuses (block_operations b)) <= 1)%nat) ∧
     cs_block_summaries s' = <[Z.land (block_num b) 65535 := block_id b]> (cs_block_summaries s1) ∧
     ∀ i o, objs (cs_transactions s1) !! i = Some o → bc_timestamp (content b) <= tx_expiration (to_trx o) →
       objs (cs_transactions s') !! i = Some o) ∧
  cs_head_block_id s' = block_id b ∧ clock (cs_db s') = (block_num b, bc_timestamp (content b)).
Proof.
  intros H. pose proof H as (H1 & H2 & H3 & H4)%apply_block_ok.
  apply rbind_ok in H as (f & Hf & H). rewrite no_checkpoint_flags in Hf. injection Hf as <-.
  apply apply_inner_ok in H as ((r & Hr & [?|Hm]) & Hh & s1 & Hs1 & Hb & Ha); [done|]. subst r.
  apply after_transactions_ok in Ha as (_ & _ & Hsum & Htx).
  apply rbind_ok in Hh as (u1 & _ & Hh). apply rbind_ok in Hh as (u2 & _ & Hh).
  apply rbind_ok in Hh as (w & Hw & Hh). apply rbind_ok in Hh as ([] & Hsig & Hh).
  apply rbind_ok in Hh as ([] & Hsch & _). cbn in Hsig, Hsch.
  apply rbind_ok in Hsig as (k & Hk & Ek%require_ok%Z.eqb_eq). subst k.
  apply rbind_ok in Hsch as (slot & Hslot & Hsch). apply rbind_ok in Hsch as (u3 & Hpos%require_ok & Hsch).
  apply rbind_ok in Hsch as (w' & Hw' & Ew%require_ok%Z.eqb_eq). subst w'.
  apply rbind_ok in Hb as (v & Hv & Hb). apply rbind_ok in Hb as (u4 & Hwit%require_ok & Hfou%require_ok).
  split_and!; try done; [exists w, slot; split_and!; try done; lia|]. exists s1, v. split_and!; try done.
  - intros Hlt%Z.ltb_lt. rewrite Hlt in Hwit. apply andb_true_iff in Hwit as [Hall Hlen%Nat.leb_le].
    split; [done|]. intros op Hop%list_elem_of_In. rewrite forallb_forall in Hall. by apply Z.eqb_eq, Hall.
  - intros Hlt%Z.ltb_lt. rewrite Hlt in Hfou. by apply Nat.leb_le.
  - intros i o Hi Ho. rewrite Htx. by apply map_lookup_filter_Some.
Qed.

(** ** No transaction twice *)

Section unique.
(** The id is the digest of the whole transaction but its signatures. *)
Context (id_expiration : ∀ t t', tx_id t = tx_id t' → tx_expiration t = tx_expiration t').

Definition ids (l : list transaction) : list Z := tx_id <$> l.

(** Every transaction of the list is remembered or has expired. *)
Definition accounted (s : chain_state) (l : list transaction) : Prop :=
  ∀ t, t ∈ l → (∃ i, objs (cs_transactions s) !! i = Some (mkTxObject t (tx_id t))) ∨
    (0 < head_block_num (cs_db s) ∧ tx_expiration t < head_block_time (cs_db s)).

Lemma accounted_transaction flags s l t s' : skip_transaction_dupe_check flags = false →
  accounted s l → NoDup (ids l) → apply_transaction flags s t = Ok s' → accounted s' (l ++ [t]) ∧ NoDup (ids (l ++ [t])).
Proof.
  intros Hd Hl Hn H. apply apply_transaction_ok in H as (_ & Hc & _ & Ht & Ho & Hfree & Hclk & _); [|done].
  injection Hclk as Hnum Htime. split.
  - intros t' [Hin|Hin%list_elem_of_singleton]%elem_of_app; [|subst t'].
    + destruct (Hl t' Hin) as [[i Hi]|He]; [left|right; by rewrite Hnum, Htime].
      exists i. rewrite Ho, lookup_insert_ne; [done|]. intros <-. congruence.
    + left. eexists. by rewrite Ho, lookup_insert_eq.
  - unfold ids. rewrite fmap_app. apply list.NoDup_app. split_and!; [done| |apply NoDup_singleton].
    intros x (t' & -> & Hin)%list_elem_of_fmap Ht'%list_elem_of_singleton. apply id_expiration in Ht' as He'.
    destruct (Hl t' Hin) as [[i Hi]|[Hpos He]].
    + eapply clashes_false in Hc; [|exact Hi]. unfold transaction_clash in Hc. simpl in Hc. lia.
    + apply check_times_ok in Ht as [_ Ht]; lia.
Qed.

Lemma accounted_transactions flags l' s l s' : skip_transaction_dupe_check flags = false →
  accounted s l → NoDup (ids l) → rfold (apply_transaction flags) s l' = Ok s' →
  accounted s' (l ++ l') ∧ NoDup (ids (l ++ l')) ∧ clock (cs_db s') = clock (cs_db s).
Proof.
  intros Hd. revert s l. induction l' as [|t l' IH]; intros s l Hl Hn H; simpl in H.
  { injection H as <-. by rewrite app_nil_r. }
  apply rbind_ok in H as (s1 & H1 & H). pose proof (accounted_transaction _ _ _ _ _ Hd Hl Hn H1) as [Hl1 Hn1].
  apply apply_transaction_ok in H1 as (_ & _ & _ & _ & _ & _ & Hc & _); [|done].
  destruct (IH _ _ Hl1 Hn1 H) as (? & ? & ?). rewrite <- app_assoc in *. simpl in *. split_and!; [done..|congruence].
Qed.

Lemma accounted_block flags s l b s' : skip_transaction_dupe_check flags = false → block_num b ≠ 0 →
  accounted s l → NoDup (ids l) → apply_block ∅ flags s b = Ok s' →
  accounted s' (l ++ block_transactions b) ∧ NoDup (ids (l ++ block_transactions b)).
Proof.
  intros Hd Hb Hl Hn H. pose proof H as (_ & Hlt & Hclk & _)%apply_block_ok. injection Hclk as Hnum Htime.
  apply rbind_ok in H as (f & Hf & H). rewrite no_checkpoint_flags in Hf. injection Hf as <-.
  apply apply_inner_ok in H as (_ & _ & s1 & Hs1 & _ & (_ & _ & _ & Htx)%after_transactions_ok).
  destruct (accounted_transactions _ _ _ _ _ Hd Hl Hn Hs1) as (Hl1 & Hn1 & Hc1). injection Hc1 as Hnum1 Htime1.
  split; [|done]. assert (0 < block_num b).
  { unfold block_num in *. pose proof (wrap_u32_range (num_from_id (previous b) + 1)). lia. }
  intros t Ht. rewrite Hnum, Htime. destruct (Hl1 t Ht) as [[i Hi]|[Hpos He]]; [|right; lia].
  destruct (Z.le_gt_cases (bc_timestamp (content b)) (tx_expiration t)); [left|right; lia].
  exists i. rewrite Htx. by apply map_lookup_filter_Some.
Qed.

Definition chain_transactions (bs : list signed_block) : list transaction := bs ≫= block_transactions.

Lemma accounted_blocks flags bs s l s' : skip_transaction_dupe_check flags = false →
  Forall (λ b, block_num b ≠ 0) bs → accounted s l → NoDup (ids l) →
  rfold (apply_block ∅ flags) s bs = Ok s' → NoDup (ids (l ++ chain_transactions bs)).
Proof.
  intros Hd Hbs. revert s l. induction Hbs as [|b bs Hb _ IH]; intros s l Hl Hn H; simpl in H.
  { cbn. by rewrite app_nil_r. }
  apply rbind_ok in H as (s1 & H1 & H). destruct (accounted_block _ _ _ _ _ Hd Hb Hl Hn H1) as [Hl1 Hn1].
  specialize (IH _ _ Hl1 Hn1 H). by rewrite <- app_assoc in IH.
Qed.

Lemma unique_transactions flags s bs s' : skip_transaction_dupe_check flags = false →
  Forall (λ b, block_num b ≠ 0) bs → rfold (apply_block ∅ flags) s bs = Ok s' → NoDup (ids (chain_transactions bs)).
Proof.
  intros Hd Hbs H. apply (accounted_blocks flags bs s [] s'); [done..| |constructor|done].
  intros t Ht. inversion Ht.
Qed.
End unique.

(** ** The node *)

Section node.
Context {BPk : BlockPack} (flags : skip_flags).
(** The inner undo sessions that applying a block or a transaction opens, for
    executed proposals, closed escrows, deleted listings and the like, before
    and after the history is limited: the theorem holds for any number. *)
Context (sessions_before sessions_after : chain_state → signed_block → list nat).
Context (transaction_sessions : chain_state → transaction → list nat).

#[export] Instance node_chain : ChainState chain_state transaction := {
  head_block_id := cs_head_block_id;
  chain_apply_block := apply_block ∅ flags;
  chain_apply_transaction := apply_transaction flags;
  chain_block_history s b := (session_opened <$> sessions_before s b) ++
    match history_limit key_addresses current_fees ∅ flags s b with
    | Some limit => history_limited limit :: (session_opened <$> sessions_after s b)
    | None => []
    end;
  chain_transaction_history s t := session_opened <$> transaction_sessions s t;
  is_known_transaction s t := existsb (λ io, to_trx_id io.2 =? tx_id t) (map_to_list (objs (cs_transactions s)));
  transactions := block_transactions
}.

#[export] Instance node_chain_laws : ChainStateLaws chain_state transaction.
Proof. intros s b s' (H1 & _ & _ & H2)%apply_block_ok. done. Qed.

Lemma backed_run (s : chain_state) undo bs : backed s undo bs → length bs = length undo →
  rfold (apply_block ∅ flags) (default s (list.last undo)) (rev bs) = Ok s.
Proof.
  revert s undo. induction bs as [|b bs IH]; intros s [|s1 undo] Hb Hl; try done.
  destruct Hb as [Hb Hbs]. simpl in Hl. specialize (IH s1 undo Hbs ltac:(lia)).
  assert (default s (list.last (s1 :: undo)) = default s1 (list.last undo)) as ->.
  { destruct undo as [|s2 undo]; [done|]. rewrite list.last_cons_cons. by destruct (list.last_is_Some (s2 :: undo)) as [_ [x ->]]. }
  simpl. rewrite rfold_app, IH. cbn [rbind rfold]. unfold chain_apply_block in Hb. simpl in Hb. by rewrite Hb.
Qed.

(** The blocks, newest first, refer to one another. *)
Fixpoint linked (bs : list signed_block) : Prop :=
  match bs with
  | b :: (b' :: _) as bs' => previous b = block_id b' ∧ linked bs'
  | _ => True
  end.

Lemma backed_linked (s : chain_state) undo bs : backed s undo bs → linked bs.
Proof.
  revert s undo. induction bs as [|b bs IH]; intros s [|s1 undo]; try done. intros [Hb Hbs].
  specialize (IH _ _ Hbs). destruct bs as [|b' bs]; [done|]. split; [|done].
  destruct undo as [|s2 undo]; [done|]. destruct Hbs as [Hb' _].
  apply node_chain_laws in Hb as [<- _]. by apply node_chain_laws in Hb' as [_ <-].
Qed.

(** C2. No transaction is applied twice.  Whatever blocks a node is given --
    they may extend the head, lie on other forks, be invalid or make a switch
    fail --, its state is the result of applying a chain of blocks, each
    referring to the one before, to the oldest state it could go back to in the
    beginning, and the undo history holds the newest of the states on the way;
    and on that chain no transaction id occurs twice, neither in one block nor in
    different ones -- so that nobody can repeat a transaction, signed anew or
    not --, although the transactions remembered are forgotten as soon as they
    expire. *)
Theorem node_applies_once (n : node chain_state transaction) pushed :
  (∀ t t', tx_id t = tx_id t' → tx_expiration t = tx_expiration t') →
  skip_transaction_dupe_check flags = false → node_ok n →
  let n' := foldl (λ n b, (database_push_block b n).1) n pushed in
  ∃ bs full, nd_undo n' `prefix_of` full ∧ length bs = length full ∧ linked bs ∧ backed (nd_state n') full bs ∧
    rfold (apply_block ∅ flags) (default (nd_state n) (list.last (nd_undo n))) (rev bs) = Ok (nd_state n') ∧
    (Forall (λ b, block_num b ≠ 0) bs → NoDup (ids (chain_transactions (rev bs)))).
Proof.
  intros Hid Hd Hn%node_ok_chain n'.
  assert (chain_from (default (nd_state n) (list.last (nd_undo n))) n') as (bs & full & Hp & Hl & Hb & Hbase).
  { subst n'. revert Hn. generalize (default (nd_state n) (list.last (nd_undo n))). intros base. revert n.
    induction pushed as [|b pushed IH]; intros n Hn; [done|]. by apply IH, database_push_chain. }
  exists bs, full. pose proof (backed_run _ _ _ Hb Hl) as Hr. rewrite Hbase in Hr.
  split_and!; [done|done|by eapply backed_linked|done|done|].
  intros Hnum. eapply unique_transactions; [exact Hid|exact Hd| |exact Hr]. by apply Forall_rev.
Qed.
End node.
End blocks.

(** ** A sample

    One block with a payment on top of the sample state, in the next slot. *)

#[local] Existing Instance fc_reference.
#[local] Existing Instance boost_reference.
#[local] Existing Instance nth_reference.
#[local] Existing Instance sample_digest.
#[local] Existing Instance same_case.
#[local] Existing Instance no_ip.
#[local] Existing Instance no_commitments.
#[local] Existing Instance no_sizes.
#[local] Existing Instance expiration_digest.

(** Pairs of numbers as numbers. *)
#[local] Instance paired : MerkleHash := {| hash_pair a b := Z.pos (encode (a, b)); hash_checksum x := x |}.

(** Body 1 is the block with the payment; ten seconds later body 2 repeats it
    and body 3 is empty. *)
Definition sample_content (b : signed_block) : block_content :=
  match body b with
  | 1 => mkContent 1570000010 0 33 (Ok 77) [mkProcessed (signed_trx [sample_payment]) 33]
  | 2 => mkContent 1570000020 0 33 (Ok 77) [mkProcessed (signed_trx [sample_payment]) 33]
  | _ => mkContent 1570000020 0 0 (Ok 77) []
  end.
#[local] Instance sample_contents : BlockContents := {| content := sample_content |}.

Definition next_block : signed_block := ForkDb.mkBlock (100 * 2 ^ 128) 1.
Definition after_block (body : Z) : signed_block := ForkDb.mkBlock (block_id next_block) body.
Definition next_state : chain_state :=
  get_ok (apply_block no_addresses no_fees ∅ skip_nothing sample_chain_state next_block) sample_chain_state.

Lemma next_block_applied :
  apply_block no_addresses no_fees ∅ skip_nothing sample_chain_state next_block = Ok next_state.
Proof. apply get_ok_eq. vm_compute. reflexivity. Qed.

Example repeated_block_refused :
  is_ok (apply_block no_addresses no_fees ∅ skip_nothing next_state (after_block 2)) = false ∧
  is_ok (apply_block no_addresses no_fees ∅ skip_nothing next_state (after_block 3)) = true.
Proof. vm_compute. done. Qed.

Lemma applied_block_extends_witness :
  cs_head_block_id next_state = block_id next_block ∧ clock (cs_db next_state) = (101, 1570000010).
Proof.
  destruct (applied_block_extends no_addresses no_fees sample_chain_state next_block next_state) as (_ & _ & _ & _ & _ & H1 & H2).
  - exact next_block_applied.
  - split; [exact H1|exact H2].
Defined.

Lemma merkle_root_binds_witness :
  ∃ r, calculate_merkle_root [1; 2; 3] = Ok r ∧ calculate_merkle_root [1; 2; 4] ≠ Ok r.
Proof.
  destruct merkle_root_binds as (Hall & Hinj & _).
  - intros a b c d E. injection E as E%encode_inj. injection E as -> ->. split; reflexivity.
  - intros x y E. exact E.
  - destruct (Hall [1; 2; 3]) as [r H]. exists r. split; [exact H|]. intros H'.
    assert ([1; 2; 3] = [1; 2; 4]) as E by (apply (Hinj _ _ r); [reflexivity|exact H|exact H']). discriminate E.
Defined.

#[local] Instance small_pack : BlockPack := {| pack_size _ := 1; pack_size_pos _ := eq_refl |}.
#[local] Instance sample_node_chain : ChainState chain_state transaction := node_chain no_addresses no_fees skip_nothing (λ _ _, []) (λ _ _, [0%nat]) (λ _ _, []).

Definition sample_node : node chain_state transaction :=
  mkNode sample_chain_state [] 10 empty_fork_db empty_store None [] [].

(** The block, then the one that repeats its payment, then the empty one. *)
Lemma node_applies_once_witness :
  let n' := foldl (λ n b, (database_push_block b n).1) sample_node [next_block; after_block 2; after_block 3] in
  ∃ bs full, nd_undo n' `prefix_of` full ∧ length bs = length full ∧ linked bs.
Proof.
  intros n'. destruct (node_applies_once no_addresses no_fees skip_nothing (λ _ _, []) (λ _ _, [0%nat]) (λ _ _, []) sample_node [next_block; after_block 2; after_block 3])
    as (bs & full & H0 & H1 & H2 & _).
  - intros t t' E. exact E.
  - reflexivity.
  - exists []. split; [reflexivity|exact I].
  - exists bs, full. split; [exact H0|split; [exact H1|exact H2]].
Defined.
