(* ===== verification/Genesis.v ===== *)
(** * The first state of a chain ([db_init.cpp], [genesis_state.hpp])

    [init_genesis] makes the state before the first block out of a genesis
    state: the reserved accounts, the core asset, the initial accounts, assets
    with their margin positions, balances that wait for their owners,
    witnesses, committee members and workers.  Operations are applied as any
    others, without their validation and for no fee. *)

From stdpp Require Import gmap strings list.
From Stdlib Require Import ZArith Lia.
From S2P Require Import Prelude Fc Config Authority Asset AssetText VestingBalance Objects Database Balances Fees Exchange Fba Market PriceFeeds AssetEval Governance Accounts AccountIndexes ForkDb Proposal Confidential SmallOps Operations FeeSchedule ChainState.

Local Open Scope string_scope.
Local Open Scope Z_scope.

(** ** The genesis state *)

Record initial_account_type := mkInitialAccount {
  ia_name : string;
  ia_btc_address : string;
  ia_eth_address : string;
  ia_owner_key : Z;
  ia_active_key : Z
}.

Record initial_collateral_position := mkPosition {
  icp_owner : Z;                                (* an address *)
  icp_collateral : Z;
  icp_debt : Z
}.

Record initial_asset_type := mkInitialAsset {
  ias_symbol : string;
  ias_issuer_name : string;
  ias_precision : Z;
  ias_max_supply : Z;
  ias_accumulated_fees : Z;
  ias_is_bitasset : bool;
  ias_collateral_records : list initial_collateral_position
}.

Record initial_balance_type := mkInitialBalance {
  ib_owner : Z;
  ib_asset_symbol : string;
  ib_amount : Z
}.

Record initial_vesting_balance_type := mkInitialVesting {
  iv_owner : Z;
  iv_asset_symbol : string;
  iv_amount : Z;
  iv_begin_timestamp : Z;
  iv_vesting_duration_seconds : Z;
  iv_begin_balance : Z
}.

Record initial_witness_type := mkInitialWitness { iw_owner_name : string; iw_block_signing_key : Z }.
Record initial_worker_type := mkInitialWorker { iwk_owner_name : string; iwk_daily_pay : Z }.

Record immutable_chain_parameters := mkImmutable {
  min_committee_member_count : Z;
  min_witness_count : Z;
  num_special_accounts : Z;
  num_special_assets : Z
}.

(** Of a committee candidate the name of the owner. *)
Record genesis_state_type := mkGenesis {
  initial_timestamp : Z;
  max_core_supply : Z;
  founder : initial_account_type;
  kyc : initial_account_type;
  exchange : initial_account_type;
  welcome : initial_account_type;
  initial_parameters : chain_parameters;
  immutable_parameters : immutable_chain_parameters;
  initial_accounts : list initial_account_type;
  initial_assets : list initial_asset_type;
  initial_balances : list initial_balance_type;
  initial_vesting_balances : list initial_vesting_balance_type;
  initial_active_witnesses : Z;
  initial_witness_candidates : list initial_witness_type;
  initial_committee_candidates : list string;
  initial_worker_candidates : list initial_worker_type
}.

(** ** The empty state *)

(** The indexes are empty but for the balance of the committee and the objects
    of which there is only one; these are created later than the accounts, but
    nothing reads them before. *)
Definition genesis_dgpo (g : genesis_state_type) : dynamic_global_property_object :=
  mkDgpo 0 (initial_timestamp g) 0 0 0 0 (2 ^ 128 - 1) 0 0 0 0 0 0 0 0 0 0.

(** No fees until the end. *)
Definition genesis_gpo (g : genesis_state_type) : global_property_object :=
  mkGpo (set_account_basic_fee (λ _, 0) (initial_parameters g)) ∅ 0 [] None.

Definition empty_governance (p : immutable_chain_parameters) : governance :=
  mkGov (mkTable ∅ 0) (mkTable ∅ 0) (mkTable ∅ 0) (mkTable ∅ 0) (mkTable ∅ 0) (mkTable ∅ 0)
    (mkReservedNames ∅ ∅ ∅) (mkTable ∅ 0) (min_committee_member_count p) (min_witness_count p) 0 0.

Definition initial_database (g : genesis_state_type) : database :=
  mkDb (mkTable ∅ 0) ∅ {[ (GRAPHENE_COMMITTEE_ACCOUNT, core_id) := GRAPHENE_MAX_SHARE_SUPPLY ]} (mkTable ∅ 0) ∅ ∅
    (mkTable ∅ 0) (mkTable ∅ 0) (mkTable ∅ 0) ∅ ∅ (genesis_gpo g) (genesis_dgpo g) (initial_timestamp g) []
    (mkTable ∅ 0) (mkTable ∅ 0) (mkTable ∅ 0) (mkTable ∅ 0) ∅ 0 0 0 (mkTable ∅ 0)
    (empty_governance (immutable_parameters g)).

Definition genesis_chain (d : database) : chain_state := mkChainState d (mkTable ∅ 0) (mkTable ∅ 0) 0 ∅.

(** ** Accounts *)

(** [std::to_string]. *)
Definition number_name (n : Z) : string := String.string_of_list_ascii (std_to_string n).

Definition key_authority (k : Z) : authority := mkAuthority 1 [] [(k, 1)] [].
Definition address_authority (a : Z) : authority := mkAuthority 1 [] [] [(a, 1)].
Definition bare_authority (threshold : Z) : authority := mkAuthority threshold [] [] [].

(** An account that is its own registrar and referrer or has a given one; the
    other members have their default values. *)
Definition reserved_account (name : string) (sponsor network : Z) (owner active : authority) (memo : Z)
    (btc eth : string) (stats : Z) : account_object :=
  mkAccount name sponsor sponsor network 0 ∅ stats ∅ ∅ None None None None None None
    "" "" false false false (GRAPHENE_1_PERCENT / 2) ∅ ∅ (mkEscrowOptions false false false)
    0 false true (GRAPHENE_1_PERCENT / 4) 0 0 0 false owner active memo
    GRAPHENE_PROXY_TO_SELF_ACCOUNT 0 0 ∅ ∅ no_special_authority no_special_authority 0 "" btc eth
    0 0 0 0 GRAPHENE_100_PERCENT.

Definition system_account (name : string) (sponsor network threshold : Z) : Z → account_object :=
  reserved_account name sponsor network (bare_authority threshold) (bare_authority threshold) no_key "" "".

Definition company_account (id : Z) (a : initial_account_type) : Z → account_object :=
  reserved_account (ia_name a) id GRAPHENE_DEFAULT_NETWORK_PERCENT_OF_FEE (key_authority (ia_owner_key a))
    (key_authority (ia_active_key a)) (ia_active_key a) (ia_btc_address a) (ia_eth_address a).

(** The ids they must get, in the order of their creation. *)
Definition reserved_accounts (g : genesis_state_type) : list (Z * (Z → account_object)) :=
  let share := GRAPHENE_DEFAULT_NETWORK_PERCENT_OF_FEE in
  [ (GRAPHENE_COMMITTEE_ACCOUNT, system_account "committee-account" 0 share 1);
    (GRAPHENE_WITNESS_ACCOUNT, system_account "witness-account" GRAPHENE_WITNESS_ACCOUNT share 1);
    (GRAPHENE_RELAXED_COMMITTEE_ACCOUNT,
       system_account "relaxed-committee-account" GRAPHENE_RELAXED_COMMITTEE_ACCOUNT share 1);
    (GRAPHENE_NULL_ACCOUNT, system_account "null-account" GRAPHENE_NULL_ACCOUNT 0 1);
    (GRAPHENE_TEMP_ACCOUNT, system_account "temp-account" GRAPHENE_TEMP_ACCOUNT share 0);
    (GRAPHENE_PROXY_TO_SELF_ACCOUNT, system_account "proxy-to-self" GRAPHENE_NULL_ACCOUNT 0 1);
    (OMNIBAZAAR_FOUNDER_ACCOUNT, company_account OMNIBAZAAR_FOUNDER_ACCOUNT (founder g));
    (OMNIBAZAAR_KYC_ACCOUNT, company_account OMNIBAZAAR_KYC_ACCOUNT (kyc g));
    (OMNIBAZAAR_EXCHANGE_ACCOUNT, company_account OMNIBAZAAR_EXCHANGE_ACCOUNT (exchange g));
    (OMNIBAZAAR_WELCOME_ACCOUNT, company_account OMNIBAZAAR_WELCOME_ACCOUNT (welcome g)) ].

(** The statistics object is made while the account is. *)
Definition create_reserved (d : database) (x : Z * (Z → account_object)) : result database :=
  let* (stats, d) := create_statistics (next_id (db_accounts d)) d in
  let* (id, t) := index_create account_clash (db_accounts d) (x.2 stats) in
  FC_ASSERT (id =? x.1) ;;
  Ok (set_accounts (λ _, t) d).

(** Accounts whose ids are not to be given out: created and removed again.
    The statistics stay. *)
Fixpoint special_accounts (fuel : nat) (num : Z) (d : database) : result database :=
  let id := next_id (db_accounts d) in
  if num <=? id then Ok d
  else
    match fuel with
    | O => Throw out_of_fuel
    | S fuel' =>
        let* d := create_reserved d (id, system_account ("special-account-" +:+ number_name id) id
                                           GRAPHENE_DEFAULT_NETWORK_PERCENT_OF_FEE 1) in
        let* t := index_remove (db_accounts d) id in
        special_accounts fuel' num (set_accounts (λ _, t) d)
    end.

(** ** The core asset *)

Definition unit_rate : price := mkPrice (core_asset 1) (core_asset 1).

Definition reserved_asset (symbol : string) (max_supply dyn : Z) : asset_object :=
  mkAssetObject GRAPHENE_NULL_ACCOUNT 0 0 ∅ ∅ unit_rate dyn None None symbol GRAPHENE_BLOCKCHAIN_PRECISION_DIGITS
    max_supply 0 GRAPHENE_MAX_SHARE_SUPPLY ∅ ∅.

Definition create_core_asset (g : genesis_state_type) (d : database) : result database :=
  let* (dyn, d) := create_asset_dyn (mkDynData GRAPHENE_MAX_SHARE_SUPPLY 0 0 0) d in
  let* (_, d) := create_asset (λ _, reserved_asset GRAPHENE_SYMBOL (max_core_supply g) dyn) d in
  Ok d.

Definition remove_asset (d : database) (aid : Z) : result database :=
  let* _ := get_asset_object d aid in Ok (set_assets (delete aid) d).

Fixpoint special_assets (fuel : nat) (num : Z) (d : database) : result database :=
  let id := db_next_asset d in
  if num <=? id then Ok d
  else
    match fuel with
    | O => Throw out_of_fuel
    | S fuel' =>
        let* (dyn, d) := create_asset_dyn (mkDynData 0 0 0 0) d in
        let* (i, d) := create_asset (λ _, reserved_asset ("SPECIAL" +:+ number_name id) 0 dyn) d in
        FC_ASSERT (i =? id) ;;
        let* d := remove_asset d i in
        special_assets fuel' num d
    end.

(** ** The objects of the genesis state

    [total_supplies] and [total_debts] go along with the database. *)

Record tally := mkTally {
  ty_db : database;
  total_supplies : gmap Z Z;
  total_debts : gmap Z Z
}.

Definition on_ty_db (f : database → result database) (t : tally) : result tally :=
  let* d := f (ty_db t) in Ok (mkTally d (total_supplies t) (total_debts t)).

(** [auth_inhibitor]. *)
Definition inhibit (f : skip_flags) : skip_flags :=
  mkSkip (skip_witness_signature f) (skip_transaction_signatures f) (skip_transaction_dupe_check f)
    (skip_tapos_check f) true (skip_merkle_check f) (skip_assert_evaluation f) (skip_undo_history_check f)
    (skip_witness_schedule_check f).

Section genesis.
Context {FC : FcArith} {BA : BoostArith} {NE : NthElement} {FS : FcString} {IP : FcIp} {P : Pedersen} {PS : PackSizes}.
Context (key_addresses : Z → list Z) (flags : skip_flags).
(** [boost::algorithm::to_lower]. *)
Context (boost_to_lower : string → string).

(** [m[ k ] += x]. *)
Definition add_to (k x : Z) (m : gmap Z Z) : result (gmap Z Z) :=
  let* n := safe_add (default 0 (m !! k)) x in Ok (<[k := n]> m).

Definition add_supply (k x : Z) (t : tally) : result tally :=
  let* m := add_to k x (total_supplies t) in Ok (mkTally (ty_db t) m (total_debts t)).
Definition add_debt (k x : Z) (t : tally) : result tally :=
  let* m := add_to k x (total_debts t) in Ok (mkTally (ty_db t) (total_supplies t) m).

(** [apply_operation( genesis_eval_state, op )], with the fees zeroed. *)
Definition genesis_apply (o : operation) (d : database) : result database :=
  let* s := apply_level key_addresses (λ _, zero_all_fees) (inhibit flags) levels false (genesis_chain d) o in
  Ok (cs_db s).

Definition genesis_account (name : string) (owner active : authority) (memo : Z) (btc eth : string)
    : account_create_operation :=
  mkAccountCreate (core_asset 0) GRAPHENE_TEMP_ACCOUNT 0 0 name owner active "" "" btc eth
    (mkAccountOptions memo GRAPHENE_PROXY_TO_SELF_ACCOUNT 0 0 ∅) false None None None.

Definition create_initial_account (d : database) (a : initial_account_type) : result database :=
  let owner := key_authority (ia_owner_key a) in
  let own := ia_active_key a =? no_key in
  genesis_apply
    (op_account_create
       (genesis_account (ia_name a) owner (if own then owner else key_authority (ia_active_key a))
          (if own then ia_owner_key a else ia_active_key a) (ia_btc_address a) (ia_eth_address a))) d.

Definition get_account_id (d : database) (name : string) : result Z :=
  of_option assert_exception
    (fst <$> List.find (λ kv, bool_decide (ao_name kv.2 = name)) (map_to_list (objs (db_accounts d)))).

Definition get_asset_id (d : database) (symbol : string) : result Z :=
  of_option assert_exception
    (fst <$> find_symbol d (if bool_decide (symbol = "XOM") then GRAPHENE_SYMBOL else symbol)).

(** *** Assets *)

(** A margin position, of an account made for it. *)
Definition create_position (symbol : string) (new_asset_id : Z) (t : tally)
    (nr : Z * initial_collateral_position) : result tally :=
  let (number, rec) := nr in
  let owner := address_authority (icp_owner rec) in
  let cop := genesis_account (boost_to_lower (symbol +:+ "-collateral-holder-" +:+ number_name number))
               owner owner no_key "" "" in
  let owner_account_id := next_id (db_accounts (ty_db t)) in
  let* t := on_ty_db (genesis_apply (op_account_create cop)) t in
  let* a := get_account (ty_db t) owner_account_id in
  let* t := on_ty_db (λ d, modify_statistics d (ao_statistics a)
                             (λ s, Ok (set_total_core_in_orders (λ _, icp_collateral rec) s))) t in
  let* cp := call_price (mkAsset (icp_debt rec) new_asset_id) (core_asset (icp_collateral rec))
               GRAPHENE_DEFAULT_MAINTENANCE_COLLATERAL_RATIO in
  let* t := on_ty_db (λ d,
    let* (_, c) := index_create call_clash (db_call_orders d)
                     (mkCall owner_account_id (icp_collateral rec) (icp_debt rec) cp) in
    Ok (set_call_orders (λ _, c) d)) t in
  let* t := add_supply core_id (icp_collateral rec) t in
  add_debt new_asset_id (icp_debt rec) t.

Definition genesis_bitasset : asset_bitasset_data_object :=
  new_bitasset
    (mkBitassetOptions GRAPHENE_DEFAULT_PRICE_FEED_LIFETIME GRAPHENE_DEFAULT_MINIMUM_FEEDS
       GRAPHENE_DEFAULT_FORCE_SETTLEMENT_DELAY GRAPHENE_DEFAULT_FORCE_SETTLEMENT_OFFSET
       GRAPHENE_DEFAULT_FORCE_SETTLEMENT_MAX_VOLUME core_id) false.

Definition create_bitasset_data (a : initial_asset_type) (new_asset_id : Z) (t : tally) : result (option Z * tally) :=
  if ias_is_bitasset a then
    let t := mkTally (ty_db t) (total_supplies t) (<[new_asset_id := 0]> (total_debts t)) in
    let records := ias_collateral_records a in
    let* t := rfold (create_position (ias_symbol a) new_asset_id) t (zip (seqZ 0 (Z.of_nat (length records))) records) in
    let* (id, d) := create_bitasset genesis_bitasset (ty_db t) in
    Ok (Some id, mkTally d (total_supplies t) (total_debts t))
  else Ok (None, t).

Definition genesis_permissions (is_bitasset : bool) : Z :=
  Z.lor (Z.lor (Z.lor (Z.lor (Z.lor charge_market_fee override_authority) white_list) transfer_restricted)
           disable_confidential)
    (if is_bitasset
     then Z.lor (Z.lor (Z.lor disable_force_settle global_settle) witness_fed_asset) committee_fed_asset else 0).

Definition create_initial_asset (t : tally) (a : initial_asset_type) : result tally :=
  let new_asset_id := db_next_asset (ty_db t) in
  let t := mkTally (ty_db t) (<[new_asset_id := 0]> (total_supplies t)) (total_debts t) in
  let* (bitasset_data_id, t) := create_bitasset_data a new_asset_id t in
  let* (dynamic_data_id, d) := create_asset_dyn (mkDynData 0 0 (ias_accumulated_fees a) 0) (ty_db t) in
  let* t := add_supply new_asset_id (ias_accumulated_fees a) (mkTally d (total_supplies t) (total_debts t)) in
  let* issuer := get_account_id (ty_db t) (ias_issuer_name a) in
  on_ty_db (λ d,
    let* (_, d) := create_asset (λ _,
      mkAssetObject issuer witness_fed_asset (genesis_permissions (ias_is_bitasset a)) ∅ ∅ default_price
        dynamic_data_id bitasset_data_id None (ias_symbol a) (ias_precision a) (ias_max_supply a)
        0 GRAPHENE_MAX_SHARE_SUPPLY ∅ ∅) d in
    Ok d) t.

(** *** Balances *)

Definition create_balance (owner aid x : Z) (policy : option linear_vesting_policy) (t : tally) : result tally :=
  let* t := on_ty_db (λ d,
    let* (_, b) := index_create no_clash (db_genesis_balances d) (mkBalanceObject owner (mkAsset x aid) policy 0) in
    Ok (set_genesis_balances (λ _, b) d)) t in
  add_supply aid x t.

Definition create_initial_balance (t : tally) (h : initial_balance_type) : result tally :=
  let* aid := get_asset_id (ty_db t) (ib_asset_symbol h) in
  create_balance (ib_owner h) aid (ib_amount h) None t.

Definition create_initial_vesting_balance (t : tally) (v : initial_vesting_balance_type) : result tally :=
  let* aid := get_asset_id (ty_db t) (iv_asset_symbol v) in
  create_balance (iv_owner v) aid (iv_amount v)
    (Some (mkLinear (iv_begin_timestamp v) 0 (iv_vesting_duration_seconds v) (iv_begin_balance v))) t.

(** *** Supplies *)

(** Without any core currency in the genesis state the committee has it all. *)
Definition settle_committee (t : tally) : result tally :=
  if 0 <? default 0 (total_supplies t !! core_id) then
    on_ty_db (λ d, let* b := asset_neg (get_balance d GRAPHENE_COMMITTEE_ACCOUNT core_id) in
                   adjust_balance d GRAPHENE_COMMITTEE_ACCOUNT b) t
  else Ok (mkTally (ty_db t) (<[core_id := GRAPHENE_MAX_SHARE_SUPPLY]> (total_supplies t)) (total_debts t)).

(** What is in circulation of a market-issued asset is owed by positions. *)
Definition asset_balanced (t : tally) (ia : Z * asset_object) : bool :=
  negb (is_market_issued ia.2)
  || match total_supplies t !! ia.1, total_debts t !! ia.1 with
     | Some supply, Some debt => supply =? debt
     | _, _ => false
     end.

Definition save_supply (d : database) (item : Z * Z) : result database :=
  let* a := get_asset_object d item.1 in
  modify_asset_dyn d (as_dynamic_asset_data_id a) (λ s, Ok (set_current_supply (λ _, item.2) s)).

Definition save_supplies (t : tally) : result database :=
  rfold save_supply (ty_db t) (in_order (λ x y, x.1 <? y.1) (total_supplies t)).

Definition create_assets_and_balances (g : genesis_state_type) (d : database) : result database :=
  let* t := rfold create_initial_asset (mkTally d ∅ ∅) (initial_assets g) in
  let* t := rfold create_initial_balance t (initial_balances g) in
  let* t := rfold create_initial_vesting_balance t (initial_vesting_balances g) in
  let* t := settle_committee t in
  FC_ASSERT (forallb (asset_balanced t) (map_to_list (db_assets (ty_db t)))) ;;
  save_supplies t.

(** *** Candidates *)

(** The witness with the id 0 is made and removed. *)
Definition create_null_witness (d : database) : result database :=
  let* (id, d) := create_witness d (mkWitness 0 0 None (vote_id witness 0) 0 0 0 no_key 0 "") in
  FC_ASSERT (id =? GRAPHENE_NULL_WITNESS) ;;
  Ok (set_witnesses (delete id) d).

Definition create_initial_witness (d : database) (w : initial_witness_type) : result database :=
  let* a := get_account_id d (iw_owner_name w) in
  genesis_apply (op_witness_create (mkWitnessCreate (core_asset 0) a "" (iw_block_signing_key w))) d.

Definition create_initial_committee_member (d : database) (owner_name : string) : result database :=
  let* a := get_account_id d owner_name in
  genesis_apply (op_committee_member_create (mkCommitteeCreate (core_asset 0) a "")) d.

Definition create_initial_worker (begin : Z) (d : database) (w : initial_worker_type) : result database :=
  let* a := get_account_id d (iwk_owner_name w) in
  genesis_apply
    (op_worker_create
       (mkWorkerCreate (core_asset 0) a begin (2 ^ 32 - 1) (iwk_daily_pay w)
          ("Genesis-Worker-" +:+ iwk_owner_name w) "" (vesting_balance_worker_initializer 0))) d.

Definition create_candidates (g : genesis_state_type) (d : database) : result database :=
  let* d := create_null_witness d in
  let* d := rfold create_initial_witness d (initial_witness_candidates g) in
  let* d := rfold create_initial_committee_member d (initial_committee_candidates g) in
  rfold (create_initial_worker (initial_timestamp g)) d (initial_worker_candidates g).

(** *** The start *)

Definition stealth_accumulator : fba_accumulator_object := mkFba 0 (Some GRAPHENE_FBA_STEALTH_DESIGNATED_ASSET).

(** The first active witnesses, the fees, the schedule, the accumulators. *)
Definition start_chain (g : genesis_state_type) (d : database) : database :=
  let d := set_gpo (set_active_witnesses (λ s, s ∪ list_to_set (seqZ 1 (initial_active_witnesses g)))) d in
  let d := set_gpo (set_parameters (set_account_basic_fee (λ _, cp_account_basic_fee (initial_parameters g)))) d in
  let d := set_shuffled_witnesses (λ _, flat_elements (gp_active_witnesses (db_gpo d))) d in
  set_fbas (λ _, {[ fba_accumulator_id_transfer_to_blind := stealth_accumulator;
                    fba_accumulator_id_blind_transfer := stealth_accumulator;
                    fba_accumulator_id_transfer_from_blind := stealth_accumulator ]}) d.

Definition genesis_accounts_and_core (g : genesis_state_type) : result database :=
  let i := immutable_parameters g in
  let* d := rfold create_reserved (initial_database g) (reserved_accounts g) in
  let* d := special_accounts (Z.to_nat (num_special_accounts i)) (num_special_accounts i) d in
  let* d := create_core_asset g d in
  special_assets (Z.to_nat (num_special_assets i)) (num_special_assets i) d.

Definition init_genesis (g : genesis_state_type) : result chain_state :=
  let candidates := Z.of_nat (length (initial_witness_candidates g)) in
  let i := immutable_parameters g in
  FC_ASSERT (negb (initial_timestamp g =? 0)) ;;
  FC_ASSERT (initial_timestamp g mod GRAPHENE_DEFAULT_BLOCK_INTERVAL =? 0) ;;
  FC_ASSERT (0 <? candidates) ;;
  FC_ASSERT (initial_active_witnesses g <=? candidates) ;;
  let* d := genesis_accounts_and_core g in
  FC_ASSERT (Z.odd (min_witness_count i)) ;;
  FC_ASSERT (Z.odd (min_committee_member_count i)) ;;
  let* d := rfold create_initial_account d (initial_accounts g) in
  let* d := create_assets_and_balances g d in
  let* d := create_candidates g d in
  Ok (genesis_chain (start_chain g d)).
End genesis.
