(* ===== verification/GenesisTheorems.v ===== *)
(** * The first state of a chain: the theorems

    The accounts of the chain balance from the start: [init_genesis] gives a
    state in which every asset's supply is exactly what somebody holds, every
    market-issued one is owed by positions, and the active witnesses exist. *)

From stdpp Require Import gmap strings list.
From Stdlib Require Import ZArith Lia.
From S2P Require Import Prelude Fc Config Authority Asset AssetText VestingBalance Objects Database Sample Balances Fees Exchange WithdrawPermission Fba Market MarketSteps PriceFeeds PriceFeedProps AssetEval AssetProps Governance GovernanceProps Accounts AccountProps AccountTheorems AccountIndexes ForkDb Proposal Confidential SmallOps Operations FeeSchedule ChainState ChainProps TransactionTheorems Genesis.

Local Open Scope string_scope.
Local Open Scope Z_scope.

(** ** Quiet steps *)

(** The tables that say what exists and how much of it. *)
Definition coffers (d : database) :=
  (db_balances d, objs (db_call_orders d), db_assets d, db_asset_dyn d, db_bitassets d, db_next_asset d,
   db_next_asset_dyn d, db_next_bitasset d).

(** The time, the rules but for the registration fee, and the accumulators. *)
Definition setting (d : database) :=
  (clock d, set_account_basic_fee (λ _, 0) (parameters d), gp_active_witnesses (db_gpo d), db_fbas d).
Definition witnesses_of (d : database) := (db_witnesses d, gv_next_witness (db_governance d)).

Definition quiet (d d' : database) : Prop := conserves d d' ∧ coffers d' = coffers d ∧ setting d' = setting d.
Definition very_quiet (d d' : database) : Prop := quiet d d' ∧ witnesses_of d' = witnesses_of d.

#[export] Instance quiet_preorder : PreOrder quiet.
Proof.
  split; [intros d; split; [apply moves_refl|done]|]. intros d1 d2 d3 (C1 & E1 & S1) (C2 & E2 & S2).
  split; [by eapply moves_conserves_l|split; congruence].
Qed.

#[export] Instance very_quiet_preorder : PreOrder very_quiet.
Proof. split; [by intros d|]. intros d1 d2 d3 [Q1 E1] [Q2 E2]. split; [by etrans|congruence]. Qed.

(** What somebody owes of an asset. *)
Definition total_debt (x : Z) (d : database) : Z :=
  msum (λ _ c, amount_of x (get_debt c)) (objs (db_call_orders d)).

Lemma coffers_supply d d' x : coffers d' = coffers d → current_supply x d' = current_supply x d.
Proof. unfold coffers, current_supply. by intros [= _ _ -> -> _ _ _ _]. Qed.

Lemma coffers_debt d d' x : coffers d' = coffers d → total_debt x d' = total_debt x d.
Proof. unfold coffers, total_debt. by intros [= _ -> _ _ _ _ _ _]. Qed.

Lemma coffers_fresh d d' : coffers d' = coffers d → asset_ids_fresh d → asset_ids_fresh d'.
Proof. unfold coffers, asset_ids_fresh. by intros [= _ _ -> -> -> -> -> ->]. Qed.

Section genesis.
Context {FC : FcArith} {FCL : FcArithLaws FC} {BA : BoostArith} {NE : NthElement} {FS : FcString} {IP : FcIp}.
Context {P : Pedersen} {PS : PackSizes}.
Context (key_addresses : Z → list Z) (flags : skip_flags) (boost_to_lower : string → string).

Notation genesis_apply := (genesis_apply key_addresses flags).

(** ** Operations without a fee *)

Lemma free_operation {Op} {E : Evaluator Op} required d (op : Op) d' : op_fee op = core_asset 0 →
  start_evaluate false false required d op = Ok d' →
  ∃ st d1, very_quiet d d1 ∧ do_evaluate d op = Ok st ∧ do_apply d1 op st = Ok d'.
Proof.
  intros Hfee (g & st & d0 & d1 & d2 & Hg & Hst & Hc & Hp & Ha & Hadj)%start_evaluate_stages.
  pose proof (fee_payment_moves _ _ _ _ _ _ _ Hg eq_refl Hc Hp) as M.
  apply prepare_fee_ok in Hg as (_ & Hi & _). rewrite Hfee in *. injection Hadj as <-.
  exists st, d1. split_and!; [|done|done]. unfold convert_fee in Hc. rewrite Hi in Hc. injection Hc as <-.
  apply moves_modify_statistics in Hp as (s & s' & _ & _ & -> & _). split; [split; [|done]|done].
  eapply moves_ext; [exact M|]. intros x. unfold amount_of. by case_match.
Qed.

Lemma create_account_quiet op d id d' : create_account op d = Ok (id, d') → very_quiet d d'.
Proof.
  intros (stats & _ & _ & Hs & _ & -> & _)%create_account_ok. split; [split; [|done]|done].
  eapply moves_conserves_l; [by apply (moves_new_statistics _ stats id)|].
  eapply moves_conserves_l; [apply (moves_next_statistics _ (λ n, n + 1))|]. apply moves_set_accounts.
Qed.

Lemma count_registration_quiet d d' : count_registration d = Ok d' → very_quiet d d'.
Proof.
  intros H. pose proof (count_registration_moves _ _ H) as M. unfold count_registration, modify_dgpo in H. cbn [rbind] in H.
  case_in H; [done|]. case_in H; [|by injection H as <-].
  apply rbind_ok in H as (fee & _ & [= <-]). split; [split; [exact M|]|]; done.
Qed.

Lemma account_quiet name owner active memo btc eth d d' :
  genesis_apply (op_account_create (genesis_account name owner active memo btc eth)) d = Ok d' → very_quiet d d'.
Proof.
  intros H. apply rbind_ok in H as (s & H & [= <-]). cbn in H. apply rbind_ok in H as (d1 & H & [= <-]).
  apply free_operation in H as ([] & d2 & Q & _ & H); [|done]. etrans; [exact Q|]. simpl in H.
  apply rbind_ok in H as ([id d3] & H & [= <-]). unfold account_create_do_apply in H. cbn in H.
  apply rbind_ok in H as ([i d4] & H1%create_account_quiet & H).
  apply rbind_ok in H as (d5 & H2%count_registration_quiet & [= _ <-]). by etrans.
Qed.

(** ** Before the first asset *)

(** Nothing but the balance of the committee. *)
Definition unborn (g : genesis_state_type) (d : database) : Prop :=
  coffers d = coffers (initial_database g) ∧ setting d = setting (initial_database g) ∧
  witnesses_of d = witnesses_of (initial_database g) ∧
  ∀ x, imbalance x d = amount_of x (core_asset GRAPHENE_MAX_SHARE_SUPPLY).

Lemma initial_unborn g : unborn g (initial_database g).
Proof.
  split_and!; [done..|]. intros x. rewrite amount_of_core.
  assert (held_balances x (db_balances (initial_database g)) = if core_id =? x then GRAPHENE_MAX_SHARE_SUPPLY else 0) as E.
  { unfold held_balances. simpl. rewrite <- insert_empty, msum_insert_new by done. simpl. case_match; done. }
  unfold imbalance, held. rewrite E. rewrite (Z.eqb_sym core_id x).
  by destruct (x =? core_id).
Qed.

Lemma create_reserved_ok d x d' : create_reserved d x = Ok d' →
  coffers d' = coffers d ∧ setting d' = setting d ∧ witnesses_of d' = witnesses_of d ∧
  (∀ y, imbalance y d' = imbalance y d) ∧ x.1 = next_id (db_accounts d) ∧
  next_id (db_accounts d') = next_id (db_accounts d) + 1.
Proof.
  unfold create_reserved, create_statistics. intros H. apply rbind_ok in H as ([stats d1] & Hs & H).
  apply rbind_ok in Hs as (u & Hn%require_ok%bool_decide_eq_true & [= <- <-]).
  apply rbind_ok in H as ([id t] & (-> & _ & _ & ->)%index_create_ok & H).
  apply rbind_ok in H as (u' & Hi%require_ok%Z.eqb_eq & [= <-]). split_and!; try done.
  intros y. unfold imbalance, held, held_market, held_fees, current_supply. simpl.
  rewrite msum_insert_new by done. simpl. case_match; lia.
Qed.

Lemma create_reserved_unborn g d x d' : unborn g d → create_reserved d x = Ok d' → unborn g d'.
Proof.
  intros (U1 & U2 & U3 & U4) (E1 & E2 & E3 & E4 & _)%create_reserved_ok. unfold unborn. rewrite E1, E2, E3.
  split_and!; [done..|]. intros y. by rewrite E4.
Qed.

Lemma special_accounts_unborn g fuel num d d' : unborn g d → special_accounts fuel num d = Ok d' → unborn g d'.
Proof.
  revert d. induction fuel as [|fuel IH]; intros d U H; simpl in H; case_in H; try done; [by injection H as <-..|].
  apply rbind_ok in H as (d1 & H1 & H). apply rbind_ok in H as (t & _ & H).
  eapply IH, H. by eapply create_reserved_unborn in H1.
Qed.

(** Every round gives out an id. *)
Lemma special_accounts_end fuel num d : num - next_id (db_accounts d) <= Z.of_nat fuel →
  special_accounts fuel num d ≠ Throw out_of_fuel.
Proof.
  revert d. induction fuel as [|fuel IH]; intros d Hf; simpl; destruct (Z.leb_spec num (next_id (db_accounts d))); try done; [lia|].
  destruct (create_reserved _ _) as [d1|e] eqn:H1; simpl.
  - apply create_reserved_ok in H1 as (_ & _ & _ & _ & _ & En).
    destruct (index_remove _ _) as [t|e] eqn:Ht; simpl.
    + apply index_remove_ok in Ht as (_ & ->). apply IH. simpl. lia.
    + unfold index_remove, index_get in Ht. destruct (objs _ !! _); [done|by injection Ht as <-].
  - unfold create_reserved, create_statistics, index_create, require in H1. cbn in H1.
    destruct (bool_decide (db_statistics d !! _ = None)); cbn in H1; [|by injection H1 as <-].
    destruct (_ && _); cbn in H1; [|by injection H1 as <-]. destruct (_ =? _); cbn in H1; congruence.
Qed.

(** ** The running balance *)

(** While the objects are made, [total_supplies] is what exists beyond the
    balance of the committee, [total_debts] what is owed; the ids in both lie
    below [n]. *)
Record running (n : Z) (t : tally) : Prop := {
  run_wf : assets_wf (ty_db t);
  run_fresh : asset_ids_fresh (ty_db t);
  run_held : ∀ x, imbalance x (ty_db t) = default 0 (total_supplies t !! x);
  run_supply : ∀ x, current_supply x (ty_db t) = amount_of x (core_asset GRAPHENE_MAX_SHARE_SUPPLY);
  run_debt : ∀ x, total_debt x (ty_db t) = default 0 (total_debts t !! x);
  run_committee : db_balances (ty_db t) !! (GRAPHENE_COMMITTEE_ACCOUNT, core_id) = Some GRAPHENE_MAX_SHARE_SUPPLY;
  run_keys : ∀ x, is_Some (total_supplies t !! x) ∨ is_Some (total_debts t !! x) → x < n;
  run_next : 0 < n;
  run_core : 0 <= default 0 (total_supplies t !! core_id)
}.

Lemma running_quiet n t d' : running n t → quiet (ty_db t) d' →
  running n (mkTally d' (total_supplies t) (total_debts t)).
Proof.
  intros [W F H S D C K N Z0] (M & E & _). destruct (M W) as [W' I]. split; simpl; try done.
  - by eapply coffers_fresh.
  - intros x. by rewrite I, Z.add_0_r.
  - intros x. by rewrite (coffers_supply _ _ _ E).
  - intros x. by rewrite (coffers_debt _ _ _ E).
  - unfold coffers in E. by injection E as -> _.
Qed.

Lemma add_to_ok k x m m' : add_to k x m = Ok m' →
  (∀ y, default 0 (m' !! y) = default 0 (m !! y) + amount_of y (mkAsset x k)) ∧
  ∀ y, is_Some (m' !! y) ↔ is_Some (m !! y) ∨ y = k.
Proof.
  intros H. apply rbind_ok in H as (n & Hn & [= <-]). safe_inv. unfold amount_of. simpl. split; intros y.
  - destruct (Z.eqb_spec k y) as [->|]; [by rewrite lookup_insert_eq|]. rewrite lookup_insert_ne by done. lia.
  - destruct (decide (k = y)) as [->|]; [rewrite lookup_insert_eq|rewrite lookup_insert_ne by done]; naive_solver.
Qed.

(** An account of its own for the new id. *)
Lemma running_new n t :
  running n t → running (n + 1) (mkTally (ty_db t) (<[n := 0]> (total_supplies t)) (total_debts t)) ∧
  running (n + 1) (mkTally (ty_db t) (<[n := 0]> (total_supplies t)) (<[n := 0]> (total_debts t))).
Proof.
  intros [W F H S D C K N Z0].
  assert (∀ m : gmap Z Z, (is_Some (m !! n) → n < n) → ∀ x, default 0 (<[n := 0]> m !! x) = default 0 (m !! x)) as Hd.
  { intros m Hm x. destruct (decide (n = x)) as [<-|]; [|by rewrite lookup_insert_ne].
    rewrite lookup_insert_eq. destruct (m !! n) eqn:E; [|done]. destruct (Z.lt_irrefl n). by apply Hm. }
  assert (∀ x m, is_Some (<[n := 0]> m !! x) → x = n ∨ is_Some ((m : gmap Z Z) !! x)) as Hk.
  { intros x m [v Hv]. apply lookup_insert_Some in Hv as [[<- _]|[_ Hv]]; [by left|right; eauto]. }
  split; split; simpl; try done; try lia; try (intros x; rewrite Hd; auto); try (rewrite Hd; auto).
  - intros x [Hx|Hx]; [apply Hk in Hx as [->|Hx]; [lia|]|]; specialize (K x); naive_solver lia.
  - intros x [Hx|Hx]; apply Hk in Hx as [->|Hx]; try lia; specialize (K x); naive_solver lia.
Qed.

(** ** The first assets *)

Lemma create_dyn_ok v d id d' : create_asset_dyn v d = Ok (id, d') →
  id = db_next_asset_dyn d ∧ db_asset_dyn d !! id = None ∧
  d' = set_next_asset_dyn (λ n, n + 1) (set_asset_dyn (<[id := v]>) d).
Proof. intros H. apply rbind_ok in H as (u & Hn%require_ok%bool_decide_eq_true & [= <- <-]). done. Qed.

Lemma create_core_running g d d' : unborn g d → create_core_asset g d = Ok d' →
  running (db_next_asset d') (mkTally d' ∅ ∅) ∧ setting d' = setting (initial_database g) ∧
  witnesses_of d' = witnesses_of (initial_database g).
Proof.
  intros (U1 & U2 & U3 & U4) H. unfold coffers in U1. simpl in U1. injection U1 as Eb Ec Ea Ed Ebit En End Enb.
  unfold create_core_asset in H. apply rbind_ok in H as ([dyn d1] & (-> & _ & ->)%create_dyn_ok & H).
  apply rbind_ok in H as ([aid d2] & (-> & _ & _ & ->)%create_asset_ok & [= <-]). split; [|done]. simpl. rewrite ?En, ?End, ?Ea, ?Ed.
  split; simpl; rewrite ?Ea, ?Ed, ?En, ?End; try done.
  - split_and!.
    + simpl. rewrite ?Ea, ?En. intros i j a b Hi Hj _. apply lookup_singleton_Some in Hi as [<- _], Hj as [<- _]. done.
    + simpl. rewrite ?Ea. eexists. split; [apply lookup_insert_eq|done].
    + simpl. rewrite ?Ed. by rewrite lookup_insert_eq.
    + simpl. rewrite ?Ebit. done.
  - split_and!; simpl; rewrite ?Ea, ?Ed, ?En, ?End, ?Ebit; [| |done].
    + intros i a [<- <-]%lookup_singleton_Some. simpl. lia.
    + intros i s' [<- _]%lookup_singleton_Some. lia.
  - intros x. specialize (U4 x). rewrite amount_of_core in U4.
    unfold imbalance, held, held_market, issuer_held, current_supply, held_pools in *. simpl. rewrite ?Ea, ?Ed, ?En, ?End in *.
    simpl in *. rewrite lookup_empty. simpl. rewrite Ebit in *.
    assert (∀ f : asset_dynamic_data_object → Z, from_option f 0
      (dyn_of x {[0 := reserved_asset GRAPHENE_SYMBOL (max_core_supply g) 0]} {[0 := mkDynData GRAPHENE_MAX_SHARE_SUPPLY 0 0 0]})
      = if x =? core_id then f (mkDynData GRAPHENE_MAX_SHARE_SUPPLY 0 0 0) else 0) as E.
    { intros f. unfold dyn_of. destruct (Z.eqb_spec x core_id) as [E0|E0]; [by rewrite E0|]. by rewrite lookup_singleton_ne. }
    rewrite !E, msum_insert_new by done. simpl. unfold dyn_of in U4. rewrite lookup_empty in U4. simpl in U4.
    rewrite msum_empty in *. destruct (x =? core_id); lia.
  - intros x. unfold current_supply, dyn_of. simpl. rewrite amount_of_core, ?Ea, ?Ed, ?En, ?End.
    destruct (Z.eqb_spec x core_id) as [E0|E0]; [by rewrite E0|]. by rewrite lookup_insert_ne.
  - intros x. unfold total_debt. simpl. rewrite Ec. apply msum_empty.
  - rewrite Eb. done.
  - intros x [[? Hx]|[? Hx]]; done.
Qed.

Lemma running_more n n' t : n <= n' → running n t → running n' t.
Proof. intros Hn [W F H S D C K N Z0]. split; try done; [|lia]. intros x Hx. specialize (K x Hx). lia. Qed.

(** New dynamic data belongs to no asset yet. *)
Lemma dyn_running n t v id d' : dd_fee_pool v = 0 → running n t → create_asset_dyn v (ty_db t) = Ok (id, d') →
  running n (mkTally d' (total_supplies t) (total_debts t)) ∧ db_asset_dyn d' !! id = Some v ∧
  id = db_next_asset_dyn (ty_db t) ∧ db_next_asset_dyn d' = id + 1 ∧
  db_assets d' = db_assets (ty_db t) ∧ db_next_asset d' = db_next_asset (ty_db t) ∧
  setting d' = setting (ty_db t) ∧ witnesses_of d' = witnesses_of (ty_db t).
Proof.
  intros Hv [W F H S D C K N Z0] (-> & Hn & ->)%create_dyn_ok. set (id := db_next_asset_dyn (ty_db t)) in *.
  assert (∀ x, dyn_of x (db_assets (ty_db t)) (<[id := v]> (db_asset_dyn (ty_db t))) =
               dyn_of x (db_assets (ty_db t)) (db_asset_dyn (ty_db t))) as E.
  { intros x. unfold dyn_of. destruct (db_assets (ty_db t) !! x) as [a|] eqn:Ha; [|done]. simpl.
    destruct F as [F _]. destruct (F _ _ Ha) as [_ Hlt]. rewrite lookup_insert_ne; [done|]. subst id. lia. }
  split; [|split_and!; try done; apply lookup_insert_eq]. destruct W as (W1 & W2 & [s0 W3] & W4), F as (F1 & F2 & F3).
  split; simpl; try done.
  - split_and!; try done. exists s0. simpl. rewrite lookup_insert_ne; [done|]. intros E0. rewrite E0, W3 in Hn. done.
  - split_and!; simpl; [|intros i s' [[<- _]|[_ Hi]]%lookup_insert_Some; [lia|specialize (F2 _ _ Hi); lia]|exact F3].
    intros i a Ha. destruct (F1 i a Ha). lia.
  - intros x. rewrite <- H. unfold imbalance, held, held_market, issuer_held, current_supply, held_pools. simpl.
    rewrite !E, msum_insert, Hn, Hv. simpl. destruct (x =? core_id); lia.
  - intros x. rewrite <- S. unfold current_supply. simpl. by rewrite E.
Qed.

Lemma special_assets_running fuel num n t d' : running n t → db_next_asset (ty_db t) = n →
  special_assets fuel num (ty_db t) = Ok d' →
  running (db_next_asset d') (mkTally d' (total_supplies t) (total_debts t)) ∧
  setting d' = setting (ty_db t) ∧ witnesses_of d' = witnesses_of (ty_db t).
Proof.
  revert n t. induction fuel as [|fuel IH]; intros n [d ts td] R Hn H; simpl in *; case_in H; try done;
    [by injection H as <-; subst n..|].
  apply rbind_ok in H as ([dyn d1] & H1 & H).
  apply (dyn_running n (mkTally d ts td)) in H1 as (R1 & _ & _ & _ & _ & En & S1 & W1); [|done|done]. simpl in *.
  apply rbind_ok in H as ([i d2] & (-> & Hi & _ & ->)%create_asset_ok & H).
  apply rbind_ok in H as (u & _ & H). apply rbind_ok in H as (d3 & H3 & H).
  apply rbind_ok in H3 as (a & _ & [= <-]).
  match type of H with special_assets _ _ ?d4 = _ => apply (IH (n + 1) (mkTally d4 ts td)) in H as (R' & S' & W') end;
    [|clear IH H|simpl; lia].
  - simpl in *. rewrite S', W'. done.
  - destruct R1 as [(X1 & X2 & X3 & X4) (F1 & F2 & F3) H S D C K N Z0]. simpl in *.
    match type of Hi with _ !! ?k = None => assert (∀ v, delete k (<[k := v]> (db_assets d1)) = db_assets d1) as Edel
      by (intros v; by apply delete_insert_id) end.
    split; simpl; try done.
    + unfold assets_wf. simpl. rewrite !Edel. done.
    + unfold asset_ids_fresh. simpl. rewrite !Edel. split_and!; [|done..]. intros j b Hb. destruct (F1 j b Hb). lia.
    + intros x. rewrite <- H. unfold imbalance, held, held_market, issuer_held, current_supply. simpl. by rewrite !Edel.
    + intros x. rewrite <- S. unfold current_supply. simpl. by rewrite !Edel.
    + intros x Hx. specialize (K x Hx). lia.
    + lia.
Qed.

(** ** The assets of the genesis state *)

(** What making objects leaves alone. *)
Definition outline (d : database) := (db_assets d, db_next_asset d, db_next_asset_dyn d, setting d, witnesses_of d).

Lemma very_quiet_outline d d' : very_quiet d d' → outline d' = outline d.
Proof. intros [(_ & E & S) W]. unfold outline, coffers in *. rewrite S, W. by injection E as _ _ -> _ _ -> -> _. Qed.

Lemma outline_inv d d' : outline d' = outline d →
  db_assets d' = db_assets d ∧ db_next_asset d' = db_next_asset d ∧ setting d' = setting d ∧ witnesses_of d' = witnesses_of d.
Proof.
  intros H. split_and!; [exact (f_equal (λ x, x.1.1.1.1) H)|exact (f_equal (λ x, x.1.1.1.2) H)|
    exact (f_equal (λ x, x.1.2) H)|exact (f_equal snd H)].
Qed.

Lemma add_supply_running n k x t t' d' :
  assets_wf d' → asset_ids_fresh d' → (∀ y, imbalance y d' = imbalance y (ty_db t) + amount_of y (mkAsset x k)) →
  (∀ y, current_supply y d' = current_supply y (ty_db t)) → (∀ y, total_debt y d' = total_debt y (ty_db t)) →
  db_balances d' = db_balances (ty_db t) → k < n → (k = core_id → 0 <= x) → running n t →
  add_supply k x (mkTally d' (total_supplies t) (total_debts t)) = Ok t' → running n t' ∧ ty_db t' = d'.
Proof.
  intros W' F' I' S' D' B' Hk Hx [W F H S D C K N Z0] E. apply rbind_ok in E as (m & [Em Ek]%add_to_ok & [= <-]).
  split; [|done]. split; simpl; try done.
  - intros y. by rewrite Em, I', H.
  - intros y. by rewrite S'.
  - intros y. by rewrite D'.
  - by rewrite B'.
  - intros y [[Hy| ->]%Ek|Hy]; [| |]; auto.
  - simpl in Em. rewrite Em. unfold amount_of. simpl. destruct (Z.eqb_spec k core_id); [specialize (Hx e)|]; lia.
Qed.

Lemma index_create_calls d c id t : index_create call_clash (db_call_orders d) c = Ok (id, t) →
  (∀ f : call_order_object → Z, msum (λ _, f) (objs t) = msum (λ _, f) (objs (db_call_orders d)) + f c).
Proof. intros (-> & Hn & _ & ->)%index_create_ok f. simpl. rewrite msum_insert_new by done. lia. Qed.

Lemma create_position_running symbol aid n t nr t' : aid < n → 0 <= icp_collateral nr.2 → running n t →
  create_position key_addresses flags boost_to_lower symbol aid t nr = Ok t' →
  running n t' ∧ outline (ty_db t') = outline (ty_db t).
Proof.
  intros Ha Hc R H. destruct nr as [number rec], t as [d ts td]. cbn in Hc. unfold create_position, on_ty_db in H. cbn in H.
  apply rbind_ok in H as (t1 & H1 & H). apply rbind_ok in H1 as (d1 & Q1%account_quiet & [= <-]). cbn in H.
  pose proof (running_quiet _ _ _ R (proj1 Q1)) as R1. apply very_quiet_outline in Q1. cbn in R1.
  apply rbind_ok in H as (a & _ & H). apply rbind_ok in H as (t2 & H2 & H). apply rbind_ok in H2 as (d2 & H2 & [= <-]). cbn in H.
  apply moves_modify_statistics in H2 as (s & s' & _ & [= <-] & E2 & M). cbn in M.
  assert (very_quiet d1 d2) as Q2.
  { split; [split; [|by subst d2]|by subst d2]. eapply moves_ext; [exact M|]. intros x. unfold core_delta, amount_of. simpl. case_match; lia. }
  clear E2 M. pose proof (running_quiet _ _ _ R1 (proj1 Q2)) as R2. apply very_quiet_outline in Q2. cbn in R2.
  apply rbind_ok in H as (cp & (I1 & I2 & I3)%call_price_ids & H). apply rbind_ok in H as (t3 & H3 & H).
  apply rbind_ok in H3 as (d3 & H3 & [= <-]). apply rbind_ok in H3 as ([ci t] & Ht0 & [= <-]). cbn in H.
  pose proof (index_create_calls _ _ _ _ Ht0) as Ht.
  apply rbind_ok in H as (t4 & H4 & H5). pose proof R2 as [W F _ _ D _ _ _ _]. cbn in *.
  set (d3 := set_call_orders (λ _, t) d2) in *.
  apply rbind_ok in H4 as (m & [Em Ek]%add_to_ok & [= <-]). apply rbind_ok in H5 as (m' & [Em' Ek']%add_to_ok & [= <-]).
  cbn in *. split; [|unfold d3; etrans; [|etrans; [exact Q2|exact Q1]]; done].
  destruct R2 as [_ _ Hh S _ C K N Z0]. cbn in *. split; cbn; try done.
  - intros x. rewrite Em, <- Hh. unfold d3. rewrite imbalance_set_call_orders. cbv beta.
    rewrite (Ht (call_locked x)). unfold call_locked at 2, get_collateral. cbn [call_call_price call_collateral]. rewrite I1. unfold core_asset. lia.
  - intros x. rewrite Em', <- D. unfold total_debt, d3. cbn. rewrite (Ht (λ c, amount_of x (get_debt c))). unfold get_debt, debt_type. cbn. by rewrite I2.
  - intros x [[Hx| ->]%Ek|[Hx| ->]%Ek']; auto.
  - rewrite Em. unfold amount_of. cbn. lia.
Qed.

Definition asset_amounts_ok (a : initial_asset_type) : Prop :=
  Forall (λ r, 0 <= icp_collateral r) (ias_collateral_records a).

Lemma positions_running symbol aid n l t t' : aid < n → Forall (λ nr, 0 <= icp_collateral nr.2) l → running n t →
  rfold (create_position key_addresses flags boost_to_lower symbol aid) t l = Ok t' →
  running n t' ∧ outline (ty_db t') = outline (ty_db t).
Proof.
  intros Ha Hl. revert t. induction Hl as [|x l Hx _ IH]; intros t R H; simpl in H; [by injection H as <-|].
  apply rbind_ok in H as (t1 & H1 & H). apply (create_position_running _ _ n) in H1 as [R1 E1]; [|done..].
  apply IH in H as [R2 E2]; [|done]. split; [done|congruence].
Qed.

Lemma bitasset_running n t id d' : running n t → create_bitasset genesis_bitasset (ty_db t) = Ok (id, d') →
  running n (mkTally d' (total_supplies t) (total_debts t)) ∧ outline d' = outline (ty_db t).
Proof.
  intros [(W1 & W2 & W3 & W4) (F1 & F2 & F3) H S D C K N Z0] (-> & Hn & ->)%create_bitasset_ok. split; [|done].
  split; simpl; try done.
  - split_and!; try done. simpl. intros i b [[_ <-]|[_ Hi]]%lookup_insert_Some; [done|by eapply W4].
  - split_and!; try done. simpl. intros i b [[<- _]|[_ Hi]]%lookup_insert_Some; [lia|]. specialize (F3 _ _ Hi). lia.
  - intros x. rewrite <- H. unfold imbalance, held, held_market, current_supply. simpl. rewrite msum_insert, Hn. simpl.
    unfold fund_locked at 2, amount_of. simpl. case_match; lia.
Qed.

Lemma bitasset_data_running a n t bit t' : asset_amounts_ok a → db_next_asset (ty_db t) = n → running n t →
  create_bitasset_data key_addresses flags boost_to_lower a n
    (mkTally (ty_db t) (<[n := 0]> (total_supplies t)) (total_debts t)) = Ok (bit, t') →
  running (n + 1) t' ∧ outline (ty_db t') = outline (ty_db t).
Proof.
  intros Ha Hn [R1 R2]%running_new H. unfold create_bitasset_data in H. cbn in H. case_in H; [|by injection H as _ <-].
  apply rbind_ok in H as (t1 & H1 & H). apply (positions_running _ _ (n + 1)) in H1 as [R3 E3]; [|lia| |exact R2].
  - apply rbind_ok in H as ([id d2] & H2 & [= _ <-]). apply (bitasset_running (n + 1)) in H2 as [R4 E4]; [|done].
    split; [done|]. cbn in *. congruence.
  - unfold asset_amounts_ok in Ha. apply Forall_forall. intros [i r] Hr. eapply Forall_forall in Ha; [exact Ha|].
    by eapply elem_of_zip_r.
Qed.

(** A new asset with dynamic data of its own, nothing of which is issued yet. *)
Lemma create_asset_adds f d id d' fees : assets_wf d → asset_ids_fresh d →
  let dyn := as_dynamic_asset_data_id (f (db_next_asset d)) in
  db_asset_dyn d !! dyn = Some (mkDynData 0 0 fees 0) → (∀ i a, db_assets d !! i = Some a → as_dynamic_asset_data_id a ≠ dyn) →
  create_asset f d = Ok (id, d') →
  assets_wf d' ∧ asset_ids_fresh d' ∧ (∀ x, imbalance x d' = imbalance x d + amount_of x (mkAsset fees id)) ∧
  (∀ x, current_supply x d' = current_supply x d) ∧ id = db_next_asset d ∧
  d' = set_next_asset (λ n, n + 1) (set_assets (<[id := f id]>) d).
Proof.
  intros (W1 & (z & Hz & Ez) & W3 & W4) (F1 & F2 & F3) dyn Hs Hd (-> & Hn & _ & ->)%create_asset_ok.
  set (id := db_next_asset d) in *.
  assert (∀ x (g : asset_dynamic_data_object → Z), from_option g 0 (dyn_of x (<[id := f id]> (db_assets d)) (db_asset_dyn d)) =
    from_option g 0 (dyn_of x (db_assets d) (db_asset_dyn d)) + (if id =? x then g (mkDynData 0 0 fees 0) else 0)) as E.
  { intros x g. unfold dyn_of. destruct (Z.eqb_spec id x) as [<-|]; [|rewrite lookup_insert_ne by done; lia].
    rewrite lookup_insert_eq, Hn. simpl. fold dyn. rewrite Hs. simpl. lia. }
  split_and!; try done.
  - split_and!; try done; simpl.
    + intros i j x y [[<- <-]|[? Hi]]%lookup_insert_Some [[<- <-]|[? Hj]]%lookup_insert_Some E'; try done.
      * by destruct (Hd _ _ Hj).
      * by destruct (Hd _ _ Hi).
      * by eapply W1.
    + exists z. rewrite lookup_insert_ne; [done|congruence].
  - split_and!; try done. simpl. intros i a [[<- <-]|[_ Hi]]%lookup_insert_Some; [|destruct (F1 _ _ Hi); lia].
    specialize (F2 _ _ Hs). fold id dyn. lia.
  - intros x. unfold imbalance, held, held_market, issuer_held, current_supply, amount_of. simpl. rewrite !E. simpl.
    destruct (id =? x); lia.
  - intros x. unfold current_supply. simpl. rewrite E. simpl. case_match; lia.
Qed.

(** What each object does to the tally. *)
Definition object_step (t t' : tally) : Prop :=
  running (db_next_asset (ty_db t)) t →
  running (db_next_asset (ty_db t')) t' ∧ setting (ty_db t') = setting (ty_db t) ∧
  witnesses_of (ty_db t') = witnesses_of (ty_db t).

Lemma create_initial_asset_step t a t' : asset_amounts_ok a →
  create_initial_asset key_addresses flags boost_to_lower t a = Ok t' → object_step t t'.
Proof.
  intros Ha H R. set (n := db_next_asset (ty_db t)) in *. unfold create_initial_asset in H. cbn in H. fold n in H.
  apply rbind_ok in H as ([bit t1] & H1 & H). apply (bitasset_data_running a n) in H1 as [R1 O1]; [|done..].
  apply rbind_ok in H as ([dyn d2] & H2 & H).
  apply (dyn_running (n + 1)) in H2 as (R2 & Hdyn & Eid & _ & Eas & Enext & S2 & W2); [|done|done].
  apply rbind_ok in H as (t3 & H3 & H). apply rbind_ok in H3 as (m & [Em Ek]%add_to_ok & [= <-]). cbn in H.
  apply rbind_ok in H as (issuer & _ & H). apply rbind_ok in H as (d4 & H & [= <-]). cbn in H.
  apply rbind_ok in H as ([i d5] & H & [= <-]). apply outline_inv in O1 as (Oa & On & Os & Ow).
  destruct R2 as [W F I S D C K N Z0]. cbn in *. apply (create_asset_adds _ _ _ _ (ias_accumulated_fees a)) in H
    as (W' & F' & I' & S' & -> & ->); [|done|done|done|].
  2: { simpl. rewrite Eas. intros j b Hb E. destruct (run_fresh _ _ R1) as [F1 _]. destruct (F1 _ _ Hb). lia. }
  cbn. assert (db_next_asset d2 = n) as En by (by rewrite Enext, On). split; [|split; [transitivity (setting d2)|transitivity (witnesses_of d2)]; [done|congruence|done|congruence]].
  rewrite En in *. split; cbn; try done.
  - intros x. by rewrite I', I, Em.
  - intros x. by rewrite S'.
  - intros x [[Hx| ->]%Ek|Hx]; [| |]; auto; lia.
  - rewrite Em. unfold amount_of. cbn. destruct (Z.eqb_spec n core_id) as [E0|]; [|lia].
    pose proof (run_next _ _ R). unfold core_id in E0. lia.
Qed.

Lemma create_balance_step owner aid x policy t t' : aid < db_next_asset (ty_db t) → 0 <= x →
  create_balance owner aid x policy t = Ok t' → object_step t t'.
Proof.
  intros Ha Hx H R. unfold create_balance in H. apply rbind_ok in H as (t1 & H1 & H).
  apply rbind_ok in H1 as (d1 & H1 & [= <-]). apply rbind_ok in H1 as ([i b] & (-> & Hn & _ & ->)%index_create_ok & [= <-]).
  pose proof R as [W F _ _ _ _ _ _ _].
  eapply add_supply_running in H as [R' E']; [|done|done| |done|done|done|exact Ha|done|exact R].
  { rewrite E'. by split. }
  intros y. rewrite imbalance_set_genesis_balances. cbn. unfold held_genesis. rewrite msum_insert_new by done. cbn. lia.
Qed.

Lemma get_asset_id_known d symbol aid : asset_ids_fresh d → get_asset_id d symbol = Ok aid → aid < db_next_asset d.
Proof.
  intros [F _] (x & Hx & ->)%of_option_ok%fmap_Some. unfold find_symbol in Hx. apply List.find_some in Hx as [Hx _].
  apply list_elem_of_In in Hx. unfold in_order in Hx. rewrite sort_perm in Hx. destruct x as [i a].
  apply elem_of_map_to_list in Hx. by destruct (F _ _ Hx).
Qed.

Lemma object_steps {A} (f : tally → A → result tally) (ok : A → Prop) l t t' :
  (∀ t x t', ok x → f t x = Ok t' → object_step t t') → Forall ok l → rfold f t l = Ok t' → object_step t t'.
Proof.
  intros Hf Hl. revert t. induction Hl as [|x l Hx _ IH]; intros t H R; simpl in H; [by injection H as <-|].
  apply rbind_ok in H as (t1 & H1 & H). destruct (Hf _ _ _ Hx H1 R) as (R1 & S1 & W1).
  destruct (IH _ H R1) as (R2 & S2 & W2). split_and!; [done|congruence..].
Qed.

(** ** The supplies *)

Definition supply_of (t : tally) (x : Z) : Z := default 0 (total_supplies t !! x).

(** Before the supplies are saved: what is held is the new supply. *)
Lemma settle_committee_ok n t t' : running n t → settle_committee t = Ok t' →
  assets_wf (ty_db t') ∧ (∀ x, imbalance x (ty_db t') = supply_of t' x - current_supply x (ty_db t')) ∧
  (∀ x, total_supplies t' !! x = None → current_supply x (ty_db t') = 0) ∧
  (∀ x, total_debt x (ty_db t') = default 0 (total_debts t' !! x)) ∧
  setting (ty_db t') = setting (ty_db t) ∧ witnesses_of (ty_db t') = witnesses_of (ty_db t).
Proof.
  intros [W F I S D C K N Z0] H. unfold settle_committee, supply_of in *. case_in H.
  - apply rbind_ok in H as (d1 & H & [= <-]). cbn. apply rbind_ok in H as (b & ->%asset_neg_ok & H).
    unfold get_balance in H. rewrite C in H. cbn in H. pose proof (adjust_balance_moves _ _ _ _ H W) as [W' I'].
    apply adjust_balance_frame in H as [m ->]. split_and!; try done.
    + intros x. rewrite I', I. unfold current_supply. cbn. fold (current_supply x (ty_db t)). rewrite S.
      unfold amount_of. cbn. case_match; lia.
    + intros x Hx. unfold current_supply. cbn. fold (current_supply x (ty_db t)). rewrite S, amount_of_core.
      destruct (Z.eqb_spec x core_id) as [E|]; [|done]. rewrite E in Hx. rewrite Hx in *. done.
  - injection H as <-. cbn. split_and!; try done.
    + intros x. rewrite I, S, amount_of_core. destruct (Z.eqb_spec x core_id) as [E|E].
      * rewrite E, lookup_insert_eq. cbn. b2p. lia.
      * rewrite lookup_insert_ne by congruence. lia.
    + intros x [Hx Hne]%lookup_insert_None. rewrite S, amount_of_core. destruct (Z.eqb_spec x core_id); congruence.
Qed.

(** One supply: the measure of that asset moves with it. *)
Lemma save_supply_ok d k v d' : assets_wf d → save_supply d (k, v) = Ok d' →
  assets_wf d' ∧ (∀ x, current_supply x d' = if k =? x then v else current_supply x d) ∧
  (∀ x, imbalance x d' + current_supply x d' = imbalance x d + current_supply x d) ∧ ∃ m, d' = set_asset_dyn m d.
Proof.
  intros W H. apply rbind_ok in H as (a & Ha%of_option_ok & H). cbn in Ha.
  apply (moves_modify_asset_dyn _ k) in H as (s & s' & Hs & [= <-] & -> & M); [|done].
  destruct (M W) as [W' I]. split; [done|].
  assert (∀ x, current_supply x (set_asset_dyn (<[as_dynamic_asset_data_id a := set_current_supply (λ _, v) s]>) d) =
    if k =? x then v else current_supply x d) as S.
  { intros x. unfold current_supply, dyn_of. cbn. destruct (Z.eqb_spec k x) as [<-|Hne].
    - rewrite Ha. cbn. by rewrite lookup_insert_eq.
    - destruct (db_assets d !! x) as [b|] eqn:Hb; [|done]. cbn. rewrite lookup_insert_ne; [done|].
      intros E. destruct W as [W _]. by specialize (W _ _ _ _ Ha Hb E). }
  split_and!; [exact S| |by eexists]. intros x. rewrite I, S. unfold core_delta, amount_of. cbn.
  destruct (Z.eqb_spec k x) as [<-|]; [|case_match; lia]. unfold current_supply, dyn_of. rewrite Ha. cbn. rewrite Hs. cbn.
  case_match; lia.
Qed.

Lemma save_supplies_run (T : Z → Z) l d d' : assets_wf d → (∀ k v, (k, v) ∈ l → T k = v) →
  rfold save_supply d l = Ok d' →
  assets_wf d' ∧ (∀ x, imbalance x d' + current_supply x d' = imbalance x d + current_supply x d) ∧
  (∀ x, x ∈ l.*1 ∨ current_supply x d = T x → current_supply x d' = T x) ∧
  ∃ m, d' = set_asset_dyn m d.
Proof.
  revert d. induction l as [|[k v] l IH]; intros d W HT H; simpl in H.
  { injection H as <-. split_and!; [done..| |exists (λ m, m); by destruct d]. intros x [Hx|]; [inversion Hx|done]. }
  apply rbind_ok in H as (d1 & (W1 & S1 & I1 & m1 & E1)%save_supply_ok & H); [|done].
  apply IH in H as (W2 & I2 & S2 & m2 & E2); [|done|intros; apply HT; by right].
  split_and!; [done|intros x; rewrite I2; apply I1| |exists (λ m, m2 (m1 m)); rewrite E2, E1; by destruct d].
  intros x Hx. apply S2. rewrite S1. destruct (Z.eqb_spec k x) as [<-|Hne]; [right; symmetry; apply HT; by left|].
  destruct Hx as [[E|Hx]%elem_of_cons|Hx]; [cbn in E; congruence|by left|by right].
Qed.

Lemma create_initial_balance_step t h t' : 0 <= ib_amount h → create_initial_balance t h = Ok t' → object_step t t'.
Proof.
  intros Hx H R. apply rbind_ok in H as (aid & Ha%get_asset_id_known & H); [|apply (run_fresh _ _ R)].
  by eapply create_balance_step.
Qed.

Lemma create_initial_vesting_balance_step t v t' :
  0 <= iv_amount v → create_initial_vesting_balance t v = Ok t' → object_step t t'.
Proof.
  intros Hx H R. apply rbind_ok in H as (aid & Ha%get_asset_id_known & H); [|apply (run_fresh _ _ R)].
  by eapply create_balance_step.
Qed.

Definition genesis_amounts_ok (g : genesis_state_type) : Prop :=
  Forall asset_amounts_ok (initial_assets g) ∧ Forall (λ h, 0 <= ib_amount h) (initial_balances g) ∧
  Forall (λ v, 0 <= iv_amount v) (initial_vesting_balances g).

(** Of a market-issued asset as much is owed as circulates. *)
Definition positions_balanced (d : database) : Prop :=
  ∀ x a, db_assets d !! x = Some a → is_market_issued a = true → current_supply x d = total_debt x d.

Lemma save_supplies_balanced n t t' d' : running n t → settle_committee t = Ok t' →
  forallb (asset_balanced t') (map_to_list (db_assets (ty_db t'))) = true → save_supplies t' = Ok d' →
  assets_wf d' ∧ (∀ x, imbalance x d' = 0) ∧ positions_balanced d' ∧
  setting d' = setting (ty_db t) ∧ witnesses_of d' = witnesses_of (ty_db t).
Proof.
  intros R (W & I & S & D & Es & Ew)%(settle_committee_ok n) Hb H; [|done]. unfold save_supplies in H.
  set (l := in_order _ _) in H.
  assert (∀ x v, (x, v) ∈ l ↔ total_supplies t' !! x = Some v) as Hl.
  { intros x v. subst l. unfold in_order. by rewrite sort_perm, elem_of_map_to_list. }
  apply (save_supplies_run (supply_of t')) in H as (W' & I' & S' & m & ->); [|done|].
  2: { intros k v Hk%Hl. unfold supply_of. by rewrite Hk. }
  assert (∀ x, current_supply x (set_asset_dyn m (ty_db t')) = supply_of t' x) as E.
  { intros x. apply S'. destruct (total_supplies t' !! x) as [v|] eqn:Hx.
    - left. apply list_elem_of_fmap. exists (x, v). split; [done|]. by apply Hl.
    - right. unfold supply_of. rewrite Hx. by apply S. }
  split_and!; [done| | |done|done].
  - intros x. specialize (I' x). rewrite E, I in I'. lia.
  - intros x a Ha Hm. rewrite E. change (total_debt x (ty_db t')) with (total_debt x (set_asset_dyn m (ty_db t'))) in D.
    transitivity (default 0 (total_debts t' !! x)); [|symmetry; apply D].
    rewrite forallb_forall in Hb. specialize (Hb (x, a)). unfold asset_balanced in Hb. cbn in Hb. rewrite Hm in Hb. cbn in Hb.
    assert (In (x, a) (map_to_list (db_assets (ty_db t')))) as Hin by (by apply list_elem_of_In, elem_of_map_to_list).
    apply Hb in Hin. unfold supply_of. do 2 (case_match; try done). cbn. lia.
Qed.

Lemma assets_and_balances_ok g d d' : genesis_amounts_ok g → running (db_next_asset d) (mkTally d ∅ ∅) →
  create_assets_and_balances key_addresses flags boost_to_lower g d = Ok d' →
  assets_wf d' ∧ (∀ x, imbalance x d' = 0) ∧ positions_balanced d' ∧ setting d' = setting d ∧ witnesses_of d' = witnesses_of d.
Proof.
  intros (A1 & A2 & A3) R H. unfold create_assets_and_balances in H.
  apply rbind_ok in H as (t1 & H1 & H). apply rbind_ok in H as (t2 & H2 & H). apply rbind_ok in H as (t3 & H3 & H).
  apply (object_steps _ asset_amounts_ok) in H1; [|intros; by eapply create_initial_asset_step|done].
  apply (object_steps _ (λ h, 0 <= ib_amount h)) in H2; [|intros; by eapply create_initial_balance_step|done].
  apply (object_steps _ (λ v, 0 <= iv_amount v)) in H3; [|intros; by eapply create_initial_vesting_balance_step|done].
  destruct (H1 R) as (R1 & S1 & W1). destruct (H2 R1) as (R2 & S2 & W2). destruct (H3 R2) as (R3 & S3 & W3).
  apply rbind_ok in H as (t4 & H4 & H). apply rbind_ok in H as (u & Hb%require_ok & H).
  eapply save_supplies_balanced in H as (W & I & B & S & Ew); [|exact R3|exact H4|exact Hb].
  cbn in S1, W1. split_and!; [done|done|done|congruence|congruence].
Qed.

(** ** Accounts and candidates *)

Lemma accounts_and_core_ok g d : genesis_accounts_and_core g = Ok d →
  running (db_next_asset d) (mkTally d ∅ ∅) ∧ setting d = setting (initial_database g) ∧
  witnesses_of d = witnesses_of (initial_database g).
Proof.
  intros H. unfold genesis_accounts_and_core in H. apply rbind_ok in H as (d1 & H1 & H).
  assert (unborn g d1) as U1.
  { refine (rfold_invariant _ (λ d d', unborn g d → unborn g d') _ _ _ _ _ _ H1 (initial_unborn g));
      [done|tauto|intros; by eapply create_reserved_unborn]. }
  apply rbind_ok in H as (d2 & H2%(special_accounts_unborn g) & H); [|done].
  apply rbind_ok in H as (d3 & (R & S & W)%(create_core_running g) & H); [|done].
  destruct (special_assets_running _ _ _ (mkTally d3 ∅ ∅) _ R eq_refl H) as (R' & S' & W').
  split_and!; [exact R'|rewrite S'; exact S|rewrite W'; exact W].
Qed.

Lemma initial_accounts_quiet l d d' : rfold (create_initial_account key_addresses flags) d l = Ok d' → very_quiet d d'.
Proof. apply (rfold_invariant _ very_quiet); [reflexivity|intros; by etrans|]. intros ? ? ? _. apply account_quiet. Qed.

(** As many witnesses as ids given out; the first id is not in use. *)
Definition enrolled (n : Z) (d : database) : Prop :=
  gv_next_witness (db_governance d) = n ∧ ∀ i, 1 <= i < n → is_Some (db_witnesses d !! i).

Lemma enrolled_same n d d' : witnesses_of d' = witnesses_of d → enrolled n d → enrolled n d'.
Proof. unfold witnesses_of, enrolled. by intros [= -> ->]. Qed.

Lemma null_witness_ok g d d' : witnesses_of d = witnesses_of (initial_database g) → create_null_witness d = Ok d' →
  quiet d d' ∧ enrolled 1 d'.
Proof.
  intros W H. unfold create_null_witness, create_witness in H. apply rbind_ok in H as ([id d1] & H1 & H).
  apply rbind_ok in H1 as (u & _ & [= <- <-]). apply rbind_ok in H as (u' & _ & [= <-]).
  unfold witnesses_of in W. cbn in W. injection W as E1 E2. split.
  - split; [|done]. eapply moves_conserves_l; [apply moves_set_witnesses|].
    eapply moves_conserves_l; [apply moves_set_governance|]. apply moves_set_witnesses.
  - split; [cbn; by rewrite E2|]. lia.
Qed.

Lemma initial_witness_ok n d w d' : 0 < n → enrolled n d → create_initial_witness key_addresses flags d w = Ok d' →
  quiet d d' ∧ enrolled (n + 1) d'.
Proof.
  intros Hn E H. apply rbind_ok in H as (a & _ & H). apply rbind_ok in H as (s & H & [= <-]). cbn in H.
  apply rbind_ok in H as (d1 & H & [= <-]). apply free_operation in H as ([] & d2 & [Q W] & _ & H); [|done].
  apply (enrolled_same _ _ _ W) in E as [En Ei]. pose proof (do_apply_conserves (Op := witness_create_operation) d2 d2 _ tt d1 eq_refl H) as M.
  simpl in H. apply drop_id_ok in H as [id H]. unfold witness_create_do_apply, create_witness in H. cbn in H.
  apply rbind_ok in H as (u & _ & [= _ <-]). cbn. split; [etrans; [exact Q|]; split; [exact M|done]|].
  split; [cbn; by rewrite En|]. cbn. rewrite En. intros i Hi. destruct (decide (n = i)) as [->|]; [by rewrite lookup_insert_eq|].
  rewrite lookup_insert_ne by done. apply Ei. lia.
Qed.

Lemma initial_witnesses_ok l n d d' : 0 < n → enrolled n d →
  rfold (create_initial_witness key_addresses flags) d l = Ok d' → quiet d d' ∧ enrolled (n + Z.of_nat (length l)) d'.
Proof.
  revert n d. induction l as [|w l IH]; intros n d Hn E H; simpl in H.
  { injection H as <-. split; [reflexivity|]. by rewrite Z.add_0_r. }
  apply rbind_ok in H as (d1 & (Q1 & E1)%(initial_witness_ok n) & H); [|done..].
  apply (IH (n + 1)) in H as [Q2 E2]; [|lia|done]. split; [by etrans|].
  cbn [length]. by replace (n + Z.of_nat (S (length l))) with (n + 1 + Z.of_nat (length l)) by lia.
Qed.

Lemma initial_member_quiet d name d' : create_initial_committee_member key_addresses flags d name = Ok d' → very_quiet d d'.
Proof.
  intros H. apply rbind_ok in H as (a & _ & H). apply rbind_ok in H as (s & H & [= <-]). cbn in H.
  apply rbind_ok in H as (d1 & H & [= <-]). apply free_operation in H as ([] & d2 & Q & _ & H); [|done].
  pose proof (do_apply_conserves (Op := committee_member_create_operation) d2 d2 _ tt d1 eq_refl H) as M. cbn. etrans; [exact Q|].
  simpl in H. apply drop_id_ok in H as [id H]. unfold committee_member_create_do_apply in H. cbn in H.
  apply rbind_ok in H as ([i t] & _ & [= _ <-]). split; [split; [exact M|]|]; done.
Qed.

Lemma initial_worker_quiet t0 d w d' : create_initial_worker key_addresses flags t0 d w = Ok d' → very_quiet d d'.
Proof.
  intros H. apply rbind_ok in H as (a & _ & H). apply rbind_ok in H as (s & H & [= <-]). cbn in H.
  apply rbind_ok in H as (d1 & H & [= <-]). apply free_operation in H as ([] & d2 & Q & He & H); [|done].
  pose proof (do_apply_conserves (Op := worker_create_operation) d d2 _ tt d1 He H) as M. cbn. etrans; [exact Q|].
  simpl in H. apply drop_id_ok in H as [id H]. unfold worker_create_do_apply in H. cbn in H.
  apply rbind_ok in H as ([kind d3] & H3 & H). apply rbind_ok in H3 as ([v t] & _ & [= _ <-]).
  apply rbind_ok in H as ([i t'] & _ & [= _ <-]). split; [split; [exact M|]|]; done.
Qed.

Lemma create_candidates_keeps g d d' : witnesses_of d = witnesses_of (initial_database g) →
  create_candidates key_addresses flags g d = Ok d' →
  quiet d d' ∧ enrolled (1 + Z.of_nat (length (initial_witness_candidates g))) d'.
Proof.
  intros W H. unfold create_candidates in H. apply rbind_ok in H as (d1 & (Q1 & E1)%(null_witness_ok g) & H); [|done].
  apply rbind_ok in H as (d2 & (Q2 & E2)%(initial_witnesses_ok _ 1) & H); [|done..].
  apply rbind_ok in H as (d3 & H3 & H4).
  apply (rfold_invariant _ very_quiet) in H3; [|reflexivity|intros; by etrans|intros ? ? ? _; apply initial_member_quiet].
  apply (rfold_invariant _ very_quiet) in H4; [|reflexivity|intros; by etrans|intros ? ? ? _; apply initial_worker_quiet].
  assert (very_quiet d2 d') as [Q W'] by (by etrans). split; [|by eapply enrolled_same].
  etrans; [exact Q1|]. by etrans.
Qed.

(** ** The first state *)

Lemma start_chain_ok g d : setting d = setting (initial_database g) →
  (∀ x, imbalance x (start_chain g d) = imbalance x d) ∧ coffers (start_chain g d) = coffers d ∧
  clock (start_chain g d) = (0, initial_timestamp g) ∧ parameters (start_chain g d) = initial_parameters g ∧
  (∀ w, w ∈ gp_active_witnesses (db_gpo (start_chain g d)) ↔ 1 <= w <= initial_active_witnesses g) ∧
  witnesses_of (start_chain g d) = witnesses_of d.
Proof.
  intros S. unfold setting in S.
  assert (clock d = clock (initial_database g)) as Ec by exact (f_equal (λ x, x.1.1.1) S).
  assert (set_account_basic_fee (λ _, 0) (parameters d) = set_account_basic_fee (λ _, 0) (parameters (initial_database g)))
    as Ep by exact (f_equal (λ x, x.1.1.2) S).
  assert (gp_active_witnesses (db_gpo d) = ∅) as Ea by exact (f_equal (λ x, x.1.2) S).
  assert (db_fbas d = ∅) as Ef by exact (f_equal snd S). clear S. split_and!; try done.
  - intros x. unfold start_chain. rewrite imbalance_set_fbas. cbn [db_fbas set_shuffled_witnesses set_gpo]. rewrite Ef.
    unfold held_fbas. rewrite msum_empty. unfold core_delta. rewrite amount_of_core.
    match goal with |- context [msum ?f ?m] => assert (msum f m = 0) as -> by reflexivity end.
    transitivity (imbalance x d + 0); [|lia]. by destruct (x =? core_id).
  - change (set_account_basic_fee (λ _, cp_account_basic_fee (initial_parameters g)) (parameters d) = initial_parameters g).
    transitivity (set_account_basic_fee (λ _, cp_account_basic_fee (initial_parameters g))
      (set_account_basic_fee (λ _, 0) (parameters d))); [done|]. rewrite Ep.
    change (parameters (initial_database g)) with (set_account_basic_fee (λ _, 0) (initial_parameters g)).
    by destruct (initial_parameters g).
  - intros w. cbn. rewrite Ea, union_empty_l_L, elem_of_list_to_set, elem_of_seqZ. lia.
Qed.

(** C5. A chain starts in balance.  When [init_genesis] succeeds on a genesis
    state without negative amounts, then in the state before the first block
    every asset has its own dynamic data, and its supply is what balances,
    margin positions and accumulated fees hold of it, not a coin more or less;
    as much of every market-issued asset is owed by positions as circulates;
    the clock shows the initial time, and the parameters, the registration fee
    included, are the initial ones although the initial accounts were
    registered for nothing; the active witnesses are the first ones, all of
    them exist, and they are the schedule; and no transaction or proposal is
    there. *)
Theorem genesis_balanced g s : genesis_amounts_ok g → init_genesis key_addresses flags boost_to_lower g = Ok s →
  let d := cs_db s in
  assets_wf d ∧ (∀ x, imbalance x d = 0) ∧ positions_balanced d ∧
  clock d = (0, initial_timestamp g) ∧ parameters d = initial_parameters g ∧
  (∀ w, w ∈ gp_active_witnesses (db_gpo d) ↔ 1 <= w <= initial_active_witnesses g) ∧
  (∀ w, w ∈ gp_active_witnesses (db_gpo d) → is_Some (db_witnesses d !! w)) ∧
  db_shuffled_witnesses d = flat_elements (gp_active_witnesses (db_gpo d)) ∧
  objs (cs_transactions s) = ∅ ∧ objs (cs_proposals s) = ∅.
Proof.
  intros Hg H. unfold init_genesis in H. apply rbind_ok in H as (u1 & _ & H). apply rbind_ok in H as (u2 & _ & H).
  apply rbind_ok in H as (u3 & _ & H). apply rbind_ok in H as (u4 & Hn%require_ok%Z.leb_le & H).
  apply rbind_ok in H as (d1 & (R1 & S1 & W1)%accounts_and_core_ok & H).
  apply rbind_ok in H as (u5 & _ & H). apply rbind_ok in H as (u6 & _ & H).
  apply rbind_ok in H as (d2 & [Q2 W2]%initial_accounts_quiet & H).
  pose proof (running_quiet _ _ _ R1 Q2) as R2. destruct Q2 as (_ & E2 & S2). cbn in R2.
  assert (db_next_asset d2 = db_next_asset d1) as En by exact (f_equal (λ x, x.1.1.2) E2). rewrite <- En in R2.
  apply rbind_ok in H as (d3 & (W3 & I3 & B3 & S3 & V3)%assets_and_balances_ok & H); [|done..].
  apply rbind_ok in H as (d4 & ((M4 & E4 & S4) & Hr)%(create_candidates_keeps g) & [= <-]); [|congruence].
  destruct (start_chain_ok g d4) as (I5 & E5 & Hc & Hp & Ha & W5); [congruence|]. cbn. destruct (M4 W3) as [W4 I4].
  split_and!; try done.
  - intros x. by rewrite I5, I4, I3.
  - intros x a. assert (db_assets (start_chain g d4) = db_assets d3) as -> by exact (f_equal (λ x, x.1.1.1.1.1.2) E4).
    rewrite (coffers_supply d3), (coffers_debt d3) by congruence. apply B3.
  - intros w Hw%Ha. eapply enrolled_same in Hr as [_ Hr]; [apply Hr; lia|exact W5].
Qed.

(** The loops for ids that are not to be given out end. *)
Theorem special_ids_end num d :
  (0 <= next_id (db_accounts d) → special_accounts (Z.to_nat num) num d ≠ Throw out_of_fuel) ∧
  (0 <= db_next_asset d → special_assets (Z.to_nat num) num d ≠ Throw out_of_fuel).
Proof.
  split; intros H; [apply special_accounts_end; lia|].
  assert (num - db_next_asset d <= Z.of_nat (Z.to_nat num)) as Hf by lia. clear H. revert d Hf.
  induction (Z.to_nat num) as [|fuel IH]; intros d Hf; simpl; destruct (Z.leb_spec num (db_next_asset d)); try done; [lia|].
  destruct (create_asset_dyn _ _) as [[dyn d1]|e] eqn:H1; cbn [rbind];
    [|unfold create_asset_dyn, require in H1; case_in H1; cbn in H1; congruence].
  apply create_dyn_ok in H1 as (_ & _ & ->).
  destruct (create_asset _ _) as [[i d2]|e] eqn:H2; cbn [rbind];
    [|unfold create_asset, require in H2; case_in H2; cbn in H2; congruence].
  apply create_asset_ok in H2 as (-> & _ & _ & ->). destruct (require _ _) eqn:Hq; cbn [rbind];
    [|unfold require in Hq; case_in Hq; congruence].
  unfold remove_asset, get_asset_object. cbn. rewrite lookup_insert_eq. cbn. apply IH. cbn. lia.
Qed.
End genesis.

(** ** A sample *)

#[local] Existing Instance fc_reference.
#[local] Existing Instance fc_reference_laws.
#[local] Existing Instance boost_reference.
#[local] Existing Instance nth_reference.
#[local] Existing Instance same_case.
#[local] Existing Instance no_ip.
#[local] Existing Instance no_commitments.
#[local] Existing Instance no_sizes.

Definition company (name : string) (key : Z) : initial_account_type := mkInitialAccount name "" "" key key.

(** Two positions owe the thousand dollars that wait for their owners or are
    fees; twelve accounts and two assets have reserved ids. *)
Definition sample_genesis (xom usd : Z) : genesis_state_type :=
  mkGenesis 1570000000 GRAPHENE_MAX_SHARE_SUPPLY (company "founder" 1) (company "kyc" 2) (company "exchange" 3)
    (company "welcome" 4) (parameters sample_db) (mkImmutable 3 3 12 2)
    [mkInitialAccount "init0" "" "" 11 0; mkInitialAccount "init1" "" "" 12 13]
    [mkInitialAsset "GOLD" "init0" 4 1000000 5 false [];
     mkInitialAsset "USD" "committee-account" 4 1000000 10 true [mkPosition 50 3000 600; mkPosition 51 2000 400]]
    [mkInitialBalance 60 "XOM" xom; mkInitialBalance 61 "USD" usd; mkInitialBalance 61 "GOLD" 30]
    [mkInitialVesting 62 "USD" 200 1570000000 1000 200]
    2 [mkInitialWitness "init0" 21; mkInitialWitness "init1" 22] ["init0"] [mkInitialWorker "init1" 500].

Definition start_of (g : genesis_state_type) : result chain_state := init_genesis no_addresses skip_nothing (λ s, s) g.
Definition first_state (g : genesis_state_type) : chain_state := get_ok (start_of g) (genesis_chain (initial_database g)).

(** The positions and balances make up the supplies; with a dollar too many
    in circulation there is no chain. *)
Example first_supplies :
  let d := cs_db (first_state (sample_genesis 100000 790)) in
  (current_supply 0 d, current_supply 2 d, current_supply 3 d) = (105000, 35, 1000) ∧
  db_shuffled_witnesses d = [1; 2] ∧ is_ok (start_of (sample_genesis 100000 791)) = false.
Proof. vm_compute. done. Qed.

(** Amounts are not checked: with a negative balance the supply of the core
    currency is the maximum, and not all of it exists. *)
Example negative_balance_unbalanced :
  is_ok (start_of (sample_genesis (-6000) 790)) = true ∧
  imbalance 0 (cs_db (first_state (sample_genesis (-6000) 790))) = -1000.
Proof. vm_compute. done. Qed.

Lemma genesis_balanced_witness :
  let d := cs_db (first_state (sample_genesis 100000 790)) in
  (∀ x, imbalance x d = 0) ∧ positions_balanced d ∧ clock d = (0, 1570000000).
Proof.
  destruct (genesis_balanced no_addresses skip_nothing (λ s, s) (sample_genesis 100000 790)
    (first_state (sample_genesis 100000 790))) as (_ & H1 & H2 & H3 & _).
  - split; [|split]; repeat constructor; simpl; lia.
  - apply get_ok_eq. vm_compute. reflexivity.
  - split; [exact H1|split; [exact H2|exact H3]].
Defined.
